(* ===== verification/_CoqProject ===== *)
-Q . S2P
Prelude.v
Naming.v
StreamFrame.v
Trace.v
Loop.v
Tables.v
Sorting.v
Json.v
Argparse.v
ArgparseFacts.v
ArgparseSound.v
NetAddr.v
Paths.v
Regex.v
Base64.v
Identity.v
Worker.v
UniversalHex.v
Virtual.v
Store.v
StoreFacts.v
StoreNames.v
Locks.v
Claims.v
Daemon.v
DaemonFacts.v
Flash.v
FlashFacts.v
EventBus.v
Peering.v
PeeringFacts.v
Discovery.v
DiscoveryFacts.v
Servers.v
ServersFacts.v
Api.v
ApiFacts.v
ApiWindows.v
ApiWindowsFacts.v
RemoteApi.v
RemoteFacts.v
Stream.v
Relay.v
RelayFacts.v
RelayPool.v
NamesApi.v
NamesFacts.v
Render.v
RenderFacts.v
Client.v
Connections.v
Build.v
Feeds.v
FeedsFacts.v
Channel.v
ChannelFacts.v
Session.v
Service.v
ServiceFacts.v
RegistryCli.v
RegistryCliFacts.v
RegistryRun.v
RegistryRunFacts.v
Replication.v
Assembly.v
WindowsService.v
Tool.v
ToolFacts.v
Cli.v
Release.v
ReleaseFacts.v
Deploy.v
DeployFacts.v
Console.v
RelayCli.v
RelayCliFacts.v
Serial.v
SerialFacts.v
Parsers.v
ParsersFacts.v
