(* ===== verification/Prelude.v ===== *)
(** * mbtools: a verification development

    mbtools lets the hosts of a network share the micro:bit boards plugged
    into them: a daemon on each host ([mbregistry run]) keeps a table of the
    boards, lends them under exclusive locks, flashes them, streams their
    serial ports and replicates its table to the daemons of other hosts;
    command-line tools ([mbregistry], [mbdeploy], [mbserial], [mbrelay]) are
    its clients.  This library translates the Python sources under
    [src/src/mbtools/] into Rocq definitions and proves theorems about them.
    Names are the source's, without leading underscores.

    ** How the parts interact

    The daemon's cycle (Daemon) scans USB, claims what it finds (Claims),
    writes the store (Store, StoreNames), releases the locks of what is gone
    (Locks) and probes what is new (Identity, Worker).  The request servers
    (Api over a Unix socket, ApiWindows over a pipe, RemoteApi over TCP)
    work on the same store and lock table; a connection's end releases what
    it acquired.  A flash (Flash, with UniversalHex) and a stream (Stream,
    StreamFrame, Feeds) run under a lock a connection holds.  What changes is published to the
    watchers of the host (EventBus) and to its peers (Peering), by the
    callbacks of RegistryRun, which also starts and stops every part;
    Assembly makes the parts and hands each the lock, the tables and the bus
    they all share.
    Peering applies what peers send; Discovery finds them and keeps one
    link to each.  NamesApi and RelayPool are the two older network
    services, over the same state.  On the other side Client has the
    requests of a tool, Session joins them to Api, and Tool is the world
    the tools' commands run in (RegistryCli, Deploy, Serial, RelayCli).

    ** Files

    Shared.  Prelude: exceptions, the state-and-error monad [M], Python's
    text methods, tactics, hints.  Tables: keyed tables and insertion-ordered
    dictionaries, with their abstraction to [gmap].  Trace: what a
    computation adds to a log.  Loop: loops with a bound too large to count
    down.  Sorting: [sorted] with a key.  Json: what [json.loads] gives,
    [int()], [float()], [bool()].  Base64, Regex: the parts of those
    libraries the sources use.  Argparse, ArgparseFacts, ArgparseSound: the
    command-line parser of Python 3.11's standard library.

    Boards.  Naming ([relay/naming.py]); Identity and Worker
    ([registry/identity.py]); Claims ([registry/usbwatch.py],
    [registry/claims.py]); Virtual ([registry/virtual.py]); Store and
    StoreNames ([registry/store.py]), with their theorems in StoreFacts;
    Locks ([registry/locks.py]), with the class [LockHost] of what owns a lock
    manager; Daemon, DaemonFacts ([registry/daemon.py]).

    Flashing.  UniversalHex ([registry/universal_hex.py]); Flash, FlashFacts
    ([registry/flash.py], [registry/flashlogic.py]); Release, ReleaseFacts
    ([deploy/release.py]).

    Replication.  EventBus ([registry/eventbus.py]); Peering, PeeringFacts
    and Discovery, DiscoveryFacts (the two halves of
    [registry/peering.py]); NetAddr ([registry/netaddr.py]); Replication
    (a daemon's cycles, its callback and a peer's link, together).

    Servers.  Api, ApiFacts ([registry/_api_base.py], [registry/api.py]);
    ApiWindows, ApiWindowsFacts ([registry/api_windows.py]); RemoteApi,
    RemoteFacts ([registry/remote_api.py]); StreamFrame
    ([registry/stream_frame.py]); Stream (the data phase of a stream, in
    [_api_base.py]); Feeds, FeedsFacts (the other modes of a connection and
    the client's end of a stream); NamesApi, NamesFacts and RelayPool
    ([registry/console_compat/]); Servers, ServersFacts (the start and stop
    of all of them).

    Relays.  Relay, RelayFacts ([relay/protocol.py]); Channel, ChannelFacts
    ([relay/channel.py], with the class [ByteChannel] of what the protocol
    asks of a transport).

    Clients and commands.  Render, RenderFacts ([registry/render.py]);
    Client ([registry/client.py], [registry/remote_client.py], over an
    interface of what carries the lines); Connections (the sockets below
    them: the peer's process, keep-alive, opening and closing); Session
    (Client over Api); Paths
    ([registry/paths.py]); Service, ServiceFacts ([registry/service.py]);
    RegistryCli, RegistryRun and their Facts, Assembly ([registry/cli.py]);
    WindowsService ([registry/service_windows.py]); Tool, ToolFacts, Cli,
    Console (what the tools share); Deploy, DeployFacts and Build
    ([deploy/cli.py]); Serial, SerialFacts ([serial/]); RelayCli,
    RelayCliFacts ([relay/cli.py]); Parsers, ParsersFacts (the four
    [build_parser]s and the [main]s around them).

    ** What the theorems show

    Locks: the manager refines an exclusive table (Locks); across both
    servers a lock lives in the set of an open connection of its holder,
    another's locks are out of reach but for the forced unlock
    (RemoteFacts, Session).  Flashing: only under the caller's lock, counted
    once, the recovery only mass-erases a board that looked locked, the
    watchdog waits without end only for output that neither stops nor falls
    silent and for a process that does not exit (FlashFacts, ApiFacts,
    RemoteFacts, DeployFacts).  The store: each
    method refines its specification on finite maps, a chip's identity is written once
    (StoreFacts); a probe opens only an unlocked board this host owns
    (DaemonFacts).  Replication: an applied snapshot is the sender's, a peer
    cannot touch the boards attached here (PeeringFacts), one live link a
    peer, starts and stops balance, as long as no two connections to one
    peer overlap and none overlaps the stop (DiscoveryFacts), and a peer that receives what
    a daemon's cycles publish stays in step with them (Replication).  Streams: the port is
    given what the client asked, in order, however the network splits it
    (Stream, FeedsFacts).  Relays: a session is identified, reset and tuned
    before any data and leaves the board free and without an address
    (RelayFacts, RelayPool, RelayCliFacts); both of a relay's transports
    are channels, whose blocked thread can outlive a close (ChannelFacts).
    Tools: what [mbdeploy], [mbserial] and [mbrelay] do is stated on one
    trace of requests, of the answers read and of acts (DeployFacts,
    SerialFacts, RelayCliFacts).  Commands: what is
    printed is what the store holds, dry runs touch nothing, an uninstall
    undoes an install, a run's trace follows one plan whatever fails
    (RegistryCliFacts, ServiceFacts, RegistryRunFacts), its parts share one
    store, lock, table and bus (Assembly), every command has a line that
    reads back as it and every accepted line is a command (ParsersFacts).  Parsers and codecs: round
    trips and equivalence with reference definitions (Naming, Virtual,
    UniversalHex, RenderFacts, StreamFrame, NetAddr).

    ** Conventions

    A computation is a function from a state to a result and the state it
    leaves, also when it raises; an exception is a constructor of [py_exc],
    without its message.  A call that waits for a process that does not end
    gives [Hangs], which runs no handler and no [finally].  What the sources do not decide is an environment
    passed as an argument: clocks (in microseconds), ports, processes,
    sockets, files, the interpreter's order of a set.  It is asked with what was
    done so far, so no two answers need agree.  A block under the
    shared lock is one step; where a thread lets go of the lock, the
    environment runs [others], an arbitrary computation.  In Discovery a
    connection to a peer is a sequence of steps, each other operation of a
    thread is one, and a fetched snapshot takes effect when its
    answer arrives; in Channel the reading threads have turns, and waiting
    for a blocked one ends without it; in RegistryRun a start or a stop returns or raises as
    the environment says; in Discovery, Servers and ApiWindows a join of a
    thread succeeds within its time.

    Loops have fuel or a bound that the theorems show is enough: a read of
    [n] bytes takes at most [n] receives, a stream's loop as many frames as
    bytes were sent, a pipe one read more than its bytes, the lines of an
    answer one more than are pending, a wait its time over its least
    sleep, a relay two rounds of defaults, [stop] 42 cancelled connects, a
    star of a pattern the length of its text, a command line its words.

    Bounds of the model: a text is a list of 8-bit characters; case folding
    is ASCII's; Python's limit of 4300 digits for [int] is not reached; a
    float is a rational, an infinity or a NaN; logging is left out, and messages
    of errors, but where a tool's own output is compared.

    ** Not modelled, and why

    What [argparse] prints (help, versions, usage errors), and other
    versions of it than Python 3.11's, which read a value [--] otherwise.
    The seams only tests use.  The bindings of
    [ctypes] to Win32 and the pipe's security descriptor, SQLite's files
    and pragmas, [zeroconf], ZeroMQ, pyOCD, pyserial: the outside, whose
    answers are arguments.  The self-check of the mDNS record, which only
    logs.  Logging.  [testing/fakes.py]: test doubles. *)

From Stdlib Require Export ZArith List Ascii String Lia.
From stdpp Require Export base strings list gmap sets.
From stdpp Require Export pretty.

#[global] Open Scope string_scope.
#[global] Open Scope list_scope.
#[global] Open Scope Z_scope.

#[global] Arguments String.append s1 s2 : simpl nomatch.

(** ** Python exceptions

    One constructor per exception class the modelled code raises or
    catches.  A payload is kept where a handler reads it; message texts
    are dropped.  [Hangs] is no exception: it is what a call that waits for
    a process that does not end gives, and no handler sees it. *)

Inductive py_exc :=
| KeyError (key : string)
| ValueError
| TypeError
| OverflowError
| IndexError
| AttributeError
| OSError
| RuntimeError
| AmbiguousName (query : string) (candidates : list string)
| LockHeldError (uid : string)
| NotLockHolderError (uid : string)
| AlreadyRegistered (uid : string)
| VirtualRegistrationError
| HexValidationError
| UniversalHexError
| IntelHexError
| FlashLockNotHeldError (uid : string)
| FrameError
| OpError (code : string)
| RegistryUnavailable
| ConnectError
| EndpointError
| RelayError
| FetchError
| NotImplementedError
| FileNotFoundError
| CalledProcessError
| LinuxUserPreflightError
| Hangs.

#[export] Instance py_exc_eq_dec : EqDecision py_exc.
Proof. solve_decision. Defined.

(** ** Results and computations that raise *)

Inductive result (A : Type) :=
| Ok (a : A)
| Err (e : py_exc).
Arguments Ok {A} a.
Arguments Err {A} e.

#[export] Instance result_eq_dec {A} `{EqDecision A} : EqDecision (result A).
Proof. solve_decision. Defined.

Declare Scope py_scope.
Delimit Scope py_scope with py.

Definition result_bind {A B} (m : result A) (k : A -> result B) : result B :=
  match m with Ok a => k a | Err e => Err e end.

Notation "'let!' x := m 'in' k" := (result_bind m (fun x => k))
  (at level 10, x pattern, m at level 100, k at level 200) : py_scope.

Definition is_ok {A} (m : result A) : bool :=
  match m with Ok _ => true | Err _ => false end.

(** A stateful Python operation: the state survives an exception, so
    whatever was written before the [raise] stays written. *)
Definition M (S A : Type) : Type := S -> result A * S.

Definition mret {S A} (a : A) : M S A := fun s => (Ok a, s).
Definition mraise {S A} (e : py_exc) : M S A := fun s => (Err e, s).
Definition mbind {S A B} (m : M S A) (k : A -> M S B) : M S B :=
  fun s => match m s with
           | (Ok a, s') => k a s'
           | (Err e, s') => (Err e, s')
           end.
Definition mget {S} : M S S := fun s => (Ok s, s).
Definition mput {S} (s : S) : M S unit := fun _ => (Ok tt, s).
Definition mmodify {S} (f : S -> S) : M S unit := fun s => (Ok tt, f s).
Definition mgets {S A} (f : S -> A) : M S A := fun s => (Ok (f s), s).
Definition mlift {S A} (r : result A) : M S A := fun s => (r, s).
(** [try: m except <handled>: h e]. *)
Definition mtry {S A} (m : M S A) (h : py_exc -> option (M S A)) : M S A :=
  fun s => match m s with
           | (Ok a, s') => (Ok a, s')
           | (Err e, s') => match h e with
                            | Some k => k s'
                            | None => (Err e, s')
                            end
           end.
(** [try: m finally: f]; an exception of [f] replaces the one of [m]. *)
Definition mfinally {S A} (m : M S A) (f : M S unit) : M S A :=
  fun s => match m s with
           | (r, s') => match f s' with
                        | (Ok _, s'') => (r, s'')
                        | (Err e, s'') => (Err e, s'')
                        end
           end.
(** The [except Exception] and the [finally] around a call that may never
    return: neither runs for one that does not. *)
Definition hung (e : py_exc) : bool := match e with Hangs => true | _ => false end.
Definition mcatch {S A} (m : M S A) (h : py_exc -> M S A) : M S A :=
  mtry m (fun e => if hung e then None else Some (h e)).
Definition mafter {S A} (m : M S A) (f : M S unit) : M S A :=
  fun s => match m s with
           | (Err Hangs, s') => (Err Hangs, s')
           | (r, s') => match f s' with
                        | (Ok _, s'') => (r, s'')
                        | (Err e, s'') => (Err e, s'')
                        end
           end.
Fixpoint mfor {S A} (l : list A) (body : A -> M S unit) : M S unit :=
  match l with
  | [] => mret tt
  | x :: l' => mbind (body x) (fun _ => mfor l' body)
  end.

Notation "x <-! m ;; k" := (mbind m (fun x => k))
  (at level 100, m at next level, right associativity) : py_scope.
Notation "m >>=! f" := (mbind m f)
  (at level 100, right associativity) : py_scope.
Notation "m ;;! k" := (mbind m (fun _ => k))
  (at level 100, right associativity) : py_scope.

Definition mstate {S A} (m : M S A) (s : S) : S := snd (m s).
Definition mresult {S A} (m : M S A) (s : S) : result A := fst (m s).

Lemma bind_ret_state {S A B} (m : M S A) (b : B) s :
  mstate (mbind m (fun _ => mret b)) s = mstate m s.
Proof. unfold mstate, mbind. destruct (m s) as [[a|e] s']; reflexivity. Qed.

Lemma bind_ret_result {S A} (m : M S A) s : mresult (mbind m (fun _ => mret tt)) s =
  match mresult m s with Ok _ => Ok tt | Err e => Err e end.
Proof. unfold mresult, mbind. destruct (m s) as [[a|e] s']; reflexivity. Qed.

(** Running a sequence whose first part returned. *)
Lemma bind_result {S A B} (m : M S A) (k : A -> M S B) s a : mresult m s = Ok a ->
  mbind m k s = k a (mstate m s).
Proof. unfold mresult, mstate, mbind. destruct (m s) as [r s']. cbn. intros ->. reflexivity. Qed.

Lemma bind_assoc {S A B C} (m : M S A) (f : A -> M S B) (g : B -> M S C) s :
  mbind (mbind m f) g s = mbind m (fun a => mbind (f a) g) s.
Proof. unfold mbind. destruct (m s) as [[a|e] s']; reflexivity. Qed.

(** A property of the state every run of [m] keeps, raised or not. *)
Definition preserves {S A} (I : S -> Prop) (m : M S A) : Prop :=
  forall s, I s -> I (mstate m s).

Section Preserves.
Context {S : Type} (I : S -> Prop).

Lemma preserves_ret {A} (a : A) : preserves I (mret a).
Proof. intros s; exact id. Qed.
Lemma preserves_raise {A} e : preserves I (mraise (A:=A) e).
Proof. intros s; exact id. Qed.
Lemma preserves_gets {A} (f : S -> A) : preserves I (mgets f).
Proof. intros s; exact id. Qed.
Lemma preserves_get : preserves I mget.
Proof. intros s; exact id. Qed.
Lemma preserves_lift {A} (r : result A) : preserves I (mlift r).
Proof. intros s; exact id. Qed.
Lemma preserves_modify f : (forall s, I s -> I (f s)) -> preserves I (mmodify f).
Proof. intros H s; exact (H s). Qed.
Lemma preserves_bind {A B} (m : M S A) (k : A -> M S B) :
    preserves I m -> (forall a, preserves I (k a)) -> preserves I (mbind m k).
Proof.
    intros Hm Hk s Hs. unfold mstate, mbind. specialize (Hm s Hs).
    unfold mstate in Hm. destruct (m s) as [[a|e] s']; [apply Hk|]; exact Hm.
Qed.
Lemma preserves_try {A} (m : M S A) h :
    preserves I m -> (forall e k, h e = Some k -> preserves I k) -> preserves I (mtry m h).
Proof.
    intros Hm Hh s Hs. unfold mstate, mtry. specialize (Hm s Hs). unfold mstate in Hm.
    destruct (m s) as [[a|e] s']; [exact Hm|].
    destruct (h e) as [k|] eqn:He; [exact (Hh e k He s' Hm)|exact Hm].
Qed.
Lemma preserves_finally {A} (m : M S A) f :
    preserves I m -> preserves I f -> preserves I (mfinally m f).
Proof.
    intros Hm Hf s Hs. unfold mstate, mfinally. specialize (Hm s Hs). unfold mstate in Hm.
    destruct (m s) as [r s']. specialize (Hf s' Hm). unfold mstate in Hf.
    destruct (f s') as [[[]|e] s'']; exact Hf.
Qed.
Lemma preserves_for {A} (l : list A) body :
    (forall a, In a l -> preserves I (body a)) -> preserves I (mfor l body).
Proof.
    induction l as [|x l IH]; intros H; simpl; [apply preserves_ret|].
    apply preserves_bind; [apply H; left; reflexivity|].
    intros _. apply IH. intros a Ha. apply H. right. exact Ha.
Qed.
End Preserves.

(** A relation every run of [m] keeps between the states before and after. *)
Definition stays {S A} (R : S -> S -> Prop) (m : M S A) : Prop := forall s, R s (mstate m s).

Section Stays.
Context {S : Type} (R : S -> S -> Prop) `{!PreOrder R}.

Lemma stays_ret {A} (a : A) : stays R (mret a).
Proof. intros s. reflexivity. Qed.
Lemma stays_raise {A} e : stays R (mraise (A:=A) e).
Proof. intros s. reflexivity. Qed.
Lemma stays_gets {A} (f : S -> A) : stays R (mgets f).
Proof. intros s. reflexivity. Qed.
Lemma stays_get : stays R mget.
Proof. intros s. reflexivity. Qed.
Lemma stays_lift {A} (r : result A) : stays R (mlift r).
Proof. intros s. reflexivity. Qed.
Lemma stays_modify f : (forall s, R s (f s)) -> stays R (mmodify f).
Proof. intros H s. exact (H s). Qed.
Lemma stays_bind {A B} (m : M S A) (k : A -> M S B) :
    stays R m -> (forall a, stays R (k a)) -> stays R (mbind m k).
Proof.
    intros Hm Hk s. specialize (Hm s). unfold mstate, mbind in *.
    destruct (m s) as [[a|e] s']; [|exact Hm]. etransitivity; [exact Hm|apply Hk].
Qed.
Lemma stays_try {A} (m : M S A) h :
    stays R m -> (forall e k, h e = Some k -> stays R k) -> stays R (mtry m h).
Proof.
    intros Hm Hh s. specialize (Hm s). unfold mstate, mtry in *.
    destruct (m s) as [[a|e] s']; [exact Hm|].
    destruct (h e) as [k|] eqn:He; [|exact Hm]. etransitivity; [exact Hm|exact (Hh e k He s')].
Qed.
Lemma stays_finally {A} (m : M S A) f : stays R m -> stays R f -> stays R (mfinally m f).
Proof.
    intros Hm Hf s. specialize (Hm s). unfold mstate, mfinally in *.
    destruct (m s) as [r s']. specialize (Hf s'). unfold mstate in Hf.
    destruct (f s') as [[[]|e] s'']; etransitivity; eassumption.
Qed.
Lemma stays_catch {A} (m : M S A) h : stays R m -> (forall e, stays R (h e)) -> stays R (mcatch m h).
Proof. intros Hm Hh. apply stays_try; [exact Hm|]. intros e k He. destruct (hung e); inversion He. apply Hh. Qed.
Lemma stays_after {A} (m : M S A) f : stays R m -> stays R f -> stays R (mafter m f).
Proof.
    intros Hm Hf s. specialize (Hm s). unfold mstate, mafter in *.
    destruct (m s) as [r s']. specialize (Hf s'). unfold mstate in Hf. cbn [snd] in *.
    assert (Hr : R s (match f s' with (Ok _, s'') => (r, s'') | (Err e, s'') => (Err e, s'') end).2)
      by (destruct (f s') as [[[]|e] s'']; etransitivity; eassumption).
    destruct r as [a|e]; [exact Hr|]. destruct e; first [exact Hr|exact Hm].
Qed.
Lemma stays_for {A} (l : list A) body : (forall a, In a l -> stays R (body a)) -> stays R (mfor l body).
Proof.
    induction l as [|x l IH]; intros H; simpl; [apply stays_ret|].
    apply stays_bind; [apply H; left; reflexivity|].
    intros _. apply IH. intros a Ha. apply H. right. exact Ha.
Qed.
End Stays.

Lemma stays_weaken {S A} (R R' : S -> S -> Prop) (m : M S A) :
  (forall s s', R s s' -> R' s s') -> stays R m -> stays R' m.
Proof. intros H Hm s. exact (H _ _ (Hm s)). Qed.

Create HintDb py.
#[export] Hint Resolve preserves_ret preserves_raise preserves_gets preserves_get
  preserves_lift preserves_modify preserves_bind preserves_try preserves_finally : py.

(** ** Tactics *)

(** Case on the scrutinee of a [match]/[if] of the goal or a hypothesis. *)
Ltac case_match_goal :=
  match goal with
  | |- context [match ?x with _ => _ end] => destruct x eqn:?
  | |- context [if ?x then _ else _] => destruct x eqn:?
  end.

(** Follow a computation down to its parts, case by case; the leaves are
    left to the hint database. *)
Ltac stays_step :=
  lazymatch goal with
  | |- forall _, _ => intro
  | |- stays _ (mbind _ _) => apply stays_bind; [typeclasses eauto| |]
  | |- stays _ (mfinally _ _) => apply stays_finally; [typeclasses eauto| |]
  | |- stays _ (mcatch _ _) => apply stays_catch; [typeclasses eauto| |]
  | |- stays _ (mafter _ _) => apply stays_after; [typeclasses eauto| |]
  | |- stays _ (mfor _ _) => apply stays_for; [typeclasses eauto|intros ? _]
  | |- stays _ (mret _) => apply stays_ret; typeclasses eauto
  | |- stays _ (mraise _) => apply stays_raise; typeclasses eauto
  | |- stays _ (mgets _) => apply stays_gets; typeclasses eauto
  | |- stays _ mget => apply stays_get; typeclasses eauto
  | |- stays _ (mlift _) => apply stays_lift; typeclasses eauto
  | |- stays _ (mtry _ _) => apply stays_try; [typeclasses eauto| |]
  | |- stays _ (match ?x with _ => _ end) => destruct x
  | |- stays _ (let _ := _ in _) => cbv zeta
  | H : match ?x with _ => _ end = Some _ |- stays _ _ => destruct x; try discriminate H
  | H : Some _ = Some _ |- stays _ _ => injection H as <-
  end.

(** A closed statement about finitely many integers, by evaluation. *)
Ltac by_eval := vm_compute; reflexivity.

(** ** Integer ranges *)

Definition zrange (lo : Z) (n : nat) : list Z := map (fun k => lo + Z.of_nat k) (seq 0 n).

Lemma zrange_spec lo n x : In x (zrange lo n) <-> lo <= x < lo + Z.of_nat n.
Proof.
  unfold zrange. rewrite in_map_iff. split.
  - intros [k [<- Hk]]. apply in_seq in Hk. lia.
  - intros Hx. exists (Z.to_nat (x - lo)). split; [lia|]. apply in_seq. lia.
Qed.

(** Finite check lifted to a bounded quantifier. *)
Lemma forall_zrange (P : Z -> bool) lo n :
  forallb P (zrange lo n) = true -> forall x, lo <= x < lo + Z.of_nat n -> P x = true.
Proof.
  intros H x Hx. rewrite forallb_forall in H. apply H. apply zrange_spec. exact Hx.
Qed.

(** ** Python string operations, on 8-bit characters *)

Module Py.
Definition ascii_in (c : ascii) (s : string) : bool :=
    existsb (Ascii.eqb c) (list_ascii_of_string s).

Lemma append_nil_r (s : string) : (s +:+ "")%string = s.
Proof. induction s as [|c s IH]; simpl; [reflexivity|]. rewrite IH. reflexivity. Qed.

Lemma append_assoc (a b c : string) : (a +:+ (b +:+ c) = (a +:+ b) +:+ c)%string.
Proof. induction a as [|x a IH]; simpl; [reflexivity|]. rewrite IH. reflexivity. Qed.

(** [str.index(c)] for one character: the first position. *)
Fixpoint index (s : string) (c : ascii) : result Z :=
    match s with
    | "" => Err ValueError
    | String d s' => if Ascii.eqb c d then Ok 0
                     else match index s' c with Ok i => Ok (i + 1) | Err e => Err e end
    end.

Fixpoint lstrip (ws : string) (s : string) : string :=
    match s with
    | "" => ""
    | String c s' => if ascii_in c ws then lstrip ws s' else s
    end.

Fixpoint rstrip (ws : string) (s : string) : string :=
    match s with
    | "" => ""
    | String c s' => match rstrip ws s' with
                     | "" => if ascii_in c ws then "" else String c ""
                     | t => String c t
                     end
    end.

  (** [str.strip(ws)]. *)
Definition strip_chars (ws : string) (s : string) : string := lstrip ws (rstrip ws s).

Fixpoint smap (f : ascii -> ascii) (s : string) : string :=
    match s with
    | "" => ""
    | String c s' => String (f c) (smap f s')
    end.

Definition between (lo c hi : ascii) : bool :=
    (nat_of_ascii lo <=? nat_of_ascii c)%nat && (nat_of_ascii c <=? nat_of_ascii hi)%nat.

Definition ascii_lower (c : ascii) : ascii :=
    if between "A" c "Z" then ascii_of_nat (nat_of_ascii c + 32) else c.

Definition lower : string -> string := smap ascii_lower.

Fixpoint last_char (s : string) : option ascii :=
    match s with
    | "" => None
    | String c "" => Some c
    | String _ s' => last_char s'
    end.

Lemma last_char_cons c s : last_char (String c s) =
    match last_char s with None => Some c | Some d => Some d end.
Proof.
    revert c; induction s as [|d s IH]; intros c; [reflexivity|].
    change (last_char (String c (String d s))) with (last_char (String d s)).
    rewrite (IH d). destruct (last_char s); reflexivity.
Qed.

Lemma rstrip_last ws s c : last_char (rstrip ws s) = Some c -> ascii_in c ws = false.
Proof.
    revert c; induction s as [|d s IH]; intros c; [discriminate|]. simpl.
    destruct (rstrip ws s) as [|e t] eqn:Hr.
    - destruct (ascii_in d ws) eqn:Hd; simpl; [discriminate|]. congruence.
    - rewrite last_char_cons. specialize (IH).
      destruct (last_char (String e t)) eqn:Hl; [intros [= <-]; apply IH; reflexivity|].
      rewrite last_char_cons in Hl. destruct (last_char t); discriminate.
Qed.

Lemma lstrip_last ws s c : last_char (lstrip ws s) = Some c -> last_char s = Some c.
Proof.
    induction s as [|d s IH]; [discriminate|]. cbn [lstrip].
    destruct (ascii_in d ws); [|exact id].
    intros H. rewrite last_char_cons, (IH H). reflexivity.
Qed.

Lemma smap_last f s : last_char (smap f s) = option_map f (last_char s).
Proof.
    induction s as [|d s IH]; [reflexivity|]. cbn [smap].
    rewrite !last_char_cons, IH. destruct (last_char s); reflexivity.
Qed.

  (** The last character of a stripped string is not in the stripped set. *)
Lemma strip_chars_last ws s c :
    last_char (strip_chars ws s) = Some c -> ascii_in c ws = false.
Proof. intros H. apply lstrip_last in H. eapply rstrip_last. exact H. Qed.

Definition none_in (ws s : string) : bool :=
    forallb (fun c => negb (ascii_in c ws)) (list_ascii_of_string s).

Lemma rstrip_id ws s : none_in ws s = true -> rstrip ws s = s.
Proof.
    induction s as [|c s IH]; [reflexivity|]. unfold none_in. simpl.
    intros H. apply andb_prop in H as [H1 H2]. rewrite (IH H2).
    apply negb_true_iff in H1. rewrite H1. destruct s; reflexivity.
Qed.

Lemma lstrip_id ws s : none_in ws s = true -> lstrip ws s = s.
Proof.
    destruct s as [|c s]; [reflexivity|]. unfold none_in. simpl.
    intros H. apply andb_prop in H as [H1 _]. apply negb_true_iff in H1. rewrite H1. reflexivity.
Qed.

Lemma strip_chars_id ws s : none_in ws s = true -> strip_chars ws s = s.
Proof. intros H. unfold strip_chars. rewrite rstrip_id, lstrip_id; auto. Qed.

Definition ascii_upper (c : ascii) : ascii :=
  if between "a" c "z" then ascii_of_nat (nat_of_ascii c - 32) else c.

Definition upper : string -> string := smap ascii_upper.

(** ASCII whitespace of [str.isspace], [str.split()] and [str.strip()]. *)
Definition is_space (c : ascii) : bool :=
  let n := nat_of_ascii c in
  ((9 <=? n)%nat && (n <=? 13)%nat) || ((28 <=? n)%nat && (n <=? 32)%nat).

Definition is_digit (c : ascii) : bool := between "0" c "9".
Definition is_alpha (c : ascii) : bool := between "a" c "z" || between "A" c "Z".

Fixpoint sforall (P : ascii -> bool) (s : string) : bool :=
  match s with "" => true | String c s' => P c && sforall P s' end.
Fixpoint sexists (P : ascii -> bool) (s : string) : bool :=
  match s with "" => false | String c s' => P c || sexists P s' end.

Lemma sforall_app P a b : sforall P (a +:+ b)%string = sforall P a && sforall P b.
Proof. induction a as [|c a IH]; simpl; [reflexivity|]. rewrite IH, andb_assoc. reflexivity. Qed.

Lemma sforall_imp (P Q : ascii -> bool) s : (forall c, P c = true -> Q c = true) -> sforall P s = true -> sforall Q s = true.
Proof.
  intros H. induction s as [|c s IH]; cbn; [reflexivity|]. rewrite !andb_true_iff. intros [A B]. auto.
Qed.

(** No [c] in the text. *)
Definition lacks (c : ascii) (s : string) : bool := sforall (fun d => negb (Ascii.eqb c d)) s.

(** A text is split in one way at a character the two first pieces lack,
    and at one the two last pieces lack. *)
Lemma split_first c : forall a a' b b', lacks c a = true -> lacks c a' = true ->
  (a +:+ String c b = a' +:+ String c b')%string -> a = a' /\ b = b'.
Proof.
  induction a as [|x a IH]; intros [|x' a'] b b' Ha Ha' E; cbn in Ha, Ha', E.
  - injection E as ->. auto.
  - injection E as -> _. rewrite Ascii.eqb_refl in Ha'. discriminate.
  - injection E as -> _. rewrite Ascii.eqb_refl in Ha. discriminate.
  - injection E as -> E. apply andb_prop in Ha as [_ Ha], Ha' as [_ Ha'].
    destruct (IH _ _ _ Ha Ha' E) as [-> ->]. auto.
Qed.

Lemma lacks_after c a b : lacks c (a +:+ String c b)%string = false.
Proof.
  unfold lacks. rewrite sforall_app. cbn. rewrite Ascii.eqb_refl. cbn. apply andb_false_r.
Qed.

(** The only [c] of a text is where any [c] of it is. *)
Lemma split_only c : forall a a' b b', lacks c a' = true -> lacks c b' = true ->
  (a +:+ String c b = a' +:+ String c b')%string -> a = a' /\ b = b'.
Proof.
  induction a as [|x a IH]; intros [|x' a'] b b' Ha Hb E; cbn in E, Ha.
  - injection E as ->. auto.
  - injection E as -> _. rewrite Ascii.eqb_refl in Ha. discriminate.
  - injection E as _ E. rewrite <- E, lacks_after in Hb. discriminate.
  - injection E as -> E. apply andb_prop in Ha as [_ Ha]. destruct (IH _ _ _ Ha Hb E) as [-> ->]. auto.
Qed.

Lemma split_last c : forall a a' b b', lacks c b = true -> lacks c b' = true ->
  (a +:+ String c b = a' +:+ String c b')%string -> a = a' /\ b = b'.
Proof.
  induction a as [|x a IH]; intros [|x' a'] b b' Hb Hb' E; cbn in E.
  - injection E as ->. auto.
  - injection E as <- E. rewrite E, lacks_after in Hb. discriminate.
  - injection E as -> E. rewrite <- E, lacks_after in Hb'. discriminate.
  - injection E as -> E. destruct (IH _ _ _ Hb Hb' E) as [-> ->]. auto.
Qed.

Fixpoint lstrip_ws (s : string) : string :=
  match s with
  | "" => ""
  | String c s' => if is_space c then lstrip_ws s' else s
  end.
Fixpoint rstrip_ws (s : string) : string :=
  match s with
  | "" => ""
  | String c s' => match rstrip_ws s' with
                   | "" => if is_space c then "" else String c ""
                   | t => String c t
                   end
  end.
(** [str.strip()]. *)
Definition strip (s : string) : string := lstrip_ws (rstrip_ws s).

Definition startswith (s p : string) : bool := String.prefix p s.

Fixpoint sdrop (n : nat) (s : string) : string :=
  match n, s with
  | O, _ => s
  | S _, "" => ""
  | S n', String _ s' => sdrop n' s'
  end.
Fixpoint stake (n : nat) (s : string) : string :=
  match n, s with
  | O, _ => ""
  | S _, "" => ""
  | S n', String c s' => String c (stake n' s')
  end.
Definition slen (s : string) : Z := Z.of_nat (String.length s).

(** [s[a:b]] with [0 <= a] and [0 <= b]. *)
Definition slice (s : string) (a b : nat) : string := stake (b - a) (sdrop a s).
(** [s[-k:]] with [0 < k]. *)
Definition last_n (s : string) (k : nat) : string := sdrop (String.length s - k) s.

Definition endswith (s p : string) : bool :=
  (String.length p <=? String.length s)%nat && String.eqb (last_n s (String.length p)) p.

(** [sub in s]. *)
Fixpoint contains (s sub : string) : bool :=
  startswith s sub || match s with "" => false | String _ s' => contains s' sub end.

(** [s.split(sep)] for a one-character separator: always at least one piece. *)
Fixpoint split_on (sep : ascii) (s : string) : list string :=
  match s with
  | "" => [""]
  | String c s' =>
      if Ascii.eqb c sep then "" :: split_on sep s'
      else match split_on sep s' with
           | [] => [String c ""]
           | p :: ps => String c p :: ps
           end
  end.

(** [sep.join(l)]. *)
Definition join (sep : string) (l : list string) : string := String.concat sep l.

(** [s.split()]: the maximal runs of non-space characters. *)
Fixpoint split_ws_aux (cur : string) (s : string) : list string :=
  match s with
  | "" => match cur with "" => [] | _ => [cur] end
  | String c s' =>
      if is_space c then match cur with "" => split_ws_aux "" s' | _ => cur :: split_ws_aux "" s' end
      else split_ws_aux (cur +:+ String c "") s'
  end.
Definition split_ws (s : string) : list string := split_ws_aux "" s.

(** [s.rpartition(c)] as (head, found, tail). *)
Fixpoint rpartition (c : ascii) (s : string) : string * bool * string :=
  match s with
  | "" => ("", false, "")
  | String d s' =>
      match rpartition c s' with
      | (h, true, t) => (String d h, true, t)
      | (_, false, t) => if Ascii.eqb d c then ("", true, t) else ("", false, String d t)
      end
  end.

(** [s.partition(c)]. *)
Fixpoint partition (c : ascii) (s : string) : string * bool * string :=
  match s with
  | "" => ("", false, "")
  | String d s' =>
      if Ascii.eqb d c then ("", true, s')
      else match partition c s' with (h, b, t) => (String d h, b, t) end
  end.

Lemma startswith_app p s : startswith (p +:+ s)%string p = true.
Proof.
  unfold startswith. induction p as [|c p IH]; simpl; [destruct s; reflexivity|].
  destruct (ascii_dec c c); [exact IH|congruence].
Qed.

Lemma split_on_nonempty sep s : split_on sep s <> [].
Proof.
  destruct s as [|c s]; [discriminate|]. simpl.
  destruct (Ascii.eqb c sep); [discriminate|]. destruct (split_on sep s); discriminate.
Qed.

Lemma split_on_app sep a b : sexists (Ascii.eqb sep) a = false ->
  split_on sep (a +:+ String sep b)%string = a :: split_on sep b.
Proof.
  induction a as [|c a IH]; simpl.
  - rewrite Ascii.eqb_refl. reflexivity.
  - intros H. apply orb_false_iff in H as [H1 H2].
    rewrite Ascii.eqb_sym, H1, (IH H2). reflexivity.
Qed.

Lemma split_on_none sep s : sexists (Ascii.eqb sep) s = false -> split_on sep s = [s].
Proof.
  induction s as [|c s IH]; cbn [sexists split_on]; [reflexivity|]. intros H.
  apply orb_false_iff in H as [H1 H2]. rewrite Ascii.eqb_sym, H1, (IH H2). reflexivity.
Qed.

(** [sep.join(l).split(sep) == l] for pieces without the separator. *)
Lemma split_on_join sep l : l <> [] -> Forall (fun s => sexists (Ascii.eqb sep) s = false) l ->
  split_on sep (join (String sep "") l) = l.
Proof.
  unfold join. induction l as [|s [|t l] IH]; intros Hn Hl; [congruence| |]; apply Forall_cons_1 in Hl as [Hs Hl].
  - cbn [String.concat]. apply split_on_none. exact Hs.
  - change (String.concat (String sep "") (s :: t :: l)) with (s +:+ String sep (String.concat (String sep "") (t :: l)))%string.
    rewrite split_on_app by exact Hs. rewrite IH; [reflexivity|discriminate|exact Hl].
Qed.

(** [sep.join(s.split(sep)) == s]. *)
Lemma join_split_on sep s : join (String sep "") (split_on sep s) = s.
Proof.
  unfold join. induction s as [|c s IH]; [reflexivity|]. simpl.
  pose proof (split_on_nonempty sep s) as Hn.
  destruct (Ascii.eqb_spec c sep) as [->|Hc].
  - destruct (split_on sep s) as [|p ps]; [congruence|]. simpl in *. rewrite IH. reflexivity.
  - destruct (split_on sep s) as [|p ps]; [congruence|]. simpl in *.
    destruct ps; simpl in *; rewrite <- IH; reflexivity.
Qed.

Lemma partition_join c s h f t : partition c s = (h, f, t) ->
  lacks c h = true /\ s = (h +:+ (if f then String c t else t))%string /\ (f = false -> t = "").
Proof.
  revert h f t. induction s as [|d s IH]; intros h f t; cbn [partition].
  - intros [= <- <- <-]. auto.
  - destruct (Ascii.eqb_spec d c) as [->|Hd].
    + intros [= <- <- <-]. split; [reflexivity|]. split; [reflexivity|discriminate].
    + destruct (partition c s) as [[h' f'] t'] eqn:E. intros [= <- <- <-].
      destruct (IH _ _ _ eq_refl) as (A & B & C). unfold lacks in *. cbn [sforall].
      rewrite A, andb_true_r. split; [apply negb_true_iff, Ascii.eqb_neq; congruence|].
      split; [cbn; f_equal; exact B|exact C].
Qed.

Lemma partition_at c h t : lacks c h = true -> partition c (h +:+ String c t)%string = (h, true, t).
Proof.
  induction h as [|d h IH]; intros H; [cbn; rewrite Ascii.eqb_refl; reflexivity|].
  unfold lacks in H. cbn [sforall] in H. apply andb_prop in H as [Hd Hh]. apply negb_true_iff, Ascii.eqb_neq in Hd.
  change ((String d h +:+ String c t)%string) with (String d (h +:+ String c t)%string). cbn [partition].
  destruct (Ascii.eqb_spec d c); [congruence|]. rewrite (IH Hh). reflexivity.
Qed.

Lemma lacks_none c s : lacks c s = true -> sexists (Ascii.eqb c) s = false.
Proof.
  induction s as [|a s IH]; [reflexivity|]. unfold lacks. cbn. rewrite andb_true_iff, negb_true_iff.
  intros [-> H]. exact (IH H).
Qed.

Lemma rpartition_spec c s h t : rpartition c s = (h, true, t) ->
  s = (h +:+ String c t)%string /\ sexists (Ascii.eqb c) t = false.
Proof.
  revert h t. induction s as [|d s IH]; intros h t; [discriminate|]. simpl.
  assert (Hf : forall h' t', rpartition c s = (h', false, t') -> t' = s /\ sexists (Ascii.eqb c) s = false).
  { clear IH. induction s as [|e s IH]; simpl; [intros ? ? [= <- <-]; auto|].
    destruct (rpartition c s) as [[h0 [|]] t0]; [discriminate|].
    destruct (Ascii.eqb e c) eqn:E; [discriminate|]. intros ? ? [= <- <-].
    destruct (IH _ _ eq_refl) as [-> ->]. rewrite Ascii.eqb_sym, E. auto. }
  destruct (rpartition c s) as [[h0 [|]] t0].
  - intros [= <- <-]. destruct (IH _ _ eq_refl) as [-> ?]. auto.
  - destruct (Ascii.eqb_spec d c) as [->|]; [|discriminate]. intros [= <- <-].
    destruct (Hf _ _ eq_refl) as [-> ?]. auto.
Qed.

Lemma rpartition_found c s : sexists (Ascii.eqb c) s = true ->
  exists h t, rpartition c s = (h, true, t).
Proof.
  induction s as [|d s IH]; [discriminate|]. simpl. intros H.
  destruct (rpartition c s) as [[h0 [|]] t0]; [eauto|].
  destruct (Ascii.eqb_spec d c) as [->|Hn]; [eauto|].
  apply orb_true_iff in H as [H|H]; [apply Ascii.eqb_eq in H; congruence|].
  destruct (IH H) as (h & t & E). discriminate.
Qed.

(** [f"{n:0<width>x}"] for [0 <= n]. *)
Definition hex_digit (upper : bool) (d : Z) : ascii :=
  if d <? 10 then ascii_of_nat (Z.to_nat (48 + d))
  else ascii_of_nat (Z.to_nat ((if upper then 55 else 87) + d)).

Fixpoint hex_digits (upper : bool) (fuel : nat) (n : Z) (acc : string) : string :=
  match fuel with
  | O => acc
  | S fuel' => let acc := String (hex_digit upper (n mod 16)) acc in
               if n / 16 =? 0 then acc else hex_digits upper fuel' (n / 16) acc
  end.

Fixpoint zeros (k : nat) (s : string) : string :=
  match k with O => s | S k' => String "0" (zeros k' s) end.

(** The fuel exceeds the number of hexadecimal digits. *)
Definition format_hex (upper : bool) (width : nat) (n : Z) : string :=
  let s := hex_digits upper (S (Z.to_nat (Z.log2 n))) n "" in zeros (width - String.length s) s.
End Py.
