(* ===== verification/Naming.v ===== *)
(** * [relay/naming.py]: the micro:bit name / radio address map

    The five-letter friendly name is a base-5 numeral (most significant
    letter first); [n mod 73] and [n mod 241] give the default radio
    channel and group.  All intermediate values are small non-negative
    integers, modelled as [Z]. *)

From S2P Require Import Prelude.
Local Open Scope py_scope.

Definition CONSONANTS : string := "zvgpt".
Definition VOWELS : string := "uoiea".
Definition NAME_LEN : Z := 5.
Definition SPACE : Z := 5 ^ NAME_LEN.
Definition CHANNEL_MIN : Z := 11.
Definition CHANNEL_MAX : Z := 83.
Definition CHANNELS : Z := 73.
Definition GROUP_MIN : Z := 15.
Definition GROUP_MAX : Z := 255.
Definition GROUPS : Z := 241.
Definition CHANNELS_INVERSE : Z := 208.

(** The ASCII whitespace trimmed: space, tab, CR, LF, FF, VT. *)
Definition ASCII_WS : string :=
  String " " (String "009" (String "013" (String "010" (String "012" (String "011" ""))))).

Definition alphabet (position : Z) : string :=
  if position mod 2 =? 0 then CONSONANTS else VOWELS.

Definition normalize (name : string) : string :=
  Py.lower (Py.strip_chars ASCII_WS name).

(** [NAME_RE.match]: five letters of the alternating alphabets, and, as
    Python's [$] also matches before it, an optional final newline. *)
Fixpoint name_re_from (p : Z) (k : nat) (s : string) : bool :=
  match k, s with
  | O, "" => true
  | O, String c "" => Ascii.eqb c "010"
  | S k', String c s' => Py.ascii_in c (alphabet p) && name_re_from (p + 1) k' s'
  | _, _ => false
  end.
Definition NAME_RE_match (s : string) : bool := name_re_from 0 5 s.

Definition validate (name : string) : result string :=
  let n := normalize name in
  if NAME_RE_match n then Ok n else Err ValueError.

(** The loop [n = n * 5 + alphabet(p).index(ch)]. *)
Fixpoint decode_loop (p n : Z) (s : string) : result Z :=
  match s with
  | "" => Ok n
  | String ch s' =>
      let! i := Py.index (alphabet p) ch in decode_loop (p + 1) (n * 5 + i) s'
  end.

Definition decode (name : string) : result Z :=
  let! v := validate name in decode_loop 0 0 v.

Definition char_at (s : string) (i : Z) : result ascii :=
  match String.get (Z.to_nat i) s with Some c => Ok c | None => Err IndexError end.

(** The loop over [p = 4, 3, 2, 1, 0], filling [out] from the end. *)
Fixpoint encode_loop (ps : list Z) (n : Z) (out : list string) : result (list string) :=
  match ps with
  | [] => Ok out
  | p :: ps' =>
      let! c := char_at (alphabet p) (n mod 5) in
      encode_loop ps' (n / 5) (<[Z.to_nat p := String c ""]> out)
  end.

Definition encode (n : Z) : result string :=
  if negb ((0 <=? n) && (n <? SPACE)) then Err ValueError
  else let! out := encode_loop [4; 3; 2; 1; 0] n ["" ; ""; ""; ""; ""] in
       Ok (String.concat "" out).

Definition address (n : Z) : Z * Z :=
  (CHANNEL_MIN + n mod CHANNELS, GROUP_MIN + n mod GROUPS).

Definition name_to_radio (name : string) : result (Z * Z) :=
  let! n := decode name in Ok (address n).

Definition radio_to_name (channel group : Z) : result string :=
  if negb ((CHANNEL_MIN <=? channel) && (channel <=? CHANNEL_MAX)) then Err ValueError
  else if negb ((GROUP_MIN <=? group) && (group <=? GROUP_MAX)) then Err ValueError
  else
    let c := channel - CHANNEL_MIN in
    let g := group - GROUP_MIN in
    let n := c + CHANNELS * (((g - c + GROUPS) * CHANNELS_INVERSE) mod GROUPS) in
    if SPACE <=? n then Err ValueError else encode n.

Definition newline : string := String "010" "".

Definition canonical_line (version n : Z) : result string :=
  let! name := encode n in
  let '(channel, group) := address n in
  let head := (name +:+ "," +:+ pretty channel +:+ "," +:+ pretty group)%string in
  if version =? 1 then Ok (head +:+ newline)%string
  else
    let! back_name := radio_to_name channel group in
    let! back := decode back_name in
    let! d := decode name in
    Ok (head +:+ "," +:+ pretty d +:+ "," +:+ pretty back +:+ newline)%string.

Fixpoint canonical_lines (version : Z) (ns : list Z) : result (list string) :=
  match ns with
  | [] => Ok []
  | n :: ns' =>
      let! l := canonical_line version n in
      let! ls := canonical_lines version ns' in Ok (l :: ls)
  end.

Definition canonical_form (version : Z) : result string :=
  if negb ((version =? 1) || (version =? 2)) then Err ValueError
  else let! ls := canonical_lines version (zrange 0 3125) in Ok (String.concat "" ls).

(** ** Lemmas *)

Lemma ascii_in_index c s : Py.ascii_in c s = true ->
  exists i, Py.index s c = Ok i /\ 0 <= i < Z.of_nat (String.length s) /\
            String.get (Z.to_nat i) s = Some c.
Proof.
  induction s as [|d s IH]; [discriminate|].
  unfold Py.ascii_in. simpl. destruct (Ascii.eqb_spec c d) as [->|Hne]; intros H.
  - exists 0. split; [reflexivity|]. split; [lia|reflexivity].
  - simpl in H. destruct (IH H) as (i & Hi & Hr & Hg).
    exists (i + 1). rewrite Hi. split; [reflexivity|]. split; [lia|].
    replace (Z.to_nat (i + 1)) with (S (Z.to_nat i)) by lia. exact Hg.
Qed.

Lemma NAME_RE_last p k s : name_re_from p k s = true ->
  String.length s = k \/ Py.last_char s = Some "010"%char.
Proof.
  revert p k; induction s as [|c s IH]; intros p [|k]; simpl; try discriminate; auto.
  - destruct s; [|discriminate]. intros H. apply Ascii.eqb_eq in H as ->. auto.
  - intros H. apply andb_prop in H as [_ H]. destruct (IH _ _ H) as [->|Hl]; [auto|].
    right. destruct s; [discriminate|exact Hl].
Qed.

Lemma ascii_lower_newline c : Py.ascii_lower c = "010"%char -> c = "010"%char.
Proof. destruct c as [[] [] [] [] [] [] [] []]; vm_compute; congruence. Qed.

(** The newline [$] would tolerate never survives [normalize]. *)
Lemma normalize_no_newline name : Py.last_char (normalize name) <> Some "010"%char.
Proof.
  unfold normalize, Py.lower. rewrite Py.smap_last.
  destruct (Py.last_char (Py.strip_chars ASCII_WS name)) as [c|] eqn:H; [|discriminate].
  simpl. intros [= Hc]. apply ascii_lower_newline in Hc as ->.
  apply Py.strip_chars_last in H. discriminate.
Qed.

(** Digits of a well-formed name. *)
Lemma name_re_digit p k c s : name_re_from p (S k) (String c s) = true ->
  (exists i, Py.index (alphabet p) c = Ok i /\ 0 <= i < 5 /\
             char_at (alphabet p) i = Ok c) /\ name_re_from (p + 1) k s = true.
Proof.
  simpl. intros H. apply andb_prop in H as [H1 H2]. split; [|exact H2].
  destruct (ascii_in_index _ _ H1) as (i & Hi & Hr & Hg). exists i.
  unfold char_at. rewrite Hg. split; [exact Hi|]. split; [|reflexivity].
  revert Hr. unfold alphabet, CONSONANTS, VOWELS. destruct (p mod 2 =? 0); simpl; lia.
Qed.

Lemma validate_spec name v : validate name = Ok v ->
  v = normalize name /\ String.length v = 5%nat /\ NAME_RE_match v = true.
Proof.
  unfold validate. destruct (NAME_RE_match (normalize name)) eqn:H; [|discriminate].
  intros [= <-]. split; [reflexivity|]. split; [|exact H].
  destruct (NAME_RE_last _ _ _ H) as [Hl|Hl]; [exact Hl|].
  destruct (normalize_no_newline _ Hl).
Qed.

Lemma div_digit a i : 0 <= i < 5 -> (a * 5 + i) / 5 = a /\ (a * 5 + i) mod 5 = i.
Proof. intros H. split; Z.div_mod_to_equations; lia. Qed.

(** A well-formed five-letter name decodes to its base-5 value, which
    encodes back to it. *)
Lemma decode_encode_digits v : String.length v = 5%nat -> NAME_RE_match v = true ->
  exists n, decode_loop 0 0 v = Ok n /\ 0 <= n < SPACE /\ encode n = Ok v.
Proof.
  unfold NAME_RE_match.
  destruct v as [|c0 [|c1 [|c2 [|c3 [|c4 [|]]]]]]; try discriminate. intros _ H.
  apply name_re_digit in H as [(i0 & E0 & R0 & G0) H].
  apply name_re_digit in H as [(i1 & E1 & R1 & G1) H].
  apply name_re_digit in H as [(i2 & E2 & R2 & G2) H].
  apply name_re_digit in H as [(i3 & E3 & R3 & G3) H].
  apply name_re_digit in H as [(i4 & E4 & R4 & G4) _].
  exists (((((0 * 5 + i0) * 5 + i1) * 5 + i2) * 5 + i3) * 5 + i4).
  cbn [decode_loop]. rewrite E0; cbn [result_bind]. rewrite E1; cbn [result_bind].
  rewrite E2; cbn [result_bind]. rewrite E3; cbn [result_bind]. rewrite E4.
  split; [reflexivity|]. split; [unfold SPACE, NAME_LEN; lia|].
  unfold encode. rewrite (proj2 (Z.leb_le 0 _)) by lia.
  rewrite (proj2 (Z.ltb_lt _ SPACE)) by (unfold SPACE, NAME_LEN; lia). cbn [negb andb].
  cbn [encode_loop].
  rewrite (proj2 (div_digit _ _ R4)), (proj1 (div_digit _ _ R4)), (G4 : char_at (alphabet 4) _ = _).
  cbn [result_bind].
  rewrite (proj2 (div_digit _ _ R3)), (proj1 (div_digit _ _ R3)), (G3 : char_at (alphabet 3) _ = _).
  cbn [result_bind].
  rewrite (proj2 (div_digit _ _ R2)), (proj1 (div_digit _ _ R2)), (G2 : char_at (alphabet 2) _ = _).
  cbn [result_bind].
  rewrite (proj2 (div_digit _ _ R1)), (proj1 (div_digit _ _ R1)), (G1 : char_at (alphabet 1) _ = _).
  cbn [result_bind].
  rewrite (proj2 (div_digit _ _ R0)), (G0 : char_at (alphabet 0) _ = _). reflexivity.
Qed.

Lemma decode_ok_iff name :
  (exists n, decode name = Ok n /\ 0 <= n < SPACE /\ encode n = Ok (normalize name)) \/
  (decode name = Err ValueError /\ NAME_RE_match (normalize name) = false).
Proof.
  unfold decode. destruct (validate name) as [v|e] eqn:Hv.
  - left. apply validate_spec in Hv as (-> & Hl & Hm).
    exact (decode_encode_digits _ Hl Hm).
  - right. unfold validate in Hv. destruct (NAME_RE_match (normalize name)); [discriminate|].
    injection Hv as <-. auto.
Qed.

(** A letter of an alphabet: its index, and that [normalize] keeps it. *)
Lemma alphabet_letter p i : 0 <= i < 5 -> exists c,
  char_at (alphabet p) i = Ok c /\ Py.index (alphabet p) c = Ok i /\
  Py.ascii_in c (alphabet p) = true /\ Py.ascii_lower c = c /\ Py.ascii_in c ASCII_WS = false.
Proof.
  intros H. unfold alphabet, CONSONANTS, VOWELS.
  assert (i = 0 \/ i = 1 \/ i = 2 \/ i = 3 \/ i = 4) as [->|[->|[->|[->| ->]]]] by lia;
    destruct (p mod 2 =? 0); eexists; (split; [reflexivity|]); repeat split.
Qed.

Lemma normalize_id c0 c1 c2 c3 c4 :
  (forall c, In c [c0; c1; c2; c3; c4] -> Py.ascii_lower c = c /\ Py.ascii_in c ASCII_WS = false) ->
  let s := String c0 (String c1 (String c2 (String c3 (String c4 "")))) in normalize s = s.
Proof.
  intros H s. unfold normalize. rewrite Py.strip_chars_id.
  - unfold s, Py.lower. cbn [Py.smap].
    pose proof (fun c Hc => proj1 (H c Hc)) as L.
    rewrite (L c0), (L c1), (L c2), (L c3), (L c4); simpl; auto 10.
  - unfold Py.none_in. apply forallb_forall. intros c Hc. apply negb_true_iff.
    apply (H c). exact Hc.
Qed.

(** Letter positions as numerals. *)
Ltac positions :=
  change (0 + 1) with 1; change (1 + 1) with 2; change (2 + 1) with 3; change (3 + 1) with 4.

Lemma encode_decode_core n : 0 <= n < SPACE -> exists s, encode n = Ok s /\ decode s = Ok n.
Proof.
  unfold SPACE, NAME_LEN. intros H.
  destruct (alphabet_letter 4 (n mod 5)) as (c4 & G4 & E4 & A4 & K4); [by apply Z.mod_pos_bound|].
  destruct (alphabet_letter 3 (n / 5 mod 5)) as (c3 & G3 & E3 & A3 & K3); [by apply Z.mod_pos_bound|].
  destruct (alphabet_letter 2 (n / 5 / 5 mod 5)) as (c2 & G2 & E2 & A2 & K2); [by apply Z.mod_pos_bound|].
  destruct (alphabet_letter 1 (n / 5 / 5 / 5 mod 5)) as (c1 & G1 & E1 & A1 & K1); [by apply Z.mod_pos_bound|].
  destruct (alphabet_letter 0 (n / 5 / 5 / 5 / 5 mod 5)) as (c0 & G0 & E0 & A0 & K0); [by apply Z.mod_pos_bound|].
  exists (String c0 (String c1 (String c2 (String c3 (String c4 ""))))). split.
  - unfold encode. rewrite (proj2 (Z.leb_le 0 _)) by lia.
    rewrite (proj2 (Z.ltb_lt n SPACE)) by (unfold SPACE, NAME_LEN; lia). cbn [negb andb encode_loop].
    rewrite G4; cbn [result_bind]. rewrite G3; cbn [result_bind]. rewrite G2; cbn [result_bind].
    rewrite G1; cbn [result_bind]. rewrite G0. reflexivity.
  - unfold decode, validate. rewrite normalize_id
      by (intros c Hc; simpl in Hc; destruct Hc as [<-|[<-|[<-|[<-|[<-|[]]]]]]; assumption).
    unfold NAME_RE_match. cbn [name_re_from]. positions. rewrite A0, A1, A2, A3, A4. cbn [andb result_bind].
    cbn [decode_loop]. positions. rewrite E0; cbn [result_bind]. rewrite E1; cbn [result_bind].
    rewrite E2; cbn [result_bind]. rewrite E3; cbn [result_bind]. rewrite E4. cbn [result_bind].
    f_equal. Z.div_mod_to_equations; lia.
Qed.

(** The Chinese-remainder step of [radio_to_name]. *)
Definition crt (c g : Z) : Z := c + CHANNELS * (((g - c + GROUPS) * CHANNELS_INVERSE) mod GROUPS).

Lemma crt_spec c g : 0 <= c < CHANNELS -> 0 <= g < GROUPS ->
  0 <= crt c g < CHANNELS * GROUPS /\ crt c g mod CHANNELS = c /\ crt c g mod GROUPS = g.
Proof.
  unfold crt, CHANNELS, GROUPS, CHANNELS_INVERSE. intros Hc Hg.
  repeat split; Z.div_mod_to_equations; lia.
Qed.

Lemma crt_unique n m : 0 <= n < CHANNELS * GROUPS -> 0 <= m < CHANNELS * GROUPS ->
  n mod CHANNELS = m mod CHANNELS -> n mod GROUPS = m mod GROUPS -> n = m.
Proof. unfold CHANNELS, GROUPS. intros. Z.div_mod_to_equations; lia. Qed.

Lemma radio_to_name_in_range c g : 0 <= c < CHANNELS -> 0 <= g < GROUPS ->
  radio_to_name (CHANNEL_MIN + c) (GROUP_MIN + g) =
  if SPACE <=? crt c g then Err ValueError else encode (crt c g).
Proof.
  unfold CHANNELS, GROUPS. intros Hc Hg. unfold radio_to_name, CHANNEL_MIN, CHANNEL_MAX,
    GROUP_MIN, GROUP_MAX.
  rewrite (proj2 (Z.leb_le 11 _)), (proj2 (Z.leb_le (11 + c) _)), (proj2 (Z.leb_le 15 _)),
    (proj2 (Z.leb_le (15 + g) _)) by lia. cbn [negb andb].
  replace (11 + c - 11) with c by lia. replace (15 + g - 15) with g by lia. reflexivity.
Qed.

Lemma reverse_address n : 0 <= n < SPACE ->
  radio_to_name (fst (address n)) (snd (address n)) = encode n.
Proof.
  intros Hn. unfold address. cbn [fst snd].
  assert (Hc : 0 <= n mod CHANNELS < CHANNELS) by (apply Z.mod_pos_bound; reflexivity).
  assert (Hg : 0 <= n mod GROUPS < GROUPS) by (apply Z.mod_pos_bound; reflexivity).
  rewrite radio_to_name_in_range by assumption.
  destruct (crt_spec _ _ Hc Hg) as (Hr & Ec & Eg).
  replace (crt (n mod CHANNELS) (n mod GROUPS)) with n.
  - rewrite (proj2 (Z.leb_gt SPACE n)) by lia. reflexivity.
  - symmetry. apply crt_unique; [exact Hr| |exact Ec|exact Eg].
    revert Hn. unfold SPACE, NAME_LEN, CHANNELS, GROUPS. lia.
Qed.

Lemma radio_to_name_cases channel group :
  (exists s, radio_to_name channel group = Ok s /\ name_to_radio s = Ok (channel, group)) \/
  radio_to_name channel group = Err ValueError.
Proof.
  destruct (decide (11 <= channel <= 83 /\ 15 <= group <= 255)) as [[Hc Hg]|Hn].
  - pose proof (radio_to_name_in_range (channel - CHANNEL_MIN) (group - GROUP_MIN)) as E.
    destruct (crt_spec (channel - CHANNEL_MIN) (group - GROUP_MIN)) as (Hr & Ec & Eg);
      [unfold CHANNEL_MIN, CHANNELS; lia|unfold GROUP_MIN, GROUPS; lia|].
    replace (CHANNEL_MIN + (channel - CHANNEL_MIN)) with channel in E by lia.
    replace (GROUP_MIN + (group - GROUP_MIN)) with group in E by lia.
    rewrite E by (unfold CHANNEL_MIN, CHANNELS, GROUP_MIN, GROUPS; lia).
    destruct (SPACE <=? crt _ _) eqn:Hs; [right; reflexivity|left].
    destruct (encode_decode_core (crt (channel - CHANNEL_MIN) (group - GROUP_MIN)))
      as (s & He & Hd); [lia|].
    exists s. split; [exact He|]. unfold name_to_radio. rewrite Hd. cbn [result_bind].
    unfold address. rewrite Ec, Eg. do 2 f_equal; lia.
  - right. unfold radio_to_name, CHANNEL_MIN, CHANNEL_MAX, GROUP_MIN, GROUP_MAX.
    destruct (negb ((11 <=? channel) && (channel <=? 83))) eqn:E1; [reflexivity|].
    destruct (negb ((15 <=? group) && (group <=? 255))) eqn:E2; [reflexivity|].
    exfalso. apply Hn. apply negb_false_iff in E1, E2. lia.
Qed.

(** ** Properties *)

(** [encode] and [decode] are inverse: every number of the name space
    encodes to a name decoding to it, every other number raises
    [ValueError]; and every string either decodes to a number whose
    encoding is its normalised form, or is malformed and raises
    [ValueError]. *)
Theorem encode_decode_inverse :
  (forall n, (0 <= n < SPACE /\ exists s, encode n = Ok s /\ decode s = Ok n) \/
             (~ 0 <= n < SPACE /\ encode n = Err ValueError)) /\
  (forall name,
     (exists n, decode name = Ok n /\ 0 <= n < SPACE /\ encode n = Ok (normalize name)) \/
     (decode name = Err ValueError /\ NAME_RE_match (normalize name) = false)).
Proof.
  split; [|exact decode_ok_iff]. intros n.
  destruct (decide (0 <= n < SPACE)) as [H|H]; [left|right].
  - split; [exact H|exact (encode_decode_core n H)].
  - split; [exact H|]. unfold encode.
    destruct (0 <=? n) eqn:E1; [|reflexivity]. destruct (n <? SPACE) eqn:E2; [|reflexivity].
    destruct H. lia.
Qed.

(** The default radio address identifies the name: [radio_to_name]
    undoes [name_to_radio] on every name, whatever it returns derives
    exactly the pair it was asked for, and a pair of no name raises
    [ValueError]; so two names with the same pair are the same name. *)
Theorem radio_name_inverse :
  (forall name channel group, name_to_radio name = Ok (channel, group) ->
     radio_to_name channel group = Ok (normalize name)) /\
  (forall channel group,
     (exists s, radio_to_name channel group = Ok s /\
                name_to_radio s = Ok (channel, group)) \/
     radio_to_name channel group = Err ValueError).
Proof.
  split; [|exact radio_to_name_cases]. intros name channel group H.
  unfold name_to_radio in H.
  destruct (decode_ok_iff name) as [(n & Hd & Hr & He)|[Hd _]]; rewrite Hd in H;
    cbn [result_bind] in H; [|discriminate].
  rewrite <- He. apply reverse_address in Hr.
  destruct (address n) as [c g]. injection H as -> ->. exact Hr.
Qed.

(** The line [canonical_form(2)] prints for [n]: both computed columns are [n]. *)
Definition canonical_line_expected (name : string) (n : Z) : string :=
  ((name +:+ "," +:+ pretty (fst (address n)) +:+ "," +:+ pretty (snd (address n))) +:+
   "," +:+ pretty n +:+ "," +:+ pretty n +:+ newline)%string.

Lemma canonical_line_2 n : 0 <= n < SPACE ->
  exists name, encode n = Ok name /\ canonical_line 2 n = Ok (canonical_line_expected name n).
Proof.
  intros H. destruct (encode_decode_core n H) as (name & He & Hd).
  exists name. split; [exact He|]. pose proof (reverse_address n H) as Hr.
  unfold canonical_line, canonical_line_expected. rewrite He. cbn [result_bind].
  destruct (address n) as [c g]. cbn [fst snd] in Hr |- *. change (2 =? 1) with false. cbv iota.
  rewrite Hr, He. cbn [result_bind]. rewrite Hd. reflexivity.
Qed.

Lemma canonical_lines_2 ns : (forall n, In n ns -> 0 <= n < SPACE) -> exists ls,
  canonical_lines 2 ns = Ok ls /\
  Forall2 (fun n l => exists name, encode n = Ok name /\ l = canonical_line_expected name n) ns ls.
Proof.
  induction ns as [|n ns IH]; intros H; [exists []; split; [reflexivity|constructor]|].
  destruct (canonical_line_2 n) as (name & He & Hl); [apply H; left; reflexivity|].
  destruct IH as (ls & Hls & HF); [intros m Hm; apply H; right; exact Hm|].
  exists (canonical_line_expected name n :: ls). cbn [canonical_lines]. rewrite Hl, Hls.
  split; [reflexivity|]. constructor; eauto.
Qed.

(** The version-2 canonical form is, for every name in order, the line
    whose decode and reverse-map columns both equal the name's number: the
    decoder and the reverse map agree with the encoder over the whole space. *)
Theorem canonical_form_agrees : exists ls,
  canonical_form 2 = Ok (String.concat "" ls) /\
  Forall2 (fun n l => exists name, encode n = Ok name /\ l = canonical_line_expected name n)
          (zrange 0 3125) ls.
Proof.
  destruct (canonical_lines_2 (zrange 0 3125)) as (ls & Hl & HF).
  - intros n Hn. apply zrange_spec in Hn. unfold SPACE, NAME_LEN. lia.
  - exists ls. split; [|exact HF]. unfold canonical_form.
    change (negb ((2 =? 1) || (2 =? 2))) with false. cbv iota.
    rewrite Hl. reflexivity.
Qed.
