(* ===== verification/StreamFrame.v ===== *)
(** * [registry/stream_frame.py]: the framed stream protocol

    [[1-byte type][4-byte big-endian length][payload]].  A byte is a [Z] in
    [0..255]; [read_exact] is a stateful reader, so the order and the size
    of every read are part of the model. *)

From S2P Require Import Prelude.
Local Open Scope py_scope.

Definition byte_ok (b : Z) : Prop := 0 <= b < 256.

Definition FRAME_DATA : Z := 1.
Definition FRAME_BREAK : Z := 2.
Definition FRAME_SET_DTR : Z := 3.
Definition FRAME_SET_RTS : Z := 4.
Definition FRAME_CLOSE : Z := 5.
Definition FRAME_TYPES : list Z :=
  [FRAME_DATA; FRAME_BREAK; FRAME_SET_DTR; FRAME_SET_RTS; FRAME_CLOSE].
Definition HEADER_SIZE : Z := 5.
Definition MAX_FRAME_PAYLOAD : Z := Z.shiftl 1 20.

Definition zlen {A} (l : list A) : Z := Z.of_nat (length l).

(** [int.to_bytes(4, "big")]. *)
Definition to_bytes4 (n : Z) : result (list Z) :=
  if (0 <=? n) && (n <? 2 ^ 32) then
    Ok [Z.land (Z.shiftr n 24) 255; Z.land (Z.shiftr n 16) 255;
        Z.land (Z.shiftr n 8) 255; Z.land n 255]
  else Err OverflowError.

(** [int.from_bytes(bs, "big")]. *)
Definition from_bytes (bs : list Z) : Z := fold_left (fun acc b => acc * 256 + b) bs 0.

(** [bytes((b,))]. *)
Definition bytes1 (b : Z) : result (list Z) :=
  if (0 <=? b) && (b <? 256) then Ok [b] else Err ValueError.

Definition encode_frame (frame_type : Z) (payload : list Z) : result (list Z) :=
  let! h := bytes1 frame_type in
  let! l := to_bytes4 (zlen payload) in
  Ok (h ++ l ++ payload).

Definition read_frame {S} (read_exact : Z -> M S (list Z)) : M S (option (Z * list Z)) :=
  header <-! read_exact HEADER_SIZE ;;
  if zlen header =? 0 then mret None
  else if zlen header <? HEADER_SIZE then mraise FrameError
  else
    let frame_type := nth 0 header 0 in
    let length := from_bytes (firstn 4 (skipn 1 header)) in
    if MAX_FRAME_PAYLOAD <? length then mraise FrameError
    else if length =? 0 then mret (Some (frame_type, []))
    else
      payload <-! read_exact length ;;
      if zlen payload <? length then mraise FrameError
      else mret (Some (frame_type, payload)).

(** An in-memory transport: the next [n] bytes, or fewer at its end. *)
Definition buf_read (n : Z) : M (list Z) (list Z) :=
  fun buf => (Ok (firstn (Z.to_nat n) buf), skipn (Z.to_nat n) buf).

(** Read frames until a clean end, an error or the fuel ends. *)
Fixpoint read_all (fuel : nat) : M (list Z) (list (Z * list Z)) :=
  match fuel with
  | O => mraise RuntimeError
  | S fuel' =>
      fr <-! read_frame buf_read ;;
      match fr with
      | None => mret []
      | Some f => fs <-! read_all fuel' ;; mret (f :: fs)
      end
  end.

Fixpoint encode_frames (fs : list (Z * list Z)) : result (list Z) :=
  match fs with
  | [] => Ok []
  | (t, p) :: fs' =>
      let! b := encode_frame t p in let! bs := encode_frames fs' in Ok (b ++ bs)
  end.

(** ** Lemmas *)

Lemma to_bytes4_spec n : 0 <= n < 2 ^ 32 -> exists b3 b2 b1 b0,
  to_bytes4 n = Ok [b3; b2; b1; b0] /\ Forall byte_ok [b3; b2; b1; b0] /\
  from_bytes [b3; b2; b1; b0] = n.
Proof.
  intros H. unfold to_bytes4. rewrite (proj2 (Z.leb_le 0 n)), (proj2 (Z.ltb_lt n _)) by lia.
  do 4 eexists. split; [reflexivity|].
  change 255 with (Z.ones 8). rewrite !Z.land_ones, !Z.shiftr_div_pow2 by lia.
  unfold byte_ok, from_bytes. cbn [fold_left].
  change (2 ^ 8) with 256. change (2 ^ 16) with 65536. change (2 ^ 24) with 16777216.
  change (2 ^ 32) with 4294967296 in H.
  split; [repeat constructor; Z.div_mod_to_equations; lia|Z.div_mod_to_equations; lia].
Qed.

Lemma encode_frame_ok t p : byte_ok t -> zlen p < 2 ^ 32 -> exists h,
  encode_frame t p = Ok (t :: h ++ p) /\ length h = 4%nat /\ Forall byte_ok h /\
  from_bytes h = zlen p.
Proof.
  intros [Ht1 Ht2] Hp.
  destruct (to_bytes4_spec (zlen p)) as (b3 & b2 & b1 & b0 & E & F & V); [unfold zlen in *; lia|].
  exists [b3; b2; b1; b0]. unfold encode_frame, bytes1.
  rewrite (proj2 (Z.leb_le 0 t)), (proj2 (Z.ltb_lt t _)) by lia. cbn [andb result_bind].
  rewrite E. auto.
Qed.

Lemma max_lt_2_32 : MAX_FRAME_PAYLOAD < 2 ^ 32.
Proof. reflexivity. Qed.

Lemma zlen_zero {A} (l : list A) : zlen l = 0 -> l = [].
Proof. unfold zlen. destruct l; simpl; [auto|lia]. Qed.

(** Reading back one frame from a buffer that starts with it. *)
Lemma read_encoded t p bs rest : zlen p <= MAX_FRAME_PAYLOAD -> encode_frame t p = Ok bs ->
  read_frame buf_read (bs ++ rest) = (Ok (Some (t, p)), rest).
Proof.
  intros Hp He.
  assert (Hp' : zlen p < 2 ^ 32) by (pose proof max_lt_2_32; lia).
  assert (Ht : byte_ok t).
  { unfold encode_frame, bytes1 in He. unfold byte_ok.
    destruct ((0 <=? t) && (t <? 256)) eqn:E; [lia|discriminate]. }
  destruct (encode_frame_ok t p Ht Hp') as (h & E & Hl & _ & Hv). rewrite E in He.
  injection He as <-. destruct h as [|b3 [|b2 [|b1 [|b0 [|]]]]]; try discriminate.
  unfold read_frame, mbind, buf_read at 1. change (Z.to_nat HEADER_SIZE) with 5%nat.
  cbn [app firstn skipn]. rewrite ?take_0, ?drop_0. change (zlen [t; b3; b2; b1; b0] =? 0) with false.
  change (zlen [t; b3; b2; b1; b0] <? HEADER_SIZE) with false. cbv iota beta.
  cbn [firstn skipn nth]. rewrite ?take_0, ?drop_0, Hv. rewrite (proj2 (Z.ltb_ge _ _) Hp).
  destruct (zlen p =? 0) eqn:Hz.
  - apply Z.eqb_eq, zlen_zero in Hz. subst p. reflexivity.
  - unfold buf_read, mret. replace (Z.to_nat (zlen p)) with (length p) by (unfold zlen; lia).
    rewrite firstn_app, skipn_app, Nat.sub_diag, firstn_all, skipn_all. cbn [firstn skipn].
    rewrite app_nil_r, Z.ltb_irrefl. reflexivity.
Qed.

Lemma read_frame_empty : read_frame buf_read [] = (Ok None, []).
Proof. reflexivity. Qed.

Lemma to_bytes4_from_bytes b3 b2 b1 b0 : Forall byte_ok [b3; b2; b1; b0] ->
  0 <= from_bytes [b3; b2; b1; b0] < 2 ^ 32 /\
  to_bytes4 (from_bytes [b3; b2; b1; b0]) = Ok [b3; b2; b1; b0].
Proof.
  intros HF. repeat match goal with H : Forall _ (_ :: _) |- _ => inversion H; clear H; subst end.
  unfold byte_ok in *. unfold from_bytes. cbn [fold_left].
  change (2 ^ 32) with 4294967296. split; [lia|]. unfold to_bytes4.
  rewrite (proj2 (Z.leb_le 0 _)), (proj2 (Z.ltb_lt _ (2 ^ 32))) by (simpl; lia). cbn [andb].
  change 255 with (Z.ones 8). rewrite !Z.land_ones, !Z.shiftr_div_pow2 by lia.
  change (2 ^ 8) with 256. change (2 ^ 16) with 65536. change (2 ^ 24) with 16777216.
  repeat f_equal; Z.div_mod_to_equations; lia.
Qed.

Lemma encode_frame_bytes b p x3 x2 x1 x0 : byte_ok b -> to_bytes4 (zlen p) = Ok [x3; x2; x1; x0] ->
  encode_frame b p = Ok (b :: x3 :: x2 :: x1 :: x0 :: p).
Proof.
  intros [H1 H2] E. unfold encode_frame, bytes1.
  rewrite (proj2 (Z.leb_le 0 b)), (proj2 (Z.ltb_lt b _)) by lia. cbn [andb result_bind].
  rewrite E. reflexivity.
Qed.

(** ** Properties *)

(** A frame round-trips: any byte-typed frame whose payload is within
    the limit encodes, and the decoder, on those bytes followed by anything,
    returns exactly that frame and leaves exactly the rest. *)
Theorem frame_roundtrip t p rest :
  byte_ok t -> zlen p <= MAX_FRAME_PAYLOAD ->
  exists bs, encode_frame t p = Ok bs /\
             read_frame buf_read (bs ++ rest) = (Ok (Some (t, p)), rest).
Proof.
  intros Ht Hp.
  assert (Hp' : zlen p < 2 ^ 32) by (pose proof max_lt_2_32; lia).
  destruct (encode_frame_ok t p Ht Hp') as (h & E & _).
  eexists. split; [exact E|]. apply read_encoded; assumption.
Qed.

Lemma frame_roundtrip_witness : exists bs, encode_frame FRAME_DATA [104; 105] = Ok bs /\
  read_frame buf_read (bs ++ [9]) = (Ok (Some (1, [104; 105])), [9]).
Proof. apply (frame_roundtrip FRAME_DATA [104; 105] [9]); vm_compute; repeat split; discriminate. Defined.

(** A concatenation of encoded frames decodes to the frames, then ends. *)
Lemma read_all_encoded fs bs fuel : Forall (fun f => zlen (snd f) <= MAX_FRAME_PAYLOAD) fs ->
  encode_frames fs = Ok bs -> (length fs < fuel)%nat -> read_all fuel bs = (Ok fs, []).
Proof.
  revert bs fuel. induction fs as [|[t p] fs IH]; intros bs [|fuel] HF He Hf; try (simpl in Hf; lia).
  - injection He as <-. reflexivity.
  - cbn [encode_frames] in He.
    destruct (encode_frame t p) as [b|] eqn:E1; [|discriminate].
    destruct (encode_frames fs) as [bs'|] eqn:E2; [|discriminate].
    cbn [result_bind] in He. injection He as <-. inversion HF; subst.
    cbn [read_all]. unfold mbind at 1. rewrite (read_encoded t p b bs') by assumption.
    unfold mbind. rewrite (IH bs' fuel) by (assumption || simpl in Hf; lia || reflexivity).
    reflexivity.
Qed.

Ltac keep_cbn := cbn -[from_bytes zlen MAX_FRAME_PAYLOAD encode_frame firstn skipn].

(** The decoder over any buffer: a clean end exactly on the empty buffer,
    [FrameError] exactly on a truncated or oversized frame. *)
Definition declared (buf : list Z) : Z := from_bytes (firstn 4 (skipn 1 buf)).

(** The decoder's outcome on every buffer: [None] only at a frame
    boundary, [FrameError] exactly for a truncated header, a declared length
    over the limit, or a truncated payload, and otherwise the frame, with
    exactly its bytes consumed. *)
Theorem read_frame_outcomes buf :
  Forall byte_ok buf ->
  match read_frame buf_read buf with
  | (Ok None, _) => buf = []
  | (Ok (Some (t, p)), rest) =>
      5 <= zlen buf /\ declared buf = zlen p /\ zlen p <= MAX_FRAME_PAYLOAD /\
      t = nth 0 buf 0 /\ encode_frame t p = Ok (firstn 5 buf ++ p) /\
      buf = firstn 5 buf ++ p ++ rest
  | (Err e, _) =>
      e = FrameError /\ buf <> [] /\
      (zlen buf < 5 \/ MAX_FRAME_PAYLOAD < declared buf \/ zlen buf < 5 + declared buf)
  end.
Proof.
  intros HF. unfold read_frame, mbind, buf_read at 1. change (Z.to_nat HEADER_SIZE) with 5%nat.
  destruct buf as [|b [|x3 [|x2 [|x1 [|x0 tl]]]]];
    try (cbn [firstn skipn]; cbn; split; [reflexivity|split; [discriminate|left; vm_compute; reflexivity]]).
  - reflexivity.
  - cbn [firstn skipn]. rewrite ?take_0, ?drop_0. change (zlen [b; x3; x2; x1; x0] =? 0) with false.
    change (zlen [b; x3; x2; x1; x0] <? HEADER_SIZE) with false. cbv iota beta.
    unfold declared. cbn [firstn skipn nth]. rewrite ?take_0, ?drop_0.
    assert (Hlen : zlen (b :: x3 :: x2 :: x1 :: x0 :: tl) = 5 + zlen tl)
      by (unfold zlen; cbn [length]; lia). rewrite !Hlen.
    set (d := from_bytes [x3; x2; x1; x0]).
    assert (Hd : 0 <= d < 2 ^ 32 /\ to_bytes4 d = Ok [x3; x2; x1; x0]).
    { apply to_bytes4_from_bytes. inversion HF; subst.
      repeat match goal with H : Forall _ (_ :: _) |- _ => inversion H; clear H; subst end.
      repeat (constructor; [assumption|]); constructor. }
    assert (Hb : byte_ok b) by (inversion HF; assumption).
    destruct (MAX_FRAME_PAYLOAD <? d) eqn:Hm; [keep_cbn; split; [reflexivity|split; [discriminate|right; left; apply Z.ltb_lt; exact Hm]]|].
    apply Z.ltb_ge in Hm. destruct (d =? 0) eqn:Hz.
    + apply Z.eqb_eq in Hz. keep_cbn. change (zlen []) with 0. rewrite ?take_0, ?Hlen.
      split; [unfold zlen; lia|]. split; [exact Hz|]. split; [lia|]. split; [reflexivity|].
      split; [|reflexivity].
      apply (encode_frame_bytes b []); [exact Hb|]. change (zlen []) with 0.
      rewrite <- Hz at 1. apply Hd.
    + destruct (zlen (firstn (Z.to_nat d) tl) <? d) eqn:Hs; keep_cbn; rewrite ?take_0, ?Hlen, Hs; keep_cbn.
      * split; [reflexivity|]. split; [discriminate|]. right; right.
        apply Z.ltb_lt in Hs. revert Hs. unfold zlen. rewrite length_firstn. fold d. lia.
      * apply Z.ltb_ge in Hs.
        assert (El : zlen (firstn (Z.to_nat d) tl) = d)
          by (revert Hs; unfold zlen; rewrite length_firstn; lia).
        rewrite El. split; [unfold zlen; lia|]. split; [reflexivity|]. split; [exact Hm|].
        split; [reflexivity|]. split.
        -- apply encode_frame_bytes; [exact Hb|]. rewrite El. apply Hd.
        -- cbn [app]. rewrite firstn_skipn. reflexivity.
Qed.

Lemma read_frame_outcomes_witness :
  Forall byte_ok [1; 0; 0; 0; 9; 7] /\
  match read_frame buf_read [1; 0; 0; 0; 9; 7] with
  | (Ok None, _) => [1; 0; 0; 0; 9; 7] = []
  | (Ok (Some (t, p)), rest) =>
      5 <= zlen [1; 0; 0; 0; 9; 7] /\ declared [1; 0; 0; 0; 9; 7] = zlen p /\
      zlen p <= MAX_FRAME_PAYLOAD /\ t = nth 0 [1; 0; 0; 0; 9; 7] 0 /\
      encode_frame t p = Ok (firstn 5 [1; 0; 0; 0; 9; 7] ++ p) /\
      [1; 0; 0; 0; 9; 7] = firstn 5 [1; 0; 0; 0; 9; 7] ++ p ++ rest
  | (Err e, _) =>
      e = FrameError /\ [1; 0; 0; 0; 9; 7] <> [] /\
      (zlen [1; 0; 0; 0; 9; 7] < 5 \/ MAX_FRAME_PAYLOAD < declared [1; 0; 0; 0; 9; 7] \/
       zlen [1; 0; 0; 0; 9; 7] < 5 + declared [1; 0; 0; 0; 9; 7])
  end.
Proof.
  assert (H : Forall byte_ok [1; 0; 0; 0; 9; 7]) by (repeat constructor; discriminate).
  split; [exact H|exact (read_frame_outcomes _ H)].
Defined.
