(* ===== verification/Trace.v ===== *)
(** * What a computation does

    A log of events read off a state that computations only append to:
    [does m Q] says of every run of [m] that it adds some events, and [Q]
    of the state before, the result, those events and the state after. *)

From S2P Require Import Prelude.
Local Open Scope py_scope.

Lemma bind_run {S A B} (m : M S A) (k : A -> M S B) s :
  mbind m k s = match m s with (Ok a, s') => k a s' | (Err e, s') => (Err e, s') end.
Proof. unfold mbind. destruct (m s) as [[a|e] s']; reflexivity. Qed.

Lemma finally_run {S A} (m : M S A) (f : M S unit) s : mfinally m f s =
  (match mresult f (mstate m s) with Ok _ => mresult m s | Err e => Err e end, mstate f (mstate m s)).
Proof.
  unfold mfinally, mresult, mstate. destruct (m s) as [r s1]. cbn [fst snd]. destruct (f s1) as [[[]|e] s2]; reflexivity.
Qed.

Section Does.
Context {S E : Type} {tr : S -> list E}.
Implicit Types (l : list E).

Definition does {A} (m : M S A) (Q : S -> result A -> list E -> S -> Prop) : Prop :=
  forall s, exists l, tr (mstate m s) = tr s ++ l /\ Q s (mresult m s) l (mstate m s).

Lemma does_weaken {A} (m : M S A) (Q Q' : S -> result A -> list E -> S -> Prop) :
  does m Q -> (forall s r l s', Q s r l s' -> Q' s r l s') -> does m Q'.
Proof. intros H HQ s. destruct (H s) as (l & H1 & H2). eauto. Qed.

Lemma does_bind {A B} (m : M S A) (k : A -> M S B) Q1 Q2 :
  does m Q1 -> (forall a, does (k a) (Q2 a)) ->
  does (mbind m k) (fun s r l s' =>
    (exists e, r = Err e /\ Q1 s (Err e) l s') \/
    (exists a l1 l2 s1, l = l1 ++ l2 /\ Q1 s (Ok a) l1 s1 /\ Q2 a s1 r l2 s')).
Proof.
  intros H1 H2 s. destruct (H1 s) as (l1 & E1 & P1). unfold mstate, mresult, mbind in *.
  destruct (m s) as [[a|e] s1]; cbn [fst snd] in *.
  - destruct (H2 a s1) as (l2 & E2 & P2). unfold mstate, mresult in *. exists (l1 ++ l2).
    split; [rewrite E2, E1; apply eq_sym, app_assoc|]. right. eauto 8.
  - exists l1. split; [exact E1|]. left. eauto.
Qed.

Lemma does_ret {A} (a : A) : does (mret a) (fun s r l s' => r = Ok a /\ l = [] /\ s' = s).
Proof. intros s. exists []. rewrite app_nil_r. auto. Qed.

Lemma does_raise {A} e : does (mraise (A:=A) e) (fun s r l s' => r = Err e /\ l = [] /\ s' = s).
Proof. intros s. exists []. rewrite app_nil_r. auto. Qed.

Lemma does_lift {A} (x : result A) : does (mlift x) (fun s r l s' => r = x /\ l = [] /\ s' = s).
Proof. intros s. exists []. rewrite app_nil_r. auto. Qed.

Lemma does_gets {A} (f : S -> A) : does (mgets f) (fun s r l s' => r = Ok (f s) /\ l = [] /\ s' = s).
Proof. intros s. exists []. rewrite app_nil_r. auto. Qed.

(** An update that logs nothing. *)
Lemma does_modify {A} f (k : M S A) Q : (forall s, tr (f s) = tr s) ->
  does k Q -> does (mmodify f ;;! k) (fun s => Q (f s)).
Proof.
  intros Hf Hk s. destruct (Hk (f s)) as (l & H1 & H2). exists l. split; [|exact H2].
  unfold mstate in *. unfold mbind, mmodify. rewrite H1, Hf. reflexivity.
Qed.

(** What an operation before [m] adds. *)
Lemma does_after {A B} (m : M S A) (k : A -> M S B) l0 Q :
  does m (fun _ _ l _ => l = l0) -> (forall a, does (k a) Q) ->
  does (mbind m k) (fun s r l s' => (exists e, r = Err e /\ l = l0) \/
    exists s1 l', l = l0 ++ l' /\ Q s1 r l' s').
Proof.
  intros H1 H2. eapply does_weaken; [eapply (does_bind _ _ _ (fun _ => Q) H1 H2)|].
  intros s r l s' [(e & -> & ->)|(a & l1 & l2 & s1 & -> & -> & H)]; [left|right]; eauto.
Qed.

(** Handling an exception: the run itself, or its handler after it. *)
Lemma does_try {A} (m : M S A) (h : py_exc -> option (M S A)) Q1 Q2 :
  does m Q1 -> (forall e k, h e = Some k -> does k (Q2 e)) ->
  does (mtry m h) (fun s r l s' =>
    Q1 s r l s' /\ (forall e, r = Err e -> h e = None) \/
    (exists e l1 l2 s1, l = l1 ++ l2 /\ h e <> None /\ Q1 s (Err e) l1 s1 /\ Q2 e s1 r l2 s')).
Proof.
  intros H1 H2 s. destruct (H1 s) as (l1 & E1 & P1). unfold mstate, mresult, mtry in *.
  destruct (m s) as [[a|e] s1]; cbn [fst snd] in *.
  - exists l1. split; [exact E1|]. left. split; [exact P1|]. discriminate.
  - destruct (h e) as [k|] eqn:Hh; cbn [fst snd].
    + destruct (H2 e k Hh s1) as (l2 & E2 & P2). unfold mstate, mresult in *. exists (l1 ++ l2).
      split; [rewrite E2, E1; apply eq_sym, app_assoc|]. right. exists e, l1, l2, s1. split; [reflexivity|]. split; [congruence|auto].
    + exists l1. split; [exact E1|]. left. split; [exact P1|]. intros e' [= <-]. exact Hh.
Qed.

Lemma does_finally {A} (m : M S A) (f : M S unit) Q1 Q2 :
  does m Q1 -> does f Q2 ->
  does (mfinally m f) (fun s r l s' => exists r1 r2 l1 l2 s1, l = l1 ++ l2 /\ Q1 s r1 l1 s1 /\ Q2 s1 r2 l2 s' /\
    r = match r2 with Ok _ => r1 | Err e => Err e end).
Proof.
  intros H1 H2 s. destruct (H1 s) as (l1 & E1 & P1). unfold mstate, mresult, mfinally in *.
  destruct (m s) as [r1 s1]; cbn [fst snd] in *. destruct (H2 s1) as (l2 & E2 & P2). unfold mstate, mresult in *.
  destruct (f s1) as [r2 s2]; cbn [fst snd] in *. exists (l1 ++ l2).
  split; [destruct r2; cbn [snd]; rewrite E2, E1; apply eq_sym, app_assoc|].
  exists r1, r2, l1, l2, s1. destruct r2; auto.
Qed.
End Does.

Arguments does {S E} tr {A} m Q.

(** ** Computations whose events are all of a kind *)

Section Emits.
Context {S E : Type} (tr : S -> list E) (p : E -> bool).

Definition emits {A} (m : M S A) : Prop := does tr m (fun _ _ l _ => forallb p l = true).

(** Nothing at all. *)
Lemma emits_silent {A} (m : M S A) : (forall s, tr (mstate m s) = tr s) -> emits m.
Proof. intros H s. exists []. rewrite app_nil_r. auto. Qed.
Lemma emits_ret {A} (a : A) : emits (mret a).
Proof. apply emits_silent. reflexivity. Qed.
Lemma emits_raise {A} e : emits (mraise (A:=A) e).
Proof. apply emits_silent. reflexivity. Qed.
Lemma emits_gets {A} (f : S -> A) : emits (mgets f).
Proof. apply emits_silent. reflexivity. Qed.
Lemma emits_lift {A} (x : result A) : emits (mlift x).
Proof. apply emits_silent. reflexivity. Qed.
Lemma emits_bind {A B} (m : M S A) (k : A -> M S B) : emits m -> (forall a, emits (k a)) -> emits (mbind m k).
Proof.
  intros Hm Hk. eapply does_weaken; [apply (does_bind _ _ _ (fun _ _ _ l _ => forallb p l = true) Hm Hk)|].
  intros s r l s' [(e & _ & H)|(a & l1 & l2 & s1 & -> & H1 & H2)]; [exact H|]. rewrite forallb_app, H1, H2. reflexivity.
Qed.
Lemma emits_try {A} (m : M S A) h : emits m -> (forall e k, h e = Some k -> emits k) -> emits (mtry m h).
Proof.
  intros Hm Hh. eapply does_weaken; [apply (does_try _ _ _ (fun _ _ _ l _ => forallb p l = true) Hm Hh)|].
  intros s r l s' [[H _]|(e & l1 & l2 & s1 & -> & _ & H1 & H2)]; [exact H|]. rewrite forallb_app, H1, H2. reflexivity.
Qed.
Lemma emits_finally {A} (m : M S A) f : emits m -> emits f -> emits (mfinally m f).
Proof.
  intros Hm Hf. eapply does_weaken; [apply (does_finally _ _ _ _ Hm Hf)|].
  intros s r l s' (r1 & r2 & l1 & l2 & s1 & -> & H1 & H2 & _). rewrite forallb_app, H1, H2. reflexivity.
Qed.
Lemma emits_for {A} (l : list A) body : (forall x, emits (body x)) -> emits (mfor l body).
Proof. intros H. induction l as [|x l IH]; [apply emits_ret|]. cbn [mfor]. apply emits_bind; auto. Qed.
End Emits.

Ltac emits_step :=
  lazymatch goal with
  | |- forall _, _ => intro
  | |- emits _ _ (mbind _ _) => apply emits_bind
  | |- emits _ _ (mfinally _ _) => apply emits_finally
  | |- emits _ _ (mtry _ _) => apply emits_try
  | |- emits _ _ (mfor _ _) => apply emits_for
  | |- emits _ _ (mret _) => apply emits_ret
  | |- emits _ _ (mraise _) => apply emits_raise
  | |- emits _ _ (mgets _) => apply emits_gets
  | |- emits _ _ (mlift _) => apply emits_lift
  | |- emits _ _ (match ?x with _ => _ end) => destruct x
  | H : match ?x with _ => _ end = Some _ |- emits _ _ _ => destruct x; try discriminate H
  | H : Some _ = Some _ |- emits _ _ _ => injection H as <-
  end.

(** ** Exceptions a computation does not raise *)

Definition avoids {S A} (e : py_exc) (m : M S A) : Prop := forall s, mresult m s <> Err e.

Section Avoids.
Context {S : Type} (e : py_exc).

Lemma avoids_ret {A} (a : A) : avoids (S:=S) e (mret a).
Proof. intros s. discriminate. Qed.
Lemma avoids_gets {A} (f : S -> A) : avoids e (mgets f).
Proof. intros s. discriminate. Qed.
Lemma avoids_get : avoids (S:=S) e mget.
Proof. intros s. discriminate. Qed.
Lemma avoids_modify (f : S -> S) : avoids e (mmodify f).
Proof. intros s. discriminate. Qed.
Lemma avoids_raise {A} e' : e' <> e -> avoids (S:=S) e (mraise (A:=A) e').
Proof. intros H s [= E]. exact (H E). Qed.
Lemma avoids_lift {A} (x : result A) : x <> Err e -> avoids (S:=S) e (mlift x).
Proof. intros H s. exact H. Qed.
Lemma avoids_bind {A B} (m : M S A) (k : A -> M S B) :
  avoids e m -> (forall a, avoids e (k a)) -> avoids e (mbind m k).
Proof.
  intros Hm Hk s. specialize (Hm s). unfold mresult, mbind in *.
  destruct (m s) as [[a|x] s']; [exact (Hk a s')|]. cbn [fst] in *. congruence.
Qed.
Lemma avoids_try {A} (m : M S A) h :
  avoids e m \/ h e <> None -> (forall e' k, h e' = Some k -> avoids e k) -> avoids e (mtry m h).
Proof.
  intros Hm Hh s. unfold mresult, mtry. destruct (m s) as [[a|x] s'] eqn:E; [discriminate|].
  destruct (h x) as [k|] eqn:Hx; [exact (Hh x k Hx s')|]. cbn [fst]. intros [= ->].
  destruct Hm as [Hm|Hm]; [|congruence]. apply (Hm s). unfold mresult. rewrite E. reflexivity.
Qed.
Lemma avoids_finally {A} (m : M S A) f : avoids e m -> avoids e f -> avoids e (mfinally m f).
Proof.
  intros Hm Hf s. specialize (Hm s). unfold mresult, mfinally in *. destruct (m s) as [r s'].
  specialize (Hf s'). unfold mresult in Hf. destruct (f s') as [[x|x] s'']; cbn [fst] in *; congruence.
Qed.
End Avoids.

(** Follow a computation down to its parts. *)
Ltac avoids_step :=
  lazymatch goal with
  | |- forall _, _ => intro
  | |- avoids _ (mbind _ _) => apply avoids_bind
  | |- avoids _ (mfinally _ _) => apply avoids_finally
  | |- avoids _ (mtry _ _) => apply avoids_try; [left|]
  | |- avoids _ (mret _) => apply avoids_ret
  | |- avoids _ (mgets _) => apply avoids_gets
  | |- avoids _ mget => apply avoids_get
  | |- avoids _ (mmodify _) => apply avoids_modify
  | |- avoids _ (mraise _) => apply avoids_raise; discriminate
  | |- avoids _ (match ?x with _ => _ end) => destruct x eqn:?
  | |- avoids _ (let _ := _ in _) => cbv zeta
  | H : match ?x with _ => _ end = Some _ |- avoids _ _ => destruct x; try discriminate H
  | H : Some _ = Some _ |- avoids _ _ => injection H as <-
  end.
