(* ===== verification/Loop.v ===== *)
(** * Loops that run until they are done

    A loop with a bound too large to count down one by one, and the rule to
    reason about it: an invariant and a measure that each turn lowers. *)

From S2P Require Import Prelude Trace.
Local Open Scope py_scope.

Section Loop.
Context {S A B : Type}.
Variable step : A -> M S (A + B).

(** At most [p] turns. *)
Fixpoint mloop (p : positive) (a : A) : M S (A + B) :=
  match p with
  | xH => step a
  | xO p => r <-! mloop p a ;; match r with inl a => mloop p a | inr b => mret (inr b) end
  | xI p => r <-! step a ;;
            match r with
            | inl a => r <-! mloop p a ;; match r with inl a => mloop p a | inr b => mret (inr b) end
            | inr b => mret (inr b)
            end
  end.

Definition mwhile (p : positive) (a : A) : M S B :=
  r <-! mloop p a ;; match r with inl _ => mraise RuntimeError | inr b => mret b end.

Variable I : A -> S -> Prop.
Variable measure : A -> S -> Z.
Variable Q : result B -> S -> Prop.

Definition turned (a : A) (s : S) (n : Z) (o : result (A + B) * S) : Prop :=
  match o with
  | (Ok (inl a'), s') => I a' s' /\ measure a' s' <= measure a s - n
  | (Ok (inr b), s') => Q (Ok b) s'
  | (Err e, s') => Q (Err e) s'
  end.

Hypothesis turn : forall a s, I a s -> turned a s 1 (step a s).
Hypothesis measure_nonneg : forall a s, I a s -> 0 <= measure a s.

Lemma turned_bind a s n1 n2 (m : M S (A + B)) (k : A -> M S (A + B)) :
  turned a s n1 (m s) -> (forall a' s', I a' s' -> turned a' s' n2 (k a' s')) ->
  turned a s (n1 + n2) ((r <-! m ;; match r with inl a => k a | inr b => mret (inr b) end) s).
Proof.
  intros Hm Hk. rewrite bind_run. unfold turned in *. destruct (m s) as [[[a1|b]|e] s1]; [|exact Hm..].
  destruct Hm as [HI Hn]. specialize (Hk a1 s1 HI). destruct (k a1 s1) as [[[a2|b]|e] s2]; [|exact Hk..].
  destruct Hk as [HI2 Hn2]. split; [exact HI2|lia].
Qed.

Lemma mloop_turned p : forall a s, I a s -> turned a s (Zpos p) (mloop p a s).
Proof.
  induction p as [p IH|p IH|]; intros a s HI; cbn [mloop]; [| |exact (turn a s HI)].
  - replace (Zpos p~1) with (1 + (Zpos p + Zpos p)) by lia. apply turned_bind; [exact (turn a s HI)|].
    intros a' s' HI'. apply turned_bind; auto.
  - replace (Zpos p~0) with (Zpos p + Zpos p) by lia. apply turned_bind; auto.
Qed.

(** With a bound over the measure the loop does not run out. *)
Lemma mwhile_rule p a s : I a s -> measure a s < Zpos p ->
  Q (mresult (mwhile p a) s) (mstate (mwhile p a) s).
Proof.
  intros HI Hp. pose proof (mloop_turned p a s HI) as H. unfold mwhile, mresult, mstate. rewrite !bind_run.
  unfold turned in H. destruct (mloop p a s) as [[[a1|b]|e] s1]; [|exact H..].
  destruct H as [HI1 Hn]. specialize (measure_nonneg a1 s1 HI1). lia.
Qed.
End Loop.

(** A loop of turns of a kind. *)
Lemma emits_while {S T A B} (tr : S -> list T) p (step : A -> M S (A + B)) n : (forall a, emits tr p (step a)) ->
  forall a, emits tr p (mwhile step n a).
Proof.
  intros H a. unfold mwhile. apply emits_bind; [|intros []; repeat emits_step].
  revert a. induction n as [n IH|n IH|]; intros a; cbn [mloop]; [| |exact (H a)].
  - apply emits_bind; [exact (H a)|intros []; [|apply emits_ret]]. apply emits_bind; [apply IH|intros []; [apply IH|apply emits_ret]].
  - apply emits_bind; [apply IH|intros []; [apply IH|apply emits_ret]].
Qed.
