(* ===== verification/Tables.v ===== *)
(** * Keyed tables and insertion-ordered dictionaries

    A SQLite table with a primary key, and a Python [dict], are both lists
    of rows in insertion order, with one row per key.  This file holds
    their operations, the laws every component uses, and the abstraction
    to finite maps the refinement theorems are stated with. *)

From S2P Require Import Prelude.

Section Table.
Context {K R : Type} `{EqDecision K} (key : R -> K).

Definition tfind (k : K) (l : list R) : option R :=
  List.find (fun r => bool_decide (key r = k)) l.

Definition tupd (k : K) (f : R -> R) (l : list R) : list R :=
  map (fun r => if bool_decide (key r = k) then f r else r) l.

Definition tdel (k : K) (l : list R) : list R :=
  List.filter (fun r => negb (bool_decide (key r = k))) l.

Definition unique (l : list R) : Prop := NoDup (map key l).

Lemma tfind_key k l r : tfind k l = Some r -> key r = k.
Proof. intros H. apply find_some in H as [_ H]. apply bool_decide_eq_true in H. exact H. Qed.

Lemma tfind_in k l r : tfind k l = Some r -> In r l.
Proof. intros H. apply find_some in H as [H _]. exact H. Qed.

Lemma tfind_cons k r l : tfind k (r :: l) = if bool_decide (key r = k) then Some r else tfind k l.
Proof. reflexivity. Qed.

Lemma tfind_none k l : tfind k l = None <-> ~ In k (map key l).
Proof.
  induction l as [|r l IH]; [simpl; tauto|]. rewrite tfind_cons. cbn [map In].
  destruct (bool_decide_reflect (key r = k)) as [E|E]; [|tauto].
  split; [discriminate|]. intros H. exfalso. auto.
Qed.

Lemma tfind_unique l r : unique l -> In r l -> tfind (key r) l = Some r.
Proof.
  unfold unique. induction l as [|r' l IH]; [intros _ []|]. cbn [map In].
  rewrite NoDup_cons. intros [Hn Hu] Hin. rewrite tfind_cons.
  destruct (bool_decide_reflect (key r' = key r)) as [E|E].
  - destruct Hin as [->|Hin]; [reflexivity|]. exfalso. apply Hn. rewrite E.
    apply list_elem_of_In, in_map. exact Hin.
  - destruct Hin as [->|Hin]; [congruence|]. apply IH; assumption.
Qed.

Lemma map_key_tupd k f l : (forall r, key r = k -> key (f r) = k) ->
  map key (tupd k f l) = map key l.
Proof.
  intros Hf. unfold tupd. rewrite map_map. apply map_ext. intros r.
  destruct (bool_decide_reflect (key r = k)); [|reflexivity]. rewrite Hf; congruence.
Qed.

Lemma tfind_tupd_eq k f l : (forall r, key r = k -> key (f r) = k) ->
  tfind k (tupd k f l) = option_map f (tfind k l).
Proof.
  intros Hf. induction l as [|r l IH]; [reflexivity|]. unfold tupd. cbn [map].
  rewrite !tfind_cons. destruct (bool_decide_reflect (key r = k)) as [E|E].
  - rewrite bool_decide_true by auto. reflexivity.
  - rewrite bool_decide_false by exact E. exact IH.
Qed.

Lemma tfind_tupd_ne k k' f l : k <> k' -> (forall r, key r = k -> key (f r) = k) ->
  tfind k' (tupd k f l) = tfind k' l.
Proof.
  intros Hne Hf. induction l as [|r l IH]; [reflexivity|]. unfold tupd. cbn [map].
  rewrite !tfind_cons. destruct (bool_decide_reflect (key r = k)) as [E|E].
  - rewrite !bool_decide_false by (try rewrite Hf by exact E; congruence). exact IH.
  - destruct (bool_decide (key r = k')); [reflexivity|exact IH].
Qed.

Lemma tfind_app k l1 l2 : tfind k (l1 ++ l2) =
  match tfind k l1 with Some r => Some r | None => tfind k l2 end.
Proof.
  induction l1 as [|r l IH]; [reflexivity|]. cbn [app]. rewrite !tfind_cons.
  destruct (bool_decide (key r = k)); [reflexivity|exact IH].
Qed.

Lemma tfind_tdel_eq k l : tfind k (tdel k l) = None.
Proof.
  induction l as [|r l IH]; [reflexivity|]. unfold tdel. cbn [List.filter].
  destruct (bool_decide_reflect (key r = k)) as [E|E]; cbn [negb]; [exact IH|].
  rewrite tfind_cons, bool_decide_false by exact E. exact IH.
Qed.

Lemma tfind_tdel_ne k k' l : k <> k' -> tfind k' (tdel k l) = tfind k' l.
Proof.
  intros Hne. induction l as [|r l IH]; [reflexivity|]. unfold tdel. cbn [List.filter].
  rewrite tfind_cons. destruct (bool_decide_reflect (key r = k)) as [E|E]; cbn [negb].
  - rewrite bool_decide_false by congruence. exact IH.
  - rewrite tfind_cons. destruct (bool_decide (key r = k')); [reflexivity|exact IH].
Qed.

Lemma in_tdel k r l : In r (tdel k l) <-> In r l /\ key r <> k.
Proof.
  unfold tdel. rewrite filter_In. rewrite negb_true_iff, bool_decide_eq_false. reflexivity.
Qed.

Lemma in_tupd k f l r : In r (tupd k f l) ->
  exists r0, In r0 l /\ r = (if bool_decide (key r0 = k) then f r0 else r0).
Proof.
  unfold tupd. intros H. apply in_map_iff in H as (r0 & <- & H). eauto.
Qed.

Lemma tupd_absent k f l : tfind k l = None -> tupd k f l = l.
Proof.
  induction l as [|r l IH]; [reflexivity|]. rewrite tfind_cons. unfold tupd. cbn [map].
  destruct (bool_decide (key r = k)); [discriminate|]. intros H. f_equal. exact (IH H).
Qed.

Lemma tdel_absent k l : tfind k l = None -> tdel k l = l.
Proof.
  induction l as [|r l IH]; [reflexivity|]. rewrite tfind_cons. unfold tdel. cbn [List.filter].
  destruct (bool_decide (key r = k)); [discriminate|]. cbn [negb]. intros H. f_equal. exact (IH H).
Qed.

Lemma unique_tupd k f l : (forall r, key r = k -> key (f r) = k) ->
  unique l -> unique (tupd k f l).
Proof. intros Hf. unfold unique. rewrite map_key_tupd by exact Hf. exact id. Qed.

Lemma unique_filter P l : unique l -> unique (List.filter P l).
Proof.
  unfold unique. induction l as [|r l IH]; [exact id|]. cbn [map List.filter].
  rewrite NoDup_cons. intros [Hn Hu]. destruct (P r); [|exact (IH Hu)]. cbn [map].
  rewrite NoDup_cons. split; [|exact (IH Hu)]. rewrite list_elem_of_In in *. intros Hi.
  apply Hn. apply in_map_iff in Hi as (r' & E & Hr'). apply filter_In in Hr' as [Hr' _].
  rewrite <- E. apply in_map. exact Hr'.
Qed.

Lemma unique_tdel k l : unique l -> unique (tdel k l).
Proof. apply unique_filter. Qed.

Lemma unique_snoc l r : unique l -> tfind (key r) l = None -> unique (l ++ [r]).
Proof.
  unfold unique. intros Hu Hf. rewrite map_app. cbn [map]. apply NoDup_app.
  split; [exact Hu|]. split; [|apply NoDup_singleton].
  intros k Hk Hk'. apply list_elem_of_singleton in Hk' as ->.
  apply tfind_none in Hf. apply Hf. apply list_elem_of_In. exact Hk.
Qed.

(** For each key in order, [DELETE ... WHERE key = k AND P]; the keys whose
    statement removed a row are collected. *)
Fixpoint delete_each (P : R -> bool) (ks : list K) (removed : list K) (l : list R)
    : list K * list R :=
  match ks with
  | [] => (removed, l)
  | k :: ks' =>
      if match tfind k l with Some r => P r | None => false end
      then delete_each P ks' (removed ++ [k]) (tdel k l)
      else delete_each P ks' removed l
  end.

(** What is left, and what is reported removed. *)
Lemma delete_each_spec P ks removed l : exists removed' l',
  delete_each P ks removed l = (removed ++ removed', l') /\
  (unique l -> unique l') /\
  (forall k, tfind k l' = match tfind k l with
                          | Some r => if bool_decide (k ∈ ks) && P r then None else Some r
                          | None => None
                          end) /\
  (forall k, In k removed' <-> In k ks /\ exists r, tfind k l = Some r /\ P r = true).
Proof.
  revert removed l. induction ks as [|u ks IH]; intros removed l.
  - exists [], l. rewrite app_nil_r. split; [reflexivity|]. split; [exact id|]. split.
    + intros k. destruct (tfind k l); reflexivity.
    + intros k. split; [intros []|intros [[] _]].
  - cbn [delete_each].
    destruct (match tfind u l with Some r => P r | None => false end) eqn:Hd.
    + destruct (IH (removed ++ [u]) (tdel u l)) as (rm & l' & E & Hu & Hg & Hr).
      exists (u :: rm), l'. rewrite E, <- app_assoc. split; [reflexivity|].
      split; [intros H; apply Hu, unique_tdel, H|]. split.
      * intros k. rewrite Hg. destruct (decide (u = k)) as [<-|Hk].
        -- rewrite tfind_tdel_eq. destruct (tfind u l); [|reflexivity].
           rewrite Hd, bool_decide_true by constructor. reflexivity.
        -- rewrite tfind_tdel_ne by exact Hk. destruct (tfind k l); [|reflexivity].
           replace (bool_decide (k ∈ u :: ks)) with (bool_decide (k ∈ ks)); [reflexivity|].
           apply bool_decide_ext. rewrite elem_of_cons. intuition congruence.
      * intros k. cbn [In]. rewrite Hr. destruct (decide (u = k)) as [<-|Hk].
        -- split; [intros _|intros _; auto]. split; [auto|].
           destruct (tfind u l) as [r|]; [|discriminate]. eauto.
        -- rewrite tfind_tdel_ne by exact Hk. intuition congruence.
    + destruct (IH removed l) as (rm & l' & E & Hu & Hg & Hr).
      exists rm, l'. rewrite E. split; [reflexivity|]. split; [exact Hu|]. split.
      * intros k. rewrite Hg. destruct (tfind k l) as [r|] eqn:Hk; [|reflexivity].
        destruct (decide (u = k)) as [->|Hne]; [rewrite Hk in Hd; rewrite Hd, !andb_false_r; reflexivity|].
        replace (bool_decide (k ∈ u :: ks)) with (bool_decide (k ∈ ks)); [reflexivity|].
        apply bool_decide_ext. rewrite elem_of_cons. intuition congruence.
      * intros k. rewrite Hr. cbn [In]. split; [intuition|].
        intros [[<-|Hin] (r & Hk & Hpu)]; [rewrite Hk, Hpu in Hd; discriminate|eauto].
Qed.
End Table.

(** ** Python dictionaries *)

Section Dict.
Context {K V : Type} `{EqDecision K}.

Definition dget (k : K) (d : list (K * V)) : option V := option_map snd (tfind fst k d).

(** [d[k] = v]: in place, or appended. *)
Definition dset (k : K) (v : V) (d : list (K * V)) : list (K * V) :=
  match tfind fst k d with
  | Some _ => tupd fst k (fun _ => (k, v)) d
  | None => d ++ [(k, v)]
  end.

(** [d.pop(k, None)]. *)
Definition ddel (k : K) (d : list (K * V)) : list (K * V) := tdel fst k d.

Definition dkeys (d : list (K * V)) : list K := map fst d.
Definition dunique (d : list (K * V)) : Prop := unique fst d.

Lemma dget_dset_eq k v d : dget k (dset k v d) = Some v.
Proof.
  unfold dget, dset. destruct (tfind fst k d) as [p|] eqn:E.
  - rewrite tfind_tupd_eq by auto. rewrite E. reflexivity.
  - rewrite tfind_app, E, tfind_cons. cbn [fst]. rewrite bool_decide_true; reflexivity.
Qed.

Lemma dget_dset_ne k k' v d : k <> k' -> dget k' (dset k v d) = dget k' d.
Proof.
  intros Hne. unfold dget, dset. destruct (tfind fst k d) as [p|] eqn:E.
  - rewrite tfind_tupd_ne by auto. reflexivity.
  - rewrite tfind_app, tfind_cons. cbn [fst]. rewrite (bool_decide_false (k = k')) by exact Hne.
    destruct (tfind fst k' d); reflexivity.
Qed.

Lemma dget_ddel_eq k (d : list (K * V)) : dget k (ddel k d) = None.
Proof. unfold dget, ddel. rewrite tfind_tdel_eq. reflexivity. Qed.

Lemma dget_ddel_ne k k' (d : list (K * V)) : k <> k' -> dget k' (ddel k d) = dget k' d.
Proof. intros H. unfold dget, ddel. rewrite tfind_tdel_ne by exact H. reflexivity. Qed.

Lemma dget_nil k : dget k ([] : list (K * V)) = None.
Proof. reflexivity. Qed.

Lemma dget_in k v d : dget k d = Some v -> In (k, v) d.
Proof.
  unfold dget. destruct (tfind fst k d) as [[k' v']|] eqn:E; [|discriminate].
  intros [= <-]. pose proof (tfind_key _ _ _ _ E) as Hk. cbn in Hk. subst k'.
  exact (tfind_in _ _ _ _ E).
Qed.

Lemma in_dget k v d : dunique d -> In (k, v) d -> dget k d = Some v.
Proof. intros Hu Hi. unfold dget. pose proof (tfind_unique fst d (k, v) Hu Hi) as E. cbn [fst] in E. rewrite E. reflexivity. Qed.

Lemma dget_none k d : dget k d = None <-> ~ In k (dkeys d).
Proof.
  unfold dget, dkeys. pose proof (tfind_none fst k d) as H.
  destruct (tfind fst k d); simpl; rewrite <- H; split; congruence.
Qed.

(** Deleting forgets the last store. *)
Lemma dset_dset k v v' (d : list (K * V)) : dset k v' (dset k v d) = dset k v' d.
Proof.
  unfold dset at 1. destruct (tfind fst k (dset k v d)) as [p|] eqn:E.
  - clear E p. unfold dset. destruct (tfind fst k d) as [p|] eqn:E.
    + unfold tupd. rewrite map_map. apply map_ext. intros x. destruct (bool_decide_reflect (fst x = k)) as [H|H]; cbn [fst].
      * rewrite bool_decide_eq_true_2 by reflexivity. reflexivity.
      * rewrite bool_decide_eq_false_2 by exact H. reflexivity.
    + unfold tupd. rewrite map_app. cbn [map fst]. rewrite bool_decide_eq_true_2 by reflexivity. f_equal.
      exact (tupd_absent fst k _ d E).
  - exfalso. pose proof (dget_dset_eq k v d) as H. unfold dget in H. rewrite E in H. discriminate.
Qed.

Lemma ddel_dset k v (d : list (K * V)) : ddel k (dset k v d) = ddel k d.
Proof.
  unfold ddel, dset, tdel. destruct (tfind fst k d).
  - unfold tupd. induction d as [|[k' v'] d IH]; [reflexivity|]. cbn [map List.filter fst].
    destruct (bool_decide_reflect (k' = k)) as [->|E]; cbn [fst].
    + rewrite bool_decide_eq_true_2 by reflexivity. exact IH.
    + rewrite bool_decide_eq_false_2 by exact E. cbn [negb]. rewrite IH. reflexivity.
  - rewrite List.filter_app. cbn [List.filter fst]. rewrite bool_decide_eq_true_2 by reflexivity.
    cbn [negb]. apply app_nil_r.
Qed.

Lemma ddel_absent k (d : list (K * V)) : dget k d = None -> ddel k d = d.
Proof. unfold dget, ddel. intros H. apply tdel_absent. destruct (tfind fst k d); [discriminate|reflexivity]. Qed.

Lemma in_dset k v k' v' d : In (k', v') (dset k v d) -> (k', v') = (k, v) \/ In (k', v') d.
Proof.
  unfold dset. destruct (tfind fst k d).
  - intros H. apply in_tupd in H as (r & Hr & ->).
    destruct (bool_decide (fst r = k)); auto.
  - intros H. apply in_app_or in H as [H|[H|[]]]; auto.
Qed.

Lemma dunique_nil : dunique [].
Proof. apply NoDup_nil_2. Qed.

Lemma dunique_dset k v d : dunique d -> dunique (dset k v d).
Proof.
  intros Hu. unfold dset. destruct (tfind fst k d) as [p|] eqn:E.
  - apply unique_tupd; auto.
  - apply unique_snoc; [exact Hu|exact E].
Qed.

Lemma dunique_ddel k d : dunique d -> dunique (ddel k d).
Proof. apply unique_tdel. Qed.

Lemma dget_filter k P d : dunique d -> dget k (List.filter P d) =
  match dget k d with Some v => if P (k, v) then Some v else None | None => None end.
Proof.
  unfold dunique, unique, dget. induction d as [|[k' v] d IH]; [reflexivity|]. cbn [map List.filter].
  rewrite NoDup_cons. intros [Hn Hu]. specialize (IH Hu). rewrite tfind_cons. cbn [fst] in *.
  destruct (bool_decide_reflect (k' = k)) as [->|E].
  - assert (Hd : tfind fst k d = None) by (apply tfind_none; rewrite <- list_elem_of_In; exact Hn).
    rewrite Hd in IH. cbn [option_map snd] in *. destruct (P (k, v)); [|exact IH].
    rewrite tfind_cons. cbn [fst]. rewrite bool_decide_true; reflexivity.
  - destruct (P (k', v)); [|exact IH]. rewrite tfind_cons. cbn [fst].
    rewrite bool_decide_false by exact E. exact IH.
Qed.

Lemma in_ddel k k' v (d : list (K * V)) : In (k', v) (ddel k d) <-> In (k', v) d /\ k' <> k.
Proof. unfold ddel. rewrite in_tdel. reflexivity. Qed.
End Dict.

(** The finite map a dictionary stands for. *)
Section Abstraction.
Context {K V : Type} `{Countable K}.

Definition as_map (d : list (K * V)) : gmap K V := list_to_map d.

Lemma as_map_lookup k d : (as_map d) !! k = dget k d.
Proof.
  unfold as_map, dget. induction d as [|[k' v] d IH]; [reflexivity|].
  cbn [list_to_map foldr]. rewrite tfind_cons. cbn [fst].
  destruct (bool_decide_reflect (k' = k)) as [->|E].
  - simpl. apply lookup_insert_eq.
  - simpl. rewrite lookup_insert_ne by exact E. exact IH.
Qed.

Lemma as_map_dset k v d : as_map (dset k v d) = <[k := v]> (as_map d).
Proof.
  apply map_eq. intros k'. rewrite as_map_lookup. destruct (decide (k = k')) as [->|E].
  - rewrite dget_dset_eq, lookup_insert_eq. reflexivity.
  - rewrite dget_dset_ne, lookup_insert_ne, as_map_lookup by exact E. reflexivity.
Qed.

Lemma as_map_ddel k d : as_map (ddel k d) = delete k (as_map d).
Proof.
  apply map_eq. intros k'. rewrite as_map_lookup. destruct (decide (k = k')) as [->|E].
  - rewrite dget_ddel_eq, lookup_delete_eq. reflexivity.
  - rewrite dget_ddel_ne, lookup_delete_ne, as_map_lookup by exact E. reflexivity.
Qed.
End Abstraction.

#[export] Hint Resolve unique_tupd unique_tdel unique_filter unique_snoc
  dunique_nil dunique_dset dunique_ddel : py.
#[export] Hint Rewrite @dget_dset_eq @dget_ddel_eq @dget_nil : dict.
