(* ===== verification/Sorting.v ===== *)
(** * Sorting

    [sorted] with a key, and what it gives: a permutation in the order of
    the keys that keeps the order found among equal keys. *)

From stdpp Require Import sorting.
From S2P Require Import Prelude.

(** [sorted(l, key=...)]: stable. *)
Section Sorted.
Context {A K : Type} (leb : K -> K -> bool) (key : A -> K).
Fixpoint insert_sorted (x : A) (l : list A) : list A :=
  match l with
  | [] => [x]
  | y :: l' => if leb (key x) (key y) then x :: l else y :: insert_sorted x l'
  end.
Definition sorted (l : list A) : list A := foldr insert_sorted [] l.
End Sorted.

Lemma string_leb_trans : forall a b c : string, String.leb a b = true -> String.leb b c = true -> String.leb a c = true.
Proof.
  unfold String.leb. induction a as [|x a IH]; intros [|y b] [|z c]; cbn; auto; try discriminate.
  unfold Ascii.compare.
  destruct (N.compare_spec (N_of_ascii x) (N_of_ascii y)) as [E|E|E];
  destruct (N.compare_spec (N_of_ascii y) (N_of_ascii z)) as [F|F|F]; try discriminate; intros H1 H2;
  destruct (N.compare_spec (N_of_ascii x) (N_of_ascii z)) as [G|G|G]; try reflexivity; try lia; try discriminate.
  exact (IH _ _ H1 H2).
Qed.

(** A stable sort refines the order it found among equal keys. *)
Section SortedFacts.
Context {A K : Type} (leb : K -> K -> bool) (key : A -> K) (R : relation A).
Hypothesis leb_total : forall a b, leb a b = true \/ leb b a = true.
Hypothesis leb_trans : forall a b c, leb a b = true -> leb b c = true -> leb a c = true.

Definition by_key (x y : A) : Prop :=
  leb (key x) (key y) = true /\ (leb (key y) (key x) = true -> R x y).

Lemma insert_perm x l : insert_sorted leb key x l ≡ₚ x :: l.
Proof.
  induction l as [|y l IH]; [reflexivity|]. cbn [insert_sorted]. destruct (leb _ _); [reflexivity|].
  rewrite IH. apply perm_swap.
Qed.

Lemma sorted_perm l : sorted leb key l ≡ₚ l.
Proof. induction l as [|x l IH]; [reflexivity|]. cbn. rewrite insert_perm, IH. reflexivity. Qed.

Lemma insert_by_key x l : StronglySorted by_key l -> Forall (R x) l ->
  StronglySorted by_key (insert_sorted leb key x l).
Proof.
  induction 1 as [|y l Hl IH Hy]; intros Hx; cbn [insert_sorted]; [repeat constructor|].
  inversion Hx as [|? ? Hxy Hxl]; subst. destruct (leb (key x) (key y)) eqn:E.
  - constructor; [constructor; assumption|]. constructor; [split; auto|].
    rewrite Forall_forall in *. intros z Hz. split; [|auto]. eapply leb_trans; [exact E|apply Hy, Hz].
  - constructor; [exact (IH Hxl)|]. rewrite insert_perm. constructor; [|exact Hy].
    split; [|congruence]. destruct (leb_total (key x) (key y)); congruence.
Qed.

Lemma sorted_by_key l : StronglySorted R l -> StronglySorted by_key (sorted leb key l).
Proof.
  induction 1 as [|x l Hl IH Hx]; [constructor|]. apply (insert_by_key x (sorted leb key l) IH).
  rewrite sorted_perm. exact Hx.
Qed.
End SortedFacts.

Lemma StronglySorted_weaken {A} (R R' : relation A) l : (forall x y, R x y -> R' x y) ->
  StronglySorted R l -> StronglySorted R' l.
Proof.
  intros H. induction 1 as [|x l Hl IH Hx]; constructor; [exact IH|]. eapply Forall_impl; [exact Hx|]. auto.
Qed.
