(* ===== verification/Json.v ===== *)
(** * JSON values and Python's conversions on them

    The values [json.loads] gives a request handler.  A float is a finite
    rational, an infinity or a NaN ([json.loads] accepts [1e999],
    [Infinity] and [NaN]); an object has unique keys in order. *)

From S2P Require Import Prelude Tables.
Local Open Scope py_scope.

Inductive pyfloat := FFin (num : Z) (den : positive) | FInf (neg : bool) | FNan.

#[export] Instance pyfloat_eq_dec : EqDecision pyfloat.
Proof. solve_decision. Defined.

Inductive json :=
| JNull
| JBool (b : bool)
| JInt (z : Z)
| JFloat (f : pyfloat)
| JStr (s : string)
| JList (l : list json)
| JObj (kvs : list (string * json)).

(** The pairs of an object. *)
Definition fields : Type := list (string * json).

(** [d.get(k)] on an object: [None] is [JNull]. *)
Definition jget (k : string) (d : list (string * json)) : json :=
  match dget k d with Some v => v | None => JNull end.

(** [d.get(k, default)]. *)
Definition jget_or (k : string) (dflt : json) (d : list (string * json)) : json :=
  match dget k d with Some v => v | None => dflt end.

Definition digit_value (c : ascii) : Z := Z.of_nat (nat_of_ascii c) - 48.

(** Decimal digits, each two separated by at most one underscore. *)
Fixpoint digits_value (acc : Z) (need_digit : bool) (s : string) : option Z :=
  match s with
  | "" => if need_digit then None else Some acc
  | String c s' =>
      if Py.is_digit c then digits_value (acc * 10 + digit_value c) false s'
      else if Ascii.eqb c "_" && negb need_digit then digits_value acc true s'
      else None
  end.

(** [int(s)]. *)
Definition int_of_str (s : string) : result Z :=
  let body t := match digits_value 0 true t with Some v => Ok v | None => Err ValueError end in
  match Py.strip s with
  | String "-" t => match body t with Ok v => Ok (- v) | e => e end
  | String "+" t => body t
  | t => body t
  end.

(** [int(v)]. *)
Definition py_int (v : json) : result Z :=
  match v with
  | JBool b => Ok (if b then 1 else 0)
  | JInt z => Ok z
  | JFloat (FFin n d) => Ok (Z.quot n (Z.pos d))
  | JFloat (FInf _) => Err OverflowError
  | JFloat FNan => Err ValueError
  | JStr s => int_of_str s
  | JNull | JList _ | JObj _ => Err TypeError
  end.

(** [float(s)], before rounding. *)
Definition ten_to (e : Z) (n : Z) : pyfloat := if 0 <=? e then FFin (n * 10 ^ e) 1 else FFin n (Z.to_pos (10 ^ (- e))).
Definition some_digits (s : string) : option Z := match s with "" => Some 0 | _ => digits_value 0 true s end.
Definition signed_digits (s : string) : option Z :=
  match s with
  | String "-" t => option_map Z.opp (digits_value 0 true t)
  | String "+" t => digits_value 0 true t
  | t => digits_value 0 true t
  end.

Definition float_body (s : string) : option pyfloat :=
  let s := Py.lower s in
  if String.eqb s "inf" || String.eqb s "infinity" then Some (FInf false)
  else if String.eqb s "nan" then Some FNan
  else
    let '(mantissa, has_exp, e) := Py.partition "e" s in
    let '(i, _, f) := Py.partition "." mantissa in
    let places := Z.of_nat (length (List.filter Py.is_digit (list_ascii_of_string f))) in
    if String.eqb (i +:+ f)%string "" then None
    else
      match some_digits i, some_digits f, (if has_exp : bool then signed_digits e else Some 0) with
      | Some a, Some b, Some x => Some (ten_to (x - places) (a * 10 ^ places + b))
      | _, _, _ => None
      end.

Definition float_neg (f : pyfloat) : pyfloat :=
  match f with FFin n d => FFin (- n) d | FInf b => FInf (negb b) | FNan => FNan end.

Definition float_of_str (s : string) : result pyfloat :=
  let body t := match float_body t with Some v => Ok v | None => Err ValueError end in
  match Py.strip s with
  | String "-" t => match body t with Ok v => Ok (float_neg v) | e => e end
  | String "+" t => body t
  | t => body t
  end.

Example float_of_str_ex :
  float_of_str " -1_2.50e-1 " = Ok (FFin (-1250) 1000) /\ float_of_str "+.5" = Ok (FFin 5 10) /\
  float_of_str "7" = Ok (FFin 7 1) /\ float_of_str "." = Err ValueError /\ float_of_str "1e" = Err ValueError.
Proof. vm_compute. repeat split. Qed.

(** [float(v)]. *)
Definition py_float (v : json) : result pyfloat :=
  match v with
  | JBool b => Ok (FFin (if b then 1 else 0) 1)
  | JInt z => Ok (FFin z 1)
  | JFloat f => Ok f
  | JStr s => float_of_str s
  | JNull | JList _ | JObj _ => Err TypeError
  end.

Lemma py_float_error v e : py_float v = Err e -> e = ValueError \/ e = TypeError.
Proof.
  destruct v; cbn; try discriminate; try (intros [= <-]; solve [auto]). unfold float_of_str.
  destruct (Py.strip _) as [|[[] [] [] [] [] [] [] []] rest]; destruct (float_body _); try discriminate; intros [= <-]; auto.
Qed.

(** [str(v)]; what it is of a float, a list or an object is a parameter. *)
Definition str_with (other : json -> string) (v : json) : string :=
  match v with
  | JStr s => s
  | JNull => "None"
  | JBool true => "True"
  | JBool false => "False"
  | JInt z => pretty z
  | _ => other v
  end.

(** A list whose members are used as dicts. *)
Definition objects (v : json) : result (list fields) :=
  match v with
  | JList l => foldr (fun x acc => match x with JObj o => let! t := acc in Ok (o :: t) | _ => Err TypeError end) (Ok []) l
  | _ => Err TypeError
  end.

(** [bool(v)]. *)
Definition truthy (v : json) : bool :=
  match v with
  | JNull => false
  | JBool b => b
  | JInt z => negb (z =? 0)
  | JFloat (FFin n _) => negb (n =? 0)
  | JFloat _ => true
  | JStr s => negb (String.eqb s "")
  | JList l => match l with [] => false | _ => true end
  | JObj l => match l with [] => false | _ => true end
  end.

(** ** Numbers as their digits *)

Lemma pretty_N_go_digits x : forall s, Py.sforall Py.is_digit s = true -> Py.sforall Py.is_digit (pretty_N_go x s) = true.
Proof.
  induction (N.lt_wf_0 x) as [x _ IH]; intros s Hs. destruct (decide (0 < x)%N) as [H|H].
  - rewrite pretty_N_go_step by exact H. apply IH; [apply N.div_lt; lia|]. cbn [Py.sforall]. rewrite Hs, andb_true_r.
    unfold pretty_N_char. repeat case_match; reflexivity.
  - replace x with 0%N by lia. rewrite pretty_N_go_0. exact Hs.
Qed.

Lemma pretty_digits z : 0 <= z -> Py.sforall Py.is_digit (pretty z) = true.
Proof.
  intros Hz. destruct z as [|p|p]; [reflexivity| |lia]. change (pretty (Z.pos p)) with (pretty_N_go (N.pos p) "").
  apply pretty_N_go_digits. reflexivity.
Qed.

Lemma pretty_char_value n : (n < 10)%N -> digit_value (pretty_N_char n) = Z.of_N n /\ Py.is_digit (pretty_N_char n) = true.
Proof. intros H. assert (In n [0;1;2;3;4;5;6;7;8;9]%N) as X by (cbn; lia). cbn in X. intuition subst; reflexivity. Qed.

Lemma digits_value_go x : (0 < x)%N -> forall s,
  digits_value 0 true (pretty_N_go x s) = digits_value (Z.of_N x) false s.
Proof.
  induction (N.lt_wf_0 x) as [x _ IH]; intros H s. rewrite pretty_N_go_step by exact H.
  pose proof (N.div_mod x 10 ltac:(lia)) as D. pose proof (N.mod_lt x 10 ltac:(lia)) as L.
  destruct (pretty_char_value _ L) as [V C].
  destruct (decide (0 < x `div` 10)%N) as [Hd|Hd].
  - rewrite IH by (assumption || (apply N.div_lt; lia)). cbn [digits_value]. rewrite C, V. f_equal. lia.
  - replace (x `div` 10)%N with 0%N in * by lia. rewrite pretty_N_go_0. cbn [digits_value]. rewrite C, V. f_equal. lia.
Qed.

(** [s.strip() == s] for a text without blanks. *)
Lemma strip_spaceless s : Py.sexists Py.is_space s = false -> Py.strip s = s.
Proof.
  intros H. unfold Py.strip. assert (R : Py.rstrip_ws s = s).
  { induction s as [|c s IH]; [reflexivity|]. cbn in H. apply orb_false_iff in H as [Hc H]. cbn.
    rewrite (IH H). destruct s; [rewrite Hc|]; reflexivity. }
  rewrite R. destruct s as [|c s]; [reflexivity|]. cbn in H |- *. apply orb_false_iff in H as [-> _]. reflexivity.
Qed.

Lemma rstrip_blank u : Py.sforall Py.is_space u = true -> Py.rstrip_ws u = "".
Proof.
  induction u as [|c u IH]; [reflexivity|]. cbn. intros H. apply andb_prop in H as [Hc Hu]. rewrite (IH Hu), Hc. reflexivity.
Qed.

Lemma rstrip_app_blank a u : Py.sforall Py.is_space u = true -> Py.rstrip_ws (a +:+ u)%string = Py.rstrip_ws a.
Proof.
  intros Hu. induction a as [|c a IH]; [exact (rstrip_blank u Hu)|]. cbn. rewrite IH. reflexivity.
Qed.

Lemma digit_not_space s : Py.sforall Py.is_digit s = true -> Py.sexists Py.is_space s = false.
Proof.
  induction s as [|c s IH]; [reflexivity|]. cbn. rewrite andb_true_iff. intros [Hc Hs]. rewrite (IH Hs), orb_false_r.
  clear - Hc. revert Hc. destruct c as [[] [] [] [] [] [] [] []]; vm_compute; congruence.
Qed.

(** [int(str(z)) == z]. *)
Lemma int_of_str_pretty z : 0 <= z -> int_of_str (pretty z) = Ok z.
Proof.
  intros Hz. pose proof (pretty_digits z Hz) as D. unfold int_of_str. rewrite strip_spaceless by (apply digit_not_space, D).
  assert (V : digits_value 0 true (pretty z) = Some z).
  { destruct z as [|p|p]; [reflexivity| |lia]. change (pretty (Z.pos p)) with (pretty_N_go (N.pos p) "").
    rewrite digits_value_go by lia. reflexivity. }
  destruct (pretty z) as [|c s]; [discriminate|]. cbn [Py.sforall] in D. apply andb_prop in D as [D _].
  destruct c as [[] [] [] [] [] [] [] []]; cbn in D; try discriminate; rewrite V; reflexivity.
Qed.
