(* ===== verification/Argparse.v ===== *)
(** * [argparse], as the command lines use it

    [ArgumentParser.parse_args] of Python 3.11 on the parsers the four
    commands build: options with one value, flags, [append], positional
    arguments with [nargs] none, [*] or [REMAINDER], subcommands, exclusive
    groups, abbreviations and joined short flags.  What is printed is left
    out; a parse ends with the namespace or with the exit code of
    [error], [--help] and [--version].

    A positional argument's pattern is matched greedily, one after the
    other, which is the regular expression's match as long as a [*] or a
    [REMAINDER] is the last one. *)

From S2P Require Import Prelude Tables Json.
Local Open Scope py_scope.

Inductive arg_value :=
| VNone
| VBool (b : bool)
| VStr (s : string)
| VInt (z : Z)
| VFloat (f : pyfloat)
| VList (l : list string)
| VMixed.                                 (* a list with an empty list in it *)

Abbreviation namespace := (list (string * arg_value)).

(** ** Parsers *)

(** [type=]. *)
Inductive conv := CStr | CInt | CFloat.

Inductive action := AStore (t : conv) | AAppend | ATrue | AConst (c : string) | AHelp | AVersion.

(** The first flag names the option. *)
Record option_spec := mkOption {
  op_flags : list string;
  op_dest : string;
  op_action : action;
  op_default : arg_value;
  op_required : bool }.

Inductive nargs := One | Star | Remainder.

Record positional := mkPositional { po_dest : string; po_nargs : nargs; po_conv : conv }.

Inductive parser := Parser {
  pa_options : list option_spec;
  pa_positionals : list positional;
  pa_sub : option (string * list (string * parser));    (* the dest, the choices *)
  pa_groups : list (bool * list string);                (* is one required, the options *)
  pa_defaults : namespace }.                            (* [set_defaults] *)

Definition op_id (o : option_spec) : string := match op_flags o with f :: _ => f | [] => "" end.

Definition takes_value (o : option_spec) : bool :=
  match op_action o with AStore _ | AAppend => true | _ => false end.

(** [_option_string_actions], in the order of the flags. *)
Definition option_strings (p : parser) : list (string * option_spec) :=
  flat_map (fun o => map (fun f => (f, o)) (op_flags o)) (pa_options p).

Definition find_option (p : parser) (flag : string) : option option_spec := dget flag (option_strings p).

(** ** Outcomes *)

Inductive outcome (A : Type) := Go (a : A) | Exits (code : Z).
Arguments Go {A} a.
Arguments Exits {A} code.

Definition obind {A B} (m : outcome A) (k : A -> outcome B) : outcome B :=
  match m with Go a => k a | Exits c => Exits c end.
Notation "'let?' x := m 'in' k" := (obind m (fun x => k)) (at level 10, x name, k at level 200).

(** [parser.error]. *)
Definition usage_error {A} : outcome A := Exits 2.

(** ** Reading one argument *)

(** What an argument that looks like an option is: the option, the flag it
    was found by, the value joined to it. *)
Record reading := mkReading { rd_option : option option_spec; rd_flag : string; rd_explicit : option string }.

Inductive mark := MarkO (r : reading) | MarkA | MarkDash.

Definition is_negative_number (s : string) : bool :=
  match s with
  | String "-" t =>
      let '(i, dot, f) := Py.partition "." t in
      Py.sforall Py.is_digit i &&
      (if dot : bool then negb (String.eqb f "") && Py.sforall Py.is_digit f else negb (String.eqb i ""))
  | _ => false
  end.

(** [_get_option_tuples]. *)
Definition option_tuples (p : parser) (s : string) : list reading :=
  if Py.startswith s "--" then
    let '(prefix, eq, value) := Py.partition "=" s in
    map (fun fo => mkReading (Some fo.2) fo.1 (if eq : bool then Some value else None))
      (List.filter (fun fo => Py.startswith fo.1 prefix) (option_strings p))
  else
    flat_map (fun fo =>
      if String.eqb fo.1 (Py.stake 2 s) then [mkReading (Some fo.2) fo.1 (Some (Py.sdrop 2 s))]
      else if Py.startswith fo.1 s then [mkReading (Some fo.2) fo.1 None] else []) (option_strings p).

(** [_parse_optional]: [None] is a positional argument. *)
Definition parse_optional (p : parser) (s : string) : outcome (option reading) :=
  match s with
  | "" => Go None
  | String "-" t =>
      match find_option p s with
      | Some o => Go (Some (mkReading (Some o) s None))
      | None =>
          if String.eqb t "" then Go None
          else
            let '(flag, eq, value) := Py.partition "=" s in
            match (if eq : bool then find_option p flag else None) with
            | Some o => Go (Some (mkReading (Some o) flag (Some value)))
            | None =>
                match option_tuples p s with
                | _ :: _ :: _ => usage_error
                | [r] => Go (Some r)
                | [] =>
                    if is_negative_number s then Go None
                    else if Py.sexists (Ascii.eqb " ") s then Go None
                    else Go (Some (mkReading None s None))
                end
            end
      end
  | _ => Go None
  end.

(** An argument with its mark; after the first [--] all are plain. *)
Fixpoint classify (p : parser) (args : list string) : outcome (list (mark * string)) :=
  match args with
  | [] => Go []
  | s :: rest =>
      if String.eqb s "--" then Go ((MarkDash, s) :: map (fun a => (MarkA, a)) rest)
      else
        let? r := parse_optional p s in
        let? ws := classify p rest in
        Go ((match r with Some r => MarkO r | None => MarkA end, s) :: ws)
  end.

Definition is_option (w : mark * string) : bool := match w.1 with MarkO _ => true | _ => false end.

(** ** The state of a parse *)

(** A positional argument still to come. *)
Inductive slot := SlotArg (a : positional) | SlotSub (dest : string) (choices : list (string * parser)).

Record parse_state := mkParseState {
  ps_ns : namespace;
  ps_seen : list string;                  (* the options given *)
  ps_extras : list string;
  ps_unrecognized : list string;          (* what a subparser could not place *)
  ps_slots : list slot }.

Definition ps_set (k : string) (v : arg_value) (s : parse_state) : parse_state :=
  mkParseState (dset k v (ps_ns s)) (ps_seen s) (ps_extras s) (ps_unrecognized s) (ps_slots s).
Definition ps_see (id : string) (s : parse_state) : parse_state :=
  mkParseState (ps_ns s) (ps_seen s ++ [id]) (ps_extras s) (ps_unrecognized s) (ps_slots s).
Definition ps_extra (l : list string) (s : parse_state) : parse_state :=
  mkParseState (ps_ns s) (ps_seen s) (ps_extras s ++ l) (ps_unrecognized s) (ps_slots s).
Definition ps_merge (ns : namespace) (l : list string) (s : parse_state) : parse_state :=
  mkParseState (fold_left (fun d kv => dset kv.1 kv.2 d) ns (ps_ns s)) (ps_seen s) (ps_extras s) (ps_unrecognized s ++ l) (ps_slots s).
Definition ps_with_slots (l : list slot) (s : parse_state) : parse_state :=
  mkParseState (ps_ns s) (ps_seen s) (ps_extras s) (ps_unrecognized s) l.

(** ** Values *)

Definition convert (t : conv) (s : string) : outcome arg_value :=
  match t with
  | CStr => Go (VStr s)
  | CInt => match int_of_str s with Ok z => Go (VInt z) | Err _ => usage_error end
  | CFloat => match float_of_str s with Ok f => Go (VFloat f) | Err _ => usage_error end
  end.

(** [arg_strings.remove('--')]. *)
Fixpoint remove_dashes (l : list string) : list string :=
  match l with [] => [] | s :: l' => if String.eqb s "--" then l' else s :: remove_dashes l' end.

(** [_get_values] where one value is expected: an argument that is itself
    [--] is removed, and nothing is left but the empty list. *)
Definition one_value (t : conv) (args : list string) : outcome arg_value :=
  match remove_dashes args with [s] => convert t s | l => Go (VList l) end.

(** ** Matching positional arguments *)

Definition words : Type := list (mark * string).

Definition is_dash (w : mark * string) : bool := match w.1 with MarkDash => true | _ => false end.
Definition is_plain (w : mark * string) : bool := match w.1 with MarkA => true | _ => false end.

(** How many of the first words satisfy [f]. *)
Fixpoint span (f : mark * string -> bool) (ws : words) : nat :=
  match ws with w :: ws' => if f w then S (span f ws') else 0%nat | [] => 0%nat end.

(** How many words a slot takes: [-*A-*], [-*[A-]*], [[-AO]*], [-*A[-AO]*]. *)
Definition slot_count (sl : slot) (ws : words) : option nat :=
  let d := span is_dash ws in
  match sl with
  | SlotArg a =>
      match po_nargs a with
      | One => match drop d ws with
               | w :: ws' => if is_plain w then Some (S (d + span is_dash ws')) else None
               | [] => None
               end
      | Star => Some (span (fun w => negb (is_option w)) ws)
      | Remainder => Some (length ws)
      end
  | SlotSub _ _ =>
      match drop d ws with
      | w :: _ => if is_plain w then Some (length ws) else None
      | [] => None
      end
  end.

(** [_match_arguments_partial]: the slots that can be filled now, with what
    each takes, and the words after them. *)
Fixpoint match_slots (slots : list slot) (ws : words) : list (slot * list string) * words :=
  match slots with
  | [] => ([], ws)
  | sl :: slots' =>
      match slot_count sl ws with
      | None => ([], ws)
      | Some n => let (filled, rest) := match_slots slots' (drop n ws) in ((sl, map snd (take n ws)) :: filled, rest)
      end
  end.

Section Parse.
(** The parser, and the parse of a subparser. *)
Variable p : parser.
Variable parse_sub : parser -> list string -> outcome (namespace * list string).

(** Is another option of one of its groups given. *)
Definition conflicts (id : string) (seen : list string) : bool :=
  existsb (fun g : bool * list string => bool_decide (id ∈ g.2) && existsb (fun i => negb (String.eqb i id) && bool_decide (i ∈ seen)) g.2) (pa_groups p).

(** [take_action] of an option. *)
Definition option_action (o : option_spec) (args : list string) (s : parse_state) : outcome parse_state :=
  let s := ps_see (op_id o) s in
  let? value := match op_action o with
                | AStore t => one_value t args
                | AAppend => one_value CStr args
                | _ => Go VNone
                end in
  if conflicts (op_id o) (ps_seen s) then usage_error
  else
    match op_action o with
    | AStore _ => Go (ps_set (op_dest o) value s)
    | AAppend =>
        Go (ps_set (op_dest o)
              match dget (op_dest o) (ps_ns s), value with
              | Some (VList l), VStr v => VList (l ++ [v])
              | (Some VNone | None), VStr v => VList [v]
              | _, _ => VMixed
              end s)
    | ATrue => Go (ps_set (op_dest o) (VBool true) s)
    | AConst c => Go (ps_set (op_dest o) (VStr c) s)
    | AHelp | AVersion => Exits 0
    end.

Definition slot_action (sl : slot) (args : list string) (s : parse_state) : outcome parse_state :=
  match sl with
  | SlotArg a =>
      match po_nargs a with
      | One => let? v := one_value (po_conv a) args in Go (ps_set (po_dest a) v s)
      | Star => Go (ps_set (po_dest a) (VList (remove_dashes args)) s)
      | Remainder => Go (ps_set (po_dest a) (VList args) s)
      end
  | SlotSub dest choices =>
      match args with
      | [] => usage_error
      | name :: rest =>
          match dget name choices with
          | None => usage_error
          | Some q =>
              let? r := parse_sub q rest in
              Go (ps_merge r.1 r.2 (ps_set dest (VStr name) s))
          end
      end
  end.

Fixpoint fill (filled : list (slot * list string)) (s : parse_state) : outcome parse_state :=
  match filled with
  | [] => Go s
  | (sl, args) :: filled' => let? s := slot_action sl args s in fill filled' s
  end.

(** [consume_positionals]. *)
Definition consume_positionals (ws : words) (s : parse_state) : outcome (words * parse_state) :=
  let (filled, rest) := match_slots (ps_slots s) ws in
  let? s' := fill filled s in
  Go (rest, ps_with_slots (drop (length filled) (ps_slots s)) s').

(** The options of one argument: [-sn] is [-s] and [-n]. *)
Fixpoint joined_options (fuel : nat) (o : option_spec) (flag : string) (explicit : option string) (ws : words)
    : outcome (list (option_spec * list string) * words) :=
  match fuel with
  | O => usage_error
  | S fuel' =>
      match explicit with
      | None =>
          if takes_value o then
            match ws with
            | (MarkA, v) :: ws' => Go ([(o, [v])], ws')
            | _ => usage_error
            end
          else Go ([(o, [])], ws)
      | Some v =>
          if takes_value o then Go ([(o, [v])], ws)
          else if Py.startswith flag "--" || String.eqb v "" then usage_error
          else
            let flag' := ("-" +:+ Py.stake 1 v)%string in
            match find_option p flag' with
            | None => usage_error
            | Some o' =>
                let tail := Py.sdrop 1 v in
                let? r := joined_options fuel' o' flag' (if String.eqb tail "" then None else Some tail) ws in
                Go ((o, []) :: r.1, r.2)
            end
      end
  end.

Fixpoint take_options (l : list (option_spec * list string)) (s : parse_state) : outcome parse_state :=
  match l with
  | [] => Go s
  | (o, args) :: l' => let? s := option_action o args s in take_options l' s
  end.

(** [consume_optional], of a first word that is an option. *)
Definition consume_optional (r : reading) (text : string) (ws : words) (s : parse_state) : outcome (words * parse_state) :=
  match rd_option r with
  | None => Go (ws, ps_extra [text] s)
  | Some o =>
      let? l := joined_options (S (S (String.length text))) o (rd_flag r) (rd_explicit r) ws in
      let? s' := take_options l.1 s in
      Go (l.2, s')
  end.

(** The loop up to the last option. *)
Fixpoint parse_loop (fuel : nat) (ws : words) (s : parse_state) : outcome parse_state :=
  match fuel with
  | O => usage_error
  | S fuel' =>
      if negb (existsb is_option ws) then
        let? r := consume_positionals ws s in
        Go (ps_extra (map snd r.1) r.2)
      else
        let n := span (fun w => negb (is_option w)) ws in
        let? r := (if (n =? 0)%nat then Go (ws, s) else consume_positionals ws s) in
        let ws1 := r.1 in
        let s1 := r.2 in
        if (length ws1 <? length ws)%nat then parse_loop fuel' ws1 s1
        else
          let s2 := ps_extra (map snd (take n ws)) s1 in
          match drop n ws with
          | (MarkO o, text) :: ws2 => let? r := consume_optional o text ws2 s2 in parse_loop fuel' r.1 r.2
          | _ => usage_error
          end
  end.

Definition initial_namespace : namespace :=
  fold_left (fun d kv => match dget kv.1 d with Some _ => d | None => dset kv.1 kv.2 d end) (pa_defaults p)
    (fold_left (fun d kv => match dget kv.1 d with Some _ => d | None => dset kv.1 kv.2 d end)
       (flat_map (fun o => match op_action o with AHelp | AVersion => [] | _ => [(op_dest o, op_default o)] end) (pa_options p) ++
        map (fun a => (po_dest a, VNone)) (pa_positionals p) ++
        match pa_sub p with Some (dest, _) => [(dest, VNone)] | None => [] end) []).

Definition initial_slots : list slot :=
  map SlotArg (pa_positionals p) ++ match pa_sub p with Some (dest, choices) => [SlotSub dest choices] | None => [] end.

(** Everything required was given. *)
Definition complete (s : parse_state) : bool :=
  bool_decide (map (fun _ => tt) (ps_slots s) = []) &&
  forallb (fun o => negb (op_required o) || bool_decide (op_id o ∈ ps_seen s)) (pa_options p) &&
  forallb (fun g : bool * list string => negb g.1 || existsb (fun i => bool_decide (i ∈ ps_seen s)) g.2) (pa_groups p).

Definition parse_one (args : list string) : outcome (namespace * list string) :=
  let? ws := classify p args in
  let? s := parse_loop (S (length ws)) ws (mkParseState initial_namespace [] [] [] initial_slots) in
  if complete s then Go (ps_ns s, ps_extras s ++ ps_unrecognized s) else usage_error.
End Parse.

(** [parse_known_args]; a parser within a parser within ... [depth]. *)
Fixpoint parse_known (depth : nat) (p : parser) (args : list string) : outcome (namespace * list string) :=
  match depth with
  | O => usage_error
  | S depth' => parse_one p (parse_known depth') args
  end.

Fixpoint parser_depth (p : parser) : nat :=
  S (match pa_sub p with
     | None => 0
     | Some (_, choices) => list_max (map (fun c => match c with (_, q) => parser_depth q end) choices)
     end).

Definition parse_args (p : parser) (args : list string) : outcome namespace :=
  let? r := parse_known (parser_depth p) p args in
  match r.2 with [] => Go r.1 | _ => usage_error end.

(** ** Building parsers *)

Definition help_option : option_spec := mkOption ["-h"; "--help"] "help" AHelp VNone false.
Definition flag (f dest : string) : option_spec := mkOption [f] dest ATrue (VBool false) false.
Definition valued (f dest : string) (t : conv) (default : arg_value) : option_spec := mkOption [f] dest (AStore t) default false.
Definition repeated (f dest : string) (default : arg_value) : option_spec := mkOption [f] dest AAppend default false.
