(* ===== verification/ArgparseFacts.v ===== *)
(** * Facts about Argparse

    A command line of options written [--flag] or [--flag=value], each of
    its own destination, followed by operands: what a parser makes of it,
    in whatever order the options come. *)

From S2P Require Import Prelude Tables Json Argparse.
Local Open Scope py_scope.

(** ** Options as they are written *)

Inductive item := Flagged (f : string) | Valued (f v : string).

Definition item_flag (it : item) : string := match it with Flagged f | Valued f _ => f end.
Definition item_args (it : item) : list string := match it with Flagged _ => [] | Valued _ v => [v] end.
Definition item_word (it : item) : string := match it with Flagged f => f | Valued f v => (f +:+ String "=" v)%string end.

(** No option of the parser has a [=] in its flags. *)
Definition no_equals (p : parser) : bool := forallb (fun fo => Py.lacks "=" fo.1) (option_strings p).

Definition long_flag (f : string) : bool :=
  Py.startswith f "--" && negb (String.eqb f "--") && Py.lacks "=" f.

(** The option an item gives, of this parser. *)
Definition item_option (p : parser) (it : item) : option option_spec := find_option p (item_flag it).

(** The option takes a value just when the item has one, and the parse goes on. *)
Definition item_fits (o : option_spec) (it : item) : bool :=
  match op_action o, it with
  | (AStore _ | AAppend), Valued _ _ | (ATrue | AConst _), Flagged _ => true
  | _, _ => false
  end.

Lemma fits_takes o it : item_fits o it = true -> takes_value o = (match it with Flagged _ => false | Valued _ _ => true end).
Proof. unfold item_fits, takes_value. destruct (op_action o), it; congruence. Qed.

Definition item_ok (p : parser) (it : item) : Prop :=
  exists o, item_option p it = Some o /\ long_flag (item_flag it) = true /\ item_fits o it = true.

Definition item_reading (o : option_spec) (it : item) : reading :=
  mkReading (Some o) (item_flag it) (match it with Flagged _ => None | Valued _ v => Some v end).

Lemma find_option_flag p f o : find_option p f = Some o -> In f (map fst (option_strings p)).
Proof. intros H. apply dget_in in H. apply in_map_iff. exists (f, o). split; [reflexivity|exact H]. Qed.

Lemma joined_unknown p f v : no_equals p = true -> find_option p (f +:+ String "=" v)%string = None.
Proof.
  intros Hp. destruct (find_option p _) as [o|] eqn:E; [|reflexivity]. exfalso.
  apply find_option_flag, in_map_iff in E as ([g o'] & Eg & Hi). cbn in Eg. subst g.
  pose proof (proj1 (forallb_forall _ _) Hp _ Hi) as H. unfold Py.lacks in H. cbn [fst] in H.
  rewrite Py.sforall_app in H. cbn in H. rewrite andb_false_r in H. discriminate.
Qed.

Lemma long_flag_form f : long_flag f = true ->
  Py.lacks "=" f = true /\ exists c g, f = String "-" (String "-" (String c g)).
Proof.
  unfold long_flag, Py.startswith. rewrite !andb_true_iff. intros ((H1 & H2) & H3). split; [exact H3|].
  apply String.prefix_correct in H1. destruct f as [|c [|d g]]; cbn [String.length String.substring] in H1; try discriminate H1.
  injection H1 as -> -> _. destruct g as [|e g]; [vm_compute in H2; discriminate H2|eauto].
Qed.

Lemma item_parsed p it : no_equals p = true -> item_ok p it -> exists o, item_option p it = Some o /\
  parse_optional p (item_word it) = Go (Some (item_reading o it)) /\
  takes_value o = (match it with Flagged _ => false | Valued _ _ => true end).
Proof.
  intros Hp (o & Ho & Hd & Ht). exists o. split; [exact Ho|]. split; [|exact (fits_takes o it Ht)].
  apply long_flag_form in Hd as (Hl & c & g & Hd). unfold item_option in Ho.
  destruct it as [f|f v]; cbn [item_word item_flag item_reading] in *.
  - subst f. unfold parse_optional. rewrite Ho. reflexivity.
  - pose proof (joined_unknown p f v Hp) as Hn. pose proof (Py.partition_at "=" f v Hl) as Hq. revert Ho Hn Hq. subst f.
    cbn [String.append]. intros Ho Hn Hq. unfold parse_optional. rewrite Hn, Hq. cbn [String.eqb]. rewrite Ho. reflexivity.
Qed.

Lemma item_not_dashes p it : item_ok p it -> String.eqb (item_word it) "--" = false.
Proof.
  intros (o & _ & Hd & _). apply long_flag_form in Hd as (_ & c & g & Hd).
  destruct it as [f|f v]; cbn in *; subst f; reflexivity.
Qed.

(** An operand: it looks like no option. *)
Definition plain (s : string) : bool := match s with String "-" _ => false | _ => true end.

Lemma plain_parsed p s : plain s = true -> parse_optional p s = Go None /\ String.eqb s "--" = false.
Proof. destruct s as [|[[] [] [] [] [] [] [] []] s]; intros H; try discriminate H; split; reflexivity. Qed.

(** ** Their marks *)

Definition mark_item (p : parser) (it : item) : mark * string :=
  (match item_option p it with Some o => MarkO (item_reading o it) | None => MarkA end, item_word it).
Definition mark_plain (s : string) : mark * string := (MarkA, s).

Lemma classify_cons p s r rest ws : String.eqb s "--" = false -> parse_optional p s = Go r -> classify p rest = Go ws ->
  classify p (s :: rest) = Go ((match r with Some r => MarkO r | None => MarkA end, s) :: ws).
Proof. intros H1 H2 H3. cbn [classify]. rewrite H1, H2. cbn [obind]. rewrite H3. reflexivity. Qed.

Lemma classify_plain p l : forallb plain l = true -> classify p l = Go (map mark_plain l).
Proof.
  induction l as [|s l IH]; [reflexivity|]. cbn [forallb]. rewrite andb_true_iff. intros [Hs Hl].
  apply (plain_parsed p) in Hs as [H1 H2]. exact (classify_cons p s None l _ H2 H1 (IH Hl)).
Qed.

Lemma classify_items p l rest ws : no_equals p = true -> Forall (item_ok p) l -> classify p rest = Go ws ->
  classify p (map item_word l ++ rest) = Go (map (mark_item p) l ++ ws).
Proof.
  intros Hp Hl Hr. induction Hl as [|it l Hi Hl IH]; [exact Hr|]. cbn [map app].
  destruct (item_parsed p it Hp Hi) as (o & Ho & H1 & _).
  rewrite (classify_cons p _ _ _ _ (item_not_dashes p it Hi) H1 IH). unfold mark_item. rewrite Ho. reflexivity.
Qed.

(** ** What they do *)

Fixpoint take_items (p : parser) (l : list item) (s : parse_state) : outcome parse_state :=
  match l with
  | [] => Go s
  | it :: l' =>
      match item_option p it with
      | None => usage_error
      | Some o => let? s := option_action p o (item_args it) s in take_items p l' s
      end
  end.

Lemma ps_extra_nil s : ps_extra [] s = s.
Proof. destruct s. unfold ps_extra. cbn. rewrite app_nil_r. reflexivity. Qed.

Lemma item_consumed p it o ws s : item_option p it = Some o ->
  takes_value o = (match it with Flagged _ => false | Valued _ _ => true end) ->
  consume_optional p (item_reading o it) (item_word it) ws s = let? s := option_action p o (item_args it) s in Go (ws, s).
Proof.
  intros Ho Ht. unfold consume_optional, item_reading. cbn [rd_option rd_flag rd_explicit].
  destruct it as [f|f v]; cbn [joined_options item_args]; rewrite Ht; cbn [obind fst snd take_options];
    destruct (option_action p o _ s); reflexivity.
Qed.

Lemma loop_option p sub fuel r text ws s :
  parse_loop p sub (S fuel) ((MarkO r, text) :: ws) s =
  let? r := consume_optional p r text ws s in parse_loop p sub fuel r.1 r.2.
Proof.
  cbn [parse_loop existsb is_option fst snd orb negb span Nat.eqb obind].
  rewrite Nat.ltb_irrefl. cbn. rewrite ps_extra_nil. reflexivity.
Qed.

(** The loop takes the options one by one. *)
Lemma loop_items p sub l ws s fuel : Forall (item_ok p) l -> no_equals p = true ->
  parse_loop p sub (length l + fuel) (map (mark_item p) l ++ ws) s =
  let? s := take_items p l s in parse_loop p sub fuel ws s.
Proof.
  intros Hl Hp. revert s. induction Hl as [|it l Hi Hl IH]; intros s; [reflexivity|].
  destruct (item_parsed p it Hp Hi) as (o & Ho & _ & Ht).
  cbn [length Nat.add map app take_items]. unfold mark_item at 1. rewrite Ho, loop_option, (item_consumed p it o _ _ Ho Ht).
  destruct (option_action p o (item_args it) s) as [s'|c]; [exact (IH s')|reflexivity].
Qed.

Lemma operands_no_option l : existsb is_option (map mark_plain l) = false.
Proof. induction l as [|s l IH]; [reflexivity|exact IH]. Qed.

(** A line of options and then operands. *)
Lemma parse_line p sub l rest : Forall (item_ok p) l -> no_equals p = true -> forallb plain rest = true ->
  parse_one p sub (map item_word l ++ rest) =
  let? s := take_items p l (mkParseState (initial_namespace p) [] [] [] (initial_slots p)) in
  let? r := consume_positionals sub (map mark_plain rest) s in
  let s := ps_extra (map snd r.1) r.2 in
  if complete p s then Go (ps_ns s, ps_extras s ++ ps_unrecognized s) else usage_error.
Proof.
  intros Hl Hp Hr. unfold parse_one. rewrite (classify_items p l rest _ Hp Hl (classify_plain p rest Hr)). cbn [obind].
  rewrite length_app, !length_map, <- Nat.add_succ_r, loop_items by assumption.
  destruct (take_items p l _) as [s|c]; [|reflexivity]. cbn [obind parse_loop].
  rewrite operands_no_option. cbn [negb]. destruct (consume_positionals _ _ _) as [r|c]; reflexivity.
Qed.

(** ** Options of their own destinations *)

(** The items of one destination, and the value they leave there. *)
Record piece := mkPiece { pc_dest : string; pc_items : list item; pc_value : arg_value }.

Definition item_id (p : parser) (it : item) : string := match item_option p it with Some o => op_id o | None => "" end.

(** From [s] to [s'], [k] is set to [v] and [ids] are seen. *)
Definition sets (k : string) (v : arg_value) (ids : list string) (s s' : parse_state) : Prop :=
  dget k (ps_ns s') = Some v /\ (forall k', k' <> k -> dget k' (ps_ns s') = dget k' (ps_ns s)) /\
  (dunique (ps_ns s) -> dunique (ps_ns s')) /\ ps_seen s' = ps_seen s ++ ids /\
  ps_extras s' = ps_extras s /\ ps_unrecognized s' = ps_unrecognized s /\ ps_slots s' = ps_slots s.

(** Whatever of [seen] was given before. *)
Definition piece_ok (p : parser) (seen : list string) (pc : piece) : Prop :=
  Forall (item_ok p) (pc_items pc) /\ incl (map (item_id p) (pc_items pc)) seen /\
  forall s, incl (ps_seen s) seen -> dget (pc_dest pc) (ps_ns s) = dget (pc_dest pc) (initial_namespace p) ->
  exists s', take_items p (pc_items pc) s = Go s' /\ sets (pc_dest pc) (pc_value pc) (map (item_id p) (pc_items pc)) s s'.

Lemma sets_nothing k v s : dget k (ps_ns s) = Some v -> sets k v [] s s.
Proof. intros H. unfold sets. rewrite app_nil_r. auto 10. Qed.

Lemma sets_see k v id s : sets k v [id] s (ps_set k v (ps_see id s)).
Proof.
  unfold sets. cbn. split; [apply dget_dset_eq|]. split; [intros k' Hk; apply dget_dset_ne; congruence|].
  split; [apply dunique_dset|]. auto.
Qed.

Lemma sets_trans k v v' ids ids' s s1 s2 : sets k v ids s s1 -> sets k v' ids' s1 s2 -> sets k v' (ids ++ ids') s s2.
Proof.
  intros (_ & A2 & A3 & A4 & A5 & A6 & A7) (B1 & B2 & B3 & B4 & B5 & B6 & B7). unfold sets.
  rewrite B4, A4, B5, B6, B7, <- app_assoc. repeat split; auto. intros k' Hk. rewrite B2, A2; auto.
Qed.

Lemma conflicts_fewer p id l l' : incl l' l -> conflicts p id l = false -> conflicts p id l' = false.
Proof.
  intros Hi. unfold conflicts. rewrite <- !not_true_iff_false, !existsb_exists. intros H (g & Hg & Hc). apply H.
  exists g. split; [exact Hg|]. apply andb_prop in Hc as [H1 H2]. rewrite H1. cbn [andb].
  apply existsb_exists in H2 as (i & Hi2 & H2). apply existsb_exists. exists i. split; [exact Hi2|].
  apply andb_prop in H2 as [-> H2]. apply bool_decide_eq_true in H2. apply bool_decide_eq_true.
  apply list_elem_of_In, Hi, list_elem_of_In. exact H2.
Qed.

(** One option of the parser, that may be given beside [seen]. *)
Definition free_option (p : parser) (seen : list string) (f : string) (o : option_spec) : Prop :=
  find_option p f = Some o /\ long_flag f = true /\ In (op_id o) seen /\ conflicts p (op_id o) seen = false.

Lemma free_no_conflict p seen f o s : free_option p seen f o -> incl (ps_seen s) seen ->
  conflicts p (op_id o) (ps_seen (ps_see (op_id o) s)) = false.
Proof.
  intros (_ & _ & Hin & Hc) Hs. apply (conflicts_fewer p _ seen); [|exact Hc]. cbn. apply incl_app; [exact Hs|].
  intros i [<-|[]]. exact Hin.
Qed.

Lemma free_item p seen f o v : free_option p seen f o -> takes_value o = true -> item_ok p (Valued f v).
Proof.
  intros (H1 & H2 & _) Ht. exists o. split; [exact H1|split; [exact H2|]]. revert Ht. unfold item_fits, takes_value.
  destruct (op_action o); auto.
Qed.

Lemma free_id p seen f o it : free_option p seen f o -> item_flag it = f -> incl [item_id p it] seen.
Proof. intros (Ho & _ & Hin & _) Hf i [<-|[]]. unfold item_id, item_option. rewrite Hf, Ho. exact Hin. Qed.

Definition once (f dest : string) (w : option string) (v : arg_value) : piece :=
  mkPiece dest match w with Some s => [Valued f s] | None => [] end v.
Definition switch (f dest : string) (b : bool) : piece := mkPiece dest (if b then [Flagged f] else []) (VBool b).
(** The value of a repeated option. *)
Definition listed (l : list string) : arg_value := match l with [] => VNone | _ => VList l end.
Definition many (f dest : string) (l : list string) : piece :=
  mkPiece dest (map (Valued f) l) (listed l).

Lemma option_stores p o v s t : op_action o = AStore t -> v <> "--" ->
  conflicts p (op_id o) (ps_seen (ps_see (op_id o) s)) = false ->
  option_action p o [v] s = let? x := convert t v in Go (ps_set (op_dest o) x (ps_see (op_id o) s)).
Proof.
  intros Ha Hv Hc. unfold option_action. rewrite Ha, Hc. unfold one_value. cbn [remove_dashes].
  rewrite (proj2 (String.eqb_neq v "--") Hv). destruct (convert t v); reflexivity.
Qed.

Lemma once_ok p seen f o t w v : free_option p seen f o -> op_action o = AStore t ->
  match w with
  | Some s => s <> "--" /\ convert t s = Go v
  | None => dget (op_dest o) (initial_namespace p) = Some v
  end -> piece_ok p seen (once f (op_dest o) w v).
Proof.
  intros Hf Ha Hw. assert (Ht : takes_value o = true) by (unfold takes_value; rewrite Ha; reflexivity).
  split; [|split].
  - destruct w as [s|]; [|constructor]. constructor; [exact (free_item p seen f o s Hf Ht)|constructor].
  - destruct w as [s|]; [apply (free_id p seen f o _ Hf); reflexivity|apply incl_nil_l].
  - intros s Hs Hk. pose proof (free_no_conflict p seen f o s Hf Hs) as Hc. pose proof (proj1 Hf) as Ho.
    destruct w as [x|]; cbn [once pc_items pc_dest pc_value take_items map] in *.
    + destruct Hw as [Hx Hw]. unfold item_option, item_id. cbn [item_flag item_args]. rewrite Ho.
      rewrite (option_stores p o x s t Ha Hx Hc), Hw. cbn [obind].
      eexists. split; [reflexivity|]. unfold item_option. cbn [item_flag]. rewrite Ho. apply sets_see.
    + exists s. split; [reflexivity|]. apply sets_nothing. rewrite Hk. exact Hw.
Qed.

Lemma switch_ok p seen f o b : free_option p seen f o -> op_action o = ATrue ->
  dget (op_dest o) (initial_namespace p) = Some (VBool false) -> piece_ok p seen (switch f (op_dest o) b).
Proof.
  intros Hf Ha Hi. pose proof (proj1 Hf) as Ho. split; [|split].
  - destruct b; [|constructor]. constructor; [|constructor]. exists o. unfold item_fits. rewrite Ha. split; [exact Ho|].
    split; [exact (proj1 (proj2 Hf))|reflexivity].
  - destruct b; [apply (free_id p seen f o _ Hf); reflexivity|apply incl_nil_l].
  - intros s Hs Hk. pose proof (free_no_conflict p seen f o s Hf Hs) as Hc.
    destruct b; cbn [switch pc_items pc_dest pc_value take_items map] in *.
    + unfold item_option, item_id. cbn [item_flag item_args]. rewrite Ho. unfold option_action. rewrite Ha. cbn [obind]. rewrite Hc.
      eexists. split; [reflexivity|]. unfold item_option. cbn [item_flag]. rewrite Ho. apply sets_see.
    + exists s. split; [reflexivity|]. apply sets_nothing. rewrite Hk. exact Hi.
Qed.

Lemma const_ok p seen f o c : free_option p seen f o -> op_action o = AConst c ->
  piece_ok p seen (mkPiece (op_dest o) [Flagged f] (VStr c)).
Proof.
  intros Hf Ha. pose proof (proj1 Hf) as Ho. split; [|split].
  - constructor; [|constructor]. exists o. unfold item_fits. rewrite Ha. split; [exact Ho|].
    split; [exact (proj1 (proj2 Hf))|reflexivity].
  - apply (free_id p seen f o _ Hf). reflexivity.
  - intros s Hs Hk. pose proof (free_no_conflict p seen f o s Hf Hs) as Hc. cbn [pc_items pc_dest pc_value take_items map].
    unfold item_option, item_id. cbn [item_flag item_args]. rewrite Ho. unfold option_action. rewrite Ha. cbn [obind]. rewrite Hc.
    eexists. split; [reflexivity|]. unfold item_option. cbn [item_flag]. rewrite Ho. apply sets_see.
Qed.

Lemma listed_snoc l v : listed (l ++ [v]) = VList (l ++ [v]).
Proof. destruct l; reflexivity. Qed.

Lemma option_appends p o v s l : op_action o = AAppend -> v <> "--" ->
  conflicts p (op_id o) (ps_seen (ps_see (op_id o) s)) = false -> dget (op_dest o) (ps_ns s) = Some (listed l) ->
  option_action p o [v] s = Go (ps_set (op_dest o) (listed (l ++ [v])) (ps_see (op_id o) s)).
Proof.
  intros Ha Hv Hc Hl. unfold option_action. rewrite Ha. unfold one_value. cbn [remove_dashes].
  rewrite (proj2 (String.eqb_neq v "--") Hv). cbn [obind convert]. rewrite Hc.
  change (ps_ns (ps_see (op_id o) s)) with (ps_ns s). rewrite Hl, listed_snoc. destruct l; reflexivity.
Qed.

Lemma many_items p seen f o l : free_option p seen f o -> op_action o = AAppend -> Forall (fun v => v <> "--") l ->
  forall old s, incl (ps_seen s) seen -> dget (op_dest o) (ps_ns s) = Some (listed old) ->
  exists s', take_items p (map (Valued f) l) s = Go s' /\
    sets (op_dest o) (listed (old ++ l)) (map (item_id p) (map (Valued f) l)) s s'.
Proof.
  intros Hf Ha Hl. pose proof (proj1 Hf) as Ho. induction Hl as [|v l Hv Hl IH]; intros old s Hs Hk.
  - exists s. split; [reflexivity|]. rewrite app_nil_r. apply sets_nothing. exact Hk.
  - pose proof (free_no_conflict p seen f o s Hf Hs) as Hc. cbn [map take_items].
    pose proof (sets_see (op_dest o) (listed (old ++ [v])) (op_id o) s) as H1.
    destruct (IH (old ++ [v]) (ps_set (op_dest o) (listed (old ++ [v])) (ps_see (op_id o) s))) as (s' & H2 & H3).
    + cbn. apply incl_app; [exact Hs|]. intros i [<-|[]]. exact (proj1 (proj2 (proj2 Hf))).
    + apply H1.
    + exists s'. unfold item_option, item_id. cbn [item_flag item_args]. rewrite Ho, (option_appends p o v s old Ha Hv Hc Hk).
      cbn [obind]. split; [exact H2|]. rewrite <- app_assoc in H3. unfold item_option at 1. cbn [item_flag]. rewrite Ho.
      exact (sets_trans _ _ _ [op_id o] _ _ _ _ H1 H3).
Qed.

Lemma many_ok p seen f o l : free_option p seen f o -> op_action o = AAppend -> Forall (fun v => v <> "--") l ->
  dget (op_dest o) (initial_namespace p) = Some VNone -> piece_ok p seen (many f (op_dest o) l).
Proof.
  intros Hf Ha Hl Hi. split; [|split].
  - apply Forall_map. apply Forall_forall. intros v _. apply (free_item p seen f o v Hf). unfold takes_value. rewrite Ha. reflexivity.
  - intros i Hid. apply in_map_iff in Hid as (it & <- & Hid). apply in_map_iff in Hid as (v & <- & _).
    apply (free_id p seen f o (Valued f v) Hf eq_refl). left. reflexivity.
  - intros s Hs Hk. apply (many_items p seen f o l Hf Ha Hl [] s Hs). exact (eq_trans Hk Hi).
Qed.

(** ** A whole line *)

Definition items_of (pcs : list piece) : list item := flat_map pc_items pcs.
Definition ids_of (p : parser) (pcs : list piece) : list string := map (item_id p) (items_of pcs).

Lemma take_items_app p l1 l2 s : take_items p (l1 ++ l2) s = let? s := take_items p l1 s in take_items p l2 s.
Proof.
  revert s. induction l1 as [|it l1 IH]; intros s; [reflexivity|]. cbn [app take_items].
  destruct (item_option p it) as [o|]; [|reflexivity]. destruct (option_action p o _ s) as [s'|]; [apply IH|reflexivity].
Qed.

(** What pieces of different destinations leave. *)
Definition leaves (pcs : list piece) (s s' : parse_state) : Prop :=
  (forall pc, In pc pcs -> dget (pc_dest pc) (ps_ns s') = Some (pc_value pc)) /\
  (forall k, ~ In k (map pc_dest pcs) -> dget k (ps_ns s') = dget k (ps_ns s)) /\
  (dunique (ps_ns s) -> dunique (ps_ns s')) /\
  ps_extras s' = ps_extras s /\ ps_unrecognized s' = ps_unrecognized s /\ ps_slots s' = ps_slots s.

Lemma take_pieces p seen pcs : Forall (piece_ok p seen) pcs -> NoDup (map pc_dest pcs) ->
  forall s, incl (ps_seen s) seen ->
  (forall k, In k (map pc_dest pcs) -> dget k (ps_ns s) = dget k (initial_namespace p)) ->
  exists s', take_items p (items_of pcs) s = Go s' /\ leaves pcs s s' /\ ps_seen s' = ps_seen s ++ ids_of p pcs.
Proof.
  induction 1 as [|pc pcs (_ & Hid & Hpc) Hpcs IH]; intros Hu s Hs Hk.
  - exists s. split; [reflexivity|]. unfold ids_of. cbn. rewrite app_nil_r. split; [|reflexivity]. repeat split; auto. intros pc [].
  - unfold ids_of in *. cbn [items_of flat_map map] in *. rewrite map_app in *. apply NoDup_cons in Hu as [Hn Hu].
    destruct (Hpc s Hs (Hk _ (or_introl eq_refl))) as (s1 & E1 & A1 & A2 & A3 & A4 & A5 & A6 & A7).
    destruct (IH Hu s1) as (s2 & E2 & (B1 & B2 & B3 & B4 & B5 & B6) & B7).
    + rewrite A4. apply incl_app; assumption.
    + intros k Hi. rewrite A2; [apply Hk; right; exact Hi|]. intros ->. apply Hn. apply list_elem_of_In. exact Hi.
    + exists s2. rewrite take_items_app, E1. cbn [obind]. split; [exact E2|]. split.
      * split; [|split; [|split; [auto|]]].
        -- intros pc' [<-|Hi]; [|exact (B1 pc' Hi)]. rewrite B2; [exact A1|]. intros Hi. apply Hn, list_elem_of_In. exact Hi.
        -- intros k Hi. rewrite B2, A2; [reflexivity| |]; intros H; apply Hi; [left; congruence|right; exact H].
        -- rewrite B4, B5, B6. auto.
      * rewrite B7, A4, <- app_assoc. reflexivity.
Qed.

(** Operands: destinations and values, in the order of the positionals. *)
Definition operand_slot (kv : string * string) : slot := SlotArg (mkPositional kv.1 One CStr).

Lemma operand_count kv s l : slot_count (operand_slot kv) (map mark_plain (s :: l)) = Some 1%nat.
Proof. destruct l; reflexivity. Qed.

Lemma match_operands rest : match_slots (map operand_slot rest) (map mark_plain (map snd rest)) =
  (map (fun kv => (operand_slot kv, [kv.2])) rest, []).
Proof.
  induction rest as [|kv rest IH]; [reflexivity|]. cbn [map match_slots].
  change (mark_plain kv.2 :: map mark_plain (map snd rest)) with (map mark_plain (kv.2 :: map snd rest)).
  rewrite operand_count. cbn [map drop skipn take firstn snd].
  rewrite drop_0, IH. reflexivity.
Qed.

Lemma fill_operands sub rest : Forall (fun kv => plain kv.2 = true) rest -> NoDup (map fst rest) -> forall s,
  exists s', fill sub (map (fun kv => (operand_slot kv, [kv.2])) rest) s = Go s' /\
    (forall kv, In kv rest -> dget kv.1 (ps_ns s') = Some (VStr kv.2)) /\
    (forall k, ~ In k (map fst rest) -> dget k (ps_ns s') = dget k (ps_ns s)) /\
    (dunique (ps_ns s) -> dunique (ps_ns s')) /\
    ps_seen s' = ps_seen s /\ ps_extras s' = ps_extras s /\ ps_unrecognized s' = ps_unrecognized s.
Proof.
  induction 1 as [|[k v] rest Hv Hrest IH]; intros Hu s.
  - exists s. split; [reflexivity|]. repeat split; auto. intros kv [].
  - cbn [map fst snd] in *. apply NoDup_cons in Hu as [Hn Hu]. rewrite list_elem_of_In in Hn.
    destruct (IH Hu (ps_set k (VStr v) s)) as (s' & E1 & A1 & A2 & A3 & A4).
    exists s'. split; [|split; [|split; [|split]]].
    + cbn [fill slot_action operand_slot po_nargs po_conv po_dest]. unfold one_value. cbn [remove_dashes fst].
      rewrite (proj2 (plain_parsed (Parser [] [] None [] []) v Hv)). exact E1.
    + intros kv [<-|Hi]; [|exact (A1 kv Hi)]. cbn [fst snd]. rewrite A2 by exact Hn. apply dget_dset_eq.
    + intros k' Hk. rewrite A2 by (intros H; apply Hk; right; exact H). apply dget_dset_ne. intros ->. apply Hk. left. reflexivity.
    + intros Hd. apply A3. apply dunique_dset, Hd.
    + exact A4.
Qed.

Lemma fold_defaults_unique (l d : namespace) : dunique d ->
  dunique (fold_left (fun d kv => match dget kv.1 d with Some _ => d | None => dset kv.1 kv.2 d end) l d).
Proof.
  revert d. induction l as [|kv l IH]; intros d Hd; [exact Hd|]. cbn [fold_left]. apply IH.
  destruct (dget kv.1 d); [exact Hd|apply dunique_dset, Hd].
Qed.

Lemma initial_unique p : dunique (initial_namespace p).
Proof. unfold initial_namespace. apply fold_defaults_unique, fold_defaults_unique, dunique_nil. Qed.

(** What a line of pieces and operands parses to. *)
Definition line_result (p : parser) (pcs : list piece) (rest : list (string * string)) (ns : namespace) : Prop :=
  dunique ns /\
  (forall pc, In pc pcs -> dget (pc_dest pc) ns = Some (pc_value pc)) /\
  (forall kv, In kv rest -> dget kv.1 ns = Some (VStr kv.2)) /\
  (forall k, ~ In k (map pc_dest pcs) -> ~ In k (map fst rest) -> dget k ns = dget k (initial_namespace p)).

Definition line_words (pcs : list piece) (rest : list (string * string)) : list string :=
  map item_word (items_of pcs) ++ map snd rest.

(** [seen]: what options may be given. *)
Record line_ok (p : parser) (seen : list string) (pcs : list piece) (rest : list (string * string)) := mkLineOk {
  lo_equals : no_equals p = true;
  lo_pieces : Forall (piece_ok p seen) pcs;
  lo_apart : NoDup (map pc_dest pcs ++ map fst rest);
  lo_plain : Forall (fun kv => plain kv.2 = true) rest;
  lo_slots : initial_slots p = map operand_slot rest;
  lo_complete : complete p (mkParseState [] (ids_of p pcs) [] [] []) = true }.

Lemma items_ok p seen pcs : Forall (piece_ok p seen) pcs -> Forall (item_ok p) (items_of pcs).
Proof.
  induction 1 as [|pc pcs [H _] _ IH]; [constructor|]. cbn [items_of flat_map]. apply Forall_app. split; assumption.
Qed.

Lemma line_parsed p sub seen pcs rest : line_ok p seen pcs rest ->
  exists ns, parse_one p sub (line_words pcs rest) = Go (ns, []) /\ line_result p pcs rest ns.
Proof.
  intros [Heq Hpcs Hu Hplain Hslots Hcomp]. apply NoDup_app in Hu as (Hu1 & Hdis & Hu2).
  unfold line_words. rewrite parse_line; [|exact (items_ok _ _ _ Hpcs)|exact Heq|].
  2: { apply forallb_forall. intros s Hs. apply in_map_iff in Hs as (kv & <- & Hi). apply list_elem_of_In in Hi. exact (proj1 (Forall_forall _ _) Hplain kv Hi). }
  destruct (take_pieces p _ pcs Hpcs Hu1 (mkParseState (initial_namespace p) [] [] [] (initial_slots p))
    (incl_nil_l _) (fun k _ => eq_refl)) as (s1 & E1 & (A1 & A2 & A3 & A4 & A5 & A6) & A7).
  rewrite E1. cbn [obind]. unfold consume_positionals. rewrite A6. cbn [ps_slots]. rewrite Hslots, match_operands.
  destruct (fill_operands sub rest Hplain Hu2 s1) as (s2 & E2 & B1 & B2 & B3 & B4 & B5 & B6).
  rewrite E2. cbn [obind fst snd map]. rewrite ps_extra_nil, !length_map.
  rewrite (skipn_all2 (map operand_slot rest)) by (rewrite length_map; lia).
  assert (C : complete p (ps_with_slots [] s2) = complete p (mkParseState [] (ids_of p pcs) [] [] [])).
  { unfold complete, ps_with_slots. cbn [ps_slots ps_seen]. rewrite B4, A7. reflexivity. }
  rewrite C, Hcomp. cbn [ps_with_slots ps_ns ps_extras ps_unrecognized]. rewrite B5, B6, A4, A5.
  exists (ps_ns s2). split; [reflexivity|]. split; [exact (B3 (A3 (initial_unique p)))|]. split; [|split; [exact B1|]].
  - intros pc Hi. rewrite B2; [exact (A1 pc Hi)|]. intros H. apply (Hdis (pc_dest pc)); apply list_elem_of_In; [apply in_map, Hi|exact H].
  - intros k H1 H2. rewrite B2 by exact H2. exact (A2 k H1).
Qed.

(** ** A line for a subparser *)

(** A word that is not read as two options at once. *)
Definition readable (p : parser) (w : string) : Prop := String.eqb w "--" = false /\ exists r, parse_optional p w = Go r.

Lemma plain_readable p w : plain w = true -> readable p w.
Proof. intros H. destruct (plain_parsed p w H) as [H1 H2]. split; eauto. Qed.

(** No option of the parser begins as [f] does. *)
Definition unread (p : parser) (f : string) : bool := forallb (fun fo => negb (Py.startswith fo.1 f)) (option_strings p).

Lemma unread_tuples p f : unread p f = true -> List.filter (fun fo : string * option_spec => Py.startswith fo.1 f) (option_strings p) = [].
Proof.
  unfold unread. induction (option_strings p) as [|fo l IH]; [reflexivity|]. cbn [forallb List.filter].
  rewrite andb_true_iff, negb_true_iff. intros [-> H]. exact (IH H).
Qed.

Lemma partition_lacks c s : Py.lacks c s = true -> Py.partition c s = (s, false, "").
Proof.
  induction s as [|a s IH]; [reflexivity|]. unfold Py.lacks. cbn [Py.sforall Py.partition]. rewrite andb_true_iff, negb_true_iff.
  intros [Ha Hs]. rewrite Ascii.eqb_sym, Ha, (IH Hs). reflexivity.
Qed.

Lemma item_partition it : Py.lacks "=" (item_flag it) = true -> exists eq v, Py.partition "=" (item_word it) = (item_flag it, eq, v).
Proof.
  intros H. destruct it as [f|f v]; [exists false, ""; exact (partition_lacks _ _ H)|exists true, v; exact (Py.partition_at "=" f v H)].
Qed.

Lemma item_readable p it : long_flag (item_flag it) = true -> unread p (item_flag it) = true -> readable p (item_word it).
Proof.
  intros Hl Hu. apply long_flag_form in Hl as (Hl & c & g & Hf). destruct (item_partition it Hl) as (eq & v & Hq).
  apply unread_tuples in Hu. destruct (item_word it) as [|c0 w] eqn:Ew; [destruct it; cbn in *; subst; discriminate|].
  assert (Hw : exists w', String c0 w = String "-" (String "-" (String c w'))).
  { rewrite <- Ew. destruct it as [f|f u]; cbn in *; subst f; eexists; reflexivity. }
  destruct Hw as (w' & Hw). rewrite Hw in *. split; [reflexivity|]. unfold parse_optional.
  destruct (find_option p _); [eauto|]. cbn [String.eqb]. rewrite Hq.
  destruct (if eq then find_option p (item_flag it) else None); [eauto|]. unfold option_tuples.
  assert (Hs : Py.startswith (String "-" (String "-" (String c w'))) "--" = true) by (apply (Py.startswith_app "--")).
  rewrite Hs, Hq, Hu. cbn [map]. repeat case_match; eauto.
Qed.

Lemma classify_readable p l : Forall (readable p) l -> exists ws, classify p l = Go ws /\ map snd ws = l.
Proof.
  induction 1 as [|w l [Hw (r & Hr)] _ (ws & E & H)]; [exists []; auto|].
  eexists. split; [exact (classify_cons p w r l ws Hw Hr E)|]. cbn. rewrite H. reflexivity.
Qed.

(** [ns] merged into [d]. *)
Definition merged (ns d : namespace) : namespace := fold_left (fun d kv => dset kv.1 kv.2 d) ns d.

Lemma merged_get k ns d : dunique ns -> dget k (merged ns d) = match dget k ns with Some v => Some v | None => dget k d end.
Proof.
  unfold dunique, unique. revert d. induction ns as [|[k' v] ns IH]; intros d; [reflexivity|]. cbn [map fst].
  rewrite NoDup_cons. intros [Hn Hu]. cbn [merged fold_left fst snd]. fold (merged ns (dset k' v d)). rewrite (IH _ Hu).
  unfold dget at 3. rewrite tfind_cons. cbn [fst]. destruct (bool_decide_reflect (k' = k)) as [->|Hk].
  - rewrite (proj2 (dget_none k ns)) by (rewrite <- list_elem_of_In; exact Hn). apply dget_dset_eq.
  - fold (dget k ns). rewrite dget_dset_ne by exact Hk. reflexivity.
Qed.

Lemma merged_unique ns d : dunique d -> dunique (merged ns d).
Proof. revert d. induction ns as [|kv ns IH]; intros d Hd; [exact Hd|]. apply IH, dunique_dset, Hd. Qed.

(** A parser that only chooses a subparser. *)
Record chooser (p : parser) (dest : string) (choices : list (string * parser)) := mkChooser {
  ch_slots : initial_slots p = [SlotSub dest choices];
  ch_complete : complete p (mkParseState [] [] [] [] []) = true }.

Lemma choice_consumed sub dest choices name ws q nsq s :
  ps_slots s = [SlotSub dest choices] -> dget name choices = Some q -> sub q (map snd ws) = Go (nsq, []) ->
  consume_positionals sub ((MarkA, name) :: ws) s = Go ([], ps_with_slots [] (ps_merge nsq [] (ps_set dest (VStr name) s))).
Proof.
  intros Hs Hq Hsub. unfold consume_positionals. rewrite Hs. cbn [match_slots slot_count span is_dash fst drop skipn is_plain].
  rewrite drop_all, firstn_all. cbn [map fill slot_action snd obind length]. rewrite Hq, Hsub. reflexivity.
Qed.

Lemma chosen p sub dest choices name rest q nsq : chooser p dest choices -> plain name = true -> Forall (readable p) rest ->
  dget name choices = Some q -> sub q rest = Go (nsq, []) ->
  parse_one p sub (name :: rest) = Go (merged nsq (dset dest (VStr name) (initial_namespace p)), []).
Proof.
  intros [Hslots Hcomp] Hn Hr Hq Hsub. destruct (classify_readable p rest Hr) as (ws & E & <-).
  destruct (plain_parsed p name Hn) as [N1 N2]. unfold parse_one. rewrite (classify_cons p name None _ ws N2 N1 E).
  cbn [obind]. rewrite Hslots. set (s0 := mkParseState _ _ _ _ _).
  assert (C : consume_positionals sub ((MarkA, name) :: ws) s0 = Go ([], ps_with_slots [] (ps_merge nsq [] (ps_set dest (VStr name) s0))))
    by (exact (choice_consumed sub dest choices name ws q nsq s0 eq_refl Hq Hsub)).
  assert (L : parse_loop p sub (S (length ((MarkA, name) :: ws))) ((MarkA, name) :: ws) s0 =
    Go (ps_with_slots [] (ps_merge nsq [] (ps_set dest (VStr name) s0)))).
  { cbn [parse_loop]. destruct (existsb is_option ((MarkA, name) :: ws)); cbn [negb].
    - cbn [span is_option fst negb Nat.eqb]. rewrite C. cbn [obind fst snd length Nat.ltb Nat.leb]. reflexivity.
    - rewrite C. cbn [obind fst snd map]. rewrite ps_extra_nil. reflexivity. }
  rewrite L. cbn [obind]. change (complete p (ps_with_slots _ _)) with (complete p (mkParseState [] [] [] [] [])).
  rewrite Hcomp. reflexivity.
Qed.

(** The order of the pieces is free. *)
Lemma ids_perm p pcs pcs' : pcs ≡ₚ pcs' -> ids_of p pcs ≡ₚ ids_of p pcs'.
Proof. intros H. unfold ids_of, items_of. apply Permutation_map, Permutation_flat_map, H. Qed.

Lemma complete_perm p ids ids' : ids ≡ₚ ids' ->
  complete p (mkParseState [] ids [] [] []) = complete p (mkParseState [] ids' [] [] []).
Proof.
  intros H. assert (D : forall i, bool_decide (i ∈ ids) = bool_decide (i ∈ ids')) by (intros i; apply bool_decide_ext; rewrite H; reflexivity).
  unfold complete. cbn [ps_slots ps_seen]. f_equal; [f_equal|].
  - induction (pa_options p) as [|o l IH]; [reflexivity|]. cbn [forallb]. rewrite D, IH. reflexivity.
  - induction (pa_groups p) as [|g l IH]; [reflexivity|]. cbn [forallb]. rewrite IH. f_equal. f_equal.
    induction g.2 as [|i l' IH']; [reflexivity|]. cbn [existsb]. rewrite D, IH'. reflexivity.
Qed.

Lemma line_ok_perm p seen pcs pcs' rest : pcs ≡ₚ pcs' -> line_ok p seen pcs rest -> line_ok p seen pcs' rest.
Proof.
  intros H [H1 H2 H3 H4 H5 H6]. constructor; try assumption.
  - rewrite <- H. exact H2.
  - rewrite <- H. exact H3.
  - rewrite <- (complete_perm p _ _ (ids_perm p _ _ H)). exact H6.
Qed.

(** The words of a line, as another parser above it reads them. *)
Definition passes (above p : parser) : bool :=
  forallb (fun fo => match op_action fo.2 with AHelp | AVersion => true | _ => negb (long_flag fo.1) || unread above fo.1 end)
    (option_strings p).

Lemma item_passes above p it : passes above p = true -> item_ok p it -> readable above (item_word it).
Proof.
  intros Hp (o & Ho & Hl & Hf). apply item_readable; [exact Hl|]. apply dget_in in Ho.
  pose proof (proj1 (forallb_forall _ _) Hp _ Ho) as H. cbn [fst snd] in H. rewrite Hl in H. unfold item_fits in Hf.
  destruct (op_action o); cbn [negb orb] in H; solve [exact H|destruct it; discriminate Hf].
Qed.

Lemma line_readable above p seen pcs rest : passes above p = true -> line_ok p seen pcs rest ->
  Forall (readable above) (line_words pcs rest).
Proof.
  intros Hp [_ H2 _ H4 _ _]. unfold line_words. apply Forall_app. split; apply Forall_map.
  - apply (Forall_impl _ _ _ (items_ok _ _ _ H2)). intros it. apply item_passes, Hp.
  - apply (Forall_impl _ _ _ H4). intros kv. apply plain_readable.
Qed.

(** ** The fuel is enough *)

Lemma joined_shorter p fuel : forall o f e ws l ws', joined_options p fuel o f e ws = Go (l, ws') -> (length ws' <= length ws)%nat.
Proof.
  induction fuel as [|fuel IH]; intros o f e ws l ws'; [discriminate|]. cbn [joined_options]. destruct e as [v|].
  - destruct (takes_value o); [intros [= _ <-]; lia|]. destruct (_ || _); [discriminate|]. destruct (find_option p _); [|discriminate].
    destruct (joined_options p fuel _ _ _ ws) as [[l1 ws1]|] eqn:E1; [|discriminate]. cbn. intros [= _ <-]. exact (IH _ _ _ _ _ _ E1).
  - destruct (takes_value o); [|intros [= _ <-]; lia]. destruct ws as [|[[r| |] v] ws]; try discriminate. intros [= _ <-]. cbn. lia.
Qed.

Lemma optional_shorter p r text ws s ws' s' : consume_optional p r text ws s = Go (ws', s') -> (length ws' <= length ws)%nat.
Proof.
  unfold consume_optional. destruct (rd_option r) as [o|]; [|intros [= <- _]; lia].
  destruct (joined_options p _ _ _ _ ws) as [[l ws1]|] eqn:E1; [|discriminate]. cbn [obind fst snd].
  destruct (take_options p l s); [|discriminate]. cbn. intros [= <- _]. exact (joined_shorter _ _ _ _ _ _ _ _ E1).
Qed.

(** More fuel than a turn for each word and one more changes nothing: no
    parse ends for want of it. *)
Lemma loop_fuel p sub n : forall m ws s, (length ws < n)%nat -> (length ws < m)%nat -> parse_loop p sub n ws s = parse_loop p sub m ws s.
Proof.
  induction n as [|n IH]; intros [|m] ws s Hn Hm; [lia|lia|lia|]. cbn [parse_loop].
  destruct (negb (existsb is_option ws)); [reflexivity|]. set (k := span _ ws).
  match goal with |- obind ?x _ = _ => destruct x as [[ws1 s1]|]; [|reflexivity] end. cbn [obind fst snd].
  destruct (Nat.ltb_spec (length ws1) (length ws)); [apply IH; lia|].
  destruct (drop k ws) as [|[[r| |] text] ws2] eqn:Ed; try reflexivity.
  destruct (consume_optional p r text ws2 _) as [[ws3 s3]|] eqn:E3; [|reflexivity]. cbn [obind fst snd].
  pose proof (optional_shorter _ _ _ _ _ _ _ E3) as H3. assert (H2 : length (drop k ws) = S (length ws2)) by (rewrite Ed; reflexivity).
  rewrite length_skipn in H2. apply IH; lia.
Qed.

(** Nor does joined flags': each takes a character of the text. *)
Lemma joined_fuel p n : forall m o f e ws, (String.length (default "" e) < n)%nat -> (String.length (default "" e) < m)%nat ->
  joined_options p n o f e ws = joined_options p m o f e ws.
Proof.
  induction n as [|n IH]; intros [|m] o f e ws Hn Hm; [lia|lia|lia|]. cbn [joined_options]. destruct e as [v|]; [|reflexivity].
  destruct (takes_value o); [reflexivity|]. destruct (Py.startswith f "--"); [reflexivity|]. destruct v as [|c v]; [reflexivity|].
  cbn [orb String.eqb]. destruct (find_option p _) as [o'|]; [|reflexivity]. cbn in Hn, Hm.
  assert (L : (String.length (default "" (if String.eqb (Py.sdrop 1 (String c v)) "" then None else Some (Py.sdrop 1 (String c v)))) <= String.length v)%nat)
    by (cbn; destruct v; cbn; lia).
  rewrite (IH m); [reflexivity| |]; lia.
Qed.
