(* ===== verification/ArgparseSound.v ===== *)
(** * Types of what a parser accepts

    The namespace of an accepted command line has a value of its type under
    every destination, for a parser of options and at most one operand, and
    for a parser that only chooses among such. *)

From S2P Require Import Prelude Tables Json Argparse ArgparseFacts.
Local Open Scope py_scope.

(** ** Types *)

Inductive ty := TWord | TStr | TInt | TFloat | TFlag | TList | TExactly (s : string).

Definition has_type (t : ty) (v : arg_value) : bool :=
  match t, v with
  | (TWord | TStr), VStr _ | (TStr | TInt | TList), VNone | TInt, VInt _ | TFloat, VFloat _ | TFlag, VBool _ | TList, VList _ => true
  | TExactly s, VStr s' => String.eqb s s'
  | _, _ => false
  end.

Definition conv_type (c : conv) (t : ty) : bool :=
  match c, t with CStr, (TWord | TStr) | CInt, TInt | CFloat, TFloat => true | _, _ => false end.

Definition action_type (a : action) (t : ty) : bool :=
  match a, t with
  | AStore c, t => conv_type c t
  | AAppend, TList | ATrue, TFlag | AConst _, (TWord | TStr) | (AHelp | AVersion), _ => true
  | _, _ => false
  end.

Abbreviation schema := (list (string * ty)).

(** Short flags take no value. *)
Definition no_short_values (p : parser) : bool :=
  forallb (fun fo => negb (takes_value fo.2) || long_flag fo.1) (option_strings p).

(** The parser's options, defaults and operand agree with the schema. *)
Record typed_parser (p : parser) (ts : schema) := mkTyped {
  tp_short : no_short_values p = true;
  tp_sub : pa_sub p = None;
  tp_options : forallb (fun o => forallb (fun kt : string * ty => negb (String.eqb kt.1 (op_dest o)) || action_type (op_action o) kt.2) ts) (pa_options p) = true;
  tp_slots : initial_slots p = [] \/ exists k, initial_slots p = [SlotArg (mkPositional k One CStr)];
  tp_operand : forall k, initial_slots p = [SlotArg (mkPositional k One CStr)] ->
    forallb (fun kt : string * ty => negb (String.eqb kt.1 k) || match kt.2 with TWord | TStr => true | _ => false end) ts = true;
  tp_initial : forallb (fun kt : string * ty =>
      existsb (fun sl => match sl with SlotArg a => String.eqb (po_dest a) kt.1 | _ => false end) (initial_slots p) ||
      match dget kt.1 (initial_namespace p) with Some v => has_type kt.2 v | None => false end) ts = true }.

(** ** Words whose values are not [--] *)

(** No text [--] after a [=] or after a short flag. *)
Definition clean (s : string) : Prop := (Py.partition "=" s).2 <> "--" /\ Py.sdrop 2 s <> "--".

Definition reading_ok (p : parser) (r : reading) : Prop :=
  rd_explicit r <> Some "--" /\ match rd_option r with Some o => In o (pa_options p) | None => True end.

Fixpoint good (p : parser) (ws : words) : Prop :=
  match ws with
  | [] => True
  | (MarkO r, _) :: t => reading_ok p r /\ good p t
  | (MarkA, s) :: t => s <> "--" /\ good p t
  | (MarkDash, s) :: t => s = "--" /\ forallb is_plain t = true
  end.

Lemma option_strings_in p f o : In (f, o) (option_strings p) -> In o (pa_options p).
Proof.
  unfold option_strings. rewrite in_flat_map. intros (o' & Ho & Hi). apply in_map_iff in Hi as (g & [= _ <-] & _). exact Ho.
Qed.

Lemma find_option_in p f o : find_option p f = Some o -> In o (pa_options p).
Proof. intros H. apply dget_in in H. exact (option_strings_in p f o H). Qed.

Lemma tuples_ok p s r : clean s -> In r (option_tuples p s) -> reading_ok p r.
Proof.
  intros [H1 H2] Hr. unfold option_tuples in Hr. destruct (Py.startswith s "--").
  - destruct (Py.partition "=" s) as [[pre eq] v]. cbn in H1. apply in_map_iff in Hr as ([f o] & <- & Hi).
    apply filter_In in Hi as [Hi _]. split; cbn; [destruct eq; congruence|exact (option_strings_in p f o Hi)].
  - apply in_flat_map in Hr as ([f o] & Hi & Hr). cbn [fst snd] in Hr. apply option_strings_in in Hi.
    destruct (String.eqb f _); [|destruct (Py.startswith f s); [|destruct Hr]]; destruct Hr as [<-|[]]; (split; [cbn -[Py.sdrop]; congruence|exact Hi]).
Qed.

Lemma parsed_ok p s r : clean s -> parse_optional p s = Go (Some r) -> reading_ok p r.
Proof.
  intros Hs. unfold parse_optional. destruct s as [|c t]; [discriminate|].
  assert (H : forall x, (match find_option p (String c t) with
      | Some o => Go (Some (mkReading (Some o) (String c t) None))
      | None => if String.eqb t "" then Go None else
            let '(flag, eq, value) := Py.partition "=" (String c t) in
            match (if eq : bool then find_option p flag else None) with
            | Some o => Go (Some (mkReading (Some o) flag (Some value)))
            | None => match option_tuples p (String c t) with
                | _ :: _ :: _ => usage_error
                | [r] => Go (Some r)
                | [] => if is_negative_number (String c t) then Go None
                    else if Py.sexists (Ascii.eqb " ") (String c t) then Go None else Go (Some (mkReading None (String c t) None))
                end
            end
      end) = Go (Some x) -> reading_ok p x).
  { intros x. destruct (find_option p (String c t)) as [o|] eqn:E1.
    { intros [= <-]. split; [discriminate|exact (find_option_in _ _ _ E1)]. }
    destruct (String.eqb t ""); [discriminate|]. pose proof (tuples_ok p (String c t)) as Ht. destruct Hs as [H1 H2].
    destruct (Py.partition "=" (String c t)) as [[flag eq] value] eqn:E2. cbn in H1.
    destruct (if eq then find_option p flag else None) as [o|] eqn:E3.
    { intros [= <-]. destruct eq; [|discriminate]. split; [cbn; congruence|exact (find_option_in _ _ _ E3)]. }
    destruct (option_tuples p (String c t)) as [|r0 [|]]; [|intros [= <-]|discriminate].
    - destruct (is_negative_number _); [discriminate|]. destruct (Py.sexists _ _); [discriminate|]. intros [= <-]. split; [discriminate|exact I].
    - apply (Ht r0); [split; [rewrite E2; exact H1|exact H2]|left; reflexivity]. }
  destruct c as [[] [] [] [] [] [] [] []]; try discriminate. apply H.
Qed.

Lemma classify_good p args ws : Forall clean args -> classify p args = Go ws -> good p ws /\ map snd ws = args.
Proof.
  intros Hargs. revert ws. induction Hargs as [|s rest Hs Hrest IH]; intros ws; cbn [classify].
  - intros [= <-]. split; [exact I|reflexivity].
  - destruct (String.eqb_spec s "--") as [->|Hne].
    + intros [= <-]. cbn. split.
      * split; [reflexivity|]. apply forallb_forall. intros w Hw. apply in_map_iff in Hw as (a & <- & _). reflexivity.
      * rewrite map_map. cbn. rewrite map_id. reflexivity.
    + destruct (parse_optional p s) as [r|] eqn:E1; [|discriminate]. cbn [obind].
      destruct (classify p rest) as [ws'|] eqn:E2; [|discriminate]. intros [= <-]. destruct (IH ws' eq_refl) as [G <-].
      destruct r as [r|]; cbn; auto. split; [|reflexivity]. split; [exact (parsed_ok p s r Hs E1)|exact G].
Qed.

(** ** The state of a parse *)

Section Leaf.
Variable p : parser.
Variable ts : schema.
Hypothesis Hp : typed_parser p ts.

(** What the parser may set. *)
Definition touched (k : string) : Prop :=
  (exists o, In o (pa_options p) /\ op_dest o = k) \/ In (SlotArg (mkPositional k One CStr)) (initial_slots p).

(** Each destination has a value of its type, or its operand is to come;
    nothing else changes. *)
Definition fits (s : parse_state) : Prop :=
  dunique (ps_ns s) /\ (ps_slots s = [] \/ ps_slots s = initial_slots p) /\
  (forall k t, In (k, t) ts -> (exists v, dget k (ps_ns s) = Some v /\ has_type t v = true) \/
    In (SlotArg (mkPositional k One CStr)) (ps_slots s)) /\
  forall k, ~ touched k -> dget k (ps_ns s) = dget k (initial_namespace p).

Lemma fits_set k v s : touched k -> fits s -> (forall t, In (k, t) ts -> has_type t v = true) -> fits (ps_set k v s).
Proof.
  intros Hk0 (U & I & F & N) Hv. split; [apply dunique_dset, U|]. split; [exact I|]. split.
  2: { intros k' Hk'. cbn. rewrite dget_dset_ne; [exact (N k' Hk')|]. intros ->. exact (Hk' Hk0). }
  intros k' t Hk. cbn.
  destruct (decide (k = k')) as [->|Hne]; [left; exists v; split; [apply dget_dset_eq|auto]|].
  rewrite dget_dset_ne by exact Hne. exact (F k' t Hk).
Qed.

Lemma option_typed o t : In o (pa_options p) -> In (op_dest o, t) ts -> action_type (op_action o) t = true.
Proof.
  intros Ho Ht. pose proof (proj1 (forallb_forall _ _) (tp_options _ _ Hp) o Ho) as H.
  pose proof (proj1 (forallb_forall _ _) H _ Ht) as H1. cbn [fst snd] in H1. rewrite String.eqb_refl in H1. exact H1.
Qed.

Lemma operand_typed k t : In (SlotArg (mkPositional k One CStr)) (initial_slots p) -> In (k, t) ts -> t = TWord \/ t = TStr.
Proof.
  intros Hs Ht. destruct (tp_slots _ _ Hp) as [E0|(k' & E0)]; rewrite E0 in Hs; [destruct Hs|].
  destruct Hs as [[= ->]|[]]. pose proof (proj1 (forallb_forall _ _) (tp_operand _ _ Hp k E0) _ Ht) as H.
  cbn [fst snd] in H. rewrite String.eqb_refl in H. destruct t; try discriminate H; auto.
Qed.

Definition args_ok (o : option_spec) (args : list string) : Prop :=
  if takes_value o then exists v, args = [v] /\ v <> "--" else args = [].

Lemma convert_typed c v x t : convert c v = Go x -> conv_type c t = true -> has_type t x = true.
Proof.
  destruct c; cbn [convert]; [intros [= <-]|destruct (int_of_str v); [intros [= <-]|discriminate]|destruct (float_of_str v); [intros [= <-]|discriminate]];
    destruct t; cbn; congruence.
Qed.

Lemma option_fits o args s s' : In o (pa_options p) -> args_ok o args -> fits s -> option_action p o args s = Go s' ->
  fits s' /\ ps_slots s' = ps_slots s.
Proof.
  intros Ho Ha Hf. pose proof (fun t => option_typed o t Ho) as Ht. unfold args_ok, takes_value, option_action in *.
  assert (Hs : fits (ps_see (op_id o) s)) by exact Hf.
  destruct (op_action o) as [c| | |c| |] eqn:E1; cbn [obind].
  - destruct Ha as (v & -> & Hv). unfold one_value. cbn [remove_dashes]. rewrite (proj2 (String.eqb_neq v "--") Hv).
    destruct (convert c v) as [x|] eqn:E2; [|discriminate]. cbn [obind]. destruct (conflicts _ _ _); [discriminate|]. intros [= <-].
    split; [|reflexivity]. apply fits_set; [left; eauto|exact Hs|]. intros t Hi. exact (convert_typed c v x t E2 (Ht t Hi)).
  - destruct Ha as (v & -> & Hv). unfold one_value. cbn [remove_dashes]. rewrite (proj2 (String.eqb_neq v "--") Hv).
    cbn [obind convert]. destruct (conflicts _ _ _); [discriminate|]. intros [= <-]. split; [|reflexivity].
    apply fits_set; [left; eauto|exact Hs|]. intros t Hi. specialize (Ht t Hi). destruct t; try discriminate Ht. cbn [ps_ns ps_see].
    destruct Hf as (_ & Hincl & F & _). destruct (F _ _ Hi) as [(w & -> & Hw)|Hslot].
    + destruct w; try discriminate Hw; reflexivity.
    + destruct Hincl as [E0|E0]; rewrite E0 in Hslot; [destruct Hslot|]. destruct (operand_typed _ _ Hslot Hi); discriminate.
  - destruct (conflicts _ _ _); [discriminate|]. intros [= <-]. split; [|reflexivity]. apply fits_set; [left; eauto|exact Hs|].
    intros t Hi. specialize (Ht t Hi). destruct t; try discriminate Ht; reflexivity.
  - destruct (conflicts _ _ _); [discriminate|]. intros [= <-]. split; [|reflexivity]. apply fits_set; [left; eauto|exact Hs|].
    intros t Hi. specialize (Ht t Hi). destruct t; try discriminate Ht; reflexivity.
  - destruct (conflicts _ _ _); discriminate.
  - destruct (conflicts _ _ _); discriminate.
Qed.

Definition uses_ok (l : list (option_spec * list string)) : Prop := Forall (fun oa => In oa.1 (pa_options p) /\ args_ok oa.1 oa.2) l.

Lemma options_fit l s s' : uses_ok l -> fits s -> take_options p l s = Go s' -> fits s' /\ ps_slots s' = ps_slots s.
Proof.
  intros Hl. revert s. induction Hl as [|[o args] l [Ho Ha] _ IH]; intros s Hf; cbn [take_options].
  - intros [= <-]. auto.
  - destruct (option_action p o args s) as [s1|] eqn:E1; [|discriminate]. cbn [obind]. intros E2.
    destruct (option_fits o args s s1 Ho Ha Hf E1) as [F1 S1]. destruct (IH s1 F1 E2) as [F2 S2]. split; [exact F2|congruence].
Qed.

Lemma short_takes_nothing f o : find_option p f = Some o -> long_flag f = false -> takes_value o = false.
Proof.
  intros H Hl. apply dget_in in H. pose proof (proj1 (forallb_forall _ _) (tp_short _ _ Hp) _ H) as H1. cbn [fst snd] in H1.
  rewrite Hl, orb_false_r in H1. apply negb_true_iff. exact H1.
Qed.

Lemma short_flag v : long_flag ("-" +:+ Py.stake 1 v)%string = false.
Proof.
  destruct v as [|c v]; [reflexivity|]. cbn [Py.stake]. unfold long_flag, Py.startswith.
  destruct (Ascii.eqb_spec c "-") as [->|Hc]; [destruct v; reflexivity|]. destruct c as [[] [] [] [] [] [] [] []]; reflexivity || congruence.
Qed.

(** A flag's value is its own, or the next word. *)
Lemma joined_ok fuel o f e ws l ws' : In o (pa_options p) -> e <> Some "--" \/ takes_value o = false -> good p ws ->
  joined_options p fuel o f e ws = Go (l, ws') -> uses_ok l /\ good p ws' /\ (length ws' <= length ws)%nat.
Proof.
  revert o f e l. induction fuel as [|fuel IH]; intros o f e l Ho He Hg; [discriminate|]. cbn [joined_options].
  destruct e as [v|].
  - destruct (takes_value o) eqn:Et.
    + intros [= <- <-]. split; [|auto]. constructor; [|constructor]. split; [exact Ho|]. unfold args_ok. cbn [fst snd]. rewrite Et.
      exists v. split; [reflexivity|]. destruct He; congruence.
    + destruct (Py.startswith f "--" || String.eqb v ""); [discriminate|]. destruct (find_option p _) as [o'|] eqn:E1; [|discriminate].
      destruct (joined_options p fuel o' _ _ ws) as [[l1 ws1]|] eqn:E2; [|discriminate]. cbn [obind fst snd]. intros [= <- <-].
      assert (Ho' : takes_value o' = false) by exact (short_takes_nothing _ _ E1 (short_flag v)).
      destruct (IH o' _ _ l1 (find_option_in _ _ _ E1) (or_intror Ho') Hg E2) as (A & B & C). split; [|auto].
      constructor; [|exact A]. split; [exact Ho|]. unfold args_ok. cbn [fst snd]. rewrite Et. reflexivity.
  - destruct (takes_value o) eqn:Et.
    + destruct ws as [|[[r| |] v] ws]; try discriminate. intros [= <- <-]. cbn in Hg. destruct Hg as [Hv Hg].
      split; [|split; [exact Hg|cbn; lia]]. constructor; [|constructor]. split; [exact Ho|]. unfold args_ok. cbn [fst snd]. rewrite Et. eauto.
    + intros [= <- <-]. split; [|auto]. constructor; [|constructor]. split; [exact Ho|]. unfold args_ok. cbn [fst snd]. rewrite Et. reflexivity.
Qed.

Lemma optional_fits r text ws s ws' s' : reading_ok p r -> good p ws -> fits s -> consume_optional p r text ws s = Go (ws', s') ->
  fits s' /\ ps_slots s' = ps_slots s /\ good p ws'.
Proof.
  intros [He Ho] Hg Hf. unfold consume_optional. destruct (rd_option r) as [o|]; [|intros [= <- <-]; auto].
  destruct (joined_options p _ o _ _ ws) as [[l ws1]|] eqn:E1; [|discriminate]. cbn [obind fst snd].
  destruct (joined_ok _ o _ _ ws l ws1 Ho (or_introl He) Hg E1) as (U & G & _).
  destruct (take_options p l s) as [s1|] eqn:E2; [|discriminate]. cbn [obind]. intros [= <- <-].
  destruct (options_fit l s s1 U Hf E2). auto.
Qed.

(** *** The operand *)

Lemma span_plain_dashes t : forallb is_plain t = true -> span is_dash t = 0%nat.
Proof. destruct t as [|[[r| |] s] t]; cbn; congruence. Qed.

Lemma good_after ws : good p ws -> existsb is_option ws = false -> forall n, good p (drop n ws) \/ existsb is_option (drop n ws) = false.
Proof. intros _ H n. right. revert n. induction ws as [|w ws IH]; intros [|n]; try reflexivity; [exact H|]. cbn in *. apply orb_false_iff in H as [_ H]. exact (IH H n). Qed.

Lemma plain_no_option t : forallb is_plain t = true -> existsb is_option t = false.
Proof.
  induction t as [|[[r| |] s] t IH]; cbn; congruence || auto.
Qed.

(** The operand's words hold one plain word, and it is the value; the rest
    has no option, or is as good as before. *)
Lemma operand_count_good a ws n : good p ws -> po_nargs a = One -> slot_count (SlotArg a) ws = Some n ->
  (exists x, remove_dashes (map snd (take n ws)) = [x]) /\
  (good p (drop n ws) \/ existsb is_option (drop n ws) = false) /\ existsb is_option (drop n ws) = existsb is_option ws.
Proof.
  intros Hg Ha. unfold slot_count. rewrite Ha. destruct ws as [|[[r| |] s] ws]; [discriminate| | |].
  - cbn. discriminate.
  - cbn [span is_dash is_plain fst drop skipn Nat.add]. intros [= <-]. cbn in Hg. destruct Hg as [Hs Hg].
    destruct ws as [|[[r| |] s2] t]; cbn [span is_dash fst].
    + cbn. rewrite (proj2 (String.eqb_neq s "--") Hs). split; [eauto|]. cbn. auto.
    + cbn [take drop firstn skipn map snd]. rewrite ?drop_0. cbn [remove_dashes]. rewrite (proj2 (String.eqb_neq s "--") Hs).
      split; [eauto|]. cbn. auto.
    + destruct Hg as [Hs2 Hg]. cbn [take drop firstn skipn map snd]. rewrite ?drop_0. cbn [remove_dashes].
      rewrite (proj2 (String.eqb_neq s "--") Hs). split; [eauto|]. cbn. auto.
    + cbn in Hg. destruct Hg as [-> Hg]. rewrite (span_plain_dashes t Hg). cbn [take drop firstn skipn map snd].
      cbn [remove_dashes]. rewrite (proj2 (String.eqb_neq s "--") Hs), ?drop_0. split; [eauto|].
      rewrite (plain_no_option t Hg). cbn. rewrite (plain_no_option t Hg). auto.
  - cbn in Hg. destruct Hg as [-> Hg]. cbn [span is_dash fst]. rewrite (span_plain_dashes ws Hg). cbn [drop skipn].
    destruct ws as [|[[r| |] s2] t]; cbn in Hg; try discriminate. cbn [drop skipn is_plain fst]. rewrite (span_plain_dashes t Hg).
    intros [= <-]. cbn [Nat.add take drop firstn skipn map snd remove_dashes]. rewrite ?drop_0. cbn.
    split; [eauto|]. rewrite (plain_no_option t Hg). auto.
Qed.

Lemma operand_matched k ws n sub s ws' s' : slot_count (SlotArg (mkPositional k One CStr)) ws = Some n ->
  ps_slots s = [SlotArg (mkPositional k One CStr)] -> consume_positionals sub ws s = Go (ws', s') ->
  ws' = drop n ws /\ exists v, one_value CStr (map snd (take n ws)) = Go v /\ s' = ps_with_slots [] (ps_set k v s).
Proof.
  intros Hn Hs. unfold consume_positionals. rewrite Hs. cbn [match_slots]. rewrite Hn. cbn [fill slot_action po_nargs po_conv po_dest].
  destruct (one_value CStr (map snd (take n ws))) as [v|] eqn:E1; [|discriminate]. cbn [obind length drop skipn]. intros [= <- <-]. eauto.
Qed.

Lemma operand_unmatched sl ws sub s : slot_count sl ws = None -> ps_slots s = [sl] -> consume_positionals sub ws s = Go (ws, s).
Proof.
  intros Hn Hs. unfold consume_positionals. rewrite Hs. cbn [match_slots]. rewrite Hn. cbn [fill obind length drop skipn].
  destruct s. cbn in *. subst. reflexivity.
Qed.

Lemma no_operand ws sub s : ps_slots s = [] -> consume_positionals sub ws s = Go (ws, s).
Proof. intros Hs. unfold consume_positionals. rewrite Hs. cbn. destruct s. cbn in *. subst. reflexivity. Qed.

(** Words that are good, or that no option and no operand is left to read. *)
Definition readied (ws : words) (s : parse_state) : Prop := good p ws \/ (existsb is_option ws = false /\ ps_slots s = []).

Lemma positionals_fit sub ws s ws' s' : readied ws s -> fits s -> consume_positionals sub ws s = Go (ws', s') ->
  fits s' /\ readied ws' s' /\ existsb is_option ws' = existsb is_option ws.
Proof.
  intros Hw Hf E0. assert (Hslots : ps_slots s = [] \/ exists k, ps_slots s = [SlotArg (mkPositional k One CStr)]).
  { destruct Hf as (_ & [H|H] & _); [auto|]. rewrite H. exact (tp_slots _ _ Hp). }
  destruct Hslots as [Hslots|(k & Hslots)].
  { rewrite no_operand in E0 by exact Hslots. injection E0 as <- <-. auto. }
  assert (Hg : good p ws) by (destruct Hw as [Hw|[_ Hw]]; [exact Hw|congruence]).
  destruct (slot_count (SlotArg (mkPositional k One CStr)) ws) as [n|] eqn:En.
  2: { rewrite (operand_unmatched _ _ _ _ En Hslots) in E0. injection E0 as <- <-. auto. }
  destruct (operand_matched k ws n sub s ws' s' En Hslots E0) as (-> & v & Hv & ->).
  destruct (operand_count_good (mkPositional k One CStr) ws n Hg eq_refl En) as ((x & Hx) & Hd & Ho).
  unfold one_value in Hv. rewrite Hx in Hv. injection Hv as <-. split; [|split; [|exact Ho]].
  - destruct Hf as (U & I & F & N). split; [apply dunique_dset, U|]. split; [left; reflexivity|]. split.
    2: { intros k' Hk. cbn. rewrite dget_dset_ne; [exact (N k' Hk)|]. intros ->. apply Hk. right.
         destruct I as [I|I]; [congruence|]. rewrite <- I, Hslots. left. reflexivity. }
    intros k' t Hi. left. cbn.
    destruct (decide (k = k')) as [->|Hne].
    + exists (VStr x). split; [apply dget_dset_eq|]. destruct I as [I|I]; [congruence|].
      destruct (operand_typed k' t) as [->| ->]; [rewrite <- I, Hslots; left; reflexivity|exact Hi|reflexivity|reflexivity].
    + rewrite dget_dset_ne by exact Hne. destruct (F k' t Hi) as [H|H]; [exact H|]. rewrite Hslots in H.
      destruct H as [[= <-]|[]]. congruence.
  - destruct Hd as [Hd|Hd]; [left; exact Hd|right; auto].
Qed.

Lemma to_first_option ws : good p ws -> existsb is_option ws = true ->
  exists r text ws', drop (span (fun w => negb (is_option w)) ws) ws = (MarkO r, text) :: ws' /\ reading_ok p r /\ good p ws'.
Proof.
  induction ws as [|[[r| |] s] ws IH]; cbn [existsb is_option fst orb span negb]; [discriminate| | |].
  - intros [Hr Hg] _. exists r, s, ws. auto.
  - intros [_ Hg] H. exact (IH Hg H).
  - intros [_ Hg]. rewrite (plain_no_option ws Hg). discriminate.
Qed.

(** A parse that ends leaves every destination its type. *)
Lemma loop_fits sub fuel ws s s' : readied ws s -> fits s -> parse_loop p sub fuel ws s = Go s' -> fits s'.
Proof.
  revert ws s. induction fuel as [|fuel IH]; intros ws s Hw Hf; [discriminate|]. cbn [parse_loop].
  destruct (existsb is_option ws) eqn:Eo; cbn [negb].
  - set (n := span _ ws). destruct (if (n =? 0)%nat then Go (ws, s) else consume_positionals sub ws s) as [[ws1 s1]|] eqn:E1; [|discriminate].
    cbn [obind fst snd]. assert (H1 : fits s1 /\ readied ws1 s1).
    { destruct (n =? 0)%nat; [injection E1 as <- <-; auto|]. destruct (positionals_fit sub ws s ws1 s1 Hw Hf E1) as (A & B & _). auto. }
    destruct H1 as [F1 R1]. destruct (length ws1 <? length ws)%nat; [exact (IH ws1 s1 R1 F1)|].
    destruct Hw as [Hg|[Hno _]]; [|congruence]. destruct (to_first_option ws Hg Eo) as (r & text & ws2 & Ed & Hr & G2).
    fold n in Ed. rewrite Ed. destruct (consume_optional p r text ws2 _) as [[ws3 s3]|] eqn:E3; [|discriminate]. cbn [obind fst snd].
    destruct (optional_fits r text ws2 (ps_extra (map snd (take n ws)) s1) ws3 s3 Hr G2 F1 E3) as (F3 & _ & G3).
    exact (IH ws3 s3 (or_introl G3) F3).
  - destruct (consume_positionals sub ws s) as [[ws1 s1]|] eqn:E1; [|discriminate]. cbn [obind fst snd]. intros [= <-].
    destruct (positionals_fit sub ws s ws1 s1 Hw Hf E1) as (F1 & _). exact F1.
Qed.

Lemma initial_fits : fits (mkParseState (initial_namespace p) [] [] [] (initial_slots p)).
Proof.
  split; [apply initial_unique|]. split; [right; reflexivity|]. split; [|reflexivity]. intros k t Hi. cbn [ps_ns ps_slots].
  pose proof (proj1 (forallb_forall _ _) (tp_initial _ _ Hp) _ Hi) as H. cbn [fst snd] in H. apply orb_prop in H as [H|H].
  - right. apply existsb_exists in H as (sl & Hs & H). destruct (tp_slots _ _ Hp) as [E0|(k' & E0)]; rewrite E0 in Hs |- *; [destruct Hs|].
    destruct Hs as [<-|[]]. cbn in H. apply String.eqb_eq in H as ->. left. reflexivity.
  - left. destruct (dget k (initial_namespace p)) as [v|]; [eauto|discriminate].
Qed.

(** The namespace of a line this parser accepts. *)
Lemma leaf_typed sub args ns extras : Forall clean args -> parse_one p sub args = Go (ns, extras) ->
  dunique ns /\ (forall k t, In (k, t) ts -> exists v, dget k ns = Some v /\ has_type t v = true) /\
  forall k, ~ touched k -> dget k ns = dget k (initial_namespace p).
Proof.
  intros Hargs. unfold parse_one. destruct (classify p args) as [ws|] eqn:E1; [|discriminate]. cbn [obind].
  destruct (classify_good p args ws Hargs E1) as [Hg _].
  destruct (parse_loop p sub _ ws _) as [s|] eqn:E2; [|discriminate]. cbn [obind].
  destruct (complete p s) eqn:E3; [|discriminate]. intros [= <- <-].
  destruct (loop_fits sub _ ws _ s (or_introl Hg) initial_fits E2) as (U & _ & F & N). split; [exact U|]. split; [|exact N].
  intros k t Hi. destruct (F k t Hi) as [H|H]; [exact H|]. exfalso. unfold complete in E3.
  destruct (ps_slots s); [destruct H|]. cbn in E3. discriminate.
Qed.
End Leaf.

(** ** A parser that chooses *)

Section Choice.
Variable p : parser.
Variable dest : string.
Variable choices : list (string * parser).
Variable sub : parser -> list string -> outcome (namespace * list string).

Definition exits (o : option_spec) : bool := match op_action o with AHelp | AVersion => true | _ => false end.

Hypothesis Hslots : initial_slots p = [SlotSub dest choices].
Hypothesis Hexits : forallb exits (pa_options p) = true.

(** A subparser has accepted the words after its name. *)
Definition accepted (ns : namespace) : Prop :=
  exists name rest q nsq extras, dget name choices = Some q /\ Forall clean rest /\ sub q rest = Go (nsq, extras) /\
    ns = merged nsq (dset dest (VStr name) (initial_namespace p)).

Definition choosing_state (s : parse_state) : Prop :=
  (ps_slots s = [SlotSub dest choices] /\ ps_ns s = initial_namespace p) \/ (ps_slots s = [] /\ accepted (ps_ns s)).

Lemma choice_consumes ws s ws' s' : Forall clean (map snd ws) -> choosing_state s -> consume_positionals sub ws s = Go (ws', s') ->
  choosing_state s' /\ (ws' = ws \/ ws' = []).
Proof.
  intros Hc [[Hs Hns]|[Hs Hacc]].
  2: { rewrite no_operand by exact Hs. intros [= <- <-]. split; [right; auto|auto]. }
  destruct (slot_count (SlotSub dest choices) ws) as [n|] eqn:En.
  2: { rewrite (operand_unmatched _ _ _ _ En Hs). intros [= <- <-]. split; [left; auto|auto]. }
  assert (n = length ws) as ->.
  { cbn [slot_count] in En. destruct (drop (span is_dash ws) ws); [discriminate|]. destruct (is_plain p0); congruence. }
  unfold consume_positionals. rewrite Hs. cbn [match_slots]. rewrite En, drop_all, firstn_all. cbn [fill slot_action].
  destruct (map snd ws) as [|name rest] eqn:Ew; [discriminate|]. destruct (dget name choices) as [q|] eqn:Eq; [|discriminate].
  destruct (sub q rest) as [[nsq ex]|] eqn:Esub; [|discriminate]. cbn [obind fst snd length drop skipn]. intros [= <- <-].
  split; [|auto]. right. split; [reflexivity|]. apply Forall_cons_1 in Hc as [_ Hc]. exists name, rest, q, nsq, ex. cbn. rewrite Hns. auto.
Qed.

Lemma joined_first fuel o f e ws l ws' : joined_options p fuel o f e ws = Go (l, ws') -> exists args l', l = (o, args) :: l'.
Proof.
  destruct fuel as [|fuel]; [discriminate|]. cbn [joined_options]. destruct e as [v|].
  - destruct (takes_value o); [intros [= <- _]; eauto|]. destruct (_ || _); [discriminate|]. destruct (find_option p _); [|discriminate].
    destruct (joined_options p fuel _ _ _ ws) as [[l1 ws1]|]; [|discriminate]. intros [= <- _]. eauto.
  - destruct (takes_value o); [|intros [= <- _]; eauto]. destruct ws as [|[[r| |] v] ws]; try discriminate. intros [= <- _]. eauto.
Qed.

Lemma exit_ends o args s s' : exits o = true -> option_action p o args s <> Go s'.
Proof. unfold exits, option_action. destruct (op_action o); try discriminate; intros _; cbn; destruct (conflicts _ _ _); discriminate. Qed.

Lemma choice_option r text ws s ws' s' : reading_ok p r -> consume_optional p r text ws s = Go (ws', s') ->
  ws' = ws /\ s' = ps_extra [text] s.
Proof.
  intros [_ Ho]. unfold consume_optional. destruct (rd_option r) as [o|]; [|intros [= <- <-]; auto]. intros H. exfalso.
  destruct (joined_options p _ o _ _ ws) as [[l ws1]|] eqn:E1; [|discriminate]. destruct (joined_first _ _ _ _ _ _ _ E1) as (args & l' & ->).
  cbn [obind fst snd take_options] in H. destruct (option_action p o args s) as [s1|] eqn:E2; [|discriminate].
  apply (exit_ends o args s s1); [|exact E2]. exact (proj1 (forallb_forall _ _) Hexits o Ho).
Qed.

Lemma clean_drop n (ws : words) : Forall clean (map snd ws) -> Forall clean (map snd (drop n ws)).
Proof. intros H. revert n. induction ws as [|w ws IH]; intros [|n]; try exact H. apply Forall_cons_1 in H as [_ H]. exact (IH H n). Qed.

Lemma choice_loop fuel ws s s' : good p ws -> Forall clean (map snd ws) -> choosing_state s ->
  parse_loop p sub fuel ws s = Go s' -> choosing_state s'.
Proof.
  revert ws s. induction fuel as [|fuel IH]; intros ws s Hg Hc Hs; [discriminate|]. cbn [parse_loop].
  destruct (existsb is_option ws) eqn:Eo; cbn [negb].
  - set (n := span _ ws). destruct (if (n =? 0)%nat then Go (ws, s) else consume_positionals sub ws s) as [[ws1 s1]|] eqn:E1; [|discriminate].
    cbn [obind fst snd]. assert (H1 : choosing_state s1 /\ (ws1 = ws \/ ws1 = [])).
    { destruct (n =? 0)%nat; [injection E1 as <- <-; auto|]. exact (choice_consumes ws s ws1 s1 Hc Hs E1). }
    destruct H1 as [S1 H1]. destruct (length ws1 <? length ws)%nat.
    { destruct H1 as [->| ->]; [exact (IH ws s1 Hg Hc S1)|exact (IH [] s1 I (Forall_nil_2 _) S1)]. }
    destruct (to_first_option p ws Hg Eo) as (r & text & ws2 & Ed & Hr & G2). fold n in Ed. rewrite Ed.
    destruct (consume_optional p r text ws2 _) as [[ws3 s3]|] eqn:E3; [|discriminate]. cbn [obind fst snd].
    destruct (choice_option r text ws2 _ ws3 s3 Hr E3) as [-> ->]. apply IH; [exact G2| |exact S1].
    pose proof (clean_drop n ws Hc) as H2. rewrite Ed in H2. apply Forall_cons_1 in H2 as [_ H2]. exact H2.
  - destruct (consume_positionals sub ws s) as [[ws1 s1]|] eqn:E1; [|discriminate]. cbn [obind fst snd]. intros [= <-].
    exact (proj1 (choice_consumes ws s ws1 s1 Hc Hs E1)).
Qed.

(** What a line that is accepted chose. *)
Lemma choice_accepted args ns extras : Forall clean args -> parse_one p sub args = Go (ns, extras) -> accepted ns.
Proof.
  intros Hargs. unfold parse_one. destruct (classify p args) as [ws|] eqn:E1; [|discriminate]. cbn [obind].
  destruct (classify_good p args ws Hargs E1) as [Hg Hw].
  destruct (parse_loop p sub _ ws _) as [s|] eqn:E2; [|discriminate]. cbn [obind].
  destruct (complete p s) eqn:E3; [|discriminate]. intros [= <- <-].
  destruct (choice_loop (S (length ws)) ws (mkParseState (initial_namespace p) [] [] [] (initial_slots p)) s Hg) as [[Hs _]|[_ H]];
    [| |exact E2| |exact H].
  - rewrite Hw. exact Hargs.
  - left. split; [exact Hslots|reflexivity].
  - exfalso. unfold complete in E3. rewrite Hs in E3. discriminate.
Qed.
End Choice.
