(* ===== verification/NetAddr.v ===== *)
(** * [registry/netaddr.py]: the addresses a host advertises and dials

    An IPv4 address is its 32-bit value.  The address of the default route,
    the adapters of [ifaddr.get_adapters] ([None] when the package is not
    installed) and the resolution of the host's own name are the
    environment. *)

From stdpp Require Import sorting.
From S2P Require Import Prelude Sorting Json.
Local Open Scope py_scope.

(** ** [ipaddress.IPv4Address] *)

Definition octet (s : string) : option Z :=
  if Py.sforall Py.is_digit s && (1 <=? String.length s)%nat && (String.length s <=? 3)%nat
     && (String.eqb s "0" || negb (Py.startswith s "0"))
  then match fold_left (fun acc c => acc * 10 + (Z.of_nat (nat_of_ascii c) - 48)) (list_ascii_of_string s) 0 with
       | v => if v <=? 255 then Some v else None
       end
  else None.

(** [IPv4Address(s)]: its value, or [AddressValueError], a [ValueError]. *)
Definition ipv4 (s : string) : result Z :=
  match Py.split_on "." s with
  | [a; b; c; d] =>
      match octet a, octet b, octet c, octet d with
      | Some a, Some b, Some c, Some d => Ok (Z.lor (Z.shiftl a 24) (Z.lor (Z.shiftl b 16) (Z.lor (Z.shiftl c 8) d)))
      | _, _, _, _ => Err ValueError
      end
  | _ => Err ValueError
  end.

Definition byte_at (k a : Z) : Z := Z.land (Z.shiftr a (8 * k)) 255.

(** [str(IPv4Address(a))]. *)
Definition ipv4_str (a : Z) : string :=
  Py.join "." (map (fun k => pretty (byte_at k a)) [3; 2; 1; 0]).

(** An [IPv4Interface]: its address and the length of its prefix. *)
Record interface := mkInterface { if_ip : Z; if_prefix : Z }.

(** [IPv4Interface(f"{ip}/{prefix}")]. *)
Definition ipv4_interface (ip : string) (prefix : Z) : result interface :=
  let! a := ipv4 ip in
  if (0 <=? prefix) && (prefix <=? 32) then Ok (mkInterface a prefix) else Err ValueError.

Definition netmask (prefix : Z) : Z := Z.ldiff (Z.ones 32) (Z.ones (32 - prefix)).

(** [addr in interface.network]. *)
Definition in_network (i : interface) (a : Z) : bool :=
  Z.land a (netmask (if_prefix i)) =? Z.land (if_ip i) (netmask (if_prefix i)).

(** ** The module *)

Definition VIRTUAL_PREFIXES : list string :=
  ["docker"; "br-"; "veth"; "virbr"; "vmnet"; "bridge"; "utun"; "tun"; "tap"; "tailscale"; "wg"; "zt"].
Definition WIRELESS_PREFIXES : list string := ["wl"].
Definition CGNAT : interface := mkInterface (Z.shiftl 100 24 + Z.shiftl 64 16) 10.

Definition starts_any (s : string) (prefixes : list string) : bool := existsb (Py.startswith s) prefixes.

Definition is_loopback (a : Z) : bool := in_network (mkInterface (Z.shiftl 127 24) 8) a.
Definition is_link_local (a : Z) : bool := in_network (mkInterface (Z.shiftl 169 24 + Z.shiftl 254 16) 16) a.
Definition is_unspecified (a : Z) : bool := a =? 0.

Definition usable (ip : string) : result bool :=
  let! addr := ipv4 ip in
  Ok (negb (is_loopback addr || is_link_local addr || is_unspecified addr || in_network CGNAT addr)).

(** An adapter; an address that is not a string is an IPv6 one. *)
Record adapter_ip := mkAdapterIp { ai_ip : option string; ai_prefix : Z }.
Record adapter := mkAdapter { ad_nice_name : string; ad_name : string; ad_ips : list adapter_ip }.

Definition adapter_label (ad : adapter) : string :=
  if String.eqb (ad_nice_name ad) "" then ad_name ad else ad_nice_name ad.

Fixpoint concat_result {A B} (f : A -> result (list B)) (l : list A) : result (list B) :=
  match l with
  | [] => Ok []
  | x :: l' => let! ys := f x in let! zs := concat_result f l' in Ok (ys ++ zs)
  end.

Record network_env := mkNetworkEnv {
  ne_default_route : option string;
  ne_adapters : option (list adapter);
  ne_hostname_address : result string }.

Section NetAddr.
Variable env : network_env.

Definition adapters : list adapter := match ne_adapters env with Some l => l | None => [] end.

(** The usable addresses of one adapter. *)
Definition adapter_interfaces (ad : adapter) : result (list (string * interface)) :=
  if starts_any (adapter_label ad) VIRTUAL_PREFIXES then Ok []
  else concat_result (fun ip =>
    match ai_ip ip with
    | None => Ok []
    | Some s => let! ok := usable s in
                if ok : bool then let! i := ipv4_interface s (ai_prefix ip) in Ok [(adapter_label ad, i)] else Ok []
    end) (ad_ips ad).

Definition lan_interfaces : result (list (string * interface)) := concat_result adapter_interfaces adapters.

(** The first usable address of one adapter, and of all of them. *)
Fixpoint first_usable (l : list adapter_ip) : result (option string) :=
  match l with
  | [] => Ok None
  | ip :: l' =>
      match ai_ip ip with
      | None => first_usable l'
      | Some s => let! ok := usable s in if ok : bool then Ok (Some s) else first_usable l'
      end
  end.

Fixpoint via_adapters (l : list adapter) : result (option string) :=
  match l with
  | [] => Ok None
  | ad :: l' =>
      if starts_any (adapter_label ad) VIRTUAL_PREFIXES then via_adapters l'
      else let! found := first_usable (ad_ips ad) in
           match found with Some s => Ok (Some s) | None => via_adapters l' end
  end.

Definition via_interfaces : result (option string) := via_adapters adapters.

Definition nonempty (s : option string) : option string :=
  match s with Some "" => None | s => s end.

Definition local_ip : result string :=
  let! by_route := match nonempty (ne_default_route env) with
                   | Some ip => let! ok := usable ip in Ok (if ok : bool then Some ip else None)
                   | None => Ok None
                   end in
  match by_route with
  | Some ip => Ok ip
  | None => let! ip := via_interfaces in
            match nonempty ip with Some ip => Ok ip | None => ne_hostname_address env end
  end.

(** The order of a preference: wired first, the default route first among
    its kind, then the system's order. *)
Definition rank_key (entry : nat * (string * interface)) : bool * (bool * nat) :=
  (starts_any entry.2.1 WIRELESS_PREFIXES,
   (negb (bool_decide (Some (ipv4_str (if_ip entry.2.2)) = ne_default_route env)), entry.1)).

Definition bool_leb (a b : bool) : bool := negb a || b.
Definition lex_leb {A B} (eqa : A -> A -> bool) (lea : A -> A -> bool) (leb' : B -> B -> bool) (x y : A * B) : bool :=
  if eqa x.1 y.1 then leb' x.2 y.2 else lea x.1 y.1.
Definition rank_leb : bool * (bool * nat) -> bool * (bool * nat) -> bool :=
  lex_leb Bool.eqb bool_leb (lex_leb Bool.eqb bool_leb Nat.leb).

Definition ranked (l : list (string * interface)) : list (nat * (string * interface)) :=
  sorted rank_leb rank_key (imap (fun i x => (i, x)) l).

Definition dedup (l : list string) : list string :=
  fold_left (fun acc ip => if existsb (String.eqb ip) acc then acc else acc ++ [ip]) l [].

Definition local_ipv4s : result (list string) :=
  let! interfaces := lan_interfaces in
  match dedup (map (fun e => ipv4_str (if_ip e.2.2)) (ranked interfaces)) with
  | [] => let! ip := local_ip in Ok [ip]
  | l => Ok l
  end.

(** The first candidate on one of the networks. *)
Fixpoint first_reachable (networks : list interface) (candidates : list string) : option string :=
  match candidates with
  | [] => None
  | c :: l =>
      match ipv4 c with
      | Ok a => if existsb (fun n => in_network n a) networks then Some c else first_reachable networks l
      | Err _ => first_reachable networks l
      end
  end.

Definition pick_reachable (candidates : list string) : result (option string) :=
  let! networks := lan_interfaces in
  Ok match first_reachable (map snd networks) candidates with
     | Some c => Some c
     | None => hd_error candidates
     end.
End NetAddr.

Example ipv4_ex : ipv4 "192.168.1.9" = Ok 3232235785 /\ ipv4 "01.2.3.4" = Err ValueError /\ ipv4 "1.2.3" = Err ValueError
  /\ ipv4 "1.2.3.256" = Err ValueError /\ ipv4_str 3232235785 = "192.168.1.9".
Proof. vm_compute. repeat split. Qed.

Example local_ipv4s_ex :
  local_ipv4s (mkNetworkEnv (Some "10.0.0.7")
    (Some [mkAdapter "lo" "lo" [mkAdapterIp (Some "127.0.0.1") 8];
           mkAdapter "wlan0" "wlan0" [mkAdapterIp (Some "10.0.0.7") 24];
           mkAdapter "docker0" "docker0" [mkAdapterIp (Some "172.17.0.1") 16];
           mkAdapter "eth0" "eth0" [mkAdapterIp None 64; mkAdapterIp (Some "10.0.0.8") 24]]) (Err OSError)) =
  Ok ["10.0.0.8"; "10.0.0.7"].
Proof. vm_compute. reflexivity. Qed.

(** ** The dotted form *)

Definition digit_chars : list ascii := ["0"; "1"; "2"; "3"; "4"; "5"; "6"; "7"; "8"; "9"]%char.

Lemma digit_char c : Py.is_digit c = true -> In c digit_chars.
Proof. destruct c as [[] [] [] [] [] [] [] []]; cbn; try discriminate; intros _; auto 20. Qed.

(** The texts of one to three digits. *)
Definition numerals : list string :=
  let one := map (fun c => String c "") digit_chars in
  let more l := flat_map (fun s => map (fun c => String c s) digit_chars) l in
  one ++ more one ++ more (more one).

Definition octet_canonical (s : string) : bool :=
  match octet s with Some v => String.eqb (pretty v) s && (0 <=? v) && (v <? 256) | None => true end.

Lemma numerals_canonical : forallb octet_canonical numerals = true.
Proof. by_eval. Qed.

Lemma numeral s : Py.sforall Py.is_digit s = true -> (1 <= String.length s <= 3)%nat -> In s numerals.
Proof.
  intros H L. unfold numerals. rewrite !in_app_iff.
  destruct s as [|a [|b [|c [|d s]]]]; cbn in L; [lia| | | |lia]; cbn in H; rewrite ?andb_true_iff in H; destruct_and?;
    repeat match goal with X : Py.is_digit _ = true |- _ => apply digit_char in X end.
  - left. apply (in_map (fun c => String c "")). assumption.
  - right; left. apply in_flat_map. exists (String b ""). split; [apply (in_map (fun c => String c "")); assumption|].
    apply (in_map (fun c => String c (String b ""))). assumption.
  - right; right. apply in_flat_map. exists (String b (String c "")). split.
    + apply in_flat_map. exists (String c ""). split; [apply (in_map (fun c => String c "")); assumption|].
      apply (in_map (fun x => String x (String c ""))). assumption.
    + apply (in_map (fun x => String x (String b (String c "")))). assumption.
Qed.

Lemma octet_sound s v : octet s = Some v -> pretty v = s /\ 0 <= v < 256.
Proof.
  intros H. assert (Hs : In s numerals).
  { unfold octet in H. destruct (Py.sforall Py.is_digit s) eqn:E; cbn [andb] in H; [|discriminate]. apply numeral; [exact E|].
    destruct (1 <=? String.length s)%nat eqn:L1; cbn [andb] in H; [|discriminate].
    destruct (String.length s <=? 3)%nat eqn:L2; cbn [andb] in H; [|discriminate].
    apply Nat.leb_le in L1, L2. lia. }
  pose proof (proj1 (forallb_forall _ _) numerals_canonical s Hs) as C. unfold octet_canonical in C. rewrite H in C.
  rewrite !andb_true_iff in C. destruct C as [[C1 C2] C3]. apply String.eqb_eq in C1. split; [exact C1|lia].
Qed.

Lemma octet_pretty b : 0 <= b < 256 -> octet (pretty b) = Some b.
Proof.
  intros H. enough (E : match octet (pretty b) with Some v => v =? b | None => false end = true).
  { destruct (octet (pretty b)); [|discriminate]. f_equal. lia. }
  apply (forall_zrange (fun b => match octet (pretty b) with Some v => v =? b | None => false end) 0 256); [by_eval|lia].
Qed.

Lemma pretty_no_dot b : 0 <= b < 256 -> Py.sexists (Ascii.eqb ".") (pretty b) = false.
Proof.
  intros H. apply negb_true_iff.
  apply (forall_zrange (fun b => negb (Py.sexists (Ascii.eqb ".") (pretty b))) 0 256); [by_eval|lia].
Qed.

Lemma byte_at_range k a : 0 <= byte_at k a < 256.
Proof. unfold byte_at. change 255 with (Z.ones 8). rewrite Z.land_ones by lia. apply Z.mod_pos_bound. lia. Qed.

Lemma bytes_value a b c d : 0 <= a < 256 -> 0 <= b < 256 -> 0 <= c < 256 -> 0 <= d < 256 ->
  Z.lor (Z.shiftl a 24) (Z.lor (Z.shiftl b 16) (Z.lor (Z.shiftl c 8) d)) = a * 2^24 + b * 2^16 + c * 2^8 + d.
Proof.
  intros Ha Hb Hc Hd.
  assert (P : forall k x y, 0 <= k -> 0 <= y < 2 ^ k -> Z.lor (Z.shiftl x k) y = x * 2 ^ k + y).
  { intros k x y Hk Hy. rewrite <- Z.shiftl_mul_pow2 by lia. pose proof (Z.add_lor_land (Z.shiftl x k) y) as E.
    assert (Z.land (Z.shiftl x k) y = 0) as Z0; [|lia].
    rewrite <- (Z.mod_small y (2 ^ k)), <- Z.land_ones by lia. rewrite (Z.land_comm y), Z.land_assoc.
    rewrite Z.land_ones, Z.shiftl_mul_pow2, Z.mod_mul by lia. apply Z.land_0_l. }
  rewrite (P 8) by lia. rewrite (P 16) by lia. rewrite (P 24) by lia. lia.
Qed.

Lemma ipv4_dotted a b c d : 0 <= a < 256 -> 0 <= b < 256 -> 0 <= c < 256 -> 0 <= d < 256 ->
  ipv4 (Py.join "." [pretty a; pretty b; pretty c; pretty d]) = Ok (a * 2^24 + b * 2^16 + c * 2^8 + d).
Proof.
  intros Ha Hb Hc Hd. unfold ipv4.
  assert (E : Py.split_on "." (Py.join "." [pretty a; pretty b; pretty c; pretty d]) = [pretty a; pretty b; pretty c; pretty d]).
  { apply Py.split_on_join; [discriminate|]. repeat constructor; apply pretty_no_dot; assumption. }
  rewrite E, !octet_pretty by assumption. f_equal. apply bytes_value; assumption.
Qed.

(** The four bytes by repeated division. *)
Lemma byte_at_div k a : 0 <= k -> byte_at k a = (a / 256 ^ k) mod 256.
Proof.
  intros Hk. unfold byte_at. change 255 with (Z.ones 8). rewrite Z.land_ones, Z.shiftr_div_pow2 by lia.
  rewrite Z.pow_mul_r by lia. reflexivity.
Qed.

Lemma byte_at_dotted a b c d : 0 <= a < 256 -> 0 <= b < 256 -> 0 <= c < 256 -> 0 <= d < 256 ->
  let v := a * 2^24 + b * 2^16 + c * 2^8 + d in
  byte_at 3 v = a /\ byte_at 2 v = b /\ byte_at 1 v = c /\ byte_at 0 v = d.
Proof.
  intros Ha Hb Hc Hd v. rewrite !byte_at_div by lia. subst v.
  change (256 ^ 3) with 16777216. change (256 ^ 2) with 65536. change (256 ^ 1) with 256. change (256 ^ 0) with 1.
  repeat split; Z.div_mod_to_equations; lia.
Qed.

(** Reading and writing the dotted form are inverse. *)
Lemma ipv4_canonical s a : ipv4 s = Ok a -> ipv4_str a = s /\ 0 <= a < 2 ^ 32.
Proof.
  unfold ipv4. pose proof (Py.join_split_on "." s) as J. destruct (Py.split_on "." s) as [|p [|q [|r [|t [|]]]]]; try discriminate.
  destruct (octet p) as [x|] eqn:Ep; [|discriminate]. destruct (octet q) as [y|] eqn:Eq; [|discriminate].
  destruct (octet r) as [z|] eqn:Er; [|discriminate]. destruct (octet t) as [w|] eqn:Et; [|discriminate].
  apply octet_sound in Ep as [<- Hx], Eq as [<- Hy], Er as [<- Hz], Et as [<- Hw].
  rewrite bytes_value by assumption. intros [= <-]. split; [|lia]. unfold ipv4_str. cbn [map].
  destruct (byte_at_dotted x y z w Hx Hy Hz Hw) as (-> & -> & -> & ->). exact J.
Qed.

Lemma ipv4_str_read a : 0 <= a < 2 ^ 32 -> ipv4 (ipv4_str a) = Ok a.
Proof.
  intros H. unfold ipv4_str. cbn [map]. rewrite ipv4_dotted by apply byte_at_range. f_equal.
  rewrite !byte_at_div by lia.
  change (256 ^ 3) with 16777216. change (256 ^ 2) with 65536. change (256 ^ 1) with 256. change (256 ^ 0) with 1.
  Z.div_mod_to_equations; lia.
Qed.

(** ** The preference order *)

Lemma dedup_snoc l x : dedup (l ++ [x]) = if existsb (String.eqb x) (dedup l) then dedup l else dedup l ++ [x].
Proof. unfold dedup. rewrite fold_left_app. reflexivity. Qed.

Lemma existsb_eqb x l : existsb (String.eqb x) l = true <-> In x l.
Proof.
  rewrite existsb_exists. split.
  - intros (y & Hy & E). apply String.eqb_eq in E as ->. exact Hy.
  - intros H. exists x. split; [exact H|apply String.eqb_refl].
Qed.

Lemma dedup_in l : forall x, In x (dedup l) <-> In x l.
Proof.
  induction l as [|y l IH] using rev_ind; intros x; [reflexivity|]. rewrite dedup_snoc, in_app_iff. cbn.
  destruct (existsb (String.eqb y) (dedup l)) eqn:E; [|rewrite in_app_iff, IH; cbn; reflexivity].
  apply existsb_eqb, IH in E. rewrite IH. intuition congruence.
Qed.

Lemma dedup_nodup l : NoDup (dedup l).
Proof.
  induction l as [|y l IH] using rev_ind; [constructor|]. rewrite dedup_snoc.
  destruct (existsb (String.eqb y) (dedup l)) eqn:E; [exact IH|]. apply NoDup_app. split; [exact IH|]. split.
  - intros x Hx. rewrite list_elem_of_singleton. intros ->. apply list_elem_of_In, existsb_eqb in Hx. congruence.
  - apply NoDup_singleton.
Qed.

(** First occurrences, in the order of the list: what comes before [b] has
    an occurrence before every occurrence of [b]. *)
Lemma dedup_order {A} (R : relation A) (f : A -> string) l : StronglySorted R l ->
  StronglySorted (fun a b => exists x, In x l /\ f x = a /\ forall y, In y l -> f y = b -> R x y) (dedup (map f l)).
Proof.
  intros Hs. enough (H : forall p q, l = p ++ q -> StronglySorted
    (fun a b => exists x, In x l /\ f x = a /\ forall y, In y l -> f y = b -> R x y) (dedup (map f p))).
  { apply (H l []). symmetry. apply app_nil_r. }
  induction p as [|z p IH] using rev_ind; intros q E; [constructor|]. rewrite map_app. cbn [map]. rewrite dedup_snoc.
  rewrite <- app_assoc in E. specialize (IH _ E). destruct (existsb _ _) eqn:Hz; [exact IH|].
  apply StronglySorted_app; split; [|split; [exact IH|repeat constructor]].
  intros a b Ha Hb. apply list_elem_of_singleton in Hb as ->. apply list_elem_of_In, dedup_in, in_map_iff in Ha as (x & <- & Hx).
  exists x. split; [rewrite E, in_app_iff; auto|]. split; [reflexivity|]. intros y Hy Ef.
  rewrite E in Hy, Hs. apply in_app_iff in Hy as [Hy|Hy].
  - exfalso. assert (In (f z) (dedup (map f p))) as X; [|apply existsb_eqb in X; congruence].
    rewrite <- Ef. apply dedup_in, in_map, Hy.
  - apply StronglySorted_app in Hs as (Hc & _ & _). apply Hc; apply list_elem_of_In; assumption.
Qed.

Lemma in_concat_result {A B} (f : A -> result (list B)) l : forall out y, concat_result f l = Ok out -> In y out ->
  exists x ys, In x l /\ f x = Ok ys /\ In y ys.
Proof.
  induction l as [|x l IH]; intros out y; cbn; [intros [= <-] []|].
  destruct (f x) as [ys|] eqn:E; cbn; [|discriminate]. destruct (concat_result f l) as [zs|]; cbn; [|discriminate].
  intros [= <-]. rewrite in_app_iff. intros [H|H]; [exists x, ys; auto|].
  destruct (IH zs y eq_refl H) as (x' & ys' & ? & ?). exists x', ys'. auto.
Qed.

(** What an enumerated address is. *)
Lemma lan_interface_ok env l e : lan_interfaces env = Ok l -> In e l ->
  starts_any e.1 VIRTUAL_PREFIXES = false /\ usable (ipv4_str (if_ip e.2)) = Ok true /\ 0 <= if_ip e.2 < 2 ^ 32.
Proof.
  intros Hl He. destruct (in_concat_result _ _ _ _ Hl He) as (ad & ys & _ & Hf & Hy). unfold adapter_interfaces in Hf.
  destruct (starts_any (adapter_label ad) VIRTUAL_PREFIXES) eqn:Hv; [injection Hf as <-; contradiction|].
  destruct (in_concat_result _ _ _ _ Hf Hy) as (ip & zs & _ & Hg & Hz). destruct (ai_ip ip) as [s|]; [|injection Hg as <-; contradiction].
  destruct (usable s) as [[]|] eqn:Hu; cbn in Hg; [| injection Hg as <-; contradiction|discriminate].
  unfold ipv4_interface in Hg. destruct (ipv4 s) as [a|] eqn:Ha; cbn in Hg; [|discriminate].
  destruct (ipv4_canonical _ _ Ha) as [Hs Hr]. destruct (_ && _); cbn in Hg; [|discriminate]. injection Hg as <-.
  destruct Hz as [<-|[]]. cbn [fst snd if_ip]. rewrite Hs. auto.
Qed.

Lemma bool_leb_refl b : bool_leb b b = true.
Proof. destruct b; reflexivity. Qed.

Lemma rank_leb_total a b : rank_leb a b = true \/ rank_leb b a = true.
Proof.
  destruct a as [[] [[] n]], b as [[] [[] m]]; unfold rank_leb, lex_leb; cbn; auto;
    destruct (Nat.leb_spec n m); auto; right; apply Nat.leb_le; lia.
Qed.

Lemma rank_leb_trans a b c : rank_leb a b = true -> rank_leb b c = true -> rank_leb a c = true.
Proof.
  destruct a as [[] [[] n]], b as [[] [[] m]], c as [[] [[] k]]; unfold rank_leb, lex_leb; cbn; try congruence;
    rewrite ?Nat.leb_le; lia.
Qed.

(** An entry at least as preferred as another: a wired one over a wireless
    one, the default route's over another of its kind. *)
Definition preferred (env : network_env) (x y : string * interface) : Prop :=
  let wireless e := starts_any e.1 WIRELESS_PREFIXES in
  let default e := bool_decide (Some (ipv4_str (if_ip e.2)) = ne_default_route env) in
  (wireless x = false /\ wireless y = true) \/
  (wireless x = wireless y /\ (default x = true \/ default y = false)).

Lemma rank_preferred env i j x y : rank_leb (rank_key env (i, x)) (rank_key env (j, y)) = true -> preferred env x y.
Proof.
  unfold rank_leb, rank_key, lex_leb, preferred. cbv zeta. cbn [fst snd].
  destruct (starts_any x.1 WIRELESS_PREFIXES), (starts_any y.1 WIRELESS_PREFIXES); cbn [Bool.eqb bool_leb negb orb]; try discriminate; auto;
    destruct (bool_decide (_ = ne_default_route env)), (bool_decide (_ = ne_default_route env));
    cbn [Bool.eqb bool_leb negb orb]; try discriminate; auto.
Qed.

Lemma ranked_sorted env l : StronglySorted (fun x y => preferred env x.2 y.2) (ranked env l).
Proof.
  assert (H : StronglySorted (by_key rank_leb (rank_key env) (fun _ _ => True)) (ranked env l)).
  { apply sorted_by_key; [exact rank_leb_total|exact rank_leb_trans|]. generalize (imap (fun i x => (i, x)) l).
    induction l0; constructor; [assumption|]. apply Forall_forall. auto. }
  revert H. generalize (ranked env l). induction 1 as [|x r Hr IH Hx]; constructor; [exact IH|].
  eapply Forall_impl; [exact Hx|]. intros y [H _]. destruct x, y. eapply rank_preferred. exact H.
Qed.

Lemma in_imap_pair {A} (l : list A) : forall n y, In y (imap (fun i x => ((n + i)%nat, x)) l) -> In y.2 l.
Proof.
  induction l as [|x l IH]; intros n y; [contradiction|]. rewrite imap_cons. intros [<-|H]; [left; reflexivity|]. right.
  apply (IH (S n)). erewrite imap_ext; [exact H|]. intros. cbn. f_equal. lia.
Qed.

Lemma map_snd_imap {A} (l : list A) : map snd (imap (fun i x => (i, x)) l) = l.
Proof.
  enough (H : forall n, map snd (imap (fun i x => ((n + i)%nat, x)) l) = l) by exact (H 0%nat).
  induction l as [|x l IH]; intros n; [reflexivity|]. rewrite imap_cons. cbn [map snd]. f_equal.
  rewrite <- (IH (S n)) at 2. f_equal. apply imap_ext. intros. cbn. f_equal. lia.
Qed.

Lemma ranked_in env l e : In e (map snd (ranked env l)) <-> In e l.
Proof.
  unfold ranked. rewrite <- (map_snd_imap l) at 2. rewrite <- !list_elem_of_In. rewrite sorted_perm. reflexivity.
Qed.

Definition address_of (e : string * interface) : string := ipv4_str (if_ip e.2).

Definition preference (env : network_env) (l : list (string * interface)) (a b : string) : Prop :=
  exists x, In x l /\ address_of x = a /\ forall y, In y l -> address_of y = b -> preferred env x y.

(** what a host advertises: each address of an enumerated interface
    once, none of them loopback, link-local or of an overlay or a bridge, a
    wired one before a wireless one and the default route's first of its
    kind; with nothing enumerated, the one address [local_ip] finds. *)
Theorem advertised_addresses env l out : lan_interfaces env = Ok l -> local_ipv4s env = Ok out ->
  NoDup out /\ out <> [] /\
  match l with
  | [] => exists ip, local_ip env = Ok ip /\ out = [ip]
  | _ => (forall a, In a out <-> exists e, In e l /\ address_of e = a) /\
         Forall (fun a => usable a = Ok true) out /\
         Forall (fun e => starts_any e.1 VIRTUAL_PREFIXES = false) l /\
         StronglySorted (preference env l) out
  end.
Proof.
  intros Hl. unfold local_ipv4s. rewrite Hl. cbn [result_bind].
  set (out' := dedup _).
  assert (Hin : forall a, In a out' <-> exists e, In e l /\ address_of e = a).
  { intros a. subst out'. rewrite dedup_in, in_map_iff. split.
    - intros (x & <- & Hx). exists x.2. split; [apply (ranked_in env), in_map, Hx|reflexivity].
    - intros (e & He & <-). apply (ranked_in env), in_map_iff in He as (x & <- & Hx). exists x. auto. }
  assert (Hord : StronglySorted (preference env l) out').
  { eapply StronglySorted_weaken; [|exact (dedup_order _ (fun e => address_of e.2) _ (ranked_sorted env l))].
    intros a b (x & Hx & <- & Hb). exists x.2. split; [apply (ranked_in env), in_map, Hx|]. split; [reflexivity|].
    intros y Hy Ey. apply (ranked_in env), in_map_iff in Hy as (z & <- & Hz). exact (Hb z Hz Ey). }
  pose proof (dedup_nodup (map (fun e => ipv4_str (if_ip e.2.2)) (ranked env l))) as Hd. fold out' in Hd.
  destruct out' as [|a0 r] eqn:Eo.
  - destruct (local_ip env) as [ip|] eqn:Hip; cbn; [|discriminate]. intros [= <-].
    assert (l = []) as -> by (destruct l as [|e l]; [reflexivity|destruct (proj2 (Hin (address_of e)) (ex_intro _ e (conj (or_introl eq_refl) eq_refl)))]).
    split; [apply NoDup_singleton|]. split; [discriminate|]. eauto.
  - intros [= <-]. split; [exact Hd|]. split; [discriminate|].
    destruct l as [|e l]; [destruct (proj1 (Hin a0) (or_introl eq_refl)) as (? & [] & _)|].
    split; [exact Hin|]. split; [|split; [|exact Hord]]; apply Forall_forall; intros y Hy; apply list_elem_of_In in Hy.
    + apply Hin in Hy as (x & Hx & <-). apply (lan_interface_ok _ _ _ Hl Hx).
    + apply (lan_interface_ok _ _ _ Hl Hy).
Qed.

(** ** The address a peer is dialled at *)

Definition dotted_char (c : ascii) : bool := Py.is_digit c || Ascii.eqb c ".".

Lemma pretty_dotted z : 0 <= z -> Py.sforall dotted_char (pretty z) = true.
Proof. intros H. eapply Py.sforall_imp; [|exact (pretty_digits z H)]. intros c Hc. unfold dotted_char. rewrite Hc. reflexivity. Qed.

Lemma ipv4_chars s a : ipv4 s = Ok a -> Py.sforall dotted_char s = true /\ s <> "".
Proof.
  intros H. destruct (ipv4_canonical s a H) as [<- _]. split; [|intros E; rewrite E in H; discriminate].
  unfold ipv4_str, Py.join. cbn [map String.concat].
  repeat (rewrite Py.sforall_app || rewrite pretty_dotted by apply byte_at_range). reflexivity.
Qed.

Lemma sforall_none (P : ascii -> bool) c s : P c = false -> Py.sforall P s = true -> Py.sexists (Ascii.eqb c) s = false.
Proof.
  intros Hc. induction s as [|d s IH]; [reflexivity|]. cbn. rewrite andb_true_iff. intros [Hd Hs]. rewrite (IH Hs), orb_false_r.
  destruct (Ascii.eqb_spec c d) as [->|]; [congruence|reflexivity].
Qed.

(** On one of a host's networks. *)
Definition attached (nets : list (string * interface)) (a : string) : bool :=
  match ipv4 a with Ok v => existsb (fun n => in_network n v) (map snd nets) | Err _ => false end.

(** The first of the candidates that is, else the first. *)
Definition best_address (nets : list (string * interface)) (candidates : list string) (a : string) : Prop :=
  (exists p q, candidates = p ++ a :: q /\ attached nets a = true /\ Forall (fun b => attached nets b = false) p) \/
  (Forall (fun b => attached nets b = false) candidates /\ hd_error candidates = Some a).

Lemma first_reachable_spec nets cs :
  match first_reachable (map snd nets) cs with
  | Some a => exists p q, cs = p ++ a :: q /\ attached nets a = true /\ Forall (fun b => attached nets b = false) p
  | None => Forall (fun b => attached nets b = false) cs
  end.
Proof.
  induction cs as [|c cs IH]; [constructor|]. cbn [first_reachable].
  assert (Hc : match ipv4 c with
               | Ok a => if existsb (fun n => in_network n a) (map snd nets) then Some c else first_reachable (map snd nets) cs
               | Err _ => first_reachable (map snd nets) cs
               end = if attached nets c then Some c else first_reachable (map snd nets) cs)
    by (unfold attached; destruct (ipv4 c); [destruct (existsb _ _)|]; reflexivity).
  rewrite Hc. destruct (attached nets c) eqn:E; [exists [], cs; auto|].
  destruct (first_reachable (map snd nets) cs) as [a|]; [|constructor; assumption].
  destruct IH as (p & q & -> & Ha & Hp). exists (c :: p), q. split; [reflexivity|]. split; [exact Ha|]. constructor; assumption.
Qed.

Lemma pick_reachable_best env nets cs : lan_interfaces env = Ok nets -> cs <> [] ->
  exists a, pick_reachable env cs = Ok (Some a) /\ best_address nets cs a.
Proof.
  intros Hn Hc. unfold pick_reachable. rewrite Hn. cbn [result_bind]. pose proof (first_reachable_spec nets cs) as H.
  destruct (first_reachable (map snd nets) cs) as [a|]; [exists a; split; [reflexivity|left; exact H]|].
  destruct cs as [|c cs]; [congruence|]. exists c. split; [reflexivity|]. right. split; [exact H|reflexivity].
Qed.

Lemma best_address_in nets cs a : best_address nets cs a -> In a cs.
Proof.
  intros [(p & q & -> & _)|[_ H]]; [apply in_elt|]. destruct cs; [discriminate|]. injection H as ->. left. reflexivity.
Qed.

(** A wireless interface with the default route, and a wired one. *)
Definition two_homed : network_env := mkNetworkEnv (Some "10.0.1.7")
  (Some [mkAdapter "wlan0" "wlan0" [mkAdapterIp (Some "10.0.1.7") 24]; mkAdapter "eth0" "eth0" [mkAdapterIp (Some "10.0.0.7") 24]])
  (Err OSError).

Lemma advertised_addresses_witness :
  NoDup ["10.0.0.7"; "10.0.1.7"] /\ Forall (fun a => usable a = Ok true) ["10.0.0.7"; "10.0.1.7"].
Proof.
  destruct (advertised_addresses two_homed [("wlan0", mkInterface 167772423 24); ("eth0", mkInterface 167772167 24)]
              ["10.0.0.7"; "10.0.1.7"] ltac:(vm_compute; reflexivity) ltac:(vm_compute; reflexivity)) as (H1 & _ & _ & H2 & _).
  exact (conj H1 H2).
Defined.
