(* ===== verification/Paths.v ===== *)
(** * [registry/paths.py]: where the registry's files are

    A path is what [pathlib] keeps of a text: whether it is absolute, and
    its parts.  On Windows both slashes separate, and a drive is the first
    part; the two leading slashes POSIX tells apart are not.  The machine
    (platform, privilege, home, environment variables, directories, files)
    is the environment. *)

From S2P Require Import Prelude Tables.
Local Open Scope py_scope.

Record path := mkPath { pa_absolute : bool; pa_parts : list string }.

#[export] Instance path_eq_dec : EqDecision path.
Proof. solve_decision. Defined.

Inductive platform := Win32 | Darwin | Linux | OtherPlatform (name : string).

#[export] Instance platform_eq_dec : EqDecision platform.
Proof. solve_decision. Defined.

Record machine := mkMachine {
  mc_platform : platform;
  mc_root : bool;                          (* [geteuid() == 0] *)
  mc_uid : Z;
  mc_home : string;                        (* [expanduser("~")] *)
  mc_tmpdir : string;                      (* [tempfile.gettempdir()] *)
  mc_env : string -> option string;
  mc_isdir : string -> bool }.

Definition is_win32 (p : platform) : bool := bool_decide (p = Win32).
Definition is_darwin (p : platform) : bool := bool_decide (p = Darwin).

Definition backslash : ascii := "\"%char.

(** ** [pathlib] *)

Definition kept_part (s : string) : bool := negb (String.eqb s "" || String.eqb s ".").

(** [Path(s)]. *)
Definition Path (p : platform) (s : string) : path :=
  let s := if is_win32 p then Py.smap (fun c => if Ascii.eqb c backslash then "/"%char else c) s else s in
  mkPath (Py.startswith s "/") (List.filter kept_part (Py.split_on "/" s)).

(** [path / name / ...], for names without a separator. *)
Definition joined (p : path) (names : list string) : path := mkPath (pa_absolute p) (pa_parts p ++ names).

(** [path.parent], of a path with a part. *)
Definition parent (p : path) : path := mkPath (pa_absolute p) (removelast (pa_parts p)).

Definition path_name (p : path) : string := match last (pa_parts p) with Some s => s | None => "" end.

(** [path.stem]: the name up to its last dot, unless that dot is at either
    end of it. *)
Definition path_stem (p : path) : string :=
  let name := path_name p in
  match Py.rpartition "." name with
  | (h, true, t) => if String.eqb h "" || String.eqb t "" then name else h
  | _ => name
  end.

(** [str(path)]. *)
Definition path_str (p : path) : string :=
  if negb (pa_absolute p) && match pa_parts p with [] => true | _ => false end then "."
  else ((if pa_absolute p then "/" else "") +:+ Py.join "/" (pa_parts p))%string.

(** ** The module *)

Definition WINDOWS_PIPE_NAME : string :=
  Py.smap (fun c => if Ascii.eqb c "/" then backslash else c) "//./pipe/mbregistry".
Definition APP : string := "mbregistry".
Definition LAUNCHD_LABEL : string := "org.jointheleague.mbregistry".

Section Paths.
Variable m : machine.

Definition path_of : string -> path := Path (mc_platform m).

Definition is_root : bool := if is_win32 (mc_platform m) then false else mc_root m.
Definition home : path := path_of (mc_home m).
(** [os.environ.get(name)] as a condition. *)
Definition env_value (name : string) : option string :=
  match mc_env m name with Some "" => None | v => v end.

Definition default_program_data : string :=
  Py.smap (fun c => if Ascii.eqb c "/" then backslash else c) "C:/ProgramData".

Definition system_db_path : path :=
  match mc_platform m with
  | Win32 => joined (path_of (match mc_env m "PROGRAMDATA" with Some v => v | None => default_program_data end)) [APP; "devices.db"]
  | Darwin => joined (path_of "/Library/Application Support") [APP; "devices.db"]
  | _ => joined (path_of "/var/lib") [APP; "devices.db"]
  end.

Definition user_db_path : path :=
  match mc_platform m with
  | Win32 => system_db_path
  | Darwin => joined home ["Library"; "Application Support"; APP; "devices.db"]
  | _ => match env_value "XDG_STATE_HOME" with
         | Some state => joined (path_of state) [APP; "devices.db"]
         | None => joined (path_of (path_str (joined home [".local"; "state"]))) [APP; "devices.db"]
         end
  end.

Definition default_db_path : path := if is_root then system_db_path else user_db_path.

Definition system_socket_path : result path :=
  match mc_platform m with
  | Win32 => Err NotImplementedError
  | Darwin => Ok (joined (path_of "/var/run") [APP; "api.sock"])
  | _ => Ok (joined (path_of "/run") [APP; "api.sock"])
  end.

Definition user_socket_path : result path :=
  match mc_platform m with
  | Win32 => Err NotImplementedError
  | Darwin => Ok (joined home ["Library"; "Application Support"; APP; "api.sock"])
  | _ => match env_value "XDG_RUNTIME_DIR" with
         | Some runtime =>
             if mc_isdir m runtime then Ok (joined (path_of runtime) [APP; "api.sock"])
             else Ok (joined home [".cache"; APP; "api.sock"])
         | None => Ok (joined home [".cache"; APP; "api.sock"])
         end
  end.

Definition default_socket_path : result path := if is_root then system_socket_path else user_socket_path.

Definition client_socket_candidates : result (list path) :=
  if is_win32 (mc_platform m) then Err NotImplementedError
  else
    let! system := system_socket_path in
    let! user := user_socket_path in
    let '(first, second) := if is_root then (system, user) else (user, system) in
    Ok (if bool_decide (first = second) then [first] else [first; second]).

Definition find_client_socket (exists_ : path -> bool) : result path :=
  let! candidates := client_socket_candidates in
  match List.find exists_ candidates, candidates with
  | Some c, _ => Ok c
  | None, c :: _ => Ok c
  | None, [] => Err IndexError
  end.

Definition default_pipe_name : string := WINDOWS_PIPE_NAME.

Definition linux_user_unit_path : path := joined home [".config"; "systemd"; "user"; (APP +:+ ".service")%string].
Definition macos_launch_agent_path : path := joined home ["Library"; "LaunchAgents"; (LAUNCHD_LABEL +:+ ".plist")%string].
Definition macos_launch_daemon_path : path := joined (path_of "/Library/LaunchDaemons") [(LAUNCHD_LABEL +:+ ".plist")%string].
Definition macos_user_log_path : path := joined home ["Library"; "Logs"; (APP +:+ ".log")%string].
Definition macos_system_log_path : path := joined (path_of "/Library/Logs") [(APP +:+ ".log")%string].
Definition LINUX_SYSTEM_UNIT_PATH : path := path_of "/etc/systemd/system/mbregistry.service".
Definition LINUX_UDEV_RULE_PATH : path := path_of "/etc/udev/rules.d/99-mbregistry-cmsis-dap.rules".
Definition claims_dir_path : path := joined (path_of (mc_tmpdir m)) ["mbtools"; "claims"].
End Paths.

Definition a_user : machine := mkMachine Linux false 1000 "/home/ann" "/tmp"
  (fun k => if String.eqb k "XDG_RUNTIME_DIR" then Some "/run/user/1000" else None) (fun d => String.eqb d "/run/user/1000").
Definition a_mac : machine := mkMachine Darwin false 501 "/Users/ann" "/tmp" (fun _ => None) (fun _ => false).

Example paths_ex :
  path_str (default_db_path a_user) = "/home/ann/.local/state/mbregistry/devices.db" /\
  client_socket_candidates a_user = Ok [Path Linux "/run/user/1000/mbregistry/api.sock"; Path Linux "/run/mbregistry/api.sock"] /\
  path_stem (macos_launch_agent_path a_mac) = LAUNCHD_LABEL.
Proof. vm_compute. repeat split. Qed.

(** ** A client finds the daemon that is there *)

(** Whoever runs the daemon, with or without privilege, a client of the
    same user or of root looks where it listens. *)
Lemma daemon_socket_is_candidate m c : mc_platform m <> Win32 -> default_socket_path m = Ok c ->
  exists l, client_socket_candidates m = Ok l /\ hd_error l = Some c.
Proof.
  intros Hw. unfold default_socket_path, client_socket_candidates, is_root, is_win32.
  rewrite bool_decide_eq_false_2 by exact Hw.
  destruct (system_socket_path m) as [s|e] eqn:Es; [|unfold system_socket_path in Es; destruct (mc_platform m); congruence].
  destruct (user_socket_path m) as [u|e] eqn:Eu;
    [|unfold user_socket_path in Eu; destruct (mc_platform m); try congruence; destruct (env_value m "XDG_RUNTIME_DIR"); try congruence;
      destruct (mc_isdir m _); congruence].
  destruct (mc_root m); cbn; intros [= <-]; (destruct (bool_decide _); eexists; split; reflexivity).
Qed.

Lemma other_socket_is_candidate m s : mc_platform m <> Win32 -> system_socket_path m = Ok s ->
  exists l, client_socket_candidates m = Ok l /\ In s l.
Proof.
  intros Hw Es. unfold client_socket_candidates, is_root, is_win32. rewrite bool_decide_eq_false_2 by exact Hw. rewrite Es.
  destruct (user_socket_path m) as [u|e] eqn:Eu;
    [|unfold user_socket_path in Eu; destruct (mc_platform m); try congruence; destruct (env_value m "XDG_RUNTIME_DIR"); try congruence;
      destruct (mc_isdir m _); congruence].
  destruct (mc_root m); cbn; (case_bool_decide as E; eexists; (split; [reflexivity|])); subst; cbn; auto.
Qed.
