(* ===== verification/Regex.v ===== *)
(** * The part of Python's [re] the sources use on serial text

    Backtracking matching with the priorities of [re]: alternatives left to
    right, repetition greedy, leftmost match first; groups, [\b], the
    multi-line [^] and [$].  A declarative relation says what a pattern may match;
    the matcher finds a match exactly when there is one.  Texts are 8-bit
    strings, as [bytes] are. *)

From S2P Require Import Prelude.
Local Open Scope py_scope.

Inductive re :=
| RChr (f : ascii -> bool)
| REps
| RCat (a b : re)
| RAlt (a b : re)
| RStar (a : re)
| RGroup (n : nat) (a : re)
| RWordB
| RBol
| REol.

Definition RPlus (a : re) : re := RCat a (RStar a).
Fixpoint RLit (s : string) : re :=
  match s with "" => REps | String c s' => RCat (RChr (Ascii.eqb c)) (RLit s') end.
Fixpoint rcat (l : list re) : re :=
  match l with [] => REps | [a] => a | a :: l' => RCat a (rcat l') end.

(** ** Character classes *)

Definition newline : ascii := "010".
Definition is_word (c : ascii) : bool := Py.is_alpha c || Py.is_digit c || Ascii.eqb c "_".
Definition is_bspace (c : ascii) : bool := Py.ascii_in c (String " " (String "009" (String "010" (String "011" (String "012" (String "013" "")))))).
Definition is_hex (c : ascii) : bool := Py.is_digit c || Py.between "A" c "F" || Py.between "a" c "f".

(** ** The matcher *)

(** A position: the character before it and the text after it. *)
Record position := mkPos { pos_before : option ascii; pos_rest : string }.

Definition at_word (c : option ascii) : bool := match c with Some c => is_word c | None => false end.
Definition head (s : string) : option ascii := match s with "" => None | String c _ => Some c end.
Definition at_boundary (p : position) : bool := xorb (at_word (pos_before p)) (at_word (head (pos_rest p))).
Definition at_bol (p : position) : bool :=
  match pos_before p with None => true | Some c => Ascii.eqb c newline end.

(** [$] outside the multi-line mode: the end, or before a final newline. *)
Definition at_eol (p : position) : bool :=
  match pos_rest p with
  | "" => true
  | String c s => Ascii.eqb c newline && String.eqb s ""
  end.

Definition captures : Type := list (nat * string).

Definition consumed (p p' : position) : string :=
  Py.stake (String.length (pos_rest p) - String.length (pos_rest p')) (pos_rest p).

Definition progress (p p' : position) : bool :=
  (String.length (pos_rest p') <? String.length (pos_rest p))%nat.

Section Match.
Context {X : Type}.

(** Greedy repetition of [m]: an iteration takes a character at least, so
    as many as there are characters left suffice. *)
Fixpoint star_loop (m : position -> captures -> (position -> captures -> option X) -> option X)
    (k : position -> captures -> option X) (n : nat) (p : position) (c : captures) : option X :=
  match n with
  | O => k p c
  | S n' =>
      match m p c (fun p' c' => if progress p p' then star_loop m k n' p' c' else None) with
      | Some x => Some x
      | None => k p c
      end
  end.

(** [k] goes on with the rest of the pattern; [None] backtracks. *)
Fixpoint rmatch (r : re) (p : position) (c : captures) (k : position -> captures -> option X) : option X :=
  match r with
  | RChr f => match pos_rest p with
              | "" => None
              | String a s => if f a then k (mkPos (Some a) s) c else None
              end
  | REps => k p c
  | RCat a b => rmatch a p c (fun p' c' => rmatch b p' c' k)
  | RAlt a b => match rmatch a p c k with Some x => Some x | None => rmatch b p c k end
  | RStar a => star_loop (rmatch a) k (String.length (pos_rest p)) p c
  | RGroup n a => rmatch a p c (fun p' c' => k p' ((n, consumed p p') :: c'))
  | RWordB => if at_boundary p then k p c else None
  | RBol => if at_bol p then k p c else None
  | REol => if at_eol p then k p c else None
  end.
End Match.

(** A match: the text before it, its own ([group(0)]), the groups, the text
    after it. *)
Record re_match := mkMatch { m_pre : string; m_text : string; m_groups : captures; m_post : string }.

(** [match.group(n)]; [None] when it took no part. *)
Definition group (n : nat) (m : re_match) : option string :=
  match List.find (fun g => Nat.eqb g.1 n) (m_groups m) with Some g => Some g.2 | None => None end.

Fixpoint search_at (r : re) (before : option ascii) (s : string) : option re_match :=
  let p := mkPos before s in
  match rmatch r p [] (fun p' c => Some (p', c)) with
  | Some (p', c) => Some (mkMatch "" (consumed p p') c (pos_rest p'))
  | None =>
      match s with
      | "" => None
      | String a s' =>
          match search_at r (Some a) s' with
          | Some m => Some (mkMatch (String a (m_pre m)) (m_text m) (m_groups m) (m_post m))
          | None => None
          end
      end
  end.

Definition search (r : re) (s : string) : option re_match := search_at r None s.

(** ** What a pattern may match *)

(** [matches r p c q c']: from [p] to [q], adding to the groups [c]. *)
Inductive matches : re -> position -> captures -> position -> captures -> Prop :=
| m_chr f b a s c : f a = true -> matches (RChr f) (mkPos b (String a s)) c (mkPos (Some a) s) c
| m_eps p c : matches REps p c p c
| m_cat a b p c q d r e : matches a p c q d -> matches b q d r e -> matches (RCat a b) p c r e
| m_left a b p c q d : matches a p c q d -> matches (RAlt a b) p c q d
| m_right a b p c q d : matches b p c q d -> matches (RAlt a b) p c q d
| m_stop a p c : matches (RStar a) p c p c
| m_step a p c q d r e : matches a p c q d -> progress p q = true ->
    matches (RStar a) q d r e -> matches (RStar a) p c r e
| m_group n a p c q d : matches a p c q d -> matches (RGroup n a) p c q ((n, consumed p q) :: d)
| m_wordb p c : at_boundary p = true -> matches RWordB p c p c
| m_bol p c : at_bol p = true -> matches RBol p c p c
| m_eol p c : at_eol p = true -> matches REol p c p c.

#[local] Hint Constructors matches : core.

Section Facts.
Context {X : Type}.
Implicit Types (k : position -> captures -> option X) (c : captures).

Lemma star_sound a (IH : forall p c k x, rmatch a p c k = Some x ->
    exists q d, matches a p c q d /\ k q d = Some x) k x n : forall p c,
  star_loop (rmatch a) k n p c = Some x -> exists q d, matches (RStar a) p c q d /\ k q d = Some x.
Proof.
  induction n as [|n IHn]; intros p c H; [eauto 10|]. cbn [star_loop] in H.
  destruct (rmatch a p c _) as [y|] eqn:E; [|eauto 10].
  injection H as ->. destruct (IH _ _ _ _ E) as (q & d & Hm & Hk).
  destruct (progress p q) eqn:Hp; [|discriminate]. destruct (IHn _ _ Hk) as (q' & d' & Hm' & Hk'). eauto 10.
Qed.

(** Whatever is found goes on from a match. *)
Lemma rmatch_sound r : forall p c k x, rmatch r p c k = Some x ->
  exists q d, matches r p c q d /\ k q d = Some x.
Proof.
  induction r as [f| |a IHa b IHb|a IHa b IHb|a IHa|n a IHa| | |]; intros p c k x H; cbn [rmatch] in H.
  - destruct p as [b [|ch s]]; cbn in H; [discriminate|]. destruct (f ch) eqn:E; [eauto 10|discriminate].
  - eauto 10.
  - destruct (IHa _ _ _ _ H) as (q & d & Hm & Hk). destruct (IHb _ _ _ _ Hk) as (q' & d' & Hm' & Hk'). eauto 10.
  - destruct (rmatch a p c k) as [y|] eqn:E.
    + injection H as ->. destruct (IHa _ _ _ _ E) as (q & d & Hm & Hk). eauto 10.
    + destruct (IHb _ _ _ _ H) as (q & d & Hm & Hk). eauto 10.
  - exact (star_sound a IHa k x _ p c H).
  - destruct (IHa _ _ _ _ H) as (q & d & Hm & Hk). exists q, ((n, consumed p q) :: d). auto.
  - destruct (at_boundary p) eqn:E; [eauto 10|discriminate].
  - destruct (at_bol p) eqn:E; [eauto 10|discriminate].
  - destruct (at_eol p) eqn:E; [eauto 10|discriminate].
Qed.

Lemma star_complete a (IH : forall p c q d, matches a p c q d -> forall k, k q d <> None -> rmatch a p c k <> None)
    p c q d : matches (RStar a) p c q d -> forall n k, (String.length (pos_rest p) <= n)%nat ->
  k q d <> None -> star_loop (rmatch a) k n p c <> None.
Proof.
  intros H. remember (RStar a) as r eqn:Er.
  induction H as [| | | | |a' p c|a' p c q d r' e Ha _ Hp _ IHs| | | |]; try discriminate; injection Er as ->; intros n k Hn Hk.
  - destruct n as [|n]; [exact Hk|]. cbn [star_loop]. destruct (rmatch a p c _); [discriminate|exact Hk].
  - unfold progress in Hp. apply Nat.ltb_lt in Hp. destruct n as [|n]; [lia|]. cbn [star_loop].
    destruct (rmatch a p c _) eqn:E; [discriminate|]. exfalso. revert E. apply (IH p c q d Ha).
    unfold progress. rewrite (proj2 (Nat.ltb_lt _ _) Hp). apply IHs; [reflexivity|lia|exact Hk].
Qed.

(** A match the continuation accepts is not missed. *)
Lemma rmatch_complete r : forall p c q d, matches r p c q d -> forall k, k q d <> None -> rmatch r p c k <> None.
Proof.
  induction r as [f| |a IHa b IHb|a IHa b IHb|a IHa|n a IHa| | |]; intros p c q d H k Hk.
  - inversion H as [f' b a s c' Hf| | | | | | | | | |]; subst. cbn. rewrite Hf. exact Hk.
  - inversion H; subst. exact Hk.
  - inversion H; subst. cbn. eapply IHa; [eassumption|]. eapply IHb; eassumption.
  - cbn. inversion H; subst; destruct (rmatch a p c k) eqn:E; try discriminate.
    + exfalso. eapply IHa; eassumption.
    + eapply IHb; eassumption.
  - cbn. eapply star_complete; [exact IHa|exact H|lia|exact Hk].
  - inversion H; subst. cbn. eapply IHa; eassumption.
  - inversion H as [| | | | | | | |p' c' Hb| |]; subst. cbn. rewrite Hb. exact Hk.
  - inversion H as [| | | | | | | | |p' c' Hb|]; subst. cbn. rewrite Hb. exact Hk.
  - inversion H as [| | | | | | | | | |p' c' Hb]; subst. cbn. rewrite Hb. exact Hk.
Qed.

(** ** Patterns that end in a repeated class *)

(** The pattern's last part is [f+], inside any groups. *)
Inductive tail_plus (f : ascii -> bool) : re -> Prop :=
| tp_plus : tail_plus f (RPlus (RChr f))
| tp_cat a b : tail_plus f b -> tail_plus f (RCat a b)
| tp_alt a b : tail_plus f a -> tail_plus f b -> tail_plus f (RAlt a b)
| tp_group n a : tail_plus f a -> tail_plus f (RGroup n a).

Definition stops (f : ascii -> bool) (p : position) : Prop :=
  forall ch, head (pos_rest p) = Some ch -> f ch = false.
Definition ended (f : ascii -> bool) (p : position) : Prop :=
  exists ch, pos_before p = Some ch /\ f ch = true.

Lemma class_star f k x : (forall p c, k p c <> None) -> forall n p c, (String.length (pos_rest p) <= n)%nat ->
  star_loop (rmatch (RChr f)) k n p c = Some x ->
  exists q, matches (RStar (RChr f)) p c q c /\ k q c = Some x /\ stops f q /\ (q = p \/ ended f q).
Proof.
  intros Hk. induction n as [|n IH]; intros [b [|a s]] c Hn H; cbn in Hn; try lia.
  - exists (mkPos b ""). split; [constructor|]. split; [exact H|]. split; [intros ch; discriminate|auto].
  - cbn in H. exists (mkPos b ""). split; [constructor|]. split; [exact H|]. split; [intros ch; discriminate|auto].
  - assert (Hp : progress (mkPos b (String a s)) (mkPos (Some a) s) = true)
      by (unfold progress; apply Nat.ltb_lt; cbn; lia).
    assert (E : star_loop (rmatch (RChr f)) k (S n) (mkPos b (String a s)) c =
      match (if f a then star_loop (rmatch (RChr f)) k n (mkPos (Some a) s) c else None) with
      | Some y => Some y | None => k (mkPos b (String a s)) c end).
    { cbn [star_loop]. cbn [rmatch pos_rest]. rewrite Hp. reflexivity. }
    rewrite E in H. clear E. destruct (f a) eqn:Ef.
    + destruct (star_loop _ k n (mkPos (Some a) s) c) as [y|] eqn:E.
      * injection H as ->. destruct (IH (mkPos (Some a) s) c ltac:(cbn; lia) E) as (q & H0 & H1 & H2 & H3). exists q.
        split; [econstructor; [constructor; exact Ef|exact Hp|exact H0]|]. split; [exact H1|]. split; [exact H2|].
        right. destruct H3 as [->|H3]; [exists a; auto|exact H3].
      * exfalso. destruct n; [exact (Hk _ _ E)|]. cbn [star_loop] in E.
        destruct (rmatch _ _ _ _) in E; [discriminate|exact (Hk _ _ E)].
    + exists (mkPos b (String a s)). split; [constructor|]. split; [exact H|]. split; [intros ch [= <-]; exact Ef|auto].
Qed.

(** Such a pattern takes all it can, when what follows cannot fail. *)
Lemma tail_plus_greedy f r : tail_plus f r -> forall p c k x, (forall p c, k p c <> None) ->
  rmatch r p c k = Some x -> exists q d, k q d = Some x /\ stops f q /\ ended f q.
Proof.
  induction 1 as [|a b _ IHb|a b _ IHa _ IHb|n a _ IHa]; intros p c k x Hk H; cbn [rmatch] in H.
  - destruct p as [b [|a s]]; cbn [rmatch RPlus pos_rest] in H; [discriminate|]. destruct (f a) eqn:Ef; [|discriminate].
    destruct (class_star f k x Hk _ _ _ (Nat.le_refl _) H) as (q & _ & H1 & H2 & H3).
    exists q, c. split; [exact H1|]. split; [exact H2|]. destruct H3 as [->|H3]; [exists a; auto|exact H3].
  - destruct (rmatch_sound _ _ _ _ _ H) as (q & d & _ & Hq). exact (IHb _ _ _ _ Hk Hq).
  - destruct (rmatch a p c k) as [y|] eqn:E; [injection H as ->; exact (IHa _ _ _ _ Hk E)|exact (IHb _ _ _ _ Hk H)].
  - destruct (IHa _ _ _ _ (fun p' c' => Hk p' _) H) as (q & d & H'). eauto.
Qed.
End Facts.

(** ** The text a match spans *)

(** From [p] to [q], over the text [t]. *)
Definition spans (p q : position) (t : string) : Prop :=
  pos_rest p = (t +:+ pos_rest q)%string /\
  pos_before q = match Py.last_char t with Some c => Some c | None => pos_before p end.

Lemma spans_refl p : spans p p "".
Proof. split; reflexivity. Qed.

Lemma last_char_app s t : Py.last_char (s +:+ t)%string =
  match Py.last_char t with Some c => Some c | None => Py.last_char s end.
Proof.
  induction s as [|a s IH]; [cbn; destruct (Py.last_char t); reflexivity|].
  change ((String a s +:+ t)%string) with (String a (s +:+ t)%string). rewrite !Py.last_char_cons, IH.
  destruct (Py.last_char t), (Py.last_char s); reflexivity.
Qed.

Lemma spans_trans p q r t u : spans p q t -> spans q r u -> spans p r (t +:+ u)%string.
Proof.
  intros [A B] [C D]. split; [rewrite A, C; apply Py.append_assoc|]. rewrite D, last_char_app, B.
  destruct (Py.last_char u), (Py.last_char t); reflexivity.
Qed.

Lemma spans_cons a b s q t : spans (mkPos (Some a) s) q t -> spans (mkPos b (String a s)) q (String a t).
Proof.
  intros [A B]. cbn in A, B. split; [cbn; f_equal; exact A|]. rewrite B, Py.last_char_cons.
  destruct (Py.last_char t); reflexivity.
Qed.

Lemma matches_spans r p c q d : matches r p c q d -> exists t, spans p q t.
Proof.
  induction 1 as [f b a s c Hf| |a b p c q d r e _ [t Ht] _ [u Hu]|? ? ? ? ? ? _ [t Ht]|? ? ? ? ? ? _ [t Ht]| |
    a p c q d r e _ [t Ht] _ _ [u Hu]|? ? ? ? ? ? _ [t Ht]| | |]; eauto using spans_refl, spans_trans.
  exists (String a ""). split; reflexivity.
Qed.

Lemma stake_app s t : Py.stake (String.length s) (s +:+ t)%string = s.
Proof. induction s as [|a s IH]; [destruct t; reflexivity|]. cbn. f_equal. exact IH. Qed.

Lemma length_append s t : String.length (s +:+ t)%string = (String.length s + String.length t)%nat.
Proof. induction s as [|a s IH]; [reflexivity|]. cbn. f_equal. exact IH. Qed.

Lemma consumed_spans p q t : spans p q t -> consumed p q = t.
Proof.
  intros [A _]. unfold consumed. rewrite A, length_append.
  replace (String.length t + String.length (pos_rest q) - String.length (pos_rest q))%nat with (String.length t) by lia.
  apply stake_app.
Qed.

(** ** Searching *)

Definition or_before (s : string) (b : option ascii) : option ascii :=
  match Py.last_char s with Some c => Some c | None => b end.

Definition found_at (r : re) (b : option ascii) (s : string) (m : re_match) : Prop :=
  s = (m_pre m +:+ m_text m +:+ m_post m)%string /\
  let p := mkPos (or_before (m_pre m) b) (m_text m +:+ m_post m)%string in
  let q := mkPos (or_before (m_pre m +:+ m_text m)%string b) (m_post m) in
  matches r p [] q (m_groups m) /\ spans p q (m_text m) /\
  forall f, tail_plus f r -> stops f q /\ ended f q.

(** A match at [p] by itself. *)
Lemma rmatch_end r p x : rmatch r p [] (fun q c => Some (q, c)) = Some x ->
  matches r p [] x.1 x.2 /\ forall f, tail_plus f r -> stops f x.1 /\ ended f x.1.
Proof.
  intros E. split.
  - destruct (rmatch_sound _ _ _ _ _ E) as (q & d & Hm & Hq). injection Hq as <-. exact Hm.
  - intros f Hf. destruct (tail_plus_greedy f r Hf _ _ _ _ (fun p c (H : Some (p, c) = None) => match H with end) E) as (q & d & Hq & H).
    injection Hq as <-. exact H.
Qed.

Lemma search_at_found r : forall s b m, search_at r b s = Some m -> found_at r b s m.
Proof.
  assert (Hnow : forall b s q c, rmatch r (mkPos b s) [] (fun q c => Some (q, c)) = Some (q, c) ->
    found_at r b s (mkMatch "" (consumed (mkPos b s) q) c (pos_rest q))).
  { intros b s q c E. destruct (rmatch_end _ _ _ E) as [Hm Hf]. cbn [fst snd] in Hm, Hf.
    destruct (matches_spans _ _ _ _ _ Hm) as (t & Ht). rewrite (consumed_spans _ _ _ Ht). pose proof Ht as [A B].
    cbn [pos_rest pos_before] in A, B. unfold found_at. cbn [m_pre m_text m_post].
    replace (mkPos (or_before "" b) (t +:+ pos_rest q)%string) with (mkPos b s) by (rewrite A; reflexivity).
    replace (mkPos (or_before ("" +:+ t)%string b) (pos_rest q)) with q
      by (destruct q; cbn in *; unfold or_before; rewrite B; reflexivity).
    split; [exact A|]. auto. }
  induction s as [|a s IH]; intros b m H; cbn [search_at] in H.
  - destruct (rmatch r _ [] _) as [[q c]|] eqn:E; [|discriminate]. injection H as <-. exact (Hnow _ _ _ _ E).
  - destruct (rmatch r _ [] _) as [[q c]|] eqn:E; [injection H as <-; exact (Hnow _ _ _ _ E)|].
    destruct (search_at r (Some a) s) as [m'|] eqn:E'; [|discriminate]. injection H as <-.
    destruct (IH _ _ E') as (A & B). unfold found_at. cbn [m_pre m_text m_post].
    assert (Hb : forall t, or_before (String a t) b = or_before t (Some a)).
    { intros t. unfold or_before. rewrite Py.last_char_cons. destruct (Py.last_char t); reflexivity. }
    split; [cbn; f_equal; exact A|]. change (String a (m_pre m') +:+ m_text m')%string with (String a (m_pre m' +:+ m_text m')%string).
    rewrite !Hb. exact B.
Qed.

(** Nothing found: the pattern matches nowhere. *)
Lemma search_at_none r : forall s b, search_at r b s = None ->
  forall pre rest q d, s = (pre +:+ rest)%string -> ~ matches r (mkPos (or_before pre b) rest) [] q d.
Proof.
  assert (Hnow : forall p q d, rmatch r p [] (fun q c => Some (q, c)) = None -> ~ matches r p [] q d).
  { intros p q d E Hm. revert E. eapply rmatch_complete; [exact Hm|]. discriminate. }
  induction s as [|a s IH]; intros b H pre rest q d Hs; cbn [search_at] in H;
    destruct (rmatch r _ [] _) as [[x c]|] eqn:E; try discriminate.
  - destruct pre; [|discriminate]. cbn in Hs. subst rest. exact (Hnow _ q d E).
  - destruct (search_at r (Some a) s) as [m'|] eqn:E'; [discriminate|].
    destruct pre as [|a' pre]; [cbn in Hs; subst rest; exact (Hnow _ q d E)|]. injection Hs as <- Hs.
    replace (or_before (String a pre) b) with (or_before pre (Some a))
      by (unfold or_before; rewrite Py.last_char_cons; destruct (Py.last_char pre); reflexivity).
    exact (IH _ E' _ _ _ _ Hs).
Qed.

(** [re.search] finds a match exactly when there is one, and what it finds
    is one, leftmost positions first. *)
Lemma search_correct r s :
  match search r s with
  | Some m => found_at r None s m
  | None => forall pre rest q d, s = (pre +:+ rest)%string -> ~ matches r (mkPos (Py.last_char pre) rest) [] q d
  end.
Proof.
  unfold search. destruct (search_at r None s) as [m|] eqn:E; [exact (search_at_found r s None m E)|].
  intros pre rest q d Hs. pose proof (search_at_none r s None E pre rest q d Hs) as H.
  unfold or_before in H. destruct (Py.last_char pre); exact H.
Qed.

(** In a text that ends with a character out of [f], what follows a match of
    a pattern ending in [f+] is not empty, and starts out of [f]. *)
Lemma search_terminated r f s m last : tail_plus f r -> search r s = Some m ->
  Py.last_char s = Some last -> f last = false ->
  exists ch post, m_post m = String ch post /\ f ch = false.
Proof.
  intros Hf Hs Hl Hn. pose proof (search_correct r s) as H. rewrite Hs in H. destruct H as (A & _ & _ & H).
  destruct (H f Hf) as [H1 (ch & H2 & H3)]. unfold stops in H1. cbn [pos_rest pos_before] in H1, H2.
  destruct (m_post m) as [|c post] eqn:E.
  - exfalso. rewrite Py.append_nil_r in A. unfold or_before in H2. rewrite <- A, Hl in H2. congruence.
  - exists c, post. split; [reflexivity|]. apply H1. reflexivity.
Qed.

(** ** Reading a match back *)

Lemma lit_matches s : forall p c q d, matches (RLit s) p c q d -> d = c /\ spans p q s.
Proof.
  induction s as [|a s IH]; intros p c q d H; inversion H as [| |x y p' c' p1 d1 q' d' H1 H2| | | | | | | |]; subst.
  - split; [reflexivity|apply spans_refl].
  - inversion H1 as [f b a' s' c1 Hf| | | | | | | | | |]; subst. apply Ascii.eqb_eq in Hf. subst a'.
    destruct (IH _ _ _ _ H2) as [-> Hs]. split; [reflexivity|].
    apply spans_cons, Hs.
Qed.

(** A repeated class spans characters of it. *)
Lemma class_matches f p c q d : matches (RStar (RChr f)) p c q d -> d = c /\ exists t, spans p q t /\ Py.sforall f t = true.
Proof.
  intros H. remember (RStar (RChr f)) as r eqn:Er.
  induction H as [| | | | |a p c|a p c q d r' e Ha _ Hp _ IHs| | | |]; try discriminate; injection Er as ->.
  - split; [reflexivity|]. exists "". split; [apply spans_refl|reflexivity].
  - inversion Ha as [f' b ch s c' Hf| | | | | | | | | |]; subst. destruct (IHs eq_refl) as [-> (t & Ht & Hall)].
    split; [reflexivity|]. exists (String ch t). split; [apply spans_cons, Ht|].
    cbn. rewrite Hf. exact Hall.
Qed.

Lemma plus_matches f p c q d : matches (RPlus (RChr f)) p c q d ->
  d = c /\ exists t, spans p q t /\ t <> "" /\ Py.sforall f t = true.
Proof.
  intros H. inversion H as [| |x y p' c' p1 d1 q' d' H1 H2| | | | | | | |]; subst.
  inversion H1 as [f' b ch s c1 Hf| | | | | | | | | |]; subst. destruct (class_matches _ _ _ _ _ H2) as [-> (t & Ht & Hall)].
  split; [reflexivity|]. exists (String ch t). split; [apply spans_cons, Ht|].
  split; [discriminate|]. cbn. rewrite Hf. exact Hall.
Qed.

(** A group around one. *)
Lemma group_plus_matches n f p c q d : matches (RGroup n (RPlus (RChr f))) p c q d ->
  exists t, d = (n, t) :: c /\ spans p q t /\ t <> "" /\ Py.sforall f t = true.
Proof.
  intros H. inversion H as [| | | | | | |n' a p' c' q' d' Ha| | |]; subst.
  destruct (plus_matches _ _ _ _ _ Ha) as [-> (t & Ht & Hn & Hall)]. exists t. rewrite (consumed_spans _ _ _ Ht). auto.
Qed.

Lemma cat_matches a b p c r e : matches (RCat a b) p c r e -> exists q d, matches a p c q d /\ matches b q d r e.
Proof. intros H. inversion H; subst. eauto. Qed.

Lemma alt_matches a b p c q d : matches (RAlt a b) p c q d -> matches a p c q d \/ matches b p c q d.
Proof. intros H. inversion H; subst; auto. Qed.

Lemma wordb_matches p c q d : matches RWordB p c q d -> q = p /\ d = c /\ at_boundary p = true.
Proof. intros H. inversion H; subst. auto. Qed.
