(* ===== verification/Base64.v ===== *)
(** * Base64, as [base64.b64encode] and [b64decode(..., validate=True)] use it

    Bytes are 8-bit characters.  The decoder accepts whole groups of four,
    padding only at the end of the last one; a pad after a complete group,
    on which Python versions differ, is refused. *)

From S2P Require Import Prelude.

Definition b64_digit (v : Z) : ascii :=
  ascii_of_nat (Z.to_nat (if v <? 26 then 65 + v else if v <? 52 then 71 + v
                          else if v <? 62 then v - 4 else if v =? 62 then 43 else 47)).

Definition b64_value (c : ascii) : option Z :=
  let n := Z.of_nat (nat_of_ascii c) in
  if Py.between "A" c "Z" then Some (n - 65)
  else if Py.between "a" c "z" then Some (n - 71)
  else if Py.is_digit c then Some (n + 4)
  else if Ascii.eqb c "+" then Some 62
  else if Ascii.eqb c "/" then Some 63
  else None.

Definition byte_of (c : ascii) : Z := Z.of_nat (nat_of_ascii c).
Definition to_byte (v : Z) : ascii := ascii_of_nat (Z.to_nat (v mod 256)).

Fixpoint b64encode (s : string) : string :=
  match s with
  | "" => ""
  | String a "" =>
      String (b64_digit (byte_of a / 4)) (String (b64_digit (byte_of a mod 4 * 16)) "==")
  | String a (String b "") =>
      String (b64_digit (byte_of a / 4))
        (String (b64_digit (byte_of a mod 4 * 16 + byte_of b / 16))
           (String (b64_digit (byte_of b mod 16 * 4)) "="))
  | String a (String b (String c t)) =>
      String (b64_digit (byte_of a / 4))
        (String (b64_digit (byte_of a mod 4 * 16 + byte_of b / 16))
           (String (b64_digit (byte_of b mod 16 * 4 + byte_of c / 64))
              (String (b64_digit (byte_of c mod 64)) (b64encode t))))
  end.

Definition pad : ascii := "=".

(** The last group, when padded: one or two bytes. *)
Definition last_group (w x : Z) (y : ascii) : option string :=
  if Ascii.eqb y pad then Some (String (to_byte (w * 4 + x / 16)) "")
  else option_map (fun y => String (to_byte (w * 4 + x / 16)) (String (to_byte (x mod 16 * 16 + y / 4)) ""))
         (b64_value y).

Fixpoint b64decode (s : string) : option string :=
  match s with
  | "" => Some ""
  | String w (String x (String y (String z t))) =>
      match b64_value w, b64_value x with
      | Some w, Some x =>
          if Ascii.eqb z pad then match t with "" => last_group w x y | _ => None end
          else match b64_value y, b64_value z with
               | Some y, Some z =>
                   option_map (fun r => String (to_byte (w * 4 + x / 16))
                     (String (to_byte (x mod 16 * 16 + y / 4)) (String (to_byte (y mod 4 * 64 + z)) r)))
                     (b64decode t)
               | _, _ => None
               end
      | _, _ => None
      end
  | _ => None
  end.

(** ** The round trip and the lengths *)

Lemma b64_digit_value v : 0 <= v < 64 -> b64_value (b64_digit v) = Some v.
Proof.
  intros H. set (P v := match b64_value (b64_digit v) with Some u => u =? v | None => false end).
  assert (E : P v = true) by (apply (forall_zrange P 0 64); [by_eval|lia]).
  unfold P in E. destruct (b64_value (b64_digit v)) as [u|]; [|discriminate]. f_equal. lia.
Qed.

Lemma b64_digit_pad v : 0 <= v < 64 -> Ascii.eqb (b64_digit v) pad = false.
Proof.
  intros H. apply negb_true_iff.
  apply (forall_zrange (fun v => negb (Ascii.eqb (b64_digit v) pad)) 0 64); [by_eval|lia].
Qed.

Lemma byte_range c : 0 <= byte_of c < 256.
Proof. unfold byte_of. pose proof (nat_ascii_bounded c). lia. Qed.

Lemma to_byte_of c v : v = byte_of c -> to_byte v = c.
Proof.
  intros ->. unfold to_byte. pose proof (byte_range c). rewrite Z.mod_small by lia.
  unfold byte_of. rewrite Nat2Z.id. apply ascii_nat_embedding.
Qed.

(** Induction by groups of three characters. *)
Lemma three_ind (P : string -> Prop) : P "" -> (forall a, P (String a "")) ->
  (forall a b, P (String a (String b ""))) ->
  (forall a b c t, P t -> P (String a (String b (String c t)))) -> forall s, P s.
Proof.
  intros H0 H1 H2 H3. fix IH 1. intros [|a [|b [|c t]]].
  - exact H0.
  - exact (H1 a).
  - exact (H2 a b).
  - exact (H3 a b c t (IH t)).
Qed.

Lemma four_ind (P : string -> Prop) : P "" ->
  (forall w x y z t, P t -> P (String w (String x (String y (String z t))))) ->
  (forall s, (String.length s < 4)%nat -> P s) -> forall s, P s.
Proof.
  intros H0 H4 Hs. fix IH 1. intros [|w [|x [|y [|z t]]]].
  - exact H0.
  - apply Hs. cbn. lia.
  - apply Hs. cbn. lia.
  - apply Hs. cbn. lia.
  - exact (H4 w x y z t (IH t)).
Qed.

(** Division and remainder by constants, for [lia]. *)
#[local] Ltac Zify.zify_post_hook ::= Z.div_mod_to_equations.

Ltac b64_step :=
  rewrite !b64_digit_value by lia; rewrite ?b64_digit_pad by lia.

Lemma b64_roundtrip s : b64decode (b64encode s) = Some s.
Proof.
  induction s as [|a|a b|a b c t IH] using three_ind; [reflexivity| | |];
    cbn [b64encode b64decode]; pose proof (byte_range a) as Ha.
  - b64_step. change (Ascii.eqb "=" pad) with true. cbn match. unfold last_group.
    change (Ascii.eqb "=" pad) with true. cbn match. do 2 f_equal. apply to_byte_of. lia.
  - pose proof (byte_range b) as Hb. b64_step. change (Ascii.eqb "=" pad) with true. cbn match.
    unfold last_group. b64_step. cbn [option_map]. do 2 f_equal; [apply to_byte_of; lia|].
    f_equal. apply to_byte_of. lia.
  - pose proof (byte_range b) as Hb. pose proof (byte_range c) as Hc. b64_step. rewrite IH. cbn [option_map].
    f_equal. f_equal; [apply to_byte_of; lia|]. f_equal; [apply to_byte_of; lia|]. f_equal. apply to_byte_of. lia.
Qed.

Lemma slen_cons c s : Py.slen (String c s) = Py.slen s + 1.
Proof. unfold Py.slen. cbn [String.length]. lia. Qed.

Lemma slen_nonneg s : 0 <= Py.slen s.
Proof. unfold Py.slen. lia. Qed.

Lemma b64encode_length s : Py.slen (b64encode s) = 4 * ((Py.slen s + 2) / 3).
Proof.
  induction s as [|a|a b|a b c t IH] using three_ind; [reflexivity|reflexivity|reflexivity|].
  cbn [b64encode]. rewrite !slen_cons, IH. lia.
Qed.

(** Decoding gives three bytes a group, less the padding. *)
Lemma b64decode_length s : forall raw, b64decode s = Some raw -> 4 * Py.slen raw <= 3 * Py.slen s.
Proof.
  induction s as [|w x y z t IH|s Hs] using four_ind; intros raw.
  - intros [= <-]. reflexivity.
  - cbn [b64decode]. destruct (b64_value w) as [vw|]; [|discriminate].
    destruct (b64_value x) as [vx|]; [|discriminate]. rewrite !slen_cons. pose proof (slen_nonneg t).
    destruct (Ascii.eqb z pad).
    + destruct t; [|discriminate]. unfold last_group. destruct (Ascii.eqb y pad).
      * intros [= <-]. rewrite slen_cons. change (Py.slen "") with 0. lia.
      * destruct (b64_value y); [|discriminate]. intros [= <-]. rewrite !slen_cons. change (Py.slen "") with 0. lia.
    + destruct (b64_value y); [|discriminate]. destruct (b64_value z); [|discriminate].
      destruct (b64decode t) as [r|]; [|discriminate]. intros [= <-]. specialize (IH r eq_refl).
      rewrite !slen_cons. lia.
  - destruct s as [|w [|x [|y [|z t]]]]; try discriminate; [intros [= <-]; reflexivity|].
    cbn in Hs. lia.
Qed.
