(* ===== verification/Identity.v ===== *)
(** * [registry/identity.py]: announcements, the serial probe and chip identity

    The parser of the two announcement dialects, the [HELLO] probe over a
    scripted serial port (the port is the environment: whether it opens,
    and what each [readline] of each read window returns), the
    friendly-name codebook and the SWD device-id read with its one
    fallback.  Announcement lines are modelled after [decode("utf-8",
    "ignore")], as 8-bit strings. *)

From S2P Require Import Prelude Naming.
Local Open Scope py_scope.

Record ProbeResult := mkProbeResult {
  pr_role : string;
  pr_common_name : string;
  pr_device_name : string;
  pr_serial : string;
  pr_raw : string }.

#[export] Instance ProbeResult_eq_dec : EqDecision ProbeResult.
Proof. solve_decision. Defined.

Definition DAPLINK_VID_PID : Z * Z := (3368, 516).

Definition is_micro_bit_port (vid pid : option Z) : bool :=
  bool_decide ((vid, pid) = (Some (fst DAPLINK_VID_PID), Some (snd DAPLINK_VID_PID))).

Definition is_relay (role : option string) : bool :=
  match role with
  | None => false
  | Some "" => false
  | Some r => let upper := Py.upper r in Py.contains upper "RELAY" || Py.contains upper "BRIDGE"
  end.

Definition short_uid (uid : string) : string :=
  if 32 <=? Py.slen uid then Py.slice uid 16 24 else Py.last_n uid 8.

(** ** The friendly name *)

Definition NAME_CODEBOOK : list (list string) :=
  [["z"; "v"; "g"; "p"; "t"]; ["u"; "o"; "i"; "e"; "a"]; ["z"; "v"; "g"; "p"; "t"];
   ["u"; "o"; "i"; "e"; "a"]; ["z"; "v"; "g"; "p"; "t"]].

Fixpoint friendly_loop (idx : list nat) (n : Z) (letters : list string) : list string :=
  match idx with
  | [] => letters
  | i :: idx' =>
      let letter := nth (Z.to_nat (n mod 5)) (nth i NAME_CODEBOOK []) "" in
      friendly_loop idx' (n / 5) (<[(4 - i)%nat := letter]> letters)
  end.

Definition friendly_name (device_id : Z) : string :=
  let n := Z.land device_id 4294967295 in
  Py.join "" (friendly_loop [0; 1; 2; 3; 4]%nat n [""; ""; ""; ""; ""]).

(** ** The announcement parser *)

Definition parse_announcement (text : string) : option (string * string * string * string) :=
  if Py.startswith text "DEVICE:" then
    match Py.split_on ":" text with
    | _ :: p1 :: p2 :: p3 :: p4 :: tl => Some (p1, p2, p3, Py.join ":" (p4 :: tl))
    | _ => None
    end
  else if Py.startswith text "device " then
    match Py.split_ws text with
    | _ :: p1 :: p2 :: p3 :: p4 :: _ => Some (p1, p2, p3, p4)
    | _ => None
    end
  else None.

(** ** The probe *)

(** What one [readline()] does before the window's deadline. *)
Inductive read_event :=
| RLine (text : string)
| RTimeout
| RFail.

(** The port operations of a run, in order. *)
Inductive port_op := POpen | PProtect | PBreak | PSettle | PResetInput | PHello | PRead | PClose.

Record port_script := mkPortScript {
  open_ok : bool;                       (* [ser.open()] succeeds *)
  break_ok : bool;
  reset_ok : bool;
  write_ok : nat -> bool;               (* [write]/[flush] of the n-th HELLO *)
  window : nat -> list read_event }.    (* reads before the n-th deadline *)

Inductive window_end :=
| WFound (r : ProbeResult)
| WEnded (malformed_raw : option string)
| WRaised.

(** The [while time.monotonic() < deadline] loop of one window. *)
Fixpoint read_window (evs : list read_event) (malformed_raw : option string)
    (trace : list port_op) : window_end * list port_op :=
  match evs with
  | [] => (WEnded malformed_raw, trace)
  | RFail :: _ => (WRaised, trace ++ [PRead])
  | RTimeout :: evs' => read_window evs' malformed_raw (trace ++ [PRead])
  | RLine raw :: evs' =>
      let text := Py.strip raw in
      match text with
      | "" => read_window evs' malformed_raw (trace ++ [PRead])
      | _ =>
          match parse_announcement text with
          | Some (role, common_name, device_name, serial_no) =>
              (WFound (mkProbeResult role common_name device_name serial_no text),
               trace ++ [PRead])
          | None => read_window evs' (Some text) (trace ++ [PRead])
          end
      end
  end.

(** The [for attempt in range(2)] loop. *)
Fixpoint probe_attempts (s : port_script) (attempts : list nat) (malformed_raw : option string)
    (trace : list port_op) : window_end * list port_op :=
  match attempts with
  | [] => (WEnded malformed_raw, trace)
  | a :: rest =>
      if negb (write_ok s a) then (WRaised, trace ++ [PHello])
      else
        match read_window (window s a) malformed_raw (trace ++ [PHello]) with
        | (WEnded m, trace') => probe_attempts s rest m trace'
        | r => r
        end
  end.

Definition probe (s : port_script) (settle reset_first : bool)
    : option ProbeResult * list port_op :=
  if negb (open_ok s) then (None, [POpen])
  else
    let t0 := [POpen; PProtect] in
    let t1 := if reset_first then t0 ++ [PBreak] else t0 in
    if reset_first && negb (break_ok s) then (None, t1 ++ [PClose])
    else
      let t2 := if settle then t1 ++ [PSettle] else t1 in
      if negb (reset_ok s) then (None, t2 ++ [PResetInput; PClose])
      else
        match probe_attempts s [0; 1]%nat None (t2 ++ [PResetInput]) with
        | (WFound r, t) => (Some r, t ++ [PClose])
        | (WEnded (Some m), t) => (Some (mkProbeResult "" "" "" "" m), t ++ [PClose])
        | (WEnded None, t) => (None, t ++ [PClose])
        | (WRaised, t) => (None, t ++ [PClose])
        end.

(** ** The SWD read: [session target_override] is pyOCD, [None] a failure. *)

Definition DEFAULT_TARGET_MCU : string := "nrf52833".

Fixpoint read_device_id_overrides (session : option string -> option Z)
    (overrides : list (option string)) : option Z :=
  match overrides with
  | [] => None
  | o :: rest => match session o with
                 | Some v => Some v
                 | None => read_device_id_overrides session rest
                 end
  end.

Definition read_device_id_inproc (session : option string -> option Z) (target_mcu : string)
    : option Z :=
  read_device_id_overrides session [Some target_mcu; None].

Definition read_chip_identity (session : option string -> option Z) (target_mcu : string)
    : option (string * Z) :=
  match read_device_id_inproc session target_mcu with
  | None => None
  | Some device_id => Some (friendly_name device_id, device_id)
  end.

(** ** Lemmas *)

#[export] Instance port_op_eq_dec : EqDecision port_op.
Proof. solve_decision. Defined.

(** How many [HELLO]s a run sent. *)
Definition hellos (t : list port_op) : nat := length (filter (fun o => o = PHello) t).

Lemma hellos_app t1 t2 : hellos (t1 ++ t2) = (hellos t1 + hellos t2)%nat.
Proof. unfold hellos. rewrite filter_app, length_app. reflexivity. Qed.

(** The non-blank lines of a window, stripped. *)
Fixpoint lines_of (evs : list read_event) : list string :=
  match evs with
  | [] => []
  | RLine raw :: evs' => match Py.strip raw with "" => lines_of evs' | t => t :: lines_of evs' end
  | _ :: evs' => lines_of evs'
  end.

Definition parseable (text : string) : bool :=
  match parse_announcement text with Some _ => true | None => false end.

Definition result_of_line (text : string) : ProbeResult :=
  match parse_announcement text with
  | Some (r, c, n, s) => mkProbeResult r c n s text
  | None => mkProbeResult "" "" "" "" text
  end.

Definition never_fails (evs : list read_event) : bool :=
  forallb (fun e => match e with RFail => false | _ => true end) evs.

Definition last_or (l : list string) (d : option string) : option string :=
  match last l with Some x => Some x | None => d end.

Lemma last_or_cons t l d : last_or (t :: l) d = last_or l (Some t).
Proof.
  unfold last_or. destruct l as [|u l]; [reflexivity|]. change (last (t :: u :: l)) with (last (u :: l)).
  destruct (last (u :: l)) eqn:E; [reflexivity|]. apply last_None in E. discriminate.
Qed.

(** Reading a window appends only reads to the trace. *)
Lemma read_window_trace evs m t : exists n, snd (read_window evs m t) = t ++ repeat PRead n.
Proof.
  revert m t. induction evs as [|[raw| |] evs IH]; intros m t.
  - exists O. rewrite app_nil_r. reflexivity.
  - assert (Hs : forall m', exists n, snd (read_window evs m' (t ++ [PRead])) = t ++ repeat PRead n).
    { intros m'. destruct (IH m' (t ++ [PRead])) as [n Hn]. exists (S n). rewrite Hn, <- app_assoc. reflexivity. }
    cbn [read_window]. destruct (Py.strip raw) as [|c r] eqn:E; [apply Hs|].
    destruct (parse_announcement (String c r)) as [[[[? ?] ?] ?]|]; [exists 1%nat; reflexivity|apply Hs].
  - destruct (IH m (t ++ [PRead])) as [n Hn]. exists (S n). cbn [read_window].
    rewrite Hn, <- app_assoc. reflexivity.
  - exists 1%nat. reflexivity.
Qed.

Lemma hellos_reads n : hellos (repeat PRead n) = O.
Proof. induction n; [reflexivity|exact IHn]. Qed.

Lemma read_window_hellos evs m t : hellos (snd (read_window evs m t)) = hellos t.
Proof. destruct (read_window_trace evs m t) as [n ->]. rewrite hellos_app, hellos_reads. lia. Qed.

(** A window without failures finds its first parseable line, else ends
    with the last unparseable one. *)
Lemma read_window_result evs m t : never_fails evs = true ->
  fst (read_window evs m t) =
  match List.find parseable (lines_of evs) with
  | Some l => WFound (result_of_line l)
  | None => WEnded (last_or (lines_of evs) m)
  end.
Proof.
  revert m t. induction evs as [|[raw| |] evs IH]; intros m t H; cbn [read_window lines_of];
    [reflexivity| |exact (IH _ _ H)|discriminate].
  destruct (Py.strip raw) as [|c r] eqn:E; [exact (IH _ _ H)|].
  cbn [List.find]. unfold parseable at 1, result_of_line.
  destruct (parse_announcement (String c r)) as [[[[? ?] ?] ?]|] eqn:P; [rewrite P; reflexivity|].
  rewrite last_or_cons. exact (IH _ _ H).
Qed.

(** The blank-field result a run ends with when nothing parsed. *)
Definition ended_result (m : option string) : option ProbeResult :=
  option_map (mkProbeResult "" "" "" "") m.

Definition attempt_result (s : port_script) : option ProbeResult :=
  match List.find parseable (lines_of (window s 0) ++ lines_of (window s 1)) with
  | Some l => Some (result_of_line l)
  | None => ended_result (last (lines_of (window s 0) ++ lines_of (window s 1)))
  end.

Lemma probe_attempts_trace s att m t : exists u,
  snd (probe_attempts s att m t) = t ++ u /\ (hellos u <= length att)%nat.
Proof.
  revert m t. induction att as [|a att IH]; intros m t; cbn [probe_attempts].
  - exists []. rewrite app_nil_r. split; [reflexivity|apply Nat.le_refl].
  - destruct (negb (write_ok s a)).
    + exists [PHello]. split; [reflexivity|]. change (hellos [PHello]) with 1%nat. cbn [length]. lia.
    + destruct (read_window_trace (window s a) m (t ++ [PHello])) as [n Hn].
      destruct (read_window (window s a) m (t ++ [PHello])) as [w t'] eqn:E.
      cbn [snd] in Hn. rewrite <- app_assoc in Hn.
      assert (Hh : hellos ([PHello] ++ repeat PRead n) = 1%nat)
        by (rewrite hellos_app, hellos_reads; reflexivity).
      destruct w; cbn [snd]; try (eexists; split; [exact Hn|]; rewrite Hh; cbn [length]; lia).
      destruct (IH malformed_raw t') as (u & -> & Hu). rewrite Hn.
      exists (([PHello] ++ repeat PRead n) ++ u). rewrite !app_assoc. split; [reflexivity|].
      rewrite hellos_app, Hh. cbn [length]. lia.
Qed.

Lemma last_app_or (l1 l2 : list string) d : last_or l2 (last_or l1 d) = last_or (l1 ++ l2) d.
Proof.
  revert d. induction l1 as [|x l1 IH]; intros d; [reflexivity|].
  cbn [app]. rewrite !last_or_cons. apply IH.
Qed.

Lemma find_app {A} (P : A -> bool) l1 l2 : List.find P (l1 ++ l2) =
  match List.find P l1 with Some x => Some x | None => List.find P l2 end.
Proof. induction l1 as [|x l1 IH]; [reflexivity|]. simpl. destruct (P x); [reflexivity|exact IH]. Qed.

(** The splitting of a word followed by a separator. *)
Lemma split_ws_aux_word tok cur rest : Py.sexists Py.is_space tok = false ->
  (cur +:+ tok)%string <> "" ->
  Py.split_ws_aux cur (tok +:+ String " " rest)%string = (cur +:+ tok)%string :: Py.split_ws rest.
Proof.
  revert cur. induction tok as [|c tok IH]; intros cur H Hn.
  - rewrite Py.append_nil_r in *. simpl. destruct cur; [congruence|reflexivity].
  - simpl in H. apply orb_false_iff in H as [H1 H2]. simpl. rewrite H1, IH; [|exact H2|].
    + rewrite <- Py.append_assoc. reflexivity.
    + destruct cur; discriminate.
Qed.

Definition word (s : string) : Prop := s <> "" /\ Py.sexists Py.is_space s = false.

Lemma split_ws_word tok rest : word tok ->
  Py.split_ws (tok +:+ String " " rest)%string = tok :: Py.split_ws rest.
Proof. intros [Hn Hs]. unfold Py.split_ws at 1. apply split_ws_aux_word; assumption. Qed.

Lemma split_ws_last tok : word tok -> Py.split_ws tok = [tok].
Proof.
  intros [Hn Hs]. unfold Py.split_ws.
  assert (H : forall cur, (cur +:+ tok)%string <> "" ->
    Py.split_ws_aux cur tok = [(cur +:+ tok)%string]).
  { clear Hn. induction tok as [|c tok IH]; intros cur Hc; simpl.
    - rewrite Py.append_nil_r in *. destruct cur; [congruence|reflexivity].
    - simpl in Hs. apply orb_false_iff in Hs as [H1 H2]. rewrite H1.
      rewrite IH; [|exact H2|destruct cur; discriminate].
      rewrite <- Py.append_assoc. reflexivity. }
  exact (H "" Hn).
Qed.

Lemma friendly_digit i n : (i < 5)%nat -> exists c,
  nth (Z.to_nat (n mod 5)) (nth i NAME_CODEBOOK []) "" = String c "" /\
  char_at (alphabet (4 - Z.of_nat i)) (n mod 5) = Ok c.
Proof.
  intros Hi. assert (H : 0 <= n mod 5 < 5) by (apply Z.mod_pos_bound; lia).
  generalize dependent (n mod 5). intros r Hr.
  assert (r = 0 \/ r = 1 \/ r = 2 \/ r = 3 \/ r = 4) as [->|[->|[->|[->| ->]]]] by lia;
    destruct i as [|[|[|[|[|]]]]]; try lia; eexists; split; reflexivity.
Qed.

(** The shape of every run's trace once the port opened. *)
Lemma probe_trace s settle reset_first : open_ok s = true -> exists u,
  snd (probe s settle reset_first) =
    [POpen; PProtect] ++ (if reset_first then [PBreak] else []) ++ u ++ [PClose] /\
  (hellos u <= 2)%nat.
Proof.
  intros Ho. unfold probe. rewrite Ho. cbn [negb].
  destruct (reset_first && negb (break_ok s)) eqn:Hb.
  { exists []. destruct reset_first; [|discriminate]. split; [reflexivity|]. cbn. lia. }
  destruct (negb (reset_ok s)).
  { exists ((if settle then [PSettle] else []) ++ [PResetInput]).
    destruct reset_first, settle; (split; [reflexivity|vm_compute; lia]). }
  set (t := (_ ++ [PResetInput])).
  destruct (probe_attempts_trace s [0; 1]%nat None t) as (u & Hu & Hh). cbn [length] in Hh.
  exists ((if settle then [PSettle] else []) ++ [PResetInput] ++ u).
  split; [|rewrite !hellos_app; destruct settle; change (hellos [PResetInput]) with O;
           [change (hellos [PSettle]) with O|change (hellos []) with O]; lia].
  transitivity (t ++ u ++ [PClose]); [|subst t; destruct reset_first, settle; reflexivity].
  rewrite app_assoc, <- Hu.
  destruct (probe_attempts s [0; 1]%nat None t) as [w t']. cbn [snd].
  destruct w as [r|[m|]|]; reflexivity.
Qed.

(** ** Properties *)

(** Both announcement dialects parse to their four fields: the relay
    line whatever its serial contains (a serial with colons is rejoined),
    the robot line up to its fourth field whatever follows, and a line with
    neither sentinel parses to nothing. *)
Theorem parse_announcement_dialects :
  (forall role common name serial,
     Py.sexists (Ascii.eqb ":") role = false -> Py.sexists (Ascii.eqb ":") common = false ->
     Py.sexists (Ascii.eqb ":") name = false ->
     parse_announcement ("DEVICE:" +:+ role +:+ ":" +:+ common +:+ ":" +:+ name +:+ ":" +:+ serial)
     = Some (role, common, name, serial)) /\
  (forall role common name serial tail,
     word role -> word common -> word name -> word serial ->
     parse_announcement ("device " +:+ role +:+ " " +:+ common +:+ " " +:+ name +:+ " " +:+ serial)
     = Some (role, common, name, serial) /\
     parse_announcement
       ("device " +:+ role +:+ " " +:+ common +:+ " " +:+ name +:+ " " +:+ serial +:+ " " +:+ tail)
     = Some (role, common, name, serial)) /\
  (forall text, Py.startswith text "DEVICE:" = false -> Py.startswith text "device " = false ->
     parse_announcement text = None).
Proof.
  split; [|split].
  - intros role common name serial Hr Hc Hn. unfold parse_announcement.
    rewrite Py.startswith_app.
    assert (E1 : forall x, "DEVICE:" +:+ x = "DEVICE" +:+ String ":" x) by reflexivity.
    assert (E2 : forall x, ":" +:+ x = String ":" x) by reflexivity.
    rewrite E1, !E2, Py.split_on_app by reflexivity.
    rewrite !Py.split_on_app by assumption.
    pose proof (Py.join_split_on ":" serial) as J. pose proof (Py.split_on_nonempty ":" serial).
    destruct (Py.split_on ":" serial) as [|p ps]; [congruence|].
    change (String ":" "") with ":" in J. rewrite J. reflexivity.
  - intros role common name serial tail Hr Hc Hn Hs. unfold parse_announcement.
    assert (E : forall x, Py.startswith ("device " +:+ x) "DEVICE:" = false) by reflexivity.
    rewrite !E, !Py.startswith_app.
    assert (E1 : forall x, "device " +:+ x = "device" +:+ String " " x) by reflexivity.
    assert (E2 : forall x, " " +:+ x = String " " x) by reflexivity.
    rewrite !E1, !E2.
    assert (Hd : word "device") by (split; [discriminate|reflexivity]).
    rewrite !split_ws_word, split_ws_last by assumption. split; reflexivity.
  - intros text H1 H2. unfold parse_announcement. rewrite H1, H2. reflexivity.
Qed.

(** on a port that works, a probe returns the first line, over the two
    read windows in order, that parses in either dialect; with none, the
    last non-blank line with blank fields; with no line at all, nothing.
    The second [HELLO] is sent only when the first window had no parseable
    line. *)
Theorem probe_result s settle reset_first :
  open_ok s = true -> break_ok s = true -> reset_ok s = true ->
  write_ok s 0%nat = true -> write_ok s 1%nat = true ->
  never_fails (window s 0) = true -> never_fails (window s 1) = true ->
  fst (probe s settle reset_first) = attempt_result s /\
  hellos (snd (probe s settle reset_first)) =
    if List.find parseable (lines_of (window s 0)) then 1%nat else 2%nat.
Proof.
  intros Ho Hb Hr Hw0 Hw1 H0 H1. unfold probe. rewrite Ho, Hr, Hb. cbn [negb].
  rewrite andb_false_r. cbv zeta. set (t := (_ ++ [PResetInput])).
  assert (Ht : hellos t = O) by (subst t; destruct reset_first, settle; reflexivity).
  cbn [probe_attempts]. rewrite Hw0. cbn [negb].
  pose proof (read_window_result (window s 0) None (t ++ [PHello]) H0) as R0.
  pose proof (read_window_hellos (window s 0) None (t ++ [PHello])) as T0.
  destruct (read_window (window s 0) None (t ++ [PHello])) as [w0 t0]. cbn [fst snd] in R0, T0.
  rewrite hellos_app, Ht in T0. unfold attempt_result. rewrite find_app.
  destruct (List.find parseable (lines_of (window s 0))) as [l|]; subst w0.
  - cbn [fst snd]. rewrite hellos_app, T0. auto.
  - rewrite Hw1. cbn [negb].
    pose proof (read_window_result (window s 1) (last_or (lines_of (window s 0)) None) (t0 ++ [PHello]) H1) as R1.
    pose proof (read_window_hellos (window s 1) (last_or (lines_of (window s 0)) None) (t0 ++ [PHello])) as T1.
    destruct (read_window (window s 1) _ (t0 ++ [PHello])) as [w1 t1]. cbn [fst snd] in R1, T1.
    rewrite hellos_app, T0 in T1. rewrite last_app_or in R1.
    destruct (List.find parseable (lines_of (window s 1))) as [l|]; subst w1.
    + cbn [fst snd]. rewrite hellos_app, T1. auto.
    + unfold last_or. destruct (last (lines_of (window s 0) ++ lines_of (window s 1))); cbn [fst snd ended_result option_map];
        rewrite hellos_app, T1; auto.
Qed.

Definition example_port : port_script := {|
  open_ok := true; break_ok := true; reset_ok := true; write_ok := fun _ => true;
  window := fun a => match a with
                     | O => [RTimeout; RLine "garbage"]
                     | _ => [RLine "device NEZHA2 robot vevov 1198504156"]
                     end |}.

Lemma probe_result_witness :
  fst (probe example_port true true) = attempt_result example_port /\
  hellos (snd (probe example_port true true)) =
    if List.find parseable (lines_of (window example_port 0)) then 1%nat else 2%nat.
Proof. apply (probe_result example_port true true); reflexivity. Defined.

(** Whatever the port does, a probe that opened it closes it as its
    last operation, sends at most two [HELLO]s, and with [reset_first]
    breaks before anything else is sent or read; a port that does not open
    is left alone. *)
Theorem probe_discipline s settle reset_first :
  let t := snd (probe s settle reset_first) in
  (hellos t <= 2)%nat /\
  if open_ok s then
    last t = Some PClose /\
    (if reset_first then exists u, t = [POpen; PProtect; PBreak] ++ u else True)
  else probe s settle reset_first = (None, [POpen]).
Proof.
  cbv zeta. destruct (open_ok s) eqn:Ho.
  - destruct (probe_trace s settle reset_first Ho) as (u & -> & Hu). split; [|split].
    + rewrite !hellos_app. change (hellos [PClose]) with O. change (hellos [POpen; PProtect]) with O.
      destruct reset_first; [change (hellos [PBreak]) with O|change (hellos []) with O]; lia.
    + rewrite !app_assoc. apply last_snoc.
    + destruct reset_first; [|exact I]. exists (u ++ [PClose]). reflexivity.
  - unfold probe. rewrite Ho. split; [vm_compute; lia|reflexivity].
Qed.

(** The friendly name the daemon derives from a chip's 32-bit device id
    is the radio-address name of that id modulo 3125, so it always is a
    well-formed name with a default radio address. *)
Theorem friendly_name_is_encode device_id :
  encode ((device_id mod 2 ^ 32) mod SPACE) = Ok (friendly_name device_id).
Proof.
  unfold friendly_name. change 4294967295 with (Z.ones 32). rewrite Z.land_ones by lia.
  generalize (Z.mod_pos_bound device_id (2 ^ 32) eq_refl). generalize (device_id mod 2 ^ 32).
  intros n Hn. unfold SPACE, NAME_LEN. change (5 ^ 5) with 3125.
  assert (Hm : 0 <= n mod 3125 < 3125) by (apply Z.mod_pos_bound; lia).
  unfold encode. rewrite (proj2 (Z.leb_le 0 _)) by lia.
  rewrite (proj2 (Z.ltb_lt _ SPACE)) by (unfold SPACE, NAME_LEN; lia). cbn [negb andb encode_loop].
  assert (E0 : (n mod 3125) mod 5 = n mod 5) by (Z.div_mod_to_equations; lia).
  assert (E1 : (n mod 3125) / 5 mod 5 = n / 5 mod 5) by (Z.div_mod_to_equations; lia).
  assert (E2 : (n mod 3125) / 5 / 5 mod 5 = n / 5 / 5 mod 5) by (Z.div_mod_to_equations; lia).
  assert (E3 : (n mod 3125) / 5 / 5 / 5 mod 5 = n / 5 / 5 / 5 mod 5) by (Z.div_mod_to_equations; lia).
  assert (E4 : (n mod 3125) / 5 / 5 / 5 / 5 mod 5 = n / 5 / 5 / 5 / 5 mod 5)
    by (Z.div_mod_to_equations; lia).
  rewrite E0, E1, E2, E3, E4. cbn [friendly_loop].
  destruct (friendly_digit 0 n) as (c0 & F0 & G0); [lia|].
  destruct (friendly_digit 1 (n / 5)) as (c1 & F1 & G1); [lia|].
  destruct (friendly_digit 2 (n / 5 / 5)) as (c2 & F2 & G2); [lia|].
  destruct (friendly_digit 3 (n / 5 / 5 / 5)) as (c3 & F3 & G3); [lia|].
  destruct (friendly_digit 4 (n / 5 / 5 / 5 / 5)) as (c4 & F4 & G4); [lia|].
  rewrite F0, F1, F2, F3, F4.
  rewrite (G0 : char_at (alphabet 4) _ = _); cbn [result_bind].
  rewrite (G1 : char_at (alphabet 3) _ = _); cbn [result_bind].
  rewrite (G2 : char_at (alphabet 2) _ = _); cbn [result_bind].
  rewrite (G3 : char_at (alphabet 1) _ = _); cbn [result_bind].
  rewrite (G4 : char_at (alphabet 0) _ = _). reflexivity.
Qed.
