(* ===== verification/Worker.v ===== *)
(** * [registry/identity.py]: the programs it runs

    The device id read in a worker process, so that the probe's interface
    is let go of when the worker ends, and the name of the process that
    holds a port.  A process is what it answered: its exit code and its
    standard output, or that it could not be run or took too long. *)

From S2P Require Import Prelude Naming Json Identity.
Local Open Scope py_scope.

(** [subprocess.run(cmd, capture_output=True, text=True, timeout=...)]. *)
Definition processes : Type := list string -> option (Z * string).

(** [_main], without [argparse]: the exit code and what is printed. *)
Definition identity_main (session : option string -> option Z) (target : string) : Z * string :=
  match read_device_id_inproc session target with
  | None => (1, "")
  | Some device_id => (0, pretty device_id +:+ newline)%string
  end.

Definition worker_command (executable uid target_mcu : string) : list string :=
  [executable; "-m"; "mbtools.registry.identity"; "--read-device-id"; uid; "--target"; target_mcu].

Definition read_device_id_subprocess (run : processes) (executable uid target_mcu : string) : option Z :=
  match run (worker_command executable uid target_mcu) with
  | None => None
  | Some (_, stdout) =>
      let out := Py.strip stdout in
      if String.eqb out "" then None
      else match int_of_str out with Ok v => Some v | Err _ => None end
  end.

(** [pyocd]: can it be imported. *)
Definition read_device_id (pyocd : bool) (run : processes) (executable uid target_mcu : string)
    (session_factory : option (option string -> option Z)) : option Z :=
  match session_factory with
  | Some session => read_device_id_inproc session target_mcu
  | None => if pyocd then read_device_id_subprocess run executable uid target_mcu else None
  end.

(** ** The holder of a port *)

Definition run_text (run : processes) (cmd : list string) : string :=
  match run cmd with Some (_, stdout) => stdout | None => "" end.

Definition holder_text (run : processes) (pid : string) : string :=
  let command := Py.stake 60 (Py.strip (run_text run ["ps"; "-o"; "command="; "-p"; pid])) in
  ((if String.eqb command "" then "?" else command) +:+ " (pid " +:+ pid +:+ ")")%string.

Definition port_holder (run : processes) (port : string) : string :=
  let holders := map (holder_text run) (take 3 (Py.split_ws (run_text run ["lsof"; "-t"; port]))) in
  let text := Py.join ", " holders in
  if String.eqb text "" then "another program" else text.

(** ** Properties *)

Lemma printed_number d : 0 <= d -> let out := Py.strip (pretty d +:+ newline)%string in out <> "" /\ int_of_str out = Ok d.
Proof.
  intros Hd. cbv zeta. assert (E : Py.strip (pretty d +:+ newline)%string = pretty d).
  { unfold Py.strip. rewrite rstrip_app_blank by reflexivity.
    exact (strip_spaceless _ (digit_not_space _ (pretty_digits d Hd))). }
  rewrite E. pose proof (int_of_str_pretty d Hd) as I. split; [|exact I]. intros X. rewrite X in I. discriminate.
Qed.

(** What the worker reads of a 32-bit register arrives in the daemon: to a
    process table in which the command is the worker, the read in a process
    of its own is the read in this one. *)
Theorem worker_reads run executable uid target session :
  (forall o v, session o = Some v -> 0 <= v) ->
  run (worker_command executable uid target) = Some (identity_main session target) ->
  read_device_id true run executable uid target None = read_device_id true run executable uid target (Some session).
Proof.
  intros Hs Hr. unfold read_device_id, read_device_id_subprocess. rewrite Hr. unfold identity_main.
  destruct (read_device_id_inproc session target) as [d|] eqn:E; [|reflexivity].
  assert (Hd : 0 <= d).
  { unfold read_device_id_inproc in E. cbn in E. destruct (session (Some target)) as [v|] eqn:E1; [simplify_eq; eauto|].
    destruct (session None) as [v|] eqn:E2; [simplify_eq; eauto|discriminate]. }
  destruct (printed_number d Hd) as [Hn I]. apply String.eqb_neq in Hn. rewrite Hn, I. reflexivity.
Qed.

Lemma worker_reads_witness :
  let session (o : option string) := match o with None => Some 2314287040 | Some _ => None end in
  read_device_id true (fun _ => Some (identity_main session "nrf52833")) "python" "9904" "nrf52833" None = Some 2314287040.
Proof.
  cbv zeta. rewrite (worker_reads _ _ _ _ (fun o => match o with None => Some 2314287040 | Some _ => None end)).
  - reflexivity.
  - intros [o|] v H; [discriminate|]. injection H as <-. lia.
  - reflexivity.
Defined.

(** The exit code of the worker is not looked at, so a number printed by one
    that failed is taken for a device id. *)
Example failed_worker_read : read_device_id_subprocess (fun _ => Some (1, "7")) "python" "9904" "nrf52833" = Some 7.
Proof. reflexivity. Qed.

(** Nothing a process answers leaves the holder's name blank, and a machine
    without either program has a generic one. *)
Lemma port_holder_named run port : port_holder run port <> "".
Proof. unfold port_holder. destruct (String.eqb _ "") eqn:E; [discriminate|]. apply String.eqb_neq in E. exact E. Qed.

Example busy_port : forall run : processes,
  run ["lsof"; "-t"; "COM3"] = Some (0, "41" +:+ newline)%string ->
  run ["ps"; "-o"; "command="; "-p"; "41"] = Some (0, "screen COM3" +:+ newline)%string ->
  port_holder run "COM3" = "screen COM3 (pid 41)".
Proof.
  intros run H1 H2. unfold port_holder, holder_text, run_text. rewrite H1.
  change (take 3 _) with ["41"]. cbn [map]. rewrite H2. reflexivity.
Qed.
