(* ===== verification/UniversalHex.v ===== *)
(** * [registry/universal_hex.py]: micro:bit Universal Hex files

    The reduction of a two-image file to the Intel hex of one chip, on the
    text the file decodes to.  Characters are 8-bit: the replacement
    character of an undecodable byte is any character outside ASCII.
    [normalized_hex], which reads and writes files, is in [Flash.v]. *)

From S2P Require Import Prelude.
Local Open Scope py_scope.

Definition BLOCK_START : Z := 10.
Definition BLOCK_END : Z := 11.
Definition PADDED_DATA : Z := 12.
Definition CUSTOM_DATA : Z := 13.
Definition OTHER_DATA : Z := 14.
Definition DATA : Z := 0.
Definition EOF : Z := 1.
Definition EXT_LINEAR_ADDR : Z := 4.
Definition V1_BOARD_IDS : list Z := [39168; 39169].
Definition V2_BOARD_IDS : list Z := [39171; 39172; 39173; 39174].

(** ** Python's conversions on hexadecimal text *)

Definition hex_value (c : ascii) : option Z :=
  let n := Z.of_nat (nat_of_ascii c) in
  if Py.between "0" c "9" then Some (n - 48)
  else if Py.between "a" c "f" then Some (n - 87)
  else if Py.between "A" c "F" then Some (n - 55)
  else None.

(** Hexadecimal digits, each two separated by at most one underscore. *)
Fixpoint hex_digits_value (acc : Z) (need_digit : bool) (s : string) : option Z :=
  match s with
  | "" => if need_digit then None else Some acc
  | String c s' =>
      match hex_value c with
      | Some v => hex_digits_value (acc * 16 + v) false s'
      | None => if Ascii.eqb c "_" && negb need_digit then hex_digits_value acc true s' else None
      end
  end.

(** Digits after an optional [0x], which an underscore may follow. *)
Definition prefixed_hex (s : string) : option Z :=
  match s with
  | String "0" (String "x" (String "_" u)) | String "0" (String "X" (String "_" u))
  | String "0" (String "x" u) | String "0" (String "X" u) => hex_digits_value 0 true u
  | _ => hex_digits_value 0 true s
  end.

(** [int(s, 16)]. *)
Definition int16 (s : string) : result Z :=
  let value := match Py.strip s with
               | String "-" t => option_map Z.opp (prefixed_hex t)
               | String "+" t => prefixed_hex t
               | t => prefixed_hex t
               end in
  match value with Some v => Ok v | None => Err ValueError end.

(** The whitespace [bytes.fromhex] skips. *)
Definition c_space (c : ascii) : bool :=
  let n := nat_of_ascii c in ((9 <=? n)%nat && (n <=? 13)%nat) || (n =? 32)%nat.

(** [bytearray.fromhex(s)]. *)
Fixpoint fromhex (s : string) : result (list Z) :=
  match s with
  | "" => Ok []
  | String c s' =>
      if c_space c then fromhex s'
      else match hex_value c, s' with
           | Some h, String d s'' =>
               match hex_value d with
               | Some l => let! r := fromhex s'' in Ok (h * 16 + l :: r)
               | None => Err ValueError
               end
           | _, _ => Err ValueError
           end
  end.

(** [raw.hex().upper()]. *)
Definition hex_upper (raw : list Z) : string :=
  fold_right (fun b s => String (Py.hex_digit true (b / 16)) (String (Py.hex_digit true (b mod 16)) s))
    "" raw.

(** The line boundaries of [str.splitlines] on 8-bit characters. *)
Definition is_line_break (c : ascii) : bool :=
  let n := nat_of_ascii c in
  ((10 <=? n)%nat && (n <=? 13)%nat) || ((28 <=? n)%nat && (n <=? 30)%nat) || (n =? 133)%nat.

Definition cr : ascii := "013".
Definition lf : ascii := "010".

Fixpoint splitlines_aux (cur : string) (after_cr : bool) (s : string) : list string :=
  match s with
  | "" => if String.eqb cur "" then [] else [cur]
  | String c s' =>
      if after_cr && Ascii.eqb c lf then splitlines_aux cur false s'
      else if is_line_break c then cur :: splitlines_aux "" (Ascii.eqb c cr) s'
      else splitlines_aux (cur +:+ String c "")%string false s'
  end.

(** [s.splitlines()]. *)
Definition splitlines (s : string) : list string := splitlines_aux "" false s.

(** ** The module *)

Definition record_type (line : string) : option Z :=
  let line := Py.strip line in
  if negb (Py.startswith line ":") || (Py.slen line <? 11) then None
  else match int16 (Py.slice line 7 9) with Ok t => Some t | Err _ => None end.

Definition has_type (t : Z) (line : string) : bool := bool_decide (record_type line = Some t).

Definition is_universal_hex (text : string) : bool :=
  existsb (has_type BLOCK_START) (splitlines text).

Definition board_ids_for_mcu (target_mcu : string) : result (list Z) :=
  let mcu := Py.lower target_mcu in
  if Py.startswith mcu "nrf51" then Ok V1_BOARD_IDS
  else if Py.startswith mcu "nrf52" then Ok V2_BOARD_IDS
  else Err UniversalHexError.

(** [s[1:-2]]. *)
Definition inner (s : string) : string := Py.slice s 1 (String.length s - 2).

Definition checksum (raw : list Z) : Z := Z.land (- fold_right Z.add 0 raw) 255.

Definition retype (line : string) (new_type : Z) : result string :=
  let! raw := fromhex (inner (Py.strip line)) in
  if (length raw <=? 3)%nat then Err IndexError
  else
    let raw := <[3%nat := new_type]> raw in
    Ok (":" +:+ hex_upper raw +:+ hex_upper [checksum raw])%string.

(** The grouping loop: [current_id], [current] and [blocks] as the code
    keeps them. *)
Definition hex_block : Type := option Z * list string.

Fixpoint group_blocks (lines : list string) (current_id : option Z) (current : list string)
    (blocks : list hex_block) : result (list hex_block) :=
  match lines with
  | [] => Ok (blocks ++ [(current_id, current)])
  | line :: rest =>
      if has_type BLOCK_START line then
        let '(carried, kept) := match last current with
                                | Some e => if has_type EXT_LINEAR_ADDR e then ([e], removelast current)
                                            else ([], current)
                                | None => ([], current)
                                end in
        let! id := int16 (Py.slice line 9 13) in
        group_blocks rest (Some id) carried (blocks ++ [(current_id, kept)])
      else group_blocks rest current_id (current ++ [line]) blocks
  end.

Definition DROPPED : list Z := [BLOCK_END; PADDED_DATA; OTHER_DATA; EOF].

(** What one line of a wanted block adds to [out]. *)
Definition emit (line : string) : result (list string) :=
  match record_type line with
  | None => Ok []
  | Some t => if t =? CUSTOM_DATA then let! l := retype line DATA in Ok [l]
              else if existsb (Z.eqb t) DROPPED then Ok []
              else Ok [line]
  end.

Fixpoint emit_all (lines : list string) : result (list string) :=
  match lines with
  | [] => Ok []
  | l :: ls => let! o := emit l in let! os := emit_all ls in Ok (o ++ os)
  end.

Definition wants (wanted : list Z) (board_id : option Z) : bool :=
  match board_id with Some b => existsb (Z.eqb b) wanted | None => false end.

Fixpoint emit_blocks (wanted : list Z) (blocks : list hex_block) : result (list string) :=
  match blocks with
  | [] => Ok []
  | (board_id, block) :: bs =>
      let! o := (if wants wanted board_id then emit_all block else Ok []) in
      let! os := emit_blocks wanted bs in Ok (o ++ os)
  end.

Definition EOF_RECORD : string := ":00000001FF".
Definition newline : string := String lf "".

(** [[line.strip() for line in text.splitlines() if line.strip()]]. *)
Definition stripped_lines (text : string) : list string :=
  List.filter (fun l => negb (String.eqb l "")) (map Py.strip (splitlines text)).

Definition extract_for_mcu (text target_mcu : string) : result string :=
  let! wanted := board_ids_for_mcu target_mcu in
  let! blocks := group_blocks (stripped_lines text) None [] [] in
  let! out := emit_blocks wanted blocks in
  if existsb (has_type DATA) out then
    Ok (Py.join newline (out ++ [EOF_RECORD]) +:+ newline)%string
  else Err UniversalHexError.

(** ** A line-by-line reference

    Which image a line belongs to, read off the text: the latest Block
    Start before it, except that an address record belongs to the block
    that starts right after it. *)

Definition start_id (line : string) : option Z :=
  match int16 (Py.slice line 9 13) with Ok i => Some i | Err _ => None end.

Fixpoint owner_after (cur : option Z) (rest : list string) : option Z :=
  match rest with
  | l :: r => if has_type BLOCK_START l then owner_after (start_id l) r else cur
  | [] => cur
  end.

Fixpoint attributed (cur : option Z) (lines : list string) : list (option Z * string) :=
  match lines with
  | [] => []
  | l :: rest =>
      if has_type BLOCK_START l then attributed (start_id l) rest
      else (if has_type EXT_LINEAR_ADDR l then owner_after cur rest else cur, l) :: attributed cur rest
  end.

Definition ids_ok (lines : list string) : bool :=
  forallb (fun l => negb (has_type BLOCK_START l) || is_ok (int16 (Py.slice l 9 13))) lines.

Definition reference (text target_mcu : string) : result string :=
  let! wanted := board_ids_for_mcu target_mcu in
  let lines := stripped_lines text in
  if ids_ok lines then
    let mine := List.filter (fun ol => wants wanted ol.1) (attributed None lines) in
    let! out := emit_all (map snd mine) in
    if existsb (has_type DATA) out then
      Ok (String.concat newline (out ++ [EOF_RECORD; ""]))
    else Err UniversalHexError
  else Err ValueError.

(** ** The grouping attributes each line as the reference does *)

Definition flatten (bs : list hex_block) : list (option Z * string) :=
  flat_map (fun b => map (pair b.1) b.2) bs.

Lemma flatten_app a b : flatten (a ++ b) = flatten a ++ flatten b.
Proof. apply flat_map_app. Qed.

Definition no_start (l : string) : Prop := has_type BLOCK_START l = false.

Lemma ela_no_start l : has_type EXT_LINEAR_ADDR l = true -> no_start l.
Proof.
  unfold no_start, has_type. rewrite bool_decide_eq_true, bool_decide_eq_false.
  intros ->. discriminate.
Qed.

Lemma attributed_plain id cur : Forall no_start cur -> attributed id cur = map (pair id) cur.
Proof.
  induction 1 as [|l cur Hl Hc IH]; [reflexivity|]. cbn [attributed map]. rewrite Hl, IH.
  f_equal. f_equal. destruct (has_type EXT_LINEAR_ADDR l); [|reflexivity].
  destruct Hc as [|l' cur Hl' _]; [reflexivity|]. cbn [owner_after]. rewrite Hl'. reflexivity.
Qed.

Lemma attributed_kept id cur l rest : Forall no_start cur -> has_type BLOCK_START l = true ->
  match last cur with Some e => has_type EXT_LINEAR_ADDR e = false | None => True end ->
  attributed id (cur ++ l :: rest) = map (pair id) cur ++ attributed (start_id l) rest.
Proof.
  intros HF Hl. induction HF as [|c cur Hc HF IH]; intros Hlast.
  - cbn [app attributed map]. rewrite Hl. reflexivity.
  - cbn [app attributed map]. rewrite Hc. destruct cur as [|d cur].
    + cbn in Hlast. rewrite Hlast. cbn [app attributed map]. rewrite Hl. reflexivity.
    + rewrite IH by exact Hlast. f_equal. f_equal.
      destruct (has_type EXT_LINEAR_ADDR c); [|reflexivity].
      inversion HF; subst. cbn [app owner_after]. rewrite H1. reflexivity.
Qed.

Lemma attributed_carried id kept e l rest : Forall no_start kept -> has_type BLOCK_START l = true ->
  has_type EXT_LINEAR_ADDR e = true ->
  attributed id (kept ++ e :: l :: rest) = map (pair id) kept ++ attributed (start_id l) (e :: rest).
Proof.
  intros HF Hl He. pose proof (ela_no_start e He) as Hne. unfold no_start in Hne.
  induction HF as [|c kept Hc HF IH].
  - cbn [app attributed map owner_after]. rewrite Hne, He, Hl. reflexivity.
  - cbn [app attributed map]. rewrite Hc, IH. f_equal. f_equal.
    destruct (has_type EXT_LINEAR_ADDR c); [|reflexivity].
    destruct kept as [|d kept]; cbn [app owner_after]; [rewrite Hne; reflexivity|].
    inversion HF; subst. rewrite H1. reflexivity.
Qed.

Lemma last_removelast (cur : list string) e : last cur = Some e -> cur = removelast cur ++ [e].
Proof.
  induction cur as [|c [|d cur] IH]; [discriminate|intros [= <-]; reflexivity|].
  intros H. change (removelast (c :: d :: cur)) with (c :: removelast (d :: cur)).
  cbn [app]. f_equal. apply IH. exact H.
Qed.

Lemma int16_error s e : int16 s = Err e -> e = ValueError.
Proof.
  unfold int16. cbv zeta. match goal with |- context[match ?x with Some _ => _ | None => _ end] => destruct x end;
    congruence.
Qed.

Lemma group_blocks_spec lines : forall id cur blocks, Forall no_start cur ->
  match group_blocks lines id cur blocks with
  | Ok bs => ids_ok lines = true /\ flatten bs = flatten blocks ++ attributed id (cur ++ lines)
  | Err e => ids_ok lines = false /\ e = ValueError
  end.
Proof.
  induction lines as [|l rest IH]; intros id cur blocks HF; cbn [group_blocks].
  - split; [reflexivity|]. rewrite flatten_app, app_nil_r, attributed_plain by exact HF.
    cbn. rewrite app_nil_r. reflexivity.
  - unfold ids_ok. cbn [forallb]. fold (ids_ok rest).
    destruct (has_type BLOCK_START l) eqn:Hl; cbn [negb orb].
    + assert (Hid : int16 (Py.slice l 9 13) =
        match start_id l with Some i => Ok i | None => Err ValueError end).
      { unfold start_id, int16. cbv zeta. destruct (match Py.strip _ with "" => _ | _ => _ end); reflexivity. }
      assert (Hk : exists carried kept, (match last cur with
                   | Some e => if has_type EXT_LINEAR_ADDR e then ([e], removelast cur) else ([], cur)
                   | None => ([], cur) end) = (carried, kept) /\ Forall no_start carried /\
                 attributed id (cur ++ l :: rest) =
                 map (pair id) kept ++ attributed (start_id l) (carried ++ rest)).
      { destruct (last cur) as [e|] eqn:Hlast; [destruct (has_type EXT_LINEAR_ADDR e) eqn:He|].
        - do 2 eexists. split; [reflexivity|]. apply last_removelast in Hlast.
          split; [constructor; [apply ela_no_start; exact He|constructor]|].
          rewrite Hlast at 1. rewrite <- app_assoc. cbn [app].
          apply attributed_carried; [|exact Hl|exact He].
          rewrite Hlast in HF. apply Forall_app in HF. apply HF.
        - do 2 eexists. split; [reflexivity|]. split; [constructor|].
          apply attributed_kept; [exact HF|exact Hl|]. rewrite Hlast. exact He.
        - do 2 eexists. split; [reflexivity|]. split; [constructor|].
          apply attributed_kept; [exact HF|exact Hl|]. rewrite Hlast. exact I. }
      destruct Hk as (carried & kept & -> & HFc & ->). rewrite Hid.
      destruct (start_id l) as [i|]; cbn [result_bind is_ok andb]; [|auto].
      specialize (IH (Some i) carried (blocks ++ [(id, kept)]) HFc).
      destruct (group_blocks rest (Some i) carried _); [|exact IH].
      destruct IH as [Hok ->]. split; [exact Hok|].
      rewrite flatten_app, <- app_assoc. cbn. rewrite app_nil_r. reflexivity.
    + cbn [andb]. specialize (IH id (cur ++ [l]) blocks).
      rewrite <- app_assoc in IH. apply IH. apply Forall_app. split; [exact HF|].
      constructor; [exact Hl|constructor].
Qed.

Lemma emit_all_app a b : emit_all (a ++ b) =
  (let! x := emit_all a in let! y := emit_all b in Ok (x ++ y)).
Proof.
  induction a as [|l a IH]; cbn [emit_all app].
  - cbn [result_bind]. destruct (emit_all b); reflexivity.
  - destruct (emit l); cbn [result_bind]; [|reflexivity]. rewrite IH.
    destruct (emit_all a); cbn [result_bind]; [|reflexivity].
    destruct (emit_all b); cbn [result_bind]; [|reflexivity]. rewrite app_assoc. reflexivity.
Qed.

Lemma mine_of_block wanted id ls :
  map snd (List.filter (fun ol : option Z * string => wants wanted ol.1) (map (pair id) ls)) =
  if wants wanted id then ls else [].
Proof.
  induction ls as [|l ls IH]; cbn [map List.filter fst].
  - destruct (wants wanted id); reflexivity.
  - destruct (wants wanted id); cbn [map snd]; rewrite IH; reflexivity.
Qed.

Lemma emit_blocks_flat wanted bs : emit_blocks wanted bs =
  emit_all (map snd (List.filter (fun ol => wants wanted ol.1) (flatten bs))).
Proof.
  induction bs as [|[id ls] bs IH]; [reflexivity|].
  cbn [emit_blocks flatten flat_map]. rewrite List.filter_app, map_app, emit_all_app.
  cbn [fst snd]. rewrite mine_of_block, IH. destruct (wants wanted id); reflexivity.
Qed.

Lemma concat_two sep out e : (String.concat sep (out ++ [e]) +:+ sep =
  String.concat sep (out ++ [e; ""]))%string.
Proof.
  induction out as [|o out IH].
  - cbn. rewrite Py.append_nil_r. reflexivity.
  - cbn [app String.concat]. destruct (out ++ [e]) eqn:E1; [destruct out; discriminate|].
    destruct (out ++ [e; ""]) eqn:E2; [destruct out; discriminate|].
    rewrite <- E1, <- E2 in *. rewrite <- IH, <- !Py.append_assoc. reflexivity.
Qed.

(** C36: the extraction is the line-by-line reference: every line goes to
    the image of the latest Block Start before it (an address record just
    before a start goes with that start), the lines of the target's images
    are kept in order with the bookkeeping dropped and custom data retyped,
    and the errors are the same. *)
Theorem extract_is_reference text target_mcu :
  extract_for_mcu text target_mcu = reference text target_mcu.
Proof.
  unfold extract_for_mcu, reference. destruct (board_ids_for_mcu target_mcu) as [wanted|e]; [|reflexivity].
  cbn [result_bind]. set (lines := stripped_lines text).
  pose proof (group_blocks_spec lines None [] [] (Forall_nil_2 _)) as H.
  destruct (group_blocks lines None [] []) as [bs|e]; cbn [result_bind].
  - destruct H as [-> Hf]. rewrite emit_blocks_flat, Hf. cbn [flatten flat_map app].
    destruct (emit_all _) as [out|]; [|reflexivity]. cbn [result_bind].
    destruct (existsb (has_type DATA) out); [|reflexivity]. f_equal. apply concat_two.
  - destruct H as [-> ->]. reflexivity.
Qed.

(** ** The result is a plain Intel hex *)

Definition no_break (c : ascii) : bool := negb (is_line_break c).

Lemma sforall_lstrip P s : Py.sforall P s = true -> Py.sforall P (Py.lstrip_ws s) = true.
Proof.
  induction s as [|c s IH]; [reflexivity|]. cbn [Py.lstrip_ws]. intros H.
  destruct (Py.is_space c); [|exact H]. apply IH. simpl in H. apply andb_prop in H. apply H.
Qed.

Lemma sforall_rstrip P s : Py.sforall P s = true -> Py.sforall P (Py.rstrip_ws s) = true.
Proof.
  induction s as [|c s IH]; [reflexivity|]. simpl. intros H. apply andb_prop in H as [H1 H2].
  specialize (IH H2). destruct (Py.rstrip_ws s); [destruct (Py.is_space c); simpl; rewrite ?H1; reflexivity|].
  simpl in *. rewrite H1. exact IH.
Qed.

Lemma splitlines_no_break s : forall cur b, Py.sforall no_break cur = true ->
  Forall (fun l => Py.sforall no_break l = true) (splitlines_aux cur b s).
Proof.
  induction s as [|c s IH]; intros cur b Hc; cbn [splitlines_aux].
  - destruct (String.eqb cur ""); repeat constructor. exact Hc.
  - destruct (b && Ascii.eqb c lf); [apply IH; exact Hc|].
    destruct (is_line_break c) eqn:Hb; [constructor; [exact Hc|apply IH; reflexivity]|].
    apply IH. rewrite Py.sforall_app, Hc. simpl. unfold no_break. rewrite Hb. reflexivity.
Qed.

Lemma stripped_lines_no_break text l : In l (stripped_lines text) -> Py.sforall no_break l = true.
Proof.
  unfold stripped_lines. rewrite filter_In, in_map_iff. intros [(l0 & <- & Hl) _].
  apply sforall_lstrip, sforall_rstrip.
  pose proof (splitlines_no_break text "" false eq_refl) as HF.
  rewrite List.Forall_forall in HF. apply HF. exact Hl.
Qed.

Lemma splitlines_line l : forall cur rest, Py.sforall no_break l = true ->
  splitlines_aux cur false (l +:+ newline +:+ rest)%string = (cur +:+ l)%string :: splitlines_aux "" false rest.
Proof.
  induction l as [|c l IH]; intros cur rest H.
  - simpl. rewrite Py.append_nil_r. reflexivity.
  - simpl in H. apply andb_prop in H as [Hc Hl]. unfold no_break in Hc.
    apply negb_true_iff in Hc. cbn [String.append splitlines_aux andb]. rewrite Hc, IH by exact Hl.
    rewrite <- Py.append_assoc. reflexivity.
Qed.

Lemma splitlines_join ls : Forall (fun l => Py.sforall no_break l = true) ls ->
  splitlines (String.concat newline (ls ++ [""])) = ls.
Proof.
  unfold splitlines. induction 1 as [|l ls Hl HF IH]; [reflexivity|].
  cbn [app String.concat]. destruct (ls ++ [""]) eqn:E; [destruct ls; discriminate|].
  rewrite <- E in *. rewrite splitlines_line by exact Hl. rewrite IH. reflexivity.
Qed.

(** Bytes and their two digits. *)
Definition nibble_ok (d : Z) : bool :=
  bool_decide (hex_value (Py.hex_digit true d) = Some d) && negb (Py.is_space (Py.hex_digit true d))
  && no_break (Py.hex_digit true d) && negb (c_space (Py.hex_digit true d)).

Lemma nibbles d : 0 <= d < 16 -> hex_value (Py.hex_digit true d) = Some d /\
  Py.is_space (Py.hex_digit true d) = false /\ no_break (Py.hex_digit true d) = true /\
  c_space (Py.hex_digit true d) = false.
Proof.
  intros Hd. assert (H : nibble_ok d = true).
  { apply (forall_zrange nibble_ok 0 16); [vm_compute; reflexivity|]. lia. }
  unfold nibble_ok in H. rewrite !andb_true_iff, !negb_true_iff, bool_decide_eq_true in H. tauto.
Qed.

Lemma byte_nibbles b : 0 <= b < 256 -> 0 <= b / 16 < 16 /\ 0 <= b mod 16 < 16 /\ b / 16 * 16 + b mod 16 = b.
Proof. intros. Z.div_mod_to_equations. lia. Qed.

Definition bytes_ok (raw : list Z) : Prop := Forall (fun b => 0 <= b < 256) raw.

Lemma fromhex_hex_upper raw : bytes_ok raw -> fromhex (hex_upper raw) = Ok raw.
Proof.
  induction 1 as [|b raw Hb _ IH]; [reflexivity|].
  destruct (byte_nibbles b Hb) as (H1 & H2 & H3).
  destruct (nibbles _ H1) as (V1 & _ & _ & S1). destruct (nibbles _ H2) as (V2 & _).
  change (hex_upper (b :: raw)) with
    (String (Py.hex_digit true (b / 16)) (String (Py.hex_digit true (b mod 16)) (hex_upper raw))).
  cbn [fromhex]. rewrite S1, V1, V2, IH. cbn [result_bind]. rewrite H3. reflexivity.
Qed.

Lemma hex_upper_app a b : hex_upper (a ++ b) = (hex_upper a +:+ hex_upper b)%string.
Proof. induction a as [|x a IH]; [reflexivity|]. simpl. rewrite IH. reflexivity. Qed.

Lemma hex_upper_chars P raw : (forall d, 0 <= d < 16 -> P (Py.hex_digit true d) = true) ->
  bytes_ok raw -> Py.sforall P (hex_upper raw) = true.
Proof.
  intros HP. induction 1 as [|b raw Hb _ IH]; [reflexivity|].
  destruct (byte_nibbles b Hb) as (H1 & H2 & _). cbn [hex_upper fold_right Py.sforall].
  rewrite !HP by assumption. exact IH.
Qed.

Lemma hex_value_range c v : hex_value c = Some v -> 0 <= v < 16.
Proof. destruct c as [[] [] [] [] [] [] [] []]; vm_compute; intros [= <-]; split; congruence. Qed.

Lemma fromhex_ok s : forall raw, fromhex s = Ok raw -> bytes_ok raw.
Proof.
  assert (H : forall n s raw, (String.length s <= n)%nat -> fromhex s = Ok raw -> bytes_ok raw).
  { clear s. induction n as [|n IH]; intros s raw Hn; destruct s as [|c s]; try (cbn in Hn; lia).
    - intros [= <-]. constructor.
    - intros [= <-]. constructor.
    - cbn [fromhex]. cbn in Hn. destruct (c_space c); [apply IH; lia|].
      destruct (hex_value c) as [h|] eqn:Eh; [|discriminate]. destruct s as [|d s]; [discriminate|].
      destruct (hex_value d) as [l|] eqn:El; [|discriminate]. cbn in Hn.
      destruct (fromhex s) as [r|] eqn:E; [|discriminate]. intros [= <-].
      apply hex_value_range in Eh, El. constructor; [lia|]. apply (IH s); [lia|exact E]. }
  intros raw. apply (H (String.length s)). lia.
Qed.

Lemma strip_id s : Py.sforall (fun c => negb (Py.is_space c)) s = true -> Py.strip s = s.
Proof.
  intros H. unfold Py.strip. assert (Hr : Py.rstrip_ws s = s).
  { induction s as [|c s IH]; [reflexivity|]. simpl in *. apply andb_prop in H as [Hc Hs].
    rewrite (IH Hs). apply negb_true_iff in Hc. rewrite Hc. destruct s; reflexivity. }
  rewrite Hr. destruct s as [|c s]; [reflexivity|]. simpl in *. apply andb_prop in H as [Hc _].
  apply negb_true_iff in Hc. rewrite Hc. reflexivity.
Qed.

(** The bytes of a record, its checksum last. *)
Definition record_bytes (line : string) : result (list Z) := fromhex (Py.sdrop 1 line).

Definition record_sum (raw : list Z) : Z := fold_right Z.add 0 raw.

Lemma checksum_range raw : 0 <= checksum raw < 256.
Proof.
  unfold checksum. change 255 with (Z.ones 8). rewrite Z.land_ones by lia. apply Z.mod_pos_bound. lia.
Qed.

Lemma record_sum_app a b : record_sum (a ++ b) = record_sum a + record_sum b.
Proof. induction a as [|x a IH]; [reflexivity|]. change (x + record_sum (a ++ b) = x + record_sum a + record_sum b). lia. Qed.

Lemma checksum_valid raw : record_sum (raw ++ [checksum raw]) mod 256 = 0.
Proof.
  rewrite record_sum_app. change (record_sum [checksum raw]) with (checksum raw + 0).
  unfold checksum. fold (record_sum raw). change 255 with (Z.ones 8).
  rewrite Z.land_ones, Z.add_0_r by lia. change (2 ^ 8) with 256.
  rewrite Z.add_mod_idemp_r, Z.add_opp_diag_r by lia. reflexivity.
Qed.

Lemma retype_ok line t r : 0 <= t < 256 -> retype line t = Ok r -> exists raw,
  fromhex (inner (Py.strip line)) = Ok raw /\ (3 < length raw)%nat /\
  bytes_ok (<[3%nat := t]> raw ++ [checksum (<[3%nat := t]> raw)]) /\
  r = (":" +:+ hex_upper (<[3%nat := t]> raw ++ [checksum (<[3%nat := t]> raw)]))%string.
Proof.
  unfold retype. intros Ht. destruct (fromhex _) as [raw|] eqn:E; [|discriminate].
  cbn [result_bind]. destruct (length raw <=? 3)%nat eqn:El; [discriminate|].
  intros [= <-]. apply Nat.leb_gt in El. exists raw. split; [reflexivity|]. split; [exact El|].
  split; [|cbn; rewrite hex_upper_app; reflexivity].
  apply fromhex_ok in E. unfold bytes_ok in *. apply Forall_app. split.
  - apply Forall_insert; [exact E|lia].
  - constructor; [apply checksum_range|constructor].
Qed.

Definition chars_ok (c : ascii) : bool := negb (Py.is_space c) && no_break c.

Lemma digit_chars_ok d : 0 <= d < 16 -> chars_ok (Py.hex_digit true d) = true.
Proof. intros Hd. destruct (nibbles d Hd) as (_ & H1 & H2 & _). unfold chars_ok. rewrite H1, H2. reflexivity. Qed.

Lemma record_type_bytes b0 b1 b2 b3 b4 raw : bytes_ok (b0 :: b1 :: b2 :: b3 :: b4 :: raw) -> b3 = DATA ->
  record_type (":" +:+ hex_upper (b0 :: b1 :: b2 :: b3 :: b4 :: raw))%string = Some DATA.
Proof.
  intros Hb ->. unfold record_type. rewrite strip_id.
  - change (Py.slen _ <? 11) with (Z.of_nat (11 + String.length (hex_upper raw)) <? 11).
    rewrite (proj2 (Z.ltb_ge _ _)) by lia. reflexivity.
  - change (Py.sforall (fun c => negb (Py.is_space c)) (hex_upper (b0 :: b1 :: b2 :: DATA :: b4 :: raw)) = true).
    apply hex_upper_chars; [|exact Hb]. intros d Hd.
    destruct (nibbles d Hd) as (_ & -> & _). reflexivity.
Qed.

(** A data record made of the bytes of a custom-data record. *)
Definition retyped_from (line l : string) : Prop := exists raw,
  fromhex (inner (Py.strip line)) = Ok raw /\
  record_bytes l = Ok (<[3%nat := DATA]> raw ++ [checksum (<[3%nat := DATA]> raw)]) /\
  record_sum (<[3%nat := DATA]> raw ++ [checksum (<[3%nat := DATA]> raw)]) mod 256 = 0.

Lemma retype_record line l : retype line DATA = Ok l ->
  retyped_from line l /\ record_type l = Some DATA /\ Py.sforall no_break l = true.
Proof.
  intros H. destruct (retype_ok line DATA l) as (raw & E & Hl & Hb & ->);
    [split; [discriminate|reflexivity]|exact H|].
  split; [|split].
  - exists raw. split; [exact E|]. split; [|apply checksum_valid].
    unfold record_bytes. cbn [Py.sdrop String.append]. apply fromhex_hex_upper. exact Hb.
  - destruct raw as [|b0 [|b1 [|b2 [|b3 raw]]]]; try (cbn in Hl; lia).
    cbn [insert list_insert app] in Hb |- *. destruct raw as [|b4 raw]; apply record_type_bytes; (exact Hb || reflexivity).
  - change (Py.sforall no_break (hex_upper (<[3%nat := DATA]> raw ++ [checksum (<[3%nat := DATA]> raw)])) = true).
    apply hex_upper_chars; [|exact Hb]. intros d Hd. apply nibbles. exact Hd.
Qed.

(** Where an output record comes from. *)
Definition emitted (lines : list string) (l : string) : Prop :=
  exists line, In line lines /\
    ((l = line /\ exists t, record_type l = Some t /\ ~ In t [BLOCK_END; PADDED_DATA; CUSTOM_DATA; OTHER_DATA; EOF]) \/
     (record_type line = Some CUSTOM_DATA /\ retyped_from line l /\ record_type l = Some DATA)).

Lemma emit_emitted lines line out : In line lines -> Py.sforall no_break line = true ->
  emit line = Ok out -> Forall (fun l => emitted lines l /\ Py.sforall no_break l = true) out.
Proof.
  unfold emit. intros Hin Hnb. destruct (record_type line) as [t|] eqn:Et; [|intros [= <-]; constructor].
  destruct (t =? CUSTOM_DATA) eqn:Ec.
  - apply Z.eqb_eq in Ec. subst t. destruct (retype line DATA) as [l|] eqn:Er; [|discriminate].
    intros [= <-]. destruct (retype_record _ _ Er) as (Hr & Ht & Hl).
    repeat constructor; [|exact Hl]. exists line. auto 10.
  - destruct (existsb (Z.eqb t) DROPPED) eqn:Ed; intros [= <-]; repeat constructor; [|exact Hnb].
    exists line. split; [exact Hin|]. left. split; [reflexivity|]. exists t. split; [exact Et|].
    intros H. apply not_true_iff_false in Ed. apply Ed. apply existsb_exists. exists t.
    split; [|apply Z.eqb_refl]. apply Z.eqb_neq in Ec. cbn in H |- *. intuition congruence.
Qed.

Lemma emit_all_emitted lines ls out :
  Forall (fun l => In l lines /\ Py.sforall no_break l = true) ls ->
  emit_all ls = Ok out -> Forall (fun l => emitted lines l /\ Py.sforall no_break l = true) out.
Proof.
  intros HF. revert out. induction HF as [|l ls [Hin Hnb] HF IH]; intros out; cbn [emit_all]; [intros [= <-]; constructor|].
  destruct (emit l) as [o|] eqn:E; [|discriminate].
  destruct (emit_all ls) as [os|]; [|discriminate]. intros [= <-]. apply Forall_app.
  split; [exact (emit_emitted lines l o Hin Hnb E)|apply IH; reflexivity].
Qed.

Lemma attributed_lines cur ls : forall id l, In (id, l) (attributed cur ls) -> In l ls /\ no_start l.
Proof.
  revert cur. induction ls as [|x ls IH]; intros cur id l; [intros []|]. cbn [attributed].
  destruct (has_type BLOCK_START x) eqn:Hx.
  - intros H. apply IH in H as [H1 H2]. split; [right; exact H1|exact H2].
  - intros [[= _ <-]|H]; [split; [left; reflexivity|exact Hx]|].
    apply IH in H as [H1 H2]. split; [right; exact H1|exact H2].
Qed.

(** A reduced file is a plain Intel hex: no Block Start is left, so a
    second reduction would pass it through; it has a data record and ends
    with the one end-of-file record; every other record is a kept line of
    the file or a custom-data record with the same address and data bytes,
    the data type and a valid checksum. *)
Theorem extract_plain text target_mcu hex : extract_for_mcu text target_mcu = Ok hex ->
  is_universal_hex hex = false /\
  exists out, splitlines hex = out ++ [EOF_RECORD] /\ existsb (has_type DATA) out = true /\
    Forall (emitted (List.filter (fun l => negb (has_type BLOCK_START l)) (stripped_lines text))) out.
Proof.
  rewrite extract_is_reference. unfold reference. destruct (board_ids_for_mcu target_mcu) as [wanted|]; [|discriminate].
  cbn [result_bind]. destruct (ids_ok _); [|discriminate].
  set (mine := List.filter _ _). destruct (emit_all (map snd mine)) as [out|] eqn:E; [|discriminate].
  cbn [result_bind]. destruct (existsb (has_type DATA) out) eqn:Hd; [|discriminate]. intros [= <-].
  set (lines := List.filter (fun l => negb (has_type BLOCK_START l)) (stripped_lines text)).
  assert (HF : Forall (fun l => emitted lines l /\ Py.sforall no_break l = true) out).
  { apply (emit_all_emitted lines (map snd mine)); [|exact E]. apply List.Forall_forall.
    intros l Hl. apply in_map_iff in Hl as ([id l'] & <- & Hl). apply filter_In in Hl as [Hl _].
    apply attributed_lines in Hl as [Hl Hs]. cbn [snd]. split.
    - apply filter_In. split; [exact Hl|]. unfold no_start in Hs. rewrite Hs. reflexivity.
    - eapply stripped_lines_no_break. exact Hl. }
  assert (Hs : splitlines (String.concat newline (out ++ [EOF_RECORD; ""])) = out ++ [EOF_RECORD]).
  { change [EOF_RECORD; ""] with ([EOF_RECORD] ++ [""]). rewrite app_assoc. apply splitlines_join.
    apply Forall_app. split; [|repeat constructor].
    eapply Forall_impl; [exact HF|]. intros l Hl. apply Hl. }
  split; [|exists out; split; [exact Hs|split; [exact Hd|]]].
  - unfold is_universal_hex. rewrite Hs, existsb_app. apply orb_false_iff. split; [|reflexivity].
    apply not_true_iff_false. intros H. apply existsb_exists in H as (l & Hl & Ht).
    rewrite List.Forall_forall in HF. destruct (HF l Hl) as [(line & Hin & Hc) _].
    unfold has_type in Ht. apply bool_decide_eq_true in Ht.
    destruct Hc as [[-> _]|(_ & _ & Hc)]; [|rewrite Hc in Ht; discriminate].
    apply filter_In in Hin as [_ Hin]. unfold has_type in Hin.
    rewrite bool_decide_eq_true_2 in Hin by exact Ht. discriminate.
  - eapply Forall_impl; [exact HF|]. intros l Hl. apply Hl.
Qed.

(** A two-image file: its V2 image is one custom-data record. *)
Definition example_text : string :=
  String.concat newline [":020000040000FA"; ":0400000A9900C0DEBB"; ":0400000061626364DE"; ":0000000BF5";
    ":020000040000FA"; ":0400000A9903C0DEB8"; ":0400000D6566676855"; ":00000001FF"; ""].

Lemma extract_plain_witness :
  extract_for_mcu example_text "nrf52833" =
    Ok (String.concat newline [":020000040000FA"; ":040000006566676862"; EOF_RECORD; ""])%string /\
  is_universal_hex (String.concat newline [":020000040000FA"; ":040000006566676862"; EOF_RECORD; ""]) = false.
Proof.
  assert (E : extract_for_mcu example_text "nrf52833" =
    Ok (String.concat newline [":020000040000FA"; ":040000006566676862"; EOF_RECORD; ""])%string)
    by (vm_compute; reflexivity).
  split; [exact E|]. exact (proj1 (extract_plain _ _ _ E)).
Defined.
