(* ===== verification/Virtual.v ===== *)
(** * [registry/virtual.py]: registered virtual boards

    Name, endpoint, role and serial validation of a [register_board]
    request, and the table of live registrations keyed by lower-case name.
    A registration carries an identity number, since [VirtualBoards.remove]
    compares with [is]. *)

From S2P Require Import Prelude Tables Json Naming.
Local Open Scope py_scope.

Definition VIRTUAL_VID_PID : string := "virtual".
Definition VIRTUAL_PORT_PREFIX : string := "virtual:".
Definition VIRTUAL_UID_PREFIX : string := "sim-".
Definition DEFAULT_ROLE : string := "NEZHA2".

(** A [^...$] regular expression over one character class, [lo] to [hi]
    characters; [$] also matches before a final newline. *)
Definition strip_newline (s : string) : string :=
  if Py.endswith s newline then Py.stake (String.length s - 1) s else s.

Definition class_re (P : ascii -> bool) (lo hi : Z) (s : string) : bool :=
  let m t := Py.sforall P t && (lo <=? Py.slen t) && (Py.slen t <=? hi) in
  m s || (Py.endswith s newline && m (strip_newline s)).

Definition name_char (c : ascii) : bool := Py.is_alpha c || Py.is_digit c || Ascii.eqb c "-".
Definition role_char (c : ascii) : bool := name_char c || Ascii.eqb c "_".

(** [_NAME_RE]: a letter, then 1 to 31 letters, digits or hyphens. *)
Definition NAME_RE_match (s : string) : bool :=
  match s with
  | "" => false
  | String c t => Py.is_alpha c && class_re name_char 1 31 t
  end.
Definition ROLE_RE_match (s : string) : bool := class_re role_char 1 32 s.
Definition SERIAL_RE_match (s : string) : bool := class_re Py.is_digit 1 20 s.

(** [is_virtual(record)], on the three columns it reads. *)
Definition is_virtual_row (host vid_pid port : option string) : bool :=
  match host with
  | Some _ => false
  | None => bool_decide (vid_pid = Some VIRTUAL_VID_PID) &&
            match port with Some p => Py.startswith p VIRTUAL_PORT_PREFIX | None => false end
  end.

Definition is_virtual_uid (uid : string) : bool := Py.startswith uid VIRTUAL_UID_PREFIX.

Definition is_reserved_name (name : string) : bool :=
  Naming.NAME_RE_match (normalize name).

(** [port_s.isdigit()]. *)
Definition isdigit (s : string) : bool := negb (String.eqb s "") && Py.sforall Py.is_digit s.

(** [host[1:-1]]. *)
Definition strip_ends (s : string) : string := Py.stake (String.length s - 2) (Py.sdrop 1 s).

Definition parse_endpoint (endpoint : json) : result (string * Z) :=
  match endpoint with
  | JStr e =>
      if String.eqb e "" || Py.sexists Py.is_space e then Err ValueError
      else
        let '(host, sep, port_s) := Py.rpartition ":" e in
        if negb sep || String.eqb host "" || negb (isdigit port_s) then Err ValueError
        else
          let host := if Py.startswith host "[" && Py.endswith host "]"
                      then strip_ends host else host in
          if String.eqb host "" then Err ValueError
          else
            let! port := int_of_str port_s in
            if negb ((1 <=? port) && (port <=? 65535)) then Err ValueError
            else Ok (host, port)
  | _ => Err ValueError
  end.

Record VirtualRegistration := mkVirtualRegistration {
  vr_id : Z;                        (* object identity *)
  vr_name : string;
  vr_uid : string;
  vr_endpoint : string * Z;
  vr_role : string;
  vr_serial : string;
  vr_conn : option Z }.

#[export] Instance VirtualRegistration_eq_dec : EqDecision VirtualRegistration.
Proof. solve_decision. Defined.

(** [id] is the identity the new object gets. *)
Definition validate_registration (id : Z) (req : list (string * json))
    : result VirtualRegistration :=
  match jget "name" req with
  | JStr name =>
      if negb (NAME_RE_match name) then Err ValueError
      else
        let! endpoint := parse_endpoint (jget "endpoint" req) in
        match jget_or "role" (JStr DEFAULT_ROLE) req with
        | JStr role =>
            if negb (ROLE_RE_match role) then Err ValueError
            else
              let serial := match jget "serial" req with
                            | JInt z => if 0 <=? z then JStr (pretty z) else JInt z
                            | v => v
                            end in
              match serial with
              | JStr serial =>
                  if negb (SERIAL_RE_match serial) then Err ValueError
                  else
                    match jget "simulated" req with
                    | JBool true =>
                        Ok (mkVirtualRegistration id name (VIRTUAL_UID_PREFIX +:+ name)%string
                              endpoint role serial None)
                    | _ => Err ValueError
                    end
              | _ => Err ValueError
              end
        | _ => Err ValueError
        end
  | _ => Err ValueError
  end.

(** ** [VirtualBoards] *)

Definition boards : Type := list (string * VirtualRegistration).

Definition name_in_use (name : string) (b : boards) : bool :=
  match dget (Py.lower name) b with Some _ => true | None => false end.

Definition boards_add (reg : VirtualRegistration) (b : boards) : boards :=
  dset (Py.lower (vr_name reg)) reg b.

Definition boards_remove (reg : VirtualRegistration) (b : boards) : bool * boards :=
  match dget (Py.lower (vr_name reg)) b with
  | Some r => if vr_id r =? vr_id reg then (true, ddel (Py.lower (vr_name reg)) b) else (false, b)
  | None => (false, b)
  end.

Definition by_uid (uid : string) (b : boards) : option VirtualRegistration :=
  List.find (fun r => String.eqb (vr_uid r) uid) (map snd b).

(** ** Lemmas *)

(** The words a [^...$] expression is meant for: [lo] to [hi] characters of
    the class; and what it takes: such a word, or one and a final newline. *)
Definition word (P : ascii -> bool) (lo hi : Z) (s : string) : Prop :=
  Py.sforall P s = true /\ lo <= Py.slen s <= hi.

Definition up_to_newline (W : string -> Prop) (s : string) : Prop :=
  W s \/ exists t, s = (t +:+ newline)%string /\ W t.

Definition clean_name (s : string) : Prop :=
  exists c t, s = String c t /\ Py.is_alpha c = true /\ word name_char 1 31 t.

Lemma endswith_newline s : Py.endswith s newline = true ->
  s = (strip_newline s +:+ newline)%string.
Proof.
  intros H. unfold strip_newline. rewrite H. unfold Py.endswith, Py.last_n in H.
  apply andb_prop in H as [Hl He]. apply String.eqb_eq in He. apply Nat.leb_le in Hl.
  change (String.length newline) with 1%nat in *.
  assert (G : forall k u, Py.sdrop k u = newline -> u = (Py.stake k u +:+ newline)%string).
  { induction k as [|k IH]; intros u Hu; [exact Hu|]. destruct u as [|c u]; [discriminate|].
    simpl. f_equal. exact (IH u Hu). }
  exact (G _ _ He).
Qed.

Lemma strip_newline_app t : Py.endswith (t +:+ newline)%string newline = true /\
  strip_newline (t +:+ newline)%string = t.
Proof.
  assert (L : String.length (t +:+ newline)%string = S (String.length t)).
  { induction t as [|c t IH]; [reflexivity|]. simpl. f_equal. exact IH. }
  assert (D : Py.sdrop (String.length t) (t +:+ newline)%string = newline).
  { clear L. induction t as [|c t IH]; [reflexivity|exact IH]. }
  assert (T : Py.stake (String.length t) (t +:+ newline)%string = t).
  { clear L D. induction t as [|c t IH]; [reflexivity|]. simpl. f_equal. exact IH. }
  assert (E : Py.endswith (t +:+ newline)%string newline = true).
  { unfold Py.endswith, Py.last_n. rewrite L. change (String.length newline) with 1%nat.
    replace (S (String.length t) - 1)%nat with (String.length t) by lia. rewrite D. reflexivity. }
  split; [exact E|]. unfold strip_newline. rewrite E, L.
  replace (S (String.length t) - 1)%nat with (String.length t) by lia. exact T.
Qed.

Lemma class_re_iff P lo hi s : class_re P lo hi s = true <-> up_to_newline (word P lo hi) s.
Proof.
  assert (W : forall t, Py.sforall P t && (lo <=? Py.slen t) && (Py.slen t <=? hi) = true <-> word P lo hi t).
  { intros t. unfold word. rewrite !andb_true_iff, !Z.leb_le. tauto. }
  unfold class_re, up_to_newline. cbv zeta beta.
  rewrite orb_true_iff, (andb_true_iff (Py.endswith s newline)), (W s), (W (strip_newline s)). split.
  - intros [H|[He H]]; [left; exact H|right]. exists (strip_newline s). split; [|exact H].
    exact (endswith_newline s He).
  - intros [H|(t & -> & H)]; [left; exact H|right]. destruct (strip_newline_app t) as [-> ->]. auto.
Qed.

Lemma name_re_iff s : NAME_RE_match s = true <-> up_to_newline clean_name s.
Proof.
  destruct s as [|c s]; cbn [NAME_RE_match].
  { split; [discriminate|]. intros [(c & t & [=] & _)|(t & E & c & u & -> & _)]. discriminate E. }
  rewrite andb_true_iff, class_re_iff. split.
  - intros [Hc [H|(t & -> & H)]]; [left; exists c, s; auto|right].
    exists (String c t). split; [reflexivity|]. exists c, t. auto.
  - intros [(d & t & [= <- <-] & Hc & H)|(t & E & d & u & -> & Hc & H)].
    + split; [exact Hc|left; exact H].
    + injection E as -> ->. split; [exact Hc|right]. exists u. auto.
Qed.

Lemma parse_endpoint_port j host port : parse_endpoint j = Ok (host, port) ->
  host <> "" /\ 1 <= port <= 65535.
Proof.
  destruct j; try discriminate. cbn [parse_endpoint].
  destruct (String.eqb s "" || Py.sexists Py.is_space s); [discriminate|].
  destruct (Py.rpartition ":" s) as [[h sep] p]. destruct (negb sep || String.eqb h "" || negb (isdigit p)); [discriminate|].
  cbv zeta. match goal with |- context [String.eqb ?h ""] => destruct (String.eqb h "") eqn:Eh end; [discriminate|].
  destruct (int_of_str p) as [n|]; [|discriminate]. cbn [result_bind].
  destruct (negb ((1 <=? n) && (n <=? 65535))) eqn:En; [discriminate|]. intros [= <- <-].
  apply negb_false_iff in En. apply String.eqb_neq in Eh. split; [exact Eh|lia].
Qed.

(** The role and the serial a request asks for: the default role when it
    names none; a non-negative integer's digits, or the string given. *)
Definition role_asked (req : list (string * json)) (role : string) : Prop :=
  jget_or "role" (JStr DEFAULT_ROLE) req = JStr role.
Definition serial_asked (req : list (string * json)) (serial : string) : Prop :=
  jget "serial" req = JStr serial \/
  exists z, jget "serial" req = JInt z /\ 0 <= z /\ serial = pretty z.

(** A request is accepted exactly when every field passes, and every field
    of the registration is the request's. *)
Lemma validate_iff id req reg : validate_registration id req = Ok reg <->
  exists name host port role serial,
    jget "name" req = JStr name /\ NAME_RE_match name = true /\
    parse_endpoint (jget "endpoint" req) = Ok (host, port) /\
    role_asked req role /\ ROLE_RE_match role = true /\
    serial_asked req serial /\ SERIAL_RE_match serial = true /\
    jget "simulated" req = JBool true /\
    reg = mkVirtualRegistration id name (VIRTUAL_UID_PREFIX +:+ name)%string (host, port) role serial None.
Proof.
  unfold validate_registration, role_asked, serial_asked. split.
  - destruct (jget "name" req) as [| | | |name| |]; try discriminate.
    destruct (NAME_RE_match name) eqn:Hname; [|discriminate]. cbn [negb].
    destruct (parse_endpoint (jget "endpoint" req)) as [[host port]|]; [|discriminate]. cbn [result_bind].
    destruct (jget_or "role" (JStr DEFAULT_ROLE) req) as [| | | |role| |]; try discriminate.
    destruct (ROLE_RE_match role) eqn:Hrole; [|discriminate]. cbn [negb]. cbv zeta.
    destruct (jget "serial" req) as [| |z| |serial| |]; try discriminate.
    + destruct (0 <=? z) eqn:Hz; [|discriminate]. destruct (SERIAL_RE_match (pretty z)) eqn:Hs; [|discriminate].
      cbn [negb]. destruct (jget "simulated" req) as [|[]| | | | |]; try discriminate. intros [= <-].
      exists name, host, port, role, (pretty z). repeat split; auto. right. exists z. apply Z.leb_le in Hz. auto.
    + destruct (SERIAL_RE_match serial) eqn:Hs; [|discriminate].
      cbn [negb]. destruct (jget "simulated" req) as [|[]| | | | |]; try discriminate. intros [= <-].
      exists name, host, port, role, serial. repeat split; auto.
  - intros (name & host & port & role & serial & -> & -> & -> & -> & -> & Hs & Hr & -> & ->).
    cbn [negb result_bind]. cbv zeta. destruct Hs as [->|(z & -> & Hz & ->)]; [rewrite Hr; reflexivity|].
    apply Z.leb_le in Hz. rewrite Hz. cbv beta iota. rewrite Hr. reflexivity.
Qed.

(** A re-registered name is not evicted by the old connection's cleanup. *)
Lemma stale_remove_keeps old new b : vr_id old <> vr_id new ->
  Py.lower (vr_name old) = Py.lower (vr_name new) ->
  boards_remove old (boards_add new b) = (false, boards_add new b).
Proof.
  intros Hid Hn. unfold boards_remove, boards_add. rewrite Hn, dget_dset_eq.
  destruct (Z.eqb_spec (vr_id new) (vr_id old)); congruence.
Qed.

Lemma own_remove_frees reg b : 
  boards_remove reg (boards_add reg b) = (true, ddel (Py.lower (vr_name reg)) (boards_add reg b)) /\
  name_in_use (vr_name reg) (ddel (Py.lower (vr_name reg)) (boards_add reg b)) = false.
Proof.
  unfold boards_remove, boards_add, name_in_use. rewrite dget_dset_eq, Z.eqb_refl, dget_ddel_eq. auto.
Qed.

(** ** Properties *)

(** C40: a [register_board] request is accepted exactly when it names the
    board by a letter and 1 to 31 letters, digits or hyphens, the role (or
    none, for the default) by 1 to 32 letters, digits, hyphens or underscores,
    the serial by 1 to 20 digits (or a non-negative integer that has them),
    an endpoint that parses and [simulated: true] -- each of the three words
    taken with a final newline as well. The registration then carries just
    these, a virtual uid, a row that counts as virtual, and a host with a port
    in range; and requests with a final newline in each of the three words
    are indeed accepted. *)
Theorem registration_sound :
  (forall id req reg, validate_registration id req = Ok reg <->
     exists name host port role serial,
       jget "name" req = JStr name /\ up_to_newline clean_name name /\
       role_asked req role /\ up_to_newline (word role_char 1 32) role /\
       serial_asked req serial /\ up_to_newline (word Py.is_digit 1 20) serial /\
       parse_endpoint (jget "endpoint" req) = Ok (host, port) /\ host <> "" /\ 1 <= port <= 65535 /\
       jget "simulated" req = JBool true /\
       reg = mkVirtualRegistration id name (VIRTUAL_UID_PREFIX +:+ name)%string (host, port) role serial None) /\
  (forall id req reg, validate_registration id req = Ok reg ->
     is_virtual_uid (vr_uid reg) = true /\
     is_virtual_row None (Some VIRTUAL_VID_PID) (Some (VIRTUAL_PORT_PREFIX +:+ vr_name reg)%string) = true) /\
  (exists req reg, validate_registration 0 req = Ok reg /\ vr_name reg = ("ab" +:+ newline)%string /\
     vr_role reg = ("R" +:+ newline)%string /\ vr_serial reg = ("7" +:+ newline)%string).
Proof.
  split; [|split].
  - intros id req reg. rewrite validate_iff. split.
    + intros (name & host & port & role & serial & Hn & Hnm & He & Hr & Hrm & Hs & Hsm & Hsim & ->).
      pose proof (parse_endpoint_port _ _ _ He) as [Hh Hp].
      apply name_re_iff in Hnm. apply class_re_iff in Hrm. apply class_re_iff in Hsm.
      exists name, host, port, role, serial. auto 20.
    + intros (name & host & port & role & serial & Hn & Hnm & Hr & Hrm & Hs & Hsm & He & _ & _ & Hsim & ->).
      exists name, host, port, role, serial.
      apply name_re_iff in Hnm. apply class_re_iff in Hrm. apply class_re_iff in Hsm. auto 20.
  - intros id req reg H. apply validate_iff in H as (name & host & port & role & serial & H).
    decompose [and] H. subst. cbn [vr_uid vr_name]. unfold is_virtual_uid, is_virtual_row.
    rewrite bool_decide_true by reflexivity. split; apply Py.startswith_app.
  - eexists [("name", JStr ("ab" +:+ newline)%string); ("endpoint", JStr "localhost:8123");
             ("role", JStr ("R" +:+ newline)%string); ("serial", JStr ("7" +:+ newline)%string);
             ("simulated", JBool true)], _.
    split; [vm_compute; reflexivity|]. repeat split; reflexivity.
Qed.
