(* ===== verification/Store.v ===== *)
(** * [registry/store.py]: the device and peer tables

    The SQLite database as three keyed tables ([device] by [uid], [peer]
    by [host], [name_registry] by [name]) in rowid order.  Every public
    method of [Store] on the first two tables is an operation here, each
    atomic as the method is under the store's lock; the clock reading it
    makes is its [now] argument, in microseconds, 0 being [0.0].  A method
    that raises leaves the tables as they were.  Column [NULL] is [None];
    [COLLATE NOCASE] is ASCII case-insensitive equality.  The third table's
    methods are in [StoreNames.v]. *)

From S2P Require Import Prelude Tables Identity Virtual.
Local Open Scope py_scope.

Definition STATE_ATTACHED_UNPROBED : string := "attached_unprobed".
Definition STATE_CONNECTED : string := "connected".
Definition STATE_ATTACHED_NO_ANNOUNCE : string := "attached_no_announce".
Definition STATE_CONNECTED_NO_FIRMWARE : string := "connected_no_firmware".
Definition STATE_DISCONNECTED : string := "disconnected".
Definition ERROR_NOTE_NO_ANNOUNCEMENT : string := "no announcement received during probe".
Definition ERROR_NOTE_KNOWN_BLANK : string :=
  "board confirmed blank (no firmware) after re-probe".

Record DeviceRecord := mkDevice {
  dr_uid : string;
  dr_short_uid : string;
  dr_port : option string;
  dr_vid_pid : option string;
  dr_role : option string;
  dr_common_name : option string;
  dr_device_name : option string;
  dr_serial_payload : option string;
  dr_raw_announcement : option string;
  dr_state : string;
  dr_error_note : option string;
  dr_host : option string;
  dr_remote_lock_kind : option string;
  dr_remote_lock_display : option string;
  dr_chip_identity_name : option string;
  dr_chip_identity_serial : option Z;
  dr_flash_count : Z;
  dr_first_seen : Z;
  dr_last_seen : Z;
  dr_last_probe : Z }.

#[export] Instance DeviceRecord_eq_dec : EqDecision DeviceRecord.
Proof. solve_decision. Defined.

(** Column assignments of an [UPDATE device SET ...]. *)
Definition set_port (v : option string) (r : DeviceRecord) : DeviceRecord :=
    mkDevice (dr_uid r) (dr_short_uid r) v (dr_vid_pid r) (dr_role r) (dr_common_name r)
      (dr_device_name r) (dr_serial_payload r) (dr_raw_announcement r) (dr_state r)
      (dr_error_note r) (dr_host r) (dr_remote_lock_kind r) (dr_remote_lock_display r)
      (dr_chip_identity_name r) (dr_chip_identity_serial r) (dr_flash_count r) (dr_first_seen r)
      (dr_last_seen r) (dr_last_probe r).
Definition set_vid_pid (v : option string) (r : DeviceRecord) : DeviceRecord :=
    mkDevice (dr_uid r) (dr_short_uid r) (dr_port r) v (dr_role r) (dr_common_name r)
      (dr_device_name r) (dr_serial_payload r) (dr_raw_announcement r) (dr_state r)
      (dr_error_note r) (dr_host r) (dr_remote_lock_kind r) (dr_remote_lock_display r)
      (dr_chip_identity_name r) (dr_chip_identity_serial r) (dr_flash_count r) (dr_first_seen r)
      (dr_last_seen r) (dr_last_probe r).
Definition set_role (v : option string) (r : DeviceRecord) : DeviceRecord :=
    mkDevice (dr_uid r) (dr_short_uid r) (dr_port r) (dr_vid_pid r) v (dr_common_name r)
      (dr_device_name r) (dr_serial_payload r) (dr_raw_announcement r) (dr_state r)
      (dr_error_note r) (dr_host r) (dr_remote_lock_kind r) (dr_remote_lock_display r)
      (dr_chip_identity_name r) (dr_chip_identity_serial r) (dr_flash_count r) (dr_first_seen r)
      (dr_last_seen r) (dr_last_probe r).
Definition set_common_name (v : option string) (r : DeviceRecord) : DeviceRecord :=
    mkDevice (dr_uid r) (dr_short_uid r) (dr_port r) (dr_vid_pid r) (dr_role r) v
      (dr_device_name r) (dr_serial_payload r) (dr_raw_announcement r) (dr_state r)
      (dr_error_note r) (dr_host r) (dr_remote_lock_kind r) (dr_remote_lock_display r)
      (dr_chip_identity_name r) (dr_chip_identity_serial r) (dr_flash_count r) (dr_first_seen r)
      (dr_last_seen r) (dr_last_probe r).
Definition set_device_name (v : option string) (r : DeviceRecord) : DeviceRecord :=
    mkDevice (dr_uid r) (dr_short_uid r) (dr_port r) (dr_vid_pid r) (dr_role r)
      (dr_common_name r) v (dr_serial_payload r) (dr_raw_announcement r) (dr_state r)
      (dr_error_note r) (dr_host r) (dr_remote_lock_kind r) (dr_remote_lock_display r)
      (dr_chip_identity_name r) (dr_chip_identity_serial r) (dr_flash_count r) (dr_first_seen r)
      (dr_last_seen r) (dr_last_probe r).
Definition set_serial_payload (v : option string) (r : DeviceRecord) : DeviceRecord :=
    mkDevice (dr_uid r) (dr_short_uid r) (dr_port r) (dr_vid_pid r) (dr_role r)
      (dr_common_name r) (dr_device_name r) v (dr_raw_announcement r) (dr_state r)
      (dr_error_note r) (dr_host r) (dr_remote_lock_kind r) (dr_remote_lock_display r)
      (dr_chip_identity_name r) (dr_chip_identity_serial r) (dr_flash_count r) (dr_first_seen r)
      (dr_last_seen r) (dr_last_probe r).
Definition set_raw_announcement (v : option string) (r : DeviceRecord) : DeviceRecord :=
    mkDevice (dr_uid r) (dr_short_uid r) (dr_port r) (dr_vid_pid r) (dr_role r)
      (dr_common_name r) (dr_device_name r) (dr_serial_payload r) v (dr_state r)
      (dr_error_note r) (dr_host r) (dr_remote_lock_kind r) (dr_remote_lock_display r)
      (dr_chip_identity_name r) (dr_chip_identity_serial r) (dr_flash_count r) (dr_first_seen r)
      (dr_last_seen r) (dr_last_probe r).
Definition set_state (v : string) (r : DeviceRecord) : DeviceRecord :=
    mkDevice (dr_uid r) (dr_short_uid r) (dr_port r) (dr_vid_pid r) (dr_role r)
      (dr_common_name r) (dr_device_name r) (dr_serial_payload r) (dr_raw_announcement r) v
      (dr_error_note r) (dr_host r) (dr_remote_lock_kind r) (dr_remote_lock_display r)
      (dr_chip_identity_name r) (dr_chip_identity_serial r) (dr_flash_count r) (dr_first_seen r)
      (dr_last_seen r) (dr_last_probe r).
Definition set_error_note (v : option string) (r : DeviceRecord) : DeviceRecord :=
    mkDevice (dr_uid r) (dr_short_uid r) (dr_port r) (dr_vid_pid r) (dr_role r)
      (dr_common_name r) (dr_device_name r) (dr_serial_payload r) (dr_raw_announcement r)
      (dr_state r) v (dr_host r) (dr_remote_lock_kind r) (dr_remote_lock_display r)
      (dr_chip_identity_name r) (dr_chip_identity_serial r) (dr_flash_count r) (dr_first_seen r)
      (dr_last_seen r) (dr_last_probe r).
Definition set_host (v : option string) (r : DeviceRecord) : DeviceRecord :=
    mkDevice (dr_uid r) (dr_short_uid r) (dr_port r) (dr_vid_pid r) (dr_role r)
      (dr_common_name r) (dr_device_name r) (dr_serial_payload r) (dr_raw_announcement r)
      (dr_state r) (dr_error_note r) v (dr_remote_lock_kind r) (dr_remote_lock_display r)
      (dr_chip_identity_name r) (dr_chip_identity_serial r) (dr_flash_count r) (dr_first_seen r)
      (dr_last_seen r) (dr_last_probe r).
Definition set_remote_lock_kind (v : option string) (r : DeviceRecord) : DeviceRecord :=
    mkDevice (dr_uid r) (dr_short_uid r) (dr_port r) (dr_vid_pid r) (dr_role r)
      (dr_common_name r) (dr_device_name r) (dr_serial_payload r) (dr_raw_announcement r)
      (dr_state r) (dr_error_note r) (dr_host r) v (dr_remote_lock_display r)
      (dr_chip_identity_name r) (dr_chip_identity_serial r) (dr_flash_count r) (dr_first_seen r)
      (dr_last_seen r) (dr_last_probe r).
Definition set_remote_lock_display (v : option string) (r : DeviceRecord) : DeviceRecord :=
    mkDevice (dr_uid r) (dr_short_uid r) (dr_port r) (dr_vid_pid r) (dr_role r)
      (dr_common_name r) (dr_device_name r) (dr_serial_payload r) (dr_raw_announcement r)
      (dr_state r) (dr_error_note r) (dr_host r) (dr_remote_lock_kind r) v
      (dr_chip_identity_name r) (dr_chip_identity_serial r) (dr_flash_count r) (dr_first_seen r)
      (dr_last_seen r) (dr_last_probe r).
Definition set_chip_identity_name (v : option string) (r : DeviceRecord) : DeviceRecord :=
    mkDevice (dr_uid r) (dr_short_uid r) (dr_port r) (dr_vid_pid r) (dr_role r)
      (dr_common_name r) (dr_device_name r) (dr_serial_payload r) (dr_raw_announcement r)
      (dr_state r) (dr_error_note r) (dr_host r) (dr_remote_lock_kind r)
      (dr_remote_lock_display r) v (dr_chip_identity_serial r) (dr_flash_count r)
      (dr_first_seen r) (dr_last_seen r) (dr_last_probe r).
Definition set_chip_identity_serial (v : option Z) (r : DeviceRecord) : DeviceRecord :=
    mkDevice (dr_uid r) (dr_short_uid r) (dr_port r) (dr_vid_pid r) (dr_role r)
      (dr_common_name r) (dr_device_name r) (dr_serial_payload r) (dr_raw_announcement r)
      (dr_state r) (dr_error_note r) (dr_host r) (dr_remote_lock_kind r)
      (dr_remote_lock_display r) (dr_chip_identity_name r) v (dr_flash_count r)
      (dr_first_seen r) (dr_last_seen r) (dr_last_probe r).
Definition set_flash_count (v : Z) (r : DeviceRecord) : DeviceRecord :=
    mkDevice (dr_uid r) (dr_short_uid r) (dr_port r) (dr_vid_pid r) (dr_role r)
      (dr_common_name r) (dr_device_name r) (dr_serial_payload r) (dr_raw_announcement r)
      (dr_state r) (dr_error_note r) (dr_host r) (dr_remote_lock_kind r)
      (dr_remote_lock_display r) (dr_chip_identity_name r) (dr_chip_identity_serial r) v
      (dr_first_seen r) (dr_last_seen r) (dr_last_probe r).
Definition set_last_seen (v : Z) (r : DeviceRecord) : DeviceRecord :=
    mkDevice (dr_uid r) (dr_short_uid r) (dr_port r) (dr_vid_pid r) (dr_role r)
      (dr_common_name r) (dr_device_name r) (dr_serial_payload r) (dr_raw_announcement r)
      (dr_state r) (dr_error_note r) (dr_host r) (dr_remote_lock_kind r)
      (dr_remote_lock_display r) (dr_chip_identity_name r) (dr_chip_identity_serial r)
      (dr_flash_count r) (dr_first_seen r) v (dr_last_probe r).
Definition set_last_probe (v : Z) (r : DeviceRecord) : DeviceRecord :=
    mkDevice (dr_uid r) (dr_short_uid r) (dr_port r) (dr_vid_pid r) (dr_role r)
      (dr_common_name r) (dr_device_name r) (dr_serial_payload r) (dr_raw_announcement r)
      (dr_state r) (dr_error_note r) (dr_host r) (dr_remote_lock_kind r)
      (dr_remote_lock_display r) (dr_chip_identity_name r) (dr_chip_identity_serial r)
      (dr_flash_count r) (dr_first_seen r) (dr_last_seen r) v.

Record PeerRecord := mkPeer {
  pe_host : string;
  pe_endpoint : string;
  pe_last_seen : Z;
  pe_reachable : bool }.

#[export] Instance PeerRecord_eq_dec : EqDecision PeerRecord.
Proof. solve_decision. Defined.

Record Entry := mkEntry {
  en_name : string;
  en_channel : Z;
  en_group : Z;
  en_source : string;
  en_updated : Z;
  en_conflict : list string;
  en_channel_conflict : list string }.

#[export] Instance Entry_eq_dec : EqDecision Entry.
Proof. solve_decision. Defined.

Record db := mkDb {
  devices : list DeviceRecord;
  peers : list PeerRecord;
  names : list Entry }.

Definition set_devices (l : list DeviceRecord) (s : db) : db := mkDb l (peers s) (names s).
Definition set_peers (l : list PeerRecord) (s : db) : db := mkDb (devices s) l (names s).
Definition set_names (l : list Entry) (s : db) : db := mkDb (devices s) (peers s) l.

Definition empty_db : db := mkDb [] [] [].

Definition format_vid_pid (vid pid : Z) : string :=
  (Py.format_hex false 4 vid +:+ ":" +:+ Py.format_hex false 4 pid)%string.

(** ** Opening the database: the columns [_SCHEMA] creates, then the
    in-place migration *)

Definition SCHEMA_COLUMNS : list string :=
  ["uid"; "short_uid"; "port"; "vid_pid"; "role"; "common_name"; "device_name";
   "serial_payload"; "raw_announcement"; "state"; "error_note"; "flash_count";
   "first_seen"; "last_seen"; "last_probe"].
Definition NEW_DEVICE_COLUMNS : list string := ["host"; "remote_lock_kind"; "remote_lock_display"].
Definition CHIP_IDENTITY_COLUMNS : list string := ["chip_identity_name"; "chip_identity_serial"].

(** Tables of a database file: name and column names. *)
Definition schema : Type := list (string * list string).

Definition create_table_if_not_exists (t : string) (cols : list string) (s : schema) : schema :=
  match dget t s with Some _ => s | None => s ++ [(t, cols)] end.

Fixpoint add_missing_columns (existing new : list string) (cols : list string) : list string :=
  match new with
  | [] => cols
  | c :: new' =>
      add_missing_columns existing new'
        (if bool_decide (c ∈ existing) then cols else cols ++ [c])
  end.

Definition migrate_schema (s : schema) : schema :=
  let existing := match dget "device" s with Some c => c | None => [] end in
  let s := tupd fst "device"
             (fun t => (fst t, add_missing_columns existing
                                 (NEW_DEVICE_COLUMNS ++ CHIP_IDENTITY_COLUMNS) (snd t))) s in
  let s := create_table_if_not_exists "peer" ["host"; "endpoint"; "last_seen"; "reachable"] s in
  create_table_if_not_exists "name_registry"
    ["name"; "channel"; "radio_group"; "source"; "updated"] s.

Definition open_schema (s : schema) : schema :=
  migrate_schema (create_table_if_not_exists "device" SCHEMA_COLUMNS s).

(** ** Reads *)

Definition get (uid : string) (s : db) : option DeviceRecord := tfind dr_uid uid (devices s).

Definition get_peer (host : string) (s : db) : option PeerRecord := tfind pe_host host (peers s).

Definition needs_probe (uid : string) (s : db) : result bool :=
  match get uid s with
  | None => Err (KeyError uid)
  | Some r => Ok (dr_last_probe r =? 0)
  end.

(** [a = b COLLATE NOCASE], [NULL] matching nothing. *)
Definition nocase (a : option string) (b : string) : bool :=
  match a with Some a => String.eqb (Py.lower a) (Py.lower b) | None => false end.

Definition host_key (h : option string) : option string := option_map Py.lower h.

(** First occurrence of each distinct lower-cased host. *)
Fixpoint unique_hosts (seen : list (option string)) (hosts : list (option string))
    : list (option string) :=
  match hosts with
  | [] => []
  | h :: hs =>
      if bool_decide (host_key h ∈ seen) then unique_hosts seen hs
      else h :: unique_hosts (host_key h :: seen) hs
  end.

Definition display_host (h : option string) : string :=
  match h with None => "local" | Some h => h end.

Definition find (token : string) (s : db) : result (option DeviceRecord) :=
  if Py.sexists (Ascii.eqb "@") token then
    let '(name, _, host) := Py.rpartition "@" token in
    Ok (List.find (fun r => nocase (dr_device_name r) name && nocase (dr_host r) host) (devices s))
  else
    match tfind dr_uid token (devices s) with
    | Some r => Ok (Some r)
    | None =>
        match List.find (fun r => String.eqb (dr_short_uid r) token) (devices s) with
        | Some r => Ok (Some r)
        | None =>
            let matches := List.filter (fun r => nocase (dr_device_name r) token) (devices s) in
            match matches with
            | [] => Ok None
            | m :: _ =>
                let hosts := map dr_host matches in
                if (1 <? Z.of_nat (length (unique_hosts [] hosts))) then
                  Err (AmbiguousName token (map display_host (unique_hosts [] hosts)))
                else Ok (Some m)
            end
        end
    end.

Definition list_devices (s : db) : list DeviceRecord := devices s.

Definition is_virtual (r : DeviceRecord) : bool :=
  is_virtual_row (dr_host r) (dr_vid_pid r) (dr_port r).

Definition snapshot_local_devices (s : db) : list DeviceRecord :=
  List.filter (fun r => negb (is_virtual r))
    (List.filter (fun r => bool_decide (dr_host r = None) &&
                           negb (bool_decide (dr_state r = STATE_DISCONNECTED))) (devices s)).

Definition list_peers (s : db) : list PeerRecord := peers s.

(** ** Writes on the device table *)

(** [UPDATE device SET ... WHERE uid = ?], then the re-read record. *)
Definition update_device (uid : string) (f : DeviceRecord -> DeviceRecord) : M db DeviceRecord :=
  mmodify (fun s => set_devices (tupd dr_uid uid f (devices s)) s) ;;!
  r <-! mgets (get uid) ;;
  match r with Some r => mret r | None => mraise RuntimeError end.

(** The guard of the methods that require a record. *)
Definition update_existing (uid : string) (f : DeviceRecord -> DeviceRecord) : M db DeviceRecord :=
  existing <-! mgets (get uid) ;;
  match existing with
  | None => mraise (KeyError uid)
  | Some _ => update_device uid f
  end.

Definition new_device (uid : string) (port vid_pid host : option string) (now : Z) : DeviceRecord :=
  mkDevice uid (short_uid uid) port vid_pid None None None None None
    STATE_ATTACHED_UNPROBED None host None None None None 0 now now 0.

Definition row_reattached (host port vid_pid : option string) (now : Z)
    (r : DeviceRecord) : DeviceRecord :=
  set_last_probe 0 (set_last_seen now (set_host host (set_state STATE_ATTACHED_UNPROBED
    (set_vid_pid vid_pid (set_port port r))))).

Definition row_refreshed (host port vid_pid : option string) (now : Z)
    (r : DeviceRecord) : DeviceRecord :=
  set_last_seen now (set_host host (set_vid_pid vid_pid (set_port port r))).

(** A remote claim of a uid this host has attached now. *)
Definition rejects_claim (host : option string) (existing : DeviceRecord) : bool :=
  negb (bool_decide (host = None)) && bool_decide (dr_host existing = None) &&
  negb (bool_decide (dr_state existing = STATE_DISCONNECTED)).

Definition upsert_device (uid : string) (host port vid_pid : option string) (now : Z)
    : M db DeviceRecord :=
  existing <-! mgets (get uid) ;;
  match existing with
  | None =>
      mmodify (fun s => set_devices (devices s ++ [new_device uid port vid_pid host now]) s) ;;!
      r <-! mgets (get uid) ;;
      match r with Some r => mret r | None => mraise RuntimeError end
  | Some e =>
      if rejects_claim host e then mret e
      else if bool_decide (dr_state e = STATE_DISCONNECTED) then
        update_device uid (row_reattached host port vid_pid now)
      else update_device uid (row_refreshed host port vid_pid now)
  end.

Definition upsert_attached (uid port vid_pid : string) (now : Z) : M db DeviceRecord :=
  upsert_device uid None (Some port) (Some vid_pid) now.

Definition upsert_remote_attached (uid host : string) (port vid_pid : option string) (now : Z) : M db DeviceRecord :=
  upsert_device uid (Some host) port vid_pid now.

Definition row_probed (p : ProbeResult) (now : Z) (r : DeviceRecord) : DeviceRecord :=
  set_last_seen now (set_last_probe now (set_error_note None (set_state STATE_CONNECTED
    (set_raw_announcement (Some (pr_raw p)) (set_serial_payload (Some (pr_serial p))
      (set_device_name (Some (pr_device_name p)) (set_common_name (Some (pr_common_name p))
        (set_role (Some (pr_role p)) r)))))))).

Definition row_silent (state note : string) (now : Z) (r : DeviceRecord) : DeviceRecord :=
  set_last_seen now (set_last_probe now (set_error_note (Some note) (set_state state r))).

Definition apply_probe_result (uid : string) (res : option ProbeResult) (now : Z)
    : M db DeviceRecord :=
  update_existing uid
    match res with
    | Some p => row_probed p now
    | None => row_silent STATE_ATTACHED_NO_ANNOUNCE ERROR_NOTE_NO_ANNOUNCEMENT now
    end.

Definition apply_known_blank (uid : string) (now : Z) : M db DeviceRecord :=
  update_existing uid (row_silent STATE_CONNECTED_NO_FIRMWARE ERROR_NOTE_KNOWN_BLANK now).

Definition set_chip_identity (uid name : string) (serial : Z) : M db DeviceRecord :=
  existing <-! mgets (get uid) ;;
  match existing with
  | None => mraise (KeyError uid)
  | Some e =>
      match dr_chip_identity_name e with
      | Some _ => mret e
      | None => update_device uid (fun r => set_chip_identity_serial (Some serial)
                                              (set_chip_identity_name (Some name) r))
      end
  end.

Definition mark_disconnected (uid : string) (now : Z) : M db DeviceRecord :=
  update_existing uid (fun r => set_last_seen now (set_state STATE_DISCONNECTED r)).

Definition virtual_device (uid name role serial : string) (now : Z) : DeviceRecord :=
  mkDevice uid uid (Some (VIRTUAL_PORT_PREFIX +:+ name)%string) (Some VIRTUAL_VID_PID) (Some role)
    (Some "robot") (Some name) (Some serial) None STATE_CONNECTED None None None None None None
    0 now now now.

Definition upsert_virtual (uid name role serial : string) (now : Z) : M db DeviceRecord :=
  mmodify (fun s => set_devices (tdel dr_uid uid (devices s)) s) ;;!
  mmodify (fun s => set_devices (devices s ++ [virtual_device uid name role serial now]) s) ;;!
  r <-! mgets (get uid) ;;
  match r with Some r => mret r | None => mraise RuntimeError end.

Definition remove_virtual (uid : string) : M db (option DeviceRecord) :=
  record <-! mgets (get uid) ;;
  match record with
  | None => mret None
  | Some r =>
      if negb (is_virtual r) then mret None
      else mmodify (fun s => set_devices (tdel dr_uid uid (devices s)) s) ;;! mret (Some r)
  end.

Definition sweep_virtual : M db (list string) :=
  uids <-! mgets (fun s => map dr_uid (List.filter is_virtual (devices s))) ;;
  mfor uids (fun uid => mmodify (fun s => set_devices (tdel dr_uid uid (devices s)) s)) ;;!
  mret uids.

Definition increment_flash_count (uid : string) : M db DeviceRecord :=
  update_existing uid (fun r => set_flash_count (dr_flash_count r + 1) r).

Definition mark_remote_detached (uid : string) (now : Z) : M db DeviceRecord :=
  mark_disconnected uid now.

Definition apply_remote_probe (uid : string) (res : option ProbeResult) (now : Z)
    : M db DeviceRecord := apply_probe_result uid res now.

Definition apply_remote_lock_state (uid : string) (kind display : option string)
    : M db DeviceRecord :=
  update_existing uid (fun r => set_remote_lock_display display (set_remote_lock_kind kind r)).

(** ** Writes on the peer table *)

Definition record_peer_seen (host endpoint : string) (now : Z) : M db PeerRecord :=
  existing <-! mgets (get_peer host) ;;
  match existing with
  | None => mmodify (fun s => set_peers (peers s ++ [mkPeer host endpoint now true]) s)
  | Some _ => mmodify (fun s =>
      set_peers (tupd pe_host host (fun _ => mkPeer host endpoint now true) (peers s)) s)
  end ;;!
  r <-! mgets (get_peer host) ;;
  match r with Some r => mret r | None => mraise RuntimeError end.

Definition set_peer_reachable (host : string) (reachable : bool) : M db PeerRecord :=
  existing <-! mgets (get_peer host) ;;
  match existing with
  | None => mraise (KeyError host)
  | Some _ =>
      mmodify (fun s => set_peers
        (tupd pe_host host (fun p => mkPeer (pe_host p) (pe_endpoint p) (pe_last_seen p) reachable)
           (peers s)) s) ;;!
      r <-! mgets (get_peer host) ;;
      match r with Some r => mret r | None => mraise RuntimeError end
  end.

Definition mark_peer_unreachable (host : string) : M db PeerRecord := set_peer_reachable host false.
Definition mark_peer_reachable (host : string) : M db PeerRecord := set_peer_reachable host true.

(** ** Purge *)

Record PurgeCandidates := mkPurgeCandidates {
  local_disconnected : list string;
  unreachable_peer_owned : list string;
  reachable_peer_stale_disconnected : list string;
  unreachable_peers : list string }.

Definition device_uids (c : PurgeCandidates) : list string :=
  local_disconnected c ++ unreachable_peer_owned c ++ reachable_peer_stale_disconnected c.

(** [host IN (SELECT host FROM peer WHERE reachable = b)]; [NULL] is in nothing. *)
Definition host_in_peers (b : bool) (host : option string) (ps : list PeerRecord) : bool :=
  match host with
  | None => false
  | Some h => existsb (fun p => Bool.eqb (pe_reachable p) b && String.eqb (pe_host p) h) ps
  end.

Definition is_disconnected (r : DeviceRecord) : bool :=
  bool_decide (dr_state r = STATE_DISCONNECTED).

Definition candidates_for_purge (s : db) : PurgeCandidates := {|
  local_disconnected := map dr_uid
    (List.filter (fun r => bool_decide (dr_host r = None) && is_disconnected r) (devices s));
  unreachable_peer_owned := map dr_uid
    (List.filter (fun r => negb (bool_decide (dr_host r = None)) && host_in_peers false (dr_host r) (peers s))
       (devices s));
  reachable_peer_stale_disconnected := map dr_uid
    (List.filter (fun r => negb (bool_decide (dr_host r = None)) && is_disconnected r &&
                           host_in_peers true (dr_host r) (peers s)) (devices s));
  unreachable_peers := map pe_host (List.filter (fun p => negb (pe_reachable p)) (peers s)) |}.

(** The re-check of the conditional [DELETE], against the peer table. *)
Definition purgeable (ps : list PeerRecord) (r : DeviceRecord) : bool :=
  is_disconnected r || host_in_peers false (dr_host r) ps.

Definition purge (uids hosts : list string) : M db (list string * list string) :=
  s <-! mget ;;
  let '(removed_devices, ds) := delete_each dr_uid (purgeable (peers s)) uids [] (devices s) in
  let '(removed_peers, ps) := delete_each pe_host (fun p => negb (pe_reachable p)) hosts []
                                (peers s) in
  mput (mkDb ds ps (names s)) ;;! mret (removed_devices, removed_peers).

(** ** The operations as one step function *)

Inductive store_op :=
| OUpsert (uid : string) (host port vid_pid : option string)
| OProbe (uid : string) (res : option ProbeResult)
| OBlank (uid : string)
| OChip (uid name : string) (serial : Z)
| ODisconnect (uid : string)
| OVirtual (uid name role serial : string)
| ORemoveVirtual (uid : string)
| OSweepVirtual
| OFlashCount (uid : string)
| ORemoteLock (uid : string) (kind display : option string)
| OPeerSeen (host endpoint : string)
| OPeerReachable (host : string) (reachable : bool)
| OPurge (uids hosts : list string).

Definition exec (o : store_op) (now : Z) : M db unit :=
  match o with
  | OUpsert uid host port vid_pid => upsert_device uid host port vid_pid now ;;! mret tt
  | OProbe uid res => apply_probe_result uid res now ;;! mret tt
  | OBlank uid => apply_known_blank uid now ;;! mret tt
  | OChip uid name serial => set_chip_identity uid name serial ;;! mret tt
  | ODisconnect uid => mark_disconnected uid now ;;! mret tt
  | OVirtual uid name role serial => upsert_virtual uid name role serial now ;;! mret tt
  | ORemoveVirtual uid => remove_virtual uid ;;! mret tt
  | OSweepVirtual => sweep_virtual ;;! mret tt
  | OFlashCount uid => increment_flash_count uid ;;! mret tt
  | ORemoteLock uid kind display => apply_remote_lock_state uid kind display ;;! mret tt
  | OPeerSeen host endpoint => record_peer_seen host endpoint now ;;! mret tt
  | OPeerReachable host reachable => set_peer_reachable host reachable ;;! mret tt
  | OPurge uids hosts => purge uids hosts ;;! mret tt
  end.

(** Primary keys are unique. *)
Definition keys_ok (s : db) : Prop :=
  unique dr_uid (devices s) /\ unique pe_host (peers s) /\ unique en_name (names s).

(** The two finite maps the tables stand for. *)
Definition device_map (s : db) : gmap string DeviceRecord :=
  list_to_map (map (fun r => (dr_uid r, r)) (devices s)).
Definition peer_map (s : db) : gmap string PeerRecord :=
  list_to_map (map (fun p => (pe_host p, p)) (peers s)).

(** ** Abstract specification of every operation, on finite maps *)

Definition host_unreachable (P : gmap string PeerRecord) (host : option string) : bool :=
  match host with
  | None => false
  | Some h => match P !! h with Some p => negb (pe_reachable p) | None => false end
  end.

Definition spec_purgeable (P : gmap string PeerRecord) (r : DeviceRecord) : bool :=
  is_disconnected r || host_unreachable P (dr_host r).

Definition spec_devices (o : store_op) (now : Z) (D : gmap string DeviceRecord)
    (P : gmap string PeerRecord) : gmap string DeviceRecord :=
  match o with
  | OUpsert uid host port vid_pid =>
      match D !! uid with
      | None => <[uid := new_device uid port vid_pid host now]> D
      | Some e => if rejects_claim host e then D
                  else <[uid := if is_disconnected e then row_reattached host port vid_pid now e
                                else row_refreshed host port vid_pid now e]> D
      end
  | OProbe uid (Some p) => alter (row_probed p now) uid D
  | OProbe uid None =>
      alter (row_silent STATE_ATTACHED_NO_ANNOUNCE ERROR_NOTE_NO_ANNOUNCEMENT now) uid D
  | OBlank uid => alter (row_silent STATE_CONNECTED_NO_FIRMWARE ERROR_NOTE_KNOWN_BLANK now) uid D
  | OChip uid name serial =>
      alter (fun r => match dr_chip_identity_name r with
                      | Some _ => r
                      | None => set_chip_identity_serial (Some serial)
                                  (set_chip_identity_name (Some name) r)
                      end) uid D
  | ODisconnect uid => alter (fun r => set_last_seen now (set_state STATE_DISCONNECTED r)) uid D
  | OVirtual uid name role serial => <[uid := virtual_device uid name role serial now]> D
  | ORemoveVirtual uid =>
      match D !! uid with Some r => if is_virtual r then delete uid D else D | None => D end
  | OSweepVirtual => filter (fun kr => is_virtual kr.2 = false) D
  | OFlashCount uid => alter (fun r => set_flash_count (dr_flash_count r + 1) r) uid D
  | ORemoteLock uid kind display =>
      alter (fun r => set_remote_lock_display display (set_remote_lock_kind kind r)) uid D
  | OPeerSeen _ _ | OPeerReachable _ _ => D
  | OPurge uids _ => filter (fun kr => ~ (kr.1 ∈ uids /\ spec_purgeable P kr.2 = true)) D
  end.

Definition spec_peers (o : store_op) (now : Z) (P : gmap string PeerRecord)
    : gmap string PeerRecord :=
  match o with
  | OPeerSeen host endpoint => <[host := mkPeer host endpoint now true]> P
  | OPeerReachable host b =>
      alter (fun p => mkPeer (pe_host p) (pe_endpoint p) (pe_last_seen p) b) host P
  | OPurge _ hosts => filter (fun hp => ~ (hp.1 ∈ hosts /\ pe_reachable hp.2 = false)) P
  | _ => P
  end.

(** The record an operation needs, if any: without it, [KeyError]. *)
Definition required (o : store_op) : option (string + string) :=
  match o with
  | OProbe uid _ | OBlank uid | OChip uid _ _ | ODisconnect uid | OFlashCount uid
  | ORemoteLock uid _ _ => Some (inl uid)
  | OPeerReachable host _ => Some (inr host)
  | _ => None
  end.

Definition spec_result (o : store_op) (D : gmap string DeviceRecord) (P : gmap string PeerRecord)
    : result unit :=
  match required o with
  | Some (inl uid) => match D !! uid with Some _ => Ok tt | None => Err (KeyError uid) end
  | Some (inr host) => match P !! host with Some _ => Ok tt | None => Err (KeyError host) end
  | None => Ok tt
  end.

(** ** Lemmas on the tables *)

Lemma list_to_map_keyed {R} (key : R -> string) (l : list R) k :
  (list_to_map (map (fun r => (key r, r)) l) : gmap string R) !! k = tfind key k l.
Proof.
  induction l as [|r l IH]; [reflexivity|]. rewrite tfind_cons. cbn [map list_to_map foldr].
  simpl. destruct (bool_decide_reflect (key r = k)) as [->|E].
  - apply lookup_insert_eq.
  - rewrite lookup_insert_ne by exact E. exact IH.
Qed.

Lemma device_map_lookup s k : device_map s !! k = get k s.
Proof. apply list_to_map_keyed. Qed.
Lemma peer_map_lookup s k : peer_map s !! k = get_peer k s.
Proof. apply list_to_map_keyed. Qed.

Lemma get_set_devices k l s : get k (set_devices l s) = tfind dr_uid k l.
Proof. reflexivity. Qed.

Lemma get_uid k s r : get k s = Some r -> dr_uid r = k.
Proof. apply tfind_key. Qed.

(** Keeping the key. *)
Definition keeps_uid (f : DeviceRecord -> DeviceRecord) : Prop := forall r, dr_uid (f r) = dr_uid r.

Lemma update_device_run uid f s r : keeps_uid f -> get uid s = Some r ->
  update_device uid f s = (Ok (f r), set_devices (tupd dr_uid uid f (devices s)) s).
Proof.
  intros Hk Hg. unfold update_device, mbind, mmodify, mgets. rewrite get_set_devices.
  rewrite tfind_tupd_eq by (intros r' <-; apply Hk).
  change (tfind dr_uid uid (devices s)) with (get uid s). rewrite Hg. reflexivity.
Qed.

Lemma update_existing_run uid f s : keeps_uid f ->
  update_existing uid f s =
  match get uid s with
  | Some r => (Ok (f r), set_devices (tupd dr_uid uid f (devices s)) s)
  | None => (Err (KeyError uid), s)
  end.
Proof.
  intros Hk. unfold update_existing, mbind at 1, mgets.
  destruct (get uid s) as [r|] eqn:Hg; [|reflexivity]. apply update_device_run; assumption.
Qed.

Lemma get_tupd k uid f s : keeps_uid f ->
  get k (set_devices (tupd dr_uid uid f (devices s)) s) =
  if bool_decide (uid = k) then option_map f (get k s) else get k s.
Proof.
  intros Hk. rewrite get_set_devices. destruct (bool_decide_reflect (uid = k)) as [->|E].
  - apply tfind_tupd_eq. intros r <-. apply Hk.
  - apply tfind_tupd_ne; [exact E|]. intros r <-. apply Hk.
Qed.

Lemma device_map_tupd uid f s : keeps_uid f ->
  device_map (set_devices (tupd dr_uid uid f (devices s)) s) = alter f uid (device_map s).
Proof.
  intros Hk. apply map_eq. intros k. rewrite device_map_lookup, get_tupd by exact Hk.
  rewrite lookup_alter, !device_map_lookup.
  destruct (bool_decide_reflect (uid = k)) as [->|E]; case_decide; try congruence; destruct (get k s); reflexivity.
Qed.

Lemma device_map_snoc r s : get (dr_uid r) s = None ->
  device_map (set_devices (devices s ++ [r]) s) = <[dr_uid r := r]> (device_map s).
Proof.
  intros Hn. apply map_eq. intros k. rewrite device_map_lookup, get_set_devices, tfind_app.
  fold (get k s). rewrite tfind_cons. destruct (bool_decide_reflect (dr_uid r = k)) as [<-|E].
  - rewrite Hn, lookup_insert_eq. reflexivity.
  - rewrite lookup_insert_ne, device_map_lookup by exact E. destruct (get k s); reflexivity.
Qed.

Lemma device_map_tdel uid s :
  device_map (set_devices (tdel dr_uid uid (devices s)) s) = delete uid (device_map s).
Proof.
  apply map_eq. intros k. rewrite device_map_lookup, get_set_devices.
  destruct (decide (uid = k)) as [->|E].
  - rewrite tfind_tdel_eq, lookup_delete_eq. reflexivity.
  - rewrite tfind_tdel_ne, lookup_delete_ne, device_map_lookup by exact E. reflexivity.
Qed.

Lemma peer_map_set_devices l s : peer_map (set_devices l s) = peer_map s.
Proof. reflexivity. Qed.

(** *** Purge *)

Lemma existsb_host P b h :
  unique pe_host P ->
  existsb (fun p => Bool.eqb (pe_reachable p) b && String.eqb (pe_host p) h) P =
  match tfind pe_host h P with Some p => Bool.eqb (pe_reachable p) b | None => false end.
Proof.
  intros Hu. induction P as [|p P IH]; [reflexivity|]. rewrite tfind_cons. cbn [existsb].
  unfold unique in Hu. cbn [map] in Hu. apply NoDup_cons in Hu as [Hn Hu].
  rewrite (IH Hu). destruct (bool_decide_reflect (pe_host p = h)) as [<-|E].
  - rewrite String.eqb_refl, andb_true_r.
    replace (tfind pe_host (pe_host p) P) with (@None PeerRecord).
    + apply orb_false_r.
    + symmetry. apply tfind_none. rewrite <- list_elem_of_In. exact Hn.
  - apply String.eqb_neq in E. rewrite E, andb_false_r. reflexivity.
Qed.

Lemma host_in_peers_spec ps b h : unique pe_host ps ->
  host_in_peers b h ps =
  match h with
  | Some h => match tfind pe_host h ps with Some p => Bool.eqb (pe_reachable p) b | None => false end
  | None => false
  end.
Proof. intros Hu. destruct h as [h|]; [|reflexivity]. apply existsb_host. exact Hu. Qed.

Lemma purgeable_spec s r : unique pe_host (peers s) ->
  purgeable (peers s) r = spec_purgeable (peer_map s) r.
Proof.
  intros Hu. unfold purgeable, spec_purgeable, host_unreachable.
  rewrite host_in_peers_spec by exact Hu. f_equal. destruct (dr_host r) as [h|]; [|reflexivity].
  rewrite peer_map_lookup. unfold get_peer. destruct (tfind pe_host h (peers s)) as [p|]; [|reflexivity].
  destruct (pe_reachable p); reflexivity.
Qed.

(** [purge] on the tables: what it reports and what is left. *)
Lemma purge_run uids hosts s : exists rd rp s',
  purge uids hosts s = (Ok (rd, rp), s') /\ names s' = names s /\
  (keys_ok s -> keys_ok s') /\
  (forall k, get k s' = match get k s with
                        | Some r => if bool_decide (k ∈ uids) && purgeable (peers s) r
                                    then None else Some r
                        | None => None
                        end) /\
  (forall k, get_peer k s' = match get_peer k s with
                             | Some p => if bool_decide (k ∈ hosts) && negb (pe_reachable p)
                                         then None else Some p
                             | None => None
                             end) /\
  (forall k, In k rd <-> In k uids /\ exists r, get k s = Some r /\ purgeable (peers s) r = true) /\
  (forall k, In k rp <-> In k hosts /\ exists p, get_peer k s = Some p /\ negb (pe_reachable p) = true).
Proof.
  unfold purge, mbind, mget.
  destruct (delete_each_spec dr_uid (purgeable (peers s)) uids [] (devices s))
    as (rd & ds & E1 & U1 & G1 & R1).
  destruct (delete_each_spec pe_host (fun p => negb (pe_reachable p)) hosts [] (peers s))
    as (rp & ps & E2 & U2 & G2 & R2).
  rewrite E1, E2. exists rd, rp, (mkDb ds ps (names s)).
  split; [reflexivity|]. split; [reflexivity|].
  split; [intros (H1 & H2 & H3); exact (conj (U1 H1) (conj (U2 H2) H3))|].
  split; [exact G1|]. split; [exact G2|]. split; [exact R1|exact R2].
Qed.

(** *** Every operation refines its specification *)

Definition refines (o : store_op) (now : Z) (s : db) : Prop :=
  device_map (mstate (exec o now) s) = spec_devices o now (device_map s) (peer_map s) /\
  peer_map (mstate (exec o now) s) = spec_peers o now (peer_map s) /\
  mresult (exec o now) s = spec_result o (device_map s) (peer_map s) /\
  keys_ok (mstate (exec o now) s).

Lemma keys_set_devices s l : keys_ok s -> unique dr_uid l -> keys_ok (set_devices l s).
Proof. intros (_ & H2 & H3) H. exact (conj H (conj H2 H3)). Qed.

Lemma keys_tupd s uid f : keeps_uid f -> keys_ok s ->
  keys_ok (set_devices (tupd dr_uid uid f (devices s)) s).
Proof.
  intros Hk H. apply keys_set_devices; [exact H|]. apply unique_tupd; [|apply H].
  intros r <-. apply Hk.
Qed.

(** The pattern of the guarded single-row updates. *)
Lemma update_existing_refines uid f s : keeps_uid f -> keys_ok s ->
  let m := update_existing uid f in
  device_map (mstate m s) = alter f uid (device_map s) /\
  peer_map (mstate m s) = peer_map s /\
  mresult m s = match get uid s with Some r => Ok (f r) | None => Err (KeyError uid) end /\
  keys_ok (mstate m s).
Proof.
  intros Hk Hs m. unfold m, mstate, mresult. rewrite update_existing_run by exact Hk.
  destruct (get uid s) as [r|] eqn:Hg; cbn [fst snd].
  - split; [apply device_map_tupd; exact Hk|]. split; [reflexivity|]. split; [reflexivity|].
    apply keys_tupd; assumption.
  - split; [|auto]. apply map_eq. intros k. rewrite lookup_alter.
    case_decide as E; [|reflexivity]. subst k. rewrite device_map_lookup, Hg. reflexivity.
Qed.

(** A guarded single-row update refines [alter]. *)
Lemma update_existing_op o now s uid f :
  exec o now = (update_existing uid f ;;! mret tt)%py ->
  spec_devices o now (device_map s) (peer_map s) = alter f uid (device_map s) ->
  spec_peers o now (peer_map s) = peer_map s -> required o = Some (inl uid) ->
  keeps_uid f -> keys_ok s -> refines o now s.
Proof.
  intros He Hd Hp Hr Hk Hs. destruct (update_existing_refines uid f s Hk Hs) as (A & B & C & D).
  unfold refines. rewrite He, bind_ret_state, bind_ret_result, Hd, Hp, C.
  repeat split; auto. 2-4: apply D.
  unfold spec_result. rewrite Hr, device_map_lookup. destruct (get uid s); reflexivity.
Qed.

Lemma chip_update e uid name serial s : get uid s = Some e ->
  alter (fun r => match dr_chip_identity_name r with
                  | Some _ => r
                  | None => set_chip_identity_serial (Some serial) (set_chip_identity_name (Some name) r)
                  end) uid (device_map s) =
  match dr_chip_identity_name e with
  | Some _ => device_map s
  | None => alter (fun r => set_chip_identity_serial (Some serial)
                              (set_chip_identity_name (Some name) r)) uid (device_map s)
  end.
Proof.
  intros Hg. apply map_eq. intros k.
  destruct (dr_chip_identity_name e) eqn:Hc; rewrite !lookup_alter;
    (case_decide as E; [subst k|reflexivity]); rewrite device_map_lookup, Hg; cbn; rewrite Hc; reflexivity.
Qed.

Definition row_chip (name : string) (serial : Z) (r : DeviceRecord) : DeviceRecord :=
  set_chip_identity_serial (Some serial) (set_chip_identity_name (Some name) r).

Lemma set_chip_identity_run uid name serial s : set_chip_identity uid name serial s =
  match get uid s with
  | None => (Err (KeyError uid), s)
  | Some e => match dr_chip_identity_name e with
              | Some _ => (Ok e, s)
              | None => (Ok (row_chip name serial e),
                         set_devices (tupd dr_uid uid (row_chip name serial) (devices s)) s)
              end
  end.
Proof.
  unfold set_chip_identity, mbind, mgets. destruct (get uid s) as [e|] eqn:Hg; [|reflexivity].
  destruct (dr_chip_identity_name e); [reflexivity|].
  apply (update_device_run uid (row_chip name serial)); [intros r; reflexivity|exact Hg].
Qed.

Lemma exec_chip_refines uid name serial now s : keys_ok s -> refines (OChip uid name serial) now s.
Proof.
  intros Hs. unfold refines. cbn [exec]. rewrite bind_ret_state, bind_ret_result.
  unfold mstate, mresult. rewrite set_chip_identity_run. cbn [spec_devices spec_peers].
  unfold spec_result. cbn [required]. rewrite device_map_lookup.
  destruct (get uid s) as [e|] eqn:Hg.
  - rewrite (chip_update e) by exact Hg. destruct (dr_chip_identity_name e) eqn:Hc; [cbn; auto|].
    cbn [fst snd].
    split; [apply (device_map_tupd uid (row_chip name serial)); intros r; reflexivity|].
    split; [reflexivity|]. split; [reflexivity|].
    apply (keys_tupd s uid (row_chip name serial)); [intros r; reflexivity|exact Hs].
  - cbn [fst snd]. split; [|auto]. apply map_eq. intros k. rewrite lookup_alter.
    case_decide as E; [|reflexivity]. subst k. rewrite device_map_lookup, Hg. reflexivity.
Qed.

Lemma alter_insert_eq {A} (f : A -> A) k (m : gmap string A) a : m !! k = Some a ->
  alter f k m = <[k := f a]> m.
Proof.
  intros H. apply map_eq. intros k'. rewrite lookup_alter, lookup_insert.
  case_decide as E; [subst k'; rewrite H; reflexivity|reflexivity].
Qed.

(** The row an accepted upsert writes over an existing one. *)
Definition row_upserted (disconnected : bool) (host port vid_pid : option string)
    (now : Z) : DeviceRecord -> DeviceRecord :=
  if disconnected then row_reattached host port vid_pid now else row_refreshed host port vid_pid now.

Lemma row_upserted_uid d host port vid_pid now : keeps_uid (row_upserted d host port vid_pid now).
Proof. intros r. destruct d; reflexivity. Qed.

(** Every branch of an upsert. *)
Lemma upsert_device_run uid host port vid_pid now s : upsert_device uid host port vid_pid now s =
  match get uid s with
  | None => (Ok (new_device uid port vid_pid host now),
             set_devices (devices s ++ [new_device uid port vid_pid host now]) s)
  | Some e =>
      if rejects_claim host e then (Ok e, s)
      else (Ok (row_upserted (is_disconnected e) host port vid_pid now e),
            set_devices (tupd dr_uid uid (row_upserted (is_disconnected e) host port vid_pid now)
                           (devices s)) s)
  end.
Proof.
  unfold upsert_device, mbind, mgets. destruct (get uid s) as [e|] eqn:Hg.
  - destruct (rejects_claim host e); [reflexivity|]. unfold row_upserted, is_disconnected.
    destruct (bool_decide (dr_state e = STATE_DISCONNECTED));
      apply update_device_run; (exact Hg || (intros r; reflexivity)).
  - unfold mmodify. rewrite get_set_devices, tfind_app. fold (get uid s). rewrite Hg.
    rewrite tfind_cons. rewrite bool_decide_true by reflexivity. reflexivity.
Qed.

Lemma exec_upsert_refines uid host port vid_pid now s : keys_ok s ->
  refines (OUpsert uid host port vid_pid) now s.
Proof.
  intros Hs. unfold refines. cbn [exec]. rewrite bind_ret_state, bind_ret_result.
  unfold mstate, mresult. rewrite upsert_device_run.
  cbn [spec_devices spec_peers]. unfold spec_result. cbn [required]. rewrite device_map_lookup.
  destruct (get uid s) as [e|] eqn:Hg.
  - destruct (rejects_claim host e); [cbn; auto|]. cbn [fst snd].
    split; [|split; [reflexivity|split; [reflexivity|apply keys_tupd; [apply row_upserted_uid|exact Hs]]]].
    rewrite device_map_tupd by apply row_upserted_uid.
    rewrite (alter_insert_eq _ _ _ e) by (rewrite device_map_lookup; exact Hg).
    unfold row_upserted. destruct (is_disconnected e); reflexivity.
  - cbn [fst snd].
    split; [exact (device_map_snoc (new_device uid port vid_pid host now) s Hg)|].
    split; [reflexivity|]. split; [reflexivity|].
    apply keys_set_devices; [exact Hs|]. apply unique_snoc; [apply Hs|exact Hg].
Qed.

Lemma exec_virtual_refines uid name role serial now s : keys_ok s ->
  refines (OVirtual uid name role serial) now s.
Proof.
  intros Hs. unfold refines. cbn [exec]. rewrite bind_ret_state, bind_ret_result.
  unfold upsert_virtual, mstate, mresult, mbind, mmodify, mgets.
  set (s1 := set_devices (tdel dr_uid uid (devices s)) s).
  assert (Hg : get uid s1 = None) by apply tfind_tdel_eq.
  assert (Hs1 : keys_ok s1) by (apply keys_set_devices; [exact Hs|apply unique_tdel, Hs]).
  rewrite get_set_devices, tfind_app. fold (get uid s1). rewrite Hg, tfind_cons.
  rewrite bool_decide_true by reflexivity. cbn [fst snd spec_devices spec_peers].
  split; [|split; [reflexivity|split; [reflexivity|]]].
  - etransitivity; [exact (device_map_snoc (virtual_device uid name role serial now) s1 Hg)|].
    unfold s1. rewrite device_map_tdel. apply insert_delete_eq.
  - apply keys_set_devices; [exact Hs1|]. apply unique_snoc; [apply Hs1|exact Hg].
Qed.

Lemma remove_virtual_run uid s : remove_virtual uid s =
  match get uid s with
  | None => (Ok None, s)
  | Some r => if is_virtual r then (Ok (Some r), set_devices (tdel dr_uid uid (devices s)) s)
              else (Ok None, s)
  end.
Proof.
  unfold remove_virtual, mbind, mgets. destruct (get uid s) as [r|]; [|reflexivity].
  destruct (is_virtual r); reflexivity.
Qed.

Lemma exec_remove_virtual_refines uid now s : keys_ok s -> refines (ORemoveVirtual uid) now s.
Proof.
  intros Hs. unfold refines. cbn [exec]. rewrite bind_ret_state, bind_ret_result.
  unfold mstate, mresult. rewrite remove_virtual_run.
  cbn [spec_devices spec_peers]. unfold spec_result. cbn [required]. rewrite device_map_lookup.
  destruct (get uid s) as [r|]; [|cbn; auto].
  destruct (is_virtual r); [|cbn; auto]. cbn [fst snd].
  split; [apply device_map_tdel|]. split; [reflexivity|]. split; [reflexivity|].
  apply keys_set_devices; [exact Hs|]. apply unique_tdel, Hs.
Qed.

(** Deleting a list of uids one by one. *)
Lemma mfor_tdel uids s : exists s',
  mfor uids (fun uid => mmodify (fun s => set_devices (tdel dr_uid uid (devices s)) s)) s = (Ok tt, s') /\
  peers s' = peers s /\ (keys_ok s -> keys_ok s') /\
  forall k, get k s' = if bool_decide (k ∈ uids) then None else get k s.
Proof.
  revert s. induction uids as [|u uids IH]; intros s.
  - exists s. split; [reflexivity|]. auto.
  - destruct (IH (set_devices (tdel dr_uid u (devices s)) s)) as (s' & E & Hp & Hk & Hg).
    exists s'. cbn [mfor]. unfold mbind, mmodify at 1. rewrite E. split; [reflexivity|].
    split; [exact Hp|]. split; [intros H; apply Hk, keys_set_devices; [exact H|apply unique_tdel, H]|].
    intros k. rewrite Hg, get_set_devices. destruct (decide (u = k)) as [->|Hne].
    + rewrite tfind_tdel_eq, (bool_decide_true (k ∈ k :: uids)) by constructor.
      destruct (bool_decide (k ∈ uids)); reflexivity.
    + rewrite tfind_tdel_ne by exact Hne. fold (get k s).
      replace (bool_decide (k ∈ u :: uids)) with (bool_decide (k ∈ uids)); [reflexivity|].
      apply bool_decide_ext. rewrite elem_of_cons. intuition congruence.
Qed.

Lemma exec_sweep_refines now s : keys_ok s -> refines OSweepVirtual now s.
Proof.
  intros Hs. unfold refines. cbn [exec]. rewrite bind_ret_state, bind_ret_result.
  unfold sweep_virtual, mstate, mresult, mbind, mgets.
  destruct (mfor_tdel (map dr_uid (List.filter is_virtual (devices s))) s) as (s' & E & Hp & Hk & Hg).
  rewrite E. cbn [fst snd mret spec_devices spec_peers].
  split; [|split; [unfold peer_map; rewrite Hp; reflexivity|split; [reflexivity|exact (Hk Hs)]]].
  apply map_eq. intros k. rewrite device_map_lookup, Hg, map_lookup_filter, device_map_lookup.
  destruct (get k s) as [r|] eqn:Hr; cbn.
  2: { destruct (bool_decide _); reflexivity. }
  assert (Hin : k ∈ map dr_uid (List.filter is_virtual (devices s)) <-> is_virtual r = true).
  { rewrite list_elem_of_In, in_map_iff. split.
    - intros (r' & Hk' & Hf). apply filter_In in Hf as [Hf Hv].
      assert (get k s = Some r') as E' by (rewrite <- Hk'; apply tfind_unique; [apply Hs|exact Hf]).
      congruence.
    - intros Hv. exists r. split; [exact (get_uid _ _ _ Hr)|]. apply filter_In.
      split; [exact (tfind_in _ _ _ _ Hr)|exact Hv]. }
  destruct (is_virtual r) eqn:Hv.
  - rewrite bool_decide_true by tauto. rewrite option_guard_False by (cbn; congruence). reflexivity.
  - rewrite bool_decide_false by (rewrite Hin; discriminate).
    rewrite option_guard_True by (cbn; reflexivity || exact Hv). reflexivity.
Qed.

Lemma exec_purge_refines uids hosts now s : keys_ok s -> refines (OPurge uids hosts) now s.
Proof.
  intros Hs. unfold refines. cbn [exec]. rewrite bind_ret_state, bind_ret_result.
  unfold mstate, mresult.
  destruct (purge_run uids hosts s) as (rd & rp & s' & E & _ & Hk & Hg & Hp & _ & _).
  rewrite E. cbn [fst snd spec_devices spec_peers].
  split; [|split; [|split; [reflexivity|exact (Hk Hs)]]]; apply map_eq; intros k.
  - rewrite device_map_lookup, Hg, map_lookup_filter, device_map_lookup.
    destruct (get k s) as [r|]; [|reflexivity]. cbn.
    rewrite (purgeable_spec s r) by apply Hs.
    destruct (bool_decide_reflect (k ∈ uids)) as [Hi|Hi], (spec_purgeable (peer_map s) r) eqn:Hp';
      cbn [andb]; case_guard; try reflexivity; exfalso; cbn in *; intuition congruence.
  - rewrite peer_map_lookup, Hp, map_lookup_filter, peer_map_lookup.
    destruct (get_peer k s) as [p|]; [|reflexivity]. cbn.
    destruct (bool_decide_reflect (k ∈ hosts)) as [Hi|Hi], (pe_reachable p) eqn:Hp';
      cbn [andb negb]; case_guard; try reflexivity; exfalso; cbn in *; intuition congruence.
Qed.

Lemma peer_map_tupd host f s : (forall p, pe_host p = host -> pe_host (f p) = host) ->
  peer_map (set_peers (tupd pe_host host f (peers s)) s) = alter f host (peer_map s).
Proof.
  intros Hf. apply map_eq. intros k. rewrite lookup_alter, !peer_map_lookup.
  unfold get_peer, set_peers. cbn [peers]. case_decide as E.
  - subst k. rewrite tfind_tupd_eq by exact Hf. destruct (tfind pe_host host (peers s)); reflexivity.
  - rewrite tfind_tupd_ne by assumption. reflexivity.
Qed.

Lemma peer_map_snoc p s : get_peer (pe_host p) s = None ->
  peer_map (set_peers (peers s ++ [p]) s) = <[pe_host p := p]> (peer_map s).
Proof.
  intros Hn. apply map_eq. intros k. rewrite peer_map_lookup, lookup_insert, peer_map_lookup.
  unfold get_peer, set_peers in *. cbn [peers]. rewrite tfind_app, tfind_cons.
  case_decide as E.
  - subst k. rewrite Hn, bool_decide_true; reflexivity.
  - rewrite bool_decide_false by exact E. destruct (tfind pe_host k (peers s)); reflexivity.
Qed.

Lemma keys_set_peers s l : keys_ok s -> unique pe_host l -> keys_ok (set_peers l s).
Proof. intros (H1 & _ & H3) H. exact (conj H1 (conj H H3)). Qed.

(** The peer row [record_peer_seen] leaves. *)
Lemma record_peer_seen_run host endpoint now s :
  record_peer_seen host endpoint now s =
  (Ok (mkPeer host endpoint now true),
   set_peers match get_peer host s with
             | None => peers s ++ [mkPeer host endpoint now true]
             | Some _ => tupd pe_host host (fun _ => mkPeer host endpoint now true) (peers s)
             end s).
Proof.
  unfold record_peer_seen, mbind, mgets. destruct (get_peer host s) as [p|] eqn:Hg;
    unfold mmodify, get_peer, set_peers in *; cbn [peers].
  - rewrite tfind_tupd_eq by reflexivity. rewrite Hg. reflexivity.
  - rewrite tfind_app, Hg, tfind_cons, bool_decide_true by reflexivity. reflexivity.
Qed.

Definition peer_with_reachable (b : bool) (p : PeerRecord) : PeerRecord :=
  mkPeer (pe_host p) (pe_endpoint p) (pe_last_seen p) b.

Lemma set_peer_reachable_run host b s : set_peer_reachable host b s =
  match get_peer host s with
  | None => (Err (KeyError host), s)
  | Some p => (Ok (peer_with_reachable b p),
               set_peers (tupd pe_host host (peer_with_reachable b) (peers s)) s)
  end.
Proof.
  unfold set_peer_reachable, mbind, mgets. destruct (get_peer host s) as [p|] eqn:Hg; [|reflexivity].
  unfold mmodify, get_peer, set_peers in *. cbn [peers].
  rewrite tfind_tupd_eq by (intros p' <-; reflexivity). rewrite Hg. reflexivity.
Qed.

Lemma exec_peer_seen_refines host endpoint now s : keys_ok s ->
  refines (OPeerSeen host endpoint) now s.
Proof.
  intros Hs. unfold refines. cbn [exec]. rewrite bind_ret_state, bind_ret_result.
  unfold mstate, mresult. rewrite record_peer_seen_run. cbn [fst snd spec_devices spec_peers].
  split; [reflexivity|]. destruct (get_peer host s) as [p|] eqn:Hg.
  - split; [|split; [reflexivity|apply keys_set_peers; [exact Hs|apply unique_tupd; [auto|apply Hs]]]].
    rewrite peer_map_tupd by reflexivity. apply (alter_insert_eq _ _ _ p).
    rewrite peer_map_lookup. exact Hg.
  - split; [exact (peer_map_snoc (mkPeer host endpoint now true) s Hg)|]. split; [reflexivity|].
    apply keys_set_peers; [exact Hs|]. apply unique_snoc; [apply Hs|exact Hg].
Qed.

Lemma exec_peer_reachable_refines host b now s : keys_ok s ->
  refines (OPeerReachable host b) now s.
Proof.
  intros Hs. unfold refines. cbn [exec]. rewrite bind_ret_state, bind_ret_result.
  unfold mstate, mresult. rewrite set_peer_reachable_run. cbn [spec_devices spec_peers].
  unfold spec_result. cbn [required]. rewrite peer_map_lookup.
  destruct (get_peer host s) as [p|] eqn:Hg; cbn [fst snd].
  - split; [reflexivity|].
    split; [apply (peer_map_tupd host (peer_with_reachable b)); intros p' <-; reflexivity|].
    split; [reflexivity|]. apply keys_set_peers; [exact Hs|].
    apply unique_tupd; [intros p' <-; reflexivity|apply Hs].
  - split; [reflexivity|]. split; [|auto]. apply map_eq. intros k. rewrite lookup_alter.
    case_decide as E; [|reflexivity]. subst k. rewrite peer_map_lookup, Hg. reflexivity.
Qed.

(** Every operation refines its specification. *)
Lemma exec_refines o now s : keys_ok s -> refines o now s.
Proof.
  intros Hs. destruct o as [uid host port vid_pid|uid [res|]|uid|uid name serial|uid|uid name role serial
    |uid| |uid|uid kind display|host endpoint|host b|uids hosts].
  - apply exec_upsert_refines, Hs.
  - eapply update_existing_op; [reflexivity..|intros r; reflexivity|exact Hs].
  - eapply update_existing_op; [reflexivity..|intros r; reflexivity|exact Hs].
  - eapply update_existing_op; [reflexivity..|intros r; reflexivity|exact Hs].
  - apply exec_chip_refines, Hs.
  - eapply update_existing_op; [reflexivity..|intros r; reflexivity|exact Hs].
  - apply exec_virtual_refines, Hs.
  - apply exec_remove_virtual_refines, Hs.
  - apply exec_sweep_refines, Hs.
  - eapply update_existing_op; [reflexivity..|intros r; reflexivity|exact Hs].
  - eapply update_existing_op; [reflexivity..|intros r; reflexivity|exact Hs].
  - apply exec_peer_seen_refines, Hs.
  - apply exec_peer_reachable_refines, Hs.
  - apply exec_purge_refines, Hs.
Qed.
