(* ===== verification/StoreFacts.v ===== *)
(** * Properties of the device and peer tables

    Everything here follows from the refinement of [Store.v]: each
    operation acts on each row separately, as [row_after] says, so an
    invariant of rows is proved by cases on the operation. *)

From S2P Require Import Prelude Tables Identity Virtual Store.
Local Open Scope py_scope.

(** What one operation leaves of the row of [k]. *)
Definition row_after (o : store_op) (now : Z) (P : gmap string PeerRecord) (k : string)
    (row : option DeviceRecord) : option DeviceRecord :=
  let on uid f := if bool_decide (uid = k) then option_map f row else row in
  match o with
  | OUpsert uid host port vid_pid =>
      if bool_decide (uid = k) then
        match row with
        | None => Some (new_device uid port vid_pid host now)
        | Some e => if rejects_claim host e then Some e
                    else Some (row_upserted (is_disconnected e) host port vid_pid now e)
        end
      else row
  | OProbe uid (Some p) => on uid (row_probed p now)
  | OProbe uid None => on uid (row_silent STATE_ATTACHED_NO_ANNOUNCE ERROR_NOTE_NO_ANNOUNCEMENT now)
  | OBlank uid => on uid (row_silent STATE_CONNECTED_NO_FIRMWARE ERROR_NOTE_KNOWN_BLANK now)
  | OChip uid name serial =>
      on uid (fun r => match dr_chip_identity_name r with
                       | Some _ => r
                       | None => row_chip name serial r
                       end)
  | ODisconnect uid => on uid (fun r => set_last_seen now (set_state STATE_DISCONNECTED r))
  | OVirtual uid name role serial =>
      if bool_decide (uid = k) then Some (virtual_device uid name role serial now) else row
  | ORemoveVirtual uid =>
      if bool_decide (uid = k) then
        match row with Some r => if is_virtual r then None else Some r | None => None end
      else row
  | OSweepVirtual => match row with Some r => if is_virtual r then None else Some r | None => None end
  | OFlashCount uid => on uid (fun r => set_flash_count (dr_flash_count r + 1) r)
  | ORemoteLock uid kind display =>
      on uid (fun r => set_remote_lock_display display (set_remote_lock_kind kind r))
  | OPeerSeen _ _ | OPeerReachable _ _ => row
  | OPurge uids _ =>
      match row with
      | Some r => if bool_decide (k ∈ uids) && spec_purgeable P r then None else Some r
      | None => None
      end
  end.

Lemma alter_row (f : DeviceRecord -> DeviceRecord) uid k (D : gmap string DeviceRecord) :
  alter f uid D !! k = if bool_decide (uid = k) then option_map f (D !! k) else D !! k.
Proof.
  rewrite lookup_alter. destruct (bool_decide_reflect (uid = k)) as [->|E]; case_decide; try congruence;
    destruct (D !! k); reflexivity.
Qed.

Lemma insert_row (r : DeviceRecord) uid k (D : gmap string DeviceRecord) :
  <[uid := r]> D !! k = if bool_decide (uid = k) then Some r else D !! k.
Proof.
  rewrite lookup_insert. destruct (bool_decide_reflect (uid = k)); case_decide; congruence.
Qed.

Lemma spec_devices_row o now D P k :
  spec_devices o now D P !! k = row_after o now P k (D !! k).
Proof.
  destruct o as [uid host port vid_pid|uid [res|]|uid|uid name serial|uid|uid name role serial
    |uid| |uid|uid kind display|host endpoint|host b|uids hosts]; cbn [spec_devices row_after];
    try apply alter_row; try apply insert_row; try reflexivity.
  - destruct (bool_decide_reflect (uid = k)) as [<-|E].
    + destruct (D !! uid) as [e|] eqn:H; [|apply lookup_insert_eq].
      destruct (rejects_claim host e); [exact H|]. rewrite lookup_insert_eq.
      unfold row_upserted. destruct (is_disconnected e); reflexivity.
    + destruct (D !! uid) as [e|]; [destruct (rejects_claim host e)|]; try reflexivity;
        apply lookup_insert_ne; exact E.
  - destruct (bool_decide_reflect (uid = k)) as [<-|E].
    + destruct (D !! uid) as [r|] eqn:H; [|exact H].
      destruct (is_virtual r); [apply lookup_delete_eq|exact H].
    + destruct (D !! uid) as [r|]; [|reflexivity].
      destruct (is_virtual r); [apply lookup_delete_ne; exact E|reflexivity].
  - rewrite map_lookup_filter. destruct (D !! k) as [r|]; [|reflexivity]. cbn.
    destruct (is_virtual r) eqn:Hv; case_guard; cbn in *; congruence.
  - rewrite map_lookup_filter. destruct (D !! k) as [r|]; [|reflexivity]. cbn.
    destruct (bool_decide_reflect (k ∈ uids)) as [Hi|Hi], (spec_purgeable P r) eqn:Hp';
      cbn [andb]; case_guard; try reflexivity; exfalso; cbn in *; intuition congruence.
Qed.

(** The row view of the refinement. *)
Lemma get_exec o now s k : keys_ok s ->
  get k (mstate (exec o now) s) = row_after o now (peer_map s) k (get k s).
Proof.
  intros Hs. destruct (exec_refines o now s Hs) as (H & _).
  rewrite <- !device_map_lookup, H. apply spec_devices_row.
Qed.

Lemma keys_exec o now s : keys_ok s -> keys_ok (mstate (exec o now) s).
Proof. intros Hs. apply (exec_refines o now s Hs). Qed.

(** Databases reached from an empty one, with a clock that does not go back. *)
Inductive reachable : Z -> db -> Prop :=
| reachable_open : reachable 0 empty_db
| reachable_exec t s o now :
    reachable t s -> t <= now -> 0 < now -> reachable now (mstate (exec o now) s).

Lemma reachable_keys t s : reachable t s -> keys_ok s.
Proof.
  induction 1 as [|t s o now _ IH]; [repeat split; apply NoDup_nil_2|]. apply keys_exec, IH.
Qed.

(** ** The row invariant *)

Definition same_presence {A B} (a : option A) (b : option B) : Prop := is_Some a <-> is_Some b.

(** A row's lifecycle state determines what is known of its probe. *)
Definition state_ok (r : DeviceRecord) : Prop :=
  (dr_state r = STATE_ATTACHED_UNPROBED /\ dr_last_probe r = 0) \/
  (dr_state r = STATE_CONNECTED /\ 0 < dr_last_probe r /\ dr_error_note r = None /\
   is_Some (dr_role r) /\ is_Some (dr_common_name r) /\ is_Some (dr_device_name r) /\
   is_Some (dr_serial_payload r)) \/
  (dr_state r = STATE_ATTACHED_NO_ANNOUNCE /\ 0 < dr_last_probe r /\
   dr_error_note r = Some ERROR_NOTE_NO_ANNOUNCEMENT) \/
  (dr_state r = STATE_CONNECTED_NO_FIRMWARE /\ 0 < dr_last_probe r /\
   dr_error_note r = Some ERROR_NOTE_KNOWN_BLANK) \/
  dr_state r = STATE_DISCONNECTED.

Definition row_ok (t : Z) (r : DeviceRecord) : Prop :=
  state_ok r /\
  same_presence (dr_chip_identity_name r) (dr_chip_identity_serial r) /\
  0 < dr_first_seen r /\ dr_first_seen r <= dr_last_seen r <= t /\
  0 <= dr_last_probe r <= dr_last_seen r /\ 0 <= dr_flash_count r.

Lemma row_ok_mono t t' r : row_ok t r -> t <= t' -> row_ok t' r.
Proof. unfold row_ok. intuition lia. Qed.

Lemma row_upserted_ok t now d host port vid_pid r : row_ok t r -> t <= now -> 0 < now ->
  d = is_disconnected r -> row_ok now (row_upserted d host port vid_pid now r).
Proof.
  intros H Ht Hn ->. unfold row_upserted, is_disconnected.
  destruct (bool_decide_reflect (dr_state r = STATE_DISCONNECTED)) as [E|E].
  - destruct H as (_ & Hc & H). split; [left; split; reflexivity|]. split; [exact Hc|]. cbn. lia.
  - destruct H as (Hst & Hc & H). split; [|split; [exact Hc|cbn; lia]].
    unfold state_ok in *. cbn in *. tauto.
Qed.

Lemma row_after_ok o t now P k row r' : (forall r, row = Some r -> row_ok t r) ->
  t <= now -> 0 < now -> row_after o now P k row = Some r' -> row_ok now r'.
Proof.
  intros Hr Ht Hn. assert (Hm : forall r, row = Some r -> row_ok now r)
    by (intros r E; exact (row_ok_mono _ _ _ (Hr r E) Ht)).
  assert (Hon : forall f uid, (forall r, row_ok t r -> row_ok now (f r)) ->
    (if bool_decide (uid = k) then option_map f row else row) = Some r' -> row_ok now r').
  { intros f uid Hf. destruct (bool_decide (uid = k)); [|apply Hm].
    destruct row as [r|]; [|discriminate]. intros [= <-]. apply Hf, Hr. reflexivity. }
  destruct o as [uid host port vid_pid|uid [res|]|uid|uid name serial|uid|uid name role serial
    |uid| |uid|uid kind display|host endpoint|host b|uids hosts]; cbn [row_after].
  - destruct (bool_decide (uid = k)); [|apply Hm]. destruct row as [e|].
    + destruct (rejects_claim host e); intros [= <-]; [apply Hm; reflexivity|].
      eapply row_upserted_ok; eauto.
    + intros [= <-]. split; [left; split; reflexivity|].
      split; [split; intros [x Hx]; discriminate Hx|]. cbn. lia.
  - apply Hon. intros r (_ & Hc & H). unfold row_probed. split; [|split; [exact Hc|cbn; lia]].
    right; left. cbn. repeat split; eauto.
  - apply Hon. intros r (_ & Hc & H). split; [|split; [exact Hc|cbn; lia]].
    right; right; left. cbn. auto.
  - apply Hon. intros r (_ & Hc & H). split; [|split; [exact Hc|cbn; lia]].
    do 3 right; left. cbn. auto.
  - apply Hon. intros r H. pose proof (row_ok_mono _ _ _ H Ht) as H'.
    destruct (dr_chip_identity_name r); [exact H'|].
    destruct H' as (H1 & _ & H2). split; [exact H1|]. split; [|exact H2].
    split; cbn; intros _; eauto.
  - apply Hon. intros r (_ & Hc & H). split; [do 4 right; reflexivity|split; [exact Hc|cbn; lia]].
  - destruct (bool_decide (uid = k)); [|apply Hm]. intros [= <-]. unfold virtual_device.
    split; [right; left; cbn; repeat split; eauto|]. split; [split; intros [x Hx]; discriminate Hx|]. cbn. lia.
  - destruct (bool_decide (uid = k)); [|apply Hm]. destruct row as [r|]; [|discriminate].
    destruct (is_virtual r); [discriminate|]. intros [= <-]. apply Hm. reflexivity.
  - destruct row as [r|]; [|discriminate]. destruct (is_virtual r); [discriminate|].
    intros [= <-]. apply Hm. reflexivity.
  - apply Hon. intros r H. pose proof (row_ok_mono _ _ _ H Ht) as (H1 & H2 & H3).
    split; [exact H1|]. split; [exact H2|]. cbn. lia.
  - apply Hon. intros r H. exact (row_ok_mono _ _ _ H Ht).
  - apply Hm.
  - apply Hm.
  - destruct row as [r|]; [|discriminate]. destruct (_ && _); [discriminate|].
    intros [= <-]. apply Hm. reflexivity.
Qed.

Lemma reachable_rows t s k r : reachable t s -> get k s = Some r -> row_ok t r.
Proof.
  intros H. revert k r. induction H as [|t s o now Hr IH Ht Hn]; intros k r; [discriminate|].
  rewrite (get_exec o now s k) by (eapply reachable_keys; exact Hr).
  apply (row_after_ok o t now); [|exact Ht|exact Hn]. intros r0. apply IH.
Qed.

(** Running several operations. *)
Fixpoint exec_all (l : list (store_op * Z)) (s : db) : db :=
  match l with
  | [] => s
  | (o, now) :: l' => exec_all l' (mstate (exec o now) s)
  end.

(** The operations that may delete rows or write a row over. *)
Definition deletes (o : store_op) : bool :=
  match o with OVirtual _ _ _ _ | ORemoveVirtual _ | OSweepVirtual | OPurge _ _ => true | _ => false end.

(** The announcement columns. *)
Definition announcement (r : DeviceRecord) :=
  (dr_role r, dr_common_name r, dr_device_name r, dr_serial_payload r, dr_raw_announcement r).

(** What a non-deleting operation keeps of a row. *)
Lemma row_after_keeps o now P k r : deletes o = false ->
  exists r', row_after o now P k (Some r) = Some r' /\
    dr_uid r' = dr_uid r /\ dr_first_seen r' = dr_first_seen r /\
    (forall n, dr_chip_identity_name r = Some n ->
       dr_chip_identity_name r' = Some n /\ dr_chip_identity_serial r' = dr_chip_identity_serial r) /\
    ((forall res, o <> OProbe k (Some res)) -> announcement r' = announcement r).
Proof.
  assert (Hon : forall f uid, (dr_uid (f r) = dr_uid r /\ dr_first_seen (f r) = dr_first_seen r /\
     (forall n, dr_chip_identity_name r = Some n -> dr_chip_identity_name (f r) = Some n /\
        dr_chip_identity_serial (f r) = dr_chip_identity_serial r) /\
     ((forall res, o <> OProbe k (Some res)) -> uid = k -> announcement (f r) = announcement r)) ->
    exists r', (if bool_decide (uid = k) then option_map f (Some r) else Some r) = Some r' /\
      dr_uid r' = dr_uid r /\ dr_first_seen r' = dr_first_seen r /\
      (forall n, dr_chip_identity_name r = Some n -> dr_chip_identity_name r' = Some n /\
         dr_chip_identity_serial r' = dr_chip_identity_serial r) /\
      ((forall res, o <> OProbe k (Some res)) -> announcement r' = announcement r)).
  { intros f uid (H1 & H2 & H3 & H4). destruct (bool_decide_reflect (uid = k)) as [E|E];
      [exists (f r)|exists r]; auto 10. }
  destruct o as [uid host port vid_pid|uid [res|]|uid|uid name serial|uid|uid name role serial
    |uid| |uid|uid kind display|host endpoint|host b|uids hosts]; intros Hd; try discriminate;
    cbn [row_after]; try (apply Hon; auto 10; fail); try (exists r; auto 10; fail).
  - destruct (bool_decide (uid = k)); [|exists r; auto 10].
    destruct (rejects_claim host r); [exists r; auto 10|]. eexists. split; [reflexivity|].
    unfold row_upserted. destruct (is_disconnected r); auto 10.
  - apply Hon. split; [auto|]. split; [auto|]. split; [auto|]. intros Hne ->. destruct (Hne res eq_refl).
  - apply Hon. destruct (dr_chip_identity_name r) eqn:E.
    { rewrite E. auto 10. }
    split; [reflexivity|]. split; [reflexivity|]. split; [intros n Hn; congruence|reflexivity].
Qed.

Lemma exec_all_keeps l s k r : keys_ok s -> get k s = Some r ->
  Forall (fun on => deletes on.1 = false) l ->
  exists r', get k (exec_all l s) = Some r' /\
    (forall n, dr_chip_identity_name r = Some n ->
       dr_chip_identity_name r' = Some n /\ dr_chip_identity_serial r' = dr_chip_identity_serial r) /\
    ((forall res now, ~ In (OProbe k (Some res), now) l) -> announcement r' = announcement r).
Proof.
  revert s r. induction l as [|[o now] l IH]; intros s r Hs Hg HF; [exists r; auto|].
  apply Forall_cons in HF as [Hd HF]. cbn in Hd.
  destruct (row_after_keeps o now (peer_map s) k r Hd) as (r1 & E & _ & _ & Hc & Ha).
  rewrite <- Hg, <- (get_exec o now s k Hs) in E.
  destruct (IH _ _ (keys_exec o now s Hs) E HF) as (r' & E' & Hc' & Ha').
  exists r'. split; [exact E'|]. split.
  - intros n Hn. destruct (Hc n Hn) as [H1 H2]. destruct (Hc' n H1) as [H3 H4].
    split; [exact H3|congruence].
  - intros Hno. rewrite Ha', Ha; [reflexivity| |].
    + intros res ->. apply (Hno res now). left. reflexivity.
    + intros res now' Hi. apply (Hno res now'). right. exact Hi.
Qed.

(** ** Properties *)

(** C14: every method of [Store] on the device and peer tables implements
    its specification on finite maps: it leaves exactly the specified
    devices and peers, raises [KeyError] exactly when the row it requires
    is absent (changing nothing then), and keeps the primary keys unique. *)
Theorem store_refines_spec o now s : keys_ok s ->
  device_map (mstate (exec o now) s) = spec_devices o now (device_map s) (peer_map s) /\
  peer_map (mstate (exec o now) s) = spec_peers o now (peer_map s) /\
  mresult (exec o now) s = spec_result o (device_map s) (peer_map s) /\
  (is_ok (mresult (exec o now) s) = false ->
     device_map (mstate (exec o now) s) = device_map s /\
     peer_map (mstate (exec o now) s) = peer_map s) /\
  keys_ok (mstate (exec o now) s).
Proof.
  intros Hs. destruct (exec_refines o now s Hs) as (A & B & C & D).
  rewrite A, B, C. repeat (split; [reflexivity|]). split; [|exact D].
  unfold spec_result. destruct o as [uid host port vid_pid|uid [res|]|uid|uid name serial|uid|uid name role serial
    |uid| |uid|uid kind display|host endpoint|host b|uids hosts]; cbn [required spec_devices spec_peers];
    try discriminate; try (destruct (device_map s !! uid) eqn:E; [discriminate|]; intros _;
      split; [|reflexivity]; apply map_eq; intros k; rewrite alter_row;
      destruct (bool_decide_reflect (uid = k)) as [<-|]; [rewrite E|]; reflexivity).
  destruct (peer_map s !! host) eqn:E; [discriminate|]. intros _. split; [reflexivity|].
  apply map_eq. intros k. rewrite lookup_alter. case_decide as Ek; [subst k; rewrite E|]; reflexivity.
Qed.

Definition example_db : db := mkDb
  [new_device "9904360200052820ab0a0000000000006e052820" (Some "/dev/ttyACM0") (Some "0d28:0204") None 1000000;
   set_state STATE_DISCONNECTED (new_device "u2" (Some "/dev/ttyACM1") (Some "0d28:0204") (Some "loki") 1000000)]
  [mkPeer "loki" "loki:8801" 1000000 true] [].

Lemma example_db_keys : keys_ok example_db.
Proof. unfold keys_ok, unique. repeat split; apply (bool_decide_unpack _); vm_compute; exact I. Defined.

Lemma store_refines_spec_witness :
  device_map (mstate (exec (OBlank "u2") 7) example_db) =
    spec_devices (OBlank "u2") 7 (device_map example_db) (peer_map example_db) /\
  keys_ok (mstate (exec (OBlank "u2") 7) example_db).
Proof.
  destruct (store_refines_spec (OBlank "u2") 7 example_db example_db_keys) as (A & _ & _ & _ & B).
  split; [exact A|exact B].
Defined.

(** in every reachable database each row is consistent: its state is
    one of the five; an attached, unprobed row has never been probed since
    its attach, so [needs_probe] is true exactly in that state among the
    attached rows; a connected row has its announcement, a silent or blank
    one the matching error note; the chip identity is complete or absent;
    and the timestamps are ordered. *)
Theorem reachable_rows_ok t s k r : reachable t s -> get k s = Some r ->
  row_ok t r /\
  (dr_state r <> STATE_DISCONNECTED ->
   needs_probe k s = Ok (bool_decide (dr_state r = STATE_ATTACHED_UNPROBED))).
Proof.
  intros Hr Hg. pose proof (reachable_rows t s k r Hr Hg) as H. split; [exact H|].
  intros Hd. unfold needs_probe. rewrite Hg. f_equal. destruct H as (Hst & _).
  destruct Hst as [(E & Hp)|[(E & Hp & _)|[(E & Hp & _)|[(E & Hp & _)|E]]]]; rewrite ?E; [| | | |tauto].
  - rewrite Hp. reflexivity.
  - transitivity false; [lia|reflexivity].
  - transitivity false; [lia|reflexivity].
  - transitivity false; [lia|reflexivity].
Qed.

Lemma reachable_rows_ok_witness :
  let s := mstate (exec (OUpsert "u" None (Some "/dev/ttyACM0") (Some "0d28:0204")) 5) empty_db in
  row_ok 5 (new_device "u" (Some "/dev/ttyACM0") (Some "0d28:0204") None 5) /\
  needs_probe "u" s = Ok true.
Proof.
  intros s.
  destruct (reachable_rows_ok 5 s "u" (new_device "u" (Some "/dev/ttyACM0") (Some "0d28:0204") None 5)) as [A B].
  - apply reachable_exec with (t := 0); [exact reachable_open|discriminate|reflexivity].
  - reflexivity.
  - split; [exact A|]. apply B. discriminate.
Defined.

(** no operation deletes a device row except [purge], for a uid it was
    asked to delete whose row is still disconnected or owned by a
    still-unreachable peer, and the virtual-board removals, for a virtual
    row. *)
Theorem never_deleted o now s k r : keys_ok s ->
  get k s = Some r -> get k (mstate (exec o now) s) = None ->
  (exists uids hosts, o = OPurge uids hosts /\ k ∈ uids /\
     (dr_state r = STATE_DISCONNECTED \/
      exists h p, dr_host r = Some h /\ get_peer h s = Some p /\ pe_reachable p = false)) \/
  ((o = ORemoveVirtual k \/ o = OSweepVirtual) /\ is_virtual r = true).
Proof.
  intros Hs Hg. rewrite (get_exec o now s k Hs), Hg.
  destruct (deletes o) eqn:Hd.
  - destruct o as [| | | | |uid name role serial|uid| | | | | |uids hosts]; try discriminate; cbn [row_after].
    + destruct (bool_decide _); discriminate.
    + destruct (bool_decide_reflect (uid = k)) as [->|]; [|discriminate].
      destruct (is_virtual r) eqn:Hv; [|discriminate]. auto.
    + destruct (is_virtual r) eqn:Hv; [|discriminate]. auto.
    + destruct (bool_decide_reflect (k ∈ uids)) as [Hi|]; [|discriminate].
      destruct (spec_purgeable (peer_map s) r) eqn:Hp; [|discriminate]. intros _.
      left. exists uids, hosts. split; [reflexivity|]. split; [exact Hi|].
      unfold spec_purgeable in Hp. apply orb_true_iff in Hp as [Hp|Hp].
      * left. apply bool_decide_eq_true in Hp. exact Hp.
      * right. unfold host_unreachable in Hp. destruct (dr_host r) as [h|]; [|discriminate].
        rewrite peer_map_lookup in Hp. destruct (get_peer h s) as [p|] eqn:E; [|discriminate].
        apply negb_true_iff in Hp. eauto 10.
  - destruct (row_after_keeps o now (peer_map s) k r Hd) as (r' & -> & _). discriminate.
Qed.

Lemma never_deleted_witness :
  (exists uids hosts, OPurge ["u2"] [] = OPurge uids hosts /\ "u2" ∈ uids /\
     (STATE_DISCONNECTED = STATE_DISCONNECTED \/
      exists h p, Some "loki" = Some h /\ get_peer h example_db = Some p /\ pe_reachable p = false)) \/
  ((OPurge ["u2"] [] = ORemoveVirtual "u2" \/ OPurge ["u2"] [] = OSweepVirtual) /\ false = true).
Proof.
  exact (never_deleted (OPurge ["u2"] []) 9 example_db "u2"
    (set_state STATE_DISCONNECTED (new_device "u2" (Some "/dev/ttyACM1") (Some "0d28:0204") (Some "loki") 1000000))
    example_db_keys eq_refl eq_refl).
Defined.

(** a chip identity is written once: over any sequence of operations
    that does not delete rows, the name and serial a row has cached never
    change; and the announcement columns change only through a probe that
    received an announcement, never through a failed one. *)
Theorem identity_kept l s k r : keys_ok s -> get k s = Some r ->
  Forall (fun on => deletes on.1 = false) l ->
  exists r', get k (exec_all l s) = Some r' /\
    (forall n, dr_chip_identity_name r = Some n ->
       dr_chip_identity_name r' = Some n /\ dr_chip_identity_serial r' = dr_chip_identity_serial r) /\
    ((forall res now, ~ In (OProbe k (Some res), now) l) -> announcement r' = announcement r).
Proof. apply exec_all_keeps. Qed.

Lemma identity_kept_witness :
  let r := set_state STATE_DISCONNECTED
             (new_device "u2" (Some "/dev/ttyACM1") (Some "0d28:0204") (Some "loki") 1000000) in
  exists r', get "u2" (exec_all [(OChip "u2" "vevov" 1198504156, 5); (OProbe "u2" None, 6)] example_db)
             = Some r' /\
    (forall n, dr_chip_identity_name r = Some n ->
       dr_chip_identity_name r' = Some n /\ dr_chip_identity_serial r' = dr_chip_identity_serial r) /\
    ((forall res now, ~ In (OProbe "u2" (Some res), now)
        [(OChip "u2" "vevov" 1198504156, 5); (OProbe "u2" None, 6)]) ->
     announcement r' = announcement r).
Proof.
  apply (identity_kept _ example_db "u2"); [exact example_db_keys|reflexivity|].
  repeat constructor.
Defined.

(** *** Upserts *)

(** The row an upsert returns and leaves. *)
Definition upserted (host port vid_pid : option string) (uid : string) (now : Z)
    (existing : option DeviceRecord) : DeviceRecord :=
  match existing with
  | None => new_device uid port vid_pid host now
  | Some e => if rejects_claim host e then e
              else row_upserted (is_disconnected e) host port vid_pid now e
  end.

Lemma upsert_device_row uid host port vid_pid now s : keys_ok s ->
  let r := upserted host port vid_pid uid now (get uid s) in
  let s' := mstate (upsert_device uid host port vid_pid now) s in
  mresult (upsert_device uid host port vid_pid now) s = Ok r /\
  keys_ok s' /\ get uid s' = Some r /\ (forall k, k <> uid -> get k s' = get k s) /\
  match get uid s with Some e => rejects_claim host e = true -> s' = s | None => True end.
Proof.
  intros Hs r s'.
  pose proof (fun k => get_exec (OUpsert uid host port vid_pid) now s k Hs) as G.
  pose proof (keys_exec (OUpsert uid host port vid_pid) now s Hs) as Hk.
  cbn [exec row_after] in G, Hk. rewrite bind_ret_state in Hk.
  assert (E : forall k, get k s' = get k (mstate (upsert_device uid host port vid_pid now ;;! mret tt) s))
    by (intros k; rewrite bind_ret_state; reflexivity).
  assert (Hother : forall k, k <> uid -> get k s' = get k s).
  { intros k Hne. rewrite E, G, bool_decide_false by congruence. reflexivity. }
  specialize (G uid). rewrite <- E, bool_decide_true in G by reflexivity.
  unfold s', r, upserted, mresult, mstate in *. rewrite upsert_device_run in *.
  destruct (get uid s) as [e|]; [destruct (rejects_claim host e)|];
    (split; [reflexivity|]; split; [exact Hk|]; split; [exact G|]; split; [exact Hother|]; try discriminate; auto).
Qed.

(** an upsert of an attached device. A remote claim of a board this
    host has attached now changes nothing and returns the row (local
    ownership wins); any other upsert makes the claimant the owner at the
    new port, and asks for a probe exactly when the row is new, was
    disconnected, or had not been probed, keeping every announcement. *)
Theorem upsert_ownership uid host port vid_pid now s :
  keys_ok s ->
  let '(res, s') := upsert_device uid host port vid_pid now s in
  (forall k, k <> uid -> get k s' = get k s) /\
  match get uid s with
  | Some e =>
      if rejects_claim host e then res = Ok e /\ s' = s
      else exists r, res = Ok r /\ get uid s' = Some r /\
           dr_host r = host /\ dr_port r = port /\ announcement r = announcement e /\
           dr_first_seen r = dr_first_seen e /\
           needs_probe uid s' = Ok (is_disconnected e || (dr_last_probe e =? 0))
  | None =>
      exists r, res = Ok r /\ get uid s' = Some r /\ dr_host r = host /\ dr_port r = port /\
        dr_short_uid r = short_uid uid /\ needs_probe uid s' = Ok true
  end.
Proof.
  intros Hs. destruct (upsert_device_row uid host port vid_pid now s Hs) as (Hr & _ & Hg & Hother & Hsame).
  unfold mresult, mstate in *. destruct (upsert_device uid host port vid_pid now s) as [res s'].
  cbn [fst snd] in *. split; [exact Hother|]. unfold needs_probe. rewrite Hg, Hr.
  destruct (get uid s) as [e|]; cbn [upserted] in *.
  - destruct (rejects_claim host e); [auto|]. eexists. split; [reflexivity|]. split; [reflexivity|].
    unfold row_upserted. destruct (is_disconnected e); repeat split; reflexivity.
  - eexists. repeat split; reflexivity.
Qed.

Lemma upsert_ownership_witness :
  upsert_device "u" (Some "loki") (Some "/dev/ttyUSB9") (Some "0d28:0204") 9
    (mkDb [new_device "u" (Some "/dev/ttyACM0") (Some "0d28:0204") None 5] [] []) =
  (Ok (new_device "u" (Some "/dev/ttyACM0") (Some "0d28:0204") None 5),
   mkDb [new_device "u" (Some "/dev/ttyACM0") (Some "0d28:0204") None 5] [] []).
Proof.
  set (s := mkDb [new_device "u" (Some "/dev/ttyACM0") (Some "0d28:0204") None 5] [] []).
  assert (Hs : keys_ok s)
    by (unfold keys_ok, unique; repeat split; apply (bool_decide_unpack _); vm_compute; exact I).
  pose proof (upsert_ownership "u" (Some "loki") (Some "/dev/ttyUSB9") (Some "0d28:0204") 9 s Hs) as H.
  destruct (upsert_device "u" (Some "loki") (Some "/dev/ttyUSB9") (Some "0d28:0204") 9 s) as [res s'].
  cbn in H. destruct H as (_ & -> & ->). reflexivity.
Defined.

(** *** Purge *)

Lemma in_candidates s k : keys_ok s -> In k (device_uids (candidates_for_purge s)) <->
  exists r, get k s = Some r /\
    ((dr_host r = None /\ is_disconnected r = true) \/
     (dr_host r <> None /\ host_in_peers false (dr_host r) (peers s) = true) \/
     (dr_host r <> None /\ is_disconnected r = true /\ host_in_peers true (dr_host r) (peers s) = true)).
Proof.
  intros Hs. unfold device_uids. rewrite !in_app_iff. cbn [local_disconnected unreachable_peer_owned
    reachable_peer_stale_disconnected candidates_for_purge]. rewrite !in_map_iff.
  assert (Hin : forall r, In r (devices s) -> get (dr_uid r) s = Some r)
    by (intros r Hr; apply tfind_unique; [apply Hs|exact Hr]).
  split.
  - intros [(r & <- & Hf)|[(r & <- & Hf)|(r & <- & Hf)]]; apply filter_In in Hf as [Hf Hc];
      exists r; (split; [exact (Hin r Hf)|]); rewrite ?andb_true_iff, ?negb_true_iff in Hc;
      rewrite ?bool_decide_eq_true, ?bool_decide_eq_false in Hc; tauto.
  - intros (r & Hg & Hc). pose proof (get_uid _ _ _ Hg) as Hu. pose proof (tfind_in _ _ _ _ Hg) as Hr.
    destruct Hc as [(H1 & H2)|[(H1 & H2)|(H1 & H2 & H3)]]; [left|right; left|right; right];
      exists r; (split; [exact Hu|]); apply filter_In; (split; [exact Hr|]);
      rewrite ?andb_true_iff, ?negb_true_iff, ?bool_decide_eq_true, ?bool_decide_eq_false; tauto.
Qed.

Lemma host_in_peers_excl s h : keys_ok s -> host_in_peers false h (peers s) = true ->
  host_in_peers true h (peers s) = true -> False.
Proof.
  intros Hs. rewrite !host_in_peers_spec by apply Hs. destruct h as [h|]; [|discriminate].
  destruct (tfind pe_host h (peers s)) as [p|]; [|discriminate]. destruct (pe_reachable p); discriminate.
Qed.

Lemma nodup_map_filter {A} (f : A -> string) P (l : list A) : NoDup (map f l) ->
  NoDup (map f (List.filter P l)).
Proof. exact (unique_filter f P l). Qed.

Lemma candidates_nodup s : keys_ok s -> NoDup (device_uids (candidates_for_purge s)).
Proof.
  intros Hs. unfold device_uids. cbn [local_disconnected unreachable_peer_owned
    reachable_peer_stale_disconnected candidates_for_purge].
  assert (Hsame : forall r r', In r (devices s) -> In r' (devices s) -> dr_uid r = dr_uid r' -> r = r').
  { intros r r' H1 H2 E. pose proof (tfind_unique dr_uid _ r (proj1 Hs) H1) as F1.
    pose proof (tfind_unique dr_uid _ r' (proj1 Hs) H2) as F2. congruence. }
  apply NoDup_app. split; [apply nodup_map_filter, Hs|]. split.
  2: { apply NoDup_app. split; [apply nodup_map_filter, Hs|]. split; [|apply nodup_map_filter, Hs].
    intros k. rewrite !list_elem_of_In, !in_map_iff. intros (r & <- & Hf) (r' & E & Hf').
    apply filter_In in Hf as [H1 C1], Hf' as [H2 C2]. rewrite (Hsame r' r H2 H1 E) in C2.
    rewrite !andb_true_iff in C1, C2. eapply host_in_peers_excl; [exact Hs|apply C1|apply C2]. }
  intros k. rewrite elem_of_app, !list_elem_of_In, !in_map_iff.
  intros (r & <- & Hf) [(r' & E & Hf')|(r' & E & Hf')];
    apply filter_In in Hf as [H1 C1], Hf' as [H2 C2]; rewrite (Hsame r' r H2 H1 E) in C2;
    rewrite !andb_true_iff, !negb_true_iff in *; destruct_and?; congruence.
Qed.

Lemma candidate_purgeable s k r : keys_ok s -> get k s = Some r ->
  In k (device_uids (candidates_for_purge s)) -> purgeable (peers s) r = true.
Proof.
  intros Hs Hr Hi. apply (in_candidates s k Hs) in Hi as (r' & Hr' & Hc).
  rewrite Hr in Hr'. injection Hr' as <-. unfold purgeable. apply orb_true_iff.
  destruct Hc as [[_ ->]|[[_ ->]|[_ [-> _]]]]; auto.
Qed.

Lemma unreachable_candidate s h p : get_peer h s = Some p -> pe_reachable p = false ->
  h ∈ unreachable_peers (candidates_for_purge s).
Proof.
  intros Hh Hre. apply list_elem_of_In. cbn [unreachable_peers candidates_for_purge].
  apply in_map_iff. exists p. split; [exact (tfind_key _ _ _ _ Hh)|]. apply filter_In.
  split; [exact (tfind_in _ _ _ _ Hh)|]. rewrite Hre. reflexivity.
Qed.

(** A database whose rows are [s]'s non-candidates and reachable peers. *)
Definition purged_of (s s' : db) : Prop :=
  (forall k, get k s' = if bool_decide (k ∈ device_uids (candidates_for_purge s)) then None else get k s) /\
  (forall h, get_peer h s' = match get_peer h s with
                             | Some p => if pe_reachable p then Some p else None
                             | None => None end).

Lemma purged_no_devices s s' : keys_ok s -> keys_ok s' -> purged_of s s' ->
  device_uids (candidates_for_purge s') = [].
Proof.
  intros Hs Hk [Hget Hpeer].
  assert (Hno : forall h, host_in_peers false h (peers s') = true -> False).
  { intros h. rewrite host_in_peers_spec by apply Hk. destruct h as [h|]; [|discriminate].
    fold (get_peer h s'). rewrite Hpeer. destruct (get_peer h s) as [p|]; [|discriminate].
    destruct (pe_reachable p) eqn:Hr; [rewrite Hr|]; discriminate. }
  destruct (device_uids (candidates_for_purge s')) as [|k l] eqn:El; [reflexivity|exfalso].
  assert (Hi : In k (device_uids (candidates_for_purge s'))) by (rewrite El; left; reflexivity).
  apply (in_candidates s' k Hk) in Hi as (r & Hr & Hc). rewrite Hget in Hr.
  destruct (bool_decide_reflect (k ∈ device_uids (candidates_for_purge s))) as [|Hn]; [discriminate|].
  apply Hn, list_elem_of_In, (in_candidates s k Hs). exists r. split; [exact Hr|].
  destruct Hc as [Hc|[[_ Hc]|(H1 & H2 & H3)]]; [auto|destruct (Hno _ Hc)|].
  right; right. split; [exact H1|]. split; [exact H2|]. revert H3.
  rewrite !host_in_peers_spec by (apply Hk || apply Hs). destruct (dr_host r) as [h|]; [|congruence].
  fold (get_peer h s') (get_peer h s). rewrite Hpeer.
  destruct (get_peer h s) as [p|]; [|discriminate].
  destruct (pe_reachable p) eqn:Hr'; [rewrite Hr'; auto|discriminate].
Qed.

Lemma purged_no_peers s s' : keys_ok s' -> purged_of s s' ->
  unreachable_peers (candidates_for_purge s') = [].
Proof.
  intros Hk [_ Hpeer].
  destruct (unreachable_peers (candidates_for_purge s')) as [|h l] eqn:El; [reflexivity|exfalso].
  assert (Hi : In h (unreachable_peers (candidates_for_purge s'))) by (rewrite El; left; reflexivity).
  cbn [unreachable_peers candidates_for_purge] in Hi. apply in_map_iff in Hi as (p & <- & Hf).
  apply filter_In in Hf as [Hin Hf]. pose proof (tfind_unique pe_host _ p (proj1 (proj2 Hk)) Hin) as F.
  fold (get_peer (pe_host p) s') in F. rewrite Hpeer in F.
  destruct (get_peer (pe_host p) s) as [q|]; [|discriminate].
  destruct (pe_reachable q) eqn:Hq; [|discriminate]. injection F as <-. rewrite Hq in Hf. discriminate.
Qed.

(** [rescan]'s purge. The candidate uids are distinct (the three
    reasons never overlap); purging all candidates removes exactly the
    candidate devices and the unreachable peers, leaves every other row as
    it was, and leaves no candidate behind. *)
Theorem purge_candidates_exact s : keys_ok s ->
  let c := candidates_for_purge s in
  NoDup (device_uids c) /\
  exists rd rp s', purge (device_uids c) (unreachable_peers c) s = (Ok (rd, rp), s') /\
    (forall k, In k rd <-> In k (device_uids c)) /\
    purged_of s s' /\
    device_uids (candidates_for_purge s') = [] /\
    unreachable_peers (candidates_for_purge s') = [].
Proof.
  intros Hs c. split; [exact (candidates_nodup s Hs)|].
  destruct (purge_run (device_uids c) (unreachable_peers c) s)
    as (rd & rp & s' & E & _ & Hk & Hg & Hp & Hrd & Hrp).
  exists rd, rp, s'. split; [exact E|]. specialize (Hk Hs).
  assert (Hpu : purged_of s s').
  { split.
    - intros k. rewrite Hg. fold c.
      destruct (get k s) as [r|] eqn:Hr; [|destruct (bool_decide _); reflexivity].
      destruct (bool_decide_reflect (k ∈ device_uids c)) as [Hi|Hi]; [|reflexivity].
      rewrite (candidate_purgeable s k r Hs Hr) by (apply list_elem_of_In; exact Hi). reflexivity.
    - intros h. rewrite Hp. destruct (get_peer h s) as [p|] eqn:Hh; [|reflexivity].
      destruct (pe_reachable p) eqn:Hre; [rewrite andb_false_r; reflexivity|].
      rewrite bool_decide_true; [reflexivity|]. exact (unreachable_candidate s h p Hh Hre). }
  split; [|split; [exact Hpu|split; [exact (purged_no_devices s s' Hs Hk Hpu)|exact (purged_no_peers s s' Hk Hpu)]]].
  intros k. rewrite Hrd. split; [tauto|]. intros Hi. split; [exact Hi|].
  pose proof Hi as Hi'. apply (in_candidates s k Hs) in Hi' as (r & Hr & _).
  exists r. split; [exact Hr|]. exact (candidate_purgeable s k r Hs Hr Hi).
Qed.

Lemma purge_candidates_exact_witness :
  NoDup (device_uids (candidates_for_purge example_db)) /\
  device_uids (candidates_for_purge example_db) = ["u2"] /\
  exists rd rp s', purge ["u2"] [] example_db = (Ok (rd, rp), s') /\ purged_of example_db s'.
Proof.
  destruct (purge_candidates_exact example_db example_db_keys) as (A & rd & rp & s' & B & _ & C & _).
  split; [exact A|]. split; [reflexivity|]. exists rd, rp, s'. split; [exact B|exact C].
Defined.

(** *** Lookups *)

Lemma unique_hosts_in seen hosts h : In h (unique_hosts seen hosts) ->
  In h hosts /\ ~ host_key h ∈ seen.
Proof.
  revert seen. induction hosts as [|h' hosts IH]; intros seen; [intros []|]. cbn [unique_hosts].
  destruct (bool_decide_reflect (host_key h' ∈ seen)) as [E|E].
  - intros Hi. destruct (IH _ Hi). split; [right|]; assumption.
  - intros [->|Hi]; [split; [left; reflexivity|exact E]|].
    destruct (IH _ Hi) as [H1 H2]. split; [right; exact H1|].
    intros Hs. apply H2. apply elem_of_cons. right. exact Hs.
Qed.

(** Every host's key is represented. *)
Lemma unique_hosts_keys seen hosts h : In h hosts ->
  host_key h ∈ seen \/ exists h', In h' (unique_hosts seen hosts) /\ host_key h' = host_key h.
Proof.
  revert seen. induction hosts as [|h0 hosts IH]; intros seen; [intros []|].
  cbn [unique_hosts In]. intros Hin. destruct (bool_decide_reflect (host_key h0 ∈ seen)) as [E|E].
  - destruct Hin as [->|Hin]; [auto|apply IH; exact Hin].
  - destruct Hin as [->|Hin]; [right; exists h; split; [left|]; reflexivity|].
    destruct (IH (host_key h0 :: seen) Hin) as [Hs|(h' & H1 & H2)].
    + apply elem_of_cons in Hs as [Hs|Hs]; [|auto]. right. exists h0. split; [left; reflexivity|congruence].
    + right. exists h'. split; [right; exact H1|exact H2].
Qed.

(** At most one distinct host, or two hosts with different keys. *)
Lemma unique_hosts_ambiguous hosts :
  1 < Z.of_nat (length (unique_hosts [] hosts)) ->
  exists h1 h2, In h1 hosts /\ In h2 hosts /\ host_key h1 <> host_key h2.
Proof.
  destruct hosts as [|h hosts]; [intros H; exfalso; revert H; vm_compute; discriminate|].
  cbn [unique_hosts]. rewrite bool_decide_false by apply not_elem_of_nil.
  destruct (unique_hosts [host_key h] hosts) as [|h2 l] eqn:E; cbn [length]; [lia|].
  intros _. assert (Hi : In h2 (unique_hosts [host_key h] hosts)) by (rewrite E; left; reflexivity).
  apply unique_hosts_in in Hi as [Hi Hn]. exists h, h2. split; [left; reflexivity|].
  split; [right; exact Hi|]. intros Hk. apply Hn. rewrite Hk. constructor.
Qed.

Lemma unique_hosts_single hosts h1 h2 :
  length (unique_hosts [] hosts) = 1%nat -> In h1 hosts -> In h2 hosts -> host_key h1 = host_key h2.
Proof.
  intros Hl H1 H2. destruct (unique_hosts [] hosts) as [|h [|]] eqn:E; try discriminate.
  destruct (unique_hosts_keys [] hosts h1 H1) as [Hn|(x & Hx & <-)]; [destruct (not_elem_of_nil _ Hn)|].
  destruct (unique_hosts_keys [] hosts h2 H2) as [Hn|(y & Hy & <-)]; [destruct (not_elem_of_nil _ Hn)|].
  rewrite E in Hx, Hy. destruct Hx as [<-|[]], Hy as [<-|[]]. reflexivity.
Qed.

Lemma unique_hosts_nonempty hosts : hosts <> [] -> (1 <= length (unique_hosts [] hosts))%nat.
Proof.
  destruct hosts as [|h hosts]; [congruence|]. intros _. cbn [unique_hosts].
  rewrite bool_decide_false by apply not_elem_of_nil. cbn [length]. lia.
Qed.

(** Whatever [find] returns is a row of the table. *)
Lemma find_in_table token s r : find token s = Ok (Some r) -> In r (devices s).
Proof.
  unfold find. destruct (Py.sexists _ token).
  - destruct (Py.rpartition "@" token) as [[name sep] host]. intros [= H]. apply find_some in H as [H _]. exact H.
  - destruct (tfind dr_uid token (devices s)) as [x|] eqn:E; [intros [= <-]; exact (tfind_in _ _ _ _ E)|].
    destruct (List.find _ (devices s)) as [x|] eqn:E2; [intros [= <-]; apply find_some in E2 as [H _]; exact H|].
    destruct (List.filter _ (devices s)) as [|x l] eqn:E3; [discriminate|].
    destruct (1 <? _); [discriminate|]. intros [= <-].
    assert (H : In x (x :: l)) by (left; reflexivity). rewrite <- E3 in H. apply filter_In in H as [H _]. exact H.
Qed.

Lemma find_get token s r : find token s = Ok (Some r) -> exists r', get (dr_uid r) s = Some r'.
Proof.
  intros H. apply find_in_table in H. destruct (get (dr_uid r) s) as [r'|] eqn:E; [eauto|].
  apply tfind_none in E. destruct E. apply in_map. exact H.
Qed.

(** The rows a bare device-name token matches. *)
Definition name_matches (token : string) (s : db) (r : DeviceRecord) : Prop :=
  In r (devices s) /\ nocase (dr_device_name r) token = true.

(** resolving a token. With an [@host] suffix the row of that name on
    that host, and no ambiguity is ever raised. A bare token is a uid
    first, then a short uid, then a device name; a name held on two
    different hosts raises [AmbiguousName], a name is resolved only when
    all its holders are on one host, and [None] means nothing matches. *)
Theorem find_resolves token s :
  if Py.sexists (Ascii.eqb "@") token then
    exists name host, token = (name +:+ "@" +:+ host)%string /\
      Py.sexists (Ascii.eqb "@") host = false /\
      find token s = Ok (List.find (fun r => nocase (dr_device_name r) name && nocase (dr_host r) host)
                           (devices s))
  else
  match find token s with
  | Ok (Some r) => In r (devices s) /\
      (dr_uid r = token \/
       (get token s = None /\ dr_short_uid r = token) \/
       (name_matches token s r /\
        forall r', name_matches token s r' -> host_key (dr_host r') = host_key (dr_host r)))
  | Ok None => get token s = None /\
      forall r, In r (devices s) -> dr_short_uid r <> token /\ nocase (dr_device_name r) token = false
  | Err e => (exists hs, e = AmbiguousName token hs) /\ get token s = None /\
      exists r1 r2, name_matches token s r1 /\ name_matches token s r2 /\
        host_key (dr_host r1) <> host_key (dr_host r2)
  end.
Proof.
  unfold find. destruct (Py.sexists (Ascii.eqb "@") token) eqn:Hat.
  { destruct (Py.rpartition_found _ _ Hat) as (name & host & E). rewrite E.
    apply Py.rpartition_spec in E as [-> Hh]. exists name, host. auto. }
  fold (get token s).
  destruct (get token s) as [r|] eqn:Hg.
  { split; [exact (tfind_in _ _ _ _ Hg)|]. left. exact (get_uid _ _ _ Hg). }
  destruct (List.find (fun r => String.eqb (dr_short_uid r) token) (devices s)) as [r|] eqn:Hsh.
  { apply find_some in Hsh as [Hi Hsh]. apply String.eqb_eq in Hsh. auto. }
  set (matches := List.filter _ (devices s)).
  assert (Hm : forall r, In r matches <-> name_matches token s r) by (intros r; apply filter_In).
  destruct matches as [|m ms] eqn:Em.
  { split; [reflexivity|]. intros r Hr. split.
    - pose proof (find_none _ _ Hsh r Hr) as Hn. apply String.eqb_neq in Hn. exact Hn.
    - destruct (nocase (dr_device_name r) token) eqn:Hn; [|reflexivity].
      destruct (proj2 (Hm r) (conj Hr Hn)). }
  cbv zeta. destruct (Z.ltb_spec 1 (Z.of_nat (length (unique_hosts [] (map dr_host (m :: ms)))))) as [Hl|Hl].
  - split; [eauto|]. split; [reflexivity|].
    destruct (unique_hosts_ambiguous _ Hl) as (h1 & h2 & H1 & H2 & Hne).
    apply in_map_iff in H1 as (r1 & <- & H1), H2 as (r2 & <- & H2). exists r1, r2.
    rewrite <- !Hm. auto.
  - pose proof (unique_hosts_nonempty (map dr_host (m :: ms))) as Hge.
    assert (Hmi : In m (m :: ms)) by (left; reflexivity).
    split; [exact (proj1 (proj1 (Hm m) Hmi))|]. right; right. split; [exact (proj1 (Hm m) Hmi)|].
    intros r' Hr'. apply Hm in Hr'.
    apply (unique_hosts_single (map dr_host (m :: ms)));
      [specialize (Hge ltac:(discriminate)); lia|apply in_map; assumption..].
Qed.

(** The snapshot handed to a peer: exactly this host's own attached,
    non-virtual rows, in table order, so a row learnt from another peer is
    never passed on, nor a board that is gone, nor a simulated one. *)
Theorem snapshot_exact s r :
  In r (snapshot_local_devices s) <->
  In r (devices s) /\ dr_host r = None /\ dr_state r <> STATE_DISCONNECTED /\
  ~ (dr_vid_pid r = Some VIRTUAL_VID_PID /\
     exists p, dr_port r = Some p /\ Py.startswith p VIRTUAL_PORT_PREFIX = true).
Proof.
  unfold snapshot_local_devices. rewrite !filter_In, andb_true_iff, !negb_true_iff,
    bool_decide_eq_true, bool_decide_eq_false.
  unfold is_virtual, is_virtual_row. destruct (dr_host r) as [h|]; [intuition congruence|].
  rewrite andb_false_iff, bool_decide_eq_false. destruct (dr_port r) as [p|].
  - split.
    + intros ((H1 & _ & H2) & H3). split; [exact H1|]. split; [reflexivity|]. split; [exact H2|].
      intros [Hv (p' & [= <-] & Hp)]. destruct H3 as [H3|H3]; congruence.
    + intros (H1 & _ & H2 & H3). split; [auto|].
      destruct (decide (dr_vid_pid r = Some VIRTUAL_VID_PID)) as [Hv|Hv]; [|auto].
      right. destruct (Py.startswith p VIRTUAL_PORT_PREFIX) eqn:Hp; [|reflexivity].
      exfalso. apply H3. eauto.
  - split; [|tauto]. intros ((H1 & _ & H2) & _). split; [exact H1|]. split; [reflexivity|].
    split; [exact H2|]. intros [_ (p & [=] & _)].
Qed.
