(* ===== verification/StoreNames.v ===== *)
(** * [registry/store.py]: the name registry

    The [name_registry] table: where each robot is, derived from its name
    or explicitly set.  Listings are [ORDER BY name] (SQLite's binary
    collation, here the order of the character codes). *)

From S2P Require Import Prelude Tables Naming Store.
Local Open Scope py_scope.

Definition SOURCE_DERIVED : string := "derived".
Definition SOURCE_REGISTRY : string := "registry".

Definition get_name_row (name : string) (s : db) : option Entry := tfind en_name name (names s).

Definition mk_entry (name : string) (channel group : Z) (source : string) (updated : Z) : Entry :=
  mkEntry name channel group source updated [] [].

(** [INSERT OR IGNORE]. *)
Definition insert_or_ignore (e : Entry) (s : db) : db :=
  match get_name_row (en_name e) s with
  | Some _ => s
  | None => set_names (names s ++ [e]) s
  end.

Definition resolve (name : string) (now : Z) : M db Entry :=
  name <-! mlift (validate name) ;;
  existing <-! mgets (get_name_row name) ;;
  match existing with
  | Some e => mret e
  | None =>
      address <-! mlift (name_to_radio name) ;;
      let '(channel, group) := address in
      mmodify (insert_or_ignore (mk_entry name channel group SOURCE_DERIVED now)) ;;!
      r <-! mgets (get_name_row name) ;;
      match r with Some e => mret e | None => mraise RuntimeError end
  end.

Definition get_name (name : string) (s : db) : result (option Entry) :=
  let! name := validate name in Ok (get_name_row name s).

Definition set (name : string) (channel group : Z) (now : Z) : M db Entry :=
  name <-! mlift (validate name) ;;
  mmodify (fun s =>
    match get_name_row name s with
    | None => set_names (names s ++ [mk_entry name channel group SOURCE_REGISTRY now]) s
    | Some _ => set_names (tupd en_name name
                  (fun _ => mk_entry name channel group SOURCE_REGISTRY now) (names s)) s
    end) ;;!
  r <-! mgets (get_name_row name) ;;
  match r with Some e => mret e | None => mraise RuntimeError end.

Definition clear (name : string) : M db unit :=
  name <-! mlift (validate name) ;;
  mmodify (fun s => set_names (tdel en_name name (names s)) s).

Definition on_link (channel group : Z) (e : Entry) : bool :=
  (en_channel e =? channel) && (en_group e =? group).

Definition name_for (channel group : Z) (s : db) : option string :=
  match List.find (fun e => on_link channel group e && String.eqb (en_source e) SOURCE_REGISTRY)
          (names s) with
  | Some e => Some (en_name e)
  | None =>
      match radio_to_name channel group with
      | Err _ => None
      | Ok derived_name =>
          match get_name_row derived_name s with
          | Some moved => if on_link channel group moved then Some derived_name else None
          | None => Some derived_name
          end
      end
  end.

(** [ORDER BY name]. *)
Fixpoint string_leb (a b : string) : bool :=
  match a, b with
  | "", _ => true
  | String _ _, "" => false
  | String c a', String d b' =>
      let x := nat_of_ascii c in let y := nat_of_ascii d in
      if (x <? y)%nat then true else if (y <? x)%nat then false else string_leb a' b'
  end.

Fixpoint insert_by_name (e : Entry) (l : list Entry) : list Entry :=
  match l with
  | [] => [e]
  | x :: l' => if string_leb (en_name e) (en_name x) then e :: l else x :: insert_by_name e l'
  end.

Definition all_name_entries (s : db) : list Entry := fold_right insert_by_name [] (names s).

(** The dictionary of names per key, in order of first appearance. *)
Definition group_by {K} `{EqDecision K} (key : Entry -> K) (entries : list Entry)
    : list (K * list string) :=
  fold_left (fun d e =>
    dset (key e) (match dget (key e) d with Some l => l ++ [en_name e] | None => [en_name e] end) d)
    entries [].

Definition conflicts (s : db) : list ((Z * Z) * list string) :=
  List.filter (fun kv => (1 <? Z.of_nat (length kv.2)))
    (group_by (fun e => (en_channel e, en_group e)) (all_name_entries s)).

(** The set of groups on a channel. *)
Definition groups_on (channel : Z) (entries : list Entry) : list Z :=
  remove_dups (map en_group (List.filter (fun e => en_channel e =? channel) entries)).

Definition channel_conflicts (s : db) : list (Z * list string) :=
  List.filter (fun kv => (1 <? Z.of_nat (length (groups_on kv.1 (all_name_entries s)))))
    (group_by en_channel (all_name_entries s)).

Definition annotate (entries : list Entry) (entry : Entry) : Entry :=
  let others := List.filter (fun e => (en_channel e =? en_channel entry) &&
                                      negb (String.eqb (en_name e) (en_name entry))) entries in
  let same_link := map en_name (List.filter (fun e => en_group e =? en_group entry) others) in
  let same_channel := map en_name (List.filter (fun e => negb (en_group e =? en_group entry)) others) in
  mkEntry (en_name entry) (en_channel entry) (en_group entry) (en_source entry) (en_updated entry)
    same_link same_channel.

Definition listing (s : db) : list Entry :=
  map (annotate (all_name_entries s)) (all_name_entries s).

(** ** Lemmas *)

Lemma in_insert e x l : In x (insert_by_name e l) <-> x = e \/ In x l.
Proof.
  induction l as [|y l IH]; simpl; [intuition|].
  destruct (string_leb (en_name e) (en_name y)); simpl; [intuition|]. rewrite IH. intuition.
Qed.

Lemma in_all_entries x s : In x (all_name_entries s) <-> In x (names s).
Proof.
  unfold all_name_entries. induction (names s) as [|y l IH]; simpl; [tauto|].
  rewrite in_insert, IH. intuition.
Qed.

(** The names under one key are exactly the entries with that key. *)
Lemma group_by_spec {K} `{EqDecision K} (key : Entry -> K) entries k :
  dget k (group_by key entries) =
  match map en_name (List.filter (fun e => bool_decide (key e = k)) entries) with
  | [] => None
  | l => Some l
  end.
Proof.
  unfold group_by.
  assert (G : forall (d : list (K * list string)),
    (forall l, dget k d = Some l -> l <> []) ->
    dget k (fold_left (fun d e => dset (key e)
        (match dget (key e) d with Some l => l ++ [en_name e] | None => [en_name e] end) d) entries d) =
    match (match dget k d with Some l => l | None => [] end) ++
          map en_name (List.filter (fun e => bool_decide (key e = k)) entries) with
    | [] => None
    | l => Some l
    end).
  { induction entries as [|e entries IH]; intros d Hd; cbn [fold_left List.filter map].
    - rewrite app_nil_r. destruct (dget k d) as [l|] eqn:E; [|reflexivity].
      specialize (Hd l eq_refl). destruct l; [congruence|reflexivity].
    - rewrite IH.
      + destruct (bool_decide_reflect (key e = k)) as [->|Hn].
        * rewrite dget_dset_eq. cbn [map]. destruct (dget k d); [rewrite <- app_assoc|]; reflexivity.
        * rewrite dget_dset_ne by exact Hn. reflexivity.
      + intros l. destruct (decide (key e = k)) as [->|Hn].
        * rewrite dget_dset_eq. intros [= <-]. destruct (dget k d) as [[|]|]; discriminate.
        * rewrite dget_dset_ne by exact Hn. apply Hd. }
  rewrite G by (intros l; discriminate). reflexivity.
Qed.

Lemma group_by_unique {K} `{EqDecision K} (key : Entry -> K) entries : dunique (group_by key entries).
Proof.
  unfold group_by. assert (G : forall d : list (K * list string), dunique d ->
    dunique (fold_left (fun d e => dset (key e)
        (match dget (key e) d with Some l => l ++ [en_name e] | None => [en_name e] end) d) entries d)).
  { induction entries as [|e entries IH]; intros d Hd; [exact Hd|]. apply IH, dunique_dset, Hd. }
  apply G, dunique_nil.
Qed.

Lemma get_name_row_key n s e : get_name_row n s = Some e -> en_name e = n.
Proof. apply tfind_key. Qed.

Lemma resolve_run name now s : resolve name now s =
  match validate name with
  | Err e => (Err e, s)
  | Ok v =>
      match get_name_row v s with
      | Some e => (Ok e, s)
      | None =>
          match name_to_radio v with
          | Err e => (Err e, s)
          | Ok (channel, group) =>
              (Ok (mk_entry v channel group SOURCE_DERIVED now),
               set_names (names s ++ [mk_entry v channel group SOURCE_DERIVED now]) s)
          end
      end
  end.
Proof.
  unfold resolve, mbind, mlift, mgets. destruct (validate name) as [v|e]; [|reflexivity].
  destruct (get_name_row v s) as [e|] eqn:Hg; [reflexivity|].
  destruct (name_to_radio v) as [[c g]|e]; [|reflexivity].
  unfold mmodify, insert_or_ignore. cbn [en_name mk_entry]. rewrite Hg.
  unfold get_name_row, set_names. cbn [names]. rewrite tfind_app.
  fold (get_name_row v s). rewrite Hg, tfind_cons, bool_decide_true by reflexivity. reflexivity.
Qed.

Lemma set_run name channel group now s : set name channel group now s =
  match validate name with
  | Err e => (Err e, s)
  | Ok v =>
      let e := mk_entry v channel group SOURCE_REGISTRY now in
      (Ok e, set_names match get_name_row v s with
                       | None => names s ++ [e]
                       | Some _ => tupd en_name v (fun _ => e) (names s)
                       end s)
  end.
Proof.
  unfold set, mbind, mlift, mgets, mmodify. destruct (validate name) as [v|e]; [|reflexivity].
  destruct (get_name_row v s) as [e|] eqn:Hg; unfold get_name_row, set_names in *; cbn [names].
  - rewrite tfind_tupd_eq by reflexivity. rewrite Hg. reflexivity.
  - rewrite tfind_app, Hg, tfind_cons, bool_decide_true by reflexivity. reflexivity.
Qed.

Lemma clear_run name s : clear name s =
  match validate name with
  | Err e => (Err e, s)
  | Ok v => (Ok tt, set_names (tdel en_name v (names s)) s)
  end.
Proof.
  unfold clear, mbind, mlift, mmodify. destruct (validate name); reflexivity.
Qed.

(** A validated name is its own validation, so has an address. *)
Lemma validate_idem name v : validate name = Ok v ->
  validate v = Ok v /\ exists n, decode v = Ok n /\ 0 <= n < SPACE /\ encode n = Ok v.
Proof.
  intros Hv. apply validate_spec in Hv as (-> & Hl & Hm).
  destruct (decode_encode_digits _ Hl Hm) as (n & Hd & Hn & He).
  destruct (encode_decode_core n Hn) as (v & He' & Hd'). rewrite He in He'. injection He' as E.
  unfold decode in Hd'. destruct (validate v) as [w|] eqn:Hw; [|discriminate].
  rewrite <- E in Hw. assert (w = normalize name).
  { apply validate_spec in Hw as (Ew & Hl' & Hm'). cbn [result_bind] in Hd'.
    destruct (decode_encode_digits _ Hl' Hm') as (n' & Hdn' & Hn' & Hen').
    rewrite Hdn' in Hd'. injection Hd' as ->. congruence. }
  subst w. split; [exact Hw|]. exists n. split; [|auto]. unfold decode. rewrite Hw. exact Hd.
Qed.

Lemma name_to_radio_valid name v : validate name = Ok v ->
  exists n, name_to_radio v = Ok (address n) /\ 0 <= n < SPACE /\ encode n = Ok v.
Proof.
  intros Hv. apply validate_idem in Hv as (_ & n & Hd & Hn & He).
  exists n. unfold name_to_radio. rewrite Hd. auto.
Qed.

(** *** The registry invariant *)

(** Rows hold normalised names, uniquely, and a derived row its default. *)
Definition names_ok (s : db) : Prop :=
  unique en_name (names s) /\
  forall e, In e (names s) -> validate (en_name e) = Ok (en_name e) /\
    ((en_source e = SOURCE_DERIVED /\ name_to_radio (en_name e) = Ok (en_channel e, en_group e)) \/
     en_source e = SOURCE_REGISTRY).

Inductive names_op := NResolve (name : string) | NSet (name : string) (channel group : Z) | NClear (name : string).

Definition names_exec (o : names_op) (now : Z) : M db unit :=
  match o with
  | NResolve name => resolve name now ;;! mret tt
  | NSet name channel group => set name channel group now ;;! mret tt
  | NClear name => clear name
  end.

Lemma validate_ok_idem name v : validate name = Ok v -> validate v = Ok v.
Proof. intros H. exact (proj1 (validate_idem name v H)). Qed.

Lemma names_exec_ok o now s : names_ok s -> names_ok (mstate (names_exec o now) s).
Proof.
  intros [Hu Hr]. destruct o as [name|name c g|name]; cbn [names_exec];
    rewrite ?bind_ret_state; unfold mstate; rewrite ?resolve_run, ?set_run, ?clear_run;
    (destruct (validate name) as [v|e] eqn:Hv; [|split; assumption]).
  - destruct (get_name_row v s) as [e|] eqn:Hg; [split; assumption|].
    destruct (name_to_radio v) as [[c g]|e] eqn:Ha; [|split; assumption]. split; cbn [snd names set_names].
    + apply unique_snoc; [exact Hu|exact Hg].
    + intros e He. apply in_app_or in He as [He|[<-|[]]]; [exact (Hr e He)|].
      split; [exact (validate_ok_idem _ _ Hv)|left; split; [reflexivity|exact Ha]].
  - cbv zeta. cbn [snd]. split; cbn [names set_names].
    + destruct (get_name_row v s) as [e|] eqn:Hg;
        [apply unique_tupd; auto|apply unique_snoc; [exact Hu|exact Hg]].
    + intros e He.
      assert (H : In e (names s) \/ e = mk_entry v c g SOURCE_REGISTRY now).
      { destruct (get_name_row v s).
        - apply in_tupd in He as (e1 & He & ->). destruct (bool_decide (en_name e1 = v)); auto.
        - apply in_app_or in He as [He|[<-|[]]]; auto. }
      destruct H as [H|E]; [exact (Hr e H)|]. rewrite E.
      split; [exact (validate_ok_idem _ _ Hv)|right; reflexivity].
  - cbn [snd]. split; cbn [names set_names]; [apply unique_tdel, Hu|].
    intros e He. apply in_tdel in He as [He _]. exact (Hr e He).
Qed.

(** Where a well-formed name is: its row, else its default address. *)
Definition location (v : string) (s : db) : result (Z * Z) :=
  match get_name_row v s with
  | Some e => Ok (en_channel e, en_group e)
  | None => name_to_radio v
  end.

Lemma on_link_eq c g e : on_link c g e = true <-> (en_channel e, en_group e) = (c, g).
Proof.
  unfold on_link. rewrite andb_true_iff, !Z.eqb_eq. split; [intros [-> ->]|intros [= -> ->]]; auto.
Qed.

Lemma encode_radio_to_name n v c g : 0 <= n < SPACE -> encode n = Ok v ->
  address n = (c, g) -> radio_to_name c g = Ok v.
Proof. intros Hn He Ha. pose proof (reverse_address n Hn) as H. rewrite Ha, He in H. exact H. Qed.

Lemma radio_to_name_sound c g v : radio_to_name c g = Ok v -> name_to_radio v = Ok (c, g).
Proof.
  intros H. destruct (radio_to_name_cases c g) as [(s & E & Hs)|E]; congruence.
Qed.

(** ** Properties *)

(** [resolve] always answers for a well-formed name and never moves
    it: an existing row is returned unchanged; an unknown name gets its
    default address, recorded as derived; asking again returns the same
    entry and writes nothing; a malformed name raises [ValueError] and
    writes nothing; no other name's row is touched. *)
Theorem resolve_answers name now now' s :
  let '(res, s') := resolve name now s in
  match validate name with
  | Err e => e = ValueError /\ res = Err ValueError /\ s' = s
  | Ok v =>
      exists e, res = Ok e /\ get_name_row v s' = Some e /\ Ok (en_channel e, en_group e) = location v s /\
        (get_name_row v s = Some e \/
         (get_name_row v s = None /\ en_source e = SOURCE_DERIVED /\ en_updated e = now)) /\
        resolve name now' s' = (Ok e, s') /\
        (forall w, w <> v -> get_name_row w s' = get_name_row w s) /\
        devices s' = devices s /\ peers s' = peers s
  end.
Proof.
  rewrite resolve_run. unfold location. destruct (validate name) as [v|e] eqn:Hv.
  - destruct (get_name_row v s) as [e|] eqn:Hg.
    + exists e. rewrite resolve_run, Hv, Hg. auto 10.
    + destruct (name_to_radio_valid _ _ Hv) as (n & Ha & _). rewrite Ha.
      destruct (address n) as [c g].
      assert (Hg' : get_name_row v (set_names (names s ++ [mk_entry v c g SOURCE_DERIVED now]) s) =
                    Some (mk_entry v c g SOURCE_DERIVED now)).
      { unfold get_name_row, set_names in *. cbn [names]. rewrite tfind_app, Hg, tfind_cons.
        rewrite bool_decide_true by reflexivity. reflexivity. }
      eexists. split; [reflexivity|]. split; [exact Hg'|]. split; [reflexivity|].
      split; [right; auto|]. split; [rewrite resolve_run, Hv, Hg'; reflexivity|].
      split; [|auto]. intros w Hw. unfold get_name_row, set_names. cbn [names].
      rewrite tfind_app, tfind_cons. cbn [en_name mk_entry].
      rewrite bool_decide_false by congruence. destruct (tfind en_name w (names s)); reflexivity.
  - unfold validate in Hv. destruct (Naming.NAME_RE_match (normalize name)); [discriminate|].
    injection Hv as <-. auto.
Qed.

(** [name_for] is the inverse of [resolve] on every database whose
    registry rows came from its own operations: the name it answers is
    located on that link; and when some well-formed name is located there
    by an explicit row or by its default, it does answer. *)
Theorem name_for_inverse s c g : names_ok s ->
  (forall v, name_for c g s = Some v -> location v s = Ok (c, g)) /\
  (forall name v, validate name = Ok v -> location v s = Ok (c, g) -> name_for c g s <> None).
Proof.
  intros [Hu Hr]. unfold name_for.
  set (P := fun e => on_link c g e && String.eqb (en_source e) SOURCE_REGISTRY).
  destruct (List.find P (names s)) as [e|] eqn:Hf.
  - split; [|discriminate]. intros v [= <-]. apply find_some in Hf as [Hi Hp].
    apply andb_prop in Hp as [Hl _]. apply on_link_eq in Hl. unfold location, get_name_row.
    rewrite (tfind_unique en_name _ e Hu Hi). congruence.
  - pose proof (find_none P (names s) Hf) as Hnone. split.
    + intros v. destruct (radio_to_name c g) as [d|] eqn:Hd; [|discriminate]. unfold location.
      destruct (get_name_row d s) as [m|] eqn:Hm.
      * destruct (on_link c g m) eqn:Hl; [|discriminate]. intros [= <-]. rewrite Hm.
        apply on_link_eq in Hl. congruence.
      * intros [= <-]. rewrite Hm. exact (radio_to_name_sound _ _ _ Hd).
    + intros name v Hv Hloc. unfold location in Hloc.
      destruct (name_to_radio_valid _ _ Hv) as (n & Ha & Hn & He).
      assert (Hdef : name_to_radio v = Ok (c, g)).
      { destruct (get_name_row v s) as [e|] eqn:Hg; [|exact Hloc].
        pose proof (tfind_in _ _ _ _ Hg) as Hi. destruct (Hr e Hi) as [_ [[_ Hd]|Hsrc]].
        - rewrite (get_name_row_key _ _ _ Hg) in Hd. congruence.
        - specialize (Hnone e Hi). unfold P in Hnone. injection Hloc as Hc1 Hg1.
          rewrite (proj2 (on_link_eq c g e)), Hsrc, String.eqb_refl in Hnone by congruence.
          discriminate. }
      assert (Hdef' : address n = (c, g)) by congruence. clear Hdef. rename Hdef' into Hdef.
      rewrite (encode_radio_to_name n v c g Hn He Hdef).
      destruct (get_name_row v s) as [m|] eqn:Hm; [|discriminate].
      rewrite (proj2 (on_link_eq c g m)) by congruence. discriminate.
Qed.

Definition example_names : db :=
  mstate (names_exec (NSet "vevov" 30 40) 7) (mstate (names_exec (NResolve "zavaz") 5) empty_db).

Lemma example_names_ok : names_ok example_names.
Proof. apply names_exec_ok, names_exec_ok. split; [apply NoDup_nil_2|intros e []]. Qed.

Lemma name_for_inverse_witness :
  name_for 30 40 example_names = Some "vevov" /\ location "vevov" example_names = Ok (30, 40).
Proof.
  assert (E : name_for 30 40 example_names = Some "vevov") by (vm_compute; reflexivity).
  split; [exact E|]. exact (proj1 (name_for_inverse example_names 30 40 example_names_ok) _ E).
Defined.

Lemma filter_two {A} (P : A -> bool) (key : A -> string) l a : unique key l -> In a l -> P a = true ->
  (1 < Z.of_nat (length (List.filter P l)) <->
   exists b, In b l /\ P b = true /\ key b <> key a).
Proof.
  intros Hu Ha Hp. assert (Hfa : In a (List.filter P l)) by (apply filter_In; auto).
  pose proof (unique_filter key P l Hu) as Hfu.
  assert (Hb : forall b, In b l /\ P b = true /\ key b <> key a <-> In b (List.filter P l) /\ key b <> key a)
    by (intros b; rewrite filter_In; tauto).
  setoid_rewrite Hb. revert Hfa Hfu. generalize (List.filter P l). intros f Hfa Hfu. split.
  - intros Hl. destruct f as [|x [|y f]]; cbn [length] in Hl; try lia.
    unfold unique in Hfu. cbn [map] in Hfu. apply NoDup_cons in Hfu as [Hn _].
    destruct (decide (key x = key a)) as [E|E].
    + exists y. split; [right; left; reflexivity|]. intros E'. apply Hn. rewrite E, <- E'. constructor.
    + exists x. split; [left; reflexivity|exact E].
  - intros (b & Hi & Hne). destruct f as [|x [|y f]]; [destruct Hfa| |cbn [length]; lia].
    destruct Hfa as [<-|[]], Hi as [<-|[]]. congruence.
Qed.

Lemma length_zero_iff {A} (l : list A) : 0 < Z.of_nat (length l) <-> l <> [].
Proof. destruct l; cbn [length]; split; intros H; (lia || congruence). Qed.

(** Some pair of distinct groups on a channel, once one entry is fixed. *)
Lemma groups_on_two s ch e : In e (all_name_entries s) -> en_channel e = ch ->
  (1 < Z.of_nat (length (groups_on ch (all_name_entries s))) <->
   exists e', In e' (all_name_entries s) /\ en_channel e' = ch /\ en_group e' <> en_group e).
Proof.
  intros He Hc. unfold groups_on. set (l := map en_group _).
  assert (Hl : forall g, g ∈ remove_dups l <-> exists e', In e' (all_name_entries s) /\ en_channel e' = ch /\ en_group e' = g).
  { intros g. rewrite elem_of_remove_dups, list_elem_of_In. unfold l. rewrite in_map_iff. split.
    - intros (e' & <- & Hf). apply filter_In in Hf as [H1 H2]. exists e'. split; [exact H1|]. split; [lia|reflexivity].
    - intros (e' & H1 & H2 & <-). exists e'. split; [reflexivity|]. apply filter_In. split; [exact H1|lia]. }
  pose proof (NoDup_remove_dups l) as Hnd.
  assert (Hge : en_group e ∈ remove_dups l) by (apply Hl; eauto).
  revert Hl Hnd Hge. generalize (remove_dups l). intros f Hl Hnd Hge. split.
  - intros Hlen. destruct f as [|x [|y f]]; cbn [length] in Hlen; try lia.
    apply NoDup_cons in Hnd as [Hn _].
    destruct (decide (x = en_group e)) as [E|E].
    + destruct (proj1 (Hl y)) as (e' & H1 & H2 & <-); [right; left|].
      exists e'. split; [exact H1|]. split; [exact H2|]. intros E'. apply Hn. rewrite E, <- E'. left.
    + destruct (proj1 (Hl x)) as (e' & H1 & H2 & <-); [left|]. eauto.
  - intros (e' & H1 & H2 & Hne). assert (Hge' : en_group e' ∈ f) by (apply Hl; eauto).
    destruct f as [|x [|y f]]; [inversion Hge| |cbn [length]; lia].
    apply list_elem_of_singleton in Hge, Hge'. congruence.
Qed.

Lemma insert_permutation e l : insert_by_name e l ≡ₚ e :: l.
Proof.
  induction l as [|x l IH]; [reflexivity|]. simpl.
  destruct (string_leb (en_name e) (en_name x)); [reflexivity|]. rewrite IH. apply Permutation_swap.
Qed.

Lemma all_entries_unique s : unique en_name (names s) -> unique en_name (all_name_entries s).
Proof.
  unfold unique. intros H. replace (NoDup (map en_name (all_name_entries s)))
    with (NoDup (en_name <$> all_name_entries s)) by reflexivity.
  assert (E : all_name_entries s ≡ₚ names s).
  { unfold all_name_entries. induction (names s) as [|x l IH]; [reflexivity|]. simpl.
    rewrite insert_permutation. constructor. apply IH. cbn [map] in H. apply NoDup_cons in H. apply H. }
  rewrite E. exact H.
Qed.

(** What [conflicts] and [channel_conflicts] hold for a key. *)
Lemma conflicts_get s c g : dget (c, g) (conflicts s) =
  let l := map en_name (List.filter (fun e => bool_decide ((en_channel e, en_group e) = (c, g)))
                          (all_name_entries s)) in
  if 1 <? Z.of_nat (length l) then Some l else None.
Proof.
  unfold conflicts. rewrite dget_filter by apply group_by_unique. rewrite group_by_spec. cbv zeta.
  destruct (map en_name _) as [|x l]; reflexivity.
Qed.

Lemma channel_conflicts_get s ch : dget ch (channel_conflicts s) =
  if 1 <? Z.of_nat (length (groups_on ch (all_name_entries s))) then
    Some (map en_name (List.filter (fun e => bool_decide (en_channel e = ch)) (all_name_entries s)))
  else None.
Proof.
  unfold channel_conflicts. rewrite dget_filter by apply group_by_unique. rewrite group_by_spec.
  unfold groups_on. cbn [fst].
  replace (List.filter (fun e => en_channel e =? ch) (all_name_entries s))
    with (List.filter (fun e => bool_decide (en_channel e = ch)) (all_name_entries s)).
  - destruct (List.filter _ (all_name_entries s)) as [|x l]; reflexivity.
  - apply filter_ext. intros e. destruct (bool_decide_reflect (en_channel e = ch)); lia.
Qed.

Lemma map_filter_nonempty {A} (f : A -> string) P (l : list A) :
  map f (List.filter P l) <> [] <-> exists x, In x l /\ P x = true.
Proof.
  split.
  - intros H. destruct (List.filter P l) as [|x f'] eqn:E; [destruct (H eq_refl)|]. exists x.
    apply filter_In. rewrite E. left. reflexivity.
  - intros (x & Hx). apply filter_In in Hx. destruct (List.filter P l); [destruct Hx|discriminate].
Qed.

Lemma annotate_conflict s e : unique en_name (names s) -> In e (all_name_entries s) ->
  (en_conflict (annotate (all_name_entries s) e) <> [] <->
   dget (en_channel e, en_group e) (conflicts s) <> None).
Proof.
  intros Hu He. rewrite conflicts_get. cbv zeta. cbn [annotate en_conflict].
  rewrite map_filter_nonempty, length_map.
  pose proof (filter_two (fun x => bool_decide ((en_channel x, en_group x) = (en_channel e, en_group e)))
    en_name (all_name_entries s) e (all_entries_unique s Hu) He (bool_decide_true _ eq_refl)) as F.
  destruct (Z.ltb_spec 1 (Z.of_nat (length (List.filter (fun x => bool_decide ((en_channel x, en_group x) =
    (en_channel e, en_group e))) (all_name_entries s))))) as [Hl|Hl].
  - split; [discriminate|]. intros _. apply F in Hl as (b & Hb & Hp & Hne). apply bool_decide_eq_true in Hp.
    exists b. rewrite filter_In, andb_true_iff, negb_true_iff, String.eqb_neq, !Z.eqb_eq.
    injection Hp as -> ->. auto.
  - split; [|congruence]. intros (b & Hb & Hg). exfalso. assert (Hlt := proj2 F). specialize (Hlt ltac:(
      exists b; rewrite filter_In, andb_true_iff, negb_true_iff, String.eqb_neq, !Z.eqb_eq in *;
      split; [apply Hb|]; split; [apply bool_decide_eq_true; f_equal; tauto|tauto])). lia.
Qed.

Lemma annotate_channel_conflict s e : unique en_name (names s) -> In e (all_name_entries s) ->
  (en_channel_conflict (annotate (all_name_entries s) e) <> [] <->
   dget (en_channel e) (channel_conflicts s) <> None).
Proof.
  intros Hu He. rewrite channel_conflicts_get. cbn [annotate en_channel_conflict].
  rewrite map_filter_nonempty. pose proof (groups_on_two s (en_channel e) e He eq_refl) as F.
  destruct (Z.ltb_spec 1 (Z.of_nat (length (groups_on (en_channel e) (all_name_entries s))))) as [Hl|Hl].
  - split; [discriminate|]. intros _. apply F in Hl as (b & Hb & Hc & Hg). exists b.
    rewrite filter_In, andb_true_iff, !negb_true_iff, String.eqb_neq, Z.eqb_eq, Z.eqb_neq.
    split; [|exact Hg]. split; [exact Hb|]. split; [exact Hc|]. intros E. apply Hg.
    pose proof (tfind_unique en_name _ b (all_entries_unique s Hu) Hb) as F1.
    pose proof (tfind_unique en_name _ e (all_entries_unique s Hu) He) as F2.
    rewrite E in F1. congruence.
  - split; [|congruence]. intros (b & Hb & Hg). exfalso.
    rewrite filter_In, andb_true_iff, negb_true_iff, Z.eqb_eq in Hb. rewrite negb_true_iff, Z.eqb_neq in Hg.
    pose proof (proj2 F). specialize (H ltac:(exists b; tauto)). lia.
Qed.

(** conflict detection. A link appears in [conflicts], with exactly
    the names on it, when more than one name holds it; a channel appears
    in [channel_conflicts], with exactly its names, when its names use more
    than one group; and in a [listing] an entry's annotations are non-empty
    exactly when its link, or its channel, is reported. *)
Theorem conflicts_exact s : unique en_name (names s) ->
  (forall c g l, dget (c, g) (conflicts s) = Some l <->
     l = map en_name (List.filter (fun e => bool_decide ((en_channel e, en_group e) = (c, g)))
                        (all_name_entries s)) /\ 1 < Z.of_nat (length l)) /\
  (forall ch l, dget ch (channel_conflicts s) = Some l <->
     l = map en_name (List.filter (fun e => bool_decide (en_channel e = ch)) (all_name_entries s)) /\
     1 < Z.of_nat (length (groups_on ch (all_name_entries s)))) /\
  (forall a, In a (listing s) ->
     (en_conflict a <> [] <-> dget (en_channel a, en_group a) (conflicts s) <> None) /\
     (en_channel_conflict a <> [] <-> dget (en_channel a) (channel_conflicts s) <> None)).
Proof.
  intros Hu. split; [|split].
  - intros c g l. rewrite conflicts_get. cbv zeta.
    destruct (Z.ltb_spec 1 (Z.of_nat (length (map en_name (List.filter (fun e =>
      bool_decide ((en_channel e, en_group e) = (c, g))) (all_name_entries s)))))) as [Hl|Hl].
    + split; [intros [= <-]; auto|intros [-> _]; reflexivity].
    + split; [discriminate|]. intros [-> H]. lia.
  - intros ch l. rewrite channel_conflicts_get.
    destruct (Z.ltb_spec 1 (Z.of_nat (length (groups_on ch (all_name_entries s))))) as [Hl|Hl].
    + split; [intros [= <-]; auto|intros [-> _]; reflexivity].
    + split; [discriminate|]. intros [-> H]. lia.
  - intros a Ha. unfold listing in Ha. apply in_map_iff in Ha as (e & <- & He).
    split; [exact (annotate_conflict s e Hu He)|exact (annotate_channel_conflict s e Hu He)].
Qed.

Lemma conflicts_exact_witness :
  unique en_name (names example_names) /\
  (forall a, In a (listing example_names) ->
     (en_conflict a <> [] <-> dget (en_channel a, en_group a) (conflicts example_names) <> None) /\
     (en_channel_conflict a <> [] <-> dget (en_channel a) (channel_conflicts example_names) <> None)).
Proof.
  split; [exact (proj1 example_names_ok)|].
  apply (conflicts_exact example_names (proj1 example_names_ok)).
Defined.
