(* ===== verification/Locks.v ===== *)
(** * [registry/locks.py]: the exclusive lock manager

    The in-memory lock table, an insertion-ordered dictionary from uid to
    its status.  The manager lives inside whatever owns it and calls two
    optional callbacks; [LockHost] is that interface: how the owner's state
    holds the table, and the callbacks as computations on the owner's
    state, which may do anything to it but touch the table. *)

From S2P Require Import Prelude Tables.
Local Open Scope py_scope.

Definition KIND_SERIAL : string := "serial".
Definition KIND_RELAY : string := "relay".
Definition KIND_FLASH : string := "flash".
Definition KIND_DEBUG : string := "debug".
Definition LOCK_KINDS : list string := [KIND_SERIAL; KIND_RELAY; KIND_FLASH; KIND_DEBUG].

Record HolderRef := mkHolder {
  h_origin : string;
  h_ref : string;
  h_pid : option Z;
  h_host : option string }.

#[export] Instance HolderRef_eq_dec : EqDecision HolderRef.
Proof. solve_decision. Defined.

Record LockStatus := mkLockStatus {
  ls_kind : string;
  ls_holder : HolderRef;
  ls_label : option string;
  ls_since : Z }.

#[export] Instance LockStatus_eq_dec : EqDecision LockStatus.
Proof. solve_decision. Defined.

(** [LockStatus.pid]. *)
Definition ls_pid (st : LockStatus) : option Z := h_pid (ls_holder st).

Definition show_pid (pid : option Z) : string :=
  match pid with Some p => pretty p | None => "None" end.

Definition show_host (host : option string) : string :=
  match host with Some h => h | None => "None" end.

Definition describe_holder (holder : HolderRef) : string :=
  if String.eqb (h_origin holder) "local" then ("pid " +:+ show_pid (h_pid holder))%string
  else ("session " +:+ h_ref holder +:+ " on " +:+ show_host (h_host holder))%string.

Definition log_holder (holder : HolderRef) (label : option string) : string :=
  match label with
  | None | Some "" => describe_holder holder
  | Some l => (describe_holder holder +:+ " (" +:+ l +:+ ")")%string
  end.

(** [int(seconds)], from microseconds. *)
Definition whole_seconds (us : Z) : Z := Z.quot us 1000000.

Definition format_age (us : Z) : string :=
  let seconds := Z.max 0 (whole_seconds us) in
  if seconds <? 60 then (pretty seconds +:+ "s")%string
  else
    let minutes := seconds / 60 in
    if minutes <? 60 then (pretty minutes +:+ "m")%string
    else (pretty (minutes / 60) +:+ "h")%string.

Definition format_lock_suffix (label : option string) (since : option Z) (now : Z) : string :=
  match since with
  | None => ""
  | Some since =>
      let age := format_age (now - since) in
      match label with
      | None | Some "" => (" (" +:+ age +:+ ")")%string
      | Some l => (" (" +:+ l +:+ ", " +:+ age +:+ ")")%string
      end
  end.

Definition lock_table : Type := list (string * LockStatus).

(** The arguments of one [lock_display_callback] call. *)
Record display_call := mkDisplay {
  dc_uid : string;
  dc_kind : option string;
  dc_display : option string;
  dc_label : option string;
  dc_since : option Z }.

#[export] Instance display_call_eq_dec : EqDecision display_call.
Proof. solve_decision. Defined.

(** What a lock manager needs of its owner's state. *)
Class LockHost (S : Type) := {
  lh_locks : S -> lock_table;
  lh_set_locks : lock_table -> S -> S;
  lh_flash_cb : option (string -> M S unit);
  lh_display_cb : option (display_call -> M S unit);
  lh_locks_set : forall t s, lh_locks (lh_set_locks t s) = t;
  lh_flash_keeps : forall cb uid s, lh_flash_cb = Some cb ->
    lh_locks (mstate (cb uid) s) = lh_locks s;
  lh_display_keeps : forall cb c s, lh_display_cb = Some cb ->
    lh_locks (mstate (cb c) s) = lh_locks s }.

Section LockManager.
Context {S : Type} `{LockHost S}.

Definition status (uid : string) (s : S) : option LockStatus := dget uid (lh_locks s).

Definition call_flash (uid : string) : M S unit :=
  match lh_flash_cb with Some cb => cb uid | None => mret tt end.

Definition call_display (c : display_call) : M S unit :=
  match lh_display_cb with Some cb => cb c | None => mret tt end.

Definition acquire (uid kind : string) (holder : HolderRef) (label : option string) (now : Z)
    : M S bool :=
  current <-! mgets (status uid) ;;
  match current with
  | Some _ => mraise (LockHeldError uid)
  | None =>
      mmodify (fun s => lh_set_locks (dset uid (mkLockStatus kind holder label now) (lh_locks s)) s) ;;!
      call_display (mkDisplay uid (Some kind) (Some (describe_holder holder)) label (Some now)) ;;!
      mret true
  end.

(** [_release]: drop the entry, then the callbacks in order. *)
Definition release_entry (uid : string) (holder : LockStatus) : M S unit :=
  mmodify (fun s => lh_set_locks (ddel uid (lh_locks s)) s) ;;!
  (if String.eqb (ls_kind holder) KIND_FLASH then call_flash uid else mret tt) ;;!
  call_display (mkDisplay uid None None None None).

Definition release (uid : string) (holder : HolderRef) : M S bool :=
  current <-! mgets (status uid) ;;
  match current with
  | None => mret false
  | Some st =>
      if bool_decide (ls_holder st = holder) then release_entry uid st ;;! mret true
      else mret false
  end.

Definition force_release (uid : string) : M S (option LockStatus) :=
  current <-! mgets (status uid) ;;
  match current with
  | None => mret None
  | Some st => release_entry uid st ;;! mret (Some st)
  end.

Definition dead_uids (is_alive : HolderRef -> bool) (t : lock_table) : list string :=
  map fst (List.filter (fun us => negb (is_alive (ls_holder us.2))) t).

Definition sweep (is_alive : HolderRef -> bool) : M S (list string) :=
  dead <-! mgets (fun s => dead_uids is_alive (lh_locks s)) ;;
  mfor dead (fun uid =>
    st <-! mgets (status uid) ;;
    match st with Some st => release_entry uid st | None => mraise (KeyError uid) end) ;;!
  mret dead.
End LockManager.

(** ** Lemmas on the table *)

Section LockFacts.
Context {S : Type} `{LockHost S}.

Definition locks_ok (s : S) : Prop := dunique (lh_locks s).

Lemma call_flash_keeps uid s : lh_locks (mstate (call_flash uid) s) = lh_locks s.
Proof.
  unfold call_flash. destruct lh_flash_cb as [cb|] eqn:E; [|reflexivity].
  exact (lh_flash_keeps cb uid s E).
Qed.

Lemma call_display_keeps c s : lh_locks (mstate (call_display c) s) = lh_locks s.
Proof.
  unfold call_display. destruct lh_display_cb as [cb|] eqn:E; [|reflexivity].
  exact (lh_display_keeps cb c s E).
Qed.

(** The table after a sequence, given what each part does to it. *)
Lemma bind_keeps {A B} (m : M S A) (k : A -> M S B) s t :
  lh_locks (mstate m s) = t -> (forall a s', lh_locks s' = t -> lh_locks (mstate (k a) s') = t) ->
  lh_locks (mstate (mbind m k) s) = t.
Proof.
  unfold mstate, mbind. intros Hm Hk. destruct (m s) as [[a|e] s'] eqn:E; [|exact Hm].
  apply Hk. exact Hm.
Qed.

Lemma release_entry_table uid st s :
  lh_locks (mstate (release_entry uid st) s) = ddel uid (lh_locks s).
Proof.
  unfold release_entry. apply bind_keeps; [apply lh_locks_set|]. intros [] s1 H1.
  apply bind_keeps.
  - destruct (String.eqb (ls_kind st) KIND_FLASH); [rewrite call_flash_keeps|]; exact H1.
  - intros [] s2 H2. rewrite call_display_keeps. exact H2.
Qed.

Lemma acquire_table uid kind holder label now s :
  lh_locks (mstate (acquire uid kind holder label now) s) =
  match status uid s with
  | Some _ => lh_locks s
  | None => dset uid (mkLockStatus kind holder label now) (lh_locks s)
  end.
Proof.
  unfold acquire. unfold mstate at 1, mbind at 1, mgets at 1.
  destruct (status uid s) as [st|]; [reflexivity|]. fold (@mstate S bool).
  change (?m s).2 with (mstate m s). apply bind_keeps; [apply lh_locks_set|]. intros [] s1 H1.
  apply bind_keeps; [rewrite call_display_keeps; exact H1|]. intros [] s2 H2. exact H2.
Qed.

Lemma release_table uid holder s :
  lh_locks (mstate (release uid holder) s) =
  match status uid s with
  | Some st => if bool_decide (ls_holder st = holder) then ddel uid (lh_locks s) else lh_locks s
  | None => lh_locks s
  end.
Proof.
  unfold release. unfold mstate at 1, mbind at 1, mgets at 1.
  destruct (status uid s) as [st|]; [|reflexivity].
  destruct (bool_decide (ls_holder st = holder)); [|reflexivity].
  change (?m s).2 with (mstate m s). apply bind_keeps; [apply release_entry_table|]. auto.
Qed.

Lemma force_release_table uid s :
  lh_locks (mstate (force_release uid) s) =
  match status uid s with Some _ => ddel uid (lh_locks s) | None => lh_locks s end.
Proof.
  unfold force_release. unfold mstate at 1, mbind at 1, mgets at 1.
  destruct (status uid s) as [st|]; [|reflexivity].
  change (?m s).2 with (mstate m s). apply bind_keeps; [apply release_entry_table|]. auto.
Qed.
End LockFacts.

(** ** The operations and their specification *)

Inductive lock_op :=
| LAcquire (uid kind : string) (holder : HolderRef) (label : option string)
| LRelease (uid : string) (holder : HolderRef)
| LForce (uid : string)
| LSweep (is_alive : HolderRef -> bool).

Definition lock_exec {S} `{LockHost S} (o : lock_op) (now : Z) : M S unit :=
  match o with
  | LAcquire uid kind holder label => acquire uid kind holder label now ;;! mret tt
  | LRelease uid holder => release uid holder ;;! mret tt
  | LForce uid => force_release uid ;;! mret tt
  | LSweep is_alive => sweep is_alive ;;! mret tt
  end.

(** One exclusive entry per uid. *)
Definition spec_lock (o : lock_op) (now : Z) (m : gmap string LockStatus) : gmap string LockStatus :=
  match o with
  | LAcquire uid kind holder label =>
      match m !! uid with Some _ => m | None => <[uid := mkLockStatus kind holder label now]> m end
  | LRelease uid holder =>
      match m !! uid with
      | Some st => if bool_decide (ls_holder st = holder) then delete uid m else m
      | None => m
      end
  | LForce uid => delete uid m
  | LSweep is_alive => filter (fun us => is_alive (ls_holder us.2) = true) m
  end.

Definition spec_lock_result (o : lock_op) (m : gmap string LockStatus) : result unit :=
  match o with
  | LAcquire uid _ _ _ => match m !! uid with Some _ => Err (LockHeldError uid) | None => Ok tt end
  | _ => Ok tt
  end.

Section LockRefinement.
Context {S : Type} `{LockHost S}.

(** The callbacks do not raise. *)
Context (flash_total : forall cb uid s, lh_flash_cb = Some cb -> mresult (cb uid) s = Ok tt).
Context (display_total : forall cb c s, lh_display_cb = Some cb -> mresult (cb c) s = Ok tt).

Definition lock_map (s : S) : gmap string LockStatus := as_map (lh_locks s).

Lemma call_flash_ok uid s : mresult (call_flash uid) s = Ok tt.
Proof. unfold call_flash. destruct lh_flash_cb eqn:E; [apply flash_total; reflexivity|reflexivity]. Qed.

Lemma call_display_ok c s : mresult (call_display c) s = Ok tt.
Proof. unfold call_display. destruct lh_display_cb eqn:E; [apply display_total; reflexivity|reflexivity]. Qed.

Lemma release_entry_ok uid st s : mresult (release_entry uid st) s = Ok tt.
Proof.
  unfold mresult, release_entry. rewrite (bind_result _ _ _ tt) by reflexivity.
  rewrite (bind_result _ _ _ tt)
    by (destruct (String.eqb (ls_kind st) KIND_FLASH); [apply call_flash_ok|reflexivity]).
  apply call_display_ok.
Qed.

Lemma lock_map_release uid st s :
  lock_map (mstate (release_entry uid st) s) = delete uid (lock_map s).
Proof. unfold lock_map. rewrite release_entry_table. apply as_map_ddel. Qed.

(** The sweep loop over distinct held uids. *)
Lemma sweep_loop dead s : NoDup dead -> (forall u, In u dead -> status u s <> None) ->
  let m := mfor dead (fun uid =>
    st <-! mgets (status uid) ;;
    match st with Some st => release_entry uid st | None => mraise (KeyError uid) end) in
  mresult m s = Ok tt /\
  (locks_ok s -> locks_ok (mstate m s)) /\
  forall u, status u (mstate m s) = if bool_decide (u ∈ dead) then None else status u s.
Proof.
  revert s. induction dead as [|d dead IH]; intros s Hnd Hheld m.
  - split; [reflexivity|]. split; [exact id|]. reflexivity.
  - apply NoDup_cons in Hnd as [Hn Hnd].
    destruct (status d s) as [st|] eqn:Hst; [|destruct (Hheld d (or_introl eq_refl) Hst)].
    set (s1 := mstate (release_entry d st) s).
    assert (E : m s = mfor dead (fun uid => st <-! mgets (status uid) ;;
        match st with Some st => release_entry uid st | None => mraise (KeyError uid) end)%py s1).
    { unfold m. cbn [mfor]. assert (Hb : (st <-! mgets (status d) ;;
        match st with Some st => release_entry d st | None => mraise (KeyError d) end)%py s =
        release_entry d st s) by (unfold mbind, mgets; rewrite Hst; reflexivity).
      unfold mbind at 1. rewrite Hb. pose proof (release_entry_ok d st s) as R. unfold mresult in R.
      unfold s1, mstate. destruct (release_entry d st s) as [r s']. cbn in R. rewrite R. reflexivity. }
    assert (Hs1 : forall u, status u s1 = if bool_decide (d = u) then None else status u s).
    { intros u. unfold status, s1. rewrite release_entry_table.
      destruct (bool_decide_reflect (d = u)) as [<-|Hd]; [apply dget_ddel_eq|apply dget_ddel_ne, Hd]. }
    destruct (IH s1 Hnd) as (R & K & G).
    { intros u Hu. rewrite Hs1. rewrite bool_decide_false; [apply Hheld; right; exact Hu|].
      intros ->. apply Hn, list_elem_of_In, Hu. }
    pose proof (f_equal fst E) as E1. pose proof (f_equal snd E) as E2.
    change (m s).1 with (mresult m s) in E1. change (m s).2 with (mstate m s) in E2.
    rewrite E1, E2. split; [exact R|]. split.
    + intros Hk. apply K. unfold locks_ok, s1. rewrite release_entry_table. apply dunique_ddel, Hk.
    + intros u. rewrite G, Hs1. destruct (decide (d = u)) as [<-|Hd].
      * rewrite (bool_decide_true (d = d)), (bool_decide_true (d ∈ d :: dead)) by (reflexivity || constructor).
        destruct (bool_decide (d ∈ dead)); reflexivity.
      * rewrite (bool_decide_false (d = u)) by exact Hd.
        replace (bool_decide (u ∈ d :: dead)) with (bool_decide (u ∈ dead)); [reflexivity|].
        apply bool_decide_ext. rewrite elem_of_cons. intuition congruence.
Qed.

Lemma dead_held is_alive s u : locks_ok s -> In u (dead_uids is_alive (lh_locks s)) <->
  exists st, status u s = Some st /\ is_alive (ls_holder st) = false.
Proof.
  intros Hs. unfold dead_uids. rewrite in_map_iff. split.
  - intros ((k & st) & <- & Hf). apply filter_In in Hf as [Hi Hd]. cbn in *.
    exists st. split; [apply in_dget; assumption|]. apply negb_true_iff, Hd.
  - intros (st & Hst & Hd). exists (u, st). split; [reflexivity|]. apply filter_In.
    split; [exact (dget_in _ _ _ Hst)|]. cbn. rewrite Hd. reflexivity.
Qed.

Lemma sweep_run is_alive s : locks_ok s ->
  mresult (sweep is_alive) s = Ok (dead_uids is_alive (lh_locks s)) /\
  locks_ok (mstate (sweep is_alive) s) /\
  forall u, status u (mstate (sweep is_alive) s) =
    match status u s with
    | Some st => if is_alive (ls_holder st) then Some st else None
    | None => None
    end.
Proof.
  intros Hs. set (dead := dead_uids is_alive (lh_locks s)).
  destruct (sweep_loop dead s) as (R & K & G).
  - unfold dead, dead_uids. apply (unique_filter fst). exact Hs.
  - intros u Hu. apply (dead_held is_alive s u Hs) in Hu as (st & -> & _). discriminate.
  - assert (E : sweep is_alive s = (Ok dead, mstate (mfor dead (fun uid =>
        st <-! mgets (status uid) ;;
        match st with Some st => release_entry uid st | None => mraise (KeyError uid) end)%py) s)).
    { unfold sweep. rewrite (bind_result _ _ _ dead) by reflexivity.
      change (mstate (mgets _) s) with s. rewrite (bind_result _ _ _ tt) by exact R. reflexivity. }
    unfold mresult. replace (mstate (sweep is_alive) s) with (snd (sweep is_alive s)) by reflexivity.
    rewrite E. split; [reflexivity|]. cbn [snd].
    split; [exact (K Hs)|]. intros u. rewrite G.
    destruct (bool_decide_reflect (u ∈ dead)) as [Hi|Hi].
    + apply list_elem_of_In, (dead_held is_alive s u Hs) in Hi as (st & -> & ->). reflexivity.
    + destruct (status u s) as [st|] eqn:Hst; [|reflexivity].
      destruct (is_alive (ls_holder st)) eqn:Ha; [reflexivity|].
      exfalso. apply Hi, list_elem_of_In, (dead_held is_alive s u Hs). eauto.
Qed.

(** Every operation refines the abstract exclusive table. *)
Lemma lock_exec_refines o now s : locks_ok s ->
  lock_map (mstate (lock_exec o now) s) = spec_lock o now (lock_map s) /\
  mresult (lock_exec o now) s = spec_lock_result o (lock_map s) /\
  locks_ok (mstate (lock_exec o now) s).
Proof.
  intros Hs. unfold lock_map, spec_lock, spec_lock_result, locks_ok.
  destruct o as [uid kind holder label|uid holder|uid|is_alive]; cbn [lock_exec].
  - rewrite bind_ret_state, bind_ret_result, acquire_table, as_map_lookup. fold (status uid s).
    
    destruct (status uid s) as [st|] eqn:Hst.
    + split; [reflexivity|]. split; [|exact Hs].
      unfold mresult, acquire, mbind, mgets. rewrite Hst. reflexivity.
    + split; [apply as_map_dset|]. split; [|apply dunique_dset, Hs].
      unfold mresult, acquire. rewrite (bind_result _ _ _ None) by (unfold mresult, mgets; cbn; rewrite Hst; reflexivity).
      rewrite (bind_result _ _ _ tt) by reflexivity. rewrite (bind_result _ _ _ tt) by apply call_display_ok.
      reflexivity.
  - rewrite bind_ret_state, bind_ret_result, release_table, as_map_lookup. fold (status uid s).
    
    unfold release, mresult. rewrite (bind_result _ _ _ (status uid s)) by reflexivity.
    change (mstate (mgets (status uid)) s) with s.
    destruct (status uid s) as [st|]; [|auto]. destruct (bool_decide (ls_holder st = holder)); [|auto].
    split; [apply as_map_ddel|]. split; [|apply dunique_ddel, Hs].
    rewrite (bind_result _ _ _ tt) by apply release_entry_ok. reflexivity.
  - rewrite bind_ret_state, bind_ret_result, force_release_table. fold (status uid s).
    
    unfold force_release, mresult. rewrite (bind_result _ _ _ (status uid s)) by reflexivity.
    change (mstate (mgets (status uid)) s) with s.
    destruct (status uid s) as [st|] eqn:Hst.
    + split; [apply as_map_ddel|]. split; [|apply dunique_ddel, Hs].
      rewrite (bind_result _ _ _ tt) by apply release_entry_ok. reflexivity.
    + split; [|split; [reflexivity|exact Hs]]. symmetry. apply delete_id.
      rewrite as_map_lookup. exact Hst.
  - rewrite bind_ret_state, bind_ret_result.     destruct (sweep_run is_alive s Hs) as (R & K & G). rewrite R.
    split; [|split; [reflexivity|exact K]]. apply map_eq. intros u.
    rewrite as_map_lookup. fold (status u (mstate (sweep is_alive) s)). rewrite G.
    rewrite map_lookup_filter, as_map_lookup. fold (status u s).
    destruct (status u s) as [st|]; [|reflexivity]. cbn.
    destruct (is_alive (ls_holder st)); case_guard; cbn in *; congruence.
Qed.
End LockRefinement.

(** ** A host that records the callback calls *)

Inductive lock_call := CFlash (uid : string) | CDisplay (c : display_call).

Record lock_log := mkLockLog { ll_locks : lock_table; ll_calls : list lock_call }.

#[export] Program Instance log_host : LockHost lock_log := {
  lh_locks := ll_locks;
  lh_set_locks t s := mkLockLog t (ll_calls s);
  lh_flash_cb := Some (fun uid => mmodify (fun s => mkLockLog (ll_locks s) (ll_calls s ++ [CFlash uid])));
  lh_display_cb := Some (fun c => mmodify (fun s => mkLockLog (ll_locks s) (ll_calls s ++ [CDisplay c]))) }.
Solve All Obligations with (intros; simplify_eq; reflexivity).

Lemma log_flash_total (cb : string -> M lock_log unit) uid s :
  lh_flash_cb = Some cb -> mresult (cb uid) s = Ok tt.
Proof. intros [= <-]. reflexivity. Qed.
Lemma log_display_total (cb : display_call -> M lock_log unit) c s :
  lh_display_cb = Some cb -> mresult (cb c) s = Ok tt.
Proof. intros [= <-]. reflexivity. Qed.

(** The calls of one release: the flash callback for a flash lock only,
    then the display callback. *)
Definition release_calls (uid : string) (st : LockStatus) : list lock_call :=
  (if String.eqb (ls_kind st) KIND_FLASH then [CFlash uid] else []) ++
  [CDisplay (mkDisplay uid None None None None)].

Definition expected_calls (o : lock_op) (now : Z) (t : lock_table) : list lock_call :=
  match o with
  | LAcquire uid kind holder label =>
      match dget uid t with
      | Some _ => []
      | None => [CDisplay (mkDisplay uid (Some kind) (Some (describe_holder holder)) label (Some now))]
      end
  | LRelease uid holder =>
      match dget uid t with
      | Some st => if bool_decide (ls_holder st = holder) then release_calls uid st else []
      | None => []
      end
  | LForce uid => match dget uid t with Some st => release_calls uid st | None => [] end
  | LSweep is_alive =>
      concat (map (fun us => release_calls us.1 us.2)
        (List.filter (fun us => negb (is_alive (ls_holder us.2))) t))
  end.

Lemma release_entry_log uid st s : release_entry uid st s =
  (Ok tt, mkLockLog (ddel uid (ll_locks s)) (ll_calls s ++ release_calls uid st)).
Proof.
  unfold release_entry, release_calls, mbind, mmodify, call_flash, call_display. cbn.
  destruct (String.eqb (ls_kind st) KIND_FLASH); unfold mmodify; cbn [ll_locks ll_calls]; rewrite <- ?app_assoc; reflexivity.
Qed.

Lemma sweep_loop_log (dead : list (string * LockStatus)) s : dunique dead ->
  (forall u st, In (u, st) dead -> status u s = Some st) ->
  ll_calls (mstate (mfor (map fst dead) (fun uid =>
    st <-! mgets (status uid) ;;
    match st with Some st => release_entry uid st | None => mraise (KeyError uid) end)%py) s) =
  ll_calls s ++ concat (map (fun us => release_calls us.1 us.2) dead).
Proof.
  revert s. induction dead as [|[d st] dead IH]; intros s Hu Hh; [symmetry; apply app_nil_r|].
  unfold dunique, unique in Hu. cbn [map] in Hu. apply NoDup_cons in Hu as [Hn Hu].
  cbn [map mfor concat fst snd]. unfold mstate, mbind at 1 2, mgets at 1.
  rewrite (Hh d st) by (left; reflexivity). rewrite release_entry_log.
  match goal with |- ll_calls (snd (?m ?x)) = _ => change (snd (m x)) with (mstate m x) end.
  rewrite IH; [cbn [ll_calls]; rewrite <- app_assoc; reflexivity|exact Hu|].
  intros u st' Hi. unfold status. cbn [lh_locks log_host ll_locks]. rewrite dget_ddel_ne.
  - apply (Hh u st'). right. exact Hi.
  - intros <-. apply Hn, list_elem_of_In, in_map_iff. exists (d, st'). auto.
Qed.

(** ** Properties *)

(** C13: the lock manager implements an exclusive table from uids to
    holders, whatever state it is embedded in, as long as the callbacks
    return: an acquire takes a free uid and raises [LockHeldError] on a
    held one, changing nothing; a release by anyone but the exact holder
    changes nothing; a forced release always frees; a sweep frees exactly
    the uids whose holder is dead. *)
Theorem lock_manager_refines {S} `{LockHost S} o now s :
  (forall (cb : string -> M S unit) uid s, lh_flash_cb = Some cb -> mresult (cb uid) s = Ok tt) ->
  (forall (cb : display_call -> M S unit) c s, lh_display_cb = Some cb -> mresult (cb c) s = Ok tt) ->
  locks_ok s ->
  lock_map (mstate (lock_exec o now) s) = spec_lock o now (lock_map s) /\
  mresult (lock_exec o now) s = spec_lock_result o (lock_map s) /\
  locks_ok (mstate (lock_exec o now) s).
Proof. intros Hf Hd. exact (lock_exec_refines Hf Hd o now s). Qed.

Definition example_log : lock_log :=
  mkLockLog [("u1", mkLockStatus KIND_FLASH (mkHolder "local" "42" (Some 42) None) None 5);
             ("u2", mkLockStatus KIND_SERIAL (mkHolder "remote" "s1" None (Some "loki")) (Some "lab") 6)] [].

Lemma example_log_ok : locks_ok example_log.
Proof. unfold locks_ok, dunique, unique. apply (bool_decide_unpack _). vm_compute. exact I. Defined.

Lemma lock_manager_refines_witness :
  let o := LSweep (fun h => String.eqb (h_origin h) "remote") in
  lock_map (mstate (lock_exec o 9) example_log) = spec_lock o 9 (lock_map example_log) /\
  mresult (lock_exec o 9) example_log = Ok tt.
Proof.
  intros o. destruct (lock_manager_refines o 9 example_log log_flash_total log_display_total example_log_ok)
    as (A & B & _).
  split; [exact A|exact B].
Defined.

(** An operation that may end the lock [st] on [uid]. *)
Definition may_release (uid : string) (st : LockStatus) (o : lock_op) : Prop :=
  match o with
  | LAcquire _ _ _ _ => False
  | LRelease u h => u = uid /\ h = ls_holder st
  | LForce u => u = uid
  | LSweep is_alive => is_alive (ls_holder st) = false
  end.

Fixpoint lock_exec_all {S} `{LockHost S} (l : list (lock_op * Z)) (s : S) : S :=
  match l with
  | [] => s
  | (o, now) :: l' => lock_exec_all l' (mstate (lock_exec o now) s)
  end.

(** One step keeps a lock it may not release. *)
Lemma lock_step_keeps {S} `{LockHost S} o now s uid st :
  (forall (cb : string -> M S unit) uid s, lh_flash_cb = Some cb -> mresult (cb uid) s = Ok tt) ->
  (forall (cb : display_call -> M S unit) c s, lh_display_cb = Some cb -> mresult (cb c) s = Ok tt) ->
  locks_ok s -> status uid s = Some st -> ~ may_release uid st o ->
  status uid (mstate (lock_exec o now) s) = Some st.
Proof.
  intros Hf Hd Hs Hst Hno. destruct (lock_exec_refines Hf Hd o now s Hs) as (E & _ & _).
  unfold status in *. rewrite <- (as_map_lookup uid (lh_locks s)) in Hst. rewrite <- as_map_lookup.
  change (lock_map (mstate (lock_exec o now) s) !! uid = Some st). rewrite E.
  change (lock_map s !! uid = Some st) in Hst.
  destruct o as [u kind holder label|u holder|u|is_alive]; cbn [spec_lock may_release] in *.
  - destruct (lock_map s !! u) eqn:Hu; [exact Hst|]. rewrite lookup_insert_ne; congruence.
  - destruct (lock_map s !! u) as [st'|] eqn:Hu; [|exact Hst].
    destruct (bool_decide_reflect (ls_holder st' = holder)) as [Eh|]; [|exact Hst].
    rewrite lookup_delete_ne; [exact Hst|]. intros ->. apply Hno. split; congruence.
  - rewrite lookup_delete_ne by exact Hno. exact Hst.
  - rewrite map_lookup_filter, Hst. cbn. rewrite option_guard_True; [reflexivity|].
    cbn. apply not_false_is_true. exact Hno.
Qed.

(** a lock is exclusive for as long as it is held: over any sequence
    of operations, none of them a release by its exact holder, a forced
    release of its uid or a sweep that finds its holder dead, the uid stays
    locked by the same holder, and every acquire of it, by anyone, raises
    [LockHeldError] and changes nothing. *)
Theorem lock_exclusive {S} `{LockHost S} l s uid st :
  (forall (cb : string -> M S unit) uid s, lh_flash_cb = Some cb -> mresult (cb uid) s = Ok tt) ->
  (forall (cb : display_call -> M S unit) c s, lh_display_cb = Some cb -> mresult (cb c) s = Ok tt) ->
  locks_ok s -> status uid s = Some st -> Forall (fun on => ~ may_release uid st on.1) l ->
  status uid (lock_exec_all l s) = Some st /\
  forall kind holder label now,
    acquire uid kind holder label now (lock_exec_all l s) = (Err (LockHeldError uid), lock_exec_all l s).
Proof.
  intros Hf Hd Hs Hst HF.
  assert (E : status uid (lock_exec_all l s) = Some st).
  { revert s Hs Hst HF. induction l as [|[o now] l IH]; intros s Hs Hst HF; [exact Hst|].
    apply Forall_cons in HF as [Ho HF]. cbn [lock_exec_all]. apply IH; [| |exact HF].
    - apply (lock_exec_refines Hf Hd o now s Hs).
    - apply lock_step_keeps; assumption. }
  split; [exact E|]. intros kind holder label now. unfold acquire, mbind, mgets. rewrite E. reflexivity.
Qed.

Lemma lock_exclusive_witness :
  let l := [(LAcquire "u2" KIND_DEBUG (mkHolder "local" "7" (Some 7) None) None, 7);
            (LRelease "u2" (mkHolder "local" "7" (Some 7) None), 8); (LForce "u1", 9)] in
  status "u2" (lock_exec_all l example_log) =
    Some (mkLockStatus KIND_SERIAL (mkHolder "remote" "s1" None (Some "loki")) (Some "lab") 6).
Proof.
  intros l. apply (lock_exclusive l example_log "u2"
    (mkLockStatus KIND_SERIAL (mkHolder "remote" "s1" None (Some "loki")) (Some "lab") 6)).
  - exact log_flash_total.
  - exact log_display_total.
  - exact example_log_ok.
  - reflexivity.
  - constructor; [intros []|]. constructor; [intros [_ E]; discriminate E|].
    constructor; [intros E; discriminate E|]. constructor.
Defined.

(** the callbacks fire exactly as the table changes: a granted acquire
    calls the display callback once, a refused one and a no-op release call
    nothing; each actual release, by its holder, forced or swept, calls the
    flash callback once for a flash lock and never for another kind, then
    the display callback once. *)
Theorem callbacks_exact o now s : locks_ok s ->
  ll_calls (mstate (lock_exec o now) s) = ll_calls s ++ expected_calls o now (ll_locks s).
Proof.
  intros Hs. destruct o as [uid kind holder label|uid holder|uid|is_alive]; cbn [lock_exec expected_calls];
    rewrite bind_ret_state.
  - unfold mstate, acquire, mbind, mgets, status. cbn.
    destruct (dget uid (ll_locks s)); cbn; rewrite ?app_nil_r; reflexivity.
  - unfold mstate, release, mbind, mgets, status. cbn [lh_locks log_host].
    destruct (dget uid (ll_locks s)) as [st|]; [|cbn; rewrite app_nil_r; reflexivity].
    destruct (bool_decide (ls_holder st = holder)); [|cbn; rewrite app_nil_r; reflexivity].
    rewrite release_entry_log. reflexivity.
  - unfold mstate, force_release, mbind, mgets, status. cbn [lh_locks log_host].
    destruct (dget uid (ll_locks s)) as [st|]; [|cbn; rewrite app_nil_r; reflexivity].
    rewrite release_entry_log. reflexivity.
  - unfold sweep. unfold mstate. rewrite (bind_result _ _ _ (dead_uids is_alive (ll_locks s))) by reflexivity.
    change (mstate (mgets _) s) with s.
    match goal with |- ll_calls (snd (?m s)) = _ => change (snd (m s)) with (mstate m s) end.
    rewrite bind_ret_state.
    apply sweep_loop_log; [apply (unique_filter fst), Hs|].
    intros u st Hi. apply filter_In in Hi as [Hi _]. apply in_dget; assumption.
Qed.

Lemma callbacks_exact_witness :
  ll_calls (mstate (lock_exec (LForce "u1") 9) example_log) =
    [CFlash "u1"; CDisplay (mkDisplay "u1" None None None None)].
Proof. exact (callbacks_exact (LForce "u1") 9 example_log example_log_ok). Defined.
