(* ===== verification/Claims.v ===== *)
(** * [registry/usbwatch.py] and [registry/claims.py]

    The USB snapshot filtered to micro:bit interfaces, and the host-wide
    claim of a uid: a [flock] on one file per uid, held by an open file
    description, modelled as the table from uid to the descriptor that
    holds its lock. *)

From S2P Require Import Prelude Tables Identity.
Local Open Scope py_scope.

(** ** [PollingPortWatcher.scan] *)

Record PortInfo := mkPortInfo { pi_uid : string; pi_port : string; pi_vid : Z; pi_pid : Z }.

#[export] Instance PortInfo_eq_dec : EqDecision PortInfo.
Proof. solve_decision. Defined.

(** One entry of [comports()]: the attributes read by [getattr]. *)
Record comport := mkComport {
  cp_vid : option Z; cp_pid : option Z; cp_serial_number : option string; cp_device : string }.

Definition scan_entry (out : list (string * PortInfo)) (port : comport) : list (string * PortInfo) :=
  match cp_vid port, cp_pid port with
  | Some vid, Some pid =>
      if negb (bool_decide ((vid, pid) = DAPLINK_VID_PID)) then out
      else match cp_serial_number port with
           | None => out
           | Some uid =>
               match dget uid out with
               | Some _ => out
               | None => dset uid (mkPortInfo uid (cp_device port) vid pid) out
               end
           end
  | _, _ => out
  end.

Definition scan (comports : list comport) : list (string * PortInfo) :=
  fold_left scan_entry comports [].

(** ** Claims *)

(** Which descriptor holds the [flock] of each uid's file. *)
Definition flocks : Type := list (string * Z).

Record ClaimHandle := mkClaimHandle { ch_uid : string; ch_fd : option Z }.

#[export] Instance ClaimHandle_eq_dec : EqDecision ClaimHandle.
Proof. solve_decision. Defined.

(** [fd] is the descriptor [os.open] returns; [windows] is [sys.platform]. *)
Definition try_claim (windows : bool) (uid : string) (fd : Z) : M flocks (option ClaimHandle) :=
  if windows then mret (Some (mkClaimHandle uid None))
  else
    held <-! mgets (dget uid) ;;
    match held with
    | Some _ => mret None
    | None => mmodify (dset uid fd) ;;! mret (Some (mkClaimHandle uid (Some fd)))
    end.

(** Closing a descriptor drops the lock it holds. *)
Definition close_fd (fd : Z) (t : flocks) : flocks :=
  List.filter (fun uf => negb (uf.2 =? fd)) t.

Definition handle_release (h : ClaimHandle) : M flocks ClaimHandle :=
  match ch_fd h with
  | Some fd => mmodify (close_fd fd) ;;! mret (mkClaimHandle (ch_uid h) None)
  | None => mret h
  end.

Definition claim_release (h : option ClaimHandle) : M flocks (option ClaimHandle) :=
  match h with
  | Some h => h' <-! handle_release h ;; mret (Some h')
  | None => mret None
  end.

Definition is_claimable (uid : string) (only_uids exclude_uids : option (list string)) : bool :=
  if match exclude_uids with Some l => bool_decide (uid ∈ l) | None => false end then false
  else match only_uids with
       | Some (x :: l) => bool_decide (uid ∈ x :: l)
       | _ => true
       end.

Definition claim_fn (windows : bool) (only_uids exclude_uids : option (list string))
    (uid : string) (fd : Z) : M flocks (option ClaimHandle) :=
  if negb (is_claimable uid only_uids exclude_uids) then mret None
  else try_claim windows uid fd.

(** ** Lemmas *)

Lemma scan_unique comports : dunique (scan comports).
Proof.
  unfold scan. assert (G : forall out, dunique out -> dunique (fold_left scan_entry comports out)).
  { induction comports as [|p ps IH]; intros out H; [exact H|]. cbn [fold_left]. apply IH.
    unfold scan_entry. destruct (cp_vid p), (cp_pid p); try exact H.
    destruct (negb _); [exact H|]. destruct (cp_serial_number p); [|exact H].
    destruct (dget s out); [exact H|apply dunique_dset, H]. }
  apply G, dunique_nil.
Qed.

Lemma close_fd_get fd t u : dunique t -> dget u (close_fd fd t) =
  match dget u t with Some f => if f =? fd then None else Some f | None => None end.
Proof.
  intros Hu. unfold close_fd. rewrite dget_filter by exact Hu. cbn [snd].
  destruct (dget u t) as [f|]; [|reflexivity]. destruct (f =? fd); reflexivity.
Qed.

(** ** Properties *)

(** On Unix a uid is claimed by at most one descriptor: a granted
    claim denies every other one, by whatever process, until the handle is
    released or its process's descriptor is closed; a release frees exactly
    that claim, and releasing the released handle again changes nothing;
    a filtered uid never reaches the lock table. *)
Theorem claim_exclusive t uid fd only exclude : dunique t ->
  let '(res, t') := claim_fn false only exclude uid fd t in
  if is_claimable uid only exclude then
    match dget uid t with
    | Some _ => res = Ok None /\ t' = t
    | None =>
        let h := mkClaimHandle uid (Some fd) in
        res = Ok (Some h) /\
        (forall fd', try_claim false uid fd' t' = (Ok None, t')) /\
        (forall u, u <> uid -> dget u t' = dget u t) /\
        exists t'', handle_release h t' = (Ok (mkClaimHandle uid None), t'') /\ dget uid t'' = None /\
          (forall u, dget u t <> Some fd -> u <> uid -> dget u t'' = dget u t) /\
          handle_release (mkClaimHandle uid None) t'' = (Ok (mkClaimHandle uid None), t'')
    end
  else res = Ok None /\ t' = t.
Proof.
  intros Hu. unfold claim_fn. destruct (is_claimable uid only exclude); cbn [negb]; [|split; reflexivity].
  unfold try_claim, mbind, mgets. destruct (dget uid t) as [f|] eqn:Hg; [split; reflexivity|].
  unfold mmodify, mret. split; [reflexivity|]. split; [|split].
  - intros fd'. rewrite dget_dset_eq. reflexivity.
  - intros u Hne. apply dget_dset_ne. congruence.
  - eexists. split; [reflexivity|]. pose proof (dunique_dset uid fd t Hu) as Hu'.
    split; [rewrite close_fd_get, dget_dset_eq, Z.eqb_refl by exact Hu'; reflexivity|].
    split; [|reflexivity]. intros u Hf Hne. rewrite close_fd_get, dget_dset_ne by (exact Hu' || congruence).
    destruct (dget u t) as [f|]; [|reflexivity]. destruct (Z.eqb_spec f fd) as [->|]; [congruence|reflexivity].
Qed.

Lemma claim_exclusive_witness :
  claim_fn false (Some ["u1"]) None "u1" 8 [("u1", 7)] = (Ok None, [("u1", 7)]).
Proof.
  assert (Hu : dunique [("u1", 7)]) by (unfold dunique, unique; apply (bool_decide_unpack _); vm_compute; exact I).
  pose proof (claim_exclusive [("u1", 7)] "u1" 8 (Some ["u1"]) None Hu) as H.
  destruct (claim_fn false (Some ["u1"]) None "u1" 8 [("u1", 7)]) as [res t'].
  cbn in H. destruct H as [-> ->]. reflexivity.
Defined.
