(* ===== verification/Daemon.v ===== *)
(** * [registry/daemon.py]: the scan, diff and probe pipeline

    One cycle as the code runs it: the attach, detach and flash-timeout
    passes in one block under the shared lock, then the events, then a
    probe of each board this instance owns, in up to three separate blocks
    with the port and the debug probe opened between them.  What runs
    between the blocks on other threads is [other_threads], an arbitrary
    computation on the same state.  Clocks, claims, ports and debug
    sessions are oracles indexed by a tick the state counts, so no two
    readings need agree; [set_order] is the order Python iterates a set in. *)

From S2P Require Import Prelude Tables Identity Virtual Store Locks Claims.
Local Open Scope py_scope.

Record dstate := mkDstate {
  dm_db : db;
  dm_locks : lock_table;
  dm_claims : list (string * ClaimHandle);
  dm_flash_pending : list (string * Z);
  dm_tick : nat;
  (* what has been done to the outside *)
  dm_released : list ClaimHandle;
  dm_events : list (string * DeviceRecord);
  dm_displays : list display_call;
  dm_ports : list (string * list port_op);
  dm_swd : list string }.

Definition with_db (v : db) (s : dstate) : dstate :=
  mkDstate v (dm_locks s) (dm_claims s) (dm_flash_pending s) (dm_tick s) (dm_released s)
    (dm_events s) (dm_displays s) (dm_ports s) (dm_swd s).
Definition with_locks (v : lock_table) (s : dstate) : dstate :=
  mkDstate (dm_db s) v (dm_claims s) (dm_flash_pending s) (dm_tick s) (dm_released s)
    (dm_events s) (dm_displays s) (dm_ports s) (dm_swd s).
Definition with_claims (v : list (string * ClaimHandle)) (s : dstate) : dstate :=
  mkDstate (dm_db s) (dm_locks s) v (dm_flash_pending s) (dm_tick s) (dm_released s)
    (dm_events s) (dm_displays s) (dm_ports s) (dm_swd s).
Definition with_flash_pending (v : list (string * Z)) (s : dstate) : dstate :=
  mkDstate (dm_db s) (dm_locks s) (dm_claims s) v (dm_tick s) (dm_released s)
    (dm_events s) (dm_displays s) (dm_ports s) (dm_swd s).
Definition tick (s : dstate) : dstate :=
  mkDstate (dm_db s) (dm_locks s) (dm_claims s) (dm_flash_pending s) (S (dm_tick s))
    (dm_released s) (dm_events s) (dm_displays s) (dm_ports s) (dm_swd s).
Definition log_released (h : ClaimHandle) (s : dstate) : dstate :=
  mkDstate (dm_db s) (dm_locks s) (dm_claims s) (dm_flash_pending s) (dm_tick s)
    (dm_released s ++ [h]) (dm_events s) (dm_displays s) (dm_ports s) (dm_swd s).
Definition log_event (e : string * DeviceRecord) (s : dstate) : dstate :=
  mkDstate (dm_db s) (dm_locks s) (dm_claims s) (dm_flash_pending s) (dm_tick s)
    (dm_released s) (dm_events s ++ [e]) (dm_displays s) (dm_ports s) (dm_swd s).
Definition log_display (c : display_call) (s : dstate) : dstate :=
  mkDstate (dm_db s) (dm_locks s) (dm_claims s) (dm_flash_pending s) (dm_tick s)
    (dm_released s) (dm_events s) (dm_displays s ++ [c]) (dm_ports s) (dm_swd s).
Definition log_port (p : string * list port_op) (s : dstate) : dstate :=
  mkDstate (dm_db s) (dm_locks s) (dm_claims s) (dm_flash_pending s) (dm_tick s)
    (dm_released s) (dm_events s) (dm_displays s) (dm_ports s ++ [p]) (dm_swd s).
Definition log_swd (uid : string) (s : dstate) : dstate :=
  mkDstate (dm_db s) (dm_locks s) (dm_claims s) (dm_flash_pending s) (dm_tick s)
    (dm_released s) (dm_events s) (dm_displays s) (dm_ports s) (dm_swd s ++ [uid]).

(** A store method on the daemon's store. *)
Definition in_store {A} (m : M db A) : M dstate A :=
  fun s => let (r, d) := m (dm_db s) in (r, with_db d s).

Definition initial (d : db) : dstate := mkDstate d [] [] [] 0 [] [] [] [] [].

(** The environment of a daemon. *)
Record daemon_env := mkDaemonEnv {
  e_wall : nat -> Z;                                  (* the store's clock *)
  e_mono : nat -> Z;                                  (* the daemon's clock *)
  e_claim : nat -> string -> option ClaimHandle;
  e_port : nat -> string -> port_script;
  e_swd : nat -> string -> option string -> option Z;
  e_set_order : list string -> list string;
  e_other_threads : M dstate unit;
  e_flash_reprobe_timeout_s : Z }.

Section Daemon.
Variable E : daemon_env.
Notation wall := (e_wall E).
Notation mono := (e_mono E).
Notation claim_oracle := (e_claim E).
Notation port_oracle := (e_port E).
Notation swd_oracle := (e_swd E).
Notation set_order := (e_set_order E).
Notation other_threads := (e_other_threads E).
Notation flash_reprobe_timeout_s := (e_flash_reprobe_timeout_s E).

(** One oracle reading. *)
Definition read {A} (oracle : nat -> A) : M dstate A :=
  fun s => (Ok (oracle (dm_tick s)), tick s).

(** [_on_flash_release]. *)
Definition on_flash_release (uid : string) : M dstate unit :=
  if is_virtual_uid uid then mret tt
  else
    now <-! read mono ;;
    mmodify (fun s => with_flash_pending
      (dset uid (now + flash_reprobe_timeout_s) (dm_flash_pending s)) s).

(** The daemon's own lock manager, wired to [_on_flash_release]. *)
#[export] Program Instance daemon_host : LockHost dstate := {
  lh_locks := dm_locks;
  lh_set_locks := with_locks;
  lh_flash_cb := Some on_flash_release;
  lh_display_cb := Some (fun c => mmodify (log_display c)) }.
Next Obligation. reflexivity. Qed.
Next Obligation.
  intros cb uid s [= <-]. unfold on_flash_release. destruct (is_virtual_uid uid); reflexivity.
Qed.
Next Obligation. intros cb c s [= <-]. reflexivity. Qed.

(** [_fire_events]. *)
Definition fire_events (event_type : string) (records : list DeviceRecord) : M dstate unit :=
  mfor records (fun r => mmodify (log_event (event_type, r))).

(** The four parts of [_maybe_probe]. First, under the lock: is the uid
    eligible, and unlocked? *)
Definition may_probe (uid : string) : M dstate bool :=
  s <-! mget ;;
  needs <-! mlift (needs_probe uid (dm_db s)) ;;
  let eligible := needs || bool_decide (dget uid (dm_flash_pending s) <> None) in
  mret (negb (negb eligible || bool_decide (status uid s <> None))).

(** Then the port, with [reset_first] and the settle delay. *)
Definition probe_port (uid : string) (info : PortInfo) : M dstate (option ProbeResult) :=
  script <-! read (fun t => port_oracle t (pi_port info)) ;;
  mmodify (log_port (uid, snd (probe script true true))) ;;!
  mret (fst (probe script true true)).

(** Then, when nothing usable came back and no identity is cached, SWD. *)
Definition swd_fallback (uid : string) (result : option ProbeResult)
    : M dstate (option (string * Z)) :=
  if match result with None => true | Some r => String.eqb (pr_device_name r) "" end then
    s <-! mget ;;
    let needs_swd := match get uid (dm_db s) with
                     | Some e => bool_decide (dr_chip_identity_name e = None)
                     | None => false
                     end in
    if needs_swd then
      other_threads ;;!
      mmodify (log_swd uid) ;;!
      session <-! read (fun t => swd_oracle t uid) ;;
      mret (read_chip_identity session DEFAULT_TARGET_MCU)
    else mret None
  else mret None.

(** Last, under the lock again, the outcome, then its event. *)
Definition record_outcome (uid : string) (result : option ProbeResult)
    (chip_identity : option (string * Z)) : M dstate unit :=
  now <-! read wall ;;
  s <-! mget ;;
  record <-! (if bool_decide (result = None) && bool_decide (dget uid (dm_flash_pending s) <> None)
              then in_store (apply_known_blank uid now)
              else in_store (apply_probe_result uid result now)) ;;
  mmodify (fun s => with_flash_pending (ddel uid (dm_flash_pending s)) s) ;;!
  record <-! match chip_identity with
             | Some (name, serial) => in_store (set_chip_identity uid name serial)
             | None => mret record
             end ;;
  fire_events "identity" [record].

Definition probe_and_record (uid : string) (info : PortInfo) : M dstate unit :=
  other_threads ;;!
  result <-! probe_port uid info ;;
  other_threads ;;!
  chip_identity <-! swd_fallback uid result ;;
  other_threads ;;!
  record_outcome uid result chip_identity.

Definition maybe_probe (uid : string) (info : PortInfo) : M dstate unit :=
  ok <-! may_probe uid ;;
  if negb ok then mret tt else probe_and_record uid info.

(** Rows the diff is against: this host's own attached hardware. *)
Definition locally_attached (r : DeviceRecord) : bool :=
  bool_decide (dr_host r = None) && negb (is_disconnected r) && negb (is_virtual r).

Definition previously_attached (d : db) : list string :=
  map dr_uid (List.filter locally_attached (list_devices d)).

(** The attach pass: the newly seen uids whose claim is granted. *)
Fixpoint attach_pass (prev : list string) (current : list (string * PortInfo))
    (owned : list string) (attached : list DeviceRecord)
    : M dstate (list string * list DeviceRecord) :=
  match current with
  | [] => mret (owned, attached)
  | (uid, info) :: rest =>
      if bool_decide (uid ∈ prev) then attach_pass prev rest owned attached
      else
        handle <-! read (fun t => claim_oracle t uid) ;;
        match handle with
        | None => attach_pass prev rest owned attached
        | Some h =>
            mmodify (fun s => with_claims (dset uid h (dm_claims s)) s) ;;!
            now <-! read wall ;;
            record <-! in_store (upsert_attached uid (pi_port info)
                                   (format_vid_pid (pi_vid info) (pi_pid info)) now) ;;
            attach_pass prev rest (owned ++ [uid]) (attached ++ [record])
        end
  end.

(** The body of the detach pass: the lock goes, the claim goes, the row is
    marked. *)
Definition release_lock (uid : string) : M dstate unit :=
  st <-! mgets (status uid) ;;
  match st with
  | Some st => release uid (ls_holder st) ;;! mret tt
  | None => mret tt
  end.

Definition drop_claim (uid : string) : M dstate unit :=
  claim <-! mgets (fun s => dget uid (dm_claims s)) ;;
  mmodify (fun s => with_claims (ddel uid (dm_claims s)) s) ;;!
  match claim with Some h => mmodify (log_released h) | None => mret tt end.

Definition detach_one (uid : string) : M dstate DeviceRecord :=
  release_lock uid ;;!
  drop_claim uid ;;!
  now <-! read wall ;;
  in_store (mark_disconnected uid now).

(** The detach pass. *)
Fixpoint detach_pass (missing : list string) (detached : list DeviceRecord)
    : M dstate (list DeviceRecord) :=
  match missing with
  | [] => mret detached
  | uid :: rest =>
      record <-! detach_one uid ;;
      detach_pass rest (detached ++ [record])
  end.

(** The flash-timeout pass over a copy of the pending table. *)
Fixpoint timeout_pass (current : list (string * PortInfo)) (now : Z)
    (pending : list (string * Z)) (timed_out : list DeviceRecord)
    : M dstate (list DeviceRecord) :=
  match pending with
  | [] => mret timed_out
  | (uid, deadline) :: rest =>
      if bool_decide (dget uid current = None) && (deadline <=? now) then
        wnow <-! read wall ;;
        record <-! in_store (apply_known_blank uid wnow) ;;
        mmodify (fun s => with_flash_pending (ddel uid (dm_flash_pending s)) s) ;;!
        timeout_pass current now rest (timed_out ++ [record])
      else timeout_pass current now rest timed_out
  end.

(** The block under the shared lock. *)
Definition locked_pass (current : list (string * PortInfo)) (now : Z)
    : M dstate (list string * list DeviceRecord * list DeviceRecord * list DeviceRecord) :=
  prev <-! mgets (fun s => previously_attached (dm_db s)) ;;
  let present := List.filter (fun u => bool_decide (dget u current <> None)) prev in
  let missing := List.filter (fun u => bool_decide (dget u current = None)) prev in
  oa <-! attach_pass prev current present [] ;;
  let (owned, attached) := (oa : list string * list DeviceRecord) in
  detached <-! detach_pass (set_order missing) [] ;;
  pending <-! mgets dm_flash_pending ;;
  timed_out <-! timeout_pass current now pending [] ;;
  mret (owned, attached, detached, timed_out).

Fixpoint probe_pass (current : list (string * PortInfo)) (owned : list string) : M dstate unit :=
  match owned with
  | [] => mret tt
  | uid :: rest =>
      match dget uid current with
      | Some info => maybe_probe uid info
      | None => mraise (KeyError uid)
      end ;;!
      probe_pass current rest
  end.

Definition run_once (current : list (string * PortInfo)) : M dstate unit :=
  now <-! read mono ;;
  p <-! locked_pass current now ;;
  let '(owned, attached, detached, timed_out) := p in
  other_threads ;;!
  fire_events "attach" attached ;;!
  fire_events "detach" detached ;;!
  fire_events "identity" timed_out ;;!
  probe_pass current (set_order owned).

(** [run]: cycles until [stop()]; [scans] are the snapshots of the cycles,
    each with the two [stop()] answers around it. *)
Fixpoint run (scans : list (bool * list (string * PortInfo) * bool)) : M dstate unit :=
  match scans with
  | [] => mret tt
  | (stop1, current, stop2) :: rest =>
      if stop1 then mret tt
      else run_once current ;;! (if stop2 then mret tt else run rest)
  end.
End Daemon.
