(* ===== verification/DaemonFacts.v ===== *)
(** * Properties of the daemon's cycle

    What a cycle may probe, claim and release, whatever the other threads do
    while its lock is not held. *)

From S2P Require Import Prelude Tables Identity Virtual Store StoreFacts Locks Claims Daemon.
Local Open Scope py_scope.

Section DaemonFacts.
Context (E : daemon_env).
#[local] Existing Instance daemon_host.
#[local] Instance host : LockHost dstate := daemon_host E.

(** ** The attach pass *)

(** What a pass leaves alone. *)
Definition same_outside (s s' : dstate) : Prop :=
  dm_locks s' = dm_locks s /\ dm_flash_pending s' = dm_flash_pending s /\
  dm_released s' = dm_released s /\ dm_events s' = dm_events s /\
  dm_displays s' = dm_displays s /\ dm_ports s' = dm_ports s /\ dm_swd s' = dm_swd s.

Lemma same_outside_refl s : same_outside s s.
Proof. repeat split. Qed.

Lemma same_outside_trans s1 s2 s3 : same_outside s1 s2 -> same_outside s2 s3 -> same_outside s1 s3.
Proof. unfold same_outside. intuition congruence. Qed.

(** One local upsert: always accepted, and attached at the port. *)
Lemma upsert_attached_effect uid port vp now d : keys_ok d -> exists r d',
  upsert_attached uid port vp now d = (Ok r, d') /\ keys_ok d' /\
  dr_uid r = uid /\ get uid d' = Some r /\ dr_host r = None /\ dr_port r = Some port /\
  dr_state r <> STATE_DISCONNECTED /\ forall k, k <> uid -> get k d' = get k d.
Proof.
  intros Hd. destruct (upsert_device_row uid None (Some port) (Some vp) now d Hd) as (Hr & Hk & Hg & Hother & _).
  unfold mresult, mstate in *. unfold upsert_attached.
  destruct (upsert_device uid None (Some port) (Some vp) now d) as [res d']. cbn [fst snd] in *. subst res.
  eexists _, _. split; [reflexivity|]. split; [exact Hk|]. split; [exact (get_uid _ _ _ Hg)|].
  split; [exact Hg|]. unfold upserted. destruct (get uid d) as [e|].
  - change (rejects_claim None e) with false. cbv iota. unfold row_upserted, is_disconnected.
    destruct (bool_decide_reflect (dr_state e = STATE_DISCONNECTED)); repeat split; (discriminate || assumption).
  - repeat split; (discriminate || assumption).
Qed.

(** A granted uid: upserted here, its claim kept. *)
Definition granted (current : list (string * PortInfo)) (s' : dstate) (r : DeviceRecord) : Prop :=
  exists info h, dget (dr_uid r) current = Some info /\ dget (dr_uid r) (dm_claims s') = Some h /\
    get (dr_uid r) (dm_db s') = Some r /\ dr_host r = None /\ dr_port r = Some (pi_port info) /\
    dr_state r <> STATE_DISCONNECTED.

Lemma attach_pass_effect prev current owned attached s :
  keys_ok (dm_db s) -> dunique current -> exists recs s',
  attach_pass E prev current owned attached s =
    (Ok (owned ++ map dr_uid recs, attached ++ recs), s') /\
  keys_ok (dm_db s') /\ same_outside s s' /\ (dunique (dm_claims s) -> dunique (dm_claims s')) /\
  Forall (fun r => ~ dr_uid r ∈ prev /\ granted current s' r) recs /\
  (forall u, ~ In u (map dr_uid recs) ->
     get u (dm_db s') = get u (dm_db s) /\ dget u (dm_claims s') = dget u (dm_claims s)).
Proof.
  revert owned attached s. induction current as [|[uid info] rest IH]; intros owned attached s Hd Hu.
  - exists [], s. rewrite !app_nil_r. cbn. auto 10 using same_outside_refl.
  - assert (Hrest : dunique rest /\ dget uid rest = None).
    { unfold dunique, unique in Hu. cbn [map] in Hu. apply NoDup_cons in Hu as [Hn Hu].
      split; [exact Hu|]. apply dget_none. rewrite <- list_elem_of_In. exact Hn. }
    destruct Hrest as [Hur Hno].
    assert (Hlift : forall s' r, granted rest s' r -> granted ((uid, info) :: rest) s' r).
    { intros s' r (i & h & H1 & H2). exists i, h. split; [|exact H2]. unfold dget. rewrite tfind_cons.
      cbn [fst]. rewrite bool_decide_false; [exact H1|]. intros ->. congruence. }
    cbn [attach_pass]. destruct (bool_decide_reflect (uid ∈ prev)) as [Hp|Hp].
    { destruct (IH owned attached s Hd Hur) as (recs & s' & E1 & Hk & Hs & Hc & HF & Hn).
      exists recs, s'. split; [exact E1|]. split; [exact Hk|]. split; [exact Hs|]. split; [exact Hc|].
      split; [|exact Hn]. eapply Forall_impl; [exact HF|]. cbn. intros r [? ?]. auto. }
    unfold mbind at 1, read. destruct (e_claim E (dm_tick s) uid) as [h|].
    2: { destruct (IH owned attached (tick s) Hd Hur) as (recs & s' & E1 & Hk & Hs & Hc & HF & Hn).
         exists recs, s'. split; [exact E1|]. split; [exact Hk|]. split; [exact Hs|]. split; [exact Hc|].
         split; [|exact Hn]. eapply Forall_impl; [exact HF|]. cbn. intros r [? ?]. auto. }
    destruct (upsert_attached_effect uid (pi_port info) (format_vid_pid (pi_vid info) (pi_pid info))
      (e_wall E (dm_tick (tick s))) (dm_db s) Hd) as (r & d' & Eu & Hk1 & Hru & Hg1 & Hh1 & Hp1 & Hs1 & Ho1).
    set (s1 := with_db d' (tick (with_claims (dset uid h (dm_claims s)) (tick s)))).
    destruct (IH (owned ++ [uid]) (attached ++ [r]) s1 Hk1 Hur) as (recs & s' & E1 & Hk & Hs & Hc & HF & Hn).
    exists (r :: recs), s'. split.
    { unfold mbind, mmodify, in_store. cbn [dm_db with_claims tick dm_claims dm_tick] in *.
      rewrite Eu. fold s1. rewrite E1, <- !app_assoc. cbn [map app]. rewrite Hru. reflexivity. }
    split; [exact Hk|]. split; [eapply same_outside_trans; [|exact Hs]; repeat split|].
    split; [intros H; apply Hc; apply dunique_dset, H|].
    assert (Hin : forall r', In r' recs -> dr_uid r' <> uid).
    { intros r' Hr' Ee. rewrite Forall_forall in HF. apply list_elem_of_In in Hr'.
      destruct (HF r' Hr') as [_ (i & ? & Hi & _)]. rewrite Ee in Hi. congruence. }
    assert (Hnu : ~ In uid (map dr_uid recs)).
    { rewrite in_map_iff. intros (r' & Ee & Hr'). exact (Hin r' Hr' Ee). }
    split.
    + constructor.
      * rewrite Hru. split; [exact Hp|]. exists info, h. rewrite Hru.
        destruct (Hn uid Hnu) as [Hn1 Hn2]. rewrite Hn1, Hn2. unfold s1. cbn [dm_db with_db dm_claims tick with_claims].
        split; [unfold dget; rewrite tfind_cons; cbn [fst]; rewrite bool_decide_true; reflexivity|].
        split; [apply dget_dset_eq|]. auto.
      * eapply Forall_impl; [exact HF|]. cbn. intros r' [? ?]. auto.
    + intros u Hu'. cbn [map In] in Hu'. destruct (Hn u) as [Hn1 Hn2]; [tauto|].
      rewrite Hn1, Hn2. unfold s1. cbn [dm_db with_db dm_claims tick with_claims].
      split; [apply Ho1; intros ->; apply Hu'; auto|apply dget_dset_ne; intros ->; apply Hu'; auto].
Qed.

(** ** The detach pass *)

Lemma release_daemon u st s : status u s = Some st -> exists s1,
  release u (ls_holder st) s = (Ok true, s1) /\ dm_locks s1 = ddel u (dm_locks s) /\
  dm_db s1 = dm_db s /\ dm_claims s1 = dm_claims s /\ dm_released s1 = dm_released s /\
  dm_events s1 = dm_events s /\ dm_ports s1 = dm_ports s /\ dm_swd s1 = dm_swd s /\
  (forall k, k <> u -> dget k (dm_flash_pending s1) = dget k (dm_flash_pending s)).
Proof.
  intros Hst. unfold release, mbind at 1, mgets. rewrite Hst, bool_decide_true by reflexivity.
  unfold release_entry, mbind, mmodify, call_flash, call_display. cbn.
  unfold mret. destruct (String.eqb (ls_kind st) KIND_FLASH); cbn.
  - unfold on_flash_release, mbind, mret, read, mmodify. destruct (is_virtual_uid u); cbn.
    + eexists. split; [reflexivity|]. repeat split; auto.
    + eexists. split; [reflexivity|]. do 7 (split; [reflexivity|]).
      intros k Hk. cbn. apply dget_dset_ne. congruence.
  - eexists. split; [reflexivity|]. repeat split; auto.
Qed.

Lemma mark_disconnected_effect u now d r : keys_ok d -> get u d = Some r -> exists r' d',
  mark_disconnected u now d = (Ok r', d') /\ keys_ok d' /\ dr_uid r' = u /\
  dr_state r' = STATE_DISCONNECTED /\ dr_host r' = dr_host r /\ announcement r' = announcement r /\
  get u d' = Some r' /\ forall k, k <> u -> get k d' = get k d.
Proof.
  intros Hd Hg. unfold mark_disconnected. rewrite update_existing_run by (intros x; reflexivity).
  rewrite Hg. eexists _, _. split; [reflexivity|].
  split; [apply (keys_tupd d u (fun r => set_last_seen now (set_state STATE_DISCONNECTED r)));
          [intros x; reflexivity|exact Hd]|].
  split; [exact (get_uid _ _ _ Hg)|]. do 3 (split; [reflexivity|]). split.
  - rewrite (get_tupd u u (fun r => set_last_seen now (set_state STATE_DISCONNECTED r)))
      by (intros x; reflexivity). rewrite bool_decide_true, Hg by reflexivity. reflexivity.
  - intros k Hk. rewrite (get_tupd k u (fun r => set_last_seen now (set_state STATE_DISCONNECTED r)))
      by (intros x; reflexivity). rewrite bool_decide_false by congruence. reflexivity.
Qed.

(** A uid after its detach. *)
Definition detached_now (s' : dstate) (u : string) : Prop :=
  status u s' = None /\ dget u (dm_claims s') = None /\
  exists r, get u (dm_db s') = Some r /\ dr_state r = STATE_DISCONNECTED.

(** The part of the state a pass keeps for one uid. *)
Definition same_for (u : string) (s s' : dstate) : Prop :=
  get u (dm_db s') = get u (dm_db s) /\ status u s' = status u s /\
  dget u (dm_claims s') = dget u (dm_claims s) /\
  dget u (dm_flash_pending s') = dget u (dm_flash_pending s).

Lemma same_for_trans u s1 s2 s3 : same_for u s1 s2 -> same_for u s2 s3 -> same_for u s1 s3.
Proof. unfold same_for. intuition congruence. Qed.

Lemma release_lock_daemon u s : exists s0,
  release_lock E u s = (Ok tt, s0) /\ dm_locks s0 = ddel u (dm_locks s) /\
  dm_db s0 = dm_db s /\ dm_claims s0 = dm_claims s /\ dm_released s0 = dm_released s /\
  dm_events s0 = dm_events s /\ dm_ports s0 = dm_ports s /\ dm_swd s0 = dm_swd s /\
  (forall k, k <> u -> dget k (dm_flash_pending s0) = dget k (dm_flash_pending s)).
Proof.
  unfold release_lock, mbind at 1, mgets.
  destruct (@status dstate (daemon_host E) u s) as [st|] eqn:Hst.
  - destruct (release_daemon u st s Hst) as (s1 & E1 & H). exists s1. unfold mbind.
    change (@release dstate (daemon_host E)) with (@release dstate host). rewrite E1. auto.
  - exists s. split; [reflexivity|]. split; [|auto 10].
    symmetry. apply tdel_absent. unfold status, dget in Hst. cbn [lh_locks daemon_host] in Hst.
    destruct (tfind fst u (dm_locks s)); [discriminate|reflexivity].
Qed.

Lemma drop_claim_daemon u s : exists s0,
  drop_claim u s = (Ok tt, s0) /\ dm_claims s0 = ddel u (dm_claims s) /\
  dm_released s0 = dm_released s ++ match dget u (dm_claims s) with Some h => [h] | None => [] end /\
  dm_db s0 = dm_db s /\ dm_locks s0 = dm_locks s /\ dm_flash_pending s0 = dm_flash_pending s /\
  dm_events s0 = dm_events s /\ dm_ports s0 = dm_ports s /\ dm_swd s0 = dm_swd s.
Proof.
  unfold drop_claim, mbind, mgets, mmodify, mret. destruct (dget u (dm_claims s)) as [h|];
    eexists; (split; [reflexivity|]); cbn; rewrite ?app_nil_r; auto 10.
Qed.

(** One step of the detach loop. *)
Lemma detach_one_effect u s : keys_ok (dm_db s) -> get u (dm_db s) <> None -> exists r s1,
  detach_one E u s = (Ok r, s1) /\
  keys_ok (dm_db s1) /\ dr_uid r = u /\ detached_now s1 u /\ get u (dm_db s1) = Some r /\
  (forall k, k <> u -> same_for k s s1) /\
  dm_released s1 = dm_released s ++ match dget u (dm_claims s) with Some h => [h] | None => [] end /\
  dm_events s1 = dm_events s /\ dm_ports s1 = dm_ports s /\ dm_swd s1 = dm_swd s.
Proof.
  intros Hd Hg. destruct (get u (dm_db s)) as [r0|] eqn:Hr0; [clear Hg|congruence].
  destruct (release_lock_daemon u s) as (s0 & E0 & L0 & D0 & C0 & R0 & V0 & P0 & W0 & F0).
  destruct (drop_claim_daemon u s0) as (s1 & E1 & C1 & R1 & D1 & L1 & F1 & V1 & P1 & W1).
  assert (Ed : dm_db s1 = dm_db s) by congruence.
  rewrite <- Ed in Hd, Hr0.
  destruct (mark_disconnected_effect u (e_wall E (dm_tick s1)) (dm_db s1) r0 Hd Hr0)
    as (r & d & E2 & K2 & U2 & S2 & _ & _ & G2 & O2).
  exists r, (with_db d (tick s1)). unfold detach_one.
  rewrite (bind_result _ _ _ tt) by (unfold mresult; rewrite E0; reflexivity).
  unfold mstate. rewrite E0. cbn [snd].
  rewrite (bind_result _ _ _ tt) by (unfold mresult; rewrite E1; reflexivity).
  unfold mstate. rewrite E1. cbn [snd]. unfold mbind, read, in_store. cbn [dm_db tick].
  rewrite E2. split; [reflexivity|]. split; [exact K2|]. split; [exact U2|].
  assert (Hst : forall k, status k (with_db d (tick s1)) = dget k (ddel u (dm_locks s)))
    by (intros k; unfold status; cbn; rewrite L1, L0; reflexivity).
  split; [|split; [exact G2|split]].
  - split; [rewrite Hst; apply dget_ddel_eq|]. split; [cbn; rewrite C1; apply dget_ddel_eq|].
    exists r. auto.
  - intros k Hk. split; [cbn; rewrite O2, Ed by exact Hk; reflexivity|].
    split; [rewrite Hst; apply dget_ddel_ne; congruence|].
    split; [cbn; rewrite C1, C0; apply dget_ddel_ne; congruence|].
    cbn. rewrite F1. apply F0, Hk.
  - cbn. rewrite R1, R0, C0, V1, V0, P1, P0, W1, W0. auto.
Qed.

Lemma detach_pass_effect missing detached s :
  keys_ok (dm_db s) -> NoDup missing -> (forall u, In u missing -> get u (dm_db s) <> None) ->
  exists recs s', detach_pass E missing detached s = (Ok (detached ++ recs), s') /\
    keys_ok (dm_db s') /\ map dr_uid recs = missing /\
    Forall (detached_now s') missing /\ (forall k, ~ In k missing -> same_for k s s') /\
    dm_released s' = dm_released s ++
      omap (fun u => dget u (dm_claims s)) missing /\
    dm_events s' = dm_events s /\ dm_ports s' = dm_ports s /\ dm_swd s' = dm_swd s.
Proof.
  revert detached s. induction missing as [|u rest IH]; intros detached s Hd Hnd Hrow.
  - exists [], s. rewrite !app_nil_r. split; [reflexivity|]. split; [exact Hd|].
    do 2 (split; [constructor|]). split; [intros k _; repeat split|auto].
  - apply NoDup_cons in Hnd as [Hn Hnd].
    destruct (detach_one_effect u s Hd (Hrow u (or_introl eq_refl)))
      as (r & s1 & E1 & K1 & U1 & N1 & _ & O1 & R1 & V1 & P1 & W1).
    assert (Hne : forall k, In k rest -> k <> u) by (intros k Hk ->; apply Hn, list_elem_of_In, Hk).
    destruct (IH (detached ++ [r]) s1 K1 Hnd) as (recs & s' & E2 & K2 & M2 & F2 & O2 & R2 & V2 & P2 & W2).
    { intros k Hk. destruct (O1 k (Hne k Hk)) as [-> _]. apply Hrow. right. exact Hk. }
    exists (r :: recs), s'. cbn [detach_pass].
    rewrite (bind_result _ _ _ r) by (unfold mresult; rewrite E1; reflexivity).
    unfold mstate. rewrite E1. cbn [snd]. rewrite E2, <- app_assoc. split; [reflexivity|].
    split; [exact K2|]. split; [cbn [map]; congruence|]. split; [|split; [|split]].
    + constructor; [|exact F2].
      destruct (O2 u) as (G1 & G2 & G3 & _); [rewrite <- list_elem_of_In; exact Hn|].
      destruct N1 as (A & B & C). unfold detached_now. rewrite G1, G2, G3. auto.
    + intros k Hk. cbn [In] in Hk. apply same_for_trans with s1; [apply O1|apply O2]; intuition.
    + rewrite R2, R1, <- app_assoc. f_equal. cbn [omap list_omap].
      assert (Eo : forall l, (forall k, In k l -> k <> u) ->
        omap (fun k => dget k (dm_claims s1)) l = omap (fun k => dget k (dm_claims s)) l).
      { intros l Hl. induction l as [|k l IHl]; [reflexivity|]. cbn [omap list_omap].
        destruct (O1 k (Hl k (or_introl eq_refl))) as (_ & _ & -> & _).
        rewrite IHl by (intros k' Hk'; apply Hl; right; exact Hk'). reflexivity. }
      rewrite (Eo rest Hne). destruct (dget u (dm_claims s)); reflexivity.
    + rewrite V2, V1, P2, P1, W2, W1. auto.
Qed.

Lemma nodup_filter {A} (P : A -> bool) (l : list A) : NoDup l -> NoDup (List.filter P l).
Proof.
  induction l as [|x l IH]; [exact id|]. rewrite NoDup_cons. intros [Hn Hu]. cbn.
  destruct (P x); [|exact (IH Hu)]. apply NoDup_cons. split; [|exact (IH Hu)].
  rewrite list_elem_of_In in *. rewrite filter_In. tauto.
Qed.

(** ** The timeout pass *)

Lemma timeout_pass_none current now pending out s :
  (forall u dl, In (u, dl) pending -> dget u current <> None \/ now < dl) ->
  timeout_pass E current now pending out s = (Ok out, s).
Proof.
  induction pending as [|[u dl] pending IH]; intros H; [reflexivity|]. cbn [timeout_pass].
  destruct (bool_decide_reflect (dget u current = None)) as [Hc|Hc]; cbn [andb].
  - destruct (Z.leb_spec dl now) as [Hl|Hl].
    + destruct (H u dl (or_introl eq_refl)) as [Hx|Hx]; [congruence|lia].
    + apply IH. intros u' dl' Hi. apply H. right. exact Hi.
  - apply IH. intros u' dl' Hi. apply H. right. exact Hi.
Qed.

Lemma previously_attached_in d u : keys_ok d -> In u (previously_attached d) <->
  exists r, get u d = Some r /\ locally_attached r = true.
Proof.
  intros Hd. unfold previously_attached. rewrite in_map_iff. split.
  - intros (r & <- & Hf). apply filter_In in Hf as [Hi Hl]. exists r. split; [|exact Hl].
    apply tfind_unique; [apply Hd|exact Hi].
  - intros (r & Hg & Hl). exists r. split; [exact (get_uid _ _ _ Hg)|]. apply filter_In.
    split; [exact (tfind_in _ _ _ _ Hg)|exact Hl].
Qed.

Lemma previously_attached_nodup d : keys_ok d -> NoDup (previously_attached d).
Proof. intros Hd. apply (unique_filter dr_uid). apply Hd. Qed.

(** ** The probe *)

Definition not_opened (s s' : dstate) : Prop := dm_ports s' = dm_ports s.

(** Extending the log of opened ports by at most one entry. *)
Lemma bind_ports {A B} (m : M dstate A) (k : A -> M dstate B) s l :
  dm_ports (mstate m s) = l -> (forall a s', dm_ports s' = l -> dm_ports (mstate (k a) s') = l) ->
  dm_ports (mstate (mbind m k) s) = l.
Proof.
  unfold mstate, mbind. intros Hm Hk. destruct (m s) as [[a|e] s'] eqn:Em; [|exact Hm].
  apply Hk. exact Hm.
Qed.

Lemma in_store_ports {A} (m : M db A) s : dm_ports (mstate (in_store m) s) = dm_ports s.
Proof. unfold mstate, in_store. destruct (m (dm_db s)). reflexivity. Qed.

Lemma fire_events_ports t l s : dm_ports (mstate (fire_events t l) s) = dm_ports s.
Proof.
  unfold fire_events. revert s. induction l as [|r l IH]; intros s; [reflexivity|].
  cbn [mfor]. apply bind_ports; [reflexivity|]. intros [] s' <-. apply IH.
Qed.

(** One entry of the log of opened ports: the port of [info], whose script
    is read at tick [t], was opened; if the open succeeded, the board was
    reset first, the port closed last, and [HELLO] said at most twice. *)
Definition opened_once (uid : string) (info : PortInfo) (t : nat) (s s' : dstate) : Prop :=
  let scr := e_port E t (pi_port info) in
  exists tr, dm_ports s' = dm_ports s ++ [(uid, tr)] /\ tr = snd (probe scr true true) /\
    (hellos tr <= 2)%nat /\
    if open_ok scr then (exists u, tr = [POpen; PProtect; PBreak] ++ u) /\ last tr = Some PClose
    else tr = [POpen].

Lemma probe_trace_safe scr : let tr := snd (probe scr true true) in
  (hellos tr <= 2)%nat /\
  if open_ok scr then (exists u, tr = [POpen; PProtect; PBreak] ++ u) /\ last tr = Some PClose
  else tr = [POpen].
Proof.
  cbv zeta. destruct (open_ok scr) eqn:Ho.
  - destruct (probe_trace scr true true Ho) as (u & -> & Hu). split.
    + rewrite !hellos_app. change (hellos [PClose]) with O. change (hellos [POpen; PProtect]) with O.
      change (hellos [PBreak]) with O. lia.
    + split; [exists (u ++ [PClose]); reflexivity|]. rewrite !app_assoc. apply last_snoc.
  - unfold probe. rewrite Ho. split; [vm_compute; lia|reflexivity].
Qed.

Definition eligible (uid : string) (s : dstate) : bool :=
  match get uid (dm_db s) with
  | Some r => (dr_last_probe r =? 0) || bool_decide (dget uid (dm_flash_pending s) <> None)
  | None => false
  end.

Lemma may_probe_run uid s :
  may_probe E uid s =
  match get uid (dm_db s) with
  | None => (Err (KeyError uid), s)
  | Some _ => (Ok (eligible uid s && bool_decide (status uid s = None)), s)
  end.
Proof.
  unfold may_probe. rewrite (bind_result _ _ _ s) by reflexivity.
  unfold mbind, mlift, needs_probe, eligible, mstate, mget, mret. cbn [snd].
  destruct (get uid (dm_db s)) as [row|]; [|reflexivity].
  change (@status dstate (daemon_host E)) with (@status dstate host).
  rewrite negb_orb, negb_involutive. do 3 f_equal.
  destruct (status uid s); reflexivity.
Qed.

(** ** The whole locked block *)

(** The clock's readings only move on, and a pending entry is an old one or
    was set by a flash release at one of them. *)
Definition pending_from (s s' : dstate) : Prop :=
  (dm_tick s <= dm_tick s')%nat /\ forall u dl, In (u, dl) (dm_flash_pending s') ->
  In (u, dl) (dm_flash_pending s) \/
  exists t, (dm_tick s <= t)%nat /\ dl = e_mono E t + e_flash_reprobe_timeout_s E.

Lemma pending_same s s' : (dm_tick s <= dm_tick s')%nat -> dm_flash_pending s' = dm_flash_pending s -> pending_from s s'.
Proof. intros Ht E0. split; [exact Ht|]. rewrite E0. auto. Qed.

Lemma pending_trans s1 s2 s3 : pending_from s1 s2 -> pending_from s2 s3 -> pending_from s1 s3.
Proof.
  intros [T1 H1] [T2 H2]. split; [lia|]. intros u dl H. destruct (H2 u dl H) as [H'|(t & Ht & ->)]; [exact (H1 u dl H')|].
  right. exists t. split; [lia|reflexivity].
Qed.

Lemma release_pending u h s : pending_from s (mstate (release u h) s).
Proof.
  unfold release, mstate, mbind at 1, mgets. destruct (status u s) as [st|]; [|apply pending_same; reflexivity].
  destruct (bool_decide (ls_holder st = h)); [|apply pending_same; reflexivity].
  unfold release_entry, mbind, mmodify, call_flash, call_display. cbn. unfold mret.
  destruct (String.eqb (ls_kind st) KIND_FLASH); cbn; [|apply pending_same; reflexivity].
  unfold on_flash_release, mbind, mret, read, mmodify.
  destruct (is_virtual_uid u); cbn; [apply pending_same; reflexivity|].
  split; [cbn; lia|]. intros u' dl H. cbn in H. apply in_dset in H as [[= -> ->]|H]; eauto.
Qed.

Lemma detach_one_pending u s : pending_from s (mstate (detach_one E u) s).
Proof.
  assert (Hr : pending_from s (mstate (release_lock E u) s)).
  { unfold release_lock, mstate, mbind at 1, mgets.
    destruct (@status dstate (daemon_host E) u s) as [st|]; [|apply pending_same; reflexivity].
    change (_ ?x).2 with (mstate (release u (ls_holder st) ;;! mret tt)%py x).
    rewrite bind_ret_state. apply release_pending. }
  unfold detach_one, mstate, mbind at 1. unfold mstate in Hr.
  destruct (release_lock E u s) as [[[]|e] s0]; cbn [snd] in *; [|exact Hr].
  apply (pending_trans _ _ _ Hr).
  unfold drop_claim, mbind, mgets, mmodify, mret, read, in_store.
  destruct (dget u (dm_claims s0)) as [h|]; cbn -[mark_disconnected];
    match goal with |- context [mark_disconnected u ?a ?b] => destruct (mark_disconnected u a b) end;
    apply pending_same; cbn; (lia || reflexivity).
Qed.

Lemma detach_pass_pending missing out s : pending_from s (mstate (detach_pass E missing out) s).
Proof.
  revert out s. induction missing as [|u rest IH]; intros out s; [apply pending_same; reflexivity|].
  cbn [detach_pass]. unfold mstate, mbind. pose proof (detach_one_pending u s) as H1. unfold mstate in H1.
  destruct (detach_one E u s) as [[r|e] s1]; cbn [snd] in *; [|exact H1].
  exact (pending_trans _ _ _ H1 (IH (out ++ [r]) s1)).
Qed.

Definition present (current : list (string * PortInfo)) (s : dstate) : list string :=
  List.filter (fun u => bool_decide (dget u current <> None)) (previously_attached (dm_db s)).
Definition missing (current : list (string * PortInfo)) (s : dstate) : list string :=
  List.filter (fun u => bool_decide (dget u current = None)) (previously_attached (dm_db s)).

Lemma missing_spec current s u : keys_ok (dm_db s) -> In u (missing current s) <->
  dget u current = None /\ exists r, get u (dm_db s) = Some r /\ locally_attached r = true.
Proof.
  intros Hd. unfold missing. rewrite filter_In, bool_decide_eq_true, previously_attached_in by exact Hd.
  tauto.
Qed.

Lemma same_outside_for s s' u : same_outside s s' ->
  get u (dm_db s') = get u (dm_db s) -> dget u (dm_claims s') = dget u (dm_claims s) -> same_for u s s'.
Proof.
  intros (H1 & H2 & _) Hg Hc. unfold same_for, status. cbn [lh_locks host daemon_host].
  rewrite H1, H2. auto.
Qed.

Context (set_order_perm : forall l, e_set_order E l ≡ₚ l).

Lemma locked_pass_effect current now s :
  keys_ok (dm_db s) -> dunique current ->
  (forall u dl, In (u, dl) (dm_flash_pending s) -> dget u current <> None \/ now < dl) ->
  (forall t, now < e_mono E t + e_flash_reprobe_timeout_s E) ->
  exists attached detached s',
    locked_pass E current now s =
      (Ok (present current s ++ map dr_uid attached, attached, detached, []), s') /\
    keys_ok (dm_db s') /\
    Forall (fun r => ~ dr_uid r ∈ previously_attached (dm_db s) /\ granted current s' r) attached /\
    map dr_uid detached ≡ₚ missing current s /\ Forall (detached_now s') (missing current s) /\
    (forall u, ~ In u (missing current s) -> ~ In u (map dr_uid attached) -> same_for u s s').
Proof.
  intros Hd Hu Hpend Hmono.
  destruct (attach_pass_effect (previously_attached (dm_db s)) current (present current s) [] s Hd Hu)
    as (att & s1 & E1 & K1 & O1 & _ & F1 & N1).
  assert (Hmiss : forall u, In u (missing current s) -> ~ In u (map dr_uid att)).
  { intros u Hm Ha. apply in_map_iff in Ha as (r & <- & Hr). rewrite Forall_forall in F1.
    apply list_elem_of_In in Hr. destruct (F1 r Hr) as [_ (i & h & Hi & _)].
    apply missing_spec in Hm as [Hm _]; [congruence|exact Hd]. }
  assert (Hperm : e_set_order E (missing current s) ≡ₚ missing current s) by apply set_order_perm.
  destruct (detach_pass_effect (e_set_order E (missing current s)) [] s1 K1)
    as (det & s2 & E2 & K2 & M2 & F2 & O2 & _).
  { rewrite Hperm. apply nodup_filter, previously_attached_nodup, Hd. }
  { intros u Hi. assert (Hm : In u (missing current s))
      by (apply list_elem_of_In; apply list_elem_of_In in Hi; rewrite <- Hperm; exact Hi).
    destruct (N1 u (Hmiss u Hm)) as [-> _]. apply missing_spec in Hm as (_ & r & -> & _); [discriminate|exact Hd]. }
  exists att, det, s2. split.
  { unfold locked_pass. rewrite (bind_result _ _ _ (previously_attached (dm_db s))) by reflexivity.
    cbv zeta. fold (present current s) (missing current s). change (mstate (mgets _) s) with s.
    rewrite (bind_result _ _ _ (present current s ++ map dr_uid att, [] ++ att)) by (unfold mresult; rewrite E1; reflexivity).
    unfold mstate. rewrite E1. cbn [snd app].
    rewrite (bind_result _ _ _ ([] ++ det)) by (unfold mresult; rewrite E2; reflexivity).
    unfold mstate. rewrite E2. cbn [snd app]. unfold mbind, mgets. rewrite timeout_pass_none; [reflexivity|].
    intros u dl Hi. pose proof (detach_pass_pending (e_set_order E (missing current s)) [] s1) as Hp.
    unfold mstate in Hp. rewrite E2 in Hp. destruct (proj2 Hp u dl Hi) as [Hi'|(t & _ & ->)]; [|right; apply Hmono].
    destruct O1 as (_ & Hf & _). rewrite Hf in Hi'. exact (Hpend u dl Hi'). }
  split; [exact K2|]. split.
  { eapply Forall_impl; [exact F1|]. cbn. intros r [Hp (i & h & G1 & G2 & G3 & G4)]. split; [exact Hp|].
    destruct (O2 (dr_uid r)) as (H1 & _ & H3 & _).
    { intros Hi. apply list_elem_of_In in Hi. rewrite Hperm in Hi. apply list_elem_of_In, missing_spec in Hi as [Hi _]; [congruence|exact Hd]. }
    exists i, h. rewrite H1, H3. auto. }
  split; [rewrite M2; exact Hperm|]. split; [rewrite <- Hperm; exact F2|].
  intros u Hm Ha. apply same_for_trans with s1.
  - destruct (N1 u Ha). apply same_outside_for; assumption.
  - apply O2. intros Hi. apply Hm. apply list_elem_of_In in Hi. rewrite Hperm in Hi. apply list_elem_of_In, Hi.
Qed.

(** What other threads do does not open ports here. *)
Context (other_ports : forall s, dm_ports (mstate (e_other_threads E) s) = dm_ports s).

Ltac if_case := match goal with |- context [if ?b then _ else _] => destruct b end.

Lemma swd_fallback_ports uid res s : dm_ports (mstate (swd_fallback E uid res) s) = dm_ports s.
Proof.
  unfold swd_fallback. if_case; [|reflexivity].
  apply bind_ports; [reflexivity|]. intros s0 s1 H1. cbv zeta. if_case; [|exact H1].
  apply bind_ports; [rewrite other_ports; exact H1|]. intros [] s2 H2.
  apply bind_ports; [exact H2|]. intros [] s3 H3. apply bind_ports; [exact H3|]. auto.
Qed.

Lemma record_outcome_ports uid res chip s :
  dm_ports (mstate (record_outcome E uid res chip) s) = dm_ports s.
Proof.
  unfold record_outcome. apply bind_ports; [reflexivity|]. intros now s1 H1.
  apply bind_ports; [exact H1|]. intros s' s2 H2. apply bind_ports.
  { if_case; rewrite in_store_ports; exact H2. }
  intros r s3 H3. apply bind_ports; [exact H3|]. intros [] s4 H4. apply bind_ports.
  { destruct chip as [[n z]|]; [rewrite in_store_ports|]; exact H4. }
  intros r' s5 H5. rewrite fire_events_ports. exact H5.
Qed.

Lemma maybe_probe_run uid info s : maybe_probe E uid info s =
  match get uid (dm_db s) with
  | None => (Err (KeyError uid), s)
  | Some _ => if eligible uid s && bool_decide (status uid s = None)
              then probe_and_record E uid info s else (Ok tt, s)
  end.
Proof.
  unfold maybe_probe, mbind. rewrite may_probe_run. destruct (get uid (dm_db s)); [|reflexivity].
  destruct (eligible uid s && bool_decide (status uid s = None)); reflexivity.
Qed.

Lemma probe_and_record_ports uid info s :
  match e_other_threads E s with
  | (Ok _, s1) => opened_once uid info (dm_tick s1) s (mstate (probe_and_record E uid info) s)
  | (Err _, _) => dm_ports (mstate (probe_and_record E uid info) s) = dm_ports s
  end.
Proof.
  pose proof (other_ports s) as Ho. unfold mstate in Ho.
  destruct (e_other_threads E s) as [[[]|e] s1] eqn:Eo; cbn [snd] in Ho.
  2: { unfold mstate, probe_and_record, mbind. rewrite Eo. exact Ho. }
  set (scr := e_port E (dm_tick s1) (pi_port info)).
  exists (snd (probe scr true true)). split; [|split; [reflexivity|exact (probe_trace_safe scr)]].
  unfold mstate, probe_and_record. unfold mbind at 1. rewrite Eo.
  match goal with |- dm_ports (?m s1).2 = ?l => change (dm_ports (mstate m s1) = l) end.
  apply bind_ports; [cbn; rewrite Ho; reflexivity|]. intros res s2 H2.
  apply bind_ports; [rewrite other_ports; exact H2|]. intros [] s3 H3.
  apply bind_ports; [rewrite swd_fallback_ports; exact H3|]. intros chip s4 H4.
  apply bind_ports; [rewrite other_ports; exact H4|]. intros [] s5 H5.
  rewrite record_outcome_ports. exact H5.
Qed.

(** ** A cycle with nothing new *)

Lemma attach_pass_idle prev current owned attached s :
  (forall u info, In (u, info) current -> u ∈ prev) ->
  attach_pass E prev current owned attached s = (Ok (owned, attached), s).
Proof.
  induction current as [|[u info] rest IH]; intros H; [reflexivity|]. cbn [attach_pass].
  rewrite bool_decide_true by (apply (H u info); left; reflexivity).
  apply IH. intros u' i' Hi. apply (H u' i'). right. exact Hi.
Qed.

(** Nothing to attach, nothing gone: the locked block only looks. *)
Lemma locked_pass_idle current now s :
  (forall u info, In (u, info) current -> u ∈ previously_attached (dm_db s)) ->
  missing current s = [] ->
  locked_pass E current now s =
    match timeout_pass E current now (dm_flash_pending s) [] s with
    | (Ok timed_out, s') => (Ok (present current s, [], [], timed_out), s')
    | (Err e, s') => (Err e, s')
    end.
Proof.
  intros Hin Hm. unfold locked_pass. rewrite (bind_result _ _ _ (previously_attached (dm_db s))) by reflexivity.
  change (mstate (mgets _) s) with s. cbv zeta. fold (present current s) (missing current s).
  unfold mbind at 1. rewrite attach_pass_idle by exact Hin.
  rewrite Hm. assert (E0 : e_set_order E [] = []).
  { pose proof (set_order_perm []) as P. apply Permutation_nil_r in P. exact P. }
  rewrite E0. unfold mbind, mgets. cbn [detach_pass]. unfold mret.
  destruct (timeout_pass E current now (dm_flash_pending s) [] s) as [[o|e] s']; reflexivity.
Qed.

Lemma probe_pass_idle current owned s :
  (forall u, In u owned -> dget u current <> None /\ get u (dm_db s) <> None /\ eligible u s = false) ->
  probe_pass E current owned s = (Ok tt, s).
Proof.
  induction owned as [|u owned IH]; intros H; [reflexivity|]. cbn [probe_pass].
  destruct (H u (or_introl eq_refl)) as (Hc & Hg & He).
  destruct (dget u current) as [info|]; [|congruence]. unfold mbind. rewrite maybe_probe_run.
  destruct (get u (dm_db s)); [|congruence]. rewrite He. cbn [andb].
  apply IH. intros u' Hu'. apply H. right. exact Hu'.
Qed.

(** Everything but the tick. *)
Definition same_but_tick (s s' : dstate) : Prop :=
  dm_db s' = dm_db s /\ dm_locks s' = dm_locks s /\ dm_claims s' = dm_claims s /\
  dm_flash_pending s' = dm_flash_pending s /\ dm_released s' = dm_released s /\
  dm_events s' = dm_events s /\ dm_displays s' = dm_displays s /\ dm_ports s' = dm_ports s /\
  dm_swd s' = dm_swd s.

(** C15: the daemon opens a serial port for a board exactly when, at the
    check made under its lock, the board is eligible (never probed since its
    attach, or awaiting its re-probe after a flash) and nobody holds it; then
    it opens that one port once, resets the board before anything is sent,
    says [HELLO] at most twice, and closes what it could open -- whatever
    other threads do from the check on, so that a lock taken in between does
    not stop it, which the source admits.  A board that is not eligible or is
    locked when checked is left alone: no port, no change at all. *)
Theorem probe_guarded uid info s :
  let s' := mstate (maybe_probe E uid info) s in
  match get uid (dm_db s) with
  | None => maybe_probe E uid info s = (Err (KeyError uid), s)
  | Some row =>
      let awaited := bool_decide (dr_last_probe row = 0 \/ dget uid (dm_flash_pending s) <> None) in
      if awaited && bool_decide (status uid s = None) then
        match e_other_threads E s with
        | (Ok _, s1) => opened_once uid info (dm_tick s1) s s'
        | (Err _, _) => dm_ports s' = dm_ports s
        end
      else maybe_probe E uid info s = (Ok tt, s)
  end.
Proof.
  cbv zeta. pose proof (probe_and_record_ports uid info s) as H. unfold mstate in *. rewrite maybe_probe_run.
  destruct (get uid (dm_db s)) as [row|] eqn:Hg; [|reflexivity]. unfold eligible. rewrite Hg.
  replace (bool_decide (_ \/ _)) with ((dr_last_probe row =? 0) || bool_decide (dget uid (dm_flash_pending s) <> None)).
  2: { rewrite bool_decide_or. f_equal. destruct (Z.eqb_spec (dr_last_probe row) 0); symmetry;
       [apply bool_decide_true|apply bool_decide_false]; assumption. }
  destruct (_ && _); [exact H|reflexivity].
Qed.

(** the diff of a cycle, when no flash deadline expires in it. Every
    board that was attached here and is gone ends up disconnected, unlocked
    and unclaimed, and reported once; every newly seen board whose claim is
    granted ends up locally owned at its port with the claim held; every
    other board, in particular one whose claim was denied or one mirrored
    from a peer, keeps its row, lock, claim and pending state, and only
    boards owned here go on to be probed. *)
Theorem locked_pass_diff current now s :
  keys_ok (dm_db s) -> dunique current ->
  (forall u dl, In (u, dl) (dm_flash_pending s) -> dget u current <> None \/ now < dl) ->
  (forall t, now < e_mono E t + e_flash_reprobe_timeout_s E) ->
  exists attached detached s',
    locked_pass E current now s =
      (Ok (present current s ++ map dr_uid attached, attached, detached, []), s') /\
    keys_ok (dm_db s') /\
    Forall (fun r => ~ dr_uid r ∈ previously_attached (dm_db s) /\ granted current s' r) attached /\
    map dr_uid detached ≡ₚ missing current s /\ Forall (detached_now s') (missing current s) /\
    (forall u, ~ In u (missing current s) -> ~ In u (map dr_uid attached) -> same_for u s s').
Proof. apply locked_pass_effect. Qed.

(** a cycle over an unchanged bench does nothing: when every scanned
    board is already attached here and probed, none is missing, and no
    pending flash has expired, the cycle leaves the store, the locks, the
    claims and the pending table as they were, fires no event and opens no
    port. *)
Theorem idle_cycle current s :
  e_other_threads E = mret tt -> keys_ok (dm_db s) -> dunique current ->
  (forall u info, In (u, info) current -> u ∈ previously_attached (dm_db s) /\ eligible u s = false) ->
  missing current s = [] ->
  (forall u dl, In (u, dl) (dm_flash_pending s) ->
     dget u current <> None \/ e_mono E (dm_tick s) < dl) ->
  exists s', run_once E current s = (Ok tt, s') /\ same_but_tick s s'.
Proof.
  intros Hot Hd Hu Hin Hm Hpend. exists (tick s). split; [|repeat split].
  unfold run_once. unfold mbind at 1, read at 1.
  rewrite (bind_result _ _ _ (present current s, [], [], [])).
  - unfold mstate. rewrite locked_pass_idle; [|intros u info Hi; apply (Hin u info Hi)|exact Hm].
    cbn [dm_flash_pending tick]. rewrite timeout_pass_none by exact Hpend. cbn [snd].
    rewrite Hot. unfold fire_events, mbind, mret. cbn [mfor]. unfold mret.
    apply probe_pass_idle. intros u Hi.
    assert (Hp : In u (present current s)).
    { apply list_elem_of_In. apply list_elem_of_In in Hi. rewrite <- (set_order_perm (present current s)). exact Hi. }
    unfold present in Hp. apply filter_In in Hp as [Hp Hc]. apply bool_decide_eq_true in Hc.
    split; [exact Hc|]. apply previously_attached_in in Hp as (r & Hg & _); [|exact Hd].
    split; [cbn; rewrite Hg; discriminate|].
    destruct (dget u current) as [info|] eqn:Hdg; [|congruence].
    exact (proj2 (Hin u info (dget_in _ _ _ Hdg))).
  - unfold mresult. rewrite locked_pass_idle; [|intros u info Hi; apply (Hin u info Hi)|exact Hm].
    cbn [dm_flash_pending tick]. rewrite timeout_pass_none by exact Hpend. reflexivity.
Qed.

(** A flash-pending uid whose row is gone stops the daemon. When its
    deadline has passed, the board is absent and its row no longer exists,
    as after a [rescan] purged the disconnected row during the wait, the
    cycle raises [KeyError] before the pending entry is dropped and before
    any event or probe, so the next cycle raises again. *)
Theorem lost_pending_row_raises current s u dl rest :
  (forall v info, In (v, info) current -> v ∈ previously_attached (dm_db s)) ->
  missing current s = [] ->
  dm_flash_pending s = (u, dl) :: rest -> dl <= e_mono E (dm_tick s) ->
  dget u current = None -> get u (dm_db s) = None ->
  exists s', run_once E current s = (Err (KeyError u), s') /\ same_but_tick s s'.
Proof.
  intros Hin Hm Hp Hdl Hc Hg. exists (tick (tick s)). split; [|repeat split].
  unfold run_once. unfold mbind at 1, read at 1. unfold mbind at 1.
  rewrite locked_pass_idle by assumption.
  cbn [dm_flash_pending tick]. rewrite Hp. cbn [timeout_pass].
  rewrite bool_decide_true by exact Hc. rewrite (proj2 (Z.leb_le _ _) Hdl). cbn [andb].
  unfold mbind, read, in_store. cbn [dm_db tick].
  unfold apply_known_blank. rewrite update_existing_run by (intros r; reflexivity). rewrite Hg.
  cbn. destruct s; reflexivity.
Qed.
End DaemonFacts.

(** ** A concrete daemon *)

Definition example_env : daemon_env := {|
  e_wall := fun t => 1000000 + Z.of_nat t;
  e_mono := fun t => 5000000 * Z.of_nat t;
  e_claim := fun _ uid => Some (mkClaimHandle uid (Some 7));
  e_port := fun _ _ => mkPortScript true true true (fun _ => true)
                         (fun _ => [RLine "DEVICE:NEZHA2:robot:vevov:1198504156"]);
  e_swd := fun _ _ _ => None;
  e_set_order := fun l => l;
  e_other_threads := mret tt;
  e_flash_reprobe_timeout_s := 10000000 |}.

Definition bench : list (string * PortInfo) :=
  [("u1", mkPortInfo "u1" "/dev/ttyACM0" 3368 516)].

(** The bench after its first cycle: the board attached and probed. *)
Definition attached_state : dstate := mstate (run_once example_env bench) (initial empty_db).

Definition flash_holder : HolderRef := mkHolder "local" "42" (Some 42) None.

(** Then a flash lock is taken and released, the board does not come back,
    and an operator rescans. *)
Definition purged_state : dstate :=
  let host := daemon_host example_env in
  let s1 := mstate (@acquire dstate host "u1" KIND_FLASH flash_holder None 0) attached_state in
  let s2 := mstate (@release dstate host "u1" flash_holder) s1 in
  let s3 := mstate (run_once example_env []) s2 in
  mstate (in_store (purge ["u1"] [])) s3.

(** The bench when the board was attached and not yet probed; and a daemon
    in whose every gap another thread flash-locks the board. *)
Definition unprobed_state : dstate := mstate (locked_pass example_env bench 0) (initial empty_db).

Definition racing_env : daemon_env := {|
  e_wall := e_wall example_env;
  e_mono := e_mono example_env;
  e_claim := e_claim example_env;
  e_port := e_port example_env;
  e_swd := e_swd example_env;
  e_set_order := e_set_order example_env;
  e_other_threads := fun s => (Ok tt, mstate (@acquire dstate (daemon_host example_env) "u1" KIND_FLASH flash_holder None 0) s);
  e_flash_reprobe_timeout_s := e_flash_reprobe_timeout_s example_env |}.

Lemma racing_ports s : dm_ports (mstate (e_other_threads racing_env) s) = dm_ports s.
Proof.
  unfold mstate. cbn [racing_env e_other_threads snd]. unfold acquire, mstate, mbind at 1, mgets.
  destruct (status "u1" s); reflexivity.
Qed.

(** The board is probed from its attach; a lock taken after the check does
    not stop it, one taken before does. *)
Lemma probe_guarded_witness :
  let info := mkPortInfo "u1" "/dev/ttyACM0" 3368 516 in
  opened_once example_env "u1" info (dm_tick unprobed_state) unprobed_state
    (mstate (maybe_probe example_env "u1" info) unprobed_state) /\
  opened_once racing_env "u1" info (dm_tick unprobed_state) unprobed_state
    (mstate (maybe_probe racing_env "u1" info) unprobed_state) /\
  (let locked := mstate (e_other_threads racing_env) unprobed_state in
   maybe_probe racing_env "u1" info locked = (Ok tt, locked)).
Proof.
  split; [|split].
  - exact (probe_guarded example_env (fun s => eq_refl) "u1" (mkPortInfo "u1" "/dev/ttyACM0" 3368 516) unprobed_state).
  - exact (probe_guarded racing_env racing_ports "u1" (mkPortInfo "u1" "/dev/ttyACM0" 3368 516) unprobed_state).
  - exact (probe_guarded racing_env racing_ports "u1" (mkPortInfo "u1" "/dev/ttyACM0" 3368 516)
             (mstate (e_other_threads racing_env) unprobed_state)).
Defined.

Lemma attached_keys : keys_ok (dm_db attached_state).
Proof. unfold keys_ok, unique. repeat split; apply (bool_decide_unpack _); vm_compute; exact I. Defined.

Lemma example_perm : forall l, e_set_order example_env l ≡ₚ l.
Proof. reflexivity. Defined.

Lemma example_pending t : 0 < e_mono example_env t + e_flash_reprobe_timeout_s example_env.
Proof. cbn. lia. Qed.

(** The board gone: one detach, no lock, no claim. *)
Lemma locked_pass_diff_witness :
  exists attached detached s',
    locked_pass example_env [] 0 attached_state = (Ok (map dr_uid attached, attached, detached, []), s') /\
    map dr_uid detached ≡ₚ ["u1"] /\
    Forall (@detached_now example_env s') ["u1"].
Proof.
  destruct (locked_pass_diff example_env example_perm [] 0 attached_state attached_keys dunique_nil)
    as (att & det & s' & A & _ & _ & B & C & _).
  - intros u dl Hi. exfalso. vm_compute in Hi. exact Hi.
  - exact example_pending.
  - exists att, det, s'. exact (conj A (conj B C)).
Defined.

Lemma idle_cycle_witness :
  exists s', run_once example_env bench attached_state = (Ok tt, s') /\ same_but_tick attached_state s'.
Proof.
  apply (idle_cycle example_env example_perm bench attached_state).
  - reflexivity.
  - exact attached_keys.
  - unfold dunique, unique. apply (bool_decide_unpack _). vm_compute. exact I.
  - intros u info [Hi|[]]. injection Hi as <- <-. split; [apply (bool_decide_unpack _); vm_compute; exact I|].
    vm_compute. reflexivity.
  - vm_compute. reflexivity.
  - intros u dl Hi. exfalso. vm_compute in Hi. exact Hi.
Defined.

(** The scenario of the theorem, reached by the program's own operations. *)
Lemma lost_pending_row_raises_witness :
  exists s', run_once example_env [] purged_state = (Err (KeyError "u1"), s') /\
             same_but_tick purged_state s'.
Proof.
  apply (lost_pending_row_raises example_env example_perm [] purged_state "u1" 35000000 []).
  - intros v info [].
  - vm_compute. reflexivity.
  - vm_compute. reflexivity.
  - vm_compute. discriminate.
  - reflexivity.
  - vm_compute. reflexivity.
Defined.

(** ** After a restart

    The claims die with the process and the rows do not, so a board that
    was attached before is never claimed again: here another instance holds
    every uid, and the new daemon still opens the board's port. *)
Definition denied_env : daemon_env := {|
  e_wall := e_wall example_env;
  e_mono := e_mono example_env;
  e_claim := fun _ _ => None;
  e_port := e_port example_env;
  e_swd := e_swd example_env;
  e_set_order := e_set_order example_env;
  e_other_threads := e_other_threads example_env;
  e_flash_reprobe_timeout_s := e_flash_reprobe_timeout_s example_env |}.

(** The daemon died between the attach and the probe. *)
Definition restarted_state : dstate :=
  initial (dm_db (mstate (locked_pass example_env bench 0) (initial empty_db))).

Lemma restart_probes_unclaimed :
  let s := mstate (run_once denied_env bench) restarted_state in
  dm_claims s = [] /\ map fst (dm_ports s) = ["u1"%string] /\
  option_map dr_state (get "u1" (dm_db s)) = Some STATE_CONNECTED.
Proof. vm_compute. auto. Qed.
