(* ===== verification/Flash.v ===== *)
(** * [registry/flash.py] and [registry/flashlogic.py]: flashing over pyOCD

    The registry's flash operation and the recovery logic it shares with
    [mbdeploy], on the daemon's own store and locks.  A pyOCD process is
    what it does while watched: its output lines, a silence longer than the
    watchdog allows, whether its output ends, and the exit codes it ends
    with, if it does; the loop reads output without a bound and the wait
    after it has no timeout, so a run that waits on for either has not
    returned ([Hangs]).  Which process a command
    becomes is an oracle over everything done so far, so it may answer each
    attempt differently.  The [log] callback is a computation that may
    raise.  Message texts are constructors; pyOCD's lines are kept, since
    the signatures are matched on them. *)

From S2P Require Import Prelude Tables Identity Virtual UniversalHex Store Locks Claims Daemon.
Local Open Scope py_scope.

(** ** pyOCD processes and the trace of a flash *)

Inductive item := Line (raw : string) | Silence.

(** What was read of a process, and whether its output ended after that;
    the exit code it ends with by itself, and once killed ([None]: it does
    not end). *)
Record proc := mkProc {
  p_items : list item; p_closed : bool; p_rc : option Z; p_killed_rc : option Z }.

(** The two programs [usb_interface_blocker] can name. *)
Inductive blocker := BrowserTab | OtherPrograms (holders : list string).

Inductive logmsg :=
| MLine (line : string)
| MHung
| MPermissionReported
| MHexError
| MPortDenied (port : string)
| MRetrying
| MErasing
| MEraseFailed (rc : Z)
| MNoFirmware (name : string) (rc : Z)
| MBlocked (b : option blocker)
| MUnrecognized (rc : Z)
| MUniversal (hex_path : string)
| MUniversalError.

Inductive fevent :=
| Popen (cmd : list string)
| Kill
| Exited (cmd : list string) (rc : Z) (output : string)
| Stderr (m : logmsg)
| Logged (m : logmsg).

Record fstate := mkFstate {
  fl_d : dstate;
  fl_tmp : list (string * string);     (* the temporary files that exist *)
  fl_trace : list fevent }.

Definition emit_event (e : fevent) (s : fstate) : fstate :=
  mkFstate (fl_d s) (fl_tmp s) (fl_trace s ++ [e]).
Definition with_tmp (t : list (string * string)) (s : fstate) : fstate :=
  mkFstate (fl_d s) t (fl_trace s).

(** A daemon operation on the flash state. *)
Definition in_daemon {A} (m : M dstate A) : M fstate A :=
  fun s => let (r, d) := m (fl_d s) in (r, mkFstate d (fl_tmp s) (fl_trace s)).

Record flash_env := mkFlashEnv {
  fe_python : string;
  fe_spawn : list fevent -> list string -> result proc;
  fe_open : list (string * string) -> string -> option string;  (* text; [None]: [OSError] *)
  fe_mkstemp : list fevent -> result string;
  fe_unlink : list fevent -> string -> bool;       (* can the file be removed *)
  fe_loadhex : list (string * string) -> string -> result unit;  (* intelhex *)
  fe_exists : string -> bool;
  fe_access : string -> bool;
  fe_darwin : bool;
  fe_ioreg : list fevent -> option string }.

(** A [log] callback. *)
Definition logger : Type := logmsg -> M fstate unit.

(** ** Failure signatures *)

Definition PERMISSION_SIGNATURES : list string :=
  ["access denied"; "permission denied"; "insufficient permissions"; "udev rule"; "errno 13"].
Definition TRANSIENT_SIGNATURES : list string :=
  ["timeout reading from probe"; "probe timeout"; "communication failure"; "communication fault";
   "transfer fault"; "transfer error"; "dapaccess"; "unable to claim interface"].
Definition LOCKED_SIGNATURES : list string :=
  ["0x67"; "flash erase sector failure"; "approtect"; "access port protection";
   "authentication failed"; "not authenticated"; "device is locked"; "target is locked"].
Definition CLAIM_BLOCKED_SIGNATURE : string := "unable to claim interface".
Definition BROWSER_HINTS : list string :=
  ["chrome"; "chromium"; "safari"; "firefox"; "edge"; "brave"; "opera"; "arc"].

Definition names_any (signatures : list string) (output : string) : bool :=
  existsb (Py.contains (Py.lower output)) signatures.

Definition looks_permission_denied : string -> bool := names_any PERMISSION_SIGNATURES.
Definition looks_transient : string -> bool := names_any TRANSIENT_SIGNATURES.
Definition looks_locked : string -> bool := names_any LOCKED_SIGNATURES.
Definition looks_claim_blocked (output : string) : bool :=
  Py.contains (Py.lower output) CLAIM_BLOCKED_SIGNATURE.

(** ** Naming the program that holds a probe *)

Fixpoint take_digits (s : string) : string :=
  match s with String c s' => if Py.is_digit c then take_digits s' else s | "" => "" end.

Definition quote : ascii := "034".

Fixpoint until_quote (s : string) : option string :=
  match s with
  | "" => None
  | String c s' => if Ascii.eqb c quote then Some "" else option_map (String c) (until_quote s')
  end.

(** The pattern [pid \d+, (.+?)] and a quote at the start of [s]: its group. *)
Definition pid_at (s : string) : option string :=
  if Py.startswith s "pid " then
    let d := Py.sdrop 4 s in
    let r := take_digits d in
    if negb (String.eqb r d) && Py.startswith r ", " then
      match Py.sdrop 2 r with
      | String c t => option_map (String c) (until_quote t)
      | "" => None
      end
    else None
  else None.

Fixpoint pid_search (s : string) : option string :=
  match pid_at s with
  | Some g => Some g
  | None => match s with "" => None | String _ s' => pid_search s' end
  end.

Definition SERIAL_KEY : string := String quote ("USB Serial Number" +:+ String quote "").

Fixpoint holders_of (uid : string) (on_board : bool) (lines : list string) : list string :=
  match lines with
  | [] => []
  | line :: rest =>
      if Py.contains line SERIAL_KEY then holders_of uid (Py.contains line uid) rest
      else if on_board && Py.contains line "IOUserClientCreator" then
        match pid_search line with
        | Some g => Py.strip g :: holders_of uid on_board rest
        | None => holders_of uid on_board rest
        end
      else holders_of uid on_board rest
  end.

(** [sorted({...})]: ordered, without duplicates. *)
Fixpoint insert_unique (h : string) (l : list string) : list string :=
  match l with
  | [] => [h]
  | x :: l' => if String.eqb h x then l
               else if String.ltb h x then h :: l else x :: insert_unique h l'
  end.
Definition sorted_set (l : list string) : list string := fold_right insert_unique [] l.

Section Flash.
Variable E : flash_env.

Definition usb_interface_blocker (uid : string) (trace : list fevent) : option blocker :=
  if negb (fe_darwin E) then None
  else match fe_ioreg E trace with
       | None => None
       | Some out =>
           let holders := holders_of uid false (splitlines out) in
           if existsb (fun h => names_any BROWSER_HINTS h) holders then Some BrowserTab
           else
             let others := sorted_set (List.filter (fun h => negb (Py.contains (Py.lower h) "python")) holders) in
             if negb (Nat.eqb (length others) 0) then Some (OtherPrograms (firstn 3 others)) else None
       end.

(** The port this process may not open, if so. *)
Definition check_device_permission (port : option string) : option string :=
  match port with
  | None | Some "" => None
  | Some p => if negb (fe_exists E p) then None
              else if fe_access E p then None
              else Some p
  end.

(** [_log]: no callback means standard error. *)
Definition log_to (log : option logger) (m : logmsg) : M fstate unit :=
  match log with
  | None => mmodify (emit_event (Stderr m))
  | Some f => f m
  end.

(** ** [run_streamed_with_watchdog] *)

Fixpoint rstrip_newlines (s : string) : string :=
  match s with
  | "" => ""
  | String c s' => match rstrip_newlines s' with
                   | "" => if Ascii.eqb c lf then "" else String c ""
                   | t => String c t
                   end
  end.

(** The watch loop: the lines heard, and whether it killed the process.
    While the output does not end, it does not either. *)
Fixpoint watch (log : logger) (items : list item) (closed : bool) (lines : list string)
    : M fstate (list string * bool) :=
  match items with
  | [] => if closed then mret (lines, false) else mraise Hangs
  | Silence :: _ => log MHung ;;! mmodify (emit_event Kill) ;;! mret (lines, true)
  | Line raw :: rest =>
      let line := rstrip_newlines raw in
      log (MLine line) ;;!
      (if looks_permission_denied line then
         log MPermissionReported ;;! mmodify (emit_event Kill) ;;! mret (lines ++ [line], true)
       else watch log rest closed (lines ++ [line]))
  end.

(** [proc.wait()], and the code returned for it. *)
Definition exit_code (p : proc) (killed : bool) : option Z :=
  if killed then (fun rc => if rc =? 0 then 1 else rc) <$> p_killed_rc p else p_rc p.

Definition run_streamed_with_watchdog (cmd : list string) (log : logger) : M fstate (Z * string) :=
  p <-! (fun s => (fe_spawn E (fl_trace s) cmd, emit_event (Popen cmd) s)) ;;
  lk <-! watch log (p_items p) (p_closed p) [] ;;
  match exit_code p lk.2 with
  | None => mraise Hangs
  | Some rc =>
      let output := Py.join newline lk.1 in
      mmodify (emit_event (Exited cmd rc output)) ;;!
      mret (rc, output)
  end.

Definition run_streamed (cmd : list string) (log : option logger) : M fstate (Z * string) :=
  run_streamed_with_watchdog cmd (log_to log).

(** ** The recovery logic *)

Definition PYOCD : list string := [fe_python E; "-m"; "pyocd"].
Definition flash_cmd (target_mcu uid hex_path : string) : list string :=
  PYOCD ++ ["flash"; "-t"; target_mcu; "--uid"; uid; hex_path].
Definition erase_cmd (target_mcu uid : string) : list string :=
  PYOCD ++ ["erase"; "-t"; target_mcu; "--uid"; uid; "--mass"].
Definition reset_cmd (target_mcu uid : string) : list string :=
  PYOCD ++ ["reset"; "-t"; target_mcu; "--uid"; uid].

(** The two [_validate_hex]: the parse, and which of its failures count as
    a bad file. *)
Definition loadhex (hex_path : string) (s : fstate) : result unit := fe_loadhex E (fl_tmp s) hex_path.

Definition bad_hex (e : py_exc) : bool :=
  match e with OSError | IntelHexError => true | _ => false end.

Definition or_else (name : option string) (default : string) : string :=
  match name with None | Some "" => default | Some n => n end.

(** After the first flash (and its retry) failed: mass erase and reflash
    when locked.  [inl rc]: return [rc]; [inr tt]: go on to the reset. *)
Definition recover (uid hex_path target_mcu : string) (log : option logger)
    (board_name : option string) (rc : Z) (output : string) : M fstate (Z + unit) :=
  if negb (rc =? 0) && looks_locked output then
    log_to log MErasing ;;!
    er <-! run_streamed (erase_cmd target_mcu uid) log ;;
    if negb (er.1 =? 0) then
      log_to log (MEraseFailed er.1) ;;! mret (inl er.1)
    else
      fr <-! run_streamed (flash_cmd target_mcu uid hex_path) log ;;
      if negb (fr.1 =? 0) then
        log_to log (MNoFirmware (or_else board_name uid) fr.1) ;;! mret (inl fr.1)
      else mret (inr tt)
  else if negb (rc =? 0) && looks_claim_blocked output then
    b <-! mgets (fun s => usb_interface_blocker uid (fl_trace s)) ;;
    log_to log (MBlocked b) ;;! mret (inl rc)
  else if negb (rc =? 0) then
    log_to log (MUnrecognized rc) ;;! mret (inl rc)
  else mret (inr tt).

(** The pyOCD part of [_flash_hex], after its checks. *)
Definition flash_and_recover (uid hex_path target_mcu : string) (log : option logger)
    (board_name : option string) : M fstate Z :=
  first <-! run_streamed (flash_cmd target_mcu uid hex_path) log ;;
  if negb (first.1 =? 0) && looks_permission_denied first.2 then mret first.1
  else
    attempt <-! (if negb (first.1 =? 0) && looks_transient first.2 then
                   log_to log MRetrying ;;! run_streamed (flash_cmd target_mcu uid hex_path) log
                 else mret first) ;;
    go_on <-! recover uid hex_path target_mcu log board_name attempt.1 attempt.2 ;;
    match go_on with
    | inl rc => mret rc
    | inr _ => r <-! run_streamed (reset_cmd target_mcu uid) log ;; mret r.1
    end.

(** [flashlogic._flash_hex]. *)
Definition flash_hex_plain (uid hex_path target_mcu : string) (log : option logger)
    (board_name port : option string) : M fstate Z :=
  parsed <-! mgets (loadhex hex_path) ;;
  match parsed with
  | Err e => if bad_hex e then log_to log MHexError ;;! mret 1 else mraise e
  | Ok _ =>
      match check_device_permission port with
      | Some p => log_to log (MPortDenied p) ;;! mret 1
      | None => flash_and_recover uid hex_path target_mcu log board_name
      end
  end.

(** ** [normalized_hex], around its [with] body *)

(** Writing as ASCII fails on any other character. *)
Definition write_ascii (text : string) : result unit :=
  if Py.sforall (fun c => (nat_of_ascii c <? 128)%nat) text then Ok tt else Err ValueError.

(** [os.unlink] with [OSError] suppressed: the file may stay. *)
Definition os_unlink (path : string) : M fstate unit :=
  fun s => if fe_unlink E (fl_trace s) path then (Ok tt, with_tmp (ddel path (fl_tmp s)) s) else (Err OSError, s).
Definition unlink_quietly (path : string) : M fstate unit :=
  mtry (os_unlink path) (fun e => match e with OSError => Some (mret tt) | _ => None end).

Definition with_normalized_hex {A} (hex_path target_mcu : string) (body : string -> M fstate A)
    : M fstate A :=
  opened <-! mgets (fun s => fe_open E (fl_tmp s) hex_path) ;;
  match opened with
  | None => body hex_path
  | Some text =>
      if negb (is_universal_hex text) then body hex_path
      else
        converted <-! mlift (extract_for_mcu text target_mcu) ;;
        tmp_path <-! (fun s => (fe_mkstemp E (fl_trace s), s)) ;;
        mafter
          (mmodify (fun s => with_tmp (dset tmp_path "" (fl_tmp s)) s) ;;!
           mlift (write_ascii converted) ;;!
           mmodify (fun s => with_tmp (dset tmp_path converted (fl_tmp s)) s) ;;!
           body tmp_path)
          (unlink_quietly tmp_path)
  end.

(** [flashlogic.flash_hex]. *)
Definition flashlogic_flash_hex (uid hex_path target_mcu : string) (log : option logger)
    (board_name port : option string) : M fstate Z :=
  mtry
    (with_normalized_hex hex_path target_mcu (fun flash_path =>
       (if String.eqb flash_path hex_path then mret tt else log_to log (MUniversal hex_path)) ;;!
       flash_hex_plain uid flash_path target_mcu log board_name port))
    (fun e => match e with
              | UniversalHexError => Some (log_to log MUniversalError ;;! mret 1)
              | _ => None
              end).

(** ** [FlashOp] *)

Inductive flash_error := EPermission (port : string) | ERaised (e : py_exc) | EExit (rc : Z).

Record FlashResult := mkFlashResult {
  fr_success : bool; fr_exit_code : option Z; fr_error : option flash_error }.

(** [runner]: the injected one, or production's recovery when [None]. *)
Record FlashOp := mkFlashOp {
  fo_runner : option (list string -> logger -> M fstate Z);
  fo_target_mcu : string }.

Definition DEFAULT_MCU : string := "nrf52833".

(** [flash._validate_hex]. *)
Definition validate_plain (hex_path : string) : M fstate unit :=
  parsed <-! mgets (loadhex hex_path) ;;
  match parsed with
  | Ok _ => mret tt
  | Err e => if bad_hex e then mraise HexValidationError else mraise e
  end.

(** [FlashOp.validate_hex]. *)
Definition validate_hex (op : FlashOp) (hex_path : string) : M fstate unit :=
  mtry (with_normalized_hex hex_path (fo_target_mcu op) validate_plain)
    (fun e => match e with UniversalHexError => Some (mraise HexValidationError) | _ => None end).

Definition count_flash (uid : string) : M fstate DeviceRecord :=
  in_daemon (in_store (increment_flash_count uid)).

(** The attempt of [_flash_locked], by recovery or by the injected runner. *)
Definition attempt (op : FlashOp) (uid hex_path : string) (log : logger) (record : option DeviceRecord)
    : M fstate Z :=
  match fo_runner op with
  | None =>
      flash_hex_plain uid hex_path (fo_target_mcu op) (Some log)
        (Some (or_else (r ← record; dr_device_name r) uid)) (r ← record; dr_port r)
  | Some runner => runner (flash_cmd (fo_target_mcu op) uid hex_path) log
  end.

Definition flash_locked (op : FlashOp) (uid hex_path : string) (log : logger) : M fstate FlashResult :=
  validate_plain hex_path ;;!
  record <-! in_daemon (in_store (fun d => (find uid d, d))) ;;
  match check_device_permission (r ← record; dr_port r) with
  | Some p => log (MPortDenied p) ;;! mret (mkFlashResult false None (Some (EPermission p)))
  | None =>
      outcome <-! mcatch (rc <-! attempt op uid hex_path log record ;; mret (inl rc))
                         (fun e => count_flash uid ;;! mret (inr e)) ;;
      match outcome with
      | inr e => mret (mkFlashResult false None (Some (ERaised e)))
      | inl rc =>
          count_flash uid ;;!
          mret (if rc =? 0 then mkFlashResult true (Some rc) None
                else mkFlashResult false (Some rc) (Some (EExit rc)))
      end
  end.

(** [FlashOp.flash_hex].  The handler builds its [HexValidationError] with
    one argument of the two the constructor needs: a [TypeError]. *)
Definition flash_hex (op : FlashOp) (uid hex_path : string) (log : logger) : M fstate FlashResult :=
  holder <-! mgets (fun s => dget uid (dm_locks (fl_d s))) ;;
  let held := match holder with Some st => String.eqb (ls_kind st) KIND_FLASH | None => false end in
  if negb held then mraise (FlashLockNotHeldError uid)
  else
    mtry (with_normalized_hex hex_path (fo_target_mcu op) (fun flash_path => flash_locked op uid flash_path log))
      (fun e => match e with UniversalHexError => Some (mraise TypeError) | _ => None end).
End Flash.
