(* ===== verification/FlashFacts.v ===== *)
(** * Properties of flashing

    What the watchdog returns and what it waits for, which pyOCD commands the recovery may run
    and when, and what a flash operation does to the store. *)

From S2P Require Import Prelude Tables Identity Virtual UniversalHex Store Locks Claims Daemon Flash.
Local Open Scope py_scope.

(** ** Reading a trace *)

(** A completed pyOCD run. *)
Definition run : Type := list string * Z * string.
Definition r_cmd (r : run) : list string := r.1.1.
Definition r_rc (r : run) : Z := r.1.2.
Definition r_out (r : run) : string := r.2.

Definition popens (s : fstate) : list (list string) :=
  omap (fun e => match e with Popen c => Some c | _ => None end) (fl_trace s).
Definition runs (s : fstate) : list run :=
  omap (fun e => match e with Exited c rc o => Some (c, rc, o) | _ => None end) (fl_trace s).

(** The processes started and completed between two states that agree on
    everything else. *)
Definition ran (s s' : fstate) (cmds : list (list string)) (rs : list run) : Prop :=
  fl_d s' = fl_d s /\ fl_tmp s' = fl_tmp s /\
  popens s' = popens s ++ cmds /\ runs s' = runs s ++ rs.

(** A callback that touches no process, board or file. *)
Definition quiet (log : option logger) : Prop :=
  forall m s, ran s (mstate (log_to log m) s) [] [].

Lemma ran_refl s : ran s s [] [].
Proof. unfold ran. rewrite !app_nil_r. auto. Qed.

Lemma ran_trans s1 s2 s3 c1 c2 r1 r2 : ran s1 s2 c1 r1 -> ran s2 s3 c2 r2 ->
  ran s1 s3 (c1 ++ c2) (r1 ++ r2).
Proof.
  intros (A1 & A2 & A3 & A4) (B1 & B2 & B3 & B4). unfold ran.
  rewrite B1, B2, B3, B4, A1, A2, A3, A4, !app_assoc. auto.
Qed.

Lemma ran_event s e : ran s (emit_event e s)
  (match e with Popen c => [c] | _ => [] end) (match e with Exited c rc o => [(c, rc, o)] | _ => [] end).
Proof.
  unfold ran, popens, runs, emit_event. cbn [fl_d fl_tmp fl_trace].
  rewrite !omap_app. destruct e; auto.
Qed.

Lemma quiet_none : quiet None.
Proof. intros m s. exact (ran_event s (Stderr m)). Qed.

Definition recorder : logger := fun m => mmodify (emit_event (Logged m)).

Lemma quiet_recorder : quiet (Some recorder).
Proof. intros m s. exact (ran_event s (Logged m)). Qed.

Lemma quiet_log_to log : quiet log -> quiet (Some (log_to log)).
Proof. exact id. Qed.

(** Stepping over one logged line. *)
Lemma log_step {A} log m (k : unit -> M fstate A) s (P : result A * fstate -> Prop) : quiet log ->
  (forall s', ran s s' [] [] -> P (k tt s')) ->
  (forall e s', ran s s' [] [] -> P (Err e, s')) ->
  P (mbind (log_to log m) k s).
Proof.
  intros Hq Hk He. specialize (Hq m s). unfold mstate in Hq. unfold mbind.
  destruct (log_to log m s) as [[[]|e] s']; auto.
Qed.

(** ** The watchdog *)

(** A line that ends the watch. *)
Definition denied (raw : string) : Prop := looks_permission_denied (rstrip_newlines raw) = true.
Definition permitted (raw : string) : Prop := looks_permission_denied (rstrip_newlines raw) = false.

(** The three ways a watch ends: the process's output ends, it names a
    permission error, or it falls silent. *)
Inductive watched (p : proc) : list string -> bool -> Prop :=
| watched_end raws : p_items p = map Line raws -> p_closed p = true -> Forall permitted raws ->
    watched p (map rstrip_newlines raws) false
| watched_denied raws raw rest : p_items p = map Line raws ++ Line raw :: rest ->
    Forall permitted raws -> denied raw -> watched p (map rstrip_newlines (raws ++ [raw])) true
| watched_silent raws rest : p_items p = map Line raws ++ Silence :: rest ->
    Forall permitted raws -> watched p (map rstrip_newlines raws) true.

(** Output that goes on, without a silence and without such a line. *)
Definition endless (p : proc) : Prop :=
  p_closed p = false /\ exists raws, p_items p = map Line raws /\ Forall permitted raws.

(** A process that ends, by itself or once killed. *)
Definition ends_somehow (p : proc) : Prop :=
  ~ endless p /\ p_rc p <> None /\ p_killed_rc p <> None.

Definition kills (s : fstate) : nat :=
  length (List.filter (fun e => match e with Kill => true | _ => false end) (fl_trace s)).

Lemma kills_event e s : kills (emit_event e s) = (kills s + match e with Kill => 1 | _ => 0 end)%nat.
Proof. unfold kills, emit_event. cbn [fl_trace]. rewrite List.filter_app, length_app. destruct e; reflexivity. Qed.

(** A callback that returns and kills nothing. *)
Definition talks (log : logger) : Prop :=
  forall m s, mresult (log m) s = Ok tt /\ kills (mstate (log m) s) = kills s.

Lemma talks_step {A} log m (k : unit -> M fstate A) s : talks log ->
  exists s1, kills s1 = kills s /\ mbind (log m) k s = k tt s1.
Proof.
  intros H. destruct (H m s) as [H1 H2]. exists (mstate (log m) s). split; [exact H2|].
  unfold mresult in H1. unfold mbind, mstate. destruct (log m s) as [r s']. cbn in H1. subst r. reflexivity.
Qed.

Lemma map_stripped seen raw :
  map rstrip_newlines seen ++ [rstrip_newlines raw] = map rstrip_newlines (seen ++ [raw]).
Proof. rewrite map_app. reflexivity. Qed.

Lemma watch_talks log p seen items : talks log -> p_items p = map Line seen ++ items ->
  Forall permitted seen -> forall s,
  let o := watch log items (p_closed p) (map rstrip_newlines seen) s in
  (exists lines killed, o.1 = Ok (lines, killed) /\ watched p lines killed /\
     kills o.2 = (kills s + if killed then 1 else 0)%nat) \/
  (endless p /\ o.1 = Err Hangs /\ kills o.2 = kills s).
Proof.
  intros Ht. revert seen. induction items as [|[raw|] items IH]; intros seen Hp HF s; cbn [watch]; cbv zeta.
  - rewrite app_nil_r in Hp. destruct (p_closed p) eqn:Hc; [left|right].
    + exists (map rstrip_newlines seen), false. split; [reflexivity|]. split; [constructor; assumption|]. cbn. lia.
    + split; [split; [exact Hc|eauto]|]. split; reflexivity.
  - destruct (talks_step log (MLine (rstrip_newlines raw)) (fun _ =>
      if looks_permission_denied (rstrip_newlines raw)
      then log MPermissionReported ;;! mmodify (emit_event Kill) ;;! mret (map rstrip_newlines seen ++ [rstrip_newlines raw], true)
      else watch log items (p_closed p) (map rstrip_newlines seen ++ [rstrip_newlines raw])) s Ht) as (s1 & K1 & ->).
    rewrite map_stripped, <- K1. destruct (looks_permission_denied (rstrip_newlines raw)) eqn:Hd.
    + left. destruct (talks_step log MPermissionReported (fun _ =>
        mmodify (emit_event Kill) ;;! mret (map rstrip_newlines (seen ++ [raw]), true)) s1 Ht) as (s2 & K2 & ->).
      do 2 eexists. split; [reflexivity|]. split; [apply (watched_denied p seen raw items); assumption|].
      rewrite <- K2. apply (kills_event Kill).
    + apply IH; [rewrite Hp, map_app, <- app_assoc; reflexivity|].
      apply Forall_app. split; [exact HF|]. constructor; [exact Hd|constructor].
  - left. destruct (talks_step log MHung (fun _ =>
      mmodify (emit_event Kill) ;;! mret (map rstrip_newlines seen, true)) s Ht) as (s1 & K1 & ->).
    do 2 eexists. split; [reflexivity|]. split; [apply (watched_silent p seen items); assumption|].
    rewrite <- K1. apply (kills_event Kill).
Qed.

Lemma killed_nonzero p : exit_code p true <> Some 0.
Proof.
  unfold exit_code. destruct (p_killed_rc p) as [rc|]; [|discriminate]. cbn.
  destruct (rc =? 0) eqn:H; [discriminate|]. apply Z.eqb_neq in H. congruence.
Qed.

(** ** Computations that return *)

Definition returns {S A} (m : M S A) : Prop := forall s, mresult m s <> Err Hangs.

Lemma returns_bind {S A B} (m : M S A) (k : A -> M S B) :
  returns m -> (forall a, returns (k a)) -> returns (mbind m k).
Proof.
  intros Hm Hk s. specialize (Hm s). unfold mresult, mbind in *.
  destruct (m s) as [[a|e] s1]; [apply Hk|cbn in *; congruence].
Qed.

Lemma returns_ret {S A} (a : A) : returns (mret (S:=S) a).
Proof. intros s. discriminate. Qed.

Lemma returns_gets {S A} (f : S -> A) : returns (mgets f).
Proof. intros s. discriminate. Qed.

Lemma returns_modify {S} (f : S -> S) : returns (mmodify f).
Proof. intros s. discriminate. Qed.

Lemma returns_log log m : talks (log_to log) -> returns (log_to log m).
Proof. intros H s. rewrite (proj1 (H m s)). discriminate. Qed.

(** Down to the parts of a computation, and what is known of them. *)
Ltac returning leaf :=
  repeat first
    [ leaf
    | apply returns_bind; [|intros ?]
    | apply returns_ret | apply returns_gets | apply returns_modify | apply returns_log; assumption
    | match goal with
      | |- returns (match ?x with _ => _ end) => destruct x
      | |- forall _, _ => intro
      end ].

(** Every process a command becomes ends. *)
Definition all_end (E : flash_env) : Prop :=
  forall trace cmd, match fe_spawn E trace cmd with
                    | Ok p => ends_somehow p
                    | Err e => e <> Hangs
                    end.

Lemma watchdog_runs E cmd log p s : talks log -> fe_spawn E (fl_trace s) cmd = Ok p ->
  let o := run_streamed_with_watchdog E cmd log s in
  (exists lines killed, watched p lines killed /\ kills o.2 = (kills s + if killed then 1 else 0)%nat /\
     o.1 = match exit_code p killed with Some rc => Ok (rc, Py.join newline lines) | None => Err Hangs end) \/
  (endless p /\ kills o.2 = kills s /\ o.1 = Err Hangs).
Proof.
  intros Ht Hs. cbv zeta. unfold run_streamed_with_watchdog, mbind. rewrite Hs.
  pose proof (watch_talks log p [] (p_items p) Ht eq_refl (Forall_nil_2 _) (emit_event (Popen cmd) s)) as H.
  rewrite (kills_event (Popen cmd)), Nat.add_0_r in H. cbn [map] in H. cbv zeta in *.
  destruct (watch log (p_items p) (p_closed p) [] (emit_event (Popen cmd) s)) as [r s1]. cbn [fst snd] in H.
  destruct H as [(lines & killed & -> & Hw & Hk)|(He & -> & Hk)]; [left|right; split; [exact He|split; [exact Hk|reflexivity]]].
  exists lines, killed. split; [exact Hw|]. cbn [fst snd].
  destruct (exit_code p killed) as [rc|]; [|split; [exact Hk|reflexivity]]. unfold mbind, mmodify, mret. cbn [fst snd].
  rewrite (kills_event (Exited _ _ _)), Nat.add_0_r. split; [exact Hk|reflexivity].
Qed.

Lemma streamed_returns E cmd log : all_end E -> talks (log_to log) -> returns (run_streamed E cmd log).
Proof.
  intros He Ht s. specialize (He (fl_trace s) cmd). unfold run_streamed.
  destruct (fe_spawn E (fl_trace s) cmd) as [p|e] eqn:Hs.
  - destruct He as (H1 & H2 & H3). unfold mresult.
    destruct (watchdog_runs E cmd (log_to log) p s Ht Hs) as [(lines & killed & _ & _ & ->)|(H & _)]; [|contradiction].
    unfold exit_code. destruct killed; [destruct (p_killed_rc p)|destruct (p_rc p)]; cbn; congruence.
  - unfold mresult, run_streamed_with_watchdog, mbind. rewrite Hs. cbn. congruence.
Qed.

(** C35: what the watchdog returns, whatever the process does.  It hears the
    process to the end of its output, or kills it, once, at the first line
    naming a permission error or at a silence; the output is exactly the
    lines heard, the exit code the process's own when its output ended, and
    never 0 when it was killed.  It waits on for output that neither ends
    nor falls silent, and for a process that does not exit.  When no process
    does either, the recovery built on it always returns. *)
Theorem watchdog_returns E cmd log p s : talks log -> fe_spawn E (fl_trace s) cmd = Ok p ->
  (let o := run_streamed_with_watchdog E cmd log s in
   (exists lines killed, watched p lines killed /\ kills o.2 = (kills s + if killed then 1 else 0)%nat /\
      o.1 = match exit_code p killed with Some rc => Ok (rc, Py.join newline lines) | None => Err Hangs end) \/
   (endless p /\ kills o.2 = kills s /\ o.1 = Err Hangs)) /\
  exit_code p false = p_rc p /\ exit_code p true <> Some 0 /\
  (exit_code p true = None <-> p_killed_rc p = None) /\
  (all_end E -> forall uid hex_path target_mcu name,
     mresult (flash_and_recover E uid hex_path target_mcu (Some log) name) s <> Err Hangs).
Proof.
  intros Ht Hs. split; [exact (watchdog_runs E cmd log p s Ht Hs)|].
  split; [reflexivity|]. split; [apply killed_nonzero|].
  split; [unfold exit_code; destruct (p_killed_rc p); cbn; split; congruence|].
  intros He uid hex_path target_mcu name. revert s Hs.
  assert (H : returns (flash_and_recover E uid hex_path target_mcu (Some log) name)); [|intros s _; exact (H s)].
  assert (Hr : forall c, returns (run_streamed E c (Some log))) by (intros c; apply streamed_returns; assumption).
  unfold flash_and_recover, recover. returning ltac:(simple apply Hr).
Qed.

(** ** What a pyOCD run adds to the trace *)

Lemma watch_ran log items closed : quiet (Some log) -> forall lines s,
  ran s (mstate (watch log items closed lines) s) [] [].
Proof.
  intros Hq. induction items as [|[raw|] items IH]; intros lines s; cbn [watch].
  - destruct closed; apply ran_refl.
  - cbv zeta. unfold mstate. apply (log_step (Some log) _ _ s (fun rs => ran s rs.2 [] []) Hq); [|auto].
    intros s1 H1. destruct (looks_permission_denied _).
    + apply (log_step (Some log) _ _ s1 (fun rs => ran s rs.2 [] []) Hq).
      * intros s2 H2. exact (ran_trans _ _ _ _ _ _ _ H1 (ran_trans _ _ _ _ _ _ _ H2 (ran_event s2 Kill))).
      * intros e s2 H2. exact (ran_trans _ _ _ _ _ _ _ H1 H2).
    + exact (ran_trans _ _ _ _ _ _ _ H1 (IH _ s1)).
  - unfold mstate. apply (log_step (Some log) _ _ s (fun rs => ran s rs.2 [] []) Hq); [|auto].
    intros s1 H1. exact (ran_trans _ _ _ _ _ _ _ H1 (ran_event s1 Kill)).
Qed.

(** One run: the command is started, and recorded when it completes. *)
Lemma run_step {A} E cmd log (k : Z * string -> M fstate A) s (P : result A * fstate -> Prop) :
  quiet log ->
  (forall rc out s', ran s s' [cmd] [(cmd, rc, out)] -> P (k (rc, out) s')) ->
  (forall e s', ran s s' [cmd] [] -> P (Err e, s')) ->
  P (mbind (run_streamed E cmd log) k s).
Proof.
  intros Hq Hk He. unfold run_streamed, run_streamed_with_watchdog.
  pose proof (ran_event s (Popen cmd)) as H0. cbv iota in H0.
  unfold mbind at 1 2. destruct (fe_spawn E (fl_trace s) cmd) as [p|e]; [|exact (He e _ H0)].
  pose proof (watch_ran (log_to log) (p_items p) (p_closed p) (quiet_log_to _ Hq) [] (emit_event (Popen cmd) s)) as H1.
  unfold mstate in H1. unfold mbind at 1.
  destruct (watch (log_to log) (p_items p) (p_closed p) [] (emit_event (Popen cmd) s)) as [[[lines killed]|e] s1];
    cbn [snd] in H1; [|exact (He e s1 (ran_trans _ _ _ _ _ _ _ H0 H1))].
  cbn [fst snd]. destruct (exit_code p killed) as [rc|]; [|exact (He Hangs s1 (ran_trans _ _ _ _ _ _ _ H0 H1))].
  apply Hk.
  exact (ran_trans _ _ _ _ _ _ _ H0 (ran_trans _ _ _ _ _ _ _ H1 (ran_event s1 (Exited cmd _ _)))).
Qed.

Definition example_proc : proc :=
  mkProc [Line "erasing"; Line "[Errno 13] Access denied"; Line "never read"] true (Some 0) (Some (-9)).
Definition ok_proc : proc := mkProc [Line "100%"] true (Some 0) (Some (-9)).
Definition locked_proc : proc := mkProc [Line "Error: Approtect enabled"] true (Some 1) (Some (-9)).
(** One that closes its output and does not exit, and one that prints on. *)
Definition lingering_proc : proc := mkProc [Line "100%"] true None (Some (-9)).
Definition printing_proc : proc := mkProc [Line "1%"; Line "2%"] false (Some 0) (Some (-9)).

(** A board that is locked until its mass erase. *)
Definition example_spawn (trace : list fevent) (cmd : list string) : result proc :=
  if existsb (String.eqb "erase") cmd then Ok ok_proc
  else if existsb (fun e => match e with Popen c => existsb (String.eqb "erase") c | _ => false end) trace
       then Ok ok_proc else Ok locked_proc.

Definition example_env (spawn : list fevent -> list string -> result proc) : flash_env :=
  mkFlashEnv "python" spawn (fun _ _ => Some ":00000001FF") (fun _ => Ok "/tmp/x.hex")
    (fun _ _ => true)
    (fun _ _ => Ok tt) (fun _ => true) (fun _ => true) false (fun _ => None).

Definition example_start : fstate := mkFstate (initial empty_db) [] [].

Lemma talks_recorder : talks recorder.
Proof. intros m s. split; [reflexivity|]. exact (eq_trans (kills_event (Logged m) s) (Nat.add_0_r _)). Qed.

Lemma ended_proc p : p_closed p = true -> p_rc p <> None -> p_killed_rc p <> None -> ends_somehow p.
Proof. intros H1 H2 H3. split; [|auto]. intros [H _]. congruence. Qed.

(** Killed at its permission error; and the two that are waited for. *)
Lemma watchdog_returns_witness :
  (exists lines killed, watched example_proc lines killed /\ killed = true /\
    mresult (run_streamed_with_watchdog (example_env (fun _ _ => Ok example_proc)) ["pyocd"] recorder)
      example_start = Ok (-9, Py.join newline lines)) /\
  mresult (run_streamed_with_watchdog (example_env (fun _ _ => Ok lingering_proc)) ["pyocd"] recorder)
    example_start = Err Hangs /\
  mresult (run_streamed_with_watchdog (example_env (fun _ _ => Ok printing_proc)) ["pyocd"] recorder)
    example_start = Err Hangs /\
  mresult (flash_and_recover (example_env (fun _ _ => Ok example_proc)) "9906" "a.hex" "nrf52833" (Some recorder) None)
    example_start <> Err Hangs.
Proof.
  destruct (watchdog_returns (example_env (fun _ _ => Ok example_proc)) ["pyocd"] recorder example_proc
    example_start talks_recorder eq_refl) as (H & _ & _ & _ & Hr).
  split; [|split; [vm_compute; reflexivity|split; [vm_compute; reflexivity|]]].
  - destruct H as [(lines & killed & Hw & Hk & Ho)|([Hc _] & _)]; [|discriminate Hc].
    exists lines, killed. split; [exact Hw|]. destruct killed; [|vm_compute in Hk; discriminate Hk].
    split; [reflexivity|exact Ho].
  - apply Hr. intros trace cmd. apply ended_proc; [reflexivity|discriminate|discriminate].
Defined.

(** ** Which commands the recovery runs *)

Section Recovery.
Variables (E : flash_env) (target_mcu uid hex_path : string).
Notation F := (flash_cmd E target_mcu uid hex_path).
Notation X := (erase_cmd E target_mcu uid).
Notation R := (reset_cmd E target_mcu uid).

(** A failed flash whose output names a permission error, first try only. *)
Definition refused (before : list run) (r : run) : Prop :=
  length before = 1%nat /\ looks_permission_denied (r_out r) = true.

(** When a command may start, given the runs before it: the first flash;
    one retry of a transient failure; a mass erase of a locked board, once
    and after at most two tries; the flash after a successful erase; the
    reset after a successful flash. *)
Inductive justified (before : list run) : list string -> Prop :=
| j_first : before = [] -> justified before F
| j_retry r : before = [r] -> r_cmd r = F -> r_rc r <> 0 -> ~ refused before r ->
    looks_transient (r_out r) = true -> justified before F
| j_erase r : last before = Some r -> (length before <= 2)%nat -> r_cmd r = F -> r_rc r <> 0 ->
    ~ refused before r -> looks_locked (r_out r) = true -> justified before X
| j_reflash r : last before = Some r -> r_cmd r = X -> r_rc r = 0 -> justified before F
| j_reset r : last before = Some r -> r_cmd r = F -> r_rc r = 0 -> justified before R.

Inductive supervised : list run -> Prop :=
| sup_nil : supervised []
| sup_snoc rs c rc out : supervised rs -> justified rs c -> supervised (rs ++ [(c, rc, out)]).

(** The end of a recovery: it returned after its last justified run, or an
    exception cut it short between runs or inside one. *)
Definition ends (s : fstate) (r : result Z) (s' : fstate) : Prop :=
  exists rs, supervised rs /\
    match r with
    | Ok v => ran s s' (map r_cmd rs) rs /\ (forall c, ~ justified rs c) /\
              exists l, last rs = Some l /\ r_rc l = v
    | Err _ => ran s s' (map r_cmd rs) rs \/
               exists c, justified rs c /\ ran s s' (map r_cmd rs ++ [c]) rs
    end.

Definition ends_at (s : fstate) (o : result Z * fstate) : Prop := ends s o.1 o.2.

Lemma commands_distinct : F <> X /\ F <> R /\ X <> R.
Proof. repeat split; intros [=]. Qed.

(** A recovery seen after some runs. *)
Definition from (s0 : fstate) (rs : list run) (s : fstate) : Prop :=
  supervised rs /\ ran s0 s (map r_cmd rs) rs.

Lemma from_log s0 rs s s' : from s0 rs s -> ran s s' [] [] -> from s0 rs s'.
Proof.
  intros [Hs H1] H2. split; [exact Hs|].
  pose proof (ran_trans _ _ _ _ _ _ _ H1 H2) as H. rewrite !app_nil_r in H. exact H.
Qed.

Lemma from_run s0 rs s s' c rc out : from s0 rs s -> justified rs c ->
  ran s s' [c] [(c, rc, out)] -> from s0 (rs ++ [(c, rc, out)]) s'.
Proof.
  intros [Hs H1] Hj H2. split; [constructor; assumption|].
  rewrite map_app. exact (ran_trans _ _ _ _ _ _ _ H1 H2).
Qed.

Lemma from_cut s0 rs s s' c e : from s0 rs s -> justified rs c -> ran s s' [c] [] -> ends s0 (Err e) s'.
Proof.
  intros [Hs H1] Hj H2. exists rs. split; [exact Hs|]. right. exists c. split; [exact Hj|].
  pose proof (ran_trans _ _ _ _ _ _ _ H1 H2) as H. rewrite app_nil_r in H. exact H.
Qed.

Lemma from_err s0 rs s e : from s0 rs s -> ends s0 (Err e) s.
Proof. intros [Hs H]. exists rs. auto. Qed.

Lemma from_done s0 rs s l : from s0 rs s -> last rs = Some l -> (forall c, ~ justified rs c) ->
  ends s0 (Ok (r_rc l)) s.
Proof. intros [Hs H] Hl Hn. exists rs. split; [exact Hs|]. split; [exact H|]. split; [exact Hn|]. eauto. Qed.

Lemma justified_snoc rs r c : justified (rs ++ [r]) c ->
  (r_cmd r = F /\ r_rc r <> 0 /\ ~ refused (rs ++ [r]) r /\
     (rs = [] /\ looks_transient (r_out r) = true \/
      (length rs <= 1)%nat /\ looks_locked (r_out r) = true)) \/
  (r_cmd r = X /\ r_rc r = 0) \/ (r_cmd r = F /\ r_rc r = 0).
Proof.
  destruct 1 as [He|r' He Hc Hn Hr Ht|r' He Hl Hc Hn Hr Hk|r' He Hc Hn|r' He Hc Hn].
  - destruct rs; discriminate.
  - destruct rs as [|x rs]; [|destruct rs; discriminate He]. injection He as <-. left. auto 10.
  - rewrite last_snoc in He. injection He as <-. left. rewrite length_app in Hl. cbn in Hl.
    repeat split; try assumption. right. split; [lia|exact Hk].
  - rewrite last_snoc in He. injection He as <-. auto.
  - rewrite last_snoc in He. injection He as <-. auto.
Qed.

(** The three ways to be done. *)
Lemma done_reset rs r : r_cmd r = R -> forall c, ~ justified (rs ++ [r]) c.
Proof.
  destruct commands_distinct as (D1 & D2 & D3).
  intros Hc c Hj. apply justified_snoc in Hj. intuition congruence.
Qed.

Lemma done_erase rs r : r_cmd r = X -> r_rc r <> 0 -> forall c, ~ justified (rs ++ [r]) c.
Proof.
  destruct commands_distinct as (D1 & D2 & D3).
  intros Hc Hn c Hj. apply justified_snoc in Hj. intuition congruence.
Qed.

Lemma done_flash rs r : r_cmd r = F -> r_rc r <> 0 ->
  refused (rs ++ [r]) r \/
  (rs <> [] \/ looks_transient (r_out r) = false) /\ ((1 < length rs)%nat \/ looks_locked (r_out r) = false) ->
  forall c, ~ justified (rs ++ [r]) c.
Proof.
  destruct commands_distinct as (D1 & D2 & D3).
  intros Hc Hn Hd c Hj. apply justified_snoc in Hj.
  destruct Hj as [(_ & _ & Hr & Hj)|[[? ?]|[? ?]]]; [|congruence|congruence].
  destruct Hd as [Hd|[H1 H2]]; [exact (Hr Hd)|].
  destruct Hj as [[-> Hj]|[Hj1 Hj2]]; [intuition congruence|].
  destruct H2 as [H2|H2]; [lia|congruence].
Qed.

(** ** The stages of [_flash_hex], each from any point of a supervised run *)

Lemma reset_ends log s0 rs s r : quiet log -> from s0 (rs ++ [r]) s -> r_cmd r = F -> r_rc r = 0 ->
  ends_at s0 (mbind (run_streamed E R log) (fun r => mret r.1) s).
Proof.
  intros Hq Hfrom Hc Hrc. pose proof (j_reset (rs ++ [r]) r (last_snoc _ _) Hc Hrc) as Hj. 
  apply (run_step E R log _ s (ends_at s0)); [exact Hq| |].
  - intros rc out s1 H1. apply (from_done s0 _ s1 (R, rc, out)
      (from_run _ _ _ _ _ _ _ Hfrom Hj H1) (last_snoc _ _)).
    apply done_reset. reflexivity.
  - intros e s1 H1. exact (from_cut _ _ _ _ _ e Hfrom Hj H1).
Qed.

(** What the recovery stage leaves: a finished run, or a flash that worked. *)
Definition stage (s0 : fstate) (r : result (Z + unit)) (s : fstate) : Prop :=
  match r with
  | Err e => ends s0 (Err e) s
  | Ok (inl rc) => ends s0 (Ok rc) s
  | Ok (inr _) => exists rs l, from s0 (rs ++ [l]) s /\ r_cmd l = F /\ r_rc l = 0
  end.

Definition stage_at (s : fstate) (o : result (Z + unit) * fstate) : Prop := stage s o.1 o.2.

Lemma log_return log m s0 rs s l v : quiet log -> from s0 (rs ++ [l]) s ->
  (forall c, ~ justified (rs ++ [l]) c) -> r_rc l = v ->
  stage_at s0 (mbind (log_to log m) (fun _ => mret (inl v)) s).
Proof.
  intros Hq Hfrom Hd <-. 
  apply (log_step log m _ s (stage_at s0)); [exact Hq| |].
  - intros s1 H1. exact (from_done _ _ _ l (from_log _ _ _ _ Hfrom H1) (last_snoc _ _) Hd).
  - intros e s1 H1. exact (from_err _ _ _ e (from_log _ _ _ _ Hfrom H1)).
Qed.

(** Mass erase and reflash, from a locked failure. *)
Lemma erase_stage log name s0 rs s l : quiet log -> from s0 (rs ++ [l]) s ->
  (length rs <= 1)%nat -> r_cmd l = F -> r_rc l <> 0 -> ~ refused (rs ++ [l]) l ->
  looks_locked (r_out l) = true ->
  stage_at s0 ((er <-! run_streamed E X log ;;
            if negb (er.1 =? 0) then log_to log (MEraseFailed er.1) ;;! mret (inl er.1)
            else fr <-! run_streamed E F log ;;
                 if negb (fr.1 =? 0) then
                   log_to log (MNoFirmware (or_else name uid) fr.1) ;;! mret (inl fr.1)
                 else mret (inr tt)) s).
Proof.
  intros Hq Hfrom Hlen Hc Hn Hr Hk. cbv zeta.
  assert (Hj : justified (rs ++ [l]) X).
  { apply (j_erase _ l); auto using last_snoc. rewrite length_app. cbn. lia. }
  apply (run_step E X log _ s (stage_at s0)); [exact Hq| |].
  2: { intros e s1 H1. exact (from_cut _ _ _ _ _ e Hfrom Hj H1). }
  intros rc out s1 H1. pose proof (from_run _ _ _ _ _ _ _ Hfrom Hj H1) as Hf1. cbn [fst].
  destruct (rc =? 0) eqn:Hrc; cbn [negb]; [apply Z.eqb_eq in Hrc|apply Z.eqb_neq in Hrc].
  2: { apply (log_return log _ s0 _ s1 (X, rc, out) rc Hq Hf1); [|reflexivity].
       apply done_erase; [reflexivity|exact Hrc]. }
  assert (Hj1 : justified ((rs ++ [l]) ++ [(X, rc, out)]) F).
  { apply (j_reflash _ (X, rc, out)); auto using last_snoc. }
  apply (run_step E F log _ s1 (stage_at s0)); [exact Hq| |].
  2: { intros e s2 H2. exact (from_cut _ _ _ _ _ e Hf1 Hj1 H2). }
  intros rc2 out2 s2 H2. pose proof (from_run _ _ _ _ _ _ _ Hf1 Hj1 H2) as Hf2. cbn [fst].
  destruct (rc2 =? 0) eqn:Hrc2; cbn [negb]; [apply Z.eqb_eq in Hrc2|apply Z.eqb_neq in Hrc2].
  - exists ((rs ++ [l]) ++ [(X, rc, out)]), (F, rc2, out2). auto.
  - apply (log_return log _ s0 _ s2 (F, rc2, out2) rc2 Hq Hf2); [|reflexivity].
    apply done_flash; [reflexivity|exact Hrc2|]. right. rewrite !length_app. cbn.
    split; [left; destruct rs; discriminate|left; lia].
Qed.

Lemma recover_stage log name s0 rs s l : quiet log -> from s0 (rs ++ [l]) s -> r_cmd l = F ->
  (length rs <= 1)%nat -> (r_rc l <> 0 -> ~ refused (rs ++ [l]) l /\
                           (rs <> [] \/ looks_transient (r_out l) = false)) ->
  stage_at s0 (recover E uid hex_path target_mcu log name (r_rc l) (r_out l) s).
Proof.
  intros Hq Hfrom Hc Hlen Hpre. unfold recover. cbv zeta.
  destruct (r_rc l =? 0) eqn:Hrc; cbn [negb andb]; [apply Z.eqb_eq in Hrc|apply Z.eqb_neq in Hrc].
  { exists rs, l. auto. }
  destruct (Hpre Hrc) as [Hr Ht].
  destruct (looks_locked (r_out l)) eqn:Hk.
  - apply (log_step log MErasing _ s (stage_at s0)); [exact Hq| |].
    + intros s1 H1. apply (erase_stage log name s0 rs s1 l); auto. exact (from_log _ _ _ _ Hfrom H1).
    + intros e s1 H1. exact (from_err _ _ _ e (from_log _ _ _ _ Hfrom H1)).
  - assert (Hd : forall c, ~ justified (rs ++ [l]) c) by (apply done_flash; auto).
    destruct (looks_claim_blocked (r_out l)).
    + unfold mbind at 1, mgets. apply (log_return log _ s0 rs s l); auto.
    + apply (log_return log _ s0 rs s l); auto.
Qed.

Lemma after_first log name s0 rs s l : quiet log -> from s0 (rs ++ [l]) s -> r_cmd l = F ->
  (length rs <= 1)%nat -> (r_rc l <> 0 -> ~ refused (rs ++ [l]) l /\
                           (rs <> [] \/ looks_transient (r_out l) = false)) ->
  ends_at s0 ((go_on <-! recover E uid hex_path target_mcu log name (r_rc l) (r_out l) ;;
            match go_on with
            | inl rc => mret rc
            | inr _ => r <-! run_streamed E R log ;; mret r.1
            end) s).
Proof.
  intros Hq Hfrom Hc Hlen Hpre. cbv zeta.
  pose proof (recover_stage log name s0 rs s l Hq Hfrom Hc Hlen Hpre) as H.
  unfold mbind at 1. destruct (recover _ _ _ _ _ _ _ _ s) as [[[rc|[]]|e] s1]; cbn in H; [exact H| |exact H].
  destruct H as (rs1 & l1 & Hf & Hc1 & Hrc1). exact (reset_ends log s0 rs1 s1 l1 Hq Hf Hc1 Hrc1).
Qed.

Lemma flash_and_recover_ends log name s : quiet log ->
  ends_at s (flash_and_recover E uid hex_path target_mcu log name s).
Proof.
  intros Hq. unfold flash_and_recover. cbv zeta.
  assert (Hf0 : from s [] s) by (split; [constructor|apply ran_refl]).
  pose proof (j_first [] eq_refl) as Hj0.
  apply (run_step E F log _ s (ends_at s)); [exact Hq| |].
  2: { intros e s1 H1. exact (from_cut _ _ _ _ _ e Hf0 Hj0 H1). }
  intros rc out s1 H1. pose proof (from_run _ _ _ _ _ _ _ Hf0 Hj0 H1) as Hf1. cbn [fst snd].
  destruct (negb (rc =? 0) && looks_permission_denied out) eqn:Hp.
  { apply andb_prop in Hp as [Hp1 Hp2]. apply negb_true_iff, Z.eqb_neq in Hp1.
    apply (from_done s _ s1 (F, rc, out) Hf1 (last_snoc _ _)).
    apply (done_flash [] (F, rc, out)); [reflexivity|exact Hp1|]. left. split; [reflexivity|exact Hp2]. }
  assert (Hr : rc <> 0 -> ~ refused [(F, rc, out)] (F, rc, out)).
  { intros Hn [_ Hx]. change (looks_permission_denied out = true) in Hx. rewrite Hx, andb_true_r in Hp.
    apply negb_false_iff, Z.eqb_eq in Hp. auto. }
  destruct (negb (rc =? 0) && looks_transient out) eqn:Ht.
  - apply andb_prop in Ht as [Ht1 Ht2]. apply negb_true_iff, Z.eqb_neq in Ht1.
    assert (Hj1 : justified [(F, rc, out)] F) by (apply (j_retry _ (F, rc, out)); auto).
    rewrite bind_assoc.
    apply (log_step log MRetrying _ s1 (ends_at s)); [exact Hq| |].
    2: { intros e s2 H2. exact (from_err _ _ _ e (from_log _ _ _ _ Hf1 H2)). }
    intros s2 H2. pose proof (from_log _ _ _ _ Hf1 H2) as Hf2.
    apply (run_step E F log _ s2 (ends_at s)); [exact Hq| |].
    2: { intros e s3 H3. exact (from_cut _ _ _ _ _ e Hf2 Hj1 H3). }
    intros rc2 out2 s3 H3. pose proof (from_run _ _ _ _ _ _ _ Hf2 Hj1 H3) as Hf3.
    apply (after_first log name s [(F, rc, out)] s3 (F, rc2, out2)); auto.
    intros _. split; [intros [Hx _]; discriminate Hx|]. left. discriminate.
  - apply (after_first log name s [] s1 (F, rc, out)); auto.
    cbn. intros Hn. split; [exact (Hr Hn)|]. right. change (looks_transient out = false).
    apply Z.eqb_neq in Hn. rewrite Hn in Ht. exact Ht.
Qed.

(** ** What a supervised sequence can be *)

Definition shapes : list (list (list string)) :=
  [[]; [F]; [F; F]; [F; X]; [F; F; X]; [F; X; F]; [F; F; X; F];
   [F; R]; [F; F; R]; [F; X; F; R]; [F; F; X; F; R]].

Lemma supervised_shape rs : supervised rs -> In (map r_cmd rs) shapes.
Proof.
  destruct commands_distinct as (D1 & D2 & D3).
  induction 1 as [|rs c rc out Hs IH Hj]; [left; reflexivity|].
  rewrite map_app. change (map r_cmd [(c, rc, out)]) with [c].
  assert (Hlast : forall r, last rs = Some r -> last (map r_cmd rs) = Some (r_cmd r))
    by (intros r Hr; rewrite fmap_last, Hr; reflexivity).
  assert (Hlen : length (map r_cmd rs) = length rs) by apply length_map.
  unfold shapes in *. cbn [In] in IH |- *.
  destruct Hj as [He|r He Hc Hn Hr Ht|r He Hl Hc Hn Hr Hk|r He Hc Hn|r He Hc Hn];
    try (subst rs; cbn in IH; cbn; rewrite ?Hc; clear; tauto);
    try (apply Hlast in He; rewrite Hc in He);
    repeat destruct IH as [IH|IH]; try contradiction; rewrite <- IH in *; cbn in *;
    try congruence; try lia; tauto.
Qed.

Lemma supervised_bounds rs : supervised rs ->
  (length rs <= 5)%nat /\
  (length (List.filter (fun r => bool_decide (r_cmd r = X)) rs) <= 1)%nat.
Proof.
  destruct commands_distinct as (D1 & D2 & D3). intros Hs. apply supervised_shape in Hs.
  assert (H : forall cs, map r_cmd rs = cs ->
    length rs = length cs /\ length (List.filter (fun r => bool_decide (r_cmd r = X)) rs) =
                             length (List.filter (fun c => bool_decide (c = X)) cs)).
  { intros cs <-. rewrite length_map. split; [reflexivity|]. clear.
    induction rs as [|r rs IH]; [reflexivity|].
    cbn [map List.filter]. destruct (bool_decide _); cbn [length]; rewrite IH; reflexivity. }
  unfold shapes in Hs. cbn [In] in Hs.
  repeat destruct Hs as [Hs|Hs]; try contradiction; destruct (H _ (eq_sym Hs)) as [-> ->];
    cbn [List.filter]; rewrite ?(bool_decide_eq_false_2 (F = X)) by congruence;
    rewrite ?(bool_decide_eq_false_2 (R = X)) by congruence;
    rewrite ?(bool_decide_eq_true_2 (X = X)) by reflexivity; cbn; lia.
Qed.

Lemma supervised_success rs l : supervised rs -> last rs = Some l -> r_rc l = 0 ->
  (forall c, ~ justified rs c) -> r_cmd l = R.
Proof.
  intros Hs Hl Hrc Hn. destruct Hs as [|rs c rc out Hs Hj]; [discriminate|].
  rewrite last_snoc in Hl. injection Hl as <-. unfold r_rc in Hrc. cbn in Hrc. subst rc.
  pose proof (last_snoc (c, 0, out) rs) as Hl.
  destruct Hj; try reflexivity; exfalso.
  - apply (Hn R). apply (j_reset _ _ Hl); reflexivity.
  - apply (Hn R). apply (j_reset _ _ Hl); reflexivity.
  - apply (Hn F). apply (j_reflash _ _ Hl); reflexivity.
  - apply (Hn R). apply (j_reset _ _ Hl); reflexivity.
Qed.
End Recovery.

(** C6: the flash recovery, for any pyOCD and any log callback that leaves
    the boards alone.  A bad hex file or a denied port runs no pyOCD at all
    and never reports success.  Otherwise every command that runs is
    justified by the runs before it: a retry only of one transient failure,
    never after a permission error; a mass erase only of a board whose
    flash failed with a locked signature, at most once; a reset only after
    a successful flash.  It stops only when nothing is justified, returns
    the last exit code, runs at most five commands, and returns 0 only from
    the reset. *)
Theorem recovery_supervised E uid hex_path target_mcu log name port s : quiet log ->
  let o := flash_hex_plain E uid hex_path target_mcu log name port s in
  match loadhex E hex_path s, check_device_permission E port with
  | Ok _, None => ends E target_mcu uid hex_path s o.1 o.2
  | _, _ => ran s o.2 [] [] /\ o.1 <> Ok 0
  end /\
  forall rs, supervised E target_mcu uid hex_path rs ->
    (length rs <= 5)%nat /\
    (length (List.filter (fun r => bool_decide (r_cmd r = erase_cmd E target_mcu uid)) rs) <= 1)%nat /\
    (forall l, last rs = Some l -> r_rc l = 0 ->
       (forall c, ~ justified E target_mcu uid hex_path rs c) -> r_cmd l = reset_cmd E target_mcu uid).
Proof.
  intros Hq o. split.
  - assert (Eo : o = (match loadhex E hex_path s with
      | Err e => if bad_hex e then log_to log MHexError ;;! mret 1 else mraise e
      | Ok _ => match check_device_permission E port with
                | Some p => log_to log (MPortDenied p) ;;! mret 1
                | None => flash_and_recover E uid hex_path target_mcu log name
                end
      end) s) by reflexivity.
    rewrite Eo. clear o Eo.
    assert (Hlog : forall m, let o := mbind (log_to log m) (fun _ => mret 1) s in ran s o.2 [] [] /\ o.1 <> Ok 0).
    { intros m. cbv zeta.
      apply (log_step log m _ s (fun o : result Z * fstate => ran s o.2 [] [] /\ o.1 <> Ok 0)); [exact Hq| |].
      - intros s1 H1. split; [exact H1|discriminate].
      - intros e s1 H1. split; [exact H1|discriminate]. }
    destruct (loadhex E hex_path s) as [[]|e].
    + destruct (check_device_permission E port) as [p|]; [apply (Hlog (MPortDenied p))|].
      exact (flash_and_recover_ends E target_mcu uid hex_path log name s Hq).
    + destruct (bad_hex e); [apply (Hlog MHexError)|]. split; [apply ran_refl|discriminate].
  - intros rs Hs. destruct (supervised_bounds _ _ _ _ _ Hs) as [H1 H2]. split; [exact H1|].
    split; [exact H2|]. intros l Hl Hrc Hn. exact (supervised_success _ _ _ _ rs l Hs Hl Hrc Hn).
Qed.

(** The locked board: erased once, then reflashed and reset. *)
Lemma recovery_supervised_witness :
  popens (mstate (flash_hex_plain (example_env example_spawn) "9906" "a.hex" "nrf52833" None None None)
            example_start) =
    [flash_cmd (example_env example_spawn) "nrf52833" "9906" "a.hex";
     erase_cmd (example_env example_spawn) "nrf52833" "9906";
     flash_cmd (example_env example_spawn) "nrf52833" "9906" "a.hex";
     reset_cmd (example_env example_spawn) "nrf52833" "9906"] /\
  ends (example_env example_spawn) "nrf52833" "9906" "a.hex" example_start (Ok 0)
    (mstate (flash_hex_plain (example_env example_spawn) "9906" "a.hex" "nrf52833" None None None) example_start).
Proof.
  split; [vm_compute; reflexivity|].
  exact (proj1 (recovery_supervised (example_env example_spawn) "9906" "a.hex" "nrf52833" None None None
                  example_start quiet_none)).
Defined.

(** ** A flash operation and the store *)

Lemma plain_ran E uid hex_path target_mcu log name port s : quiet log ->
  exists cmds rs, ran s (mstate (flash_hex_plain E uid hex_path target_mcu log name port) s) cmds rs.
Proof.
  intros Hq. unfold mstate.
  assert (Hlog : forall m, ran s (mbind (log_to log m) (fun _ => mret 1) s).2 [] []).
  { intros m. apply (log_step log m _ s (fun o : result Z * fstate => ran s o.2 [] [])); auto. }
  change (flash_hex_plain E uid hex_path target_mcu log name port s) with
    ((match loadhex E hex_path s with
      | Err e => if bad_hex e then log_to log MHexError ;;! mret 1 else mraise e
      | Ok _ => match check_device_permission E port with
                | Some p => log_to log (MPortDenied p) ;;! mret 1
                | None => flash_and_recover E uid hex_path target_mcu log name
                end
      end) s).
  destruct (loadhex E hex_path s) as [[]|e]; [|destruct (bad_hex e); eauto using ran_refl].
  destruct (check_device_permission E port); [eauto|].
  pose proof (flash_and_recover_ends E target_mcu uid hex_path log name s Hq) as H.
  unfold ends_at, ends in H. destruct H as (rs & _ & H).
  destruct (flash_and_recover E uid hex_path target_mcu log name s) as [[v|e] s']; cbn [fst snd] in H.
  - destruct H as (H & _). eauto.
  - destruct H as [H|(c & _ & H)]; eauto.
Qed.

(** An injected runner leaves the registry's own state alone. *)
Definition runner_quiet (op : FlashOp) : Prop :=
  forall runner, fo_runner op = Some runner -> forall cmd log s, quiet (Some log) ->
    fl_d (mstate (runner cmd log) s) = fl_d s /\ fl_tmp (mstate (runner cmd log) s) = fl_tmp s.

Definition counted (uid : string) (s : fstate) : dstate :=
  with_db (mstate (increment_flash_count uid) (dm_db (fl_d s))) (fl_d s).

(** What a flash operation that began in [s] did to the registry: nothing
    was started; or the attempt was counted; or it has not returned. *)
Definition recorded (uid : string) (s : fstate) (r : result FlashResult) (s' : fstate) : Prop :=
  (fl_d s' = fl_d s /\ popens s' = popens s /\
   forall res, r = Ok res -> exists p, res = mkFlashResult false None (Some (EPermission p))) \/
  (fl_d s' = counted uid s /\
   match r with
   | Ok res => get uid (dm_db (fl_d s)) <> None /\ (fr_success res = true <-> fr_exit_code res = Some 0)
   | Err e => get uid (dm_db (fl_d s)) = None /\ e = KeyError uid
   end) \/
  (fl_d s' = fl_d s /\ r = Err Hangs).

(** The temporary file it may leave: its own, when it has not returned or
    the file cannot be removed. *)
Definition left_file {A} (E : flash_env) (s : fstate) (r : result A) (s' : fstate) : Prop :=
  exists p text, fe_mkstemp E (fl_trace s) = Ok p /\ fl_tmp s' = dset p text (fl_tmp s) /\
    (r = Err Hangs \/ fe_unlink E (fl_trace s') p = false).

Definition flash_outcome (E : flash_env) (uid : string) (s : fstate) (r : result FlashResult) (s' : fstate) : Prop :=
  (fl_tmp s' = fl_tmp s \/ left_file E s r s') /\ recorded uid s r s'.

Lemma attempt_keeps E op uid hex_path log record s : quiet (Some log) -> runner_quiet op ->
  fl_d (mstate (attempt E op uid hex_path log record) s) = fl_d s /\
  fl_tmp (mstate (attempt E op uid hex_path log record) s) = fl_tmp s.
Proof.
  intros Hq Hr. unfold attempt. destruct (fo_runner op) as [runner|] eqn:Er; [exact (Hr _ Er _ _ s Hq)|].
  destruct (plain_ran E uid hex_path (fo_target_mcu op) (Some log)
    (Some (or_else (r ← record; dr_device_name r) uid)) (r ← record; dr_port r) s Hq)
    as (cmds & rs & H1 & H2 & _). auto.
Qed.

(** Counting the attempt, and what is returned after it. *)
Lemma count_flash_run uid s : exists r, count_flash uid s =
  (match get uid (dm_db (fl_d s)) with Some _ => Ok r | None => Err (KeyError uid) end,
   mkFstate (counted uid s) (fl_tmp s) (fl_trace s)).
Proof.
  unfold count_flash, in_daemon, in_store, counted, increment_flash_count, mstate.
  rewrite update_existing_run by (intros r; reflexivity).
  destruct (get uid (dm_db (fl_d s))) as [r|]; [exists (set_flash_count (dr_flash_count r + 1) r); reflexivity|].
  exists (virtual_device uid "" "" "" 0). reflexivity.
Qed.

Lemma counted_same uid s s1 : fl_d s1 = fl_d s -> counted uid s1 = counted uid s.
Proof. unfold counted. intros ->. reflexivity. Qed.

(** The part after the conversion touches no temporary file. *)
Definition outcome_at (uid : string) (s : fstate) (o : result FlashResult * fstate) : Prop :=
  fl_tmp o.2 = fl_tmp s /\ recorded uid s o.1 o.2.

Lemma count_outcome uid s s1 (res : FlashResult) : fl_d s1 = fl_d s -> fl_tmp s1 = fl_tmp s ->
  (fr_success res = true <-> fr_exit_code res = Some 0) ->
  outcome_at uid s (mbind (count_flash uid) (fun _ => mret res) s1).
Proof.
  intros Hd Ht Hres. destruct (count_flash_run uid s1) as [r Hc]. unfold mbind.
  rewrite Hc, (counted_same uid s s1 Hd), Hd. split.
  - destruct (get uid (dm_db (fl_d s))); exact Ht.
  - right. left. destruct (get uid (dm_db (fl_d s))); cbn; auto.
Qed.

(** An exception before the attempt. *)
Lemma early_outcome uid s e s1 : ran s s1 [] [] -> outcome_at uid s (Err e, s1).
Proof.
  intros (Hd & Ht & Hp & _). rewrite app_nil_r in Hp. split; [exact Ht|]. left. repeat split; auto. discriminate.
Qed.

Lemma find_state uid (s : fstate) : in_daemon (in_store (fun d => (find uid d, d))) s = (find uid (dm_db (fl_d s)), s).
Proof. destruct s as [d t tr]. destruct d. reflexivity. Qed.

Lemma flash_locked_outcome E op uid hex_path log s : quiet (Some log) -> runner_quiet op ->
  outcome_at uid s (flash_locked E op uid hex_path log s).
Proof.
  intros Hq Hr. pose proof (ran_refl s) as H0. unfold flash_locked.
  assert (Hv : validate_plain E hex_path s =
    (match loadhex E hex_path s with Ok _ => Ok tt | Err e => Err (if bad_hex e then HexValidationError else e) end, s)).
  { unfold validate_plain, mbind, mgets. destruct (loadhex E hex_path s) as [[]|e]; [reflexivity|].
    destruct (bad_hex e); reflexivity. }
  unfold mbind at 1. rewrite Hv. destruct (loadhex E hex_path s) as [[]|e]; [|apply early_outcome, H0].
  unfold mbind at 1. rewrite find_state. destruct (find uid (dm_db (fl_d s))) as [record|e]; [|apply early_outcome, H0].
  destruct (check_device_permission E (r ← record; dr_port r)) as [p|].
  - apply (log_step (Some log) (MPortDenied p) _ s (outcome_at uid s) Hq).
    + intros s1 (Hd & Ht & Hp & _). rewrite app_nil_r in Hp. split; [exact Ht|]. left.
      repeat split; auto. intros res [= <-]. eauto.
    + intros e s1 H1. apply early_outcome. exact H1.
  - destruct (attempt_keeps E op uid hex_path log record s Hq Hr) as [Hd Ht].
    unfold mstate in Hd, Ht. unfold mbind at 1, mcatch, mtry, mbind at 1.
    destruct (attempt E op uid hex_path log record s) as [[rc|e] s1]; cbn [snd] in Hd, Ht.
    + apply (count_outcome uid s s1 _ Hd Ht). destruct (rc =? 0) eqn:Hrc; cbn; [|].
      * apply Z.eqb_eq in Hrc. subst rc. tauto.
      * apply Z.eqb_neq in Hrc. split; congruence.
    + destruct (hung e) eqn:Hh.
      { split; [exact Ht|]. right. right. split; [exact Hd|]. destruct e; try discriminate Hh. reflexivity. }
      destruct (count_flash_run uid s1) as [r Hcr].
      assert (H : outcome_at uid s (mbind (count_flash uid)
        (fun _ => mret (mkFlashResult false None (Some (ERaised e)))) s1)).
      { apply (count_outcome uid s s1 _ Hd Ht). cbn. split; congruence. }
      unfold mbind in H |- *. rewrite Hcr in H |- *.
      destruct (get uid (dm_db (fl_d s1))); exact H.
Qed.

(** [mkstemp] names no existing file. *)
Definition fresh_tmp (E : flash_env) (s : fstate) : Prop :=
  forall p, fe_mkstemp E (fl_trace s) = Ok p -> dget p (fl_tmp s) = None.

Lemma recorded_move uid s s0 r s' tmp : recorded uid s0 r s' -> fl_d s0 = fl_d s ->
  fl_trace s0 = fl_trace s -> recorded uid s r (with_tmp tmp s').
Proof.
  intros H Hd Htr.
  assert (Hp : popens s0 = popens s) by (unfold popens; rewrite Htr; reflexivity).
  destruct H as [(H1 & H2 & H3)|[(H1 & H2)|(H1 & H2)]]; [left|right; left|right; right].
  - split; [rewrite <- Hd; exact H1|]. split; [rewrite <- Hp; exact H2|exact H3].
  - rewrite <- Hd. split; [rewrite <- (counted_same uid s s0 Hd); exact H1|exact H2].
  - split; [rewrite <- Hd; exact H1|exact H2].
Qed.

Lemma with_tmp_same s : with_tmp (fl_tmp s) s = s.
Proof. destruct s. reflexivity. Qed.

Lemma unlink_quietly_run E path s : unlink_quietly E path s =
  (Ok tt, with_tmp (if fe_unlink E (fl_trace s) path then ddel path (fl_tmp s) else fl_tmp s) s).
Proof.
  unfold unlink_quietly, mtry, os_unlink, mret. destruct (fe_unlink E (fl_trace s) path); [reflexivity|].
  rewrite with_tmp_same. reflexivity.
Qed.

(** The end of a conversion: the file is removed, or left. *)
Lemma removed_or_left {A} E p text s (r : result A) s' : fe_mkstemp E (fl_trace s) = Ok p -> dget p (fl_tmp s) = None ->
  fl_tmp s' = dset p text (fl_tmp s) ->
  let s'' := mstate (unlink_quietly E p) s' in
  fl_tmp s'' = fl_tmp s \/ left_file E s r s''.
Proof.
  intros Hm Hn Ht. unfold mstate. rewrite unlink_quietly_run. cbn [snd with_tmp fl_tmp]. rewrite Ht.
  destruct (fe_unlink E (fl_trace s') p) eqn:Hu.
  - left. rewrite ddel_dset. apply ddel_absent. exact Hn.
  - right. exists p, text. split; [exact Hm|]. split; [reflexivity|]. right. exact Hu.
Qed.

(** What goes on around a body that keeps the temporary files. *)
Lemma around_body {A} E p text s (body : M fstate A) s0 : fe_mkstemp E (fl_trace s) = Ok p -> dget p (fl_tmp s) = None ->
  fl_tmp (mstate body s0) = dset p text (fl_tmp s) ->
  let o := mafter body (unlink_quietly E p) s0 in
  o.1 = mresult body s0 /\ (fl_tmp o.2 = fl_tmp s \/ left_file E s o.1 o.2) /\
  exists tmp, o.2 = with_tmp tmp (mstate body s0).
Proof.
  intros Hm Hn Ht. unfold mafter, mstate, mresult in *. destruct (body s0) as [r s1]. cbn [fst snd] in *.
  pose proof (removed_or_left E p text s r s1 Hm Hn Ht) as H. cbv zeta in H. unfold mstate in H.
  rewrite unlink_quietly_run in H |- *. cbn [snd] in H.
  assert (G : forall x, x = (r, with_tmp (if fe_unlink E (fl_trace s1) p then ddel p (fl_tmp s1) else fl_tmp s1) s1) ->
    x.1 = r /\ (fl_tmp x.2 = fl_tmp s \/ left_file E s x.1 x.2) /\ exists tmp, x.2 = with_tmp tmp s1).
  { intros x ->. eauto. }
  destruct r as [a|e]; [exact (G _ eq_refl)|]. destruct e; try exact (G _ eq_refl). cbn [fst snd].
  split; [reflexivity|]. split; [right; exists p, text; auto|]. exists (fl_tmp s1). symmetry. apply with_tmp_same.
Qed.

Definition whole_outcome (E : flash_env) (uid : string) (s : fstate) (o : result FlashResult * fstate) : Prop :=
  flash_outcome E uid s o.1 o.2.

Lemma with_normalized_outcome E uid hex_path target_mcu body s : fresh_tmp E s ->
  (forall path s0, fl_d s0 = fl_d s -> fl_trace s0 = fl_trace s -> outcome_at uid s0 (body path s0)) ->
  whole_outcome E uid s (with_normalized_hex E hex_path target_mcu body s).
Proof.
  intros Hf Hb. unfold with_normalized_hex. pose proof (ran_refl s) as H0.
  assert (Hs : forall o, outcome_at uid s o -> whole_outcome E uid s o) by (intros o [H1 H2]; split; auto).
  unfold mbind at 1, mgets. destruct (fe_open E (fl_tmp s) hex_path) as [text|]; [|apply Hs, Hb; reflexivity].
  destruct (negb (is_universal_hex text)); [apply Hs, Hb; reflexivity|].
  unfold mbind at 1, mlift at 1. destruct (extract_for_mcu text target_mcu) as [converted|e]; [|apply Hs, early_outcome, H0].
  unfold mbind at 1. destruct (fe_mkstemp E (fl_trace s)) as [tmp|e] eqn:Et; [|apply Hs, early_outcome, H0].
  pose proof (Hf _ Et) as Hfresh.
  set (m := mmodify (fun s1 => with_tmp (dset tmp "" (fl_tmp s1)) s1) ;;! _).
  assert (Hm : exists text s0, fl_d s0 = fl_d s /\ fl_trace s0 = fl_trace s /\ fl_tmp s0 = dset tmp text (fl_tmp s) /\
    outcome_at uid s0 (m s)).
  { subst m. unfold mmodify, mbind, mlift. destruct (write_ascii converted) as [[]|e]; cbn [fst snd].
    - eexists converted, _. split; [|split; [|split; [|apply Hb]]]; try reflexivity. cbn [with_tmp fl_tmp]. apply dset_dset.
    - eexists "", _. split; [|split; [|split; [|apply early_outcome, ran_refl]]]; reflexivity. }
  destruct Hm as (t & s0 & Hd & Htr & Htm & Ho1 & Ho2). rewrite Htm in Ho1.
  destruct (around_body E tmp t s m s Et Hfresh Ho1) as (R1 & R2 & (tp & R3)).
  split; [exact R2|]. cbv zeta in R1, R3. rewrite R1, R3. exact (recorded_move uid s s0 _ _ tp Ho2 Hd Htr).
Qed.

(** C26: what a flash operation does to the registry, whatever pyOCD, the
    hex files and the log do: without a flash lock on the board it refuses
    and nothing happens; with one, it leaves no temporary file, but for its
    own, when that cannot be removed or pyOCD has not ended yet; and either
    no pyOCD was started, nothing was recorded, and the answer is an
    exception or the denied port; or the attempt was counted exactly once
    and the answer reports it, a success exactly on exit code 0 (a
    [KeyError] if the row is gone); or it still waits for a pyOCD that does
    not end, and nothing was recorded. *)
Theorem flash_hex_outcome E op uid hex_path log s :
  quiet (Some log) -> runner_quiet op -> fresh_tmp E s ->
  let o := flash_hex E op uid hex_path log s in
  match dget uid (dm_locks (fl_d s)) with
  | Some st => if String.eqb (ls_kind st) KIND_FLASH then flash_outcome E uid s o.1 o.2
               else o = (Err (FlashLockNotHeldError uid), s)
  | None => o = (Err (FlashLockNotHeldError uid), s)
  end.
Proof.
  intros Hq Hr Hf o.
  assert (Eo : o = (if negb match dget uid (dm_locks (fl_d s)) with
                            | Some st => String.eqb (ls_kind st) KIND_FLASH | None => false end
    then mraise (FlashLockNotHeldError uid)
    else mtry (with_normalized_hex E hex_path (fo_target_mcu op) (fun p => flash_locked E op uid p log))
           (fun e => match e with UniversalHexError => Some (mraise TypeError) | _ => None end)) s) by reflexivity.
  rewrite Eo. clear o Eo.
  destruct (dget uid (dm_locks (fl_d s))) as [st|]; [|reflexivity].
  destruct (String.eqb (ls_kind st) KIND_FLASH); [|reflexivity]. cbn [negb].
  assert (H : whole_outcome E uid s (with_normalized_hex E hex_path (fo_target_mcu op)
    (fun p => flash_locked E op uid p log) s)).
  { apply with_normalized_outcome; [exact Hf|]. intros path s0 _ _. apply flash_locked_outcome; assumption. }
  unfold mtry, whole_outcome in *.
  destruct (with_normalized_hex _ _ _ _ s) as [[res|e] s']; [exact H|].
  destruct e; try exact H. cbn [fst snd] in *. destruct H as (Ht & Hrec). split.
  - destruct Ht as [Ht|(p & text & H1 & H2 & [H3|H3])]; [auto|discriminate|].
    right. exists p, text. auto.
  - destruct Hrec as [(H1 & H2 & _)|[(_ & _ & H1)|(_ & H1)]]; [|discriminate|discriminate].
    left. repeat split; auto. discriminate.
Qed.

Definition example_flashing : fstate :=
  mkFstate (with_locks [("9906", mkLockStatus KIND_FLASH (mkHolder "local" "1" None None) None 5)]
    (initial (mstate (upsert_attached "9906" "/dev/ttyACM0" "0d28:0204" 3) empty_db))) [] [].

(** A board flashed; and one whose pyOCD prints on, which stays locked and
    uncounted. *)
Lemma flash_hex_outcome_witness :
  mresult (flash_hex (example_env example_spawn) (mkFlashOp None DEFAULT_MCU) "9906" "a.hex" recorder)
    example_flashing = Ok (mkFlashResult true (Some 0) None) /\
  flash_outcome (example_env example_spawn) "9906" example_flashing (Ok (mkFlashResult true (Some 0) None))
    (mstate (flash_hex (example_env example_spawn) (mkFlashOp None DEFAULT_MCU) "9906" "a.hex" recorder)
       example_flashing) /\
  mresult (flash_hex (example_env (fun _ _ => Ok printing_proc)) (mkFlashOp None DEFAULT_MCU) "9906" "a.hex" recorder)
    example_flashing = Err Hangs /\
  fl_d (mstate (flash_hex (example_env (fun _ _ => Ok printing_proc)) (mkFlashOp None DEFAULT_MCU) "9906" "a.hex" recorder)
    example_flashing) = fl_d example_flashing.
Proof.
  split; [vm_compute; reflexivity|]. split; [|split; vm_compute; reflexivity].
  exact (flash_hex_outcome (example_env example_spawn) (mkFlashOp None DEFAULT_MCU) "9906" "a.hex" recorder
    example_flashing quiet_recorder (fun r (H : None = Some r) => ltac:(discriminate H))
    (fun p H => eq_refl)).
Defined.

(** A Universal Hex without the target's image: the handler's own
    constructor call fails, so [TypeError] escapes instead of
    [HexValidationError]; [validate_hex] raises the right one. *)
Lemma no_image_raises_type_error E op uid hex_path log s st text :
  dget uid (dm_locks (fl_d s)) = Some st -> ls_kind st = KIND_FLASH ->
  fe_open E (fl_tmp s) hex_path = Some text -> is_universal_hex text = true ->
  extract_for_mcu text (fo_target_mcu op) = Err UniversalHexError ->
  mresult (flash_hex E op uid hex_path log) s = Err TypeError /\
  mresult (validate_hex E op hex_path) s = Err HexValidationError.
Proof.
  intros Hl Hk Ho Hu He.
  unfold mresult, flash_hex, validate_hex, mtry, with_normalized_hex, mbind, mgets, mlift.
  rewrite Hl, Hk. change (String.eqb KIND_FLASH KIND_FLASH) with true. cbn [negb].
  rewrite Ho, Hu. cbn [negb]. rewrite He. split; reflexivity.
Qed.
