(* ===== verification/EventBus.v ===== *)
(** * [registry/eventbus.py]: fan-out to the current watchers

    A queue is named by its creation number; it outlives its subscription,
    as a reference to the object does.  Each method is atomic: the set is
    read under the lock, and a put on an unbounded queue cannot fail. *)

From S2P Require Import Prelude Tables Json.
Local Open Scope py_scope.

Record bus := mkBus {
  bus_queues : list (list json);       (* every queue ever created *)
  bus_subscribers : list nat }.

Definition empty_bus : bus := mkBus [] [].

Definition subscribe : M bus nat := fun b =>
  let q := length (bus_queues b) in
  (Ok q, mkBus (bus_queues b ++ [[]]) (bus_subscribers b ++ [q])).

(** [set.discard]. *)
Definition unsubscribe (q : nat) : M bus unit :=
  mmodify (fun b => mkBus (bus_queues b) (List.filter (fun p => negb (Nat.eqb p q)) (bus_subscribers b))).

Definition put (q : nat) (event : json) : M bus unit :=
  mmodify (fun b => mkBus (alter (fun l => l ++ [event]) q (bus_queues b)) (bus_subscribers b)).

Definition publish (event : json) : M bus unit :=
  subscribers <-! mgets bus_subscribers ;;
  mfor subscribers (fun q => put q event).

Inductive bus_op := BSubscribe | BUnsubscribe (q : nat) | BPublish (event : json).

Definition bus_exec (o : bus_op) (b : bus) : bus :=
  match o with
  | BSubscribe => mstate subscribe b
  | BUnsubscribe q => mstate (unsubscribe q) b
  | BPublish e => mstate (publish e) b
  end.

Definition run_ops (l : list bus_op) (b : bus) : bus := fold_left (fun b o => bus_exec o b) l b.

(** What queue [q] should have received: the events published after its
    creation and before its first removal. *)
Fixpoint delivered (q : nat) (created : nat) (live : bool) (l : list bus_op) : list json :=
  match l with
  | [] => []
  | BSubscribe :: l' => delivered q (S created) (live || Nat.eqb created q) l'
  | BUnsubscribe p :: l' => delivered q created (live && negb (Nat.eqb p q)) l'
  | BPublish e :: l' => (if live then [e] else []) ++ delivered q created live l'
  end.

Definition bus_ok (b : bus) : Prop :=
  NoDup (bus_subscribers b) /\ Forall (fun q => (q < length (bus_queues b))%nat) (bus_subscribers b).

Lemma put_all event l b : NoDup l ->
  mstate (mfor l (fun q => put q event)) b =
  mkBus (imap (fun q x => if bool_decide (q ∈ l) then x ++ [event] else x) (bus_queues b)) (bus_subscribers b).
Proof.
  revert b. induction l as [|q l IH]; intros b Hn.
  - destruct b as [qs ss]. cbn. f_equal. apply list_eq. intros i. rewrite list_lookup_imap.
    destruct (qs !! i); reflexivity.
  - apply NoDup_cons in Hn as [Hq Hn]. unfold mstate in *. cbn [mfor]. unfold mbind, put, mmodify at 1.
    rewrite IH by exact Hn. cbn [bus_queues bus_subscribers]. f_equal. apply list_eq. intros i.
    rewrite !list_lookup_imap. destruct (decide (i = q)) as [->|Hi].
    + rewrite list_lookup_alter_eq. destruct (bus_queues b !! q); [|reflexivity]. cbn.
      rewrite bool_decide_eq_false_2 by exact Hq. rewrite bool_decide_eq_true_2 by left. reflexivity.
    + rewrite list_lookup_alter_ne by congruence. destruct (bus_queues b !! i); [|reflexivity]. cbn. f_equal.
      erewrite bool_decide_ext; [reflexivity|]. rewrite elem_of_cons. intuition congruence.
Qed.

Lemma publish_state event b : bus_ok b -> bus_exec (BPublish event) b =
  mkBus (imap (fun q x => if bool_decide (q ∈ bus_subscribers b) then x ++ [event] else x) (bus_queues b))
    (bus_subscribers b).
Proof. intros [H _]. exact (put_all event (bus_subscribers b) b H). Qed.

Lemma bus_exec_ok o b : bus_ok b -> bus_ok (bus_exec o b).
Proof.
  intros Hb. pose proof Hb as [H1 H2]. destruct o as [|q|e]; [cbn|cbn|].
  - split; cbn.
    + apply NoDup_app. split; [exact H1|]. split; [|apply NoDup_singleton].
      intros x Hx Hy. apply list_elem_of_singleton in Hy. subst x.
      rewrite Forall_forall in H2. specialize (H2 _ Hx). lia.
    + rewrite length_app. cbn. apply Forall_app. split; [|constructor; [lia|constructor]].
      eapply Forall_impl; [exact H2|]. intros x Hx. cbn in Hx. lia.
  - split; cbn; [|apply List.Forall_forall; intros x Hx; apply filter_In in Hx as [Hx _];
      rewrite List.Forall_forall in H2; apply H2; exact Hx].
    induction H1 as [|x l Hx H1 IH]; [constructor|]. cbn. inversion H2; subst.
    destruct (negb (Nat.eqb x q)); [|auto]. constructor; [|auto].
    rewrite list_elem_of_In, filter_In, <- list_elem_of_In. tauto.
  - rewrite publish_state by exact Hb. split; [exact H1|]. cbn. rewrite length_imap. exact H2.
Qed.

Lemma subscribed_after o b q : bus_ok b ->
  bool_decide (q ∈ bus_subscribers (bus_exec o b)) =
  match o with
  | BSubscribe => bool_decide (q ∈ bus_subscribers b) || Nat.eqb (length (bus_queues b)) q
  | BUnsubscribe p => bool_decide (q ∈ bus_subscribers b) && negb (Nat.eqb p q)
  | BPublish _ => bool_decide (q ∈ bus_subscribers b)
  end.
Proof.
  intros Hb. destruct o as [|p|e]; [cbn|cbn|].
  - apply eq_true_iff_eq. rewrite orb_true_iff, !bool_decide_eq_true, elem_of_app, list_elem_of_singleton, Nat.eqb_eq.
    intuition congruence.
  - apply eq_true_iff_eq. rewrite andb_true_iff, !bool_decide_eq_true, !list_elem_of_In, filter_In, Nat.eqb_sym. tauto.
  - rewrite publish_state by exact Hb. reflexivity.
Qed.

Lemma queue_after o b q l : bus_ok b -> bus_queues b !! q = Some l ->
  bus_queues (bus_exec o b) !! q =
  Some (l ++ match o with BPublish e => if bool_decide (q ∈ bus_subscribers b) then [e] else [] | _ => [] end).
Proof.
  intros Hb Hq. destruct o as [|p|e]; [cbn|cbn|].
  - rewrite lookup_app_l by (apply lookup_lt_Some in Hq; exact Hq). rewrite app_nil_r. exact Hq.
  - rewrite app_nil_r. exact Hq.
  - rewrite publish_state by exact Hb. cbn. rewrite list_lookup_imap, Hq. cbn.
    destruct (bool_decide _); rewrite ?app_nil_r; reflexivity.
Qed.

Lemma queues_length o b : bus_ok b -> length (bus_queues (bus_exec o b)) =
  match o with BSubscribe => S (length (bus_queues b)) | _ => length (bus_queues b) end.
Proof.
  intros Hb. destruct o as [|p|e]; [cbn; rewrite length_app; cbn; lia|reflexivity|].
  rewrite publish_state by exact Hb. cbn. apply length_imap.
Qed.

Lemma run_delivers l : forall b q have, bus_ok b ->
  bus_queues b !! q = Some have ->
  bus_queues (run_ops l b) !! q =
  Some (have ++ delivered q (length (bus_queues b)) (bool_decide (q ∈ bus_subscribers b)) l).
Proof.
  induction l as [|o l IH]; intros b q have Hb Hq; [cbn; rewrite app_nil_r; exact Hq|].
  cbn [run_ops fold_left]. change (fold_left _ l (bus_exec o b)) with (run_ops l (bus_exec o b)).
  rewrite (IH _ _ _ (bus_exec_ok o b Hb) (queue_after o b q have Hb Hq)).
  rewrite queues_length, subscribed_after, <- app_assoc by exact Hb. f_equal. f_equal.
  destruct o; reflexivity.
Qed.

(** A watcher receives, in order and exactly once each, exactly the
    events published from its subscription until its first removal,
    whatever the other watchers do and however often it is removed. *)
Theorem watch_exact before after :
  let b := run_ops before empty_bus in
  bus_queues (run_ops (BSubscribe :: after) b) !! length (bus_queues b) =
  Some (delivered (length (bus_queues b)) (S (length (bus_queues b))) true after).
Proof.
  intros b.
  assert (Hb : bus_ok b).
  { subst b. assert (H0 : bus_ok empty_bus) by (split; [constructor|constructor]).
    revert H0. generalize empty_bus. induction before as [|o l IH]; intros b0 H0; [exact H0|].
    apply (IH (bus_exec o b0)). apply bus_exec_ok. exact H0. }
  cbn [run_ops fold_left]. change (fold_left _ after (bus_exec BSubscribe b)) with (run_ops after (bus_exec BSubscribe b)).
  rewrite (run_delivers after (bus_exec BSubscribe b) (length (bus_queues b)) [] (bus_exec_ok BSubscribe b Hb)).
  - rewrite (queues_length BSubscribe b Hb), (subscribed_after BSubscribe b _ Hb), Nat.eqb_refl, orb_true_r.
    reflexivity.
  - cbn. rewrite lookup_app_r by lia. rewrite Nat.sub_diag. reflexivity.
Qed.
