(* ===== verification/Peering.v ===== *)
(** * [registry/peering.py]: replication between registries

    What a registry sends its peers and how it applies what a peer sends:
    snapshots, live events, the link's dropped flag and resync.  Messages
    are JSON values, after [json.loads].  ZeroMQ, mDNS and threads are the
    environment: a snapshot request's outcome is an argument, and what other
    threads do while it is awaited is an arbitrary computation.

    Bounds: a text field of a message is a string or null, a channel or
    group an integer, as every registry sends them; any other type raises
    [TypeError] before the row is touched, where SQLite would convert it. *)

From S2P Require Import Prelude Tables Naming Json Identity Virtual Store StoreNames Locks EventBus.
Local Open Scope py_scope.

Definition EVENT_ATTACH : string := "attach".
Definition EVENT_DETACH : string := "detach".
Definition EVENT_IDENTITY : string := "identity".
Definition EVENT_LOCK_STATE : string := "lock_state".
Definition EVENT_NAME_SET : string := "name_set".
Definition EVENT_NAME_CLEAR : string := "name_clear".
Definition EVENT_PEER_UP : string := "peer_up".
Definition EVENT_PEER_DOWN : string := "peer_down".

(** ** Wire values *)

Definition jopt (v : option string) : json := match v with Some s => JStr s | None => JNull end.

Definition jtime (since : option Z) : json :=
  match since with Some us => JFloat (FFin us 1000000) | None => JNull end.

(** [v == s] for a string [s]. *)
Definition is_str (s : string) (v : json) : bool :=
  match v with JStr t => String.eqb t s | _ => false end.

(** A field as the store's text parameter. *)
Definition text_of (v : json) : result (option string) :=
  match v with JStr s => Ok (Some s) | JNull => Ok None | _ => Err TypeError end.
Definition int_of (v : json) : result Z :=
  match v with JInt z => Ok z | _ => Err TypeError end.
(** A uid: [None] finds no row. *)
Definition uid_of (v : json) : result string :=
  match v with JStr s => Ok s | JNull => Err (KeyError "None") | _ => Err TypeError end.

(** [data.get(k) or ""]. *)
Definition get_or_empty (k : string) (data : list (string * json)) : result string :=
  match jget k data with JStr s => Ok s | v => if truthy v then Err TypeError else Ok "" end.

(** [data[k]] on an object. *)
Definition item (k : string) (data : list (string * json)) : result json :=
  match dget k data with Some v => Ok v | None => Err (KeyError k) end.

Definition probe_result_from_dict (data : list (string * json)) : result ProbeResult :=
  let! role := get_or_empty "role" data in
  let! common_name := get_or_empty "common_name" data in
  let! device_name := get_or_empty "device_name" data in
  let! serial := get_or_empty "serial_payload" data in
  let! raw := get_or_empty "raw_announcement" data in
  Ok (mkProbeResult role common_name device_name serial raw).

(** ** What this host sends *)

Definition snapshot_device (r : DeviceRecord) : json :=
  JObj [("uid", JStr (dr_uid r)); ("port", jopt (dr_port r)); ("vid_pid", jopt (dr_vid_pid r));
        ("state", JStr (dr_state r)); ("role", jopt (dr_role r)); ("common_name", jopt (dr_common_name r));
        ("device_name", jopt (dr_device_name r)); ("serial_payload", jopt (dr_serial_payload r));
        ("raw_announcement", jopt (dr_raw_announcement r))].

Definition snapshot_payload (d : db) : list json := map snapshot_device (snapshot_local_devices d).

Definition name_entry (e : Entry) : json :=
  JObj [("name", JStr (en_name e)); ("channel", JInt (en_channel e)); ("group", JInt (en_group e));
        ("source", JStr (en_source e)); ("updated", jtime (Some (en_updated e)))].

Definition snapshot_name_payload (d : db) : list json := map name_entry (listing d).

(** [_rep_loop]'s reply to one request; [None] is a request that is not
    JSON. *)
Definition token_ok (auth_token : string) (message : option json) : bool :=
  match message with
  | Some (JObj data) => is_str auth_token (jget "token" data)
  | _ => false
  end.

Definition rep_reply (auth_token : option string) (message : option json) (d : db) : json :=
  let refused := match auth_token with Some t => negb (token_ok t message) | None => false end in
  if refused then JObj [("error", JStr "unauthorized")]
  else JObj [("devices", JList (snapshot_payload d)); ("names", JList (snapshot_name_payload d))].

Definition daemon_event_payload (event_type : string) (r : DeviceRecord) : option (list (string * json)) :=
  if (String.eqb event_type EVENT_ATTACH || String.eqb event_type EVENT_IDENTITY)
     && String.eqb (dr_state r) STATE_DISCONNECTED then None
  else
    let extra := if is_virtual r then [("simulated", JBool true)] else [] in
    Some (if String.eqb event_type EVENT_ATTACH then
            [("uid", JStr (dr_uid r)); ("port", jopt (dr_port r)); ("vid_pid", jopt (dr_vid_pid r))] ++ extra
          else if String.eqb event_type EVENT_DETACH then [("uid", JStr (dr_uid r))] ++ extra
          else
            [("uid", JStr (dr_uid r)); ("state", JStr (dr_state r)); ("role", jopt (dr_role r));
             ("common_name", jopt (dr_common_name r)); ("device_name", jopt (dr_device_name r));
             ("serial_payload", jopt (dr_serial_payload r));
             ("raw_announcement", jopt (dr_raw_announcement r))] ++ extra).

Definition lock_event_payload (uid : string) (kind display label : option string) (since : option Z)
    : list (string * json) :=
  [("uid", JStr uid); ("kind", jopt kind); ("display", jopt display); ("label", jopt label);
   ("since", jtime since)].

Definition name_set_payload (e : Entry) : list (string * json) :=
  [("name", JStr (en_name e)); ("channel", JInt (en_channel e)); ("group", JInt (en_group e));
   ("source", JStr (en_source e)); ("updated", jtime (Some (en_updated e)))].

Definition name_clear_payload (name : string) : list (string * json) := [("name", JStr name)].

(** The PUB socket: the messages sent so far, [None] before [start]. *)
Definition pub : Type := option (list json).

(** [{"type": ..., "host": ..., **payload}]. *)
Definition publish_event (host event_type : string) (payload : list (string * json)) : M pub unit :=
  mmodify (option_map (fun sent =>
    sent ++ [JObj (fold_left (fun d kv => dset kv.1 kv.2 d) payload
                     [("type", JStr event_type); ("host", JStr host)])])).

Definition publish_daemon_event (host event_type : string) (r : DeviceRecord) : M pub unit :=
  if is_virtual r then mret tt
  else match daemon_event_payload event_type r with
       | None => mret tt
       | Some payload => publish_event host event_type payload
       end.

Definition publish_lock_event (host uid : string) (kind display label : option string)
    (since : option Z) (now : Z) : M pub unit :=
  if is_virtual_uid uid then mret tt
  else
    let suffix := format_lock_suffix label since now in
    let wire_display := option_map (fun d => (d +:+ suffix)%string) display in
    publish_event host EVENT_LOCK_STATE (lock_event_payload uid kind wire_display label since).

Definition publish_name_set (host : string) (e : Entry) : M pub unit :=
  publish_event host EVENT_NAME_SET (name_set_payload e).
Definition publish_name_clear (host name : string) : M pub unit :=
  publish_event host EVENT_NAME_CLEAR (name_clear_payload name).

(** ** Applying what a peer sends *)

Definition attributed_to (d : db) (uid host : string) : bool :=
  match get uid d with None => true | Some r => bool_decide (dr_host r = Some host) end.

Definition quietly {A} (m : M db A) : M db unit := m ;;! mret tt.

(** Which store method a reported state maps to. *)
Definition apply_state (uid : string) (state : json) (data : list (string * json)) (now : Z) : M db unit :=
  if is_str STATE_CONNECTED state then
    p <-! mlift (probe_result_from_dict data) ;; quietly (apply_remote_probe uid (Some p) now)
  else if is_str STATE_ATTACHED_NO_ANNOUNCE state then
    quietly (apply_remote_probe uid None now)
  else if is_str STATE_CONNECTED_NO_FIRMWARE state then
    quietly (apply_known_blank uid now)
  else mret tt.

(** [_apply_snapshot_device]; [now] and [now'] are the clock at its two
    writes. *)
Definition apply_snapshot_device (host : string) (data : list (string * json)) (now now' : Z) : M db unit :=
  uid <-! mlift (let! v := item "uid" data in uid_of v) ;;
  port <-! mlift (text_of (jget "port" data)) ;;
  vid_pid <-! mlift (text_of (jget "vid_pid" data)) ;;
  upsert_remote_attached uid host port vid_pid now ;;!
  record <-! mgets (get uid) ;;
  match record with
  | None => mret tt
  | Some r =>
      if negb (bool_decide (dr_host r = Some host)) then mret tt
      else if is_str STATE_DISCONNECTED (jget "state" data) then
        quietly (mark_remote_detached uid now')
      else apply_state uid (jget "state" data) data now'
  end.

Definition apply_snapshot_name (data : list (string * json)) (now : Z) : M db unit :=
  name <-! mlift (item "name" data) ;;
  channel <-! mlift (item "channel" data) ;;
  group <-! mlift (item "group" data) ;;
  name <-! mlift (let! t := text_of name in match t with Some s => Ok s | None => Err AttributeError end) ;;
  channel <-! mlift (int_of channel) ;;
  group <-! mlift (int_of group) ;;
  quietly (StoreNames.set name channel group now).

Definition is_null (v : json) : bool := match v with JNull => true | _ => false end.

(** The dispatch of [_apply_event], inside its [try]. *)
Definition dispatch_event (host : string) (event : list (string * json)) (now : Z) : M db unit :=
  let event_type := jget "type" event in
  let owned (k : string -> M db unit) : M db unit :=
    uid <-! mlift (uid_of (jget "uid" event)) ;;
    ok <-! mgets (fun d => attributed_to d uid host) ;;
    if ok then k uid else mret tt in
  if is_str EVENT_ATTACH event_type then
    uid <-! mlift (match jget "uid" event with JStr u => Ok u | _ => Err TypeError end) ;;
    port <-! mlift (text_of (jget "port" event)) ;;
    vid_pid <-! mlift (text_of (jget "vid_pid" event)) ;;
    quietly (upsert_remote_attached uid host port vid_pid now)
  else if is_str EVENT_DETACH event_type then
    owned (fun uid => quietly (mark_remote_detached uid now))
  else if is_str EVENT_IDENTITY event_type then
    owned (fun uid => apply_state uid (jget "state" event) event now)
  else if is_str EVENT_LOCK_STATE event_type then
    owned (fun uid =>
      kind <-! mlift (text_of (jget "kind" event)) ;;
      display <-! mlift (text_of (jget "display" event)) ;;
      quietly (apply_remote_lock_state uid kind display))
  else if is_str EVENT_NAME_SET event_type then
    if is_null (jget "name" event) || is_null (jget "channel" event) || is_null (jget "group" event)
    then mret tt
    else apply_snapshot_name event now
  else if is_str EVENT_NAME_CLEAR event_type then
    match jget "name" event with
    | JNull => mret tt
    | JStr name => clear name
    | _ => mraise TypeError
    end
  else mret tt.

Definition is_key_error (e : py_exc) : bool := match e with KeyError _ => true | _ => false end.

(** [_apply_event]: a [KeyError] is logged and dropped. *)
Definition apply_event (host : string) (event : list (string * json)) (now : Z) : M db unit :=
  mtry (dispatch_event host event now) (fun e => if is_key_error e then Some (mret tt) else None).

(** One round of [_recv_loop]: anything the message makes it raise is
    logged and dropped; [None] is a message that is not JSON. *)
Definition recv_message (host : string) (message : option json) (now : Z) : M db unit :=
  mtry match message with
       | Some (JObj event) => apply_event host event now
       | _ => mraise ValueError
       end (fun _ => Some (mret tt)).

(** ** A peer link *)

Record pstate := mkPstate {
  p_db : db;
  p_tick : nat;
  p_link_dropped : bool;
  p_resync_guard : bool;
  p_stopped : bool;
  p_bus : bus }.

Definition p_with_db (d : db) (s : pstate) : pstate :=
  mkPstate d (p_tick s) (p_link_dropped s) (p_resync_guard s) (p_stopped s) (p_bus s).
Definition p_with_dropped (b : bool) (s : pstate) : pstate :=
  mkPstate (p_db s) (p_tick s) b (p_resync_guard s) (p_stopped s) (p_bus s).
Definition p_with_guard (b : bool) (s : pstate) : pstate :=
  mkPstate (p_db s) (p_tick s) (p_link_dropped s) b (p_stopped s) (p_bus s).
Definition p_in_bus {A} (m : M bus A) : M pstate A :=
  fun s => let (r, b) := m (p_bus s) in
           (r, mkPstate (p_db s) (p_tick s) (p_link_dropped s) (p_resync_guard s) (p_stopped s) b).
(** A store write reading the clock; [k] readings are spent. *)
Definition p_in_store {A} (m : M db A) : M pstate A :=
  fun s => let (r, d) := m (p_db s) in (r, p_with_db d s).

(** What the snapshot request got: no answer in time, or a reply, [None]
    when it is not JSON. *)
Inductive fetch_reply := NoAnswer | Reply (value : option json).

Section PeerLink.
Variable clock : nat -> Z.
Variable host : string.            (* the peer's *)
(** The request's outcome, and what other threads do while it is awaited
    and between the lock's release and the last check. *)
Variable request : nat -> fetch_reply.
Variables meanwhile afterwards : M pstate unit.

Definition p_now : M pstate Z := fun s =>
  (Ok (clock (p_tick s)),
   mkPstate (p_db s) (S (p_tick s)) (p_link_dropped s) (p_resync_guard s) (p_stopped s) (p_bus s)).

Definition peer_event (event_type : string) : json := JObj [("type", JStr event_type); ("host", JStr host)].

(** [_on_peer_unreachable] and [_on_peer_reachable]. *)
Definition on_peer (reachable : bool) : M pstate unit :=
  mtry (p_in_store (set_peer_reachable host reachable) ;;! mret tt)
    (fun e => if is_key_error e then Some (mret tt) else None) ;;!
  p_in_bus (publish (peer_event (if reachable then EVENT_PEER_UP else EVENT_PEER_DOWN))).

(** Iterating a JSON value. *)
Definition iterate (v : json) : result (list json) :=
  match v with
  | JList l => Ok l
  | JObj kvs => Ok (map (fun kv => JStr kv.1) kvs)
  | JStr s => Ok (map (fun c => JStr (String c "")) (list_ascii_of_string s))
  | _ => Err TypeError
  end.

(** [x.get("uid")], as an element of a set. *)
Definition uid_in_set (v : json) : result json :=
  match v with
  | JObj data => match jget "uid" data with JList _ | JObj _ => Err TypeError | u => Ok u end
  | _ => Err AttributeError
  end.

Fixpoint map_result {A B} (f : A -> result B) (l : list A) : result (list B) :=
  match l with
  | [] => Ok []
  | x :: l' => let! y := f x in let! ys := map_result f l' in Ok (y :: ys)
  end.

(** [try: apply(data) except Exception: log(data.get(...))]. *)
Definition apply_logged (apply : list (string * json) -> M pstate unit) (v : json) : M pstate unit :=
  match v with
  | JObj data => mtry (apply data) (fun _ => Some (mret tt))
  | _ => mraise AttributeError
  end.

(** The rows of this peer that its snapshot does not list. *)
Definition missing_from (seen : list json) (r : DeviceRecord) : bool :=
  bool_decide (dr_host r = Some host) &&
  negb (existsb (is_str (dr_uid r)) seen) &&
  negb (String.eqb (dr_state r) STATE_DISCONNECTED).

Definition detach_if_missing (seen : list json) (r : DeviceRecord) : M pstate unit :=
  if missing_from seen r then
    now <-! p_now ;;
    mtry (p_in_store (mark_remote_detached (dr_uid r) now) ;;! mret tt)
      (fun e => if is_key_error e then Some (mret tt) else None)
  else mret tt.

Definition detach_missing (seen : list json) : M pstate unit :=
  records <-! mgets (fun s => list_devices (p_db s)) ;;
  mfor records (detach_if_missing seen).

(** The part of [_fetch_snapshot] under the lock. *)
Definition apply_snapshot (reply : list (string * json)) : M pstate unit :=
  devices <-! mlift (iterate (jget_or "devices" (JList []) reply)) ;;
  mfor devices (apply_logged (fun data =>
    now <-! p_now ;; now' <-! p_now ;; p_in_store (apply_snapshot_device host data now now'))) ;;!
  seen <-! mlift (map_result uid_in_set devices) ;;
  detach_missing seen ;;!
  entries <-! mlift (iterate (jget_or "names" (JList []) reply)) ;;
  mfor entries (apply_logged (fun data =>
    now <-! p_now ;; p_in_store (apply_snapshot_name data now))).

Definition fetch_snapshot : M pstate bool :=
  tick <-! mgets p_tick ;;
  meanwhile ;;!
  match request tick with
  | NoAnswer => on_peer false ;;! mret false
  | Reply None => mret false
  | Reply (Some (JObj reply)) =>
      match dget "error" reply with
      | Some _ => mret false
      | None =>
          apply_snapshot reply ;;!
          afterwards ;;!
          dropped <-! mgets p_link_dropped ;;
          if dropped then mret false
          else on_peer true ;;! mret true
      end
  | Reply (Some _) => mret false
  end.

(** The guard of [resync] and [_run_force_resync]. *)
Definition guarded (m : M pstate bool) : M pstate bool :=
  busy <-! mgets p_resync_guard ;;
  if busy then mret false
  else
    mmodify (p_with_guard true) ;;!
    mfinally m (mmodify (p_with_guard false)).

Definition resync : M pstate bool :=
  idle <-! mgets (fun s => p_stopped s || negb (p_link_dropped s)) ;;
  if idle then mret false
  else guarded (
    mmodify (p_with_dropped false) ;;!
    ok <-! fetch_snapshot ;;
    (if ok then mret tt else mmodify (p_with_dropped true)) ;;!
    mret ok).

Definition force_resync : M pstate bool :=
  stopped <-! mgets p_stopped ;;
  if stopped then mret false else guarded fetch_snapshot.

(** A drop seen by [_monitor_loop]. *)
Definition on_disconnected : M pstate unit :=
  mmodify (p_with_dropped true) ;;! on_peer false.

(** A reconnect seen by it: whether a resync is started. *)
Definition on_reconnected : M pstate bool :=
  mgets (fun s => p_link_dropped s && negb (p_stopped s)).
End PeerLink.
