(* ===== verification/PeeringFacts.v ===== *)
(** * Properties of replication

    What a peer can and cannot change here, and what its snapshot leaves. *)

From S2P Require Import Prelude Tables Naming Json Identity Virtual Store StoreFacts StoreNames Locks EventBus Peering.
Local Open Scope py_scope.

(** ** What a message from [host] may do to a row

    Nothing; or leave a row attributed to [host], where the row was already
    its own, or the message claims the board ([att]) and the claim is not
    rejected, or the message claims a board unknown here. *)
Definition touched (host : string) (att : Prop) (o o' : option DeviceRecord) : Prop :=
  o' = o \/
  exists r', o' = Some r' /\ dr_host r' = Some host /\
    match o with
    | Some r => dr_host r = Some host \/ att /\ rejects_claim (Some host) r = false
    | None => att
    end.

Definition step (host : string) (att : string -> Prop) (s s' : db) : Prop :=
  keys_ok s' /\ peers s' = peers s /\ forall k, touched host (att k) (get k s) (get k s').

Lemma step_refl host att s : keys_ok s -> step host att s s.
Proof. intros H. split; [exact H|]. split; [reflexivity|]. intros k. left. reflexivity. Qed.

Lemma step_trans host att s1 s2 s3 : step host att s1 s2 -> step host att s2 s3 -> step host att s1 s3.
Proof.
  intros (_ & P1 & T1) (K2 & P2 & T2). split; [exact K2|]. split; [congruence|]. intros k.
  destruct (T1 k) as [E1|(r1 & E1 & H1 & C1)]; destruct (T2 k) as [E2|(r2 & E2 & H2 & C2)];
    rewrite ?E1 in *.
  - left. congruence.
  - right. exists r2. auto.
  - right. exists r1. rewrite E2. auto.
  - right. exists r2. auto.
Qed.

Lemma step_weaken host (att att' : string -> Prop) s s' : (forall k, att k -> att' k) ->
  step host att s s' -> step host att' s s'.
Proof.
  intros Ha (K & P & T). split; [exact K|]. split; [exact P|]. intros k.
  destruct (T k) as [E|(r & E & H & C)]; [left; exact E|right]. exists r. split; [exact E|]. split; [exact H|].
  destruct (get k s); [destruct C as [C|[C1 C2]]; auto|auto].
Qed.

(** A change of another table. *)
Lemma step_names host att s l : unique en_name l -> keys_ok s -> step host att s (set_names l s).
Proof.
  intros Hl (H1 & H2 & _). split; [repeat split; assumption|]. split; [reflexivity|]. intros k. left. reflexivity.
Qed.

Lemma upsert_step host (att : string -> Prop) uid port vid_pid now s : keys_ok s -> att uid ->
  step host att s (mstate (upsert_remote_attached uid host port vid_pid now) s).
Proof.
  intros Hs Ha. unfold upsert_remote_attached.
  destruct (upsert_device_row uid (Some host) port vid_pid now s Hs) as (_ & Hk & Hg & Hother & Hsame).
  split; [exact Hk|]. split.
  - unfold mstate. rewrite upsert_device_run. destruct (get uid s); [destruct (rejects_claim _ _)|]; reflexivity.
  - intros k. destruct (decide (k = uid)) as [->|Hne]; [|left; apply Hother; exact Hne].
    rewrite Hg. unfold upserted. destruct (get uid s) as [e|].
    + destruct (rejects_claim (Some host) e) eqn:Hrej; [left; reflexivity|right].
      eexists. split; [reflexivity|]. split; [|right; auto].
      unfold row_upserted. destruct (is_disconnected e); reflexivity.
    + right. eexists. split; [reflexivity|]. split; [reflexivity|exact Ha].
Qed.

Definition keeps_host (f : DeviceRecord -> DeviceRecord) : Prop :=
  keeps_uid f /\ forall r, dr_host (f r) = dr_host r.

(** An update of a row that is [host]'s, or absent. *)
Lemma update_step host att uid f s : keys_ok s -> keeps_host f -> attributed_to s uid host = true ->
  step host att s (mstate (quietly (update_existing uid f)) s).
Proof.
  intros Hs [Hf Hh] Ha. unfold quietly. rewrite bind_ret_state. unfold mstate.
  rewrite update_existing_run by exact Hf. unfold attributed_to in Ha.
  destruct (get uid s) as [r|] eqn:Hg; [|apply step_refl; exact Hs].
  apply bool_decide_eq_true in Ha. cbn [snd]. split; [apply keys_tupd; assumption|]. split; [reflexivity|].
  intros k. rewrite get_tupd by exact Hf. destruct (bool_decide_reflect (uid = k)) as [<-|Hne]; [|left; reflexivity].
  rewrite Hg. right. eexists. split; [reflexivity|]. split; [rewrite Hh; exact Ha|left; exact Ha].
Qed.

Ltac keeps_host_tac := split; intro; reflexivity.

Lemma keeps_probe res now : keeps_host match res with
    | Some p => row_probed p now
    | None => row_silent STATE_ATTACHED_NO_ANNOUNCE ERROR_NOTE_NO_ANNOUNCEMENT now
    end.
Proof. destruct res; keeps_host_tac. Qed.

(** Stepping over a conversion. *)
Lemma lift_step {A B} host att (r : result A) (k : A -> M db B) s : keys_ok s ->
  (forall a, r = Ok a -> step host att s (mstate (k a) s)) ->
  step host att s (mstate (mbind (mlift r) k) s).
Proof.
  intros Hs H. unfold mstate, mbind, mlift. destruct r as [a|e]; [exact (H a eq_refl)|apply step_refl; exact Hs].
Qed.

Lemma apply_state_step host att uid state data now s : keys_ok s -> attributed_to s uid host = true ->
  step host att s (mstate (apply_state uid state data now) s).
Proof.
  intros Hs Ha. unfold apply_state, apply_remote_probe, apply_probe_result, apply_known_blank.
  destruct (is_str STATE_CONNECTED state).
  { apply lift_step; [exact Hs|]. intros p _. apply update_step; [exact Hs|apply (keeps_probe (Some p))|exact Ha]. }
  destruct (is_str STATE_ATTACHED_NO_ANNOUNCE state).
  { apply update_step; [exact Hs|apply (keeps_probe None)|exact Ha]. }
  destruct (is_str STATE_CONNECTED_NO_FIRMWARE state); [|apply step_refl; exact Hs].
  apply update_step; [exact Hs|keeps_host_tac|exact Ha].
Qed.

Lemma name_step host att data now s : keys_ok s -> step host att s (mstate (apply_snapshot_name data now) s).
Proof.
  intros Hs. unfold apply_snapshot_name. repeat (apply lift_step; [exact Hs|]; intros).
  unfold quietly. rewrite bind_ret_state. unfold mstate. rewrite set_run.
  destruct (validate _) as [v|e]; [|apply step_refl; exact Hs]. cbv zeta. cbn [snd].
  apply step_names; [|exact Hs]. destruct Hs as (_ & _ & Hs).
  destruct (get_name_row v s) as [e|] eqn:Hg; [apply unique_tupd; auto|apply unique_snoc; [exact Hs|exact Hg]].
Qed.

(** The boards a message claims. *)
Definition claims (event : list (string * json)) (k : string) : Prop :=
  is_str EVENT_ATTACH (jget "type" event) = true /\ jget "uid" event = JStr k.

Lemma owned_step host att event (k : string -> M db unit) s : keys_ok s ->
  (forall uid, attributed_to s uid host = true -> step host att s (mstate (k uid) s)) ->
  step host att s (mstate (uid <-! mlift (uid_of (jget "uid" event)) ;;
    ok <-! mgets (fun d => attributed_to d uid host) ;; if ok then k uid else mret tt) s).
Proof.
  intros Hs H. apply lift_step; [exact Hs|]. intros uid _. unfold mstate, mbind, mgets.
  destruct (attributed_to s uid host) eqn:Ha; [exact (H uid Ha)|apply step_refl; exact Hs].
Qed.

Lemma dispatch_step host event now s : keys_ok s ->
  step host (claims event) s (mstate (dispatch_event host event now) s).
Proof.
  intros Hs. unfold dispatch_event. cbv zeta.
  destruct (is_str EVENT_ATTACH (jget "type" event)) eqn:Hatt.
  { apply lift_step; [exact Hs|]. intros uid Hu. apply lift_step; [exact Hs|]. intros port _.
    apply lift_step; [exact Hs|]. intros vp _. unfold quietly. rewrite bind_ret_state.
    apply upsert_step; [exact Hs|]. split; [exact Hatt|].
    destruct (jget "uid" event); congruence. }
  destruct (is_str EVENT_DETACH (jget "type" event)).
  { apply owned_step; [exact Hs|]. intros uid Ha. apply update_step; [exact Hs|keeps_host_tac|exact Ha]. }
  destruct (is_str EVENT_IDENTITY (jget "type" event)).
  { apply owned_step; [exact Hs|]. intros uid Ha. apply apply_state_step; assumption. }
  destruct (is_str EVENT_LOCK_STATE (jget "type" event)).
  { apply owned_step; [exact Hs|]. intros uid Ha. repeat (apply lift_step; [exact Hs|]; intros).
    apply update_step; [exact Hs|keeps_host_tac|exact Ha]. }
  destruct (is_str EVENT_NAME_SET (jget "type" event)).
  { destruct (_ || _ || _); [apply step_refl; exact Hs|apply name_step; exact Hs]. }
  destruct (is_str EVENT_NAME_CLEAR (jget "type" event)); [|apply step_refl; exact Hs].
  destruct (jget "name" event); try (apply step_refl; exact Hs).
  unfold mstate. rewrite clear_run. destruct (validate _); [|apply step_refl; exact Hs].
  apply step_names; [apply unique_tdel, Hs|exact Hs].
Qed.

(** Catching an exception and going on changes nothing. *)
Lemma try_state {S} (m : M S unit) (P : py_exc -> bool) s :
  mstate (mtry m (fun e => if P e then Some (mret tt) else None)) s = mstate m s.
Proof. unfold mstate, mtry. destruct (m s) as [[[]|e] s']; [reflexivity|]. destruct (P e); reflexivity. Qed.

Lemma try_all_state {S} (m : M S unit) s : mstate (mtry m (fun _ => Some (mret tt))) s = mstate m s.
Proof. exact (try_state m (fun _ => true) s). Qed.

Definition message_claims (message : option json) (k : string) : Prop :=
  match message with Some (JObj event) => claims event k | _ => False end.

Lemma recv_step host message now s : keys_ok s ->
  step host (message_claims message) s (mstate (recv_message host message now) s).
Proof.
  intros Hs. unfold recv_message. rewrite try_all_state.
  destruct message as [[| | | | | |event]|]; try (apply step_refl; exact Hs).
  unfold apply_event. rewrite try_state. apply dispatch_step. exact Hs.
Qed.

(** ** Snapshots *)

Definition pstep (host : string) (att : string -> Prop) (s s' : pstate) : Prop :=
  step host att (p_db s) (p_db s').

Definition psteps {A} (host : string) (att : string -> Prop) (m : M pstate A) : Prop :=
  forall s, keys_ok (p_db s) -> pstep host att s (mstate m s).

Lemma psteps_ret {A} host att (a : A) : psteps host att (mret a).
Proof. intros s Hs. apply step_refl. exact Hs. Qed.
Lemma psteps_raise {A} host att e : psteps host att (mraise (A:=A) e).
Proof. intros s Hs. apply step_refl. exact Hs. Qed.
Lemma psteps_lift {A} host att (r : result A) : psteps host att (mlift r).
Proof. intros s Hs. apply step_refl. exact Hs. Qed.
Lemma psteps_gets {A} host att (f : pstate -> A) : psteps host att (mgets f).
Proof. intros s Hs. apply step_refl. exact Hs. Qed.
Lemma psteps_now clock host att : psteps host att (p_now clock).
Proof. intros s Hs. apply step_refl. exact Hs. Qed.

Lemma psteps_bind {A B} host att (m : M pstate A) (k : A -> M pstate B) :
  psteps host att m -> (forall a, psteps host att (k a)) -> psteps host att (mbind m k).
Proof.
  intros Hm Hk s Hs. specialize (Hm s Hs). unfold pstep, mstate, mbind in *.
  destruct (m s) as [[a|e] s']; cbn [snd] in *; [|exact Hm].
  exact (step_trans _ _ _ _ _ Hm (Hk a s' (proj1 Hm))).
Qed.

Lemma psteps_for {A} host att (l : list A) body : (forall a, In a l -> psteps host att (body a)) ->
  psteps host att (mfor l body).
Proof.
  induction l as [|x l IH]; intros H; [apply psteps_ret|]. cbn [mfor].
  apply psteps_bind; [apply H; left; reflexivity|]. intros _. apply IH. intros a Ha. apply H. right. exact Ha.
Qed.

Lemma psteps_try host att (m : M pstate unit) (P : py_exc -> bool) : psteps host att m ->
  psteps host att (mtry m (fun e => if P e then Some (mret tt) else None)).
Proof. intros H s Hs. rewrite (try_state m P). exact (H s Hs). Qed.

Lemma psteps_store {A} host att (m : M db A) :
  (forall d, keys_ok d -> step host att d (mstate m d)) -> psteps host att (p_in_store m).
Proof.
  intros H s Hs. specialize (H _ Hs). unfold pstep, mstate, p_in_store in *.
  destruct (m (p_db s)) as [r d]. exact H.
Qed.

Lemma snapshot_device_step host data now now' d : keys_ok d ->
  step host (fun k => jget "uid" data = JStr k) d (mstate (apply_snapshot_device host data now now') d).
Proof.
  intros Hd. unfold apply_snapshot_device. apply lift_step; [exact Hd|]. intros uid Hu.
  apply lift_step; [exact Hd|]. intros port _. apply lift_step; [exact Hd|]. intros vp _.
  assert (Hatt : jget "uid" data = JStr uid).
  { unfold item in Hu. unfold jget. destruct (dget "uid" data) as [v|]; [|discriminate].
    destruct v; cbn in Hu; congruence. }
  pose proof (upsert_step host (fun k => jget "uid" data = JStr k) uid port vp now d Hd Hatt) as H1.
  unfold mstate in *. unfold mbind at 1.
  destruct (upsert_remote_attached uid host port vp now d) as [[r0|e] d1]; cbn [snd] in *; [|exact H1].
  unfold mbind, mgets. destruct (get uid d1) as [r|] eqn:Hg; [|exact H1].
  destruct (bool_decide_reflect (dr_host r = Some host)) as [Hh|]; cbn [negb]; [|exact H1].
  apply (step_trans _ _ _ _ _ H1).
  assert (Ha : attributed_to d1 uid host = true)
    by (unfold attributed_to; rewrite Hg; apply bool_decide_eq_true; exact Hh).
  destruct (is_str STATE_DISCONNECTED (jget "state" data)).
  - apply update_step; [apply H1|keeps_host_tac|exact Ha].
  - apply apply_state_step; [apply H1|exact Ha].
Qed.

(** The boards a snapshot claims. *)
Definition listed (v : json) (k : string) : Prop :=
  exists l data, iterate v = Ok l /\ In (JObj data) l /\ jget "uid" data = JStr k.

Definition snapshot_claims (reply : list (string * json)) : string -> Prop :=
  listed (jget_or "devices" (JList []) reply).

Lemma apply_logged_steps host att (apply : list (string * json) -> M pstate unit) v :
  (forall data, v = JObj data -> psteps host att (apply data)) -> psteps host att (apply_logged apply v).
Proof.
  intros H. unfold apply_logged. destruct v; try apply psteps_raise.
  apply (psteps_try host att _ (fun _ => true)). apply H. reflexivity.
Qed.

Lemma psteps_lift_bind {A B} host att (r : result A) (k : A -> M pstate B) :
  (forall a, r = Ok a -> psteps host att (k a)) -> psteps host att (mbind (mlift r) k).
Proof.
  intros H s Hs. unfold mstate, mbind, mlift. destruct r as [a|e]; [exact (H a eq_refl s Hs)|].
  apply step_refl. exact Hs.
Qed.

Lemma detach_row_run clock host seen r s : get (dr_uid r) (p_db s) <> None ->
  missing_from host seen r = true ->
  let f := fun r => set_last_seen (clock (p_tick s)) (set_state STATE_DISCONNECTED r) in
  detach_if_missing clock host seen r s =
  (Ok tt, mkPstate (set_devices (tupd dr_uid (dr_uid r) f (devices (p_db s))) (p_db s)) (S (p_tick s))
            (p_link_dropped s) (p_resync_guard s) (p_stopped s) (p_bus s)).
Proof.
  intros Hg Hm f. unfold detach_if_missing. rewrite Hm. unfold mbind at 1, p_now, mtry, mbind, p_in_store.
  cbn [p_db]. unfold mark_remote_detached, mark_disconnected.
  rewrite update_existing_run by (intros r'; reflexivity).
  destruct (get (dr_uid r) (p_db s)); [reflexivity|congruence].
Qed.

Lemma detach_row_step clock host att seen r s : keys_ok (p_db s) ->
  (missing_from host seen r = true -> exists e, get (dr_uid r) (p_db s) = Some e /\ dr_host e = Some host) ->
  pstep host att s (mstate (detach_if_missing clock host seen r) s).
Proof.
  intros Hs H. destruct (missing_from host seen r) eqn:Hm.
  - destruct (H eq_refl) as (e & Hg & Hh). unfold mstate. rewrite detach_row_run by (congruence || exact Hm).
    pose proof (update_step host att (dr_uid r)
      (fun r => set_last_seen (clock (p_tick s)) (set_state STATE_DISCONNECTED r)) (p_db s) Hs) as Hu.
    unfold quietly in Hu. rewrite bind_ret_state in Hu. unfold mstate in Hu.
    rewrite update_existing_run in Hu by (intros r'; reflexivity). rewrite Hg in Hu.
    apply Hu; [keeps_host_tac|]. unfold attributed_to. rewrite Hg. apply bool_decide_eq_true. exact Hh.
  - unfold detach_if_missing. rewrite Hm. apply step_refl. exact Hs.
Qed.

Lemma owned_after host att s s' k e : step host att s s' -> get k s = Some e -> dr_host e = Some host ->
  exists e', get k s' = Some e' /\ dr_host e' = Some host.
Proof.
  intros (_ & _ & T) Hg Hh. destruct (T k) as [E|(r & E & H & _)]; [exists e; rewrite E; auto|eauto].
Qed.

Lemma missing_owned host seen r : missing_from host seen r = true -> dr_host r = Some host.
Proof.
  unfold missing_from. rewrite !andb_true_iff, bool_decide_eq_true. tauto.
Qed.

Lemma detach_all_steps clock host att seen l : forall s, keys_ok (p_db s) ->
  (forall r, In r l -> missing_from host seen r = true ->
     exists e, get (dr_uid r) (p_db s) = Some e /\ dr_host e = Some host) ->
  pstep host att s (mstate (mfor l (detach_if_missing clock host seen)) s).
Proof.
  induction l as [|r l IH]; intros s Hs H; [apply step_refl; exact Hs|].
  pose proof (detach_row_step clock host att seen r s Hs (H r (or_introl eq_refl))) as H1.
  unfold mstate in *. cbn [mfor]. unfold mbind at 1.
  destruct (detach_if_missing clock host seen r s) as [[[]|e] s1]; cbn [snd] in *; [|exact H1].
  apply (step_trans _ _ _ _ _ H1). apply IH; [apply H1|]. intros r' Hr' Hm.
  destruct (H r' (or_intror Hr') Hm) as (e & Hg & Hh). exact (owned_after _ _ _ _ _ _ H1 Hg Hh).
Qed.

Lemma detach_steps clock host att seen : psteps host att (detach_missing clock host seen).
Proof.
  intros s Hs. apply (detach_all_steps clock host att seen (devices (p_db s)) s Hs).
  intros r Hr Hm. exists r. split; [apply tfind_unique; [apply Hs|exact Hr]|].
  exact (missing_owned _ _ _ Hm).
Qed.

Lemma snapshot_steps clock host reply :
  psteps host (snapshot_claims reply) (apply_snapshot clock host reply).
Proof.
  unfold apply_snapshot, snapshot_claims. apply psteps_lift_bind. intros l Hl.
  apply psteps_bind; [|intros _; apply psteps_lift_bind; intros seen _; apply psteps_bind;
    [apply detach_steps|intros _; apply psteps_lift_bind; intros entries _]].
  - apply psteps_for. intros v Hv. apply apply_logged_steps. intros data ->.
    apply psteps_bind; [apply psteps_now|]. intros now. apply psteps_bind; [apply psteps_now|]. intros now'.
    apply psteps_store. intros d Hd. eapply step_weaken; [|apply snapshot_device_step; exact Hd].
    intros k Hk. exists l, data. auto.
  - apply psteps_for. intros v _. apply apply_logged_steps. intros data ->.
    apply psteps_bind; [apply psteps_now|]. intros now. apply psteps_store. intros d Hd.
    apply name_step. exact Hd.
Qed.

(** Everything a peer can send: a message on its event stream, or a
    snapshot reply. *)
Inductive peer_input :=
| PMessage (host : string) (message : option json) (now : Z)
| PSnapshot (host : string) (reply : list (string * json)).

Definition input_host (i : peer_input) : string :=
  match i with PMessage h _ _ => h | PSnapshot h _ => h end.
Definition input_claims (i : peer_input) (k : string) : Prop :=
  match i with PMessage _ m _ => message_claims m k | PSnapshot _ reply => snapshot_claims reply k end.
Definition peer_exec (clock : nat -> Z) (i : peer_input) (s : pstate) : pstate :=
  match i with
  | PMessage h m now => mstate (p_in_store (recv_message h m now)) s
  | PSnapshot h reply => mstate (apply_snapshot clock h reply) s
  end.

Lemma peer_exec_step clock i s : keys_ok (p_db s) ->
  step (input_host i) (input_claims i) (p_db s) (p_db (peer_exec clock i s)).
Proof.
  intros Hs. destruct i as [h m now|h reply]; cbn [peer_exec input_host input_claims].
  - apply (psteps_store h (message_claims m)); [|exact Hs]. intros d Hd. apply recv_step. exact Hd.
  - apply snapshot_steps. exact Hs.
Qed.

(** what a peer may change here, by any message or snapshot, well
    formed or not: it creates only rows it claims, attributed to it; it
    changes only rows already attributed to it, or rows it claims when the
    claim is not rejected; it removes none and leaves the peer table alone. *)
Theorem peer_input_effect clock i s k :
  keys_ok (p_db s) ->
  let d := p_db s in let d' := p_db (peer_exec clock i s) in
  keys_ok d' /\ peers d' = peers d /\
  match get k d, get k d' with
  | None, None => True
  | Some _, None => False
  | None, Some r' => dr_host r' = Some (input_host i) /\ input_claims i k
  | Some r, Some r' =>
      r' = r \/
      dr_host r' = Some (input_host i) /\
      (dr_host r = Some (input_host i) \/
       input_claims i k /\ rejects_claim (Some (input_host i)) r = false)
  end.
Proof.
  intros Hs d d'. destruct (peer_exec_step clock i s Hs) as (Hk & Hp & T).
  split; [exact Hk|]. split; [exact Hp|]. fold d d' in T.
  destruct (T k) as [E|(r' & E & Hh & C)]; rewrite E.
  - destruct (get k d); auto.
  - destruct (get k d); auto.
Qed.

(** C9: a board attached here stays as it is, and so does a row of another
    host that no sender claims, whatever any number of peers send in any
    order. *)
Theorem local_boards_safe clock l s k r :
  keys_ok (p_db s) -> get k (p_db s) = Some r ->
  (dr_host r = None /\ dr_state r <> STATE_DISCONNECTED) \/
  (forall i, In i l -> dr_host r <> Some (input_host i) /\ ~ input_claims i k) ->
  get k (p_db (fold_left (fun s i => peer_exec clock i s) l s)) = Some r.
Proof.
  revert s. induction l as [|i l IH]; intros s Hs Hg Hr; [exact Hg|]. cbn [fold_left].
  destruct (peer_exec_step clock i s Hs) as (Hk & _ & T). apply IH; [exact Hk| |].
  - destruct (T k) as [E|(r' & E & Hh & C)]; [congruence|]. rewrite Hg in C. exfalso.
    destruct Hr as [[H1 H2]|H].
    + destruct C as [C|[_ C]]; [congruence|]. unfold rejects_claim in C.
      rewrite H1, bool_decide_eq_false_2, bool_decide_eq_true_2, bool_decide_eq_false_2 in C by (discriminate || reflexivity || exact H2).
      discriminate C.
    + destruct (H i (or_introl eq_refl)) as [H1 H2]. tauto.
  - destruct Hr as [Hr|Hr]; [left; exact Hr|right]. intros j Hj. apply Hr. right. exact Hj.
Qed.

(** ** What a whole snapshot leaves *)

(** The fields a peer replicates of a row. *)
Definition wire_announcement (r : DeviceRecord) : list (option string) :=
  map (fun o => Some (default "" o))
    [dr_role r; dr_common_name r; dr_device_name r; dr_serial_payload r; dr_raw_announcement r].
Definition announced (r : DeviceRecord) : list (option string) :=
  [dr_role r; dr_common_name r; dr_device_name r; dr_serial_payload r; dr_raw_announcement r].

Definition PROBED_STATES : list string :=
  [STATE_CONNECTED; STATE_ATTACHED_NO_ANNOUNCE; STATE_CONNECTED_NO_FIRMWARE].

(** [r'] is the peer's copy of the sender's row [r]. *)
Definition copy_of (host : string) (r r' : DeviceRecord) : Prop :=
  dr_host r' = Some host /\ dr_port r' = dr_port r /\ dr_vid_pid r' = dr_vid_pid r /\
  dr_state r' <> STATE_DISCONNECTED /\
  (In (dr_state r) PROBED_STATES -> dr_state r' = dr_state r) /\
  (dr_state r = STATE_CONNECTED -> announced r' = wire_announcement r).

Definition replica (host : string) (r : DeviceRecord) (o o' : option DeviceRecord) : Prop :=
  match o with
  | Some e => if rejects_claim (Some host) e then o' = Some e else exists r', o' = Some r' /\ copy_of host r r'
  | None => exists r', o' = Some r' /\ copy_of host r r'
  end.

Lemma text_of_jopt o : text_of (jopt o) = Ok o.
Proof. destruct o; reflexivity. Qed.

Lemma is_str_eq s t : is_str s (JStr t) = bool_decide (t = s).
Proof.
  cbn. destruct (bool_decide_reflect (t = s)) as [->|E]; [apply String.eqb_refl|].
  apply String.eqb_neq. exact E.
Qed.

(** What a message says of a row's announcement. *)
Definition probe_of_row (r : DeviceRecord) : ProbeResult :=
  mkProbeResult (default "" (dr_role r)) (default "" (dr_common_name r)) (default "" (dr_device_name r))
    (default "" (dr_serial_payload r)) (default "" (dr_raw_announcement r)).

Lemma probe_of_snapshot r fields : snapshot_device r = JObj fields ->
  probe_result_from_dict fields =
  Ok (probe_of_row r).
Proof.
  intros [= <-]. unfold probe_of_row, probe_result_from_dict, get_or_empty.
  destruct (dr_role r), (dr_common_name r), (dr_device_name r), (dr_serial_payload r), (dr_raw_announcement r);
    reflexivity.
Qed.

(** The state layer on a row that is the peer's, from any message that says
    the announcement. *)
Lemma apply_state_run host r fields uid now d e : keys_ok d -> probe_result_from_dict fields = Ok (probe_of_row r) ->
  get uid d = Some e -> dr_host e = Some host -> dr_port e = dr_port r -> dr_vid_pid e = dr_vid_pid r ->
  dr_state e <> STATE_DISCONNECTED ->
  let d' := mstate (apply_state uid (JStr (dr_state r)) fields now) d in
  mresult (apply_state uid (JStr (dr_state r)) fields now) d = Ok tt /\
  keys_ok d' /\ (forall k, k <> uid -> get k d' = get k d) /\
  exists r', get uid d' = Some r' /\ copy_of host r r'.
Proof.
  intros Hd Hf Hg Hh Hp Hv Hst d'.
  assert (Hupd : forall f, keeps_host f -> (forall x, dr_port (f x) = dr_port x) ->
    (forall x, dr_vid_pid (f x) = dr_vid_pid x) -> copy_of host r (f e) ->
    let m := quietly (update_existing uid f) in
    mresult m d = Ok tt /\ keys_ok (mstate m d) /\ (forall k, k <> uid -> get k (mstate m d) = get k d) /\
    exists r', get uid (mstate m d) = Some r' /\ copy_of host r r').
  { intros f [Hfu _] _ _ Hc m. unfold m, quietly. rewrite bind_ret_state, bind_ret_result.
    unfold mstate, mresult. rewrite update_existing_run, Hg by exact Hfu. cbn [fst snd].
    split; [reflexivity|]. split; [apply keys_tupd; assumption|]. split.
    - intros k Hne. rewrite get_tupd, bool_decide_eq_false_2 by (exact Hfu || congruence). reflexivity.
    - exists (f e). rewrite get_tupd, bool_decide_eq_true_2, Hg by (exact Hfu || reflexivity). auto. }
  subst d'. unfold apply_state. rewrite !is_str_eq.
  destruct (bool_decide_reflect (dr_state r = STATE_CONNECTED)) as [E|N1].
  { rewrite Hf. unfold mresult, mstate, mbind at 1 2 3 4, mlift.
    apply (Hupd (row_probed _ now)); try reflexivity; [keeps_host_tac|].
    repeat split; cbn; auto. }
  destruct (bool_decide_reflect (dr_state r = STATE_ATTACHED_NO_ANNOUNCE)) as [E|N2].
  { apply (Hupd (row_silent _ _ now)); try reflexivity; [keeps_host_tac|].
    repeat split; cbn; auto; (discriminate || congruence). }
  destruct (bool_decide_reflect (dr_state r = STATE_CONNECTED_NO_FIRMWARE)) as [E|N3].
  { apply (Hupd (row_silent _ _ now)); try reflexivity; [keeps_host_tac|].
    repeat split; cbn; auto; (discriminate || congruence). }
  split; [reflexivity|]. split; [exact Hd|]. split; [reflexivity|]. exists e. split; [exact Hg|].
  repeat split; auto; [|congruence]. intros [E|[E|[E|[]]]]; congruence.
Qed.

Lemma row_upserted_live host port vid_pid now e :
  dr_state (row_upserted (is_disconnected e) host port vid_pid now e) <> STATE_DISCONNECTED.
Proof.
  unfold row_upserted, is_disconnected. destruct (bool_decide_reflect (dr_state e = STATE_DISCONNECTED)) as [E|E];
    [discriminate|exact E].
Qed.

Lemma snapshot_device_run host r fields now now' d : keys_ok d -> snapshot_device r = JObj fields ->
  dr_state r <> STATE_DISCONNECTED ->
  let m := apply_snapshot_device host fields now now' in
  mresult m d = Ok tt /\ keys_ok (mstate m d) /\
  (forall k, k <> dr_uid r -> get k (mstate m d) = get k d) /\
  replica host r (get (dr_uid r) d) (get (dr_uid r) (mstate m d)).
Proof.
  intros Hd Hf Hst m.
  destruct (upsert_device_row (dr_uid r) (Some host) (dr_port r) (dr_vid_pid r) now d Hd)
    as (Hr & Hk & Hg & Hother & Hsame).
  set (d1 := mstate (upsert_device (dr_uid r) (Some host) (dr_port r) (dr_vid_pid r) now) d) in *.
  assert (Em : m d = (match get (dr_uid r) d1 with
    | None => mret tt
    | Some e => if negb (bool_decide (dr_host e = Some host)) then mret tt
                else apply_state (dr_uid r) (JStr (dr_state r)) fields now'
    end) d1).
  { pose proof Hf as Hf'. injection Hf' as <-. unfold m, apply_snapshot_device, mbind at 1 2 3, mlift.
    match goal with |- context[jget "port" ?f] => change (jget "port" f) with (jopt (dr_port r)) end.
    match goal with |- context[jget "vid_pid" ?f] => change (jget "vid_pid" f) with (jopt (dr_vid_pid r)) end.
    match goal with |- context[jget "state" ?f] => change (jget "state" f) with (JStr (dr_state r)) end.
    match goal with |- context[result_bind (item "uid" ?f) ?k] =>
      change (result_bind (item "uid" f) k) with (Ok (dr_uid r)) end.
    cbv iota. rewrite !text_of_jopt. cbv iota. unfold upsert_remote_attached.
    rewrite (bind_result _ _ _ _ Hr). fold d1. unfold mbind at 1, mgets.
    destruct (get (dr_uid r) d1); [|reflexivity]. destruct (negb _); [reflexivity|].
    rewrite is_str_eq, bool_decide_eq_false_2 by exact Hst. reflexivity. }
  unfold mresult, mstate. rewrite Em, Hg. unfold replica.
  assert (Hcase : dr_host (upserted (Some host) (dr_port r) (dr_vid_pid r) (dr_uid r) now (get (dr_uid r) d)) = Some host ->
     dr_port (upserted (Some host) (dr_port r) (dr_vid_pid r) (dr_uid r) now (get (dr_uid r) d)) = dr_port r ->
     dr_vid_pid (upserted (Some host) (dr_port r) (dr_vid_pid r) (dr_uid r) now (get (dr_uid r) d)) = dr_vid_pid r ->
     dr_state (upserted (Some host) (dr_port r) (dr_vid_pid r) (dr_uid r) now (get (dr_uid r) d)) <> STATE_DISCONNECTED ->
     let n := apply_state (dr_uid r) (JStr (dr_state r)) fields now' in
     (n d1).1 = Ok tt /\ keys_ok (n d1).2 /\ (forall k, k <> dr_uid r -> get k (n d1).2 = get k d) /\
     exists r', get (dr_uid r) (n d1).2 = Some r' /\ copy_of host r r').
  { intros Hh Hp Hv Hl n.
    destruct (apply_state_run host r fields (dr_uid r) now' d1 _ Hk (probe_of_snapshot r fields Hf) Hg Hh Hp Hv Hl) as (A & B & C & D).
    split; [exact A|]. split; [exact B|]. split; [|exact D]. intros k Hne. rewrite <- (Hother k Hne). exact (C k Hne). }
  destruct (get (dr_uid r) d) as [e|] eqn:Hge; cbn [upserted] in *.
  - destruct (rejects_claim (Some host) e) eqn:Hrej.
    + assert (Hn : dr_host e = None).
      { unfold rejects_claim in Hrej. rewrite !andb_true_iff, bool_decide_eq_true in Hrej. tauto. }
      rewrite Hn, bool_decide_eq_false_2 by discriminate. cbn. rewrite Hg. auto.
    + assert (Hrow : forall b, dr_host (row_upserted b (Some host) (dr_port r) (dr_vid_pid r) now e) = Some host /\
        dr_port (row_upserted b (Some host) (dr_port r) (dr_vid_pid r) now e) = dr_port r /\
        dr_vid_pid (row_upserted b (Some host) (dr_port r) (dr_vid_pid r) now e) = dr_vid_pid r)
        by (intros []; repeat split; reflexivity).
      destruct (Hrow (is_disconnected e)) as (H1 & H2 & H3).
      rewrite H1, bool_decide_eq_true_2 by reflexivity. cbn [negb]. apply Hcase; try assumption.
      apply row_upserted_live.
  - rewrite bool_decide_eq_true_2 by reflexivity. cbn [negb]. apply Hcase; (reflexivity || discriminate).
Qed.

Lemma snapshot_device_obj r : exists fields, snapshot_device r = JObj fields.
Proof. eexists. reflexivity. Qed.

(** The three loops of a snapshot application. *)
Definition apply_device (clock : nat -> Z) (host : string) : json -> M pstate unit :=
  apply_logged (fun data => now <-! p_now clock ;; now' <-! p_now clock ;;
                            p_in_store (apply_snapshot_device host data now now')).
Definition apply_name (clock : nat -> Z) : json -> M pstate unit :=
  apply_logged (fun data => now <-! p_now clock ;; p_in_store (apply_snapshot_name data now)).

Lemma apply_device_run clock host r s : keys_ok (p_db s) -> dr_state r <> STATE_DISCONNECTED ->
  let m := apply_device clock host (snapshot_device r) in
  mresult m s = Ok tt /\ keys_ok (p_db (mstate m s)) /\
  (forall k, k <> dr_uid r -> get k (p_db (mstate m s)) = get k (p_db s)) /\
  replica host r (get (dr_uid r) (p_db s)) (get (dr_uid r) (p_db (mstate m s))).
Proof.
  intros Hs Hst. destruct (snapshot_device_obj r) as [fields Hf].
  destruct (snapshot_device_run host r fields (clock (p_tick s)) (clock (S (p_tick s))) (p_db s) Hs Hf Hst)
    as (H1 & H2 & H3 & H4).
  cbv zeta. unfold apply_device, apply_logged. rewrite Hf. unfold mresult, mstate, mtry, mbind, p_now, p_in_store in *.
  cbn [p_tick p_db].
  destruct (apply_snapshot_device host fields (clock (p_tick s)) (clock (S (p_tick s))) (p_db s)) as [res d'].
  cbn [fst snd] in *. subst res. cbn. auto.
Qed.

Lemma devices_loop clock host rows : NoDup (map dr_uid rows) ->
  Forall (fun r => dr_state r <> STATE_DISCONNECTED) rows -> forall s, keys_ok (p_db s) ->
  let m := mfor (map snapshot_device rows) (apply_device clock host) in
  mresult m s = Ok tt /\ keys_ok (p_db (mstate m s)) /\
  (forall k, ~ In k (map dr_uid rows) -> get k (p_db (mstate m s)) = get k (p_db s)) /\
  (forall r, In r rows -> replica host r (get (dr_uid r) (p_db s)) (get (dr_uid r) (p_db (mstate m s)))).
Proof.
  induction rows as [|r rows IH]; intros Hn HF s Hs m.
  - repeat split; try apply Hs. intros r [].
  - cbn [map] in Hn. apply NoDup_cons in Hn as [Hr Hn]. rewrite list_elem_of_In in Hr.
    inversion HF as [|? ? Hst HF']; subst.
    destruct (apply_device_run clock host r s Hs Hst) as (A1 & A2 & A3 & A4).
    destruct (IH Hn HF' _ A2) as (B1 & B2 & B3 & B4).
    unfold m, mresult, mstate in *. cbn [map mfor]. rewrite (bind_result _ _ _ _ A1).
    unfold mstate. split; [exact B1|]. split; [exact B2|]. split.
    + intros k Hk. cbn [map In] in Hk. rewrite B3 by tauto. apply A3. intros ->. apply Hk. left. reflexivity.
    + intros r' [<-|Hr']; [rewrite B3 by exact Hr; exact A4|].
      rewrite <- A3; [apply B4; exact Hr'|]. intros E. apply Hr. rewrite <- E. apply in_map. exact Hr'.
Qed.

Lemma detach_loop clock host seen l : NoDup (map dr_uid l) -> forall s, keys_ok (p_db s) ->
  (forall r, In r l -> get (dr_uid r) (p_db s) = Some r) ->
  let m := mfor l (detach_if_missing clock host seen) in
  mresult m s = Ok tt /\
  (forall k, ~ In k (map dr_uid l) -> get k (p_db (mstate m s)) = get k (p_db s)) /\
  (forall r, In r l -> if missing_from host seen r
     then exists now, get (dr_uid r) (p_db (mstate m s)) = Some (set_last_seen now (set_state STATE_DISCONNECTED r))
     else get (dr_uid r) (p_db (mstate m s)) = Some r).
Proof.
  induction l as [|r l IH]; intros Hn s Hs Hl m; [repeat split; intros r []|].
  cbn [map] in Hn. apply NoDup_cons in Hn as [Hr Hn]. rewrite list_elem_of_In in Hr.
  pose proof (Hl r (or_introl eq_refl)) as Hg.
  assert (H1 : exists s1, detach_if_missing clock host seen r s = (Ok tt, s1) /\ keys_ok (p_db s1) /\
    (forall k, k <> dr_uid r -> get k (p_db s1) = get k (p_db s)) /\
    if missing_from host seen r
    then exists now, get (dr_uid r) (p_db s1) = Some (set_last_seen now (set_state STATE_DISCONNECTED r))
    else get (dr_uid r) (p_db s1) = Some r).
  { destruct (missing_from host seen r) eqn:Hm.
    - eexists. split; [apply detach_row_run; [congruence|exact Hm]|]. cbn [p_db].
      split; [apply keys_tupd; [intro; reflexivity|exact Hs]|]. split.
      + intros k Hk. rewrite get_tupd, bool_decide_eq_false_2 by (congruence || (intro; reflexivity)). reflexivity.
      + eexists. rewrite get_tupd, bool_decide_eq_true_2, Hg by (reflexivity || (intro; reflexivity)). reflexivity.
    - exists s. unfold detach_if_missing. rewrite Hm. auto. }
  destruct H1 as (s1 & E1 & K1 & O1 & R1).
  destruct (IH Hn s1 K1) as (B1 & B3 & B4).
  { intros r' Hr'. rewrite O1; [apply Hl; right; exact Hr'|]. intros E. apply Hr. rewrite <- E. apply in_map. exact Hr'. }
  assert (Em : m s = mfor l (detach_if_missing clock host seen) s1)
    by (unfold m; cbn [mfor]; unfold mbind at 1; rewrite E1; reflexivity).
  unfold mresult, mstate in *. rewrite Em. split; [exact B1|]. split.
  - intros k Hk. cbn [map In] in Hk. rewrite B3 by tauto. apply O1. intros ->. apply Hk. left. reflexivity.
  - intros r' [<-|Hr']; [rewrite B3 by exact Hr; exact R1|exact (B4 r' Hr')].
Qed.

Lemma names_loop clock es : forall s,
  mresult (mfor (map name_entry es) (apply_name clock)) s = Ok tt /\
  devices (p_db (mstate (mfor (map name_entry es) (apply_name clock)) s)) = devices (p_db s).
Proof.
  induction es as [|e es IH]; intros s; [auto|].
  assert (H1 : exists s1, apply_name clock (name_entry e) s = (Ok tt, s1) /\ devices (p_db s1) = devices (p_db s)).
  { unfold apply_name, apply_logged, name_entry, mtry, mbind at 1, p_now, p_in_store. cbn [p_db].
    match goal with |- context[apply_snapshot_name ?f ?n ?d] =>
      change (apply_snapshot_name f n d) with
        (quietly (StoreNames.set (en_name e) (en_channel e) (en_group e) n) d) end.
    unfold quietly, mbind. rewrite set_run. destruct (validate (en_name e)); eexists; split; reflexivity. }
  destruct H1 as (s1 & E1 & D1). destruct (IH s1) as [A B]. unfold mresult, mstate in *.
  assert (Em : mfor (map name_entry (e :: es)) (apply_name clock) s = mfor (map name_entry es) (apply_name clock) s1)
    by (cbn [map mfor]; unfold mbind at 1; rewrite E1; reflexivity).
  rewrite Em. split; [exact A|]. rewrite B. exact D1.
Qed.

Lemma seen_of_snapshot rows : map_result uid_in_set (map snapshot_device rows) =
  Ok (map (fun r => JStr (dr_uid r)) rows).
Proof.
  induction rows as [|r rows IH]; [reflexivity|]. cbn [map map_result]. rewrite IH. reflexivity.
Qed.

Lemma seen_in rows k : existsb (is_str k) (map (fun r => JStr (dr_uid r)) rows) = true <-> In k (map dr_uid rows).
Proof.
  rewrite existsb_exists, in_map_iff. split.
  - intros (v & Hv & Hk). apply in_map_iff in Hv as (r & <- & Hr). rewrite is_str_eq, bool_decide_eq_true in Hk. eauto.
  - intros (r & <- & Hr). exists (JStr (dr_uid r)). split; [apply in_map_iff; eauto|].
    rewrite is_str_eq. apply bool_decide_eq_true. reflexivity.
Qed.

(** The whole application, row by row. *)
Lemma snapshot_applied clock host sender token message reply s :
  keys_ok sender -> keys_ok (p_db s) ->
  rep_reply token message sender = JObj reply -> dget "error" reply = None ->
  let s' := mstate (apply_snapshot clock host reply) s in
  mresult (apply_snapshot clock host reply) s = Ok tt /\
  (forall r, In r (snapshot_local_devices sender) ->
     replica host r (get (dr_uid r) (p_db s)) (get (dr_uid r) (p_db s'))) /\
  (forall k, ~ In k (map dr_uid (snapshot_local_devices sender)) ->
     match get k (p_db s) with
     | Some e => if bool_decide (dr_host e = Some host) && negb (is_disconnected e)
                 then exists now, get k (p_db s') = Some (set_last_seen now (set_state STATE_DISCONNECTED e))
                 else get k (p_db s') = Some e
     | None => get k (p_db s') = None
     end).
Proof.
  intros Hsend Hs Hrep Herr s'. set (rows := snapshot_local_devices sender).
  assert (Hreply : reply = [("devices", JList (map snapshot_device rows)); ("names", JList (snapshot_name_payload sender))]).
  { unfold rep_reply in Hrep. destruct (match token with Some _ => _ | None => _ end); injection Hrep as <-; [discriminate|reflexivity]. }
  assert (Hrows : NoDup (map dr_uid rows) /\ Forall (fun r => dr_state r <> STATE_DISCONNECTED) rows).
  { split; [apply (unique_filter dr_uid), (unique_filter dr_uid); apply Hsend|].
    apply List.Forall_forall. intros r Hr. unfold rows, snapshot_local_devices in Hr. rewrite !filter_In in Hr.
    destruct Hr as [[_ Hr] _]. rewrite andb_true_iff, negb_true_iff, bool_decide_eq_false in Hr. tauto. }
  destruct Hrows as [Hn HF].
  destruct (devices_loop clock host rows Hn HF s Hs) as (A1 & A2 & A3 & A4).
  set (s1 := mstate (mfor (map snapshot_device rows) (apply_device clock host)) s) in *.
  set (seen := map (fun r => JStr (dr_uid r)) rows).
  destruct (detach_loop clock host seen (devices (p_db s1)) (proj1 A2) s1 A2) as (B1 & B3 & B4).
  { intros r Hr. apply tfind_unique; [apply A2|exact Hr]. }
  set (s2 := mstate (mfor (devices (p_db s1)) (detach_if_missing clock host seen)) s1) in *.
  destruct (names_loop clock (listing sender) s2) as [C1 C2].
  assert (Eall : apply_snapshot clock host reply s =
    (Ok tt, mstate (mfor (map name_entry (listing sender)) (apply_name clock)) s2)).
  { rewrite Hreply. unfold apply_snapshot. fold (apply_device clock host) (apply_name clock).
    unfold mbind at 1, mlift. cbn [jget_or dget iterate]. 
    change (iterate (jget_or "devices" (JList []) _)) with (Ok (map snapshot_device rows)).
    cbv iota. rewrite (bind_result _ _ _ _ A1). fold s1. rewrite seen_of_snapshot. fold seen.
    unfold mbind at 1. cbv iota. unfold detach_missing. rewrite bind_assoc. unfold mbind at 1, mgets, list_devices.
    rewrite (bind_result _ _ _ _ B1). fold s2. unfold mbind at 1.
    change (iterate (jget_or "names" (JList []) _)) with (Ok (map name_entry (listing sender))). cbv iota.
    unfold mresult, mstate in *. rewrite <- C1. apply surjective_pairing. }
  assert (Hget : forall k, get k (p_db s') = get k (p_db s2)).
  { intros k. unfold s', mstate at 1. rewrite Eall. cbn [snd]. unfold get. rewrite C2. reflexivity. }
  assert (Hrow : forall k, match get k (p_db s1) with
    | Some e => if missing_from host seen e
                then exists now, get k (p_db s') = Some (set_last_seen now (set_state STATE_DISCONNECTED e))
                else get k (p_db s') = Some e
    | None => get k (p_db s') = None
    end).
  { intros k. rewrite Hget. destruct (get k (p_db s1)) as [e|] eqn:Hg.
    - pose proof (get_uid _ _ _ Hg) as <-. apply B4. exact (tfind_in _ _ _ _ Hg).
    - rewrite B3; [exact Hg|]. intros Hin. apply in_map_iff in Hin as (e & Ee & He).
      assert (get (dr_uid e) (p_db s1) = Some e) by (apply tfind_unique; [apply A2|exact He]). congruence. }
  split; [unfold mresult; rewrite Eall; reflexivity|]. split.
  - intros r Hr. specialize (A4 r Hr). specialize (Hrow (dr_uid r)).
    assert (Hkeep : get (dr_uid r) (p_db s') = get (dr_uid r) (p_db s1)).
    { destruct (get (dr_uid r) (p_db s1)) as [e|] eqn:Hg; [|exact Hrow].
      assert (Hm : missing_from host seen e = false); [|rewrite Hm in Hrow; exact Hrow].
      unfold missing_from. pose proof (get_uid _ _ _ Hg) as ->.
      assert (Hse : existsb (is_str (dr_uid r)) seen = true) by (apply seen_in, in_map, Hr).
      rewrite Hse, andb_false_r. reflexivity. }
    rewrite Hkeep. exact A4.
  - intros k Hk. specialize (Hrow k). rewrite (A3 k Hk) in Hrow.
    destruct (get k (p_db s)) as [e|] eqn:Hg; [|exact Hrow].
    assert (Hm : missing_from host seen e = bool_decide (dr_host e = Some host) && negb (is_disconnected e)).
    { unfold missing_from. pose proof (get_uid _ _ _ Hg) as ->.
      assert (E : existsb (is_str k) seen = false) by (apply not_true_iff_false; unfold seen; rewrite seen_in; exact Hk).
      rewrite E, andb_true_r. f_equal. f_equal. unfold is_disconnected.
      destruct (bool_decide_reflect (dr_state e = STATE_DISCONNECTED)) as [->|N]; [apply String.eqb_refl|].
      apply String.eqb_neq. exact N. }
    rewrite <- Hm. exact Hrow.
Qed.

(** C3: a snapshot, sent by one registry and applied by another, replicates
    it: every board the sender has attached becomes the sender's row here,
    at its port, in its probed state and with its announcement, unless it is
    attached here; every other row of the sender is marked disconnected; and
    no other row changes. *)
Theorem snapshot_replicates clock host sender token message reply s :
  keys_ok sender -> keys_ok (p_db s) ->
  rep_reply token message sender = JObj reply -> dget "error" reply = None ->
  let s' := mstate (apply_snapshot clock host reply) s in
  mresult (apply_snapshot clock host reply) s = Ok tt /\
  (forall r, In r (snapshot_local_devices sender) ->
     replica host r (get (dr_uid r) (p_db s)) (get (dr_uid r) (p_db s'))) /\
  (forall k, ~ In k (map dr_uid (snapshot_local_devices sender)) ->
     match get k (p_db s) with
     | Some e => if bool_decide (dr_host e = Some host) && negb (is_disconnected e)
                 then exists now, get k (p_db s') = Some (set_last_seen now (set_state STATE_DISCONNECTED e))
                 else get k (p_db s') = Some e
     | None => get k (p_db s') = None
     end).
Proof. apply snapshot_applied. Qed.

(** ** A small fleet: this host has [u1] attached and knows [u2] of loki,
    which has since lost it and gained [u3]. *)

Definition here : db := mkDb
  [new_device "u1" (Some "/dev/ttyACM0") (Some "0d28:0204") None 1;
   new_device "u2" (Some "/dev/ttyACM1") (Some "0d28:0204") (Some "loki") 2] [] [].
Definition loki : db := mkDb
  [row_probed (mkProbeResult "NEZHA2" "robot" "tovez" "7" "DEVICE:NEZHA2:robot:tovez:7") 4
     (new_device "u3" (Some "/dev/ttyACM0") (Some "0d28:0204") None 3)] [] [].
Definition here_state : pstate := mkPstate here 0 false false false empty_bus.
Definition loki_reply : list (string * json) :=
  [("devices", JList (snapshot_payload loki)); ("names", JList [])].
Definition detach_u1 : peer_input :=
  PMessage "loki" (Some (JObj [("type", JStr "detach"); ("host", JStr "loki"); ("uid", JStr "u1")])) 9.

Lemma here_keys : keys_ok (p_db here_state).
Proof. unfold keys_ok, unique. repeat split; apply (bool_decide_unpack _); vm_compute; exact I. Qed.
Lemma loki_keys : keys_ok loki.
Proof. unfold keys_ok, unique. repeat split; apply (bool_decide_unpack _); vm_compute; exact I. Qed.

Lemma peer_input_effect_witness :
  keys_ok (p_db here_state) /\
  peers (p_db (peer_exec (fun n => Z.of_nat n) (PSnapshot "loki" loki_reply) here_state)) = [].
Proof.
  split; [exact here_keys|].
  exact (proj1 (proj2 (peer_input_effect (fun n => Z.of_nat n) (PSnapshot "loki" loki_reply) here_state "u1" here_keys))).
Defined.

Lemma local_boards_safe_witness :
  get "u1" (p_db (fold_left (fun s i => peer_exec (fun n => Z.of_nat n) i s)
                    [detach_u1; PSnapshot "loki" loki_reply] here_state)) =
  Some (new_device "u1" (Some "/dev/ttyACM0") (Some "0d28:0204") None 1).
Proof.
  apply (local_boards_safe (fun n => Z.of_nat n) [detach_u1; PSnapshot "loki" loki_reply] here_state "u1");
    [exact here_keys|vm_compute; reflexivity|left; split; [reflexivity|discriminate]].
Defined.

Lemma snapshot_replicates_witness :
  let s' := mstate (apply_snapshot (fun n => Z.of_nat n) "loki" loki_reply) here_state in
  replica "loki" (row_probed (mkProbeResult "NEZHA2" "robot" "tovez" "7" "DEVICE:NEZHA2:robot:tovez:7") 4
     (new_device "u3" (Some "/dev/ttyACM0") (Some "0d28:0204") None 3)) None (get "u3" (p_db s')) /\
  exists now, get "u2" (p_db s') = Some (set_last_seen now (set_state STATE_DISCONNECTED
    (new_device "u2" (Some "/dev/ttyACM1") (Some "0d28:0204") (Some "loki") 2))).
Proof.
  intros s'.
  destruct (snapshot_replicates (fun n => Z.of_nat n) "loki" loki None None loki_reply here_state
    loki_keys here_keys eq_refl eq_refl) as (_ & H1 & H2).
  fold s' in H1, H2. clearbody s'.
  assert (Hloki : snapshot_local_devices loki =
    [row_probed (mkProbeResult "NEZHA2" "robot" "tovez" "7" "DEVICE:NEZHA2:robot:tovez:7") 4
     (new_device "u3" (Some "/dev/ttyACM0") (Some "0d28:0204") None 3)]) by (vm_compute; reflexivity).
  rewrite Hloki in H1, H2. split.
  - exact (H1 _ (or_introl eq_refl)).
  - assert (Hn : ~ In "u2" ["u3"]) by (intros [H|[]]; discriminate H).
    specialize (H2 "u2" Hn).
    assert (Hg : get "u2" (p_db here_state) =
      Some (new_device "u2" (Some "/dev/ttyACM1") (Some "0d28:0204") (Some "loki") 2)) by (vm_compute; reflexivity).
    rewrite Hg in H2. exact H2.
Defined.
