(* ===== verification/Discovery.v ===== *)
(** * [registry/peering.py]: finding peers and keeping their links

    The mDNS half of the module, [_BrowseListener] and [PeerDiscovery]: the
    TXT record a host advertises and how another reads it, the filter of a
    host's own advertisement, the table of links, the addresses' refresh,
    [start] and [stop].  What a link does with the messages of its peer is
    [Peering]'s.

    A thread is a field that says it was started; its body is an operation
    that the environment runs when the thread has something to do.  A call
    of [connect_peer] is a sequence of steps that anything can come between;
    each other operation is atomic; a snapshot request takes effect when its
    answer arrives, the state being untouched while it is awaited.  ZeroMQ's
    sockets, zeroconf and the machine's interfaces are the environment:
    what they answer is an argument.  Texts of TXT records are ASCII, so
    that UTF-8 leaves them as they are. *)

From S2P Require Import Prelude Tables Json NetAddr Identity Virtual Store StoreNames Locks EventBus Peering.
Local Open Scope py_scope.

Definition SERVICE_TYPE : string := "_mbregistry._tcp.local.".
Definition DEFAULT_REMOTE_PORT : Z := 7440.
Definition DEFAULT_PUB_PORT : Z := 7442.
Definition DEFAULT_SNAPSHOT_PORT : Z := 7443.
Definition TXT_REMOTE_PORT : string := "remote_port".
Definition TXT_PUB_PORT : string := "pub_port".
Definition TXT_SNAPSHOT_PORT : string := "snapshot_port".
Definition TXT_ADDRS : string := "addrs".
Definition DEFAULT_RESYNC_INTERVAL_S : Z := 30.

(** ** Advertisements *)

(** A [ServiceInfo]: [si_addresses] is [parsed_addresses()], and a TXT
    value may be missing. *)
Record service_info := mkServiceInfo {
  si_name : string;
  si_addresses : list string;
  si_port : option Z;
  si_server : string;
  si_properties : list (string * option string) }.

Definition short_hostname (gethostname : string) : string :=
  match Py.split_on "." gethostname with s :: _ => s | [] => "" end.

Definition encode_txt (txt : list (string * string)) : list (string * option string) :=
  map (fun kv => (kv.1, Some kv.2)) txt.

Definition decode_txt (properties : list (string * option string)) : list (string * string) :=
  map (fun kv => (kv.1, match kv.2 with Some v => v | None => "" end)) properties.

Definition resolve_address (info : service_info) : string :=
  match si_addresses info with
  | a :: _ => a
  | [] => if String.eqb (si_server info) "" then "" else Py.rstrip "." (si_server info)
  end.

Definition get_default (k dflt : string) (txt : list (string * string)) : string :=
  match dget k txt with Some v => v | None => dflt end.

Definition choose_address (env : network_env) (info : service_info) (txt : list (string * string)) : result string :=
  let addrs := List.filter (fun a => negb (String.eqb a "")) (Py.split_on "," (get_default TXT_ADDRS "" txt)) in
  let candidates := match addrs with
                    | [] => List.filter (fun a => negb (Py.contains a ":")) (si_addresses info)
                    | _ => addrs
                    end in
  let! picked := pick_reachable env candidates in
  Ok match nonempty picked with Some a => a | None => resolve_address info end.

Definition peer_host_from_name (name service_type : string) : string :=
  let suffix := ("." +:+ service_type)%string in
  if Py.endswith name suffix then Py.stake (String.length name - String.length suffix) name
  else Py.rstrip "." name.

(** ** What a browser makes of an advertisement *)

(** [_BrowseListener]: its own addresses, port and host. *)
Record listener := mkListener {
  ls_own_addresses : list string;
  ls_own_port : Z;
  ls_own_host : option string }.

(** What [_record] decides: nothing, or a peer's host and endpoint, with
    the address and the ports of its link when they are readable. *)
Inductive sighting :=
| Ignored
| Sighted (host endpoint : string) (link : option (string * Z * Z)).

Definition port_of (text : option string) : result (option Z) :=
  match text with Some s => let! p := int_of_str s in Ok (Some p) | None => Ok None end.

Definition is_own (l : listener) (host address : string) (port : option Z) : bool :=
  bool_decide (ls_own_host l = Some host) ||
  (existsb (String.eqb address) (ls_own_addresses l) && bool_decide (port = Some (ls_own_port l))).

Definition sight (env : network_env) (service_type : string) (l : listener) (name : string) (info : service_info) : result sighting :=
  let host := peer_host_from_name name service_type in
  if bool_decide (ls_own_host l = Some host) then Ok Ignored
  else
    let txt := decode_txt (si_properties info) in
    let! address := choose_address env info txt in
    if is_own l host address (si_port info) then Ok Ignored
    else
      match dget TXT_REMOTE_PORT txt with
      | None => Ok Ignored
      | Some remote_port_str =>
          if String.eqb address "" || String.eqb remote_port_str "" then Ok Ignored
          else
            match int_of_str remote_port_str with
            | Err _ => Ok Ignored
            | Ok _ =>
                let endpoint := (address +:+ ":" +:+ remote_port_str)%string in
                let link := match port_of (dget TXT_PUB_PORT txt), port_of (dget TXT_SNAPSHOT_PORT txt) with
                            | Ok (Some p), Ok (Some s) => Some (address, p, s)
                            | _, _ => None
                            end in
                Ok (Sighted host endpoint link)
            end
      end.

(** ** The state of [PeerDiscovery] *)

(** A [_PeerLink]: its addresses and flags, and which of its threads run:
    the snapshot's, the receiver's, a resync's, and how many forced ones. *)
Record link := mkLink {
  lk_host : string;
  lk_pub_address : string;
  lk_snapshot_address : string;
  lk_started : bool;
  lk_stop : bool;
  lk_dropped : bool;
  lk_guard : bool;
  lk_fetching : bool;
  lk_receiving : bool;
  lk_resyncing : bool;
  lk_forced : nat }.

Definition lk_flags (l : link) (started stop dropped guard : bool) : link :=
  mkLink (lk_host l) (lk_pub_address l) (lk_snapshot_address l) started stop dropped guard
    (lk_fetching l) (lk_receiving l) (lk_resyncing l) (lk_forced l).
Definition lk_threads (l : link) (fetching receiving resyncing : bool) (forced : nat) : link :=
  mkLink (lk_host l) (lk_pub_address l) (lk_snapshot_address l) (lk_started l) (lk_stop l) (lk_dropped l) (lk_guard l)
    fetching receiving resyncing forced.

(** What [start] makes and [stop] takes down, in the order it happens. *)
Inductive resource := RContext | RPub | RRep | RRepThread | RZeroconf | RService | RBrowser | RSelfCheck | RLink (i : nat).
Inductive devent := Opened (r : resource) | Closed (r : resource).

#[export] Instance resource_eq_dec : EqDecision resource.
Proof. solve_decision. Defined.

Record disc := mkDisc {
  d_db : db;
  d_tick : nat;
  d_bus : bus;
  d_remote_port : Z;
  d_addresses : list string;
  d_started : bool;
  d_open : list resource;                 (* the attributes that are not [None] *)
  d_pub : list json;                      (* what the PUB socket sent *)
  d_own_info : option service_info;
  d_listener : option listener;
  d_heap : list link;                     (* every link made *)
  d_links : list (string * nat);          (* [_peer_links] *)
  d_log : list devent }.

Definition with_db (v : db) (s : disc) : disc :=
  mkDisc v (d_tick s) (d_bus s) (d_remote_port s) (d_addresses s) (d_started s) (d_open s) (d_pub s) (d_own_info s) (d_listener s) (d_heap s) (d_links s) (d_log s).
Definition with_port (v : Z) (s : disc) : disc :=
  mkDisc (d_db s) (d_tick s) (d_bus s) v (d_addresses s) (d_started s) (d_open s) (d_pub s) (d_own_info s) (d_listener s) (d_heap s) (d_links s) (d_log s).
Definition with_addresses (v : list string) (s : disc) : disc :=
  mkDisc (d_db s) (d_tick s) (d_bus s) (d_remote_port s) v (d_started s) (d_open s) (d_pub s) (d_own_info s) (d_listener s) (d_heap s) (d_links s) (d_log s).
Definition with_started (v : bool) (s : disc) : disc :=
  mkDisc (d_db s) (d_tick s) (d_bus s) (d_remote_port s) (d_addresses s) v (d_open s) (d_pub s) (d_own_info s) (d_listener s) (d_heap s) (d_links s) (d_log s).
Definition with_own_info (v : option service_info) (s : disc) : disc :=
  mkDisc (d_db s) (d_tick s) (d_bus s) (d_remote_port s) (d_addresses s) (d_started s) (d_open s) (d_pub s) v (d_listener s) (d_heap s) (d_links s) (d_log s).
Definition with_listener (v : option listener) (s : disc) : disc :=
  mkDisc (d_db s) (d_tick s) (d_bus s) (d_remote_port s) (d_addresses s) (d_started s) (d_open s) (d_pub s) (d_own_info s) v (d_heap s) (d_links s) (d_log s).
Definition with_heap (v : list link) (s : disc) : disc :=
  mkDisc (d_db s) (d_tick s) (d_bus s) (d_remote_port s) (d_addresses s) (d_started s) (d_open s) (d_pub s) (d_own_info s) (d_listener s) v (d_links s) (d_log s).
Definition with_links (v : list (string * nat)) (s : disc) : disc :=
  mkDisc (d_db s) (d_tick s) (d_bus s) (d_remote_port s) (d_addresses s) (d_started s) (d_open s) (d_pub s) (d_own_info s) (d_listener s) (d_heap s) v (d_log s).
Definition with_pub (v : list json) (s : disc) : disc :=
  mkDisc (d_db s) (d_tick s) (d_bus s) (d_remote_port s) (d_addresses s) (d_started s) (d_open s) v (d_own_info s) (d_listener s) (d_heap s) (d_links s) (d_log s).

(** Opening and closing a resource. *)
Definition opened (r : resource) (s : disc) : disc :=
  mkDisc (d_db s) (d_tick s) (d_bus s) (d_remote_port s) (d_addresses s) (d_started s)
    (r :: List.filter (fun r' => negb (bool_decide (r' = r))) (d_open s))
    (d_pub s) (d_own_info s) (d_listener s) (d_heap s) (d_links s) (d_log s ++ [Opened r]).
Definition closed (r : resource) (s : disc) : disc :=
  mkDisc (d_db s) (d_tick s) (d_bus s) (d_remote_port s) (d_addresses s) (d_started s)
    (List.filter (fun r' => negb (bool_decide (r' = r))) (d_open s))
    (d_pub s) (d_own_info s) (d_listener s) (d_heap s) (d_links s) (d_log s ++ [Closed r]).
Definition has (r : resource) (s : disc) : bool := bool_decide (r ∈ d_open s).

Definition open_resource (r : resource) : M disc unit := mmodify (opened r).
(** [if self._x is not None: close; self._x = None]. *)
Definition close_resource (r : resource) : M disc unit := mmodify (fun s => if has r s then closed r s else s).

Definition update_link (i : nat) (f : link -> link) : M disc unit := mmodify (fun s => with_heap (alter f i (d_heap s)) s).

(** A link's own operation, on the store, the clock and the event bus it
    shares with everything else. *)
Definition in_link {A} (i : nat) (m : string -> M pstate A) : M disc A := fun s =>
  match d_heap s !! i with
  | None => (Err AttributeError, s)
  | Some l =>
      let (r, p) := m (lk_host l) (mkPstate (d_db s) (d_tick s) (lk_dropped l) (lk_guard l) (lk_stop l) (d_bus s)) in
      let l' := lk_flags l (lk_started l) (p_stopped p) (p_link_dropped p) (p_resync_guard p) in
      (r, mkDisc (p_db p) (p_tick p) (p_bus p) (d_remote_port s) (d_addresses s) (d_started s) (d_open s) (d_pub s)
                 (d_own_info s) (d_listener s) (<[i := l']> (d_heap s)) (d_links s) (d_log s))
  end.

(** The PUB socket, as [Peering]'s publishers see it. *)
Definition in_pub {A} (m : M pub A) : M disc A := fun s =>
  let (r, p) := m (if has RPub s then Some (d_pub s) else None) in
  (r, match p with Some sent => with_pub sent s | None => s end).

(** ** A link's lifecycle *)

Definition new_link (host address : string) (pub_port snapshot_port : Z) : link :=
  let tcp port := ("tcp://" +:+ address +:+ ":" +:+ pretty port)%string in
  mkLink host (tcp pub_port) (tcp snapshot_port) false false false false false false false 0.

Definition get_link (i : nat) : M disc link := fun s =>
  match d_heap s !! i with Some l => (Ok l, s) | None => (Err AttributeError, s) end.

(** [_PeerLink.start]: without a context the sockets cannot be made. *)
Definition link_start (i : nat) : M disc unit :=
  l <-! get_link i ;;
  if lk_started l then mret tt
  else
    update_link i (fun l => lk_flags l true false (lk_dropped l) (lk_guard l)) ;;!
    context <-! mgets (has RContext) ;;
    if context : bool then
      open_resource (RLink i) ;;!
      update_link i (fun l => lk_threads l true (lk_receiving l) (lk_resyncing l) (lk_forced l))
    else mraise AttributeError.

(** [_PeerLink.stop]: the flag its threads look at; and, when they have been
    waited for, the sockets.  A fetch still waiting for its answer ends on
    its own. *)
Definition link_halt (i : nat) : M disc unit :=
  update_link i (fun l => lk_flags l (lk_started l) true (lk_dropped l) (lk_guard l)).

Definition link_close (i : nat) : M disc unit :=
  update_link i (fun l => lk_threads l (lk_fetching l) false (lk_resyncing l) (lk_forced l)) ;;!
  close_resource (RLink i) ;;!
  update_link i (fun l => lk_flags l false (lk_stop l) (lk_dropped l) (lk_guard l)).

Definition link_stop (i : nat) : M disc unit :=
  l <-! get_link i ;;
  if lk_started l then link_halt i ;;! link_close i else mret tt.

(** [start_resync] and [force_resync]. *)
Definition start_resync (i : nat) : M disc unit :=
  l <-! get_link i ;;
  if lk_stop l || negb (lk_dropped l) || lk_resyncing l then mret tt
  else update_link i (fun l => lk_threads l (lk_fetching l) (lk_receiving l) true (lk_forced l)).

Definition start_force_resync (i : nat) : M disc unit :=
  l <-! get_link i ;;
  if negb (lk_started l) || lk_stop l then mret tt
  else update_link i (fun l => lk_threads l (lk_fetching l) (lk_receiving l) (lk_resyncing l) (S (lk_forced l))).

Section PeerDiscovery.
Variable clock : nat -> Z.
Variable host service_type : string.
Variables pub_port snapshot_port : Z.
Variable pinned : bool.                       (* an explicit [advertise_address] *)
Variable self_check_interval : Z.
(** [socket.inet_aton], and zeroconf's choice of a free name. *)
Variable inet_aton : string -> result Z.

Definition d_now : M disc Z := fun s =>
  (Ok (clock (d_tick s)),
   mkDisc (d_db s) (S (d_tick s)) (d_bus s) (d_remote_port s) (d_addresses s) (d_started s) (d_open s) (d_pub s)
     (d_own_info s) (d_listener s) (d_heap s) (d_links s) (d_log s)).

Definition in_db {A} (m : M db A) : M disc A := fun s =>
  let (r, d) := m (d_db s) in (r, with_db d s).

Definition see_peer (peer endpoint : string) : M disc unit :=
  now <-! d_now ;; in_db (record_peer_seen peer endpoint now) ;;! mret tt.

(** ** The links' threads *)

(** [_run_snapshot_and_recv], when the request has its answer. *)
Definition snapshot_thread (i : nat) (answer : fetch_reply) : M disc unit :=
  l <-! get_link i ;;
  if lk_fetching l then
    update_link i (fun l => lk_threads l false (lk_receiving l) (lk_resyncing l) (lk_forced l)) ;;!
    in_link i (fun h => fetch_snapshot clock h (fun _ => answer) (mret tt) (mret tt)) ;;!
    l <-! get_link i ;;
    if lk_stop l then mret tt
    else update_link i (fun l => lk_threads l (lk_fetching l) true (lk_resyncing l) (lk_forced l))
  else mret tt.

(** One message of [_recv_loop]. *)
Definition recv_thread (i : nat) (message : option json) : M disc unit :=
  l <-! get_link i ;;
  if lk_receiving l && negb (lk_stop l) then
    now <-! d_now ;; in_link i (fun h => p_in_store (recv_message h message now))
  else mret tt.

(** One event of [_monitor_loop]. *)
Definition monitor_thread (i : nat) (disconnected : bool) : M disc unit :=
  l <-! get_link i ;;
  if negb (lk_started l) || lk_stop l then mret tt
  else if disconnected then in_link i on_disconnected
  else
    dropped <-! in_link i (fun _ => mgets p_link_dropped) ;;
    if dropped : bool then start_resync i else mret tt.

Definition resync_thread (i : nat) (answer : fetch_reply) : M disc unit :=
  l <-! get_link i ;;
  if lk_resyncing l then
    in_link i (fun h => resync clock h (fun _ => answer) (mret tt) (mret tt)) ;;!
    update_link i (fun l => lk_threads l (lk_fetching l) (lk_receiving l) false (lk_forced l))
  else mret tt.

(** [_run_force_resync]: no look at the stop flag. *)
Definition force_thread (i : nat) (answer : fetch_reply) : M disc unit :=
  l <-! get_link i ;;
  if (lk_forced l =? 0)%nat then mret tt
  else
    update_link i (fun l => lk_threads l (lk_fetching l) (lk_receiving l) (lk_resyncing l) (pred (lk_forced l))) ;;!
    in_link i (fun h => guarded (fetch_snapshot clock h (fun _ => answer) (mret tt) (mret tt))) ;;!
    mret tt.

(** ** The table of links *)

(** A call of [connect_peer] under way, and where it is: the peer's
    sighting, the old link out of the table, that link's stop flag, its end
    once its threads were waited for, the new link into the table, its
    start.  Between two of these everything else can happen. *)
Inductive phase :=
| PRecord (remote_port : option Z)
| PPop
| PHalt (i : nat)
| PClose (i : nat)
| PPut
| PStart (i : nat).

Record attempt := mkAttempt {
  at_peer : string;
  at_address : string;
  at_pub_port : Z;
  at_snapshot_port : Z;
  at_phase : phase }.

Definition moved (a : attempt) (p : phase) : attempt :=
  mkAttempt (at_peer a) (at_address a) (at_pub_port a) (at_snapshot_port a) p.

(** A call of [connect_peer]. *)
Definition connect_peer (peer address : string) (pub_port snapshot_port : Z) (remote_port : option Z) : attempt :=
  mkAttempt peer address pub_port snapshot_port (PRecord remote_port).

(** Its next step; [None] when it returns. *)
Definition connect_step (a : attempt) : M disc (option attempt) :=
  match at_phase a with
  | PRecord remote_port =>
      match remote_port with
      | Some p => see_peer (at_peer a) (at_address a +:+ ":" +:+ pretty p)%string
      | None => mret tt
      end ;;!
      mret (Some (moved a PPop))
  | PPop =>
      existing <-! mgets (fun s => dget (at_peer a) (d_links s)) ;;
      mmodify (fun s => with_links (ddel (at_peer a) (d_links s)) s) ;;!
      mret (Some (moved a match existing with Some i => PHalt i | None => PPut end))
  | PHalt i =>
      l <-! get_link i ;;
      if lk_started l then link_halt i ;;! mret (Some (moved a (PClose i)))
      else mret (Some (moved a PPut))
  | PClose i => link_close i ;;! mret (Some (moved a PPut))
  | PPut =>
      i <-! mgets (fun s => length (d_heap s)) ;;
      mmodify (fun s => with_heap (d_heap s ++ [new_link (at_peer a) (at_address a) (at_pub_port a) (at_snapshot_port a)]) s) ;;!
      mmodify (fun s => with_links (dset (at_peer a) i (d_links s)) s) ;;!
      mret (Some (moved a (PStart i)))
  | PStart i => link_start i ;;! mret None
  end.

Definition resync_reachable_peers : M disc unit :=
  links <-! mgets (fun s => map snd (d_links s)) ;; mfor links start_force_resync.

(** ** Discovery *)

(** [add_service] and [update_service], with what the name resolved to: the
    sighting, and the call of [connect_peer] it ends with. *)
Definition add_service (env : network_env) (name : string) (info : option service_info) : M disc (option attempt) :=
  l <-! mgets d_listener ;;
  match l, info with
  | Some l, Some info =>
      seen <-! mlift (sight env service_type l name info) ;;
      match seen with
      | Ignored => mret None
      | Sighted peer endpoint link =>
          see_peer peer endpoint ;;!
          mret (option_map (fun '(address, p, s) => connect_peer peer address p s None) link)
      end
  | _, _ => mret None
  end.

Fixpoint pack_all (l : list string) : result (list string) :=
  match l with
  | [] => Ok []
  | a :: l' => let! v := inet_aton a in let! vs := pack_all l' in Ok (ipv4_str v :: vs)
  end.

Definition own_txt (remote_port : Z) (addresses : list string) : list (string * string) :=
  [(TXT_REMOTE_PORT, pretty remote_port); (TXT_PUB_PORT, pretty pub_port); (TXT_SNAPSHOT_PORT, pretty snapshot_port);
   (TXT_ADDRS, Py.join "," addresses)].

Definition build_own_info (name : string) (remote_port : Z) (addresses : list string) : result service_info :=
  let! packed := pack_all addresses in
  Ok (mkServiceInfo name packed (Some remote_port) (host +:+ ".local.")%string (encode_txt (own_txt remote_port addresses))).

Definition own_name : string := (host +:+ "." +:+ service_type)%string.

(** What the environment makes of [start]: the two binds, [Zeroconf()], and
    the registration, with the name it ended up under. *)
Record start_outcome := mkStartOutcome {
  so_pub : result unit;
  so_rep : result unit;
  so_zeroconf : result unit;
  so_register : result string }.

Definition start (o : start_outcome) : M disc unit :=
  started <-! mgets d_started ;;
  if started : bool then mret tt
  else
    open_resource RContext ;;!
    open_resource RPub ;;! mlift (so_pub o) ;;!
    open_resource RRep ;;! mlift (so_rep o) ;;!
    open_resource RRepThread ;;!
    mlift (so_zeroconf o) ;;! open_resource RZeroconf ;;!
    s <-! mget ;;
    info <-! mlift (build_own_info own_name (d_remote_port s) (d_addresses s)) ;;
    mmodify (with_own_info (Some info)) ;;!
    name <-! mlift (so_register o) ;;
    open_resource RService ;;!
    mmodify (with_own_info (Some (mkServiceInfo name (si_addresses info) (si_port info) (si_server info) (si_properties info)))) ;;!
    mmodify (fun s => with_listener (Some (mkListener (d_addresses s) (d_remote_port s) (Some host))) s) ;;!
    open_resource RBrowser ;;!
    open_resource RSelfCheck ;;!
    mmodify (with_started true).

Definition stop_links : M disc unit :=
  links <-! mgets (fun s => map snd (d_links s)) ;;
  mmodify (with_links []) ;;!
  mfor links link_stop.

Definition stop : M disc unit :=
  started <-! mgets d_started ;;
  if started : bool then
    close_resource RSelfCheck ;;!
    close_resource RBrowser ;;!
    close_resource RService ;;!
    close_resource RZeroconf ;;!
    mmodify (with_own_info None) ;;!
    stop_links ;;!
    close_resource RRepThread ;;!
    close_resource RRep ;;!
    close_resource RPub ;;!
    close_resource RContext ;;!
    mmodify (with_started false)
  else mret tt.

Definition set_remote_port (port : Z) : M disc unit := mmodify (with_port port).

(** [refresh_addresses]; [update] is what [update_service] did. *)
Definition refresh_addresses (env : network_env) (update : result unit) : M disc bool :=
  s <-! mget ;;
  match d_own_info s with
  | None => mret false
  | Some own =>
      if pinned || negb (has RZeroconf s) then mret false
      else
        new <-! mlift (local_ipv4s env) ;;
        if forallb (fun a => Py.startswith a "127.") new then mret false
        else if bool_decide (new = d_addresses s) then mret false
        else
          mmodify (with_addresses new) ;;!
          info <-! mlift (build_own_info (si_name own) (d_remote_port s) new) ;;
          mlift update ;;!
          mmodify (with_own_info (Some info)) ;;!
          mmodify (fun s => with_listener
            (option_map (fun l => mkListener new (ls_own_port l) (ls_own_host l)) (d_listener s)) s) ;;!
          mret true
  end.

(** One turn of [_self_check_loop]: the times of the next resync and the
    next self check, and the monotonic clock as the turn reads it.  The
    self check only logs. *)
Definition self_check_turn (env : network_env) (update : result unit) (mono : Z * Z * Z * Z) (next : Z * Z) : M disc (Z * Z) :=
  let '(m1, m2, m3, m4) := mono in
  mtry (refresh_addresses env update ;;! mret tt) (fun _ => Some (mret tt)) ;;!
  next_resync <-!
    (if next.1 <=? m1 then
       s <-! mget ;;
       mfor (List.filter (fun i => match d_heap s !! i with Some l => lk_dropped l | None => false end) (map snd (d_links s)))
         start_resync ;;!
       mret (m2 + DEFAULT_RESYNC_INTERVAL_S)
     else mret next.1) ;;
  mret (next_resync, if next.2 <=? m3 then m4 + self_check_interval else next.2).
End PeerDiscovery.
