(* ===== verification/DiscoveryFacts.v ===== *)
(** * What discovery gives

    An advertisement reads back at another host as the peer's endpoint and
    the ports of its link, and at the host itself as nothing; there is one
    live link per peer, and what [start] opens [stop] closes, in order, over
    any history in which no two connections to one peer overlap and none
    overlaps [stop]; and what happens when they do. *)

From S2P Require Import Prelude Trace Tables Json Regex NetAddr Identity Virtual Store StoreNames Locks EventBus Peering PeeringFacts Discovery.
Local Open Scope py_scope.

(** ** Advertisements *)

Lemma decode_encode txt : decode_txt (encode_txt txt) = txt.
Proof. unfold decode_txt, encode_txt. induction txt as [|[k v] txt IH]; [reflexivity|]. cbn. f_equal. exact IH. Qed.

Lemma last_n_append a b : Py.last_n (a +:+ b)%string (String.length b) = b.
Proof.
  unfold Py.last_n. rewrite length_append.
  replace (String.length a + String.length b - String.length b)%nat with (String.length a) by lia.
  induction a as [|c a IH]; [destruct b; reflexivity|exact IH].
Qed.

Lemma own_name_host host st : peer_host_from_name (own_name host st) st = host.
Proof.
  unfold peer_host_from_name, own_name. set (suffix := ("." +:+ st)%string).
  assert (E : Py.endswith (host +:+ suffix)%string suffix = true).
  { unfold Py.endswith. rewrite last_n_append, String.eqb_refl, andb_true_r, length_append. apply Nat.leb_le. lia. }
  rewrite E, length_append. replace (String.length host + String.length suffix - String.length suffix)%nat with (String.length host) by lia.
  apply stake_app.
Qed.

Lemma is_ok_some {A} (r : result A) : is_ok r = true -> exists a, r = Ok a.
Proof. destruct r; [eauto|discriminate]. Qed.

Lemma pack_all_addresses inet_aton l : (forall a v, ipv4 a = Ok v -> inet_aton a = Ok v) ->
  Forall (fun a => is_ok (ipv4 a) = true) l -> pack_all inet_aton l = Ok l.
Proof.
  intros Hi. induction 1 as [|a l Ha Hl IH]; [reflexivity|]. cbn [pack_all].
  apply is_ok_some in Ha as [v E]. rewrite (Hi a v E), IH. cbn [result_bind]. destruct (ipv4_canonical a v E) as [-> _]. reflexivity.
Qed.

Lemma addrs_read out : out <> [] -> Forall (fun a => is_ok (ipv4 a) = true) out ->
  List.filter (fun a => negb (String.eqb a "")) (Py.split_on "," (Py.join "," out)) = out.
Proof.
  intros Hn Ho. rewrite Py.split_on_join; [| exact Hn|].
  - clear Hn. induction Ho as [|a out Ha _ IH]; [reflexivity|]. cbn. rewrite IH. apply is_ok_some in Ha as [v E].
    destruct (ipv4_chars _ _ E) as [_ Hne]. apply String.eqb_neq in Hne. rewrite Hne. reflexivity.
  - eapply Forall_impl; [exact Ho|]. intros a Ha. apply is_ok_some in Ha as [v E].
    destruct (ipv4_chars _ _ E) as [H _]. exact (sforall_none dotted_char "," a eq_refl H).
Qed.

(** C10: discovery end to end: what a host with valid IPv4 addresses
    advertises is read by another host as a peer of that name, to be dialled
    at the first advertised address on one of the reader's own networks
    (else at the first), with the three ports as they were configured; the
    host itself, and a reader that has the address and the port, ignores it. *)
Theorem advertised_peer_sighted host st pub_port snapshot_port remote_port inet_aton out env nets l :
  (forall a v, ipv4 a = Ok v -> inet_aton a = Ok v) ->
  out <> [] -> Forall (fun a => is_ok (ipv4 a) = true) out ->
  0 <= remote_port -> 0 <= pub_port -> 0 <= snapshot_port ->
  lan_interfaces env = Ok nets ->
  exists info a,
    build_own_info host pub_port snapshot_port inet_aton (own_name host st) remote_port out = Ok info /\
    best_address nets out a /\
    sight env st l (own_name host st) info =
      if bool_decide (ls_own_host l = Some host) || (existsb (String.eqb a) (ls_own_addresses l) && (remote_port =? ls_own_port l))
      then Ok Ignored
      else Ok (Sighted host (a +:+ ":" +:+ pretty remote_port)%string (Some (a, pub_port, snapshot_port))).
Proof.
  intros Hi Hn Ho Hr Hp Hs Hnets. unfold build_own_info. rewrite pack_all_addresses by assumption. cbn [result_bind].
  destruct (pick_reachable_best env nets out Hnets Hn) as (a & Ha & Hb).
  do 2 eexists. split; [reflexivity|]. split; [exact Hb|]. unfold sight. rewrite own_name_host. cbn [si_properties].
  destruct (bool_decide (ls_own_host l = Some host)) eqn:Eh; [reflexivity|]. rewrite decode_encode.
  unfold choose_address.
  change (get_default TXT_ADDRS "" (own_txt pub_port snapshot_port remote_port out)) with (Py.join "," out).
  rewrite addrs_read by assumption. destruct out as [|a0 out]; [congruence|]. rewrite Ha. cbn [result_bind].
  assert (Hne : a <> "").
  { apply best_address_in in Hb. apply Forall_forall with (x := a) in Ho; [|apply list_elem_of_In, Hb].
    apply is_ok_some in Ho as [v E]. apply (ipv4_chars _ _ E). }
  replace (nonempty (Some a)) with (Some a) by (destruct a; [congruence|reflexivity]). cbn [result_bind].
  unfold is_own. rewrite Eh. cbn [orb si_port].
  replace (bool_decide (Some remote_port = Some (ls_own_port l))) with (remote_port =? ls_own_port l).
  2: { destruct (Z.eqb_spec remote_port (ls_own_port l)) as [->|]; [rewrite bool_decide_eq_true_2 by reflexivity; reflexivity|].
       rewrite bool_decide_eq_false_2 by congruence. reflexivity. }
  destruct (existsb (String.eqb a) (ls_own_addresses l) && (remote_port =? ls_own_port l)); [reflexivity|].
  change (dget TXT_REMOTE_PORT (own_txt pub_port snapshot_port remote_port (a0 :: out))) with (Some (pretty remote_port)).
  change (dget TXT_PUB_PORT (own_txt pub_port snapshot_port remote_port (a0 :: out))) with (Some (pretty pub_port)).
  change (dget TXT_SNAPSHOT_PORT (own_txt pub_port snapshot_port remote_port (a0 :: out))) with (Some (pretty snapshot_port)).
  cbv iota. apply String.eqb_neq in Hne. rewrite Hne. cbn [orb].
  assert (Hd : String.eqb (pretty remote_port) "" = false).
  { apply String.eqb_neq. intros E. pose proof (int_of_str_pretty remote_port Hr) as X. rewrite E in X. discriminate. }
  rewrite Hd, int_of_str_pretty by assumption. unfold port_of. rewrite !int_of_str_pretty by assumption. reflexivity.
Qed.

(** ** One live link per peer *)

(** A link's operations leave its stop flag alone. *)
Definition calm {A} (m : M pstate A) : Prop := stays (fun p p' => p_stopped p' = p_stopped p) m.

#[export] Instance calm_preorder : PreOrder (fun p p' : pstate => p_stopped p' = p_stopped p).
Proof. split; [intros p; reflexivity|intros p q r H1 H2; congruence]. Qed.

Lemma calm_store {A} (m : M db A) : calm (p_in_store m).
Proof. intros s. unfold mstate, p_in_store. destruct (m (p_db s)). reflexivity. Qed.
Lemma calm_bus {A} (m : M bus A) : calm (p_in_bus m).
Proof. intros s. unfold mstate, p_in_bus. destruct (m (p_bus s)). reflexivity. Qed.
Lemma calm_now clock : calm (p_now clock).
Proof. intros s. reflexivity. Qed.

Ltac calm := repeat (stays_step || apply calm_store || apply calm_bus || apply calm_now || apply stays_modify; try reflexivity).







(** Two states with the same table and the same links, up to what the
    links' threads do. *)
Definition link_core (l : link) : string * bool * bool := (lk_host l, lk_started l, lk_stop l).
Definition same_links (s s' : disc) : Prop :=
  d_links s' = d_links s /\ map link_core (d_heap s') = map link_core (d_heap s).

#[export] Instance same_links_preorder : PreOrder same_links.
Proof. split; [split; reflexivity|]. intros a b c [H1 H2] [H3 H4]. split; congruence. Qed.












(** *** Calls of [connect_peer] among everything else *)

(** A [PeerDiscovery] and the calls under way, by their peer: at most one
    for a peer at a time. *)
Record net := mkNet { n_disc : disc; n_calls : gmap string attempt }.












(** A step keeps every peer's part in order, its own included. *)
Definition after_step (h : string) (r : result (option attempt)) (c : gmap string attempt) : gmap string attempt :=
  match r with Ok (Some a) => <[h := a]> c | _ => delete h c end.





Section Steps.
Variable clock : nat -> Z.







End Steps.


(** *** [stop] *)










(** Everything that can happen to a [PeerDiscovery], in any order. *)
Inductive disc_op :=
| OStart (o : start_outcome)
| OStop
| OCall (peer address : string) (pub_port snapshot_port : Z) (remote_port : option Z)
| OStep (peer : string)
| OService (env : network_env) (name : string) (info : option service_info)
| OSnapshot (i : nat) (answer : fetch_reply)
| OMessage (i : nat) (message : option json)
| OMonitor (i : nat) (disconnected : bool)
| OResync (i : nat) (answer : fetch_reply)
| OForce (i : nat) (answer : fetch_reply)
| OResyncAll
| OTurn (env : network_env) (update : result unit) (mono : Z * Z * Z * Z) (next : Z * Z)
| ORemotePort (port : Z).

Section Reachable.
Variable clock : nat -> Z.
Variables host service_type : string.
Variables pub_port snapshot_port : Z.
Variable pinned : bool.
Variable self_check_interval : Z.
Variable inet_aton : string -> result Z.

(** What an operation does besides the calls' steps. *)
Definition plain_op (o : disc_op) : M disc unit :=
  match o with
  | OStart x => start host service_type pub_port snapshot_port inet_aton x
  | OStop => stop
  | OCall _ _ _ _ _ | OStep _ | OService _ _ _ => mret tt
  | OSnapshot i answer => snapshot_thread clock i answer
  | OMessage i message => recv_thread clock i message
  | OMonitor i b => monitor_thread i b
  | OResync i answer => resync_thread clock i answer
  | OForce i answer => force_thread clock i answer
  | OResyncAll => resync_reachable_peers
  | OTurn env update mono next =>
      self_check_turn host pub_port snapshot_port pinned self_check_interval inet_aton env update mono next ;;! mret tt
  | ORemotePort port => set_remote_port port
  end.

Definition disc_exec (o : disc_op) (w : net) : net :=
  match o with
  | OCall peer address p q r => mkNet (n_disc w) (<[peer := connect_peer peer address p q r]> (n_calls w))
  | OStep peer =>
      match n_calls w !! peer with
      | None => w
      | Some a => let m := connect_step clock a in
                  mkNet (mstate m (n_disc w)) (after_step peer (mresult m (n_disc w)) (n_calls w))
      end
  | OService env name info =>
      let m := add_service clock service_type env name info in
      mkNet (mstate m (n_disc w))
        match mresult m (n_disc w) with Ok (Some a) => <[at_peer a := a]> (n_calls w) | _ => n_calls w end
  | _ => mkNet (mstate (plain_op o) (n_disc w)) (n_calls w)
  end.

Definition disc_run (l : list disc_op) (w : net) : net := fold_left (fun w o => disc_exec o w) l w.









Definition live (l : link) : bool := lk_started l && negb (lk_stop l).

Lemma live_core l : live l = (link_core l).1.2 && negb (link_core l).2.
Proof. reflexivity. Qed.


End Reachable.

(** ** What [start] opens, [stop] closes *)

Definition is_socket (r : resource) : bool := match r with RPub | RRep | RLink _ => true | _ => false end.
Definition uses_mdns (r : resource) : bool := match r with RService | RBrowser | RSelfCheck => true | _ => false end.

(** What may be opened and closed when: nothing twice, a socket within the
    context, the mDNS objects within the [Zeroconf] instance, the request
    thread within its socket. *)
Definition may_open (r : resource) (open : list resource) : bool :=
  negb (bool_decide (r ∈ open)) &&
  (if is_socket r then bool_decide (RContext ∈ open)
   else if uses_mdns r then bool_decide (RZeroconf ∈ open)
   else match r with RRepThread => bool_decide (RRep ∈ open) | _ => true end).
Definition may_close (r : resource) (open : list resource) : bool :=
  bool_decide (r ∈ open) &&
  match r with
  | RContext => negb (existsb is_socket open)
  | RZeroconf => negb (existsb uses_mdns open)
  | RRep => negb (bool_decide (RRepThread ∈ open))
  | _ => true
  end.

Definition without (r : resource) (open : list resource) : list resource :=
  List.filter (fun r' => negb (bool_decide (r' = r))) open.

(** A history in which every opening and closing was allowed, and what it
    leaves open. *)
Fixpoint replay (log : list devent) (open : list resource) : option (list resource) :=
  match log with
  | [] => Some open
  | Opened r :: l => if may_open r open then replay l (r :: without r open) else None
  | Closed r :: l => if may_close r open then replay l (without r open) else None
  end.








(** Threads open and close nothing. *)
Definition same_open (s s' : disc) : Prop :=
  d_open s' = d_open s /\ d_log s' = d_log s /\ d_started s' = d_started s.

#[export] Instance same_open_preorder : PreOrder same_open.
Proof. split; [repeat split|]. intros a b c (H1 & H2 & H3) (H5 & H6 & H7). repeat split; congruence. Qed.
































Section Lifecycle.
Variable clock : nat -> Z.
Variables host service_type : string.
Variables pub_port snapshot_port : Z.
Variable pinned : bool.
Variable self_check_interval : Z.
Variable inet_aton : string -> result Z.






End Lifecycle.

(** ** Readdressing *)

Section Readdressing.
Variable host : string.
Variables pub_port snapshot_port : Z.
Variable inet_aton : string -> result Z.

(** a change of the host's addresses: it is re-announced unless only
    loopback is left, with the listener's filter following; but one whose
    announcement fails is remembered as made, so no later look at the same
    addresses announces it. *)
Theorem readdressed pinned env new update own s : pinned = false -> d_own_info s = Some own -> has RZeroconf s = true ->
  local_ipv4s env = Ok new ->
  let (r, s') := refresh_addresses host pub_port snapshot_port pinned inet_aton env update s in
  let loopback_only := forallb (fun a => Py.startswith a "127.") new in
  if loopback_only || bool_decide (new = d_addresses s) then r = Ok false /\ s' = s
  else
    d_addresses s' = new /\
    match build_own_info host pub_port snapshot_port inet_aton (si_name own) (d_remote_port s) new, update with
    | Ok info, Ok _ =>
        r = Ok true /\ d_own_info s' = Some info /\
        option_map ls_own_addresses (d_listener s') = option_map (fun _ => new) (d_listener s)
    | _, _ =>
        r <> Ok true /\ d_own_info s' = Some own /\ d_listener s' = d_listener s /\
        forall update', refresh_addresses host pub_port snapshot_port pinned inet_aton env update' s' = (Ok false, s')
    end.
Proof.
  intros -> Ho Hz Hn. unfold refresh_addresses at 1. rewrite bind_run. cbn [mget]. rewrite Ho, Hz. cbn [orb negb].
  rewrite bind_run. cbn [mlift]. rewrite Hn. destruct (forallb _ new) eqn:El; [cbn; auto|]. cbn [orb].
  case_bool_decide as En; [cbn; auto|]. rewrite bind_run. cbn [mmodify].
  assert (Again : forall update', refresh_addresses host pub_port snapshot_port false inet_aton env update' (with_addresses new s) = (Ok false, with_addresses new s)).
  { intros update'. unfold refresh_addresses. rewrite bind_run. cbn [mget]. cbn [d_own_info with_addresses]. rewrite Ho.
    change (has RZeroconf (with_addresses new s)) with (has RZeroconf s). rewrite Hz. cbn [orb negb].
    rewrite bind_run. cbn [mlift]. rewrite Hn, El. cbn [d_addresses with_addresses]. rewrite bool_decide_eq_true_2 by reflexivity. reflexivity. }
  rewrite bind_run. cbn [mlift]. destruct (build_own_info _ _ _ _ _ _ new) as [info|e].
  - rewrite bind_run. destruct update as [[]|e]; cbn -[refresh_addresses]; (split; [reflexivity|]).
    + split; [reflexivity|]. split; [reflexivity|]. destruct (d_listener s); reflexivity.
    + split; [discriminate|]. split; [exact Ho|]. split; [reflexivity|exact Again].
  - cbn -[refresh_addresses]. split; [reflexivity|]. split; [discriminate|]. split; [exact Ho|]. split; [reflexivity|exact Again].
Qed.
End Readdressing.

(** ** Examples *)

Definition wired_net : network_env := mkNetworkEnv (Some "10.0.0.7")
  (Some [mkAdapter "eth0" "eth0" [mkAdapterIp (Some "10.0.0.7") 24]; mkAdapter "wlan0" "wlan0" [mkAdapterIp (Some "10.0.1.7") 24]]) (Err OSError).
Definition fresh_disc : disc := mkDisc empty_db 0 empty_bus 7440 ["10.0.0.7"] false [] [] None None [] [] [].
Definition well : start_outcome := mkStartOutcome (Ok tt) (Ok tt) (Ok tt) (Ok "loki._mbregistry._tcp.local.").

Lemma advertised_peer_sighted_witness : exists info a,
  build_own_info "gala" 7442 7443 ipv4 (own_name "gala" SERVICE_TYPE) 7440 ["10.0.3.9"; "10.0.1.9"] = Ok info /\
  best_address match lan_interfaces wired_net with Ok l => l | Err _ => [] end ["10.0.3.9"; "10.0.1.9"] a /\
  sight wired_net SERVICE_TYPE (mkListener ["10.0.0.7"] 7440 (Some "loki")) (own_name "gala" SERVICE_TYPE) info =
  if bool_decide (Some "loki" = Some "gala") || (existsb (String.eqb a) ["10.0.0.7"] && (7440 =? 7440)) then Ok Ignored
  else Ok (Sighted "gala" (a +:+ ":" +:+ pretty 7440)%string (Some (a, 7442, 7443))).
Proof.
  apply (advertised_peer_sighted "gala" SERVICE_TYPE 7442 7443 7440 ipv4 ["10.0.3.9"; "10.0.1.9"] wired_net _ (mkListener ["10.0.0.7"] 7440 (Some "loki")));
    [auto|discriminate|repeat constructor|lia|lia|lia|reflexivity].
Defined.

Definition example_net : net := mkNet fresh_disc ∅.
Definition example_disc_run (l : list disc_op) : net := disc_run Z.of_nat "loki" SERVICE_TYPE 7442 7443 false 60 ipv4 l example_net.




Lemma readdressed_witness :
  let s := n_disc (example_disc_run [OStart well]) in
  match refresh_addresses "loki" 7442 7443 false ipv4 wired_net (Err OSError) s with
  | (r, s') => r = Err OSError /\ d_addresses s' = ["10.0.0.7"; "10.0.1.7"] /\ option_map si_addresses (d_own_info s') = Some ["10.0.0.7"]
      /\ refresh_addresses "loki" 7442 7443 false ipv4 wired_net (Ok tt) s' = (Ok false, s')
  end.
Proof.
  set (s := n_disc _).
  pose proof (readdressed "loki" 7442 7443 ipv4 false wired_net ["10.0.0.7"; "10.0.1.7"] (Err OSError)
    (mkServiceInfo "loki._mbregistry._tcp.local." ["10.0.0.7"] (Some 7440) "loki.local." (encode_txt (own_txt 7442 7443 7440 ["10.0.0.7"])))
    s eq_refl ltac:(vm_compute; reflexivity) ltac:(vm_compute; reflexivity) ltac:(vm_compute; reflexivity)) as H.
  destruct (refresh_addresses "loki" 7442 7443 false ipv4 wired_net (Err OSError) s) as [r s'] eqn:E.
  vm_compute in E. injection E as <- <-. split; [reflexivity|]. split; [reflexivity|]. split; [reflexivity|].
  exact (proj2 (proj2 (proj2 (proj2 H))) (Ok tt)).
Defined.

(** Two connections to one peer that overlap, each past the table before the
    other comes back to it, leave a live link that the table does not have:
    [stop] never stops it, and the context is closed with its socket open. *)
Example connect_race :
  let go m s := mstate m s in
  let at_ p := moved (connect_peer "gala" "10.0.1.9" 7442 7443 None) p in
  let step p s := mstate (connect_step Z.of_nat (at_ p)) s in
  let s := go (start "loki" SERVICE_TYPE 7442 7443 ipv4 well) fresh_disc in
  let s := step PPop s in                     (* the browser's, and the command line's *)
  let s := step PPop s in
  let s := step (PStart 0) (step PPut s) in
  let s := step (PStart 1) (step PPut s) in
  map live (d_heap s) = [true; true] /\ d_links s = [("gala", 1%nat)] /\
  d_open (mstate stop s) = [RLink 0] /\ replay (d_log (mstate stop s)) [] = None.
Proof. vm_compute. repeat split. Qed.

(** The same call's phases, as it goes through them. *)
Example connect_race_steps :
  let s := mstate (start "loki" SERVICE_TYPE 7442 7443 ipv4 well) fresh_disc in
  let a := connect_peer "gala" "10.0.1.9" 7442 7443 None in
  map (fun p => option_map at_phase (match mresult (connect_step Z.of_nat (moved a p)) s with Ok x => x | Err _ => None end))
    [PRecord None; PPop; PPut] = [Some PPop; Some PPut; Some (PStart 0)].
Proof. vm_compute. reflexivity. Qed.

(** A start whose second bind fails: what it opened stays open, [stop] does
    nothing, and a second start opens a second context. *)
Example start_leak :
  let s := mstate (start "loki" SERVICE_TYPE 7442 7443 ipv4 (mkStartOutcome (Ok tt) (Err OSError) (Ok tt) (Ok ""))) fresh_disc in
  d_open s = [RRep; RPub; RContext] /\ mstate stop s = s /\
  replay (d_log (mstate (start "loki" SERVICE_TYPE 7442 7443 ipv4 well) s)) [] = None.
Proof. vm_compute. repeat split. Qed.

(** A snapshot whose devices are not a list ends the thread before it starts
    the receiver: no message of that peer is applied until it is found
    again. *)
Example malformed_snapshot_deafens :
  let step := OStep "gala" in
  let s := n_disc (example_disc_run
    [OStart well; OCall "gala" "10.0.1.9" 7442 7443 (Some 7440); step; step; step; step; OSnapshot 0 (Reply (Some (JObj [("devices", JNull)])));
     OMonitor 0 true; OMonitor 0 false; OResync 0 (Reply (Some (JObj [])))]) in
  map live (d_heap s) = [true] /\ map lk_dropped (d_heap s) = [false] /\ map lk_receiving (d_heap s) = [false] /\
  (forall message, recv_thread Z.of_nat 0 message s = (Ok tt, s)).
Proof. vm_compute. repeat split. Qed.
