(* ===== verification/Servers.v ===== *)
(** * [registry/api.py], [api_windows.py], [remote_api.py], [console_compat/*.py]: the servers'
      own lives

    Starting and stopping the local server (on a socket or a pipe), the remote one, the names API
    and the relay pool, with what each step acquires and what of it may
    fail; the accept loops; the pool's mDNS advertisement and its refresh.
    What they serve is in [Api], [RemoteApi], [NamesApi] and [RelayPool].
    A join is taken to succeed within its two seconds. *)

From S2P Require Import Prelude Tables Json NetAddr Identity Virtual Store StoreNames Locks EventBus Peering Discovery.
Local Open Scope py_scope.

Definition POOL_SERVICE_TYPE : string := "_mbrelay._tcp.local.".
Definition TXT_REGISTRY_PORT : string := "registry".

(** ** What a server holds *)

Inductive part := PSocket | PAccept | PSweep | PHttpd | PServe | PZeroconf | PService | PAddress.

Definition part_eqb (p q : part) : bool :=
  match p, q with
  | PSocket, PSocket | PAccept, PAccept | PSweep, PSweep | PHttpd, PHttpd
  | PServe, PServe | PZeroconf, PZeroconf | PService, PService | PAddress, PAddress => true
  | _, _ => false
  end.

Record server := mkServer {
  sv_open : list part;                  (* held, the newest first *)
  sv_log : list (bool * part);          (* acquired or given up *)
  sv_stop : bool;                       (* [_stop_event] *)
  sv_started : bool;                    (* [_started] *)
  sv_port : Z;
  sv_conns : list Z;                    (* [_conn_threads] *)
  sv_addresses : list string;           (* [_advertise_addresses] *)
  sv_info : option service_info;        (* [_own_info] *)
  sv_db : db;                           (* shared *)
  sv_path : option Z }.                 (* shared: whose socket is at the path *)

Definition sv_set_open (v : list part) (e : bool * part) (s : server) : server :=
  mkServer v (sv_log s ++ [e]) (sv_stop s) (sv_started s) (sv_port s) (sv_conns s) (sv_addresses s) (sv_info s) (sv_db s) (sv_path s).
Definition sv_set_stop (v : bool) (s : server) : server :=
  mkServer (sv_open s) (sv_log s) v (sv_started s) (sv_port s) (sv_conns s) (sv_addresses s) (sv_info s) (sv_db s) (sv_path s).
Definition sv_set_started (v : bool) (s : server) : server :=
  mkServer (sv_open s) (sv_log s) (sv_stop s) v (sv_port s) (sv_conns s) (sv_addresses s) (sv_info s) (sv_db s) (sv_path s).
Definition sv_set_port (v : Z) (s : server) : server :=
  mkServer (sv_open s) (sv_log s) (sv_stop s) (sv_started s) v (sv_conns s) (sv_addresses s) (sv_info s) (sv_db s) (sv_path s).
Definition sv_set_conns (v : list Z) (s : server) : server :=
  mkServer (sv_open s) (sv_log s) (sv_stop s) (sv_started s) (sv_port s) v (sv_addresses s) (sv_info s) (sv_db s) (sv_path s).
Definition sv_set_addresses (v : list string) (s : server) : server :=
  mkServer (sv_open s) (sv_log s) (sv_stop s) (sv_started s) (sv_port s) (sv_conns s) v (sv_info s) (sv_db s) (sv_path s).
Definition sv_set_info (v : option service_info) (s : server) : server :=
  mkServer (sv_open s) (sv_log s) (sv_stop s) (sv_started s) (sv_port s) (sv_conns s) (sv_addresses s) v (sv_db s) (sv_path s).
Definition sv_set_path (v : option Z) (s : server) : server :=
  mkServer (sv_open s) (sv_log s) (sv_stop s) (sv_started s) (sv_port s) (sv_conns s) (sv_addresses s) (sv_info s) (sv_db s) v.

Definition sv_on_db {A} (m : M db A) : M server A := fun s =>
  let (r, d) := m (sv_db s) in
  (r, mkServer (sv_open s) (sv_log s) (sv_stop s) (sv_started s) (sv_port s) (sv_conns s) (sv_addresses s) (sv_info s) d (sv_path s)).

Definition acquire_part (p : part) : M server unit := mmodify (fun s => sv_set_open (p :: sv_open s) (true, p) s).
(** Closing, or joining, what there is. *)
Definition drop_part (p : part) : M server unit :=
  mmodify (fun s => if existsb (part_eqb p) (sv_open s)
                    then sv_set_open (List.filter (fun q => negb (part_eqb p q)) (sv_open s)) (false, p) s else s).

(** How the operating system and zeroconf answer each step. *)
Record answers := mkAnswers {
  an_mkdir : result unit;
  an_unlink : result unit;
  an_bind : result Z;                   (* the port bound *)
  an_chmod : result unit;
  an_listen : result unit;
  an_zeroconf : result unit;
  an_register : result string;          (* the name registered *)
  an_unregister : result unit }.

Section Servers.
Variable o : answers.

(** ** [RegistryAPIServer] *)

Definition api_start (me : Z) : M server unit :=
  sv_on_db sweep_virtual ;;!
  mlift (an_mkdir o) ;;!
  path <-! mgets sv_path ;;
  match path with Some _ => mlift (an_unlink o) ;;! mmodify (sv_set_path None) | None => mret tt end ;;!
  acquire_part PSocket ;;!
  mlift (an_bind o) ;;! mmodify (sv_set_path (Some me)) ;;!
  mlift (an_chmod o) ;;!
  mlift (an_listen o) ;;!
  mmodify (sv_set_stop false) ;;!
  acquire_part PAccept ;;!
  acquire_part PSweep.

Definition unlink_path : M server unit :=
  mtry (mlift (an_unlink o) ;;! mmodify (sv_set_path None))
    (fun e => match e with FileNotFoundError | OSError => Some (mret tt) | _ => None end).

Definition api_stop : M server unit :=
  mmodify (sv_set_stop true) ;;!
  drop_part PSocket ;;!
  drop_part PAccept ;;!
  drop_part PSweep ;;!
  unlink_path.

(** ** [RemoteAPIServer] *)

Definition remote_start : M server unit :=
  acquire_part PSocket ;;!
  port <-! mlift (an_bind o) ;;
  mlift (an_listen o) ;;!
  mmodify (sv_set_port port) ;;!
  mmodify (sv_set_stop false) ;;!
  acquire_part PAccept ;;!
  acquire_part PSweep.

Definition remote_stop : M server unit :=
  mmodify (sv_set_stop true) ;;!
  drop_part PSocket ;;!
  drop_part PAccept ;;!
  drop_part PSweep.

(** ** [WindowsPipeAPIServer] *)

(** Nothing is bound: the accept loop makes the pipe. *)
Definition pipe_start : M server unit :=
  mmodify (sv_set_stop false) ;;!
  acquire_part PAccept ;;!
  acquire_part PSweep.

(** After the accept thread's pending call is cancelled (ApiWindows). *)
Definition pipe_stop : M server unit :=
  mmodify (sv_set_stop true) ;;!
  drop_part PAccept ;;!
  drop_part PSweep.

(** ** [NamesAPI] *)

(** [HTTPServer] gives its socket up when it cannot bind. *)
Definition names_start : M server unit :=
  started <-! mgets sv_started ;;
  if started : bool then mret tt
  else
    port <-! mlift (an_bind o) ;;
    acquire_part PHttpd ;;!
    mmodify (sv_set_port port) ;;!
    acquire_part PServe ;;!
    mmodify (sv_set_started true).

Definition names_stop : M server unit :=
  started <-! mgets sv_started ;;
  if negb started then mret tt
  else
    drop_part PHttpd ;;!
    drop_part PServe ;;!
    mmodify (sv_set_started false).

(** ** [RelayPool] *)

Section Pool.
Variable instance_host : string.
Variable names_api_port : Z.
Variable pinned : bool.                              (* an address was given *)
Variable inet_aton : string -> result Z.

Definition pool_own_info (name : string) (port : Z) (addresses : list string) : result service_info :=
  let! packed := pack_all inet_aton addresses in
  Ok (mkServiceInfo name packed (Some port) (instance_host +:+ ".local.")%string
        (encode_txt [(TXT_REGISTRY_PORT, pretty names_api_port)])).

Definition pool_start : M server unit :=
  started <-! mgets sv_started ;;
  if started : bool then mret tt
  else
    acquire_part PSocket ;;!
    port <-! mlift (an_bind o) ;;
    mlift (an_listen o) ;;!
    mmodify (sv_set_port port) ;;!
    mmodify (sv_set_stop false) ;;!
    acquire_part PAccept ;;!
    mlift (an_zeroconf o) ;;! acquire_part PZeroconf ;;!
    s <-! mget ;;
    info <-! mlift (pool_own_info (instance_host +:+ "." +:+ POOL_SERVICE_TYPE)%string (sv_port s) (sv_addresses s)) ;;
    mmodify (sv_set_info (Some info)) ;;!
    name <-! mlift (an_register o) ;;
    acquire_part PService ;;!
    mmodify (sv_set_info (Some (mkServiceInfo name (si_addresses info) (si_port info) (si_server info) (si_properties info)))) ;;!
    acquire_part PAddress ;;!
    mmodify (sv_set_started true).

(** Closing zeroconf withdraws what is still advertised. *)
Definition pool_stop : M server unit :=
  started <-! mgets sv_started ;;
  if negb started then mret tt
  else
    drop_part PAddress ;;!
    info <-! mgets sv_info ;;
    match info with Some _ => mtry (mlift (an_unregister o)) (fun _ => Some (mret tt)) | None => mret tt end ;;!
    drop_part PService ;;! drop_part PZeroconf ;;!
    mmodify (sv_set_info None) ;;!
    mmodify (sv_set_stop true) ;;!
    drop_part PSocket ;;!
    drop_part PAccept ;;!
    mmodify (sv_set_conns []) ;;!
    mmodify (sv_set_started false).

(** [refresh_address]; [update] is what [update_service] did. *)
Definition pool_refresh (env : network_env) (update : result unit) : M server bool :=
  s <-! mget ;;
  match sv_info s with
  | None => mret false
  | Some own =>
      if pinned || negb (existsb (part_eqb PZeroconf) (sv_open s)) then mret false
      else
        found <-! mlift (local_ipv4s env) ;;
        let new := List.filter (fun a => negb (String.eqb a "") && negb (Py.startswith a "127.")) found in
        if bool_decide (new = []) || bool_decide (new = sv_addresses s) then mret false
        else
          mmodify (sv_set_addresses new) ;;!
          info <-! mlift (pool_own_info (si_name own) (sv_port s) new) ;;
          mlift update ;;!
          mmodify (sv_set_info (Some info)) ;;!
          mret true
  end.

(** A turn of [_address_loop]. *)
Definition pool_address_turn (env : network_env) (update : result unit) : M server unit :=
  mtry (pool_refresh env update ;;! mret tt) (fun _ => Some (mret tt)).
End Pool.

(** ** Accepting *)

(** What [accept] gives in turn; [None] when the socket is closed.  The
    connections are given a thread each; what fails in setting a socket's
    options is passed over. *)
Fixpoint accept_loop (accepts : list (option Z)) : M server unit :=
  match accepts with
  | [] => mret tt
  | conn :: accepts' =>
      stop <-! mgets sv_stop ;;
      if stop : bool then mret tt
      else match conn with
           | None => mret tt
           | Some c => mmodify (fun s => sv_set_conns (sv_conns s ++ [c]) s) ;;! accept_loop accepts'
           end
  end.
End Servers.
