(* ===== verification/ServersFacts.v ===== *)
(** * Properties of the servers' lives

    What a start leaves open, what a stop closes, and what a start that
    fails leaves behind. *)

From S2P Require Import Prelude Tables NetAddr Identity Virtual Store StoreNames Locks EventBus Peering Discovery Servers.
Local Open Scope py_scope.

Inductive which := LocalApi | LocalPipe | RemoteApi | NamesApi | Pool.

Section Lives.
Variable o : answers.
Variable me : Z.
Variable instance_host : string.
Variable names_api_port : Z.
Variable inet_aton : string -> result Z.

Definition start_of (w : which) : M server unit :=
  match w with
  | LocalApi => api_start o me
  | LocalPipe => pipe_start
  | RemoteApi => remote_start o
  | NamesApi => names_start o
  | Pool => pool_start o instance_host names_api_port inet_aton
  end.
Definition stop_of (w : which) : M server unit :=
  match w with LocalApi => api_stop o | LocalPipe => pipe_stop | RemoteApi => remote_stop | NamesApi => names_stop | Pool => pool_stop o end.

(** What a running server holds, as acquired, and in the order of closing. *)
Definition parts_of (w : which) : list part :=
  match w with
  | LocalApi | RemoteApi => [PSocket; PAccept; PSweep]
  | LocalPipe => [PAccept; PSweep]
  | NamesApi => [PHttpd; PServe]
  | Pool => [PSocket; PAccept; PZeroconf; PService; PAddress]
  end.
Definition closing_of (w : which) : list part :=
  match w with
  | LocalApi | RemoteApi => [PSocket; PAccept; PSweep]
  | LocalPipe => [PAccept; PSweep]
  | NamesApi => [PHttpd; PServe]
  | Pool => [PAddress; PService; PZeroconf; PSocket; PAccept]
  end.

(** The address refresher is joined before zeroconf is closed under it, the
    sockets are closed before the threads they block are joined. *)
Lemma closing_all w : Permutation (parts_of w) (closing_of w).
Proof. destruct w; cbn; solve_Permutation. Qed.

Definition idle (s : server) : Prop := sv_open s = [] /\ sv_started s = false.

Lemma sweep_virtual_returns d : exists uids, mresult sweep_virtual d = Ok uids.
Proof.
  unfold sweep_virtual, mresult, mbind, mgets. cbn.
  assert (H : forall l d, fst (mfor l (fun uid => mmodify (fun s => set_devices (tdel dr_uid uid (devices s)) s)) d) = Ok tt).
  { induction l as [|x l IH]; intros d'; [reflexivity|]. apply IH. }
  specialize (H (map dr_uid (List.filter is_virtual (devices d))) d).
  destruct (mfor _ _ d) as [r d']. cbn in H. subst r. eexists. reflexivity.
Qed.

(** A start on an idle server, case by case. *)
Definition outcome (w : which) (s : server) : Prop :=
  let s1 := mstate (start_of w) s in
  let s2 := mstate (stop_of w) s1 in
  match mresult (start_of w) s with
  | Ok _ => sv_open s1 = rev (parts_of w) /\ idle s2 /\
            sv_log s2 = sv_log s ++ map (pair true) (parts_of w) ++ map (pair false) (closing_of w)
  | Err _ => match w with
             | Pool => s2 = s1 /\ sv_started s1 = false /\ exists n, sv_open s1 = rev (firstn n (parts_of w))
             | _ => idle s2
             end
  end.

Ltac run_it := unfold outcome, idle, mresult, mstate; cbn; rewrite <- ?app_assoc; cbn; auto.

Lemma unlink_keeps s : let s' := mstate (unlink_path o) s in
  sv_open s' = sv_open s /\ sv_started s' = sv_started s /\ sv_log s' = sv_log s.
Proof. unfold unlink_path, mstate, mtry, mbind, mlift. destruct (an_unlink o) as [[]|[]]; auto. Qed.

Definition api_closed (s : server) : server :=
  mstate (mmodify (sv_set_stop true) ;;! drop_part PSocket ;;! drop_part PAccept ;;! drop_part PSweep) s.

Lemma api_stop_run s : let s' := mstate (api_stop o) s in
  sv_open s' = sv_open (api_closed s) /\ sv_started s' = sv_started s /\ sv_log s' = sv_log (api_closed s).
Proof.
  cbv zeta. unfold api_stop, mstate, mbind, mmodify. pose proof (unlink_keeps (api_closed s)) as (A & B & D).
  unfold mstate, api_closed, mstate, mbind, drop_part, mmodify in *. cbn [snd] in *. rewrite A, B, D.
  repeat split. repeat case_match; reflexivity.
Qed.

Lemma api_outcome s : idle s -> outcome LocalApi s.
Proof.
  destruct s as [op lg st sd pt cn ad inf d path]. intros [E1 E2]. cbn in E1, E2. subst op sd.
  destruct (sweep_virtual_returns d) as [uids Hd]. unfold outcome, idle. cbn [start_of stop_of].
  match goal with |- context [mstate (api_stop o) ?x] => destruct (api_stop_run x) as (A & B & D); rewrite A, B, D end.
  clear A B D. unfold api_closed, mresult, mstate in *.
  unfold api_start, sv_on_db, mbind. cbn [sv_db]. destruct (sweep_virtual d) as [r d']. cbn in Hd. subst r.
  destruct o as [mk ul bd ch ls zc rg ur]. cbn.
  destruct mk as [[]|e]; [|cbn; auto]. destruct path as [p|]; [destruct ul as [[]|eu]; [|cbn; auto]|];
    (destruct bd as [port|eb]; [|cbn; auto]); (destruct ch as [[]|ec]; [|cbn; auto]); (destruct ls as [[]|el]; [|cbn; auto]);
    cbn; rewrite <- ?app_assoc; cbn; auto.
Qed.

Lemma remote_outcome s : idle s -> outcome RemoteApi s.
Proof.
  destruct s as [op lg st sd pt cn ad inf d path]. intros [E1 E2]. cbn in E1, E2. subst op sd. run_it.
  destruct (an_bind o) as [port|eb]; [|cbn; auto]. destruct (an_listen o) as [[]|el]; cbn; rewrite <- ?app_assoc; cbn; auto.
Qed.

Lemma pipe_outcome s : idle s -> outcome LocalPipe s.
Proof.
  destruct s as [op lg st sd pt cn ad inf d path]. intros [E1 E2]. cbn in E1, E2. subst op sd. run_it.
Qed.

Lemma names_outcome s : idle s -> outcome NamesApi s.
Proof.
  destruct s as [op lg st sd pt cn ad inf d path]. intros [E1 E2]. cbn in E1, E2. subst op sd. run_it.
  destruct (an_bind o) as [port|eb]; cbn; rewrite <- ?app_assoc; cbn; auto.
Qed.

Lemma pool_outcome s : idle s -> outcome Pool s.
Proof.
  destruct s as [op lg st sd pt cn ad inf d path]. intros [E1 E2]. cbn in E1, E2. subst op sd. run_it.
  destruct (an_bind o) as [port|eb]; [|cbn; repeat split; exists 1%nat; reflexivity].
  destruct (an_listen o) as [[]|el]; [|cbn; repeat split; exists 1%nat; reflexivity].
  destruct (an_zeroconf o) as [[]|ez]; [|cbn; repeat split; exists 2%nat; reflexivity].
  cbn. destruct (pool_own_info _ _ _ _ _ _) as [info|e]; cbn; [|repeat split; exists 3%nat; reflexivity].
  destruct (an_register o) as [name|e]; cbn; [|repeat split; exists 3%nat; reflexivity].
  destruct (an_unregister o) as [[]|e]; cbn; rewrite <- ?app_assoc; cbn; auto.
Qed.
End Lives.

(** ** Properties *)

(** on an idle server a start that succeeds holds exactly the server's
    socket, threads and advertisement, and the stop after it closes each of
    them once, in the order their dependencies ask, and leaves the server
    idle, to be started again. After a start that fails, the stop of the
    local, the remote and the names server closes whatever had been opened;
    the relay pool's does nothing, and what was opened before the failure,
    a prefix of what it holds, stays open. *)
Theorem servers_balanced o me instance_host names_api_port inet_aton w s :
  idle s -> outcome o me instance_host names_api_port inet_aton w s.
Proof.
  destruct w; [apply api_outcome|apply pipe_outcome|apply remote_outcome|apply names_outcome|apply pool_outcome].
Qed.

Definition idle_server : server := mkServer [] [] false false 0 [] ["10.0.0.7"] None empty_db None.
Definition willing : answers := mkAnswers (Ok tt) (Ok tt) (Ok 7444) (Ok tt) (Ok tt) (Ok tt) (Ok "loki._mbrelay._tcp.local.") (Ok tt).

Lemma servers_balanced_witness :
  let start := start_of willing 1 "loki" 7445 ipv4 Pool in let stop := stop_of willing Pool in
  let s1 := mstate start idle_server in
  mresult start idle_server = Ok tt /\ sv_port s1 = 7444 /\ sv_open s1 = [PAddress; PService; PZeroconf; PAccept; PSocket] /\
  sv_open (mstate stop s1) = [].
Proof.
  intros start stop s1. pose proof (servers_balanced willing 1 "loki" 7445 ipv4 Pool idle_server (conj eq_refl eq_refl)) as H.
  unfold outcome in H. fold start stop in H. fold s1 in H.
  assert (E : mresult start idle_server = Ok tt) by (vm_compute; reflexivity). rewrite E in H.
  destruct H as (H1 & (H2 & _) & _). split; [exact E|]. split; [vm_compute; reflexivity|]. split; [exact H1|exact H2].
Defined.

(** The socket file is removed by path: a daemon started while another runs
    takes its path over, and the first one's stop then removes the second's
    file, which is left with a socket nobody can find. *)
Example stop_removes_anothers_socket :
  let first := mstate (api_start willing 1) idle_server in
  let second := mstate (api_start willing 2) (mkServer [] [] false false 0 [] [] None (sv_db first) (sv_path first)) in
  let first_ends := mstate (api_stop willing) (sv_set_path (sv_path second) first) in
  sv_path second = Some 2 /\ sv_open second = [PSweep; PAccept; PSocket] /\ sv_path first_ends = None.
Proof. vm_compute. repeat split. Qed.

(** The new addresses are stored before they are announced: an announcement
    that fails is never made again. *)
Lemma pool_announcement_lost instance_host names_api_port inet_aton env e s own found info :
  sv_info s = Some own -> existsb (part_eqb PZeroconf) (sv_open s) = true -> local_ipv4s env = Ok found ->
  let new := List.filter (fun a => negb (String.eqb a "") && negb (Py.startswith a "127.")) found in
  new <> [] -> new <> sv_addresses s ->
  pool_own_info instance_host names_api_port inet_aton (si_name own) (sv_port s) new = Ok info ->
  let refresh := pool_refresh instance_host names_api_port false inet_aton env in
  let s' := mstate (refresh (Err e)) s in
  mresult (refresh (Err e)) s = Err e /\ sv_info s' = Some own /\ sv_addresses s' = new /\
  forall update, refresh update s' = (Ok false, s').
Proof.
  intros Ho Hz Hf new Hn Ha Hi refresh s'.
  assert (E : refresh (Err e) s = (Err e, sv_set_addresses new s)).
  { unfold refresh, pool_refresh. unfold mget, mbind at 1. rewrite Ho, Hz. cbn [negb orb].
    unfold mlift at 1, mbind at 1. rewrite Hf. fold new. rewrite (bool_decide_eq_false_2 _ Hn), (bool_decide_eq_false_2 _ Ha).
    unfold mmodify, mbind, mlift. cbn [orb]. rewrite Hi. reflexivity. }
  unfold s', mresult, mstate. rewrite E. cbn [fst snd]. split; [reflexivity|]. split; [exact Ho|]. split; [reflexivity|].
  intros update. unfold refresh, pool_refresh. unfold mget, mbind at 1. cbn [sv_set_addresses sv_info sv_open].
  rewrite Ho, Hz. cbn [negb orb]. unfold mlift at 1, mbind at 1. rewrite Hf. fold new.
  rewrite (bool_decide_eq_true_2 (new = sv_addresses (sv_set_addresses new s)) eq_refl), orb_true_r. reflexivity.
Qed.

(** Every connection accepted before the socket is closed has its thread. *)
Lemma accepted_served conns : forall s rest, sv_stop s = false ->
  mstate (accept_loop (map Some conns ++ None :: rest)) s = sv_set_conns (sv_conns s ++ conns) s.
Proof.
  induction conns as [|c conns IH]; intros s rest Hs; cbn [map app accept_loop]; unfold mstate, mbind, mgets; rewrite Hs.
  - cbn. rewrite app_nil_r. destruct s. reflexivity.
  - unfold mmodify. specialize (IH (sv_set_conns (sv_conns s ++ [c]) s) rest Hs). unfold mstate in IH. rewrite IH.
    cbn. rewrite <- app_assoc. reflexivity.
Qed.
