(* ===== verification/Api.v ===== *)
(** * [registry/_api_base.py] and [registry/api.py]: the request handlers

    The JSON operations of the local socket server, and the ones it shares
    with the remote one, over the daemon's store and locks.  A connection is
    its number and holder; the uids it acquired, kept in a local set by
    [_handle_connection], are part of the server's state, so what is released
    when it ends can be stated.  A response's [error] text is the constant
    [message].  The caller's environment: the endpoint of a virtual board
    (its replies), the log line writer of a client, the two trigger
    callbacks, [str] of a number, list or object. *)

From S2P Require Import Prelude Tables Naming Json Identity Virtual UniversalHex Store StoreNames Locks.
From S2P Require Import Base64 Claims Daemon Flash EventBus Peering.
Local Open Scope py_scope.

Definition CODE_NOT_FOUND : string := "not_found".
Definition CODE_LOCKED : string := "locked".
Definition CODE_NOT_LOCKED : string := "not_locked".
Definition CODE_INVALID_REQUEST : string := "invalid_request".
Definition CODE_INTERNAL_ERROR : string := "internal_error".
Definition CODE_AMBIGUOUS_NAME : string := "ambiguous_name".
Definition CODE_NAME_IN_USE : string := "name_in_use".
Definition CODE_NAME_RESERVED : string := "name_reserved".
Definition EVENT_DEVICE_REMOVED : string := "device_removed".
Definition EVENT_PEER_REMOVED : string := "peer_removed".

(** ** The server's state *)

(** A connection: its number and the holder it was given. *)
Record connection := mkConnection { cn_id : Z; cn_holder : HolderRef }.

#[export] Instance connection_eq_dec : EqDecision connection.
Proof. solve_decision. Defined.

Record astate := mkAstate {
  a_f : fstate;                                   (* the daemon's state, the flash trace *)
  a_bus : bus;
  a_boards : boards;
  a_acquired : list (connection * list string);   (* each open connection's set *)
  a_uid_connections : list (string * connection);
  (* what has been done to the outside *)
  a_pub : list (string * DeviceRecord);           (* [_event_callback] *)
  a_names : list (string * option Entry);         (* [_name_set_callback], [_name_clear_callback] *)
  a_shut : list connection;                       (* connections shut down from here *)
  a_sent : list ((string * Z) * fields);          (* requests sent to endpoints *)
  a_out : list (connection * fields) }.           (* responses written *)

Definition a_d (s : astate) : dstate := fl_d (a_f s).
Definition a_db (s : astate) : db := dm_db (a_d s).
Definition a_locks (s : astate) : lock_table := dm_locks (a_d s).

Definition a_with_f (v : fstate) (s : astate) : astate :=
  mkAstate v (a_bus s) (a_boards s) (a_acquired s) (a_uid_connections s) (a_pub s) (a_names s) (a_shut s) (a_sent s) (a_out s).
Definition a_with_bus (v : bus) (s : astate) : astate :=
  mkAstate (a_f s) v (a_boards s) (a_acquired s) (a_uid_connections s) (a_pub s) (a_names s) (a_shut s) (a_sent s) (a_out s).
Definition a_with_boards (v : boards) (s : astate) : astate :=
  mkAstate (a_f s) (a_bus s) v (a_acquired s) (a_uid_connections s) (a_pub s) (a_names s) (a_shut s) (a_sent s) (a_out s).
Definition a_with_acquired (v : list (connection * list string)) (s : astate) : astate :=
  mkAstate (a_f s) (a_bus s) (a_boards s) v (a_uid_connections s) (a_pub s) (a_names s) (a_shut s) (a_sent s) (a_out s).
Definition a_with_connections (v : list (string * connection)) (s : astate) : astate :=
  mkAstate (a_f s) (a_bus s) (a_boards s) (a_acquired s) v (a_pub s) (a_names s) (a_shut s) (a_sent s) (a_out s).
Definition a_fire (e : string * DeviceRecord) (s : astate) : astate :=
  mkAstate (a_f s) (a_bus s) (a_boards s) (a_acquired s) (a_uid_connections s) (a_pub s ++ [e]) (a_names s) (a_shut s) (a_sent s) (a_out s).
Definition a_name_event (e : string * option Entry) (s : astate) : astate :=
  mkAstate (a_f s) (a_bus s) (a_boards s) (a_acquired s) (a_uid_connections s) (a_pub s) (a_names s ++ [e]) (a_shut s) (a_sent s) (a_out s).
Definition a_shutdown (c : connection) (s : astate) : astate :=
  mkAstate (a_f s) (a_bus s) (a_boards s) (a_acquired s) (a_uid_connections s) (a_pub s) (a_names s) (a_shut s ++ [c]) (a_sent s) (a_out s).
Definition a_send (m : (string * Z) * fields) (s : astate) : astate :=
  mkAstate (a_f s) (a_bus s) (a_boards s) (a_acquired s) (a_uid_connections s) (a_pub s) (a_names s) (a_shut s) (a_sent s ++ [m]) (a_out s).
Definition a_write (m : connection * fields) (s : astate) : astate :=
  mkAstate (a_f s) (a_bus s) (a_boards s) (a_acquired s) (a_uid_connections s) (a_pub s) (a_names s) (a_shut s) (a_sent s) (a_out s ++ [m]).

Definition in_flash {A} (m : M fstate A) : M astate A :=
  fun s => let (r, f) := m (a_f s) in (r, a_with_f f s).
Definition in_d {A} (m : M dstate A) : M astate A := in_flash (in_daemon m).
Definition in_db {A} (m : M db A) : M astate A := in_d (in_store m).
Definition in_bus {A} (m : M bus A) : M astate A :=
  fun s => let (r, b) := m (a_bus s) in (r, a_with_bus b s).

(** The set a connection keeps. *)
Definition acquired (c : connection) (s : astate) : list string :=
  match dget c (a_acquired s) with Some l => l | None => [] end.
Definition acquired_add (c : connection) (uid : string) (s : astate) : astate :=
  a_with_acquired (dset c (acquired c s ++ (if bool_decide (uid ∈ acquired c s) then [] else [uid]))
                     (a_acquired s)) s.
Definition acquired_discard (c : connection) (uid : string) (s : astate) : astate :=
  a_with_acquired (dset c (List.filter (fun u => negb (String.eqb u uid)) (acquired c s)) (a_acquired s)) s.

(** ** Responses *)

Definition message : json := JStr "".

Definition error (code : string) (extra : fields) : fields :=
  [("ok", JBool false); ("code", JStr code); ("error", message)] ++ extra.
Definition ok (extra : fields) : fields := ("ok", JBool true) :: extra.

Definition jint (v : option Z) : json := match v with Some z => JInt z | None => JNull end.
Definition jus (us : Z) : json := JFloat (FFin us 1000000).

(** [_holder_wire_dict]. *)
Definition holder_wire (st : LockStatus) : json :=
  JObj ([("kind", JStr (ls_kind st)); ("pid", jint (ls_pid st)); ("label", jopt (ls_label st));
         ("since", jus (ls_since st))] ++
        (if String.eqb (h_origin (ls_holder st)) "remote"
         then [("origin", JStr (h_origin (ls_holder st))); ("host", jopt (h_host (ls_holder st)))] else [])).

(** [asdict(record)]. *)
Definition record_fields (r : DeviceRecord) : fields :=
  [("uid", JStr (dr_uid r)); ("short_uid", JStr (dr_short_uid r)); ("port", jopt (dr_port r));
   ("vid_pid", jopt (dr_vid_pid r)); ("role", jopt (dr_role r)); ("common_name", jopt (dr_common_name r));
   ("device_name", jopt (dr_device_name r)); ("serial_payload", jopt (dr_serial_payload r));
   ("raw_announcement", jopt (dr_raw_announcement r)); ("state", JStr (dr_state r));
   ("error_note", jopt (dr_error_note r)); ("host", jopt (dr_host r));
   ("remote_lock_kind", jopt (dr_remote_lock_kind r)); ("remote_lock_display", jopt (dr_remote_lock_display r));
   ("chip_identity_name", jopt (dr_chip_identity_name r)); ("chip_identity_serial", jint (dr_chip_identity_serial r));
   ("flash_count", JInt (dr_flash_count r)); ("first_seen", jus (dr_first_seen r));
   ("last_seen", jus (dr_last_seen r)); ("last_probe", jus (dr_last_probe r))].

Definition device_dict (r : DeviceRecord) (s : astate) : json :=
  JObj (record_fields r ++
    match dr_host r with
    | None =>
        let st := dget (dr_uid r) (a_locks s) in
        [("lock_kind", jopt (ls_kind <$> st)); ("lock_pid", jint (st ≫= ls_pid));
         ("lock_label", jopt (st ≫= ls_label)); ("lock_since", jtime (ls_since <$> st));
         ("endpoint", JNull); ("peer_reachable", JBool true)]
    | Some host =>
        let peer := get_peer host (a_db s) in
        [("lock_kind", JNull); ("lock_pid", JNull); ("lock_label", JNull); ("lock_since", JNull);
         ("endpoint", jopt (pe_endpoint <$> peer));
         ("peer_reachable", JBool match peer with Some p => pe_reachable p | None => false end)]
    end ++ [("simulated", JBool (is_virtual r))]).

Definition entry_dict (e : Entry) : json :=
  JObj [("name", JStr (en_name e)); ("channel", JInt (en_channel e)); ("group", JInt (en_group e));
        ("source", JStr (en_source e)); ("updated", jus (en_updated e));
        ("conflict", JList (map JStr (en_conflict e)));
        ("channel_conflict", JList (map JStr (en_channel_conflict e)))].

(** What differs between the two servers: which rows a client may see, and
    [_list_visible_devices]. *)
Record scope := mkScope {
  sc_list : db -> list DeviceRecord;
  sc_visible : DeviceRecord -> bool }.

Definition local_scope : scope := mkScope list_devices (fun _ => true).
Definition remote_scope : scope :=
  mkScope snapshot_local_devices (fun r => bool_decide (dr_host r = None) && negb (is_virtual r)).

(** The endpoint of a registered virtual board, for one connection to it:
    whether it can be dialled, which requests can be written, and what
    reading gives each time: a message, or an exception, [EndpointError]
    when it hangs up or speaks nonsense. *)
Record endpoint_script := mkEndpoint {
  es_dial : bool;
  es_send : nat -> bool;
  es_replies : list (result fields) }.

Record api_env := mkApiEnv {
  ae_d : daemon_env;
  ae_f : flash_env;
  ae_op : FlashOp;
  ae_str : json -> string;                        (* [str] of a float, list or object *)
  ae_write : nat -> bool;                         (* can a client's line be written now *)
  ae_read_bytes : string -> result string;        (* a file's bytes *)
  ae_endpoint : nat -> string * Z -> endpoint_script;
  ae_other_threads : astate -> astate;            (* between two holds of the shared lock *)
  ae_poll : M astate unit;
  ae_peer_resync : M astate unit }.

Section Api.
Variable A : api_env.
Variable sc : scope.
Notation DE := (ae_d A) (only parsing).

#[local] Instance locks_here : LockHost dstate := daemon_host DE.

Definition wall_now : M dstate Z := read (e_wall DE).

(** [str(v)]. *)
Definition py_str (v : json) : string := str_with (ae_str A) v.

Definition others : M astate unit := mmodify (ae_other_threads A).

Definition respond (f : fields) : M astate fields := mret f.

(** [_resolve_visible]: the record, or the error to return. *)
Definition resolve_visible (token : string) (s : astate) : result (DeviceRecord + fields) :=
  match find token (a_db s) with
  | Err (AmbiguousName _ hosts) => Ok (inr (error CODE_AMBIGUOUS_NAME [("hosts", JList (map JStr hosts))]))
  | Err e => Err e
  | Ok None => Ok (inr (error CODE_NOT_FOUND []))
  | Ok (Some r) => if sc_visible sc r then Ok (inl r) else Ok (inr (error CODE_NOT_FOUND []))
  end.

Definition detached_error (r : DeviceRecord) : option fields :=
  if bool_decide (dr_host r = None) && bool_decide (dr_state r = STATE_DISCONNECTED)
  then Some (error CODE_NOT_FOUND []) else None.

(** [with resolve_visible(token) as record: k] of the handlers. *)
Definition with_visible (token : json) (k : DeviceRecord -> M astate fields) : M astate fields :=
  found <-! mgets (resolve_visible (py_str token)) ;;
  found <-! mlift found ;;
  match found with inl r => k r | inr err => respond err end.

Definition op_list : M astate fields :=
  mgets (fun s => ok [("devices", JList (map (fun r => device_dict r s) (sc_list sc (a_db s))))]).

Definition op_find (req : fields) : M astate fields :=
  let uid := jget "uid" req in
  let token := if truthy uid then uid else jget "token" req in
  if negb (truthy token) then respond (error CODE_INVALID_REQUEST [])
  else with_visible token (fun r => mgets (fun s => ok [("device", device_dict r s)])).

Definition a_acquire (uid kind : string) (holder : HolderRef) (label : option string) : M astate bool :=
  in_d (now <-! wall_now ;; acquire uid kind holder label now).
Definition a_release (uid : string) (holder : HolderRef) : M astate bool := in_d (release uid holder).

(** The label as text: any value is accepted and only ever displayed. *)
Definition label_of (v : json) : option string := match v with JNull => None | v => Some (py_str v) end.

Definition op_lock (req : fields) (c : connection) : M astate fields :=
  let token := jget "uid" req in let kind := jget "kind" req in
  if negb (truthy token) || negb (truthy kind) then respond (error CODE_INVALID_REQUEST [])
  else match kind with
       | JStr kind =>
           if negb (bool_decide (kind ∈ LOCK_KINDS)) then respond (error CODE_INVALID_REQUEST [])
           else
             with_visible token (fun r =>
               match detached_error r with
               | Some err => respond err
               | None =>
                   mtry (a_acquire (dr_uid r) kind (cn_holder c) (label_of (jget "label" req)) ;;!
                         mmodify (acquired_add c (dr_uid r)) ;;! respond (ok []))
                     (fun e => match e with
                               | LockHeldError uid => Some (mgets (fun s =>
                                   error CODE_LOCKED match dget uid (a_locks s) with
                                                     | Some st => [("holder", holder_wire st)]
                                                     | None => [] end))
                               | _ => None
                               end)
               end)
       | _ => respond (error CODE_INVALID_REQUEST [])
       end.

Definition op_unlock (req : fields) (c : connection) : M astate fields :=
  let token := jget "uid" req in
  if negb (truthy token) then respond (error CODE_INVALID_REQUEST [])
  else with_visible token (fun r =>
    released <-! a_release (dr_uid r) (cn_holder c) ;;
    mmodify (acquired_discard c (dr_uid r)) ;;!
    respond (ok [("released", JBool released)])).

(** The lock check of [mark_flashed], [flash] and [stream]. *)
Definition holds (kinds : list string) (same : HolderRef -> bool) (uid : string) (s : astate) : bool :=
  match dget uid (a_locks s) with
  | Some st => bool_decide (ls_kind st ∈ kinds) && same (ls_holder st)
  | None => false
  end.

Definition same_holder (c : connection) (h : HolderRef) : bool := bool_decide (h = cn_holder c).

Definition op_mark_flashed (req : fields) (c : connection) : M astate fields :=
  let token := jget "uid" req in
  if negb (truthy token) then respond (error CODE_INVALID_REQUEST [])
  else with_visible token (fun r =>
    held <-! mgets (holds [KIND_FLASH] (same_holder c) (dr_uid r)) ;;
    if negb held then respond (error CODE_NOT_LOCKED [])
    else in_db (increment_flash_count (dr_uid r)) ;;! respond (ok [])).

Definition publish_bus (event : fields) : M astate unit := in_bus (publish (JObj event)).

(** One event for each row [purge] removed, if the server has a bus: the
    pipe's server sets no [_eventbus]. *)
Definition publish_removed (eventbus : bool) (host_of : string -> option string)
    (removed : list string * list string) : M astate unit :=
  if eventbus then
    mfor removed.1 (fun uid => publish_bus
      [("type", JStr EVENT_DEVICE_REMOVED); ("uid", JStr uid); ("host", jopt (host_of uid))]) ;;!
    mfor removed.2 (fun host => publish_bus [("type", JStr EVENT_PEER_REMOVED); ("host", JStr host)])
  else mret tt.

Definition op_rescan (eventbus : bool) (req : fields) : M astate fields :=
  let dry_run := truthy (jget_or "dry_run" (JBool false) req) in
  s <-! mget ;;
  let candidates := candidates_for_purge (a_db s) in
  let is_locked uid := bool_decide (dget uid (a_locks s) <> None) in
  let locked := sorted_set (List.filter is_locked (device_uids candidates)) in
  let uids := List.filter (fun u => negb (is_locked u)) (device_uids candidates) in
  let hosts := unreachable_peers candidates in
  if dry_run then
    respond (ok [("removed", JObj [("devices", JList (map JStr uids)); ("peers", JList (map JStr hosts))]);
                 ("skipped_locked", JList (map JStr locked)); ("dry_run", JBool true)])
  else
    let host_of uid := match get uid (a_db s) with Some r => dr_host r | None => None end in
    removed <-! in_db (purge uids hosts) ;;
    others ;;!
    publish_removed eventbus host_of removed ;;!
    ae_poll A ;;! ae_peer_resync A ;;!
    respond (ok [("removed", JObj [("devices", JList (map JStr removed.1)); ("peers", JList (map JStr removed.2))]);
                 ("skipped_locked", JList (map JStr locked)); ("dry_run", JBool false)]).

(** *** The name registry *)

Definition is_value_error (e : py_exc) : bool := match e with ValueError => true | _ => false end.
Definition is_value_or_type_error (e : py_exc) : bool :=
  match e with ValueError | TypeError => true | _ => false end.

Definition invalid_if (p : py_exc -> bool) (m : M astate fields) : M astate fields :=
  mtry m (fun e => if p e then Some (respond (error CODE_INVALID_REQUEST [])) else None).

Definition op_names_get (req : fields) : M astate fields :=
  let name := jget "name" req in
  if negb (truthy name) then respond (error CODE_INVALID_REQUEST [])
  else invalid_if is_value_error (
    entry <-! mgets (fun s => get_name (py_str name) (a_db s)) ;;
    entry <-! mlift entry ;;
    respond (ok [("entry", match entry with Some e => entry_dict e | None => JNull end)])).

Definition op_names_set (req : fields) : M astate fields :=
  let name := jget "name" req in let channel := jget "channel" req in let group := jget "group" req in
  if negb (truthy name) || is_null channel || is_null group then respond (error CODE_INVALID_REQUEST [])
  else
    written <-! mtry
      (ch <-! mlift (py_int channel) ;;
       gr <-! mlift (py_int group) ;;
       e <-! in_d (now <-! wall_now ;; in_store (StoreNames.set (py_str name) ch gr now)) ;;
       mret (Some e))
      (fun e => if is_value_or_type_error e then Some (mret None) else None) ;;
    match written with
    | None => respond (error CODE_INVALID_REQUEST [])
    | Some e => mmodify (a_name_event (en_name e, Some e)) ;;! respond (ok [("entry", entry_dict e)])
    end.

Definition op_names_clear (req : fields) : M astate fields :=
  let name := jget "name" req in
  if negb (truthy name) then respond (error CODE_INVALID_REQUEST [])
  else
    cleared <-! mtry (in_db (clear (py_str name)) ;;! mret true)
      (fun e => if is_value_error e then Some (mret false) else None) ;;
    if cleared then mmodify (a_name_event (py_str name, None)) ;;! respond (ok [])
    else respond (error CODE_INVALID_REQUEST []).

Definition op_names_list (req : fields) : M astate fields :=
  mgets (fun s => ok [("entries", JList (map entry_dict (listing (a_db s))))]).

(** *** Writing to the client *)

Definition client_ready : M dstate bool := read (ae_write A).

Definition write (c : connection) (response : fields) : M astate unit :=
  ready <-! in_d client_ready ;;
  if ready : bool then mmodify (a_write (c, response)) else mraise OSError.

(** The [log] callback of a [flash]: a line to the client. *)
Definition client_log : logger := fun m =>
  ready <-! in_daemon client_ready ;;
  if ready : bool then mmodify (emit_event (Logged m)) else mraise OSError.

(** *** A registered board's endpoint *)

Definition is_endpoint_error (e : py_exc) : bool := match e with EndpointError => true | _ => false end.

Definition dial (endpoint : string * Z) : M astate endpoint_script :=
  ep <-! in_d (read (fun t => ae_endpoint A t endpoint)) ;;
  if es_dial ep then mret ep else mraise EndpointError.

(** The [i]-th request to the endpoint. *)
Definition ep_send (endpoint : string * Z) (ep : endpoint_script) (i : nat) (req : fields) : M astate unit :=
  if es_send ep i then mmodify (a_send (endpoint, req)) else mraise EndpointError.

Definition ep_read (replies : list (result fields)) : M astate (fields * list (result fields)) :=
  match replies with
  | [] => mraise EndpointError
  | Err e :: _ => mraise e
  | Ok m :: rest => mret (m, rest)
  end.

Definition ep_call (endpoint : string * Z) (ep : endpoint_script) (i : nat) (req : fields)
    (replies : list (result fields)) : M astate (fields * list (result fields)) :=
  ep_send endpoint ep i req ;;! ep_read replies.

Definition virtual_endpoint (r : DeviceRecord) (s : astate) : option (string * Z) :=
  vr_endpoint <$> by_uid (dr_uid r) (a_boards s).

Definition ack_ok (ack : fields) : bool := truthy (jget "ok" ack).

Definition ep_lock (uid kind : string) : fields := [("op", JStr "lock"); ("uid", JStr uid); ("kind", JStr kind)].

(** *** [stream], up to the acknowledgement *)

Definition virtual_stream_open (r : DeviceRecord) (lock_kind : string)
    : M astate (fields * option DeviceRecord) :=
  endpoint <-! mgets (virtual_endpoint r) ;;
  match endpoint with
  | None => mret (error CODE_NOT_FOUND [], None)
  | Some endpoint =>
      mtry
        (ep <-! dial endpoint ;;
         locked <-! ep_call endpoint ep 0 (ep_lock (dr_uid r) lock_kind) (es_replies ep) ;;
         if negb (ack_ok locked.1) then mret (locked.1, None)
         else
           streamed <-! ep_call endpoint ep 1 [("op", JStr "stream"); ("uid", JStr (dr_uid r))] locked.2 ;;
           if negb (ack_ok streamed.1) then mret (streamed.1, None)
           else mret (ok [], Some r))
        (fun e => if is_endpoint_error e then Some (mret (error CODE_INTERNAL_ERROR [], None)) else None)
  end.

Definition no_port (r : DeviceRecord) : bool :=
  match dr_port r with None | Some "" => true | Some _ => false end.

Definition op_stream_precheck (req : fields) (c : connection) : M astate (fields * option DeviceRecord) :=
  let token := jget "uid" req in
  if negb (truthy token) then mret (error CODE_INVALID_REQUEST [], None)
  else
    found <-! mgets (resolve_visible (py_str token)) ;;
    found <-! mlift found ;;
    match found with
    | inr err => mret (err, None)
    | inl r =>
        s <-! mget ;;
        if negb (holds [KIND_SERIAL; KIND_RELAY] (same_holder c) (dr_uid r) s) then
          mret (error CODE_NOT_LOCKED [], None)
        else if no_port r then mret (error CODE_INVALID_REQUEST [], None)
        else match detached_error r with
             | Some err => mret (err, None)
             | None =>
                 if is_virtual r then
                   virtual_stream_open r match dget (dr_uid r) (a_locks s) with
                                         | Some st => ls_kind st
                                         | None => ""
                                         end
                 else mret (ok [], Some r)
             end
    end.

(** ** [RegistryAPIServer] *)

Definition pop_connection (uid : string) : M astate unit :=
  mmodify (fun s => a_with_connections (ddel uid (a_uid_connections s)) s).

Definition shut_down (conn : option connection) : M astate unit :=
  match conn with Some c => mmodify (a_shutdown c) | None => mret tt end.

Definition op_force_unlock (req : fields) : M astate fields :=
  let token := jget "uid" req in
  if negb (truthy token) then respond (error CODE_INVALID_REQUEST [])
  else with_visible token (fun r =>
    let uid := dr_uid r in
    st <-! in_d (force_release uid) ;;
    conn <-! mgets (fun s => dget uid (a_uid_connections s)) ;;
    pop_connection uid ;;!
    shut_down conn ;;!
    respond match st with
            | None => ok [("released", JBool false); ("uid", JStr uid)]
            | Some st => ok [("released", JBool true); ("uid", JStr uid); ("kind", JStr (ls_kind st));
                             ("holder", holder_wire st)]
            end).

(** *** [flash] *)

(** The terminal message of a [flash] that did not run. *)
Definition no_run (payload : fields) : fields :=
  dset "exit_code" JNull (dset "success" (JBool false) (dset "type" (JStr "result") payload)).

Definition endpoint_failure (ack : fields) : fields := no_run (dset "ok" (JBool false) ack).

Definition count_if_present (uid : string) : M db unit :=
  record <-! mgets (get uid) ;;
  match record with Some _ => increment_flash_count uid ;;! mret tt | None => mret tt end.

(** The endpoint's [log] lines up to its terminal message. *)
Fixpoint relay_flash (replies : list (result fields)) : M astate fields :=
  match replies with
  | [] => mraise EndpointError
  | Err e :: _ => mraise e
  | Ok msg :: rest =>
      if is_str "log" (jget "type" msg) then
        in_flash (client_log (MLine (py_str (jget "line" msg)))) ;;! relay_flash rest
      else mret msg
  end.

Definition flash_at_endpoint (uid data : string) (endpoint : string * Z) : M astate fields :=
  ep <-! dial endpoint ;;
  locked <-! ep_call endpoint ep 0 (ep_lock uid KIND_FLASH) (es_replies ep) ;;
  if negb (ack_ok locked.1) then mret (endpoint_failure locked.1)
  else
    staged <-! ep_call endpoint ep 1 [("op", JStr "send_hex"); ("data", JStr (b64encode data))] locked.2 ;;
    if negb (ack_ok staged.1) || negb (truthy (jget "hex_path" staged.1)) then
      mret (endpoint_failure staged.1)
    else
      ep_send endpoint ep 2 [("op", JStr "flash"); ("uid", JStr uid);
                             ("hex_path", jget "hex_path" staged.1)] ;;!
      mfinally (relay_flash staged.2) (in_db (count_if_present uid)).

Definition flash_virtual (r : DeviceRecord) (hex_path : string) : M astate fields :=
  data <-! mtry (in_flash (validate_hex (ae_f A) (ae_op A) hex_path) ;;!
                 data <-! mlift (ae_read_bytes A hex_path) ;; mret (Some data))
                (fun e => match e with HexValidationError | OSError => Some (mret None) | _ => None end) ;;
  match data with
  | None => respond (no_run (error CODE_INVALID_REQUEST []))
  | Some data =>
      endpoint <-! mgets (virtual_endpoint r) ;;
      match endpoint with
      | None => respond (no_run (error CODE_NOT_FOUND []))
      | Some endpoint =>
          mtry (flash_at_endpoint (dr_uid r) data endpoint)
            (fun e => if is_endpoint_error e then Some (respond (no_run (error CODE_INTERNAL_ERROR [])))
                      else None)
      end
  end.

Definition flash_result (res : FlashResult) : fields :=
  [("type", JStr "result"); ("ok", JBool (fr_success res)); ("success", JBool (fr_success res));
   ("exit_code", jint (fr_exit_code res));
   ("error", match fr_error res with None => JNull | Some _ => message end)].

(** The lock release that ends every attempt. *)
Definition finish_flash (uid : string) (c : connection) : M astate unit :=
  a_release uid (cn_holder c) ;;!
  mmodify (acquired_discard c uid) ;;!
  pop_connection uid.

Definition same_pid (c : connection) (h : HolderRef) : bool := bool_decide (h_pid h = h_pid (cn_holder c)).

(** The checks of [_op_flash], in its order: the record to flash, or the
    error to return. *)
Definition flash_checks (token : json) (c : connection) (s : astate) : result (DeviceRecord + fields) :=
  let! found := find (py_str token) (a_db s) in
  Ok match found with
     | None => inr (no_run (error CODE_NOT_FOUND []))
     | Some r =>
         if negb (holds [KIND_FLASH] (same_pid c) (dr_uid r) s) then inr (no_run (error CODE_NOT_LOCKED []))
         else match detached_error r with
              | Some err => inr (no_run err)
              | None => inl r
              end
     end.

Definition run_flash (r : DeviceRecord) (hex_path : string) (c : connection) : M astate fields :=
  let uid := dr_uid r in
  others ;;!
  if is_virtual r then mfinally (flash_virtual r hex_path) (others ;;! finish_flash uid c)
  else
    outcome <-! mtry (res <-! in_flash (Flash.flash_hex (ae_f A) (ae_op A) uid hex_path client_log) ;; mret (Some res))
                     (fun e => match e with HexValidationError => Some (mret None) | _ => None end) ;;
    others ;;!
    finish_flash uid c ;;!
    respond match outcome with
            | Some res => flash_result res
            | None => [("type", JStr "result"); ("ok", JBool false); ("code", JStr CODE_INVALID_REQUEST);
                       ("success", JBool false); ("exit_code", JNull); ("error", message)]
            end.

Definition op_flash (req : fields) (c : connection) : M astate fields :=
  let token := jget "uid" req in let hex_path := jget "hex_path" req in
  if negb (truthy token) || negb (truthy hex_path) then respond (no_run (error CODE_INVALID_REQUEST []))
  else
    checked <-! mgets (flash_checks token c) ;;
    checked <-! mlift checked ;;
    match checked with
    | inr err => respond err
    | inl r => run_flash r (py_str hex_path) c
    end.

(** *** Registered virtual boards *)

(** A failing subscriber is logged and ignored. *)
Definition fire_virtual_events (event_types : list string) (r : DeviceRecord) : M astate unit :=
  mfor event_types (fun event_type => mmodify (a_fire (event_type, r))).

(** The new registration is identified by its connection, which registers
    at most one. *)
Definition op_register_board (req : fields) (c : connection)
    : M astate (fields * option VirtualRegistration) :=
  match validate_registration (cn_id c) req with
  | Err ValueError => mret (error CODE_INVALID_REQUEST [], None)
  | Err e => mraise e
  | Ok reg =>
      if is_reserved_name (vr_name reg) then mret (error CODE_NAME_RESERVED [], None)
      else
        in_use <-! mgets (fun s => name_in_use (vr_name reg) (a_boards s)) ;;
        if in_use : bool then mret (error CODE_NAME_IN_USE [], None)
        else
          mmodify (fun s => a_with_boards (boards_add reg (a_boards s)) s) ;;!
          r <-! in_d (now <-! wall_now ;; in_store (upsert_virtual (vr_uid reg) (vr_name reg) (vr_role reg) (vr_serial reg) now)) ;;
          device <-! mgets (device_dict r) ;;
          fire_virtual_events ["attach"; "identity"] r ;;!
          mret (ok [("uid", JStr (vr_uid reg)); ("device", device)], Some reg)
  end.

Definition detach_virtual (reg : VirtualRegistration) : M astate unit :=
  removed <-! mgets (fun s => boards_remove reg (a_boards s)) ;;
  if negb removed.1 then mret tt
  else
    mmodify (a_with_boards removed.2) ;;!
    st <-! mgets (fun s => dget (vr_uid reg) (a_locks s)) ;;
    match st with Some st => a_release (vr_uid reg) (ls_holder st) ;;! mret tt | None => mret tt end ;;!
    holder_conn <-! mgets (fun s => dget (vr_uid reg) (a_uid_connections s)) ;;
    pop_connection (vr_uid reg) ;;!
    record <-! in_db (remove_virtual (vr_uid reg)) ;;
    shut_down holder_conn ;;!
    match record with Some r => fire_virtual_events ["detach"] r | None => mret tt end.

(** *** Dispatch *)

(** How a connection goes on after a request: reading requests, or for the
    rest of its life watching, holding a board, or streaming. *)
Inductive handoff :=
| Requests
| Watching
| Holding (reg : VirtualRegistration)
| Streaming (r : DeviceRecord).

(** The bookkeeping of [_uid_connections] around [lock] and [unlock]: the
    uids that joined, or left, the connection's set. *)
Definition tracking_lock (c : connection) (m : M astate fields) : M astate fields :=
  before <-! mgets (acquired c) ;;
  resp <-! m ;;
  others ;;!
  after <-! mgets (acquired c) ;;
  mfor (List.filter (fun u => negb (bool_decide (u ∈ before))) after)
    (fun uid => mmodify (fun s => a_with_connections (dset uid c (a_uid_connections s)) s)) ;;!
  mret resp.

Definition tracking_unlock (c : connection) (m : M astate fields) : M astate fields :=
  before <-! mgets (acquired c) ;;
  resp <-! m ;;
  others ;;!
  after <-! mgets (acquired c) ;;
  mfor (List.filter (fun u => negb (bool_decide (u ∈ after))) before) pop_connection ;;!
  mret resp.

Definition answer (c : connection) (m : M astate fields) : M astate handoff :=
  resp <-! m ;; write c resp ;;! mret Requests.

Definition dispatch (op : json) (req : fields) (c : connection) : M astate handoff :=
  if is_str "list" op then answer c op_list
  else if is_str "get" op || is_str "find" op then answer c (op_find req)
  else if is_str "lock" op then answer c (tracking_lock c (op_lock req c))
  else if is_str "unlock" op then answer c (tracking_unlock c (op_unlock req c))
  else if is_str "force_unlock" op then answer c (op_force_unlock req)
  else if is_str "flash" op then answer c (op_flash req c)
  else if is_str "mark_flashed" op then answer c (op_mark_flashed req c)
  else if is_str "rescan" op then answer c (op_rescan true req)
  else if is_str "names_get" op then answer c (op_names_get req)
  else if is_str "names_set" op then answer c (op_names_set req)
  else if is_str "names_clear" op then answer c (op_names_clear req)
  else if is_str "names_list" op then answer c (op_names_list req)
  else if is_str "stream" op then
    opened <-! op_stream_precheck req c ;;
    write c opened.1 ;;!
    mret match opened.2 with Some r => Streaming r | None => Requests end
  else if is_str "watch" op then write c (ok []) ;;! mret Watching
  else if is_str "register_board" op then
    registered <-! op_register_board req c ;;
    write c registered.1 ;;!
    mret match registered.2 with Some reg => Holding reg | None => Requests end
  else answer c (respond (error CODE_INVALID_REQUEST [])).

(** [_dispatch_line], on what [json.loads] made of the line: [None] when it
    is malformed. *)
Definition dispatch_line (line : option json) (c : connection) : M astate handoff :=
  match line with
  | Some (JObj req) => dispatch (jget "op" req) req c
  | _ => answer c (respond (error CODE_INVALID_REQUEST []))
  end.

(** *** A connection's life *)

Definition local_holder (pid : Z) : HolderRef := mkHolder "local" (pretty pid) (Some pid) None.

(** An accepted connection, with its empty set. *)
Definition accept (c : connection) : M astate unit :=
  mmodify (fun s => a_with_acquired (dset c [] (a_acquired s)) s).

(** What the last mode does when it ends, whatever went through it. *)
Definition leave_mode (c : connection) (h : handoff) : M astate unit :=
  match h with
  | Requests | Watching => mret tt
  | Holding reg => detach_virtual reg
  | Streaming r => a_release (dr_uid r) (cn_holder c) ;;! mmodify (acquired_discard c (dr_uid r))
  end.

(** The end of [_handle_connection]; the connection's set dies with it. *)
Definition end_connection (c : connection) (h : handoff) : M astate unit :=
  mfinally (leave_mode c h)
    (uids <-! mgets (acquired c) ;;
     mfor uids (fun uid => a_release uid (cn_holder c) ;;! pop_connection uid) ;;!
     mmodify (fun s => a_with_acquired (ddel c (a_acquired s)) s)).

(** One line read from a connection: an exception out of the dispatch ends
    the connection; a dispatch that hangs goes on holding it. *)
Definition serve_line (c : connection) (line : option json) (s : astate) : astate :=
  match dispatch_line line c s with
  | (Ok _, s') => s'
  | (Err e, s') => if hung e then s' else mstate (end_connection c Requests) s'
  end.

(** [_sweep_loop], one turn; [_is_holder_alive] only doubts local holders. *)
Definition is_holder_alive (pid_alive : Z -> bool) (h : HolderRef) : bool :=
  if String.eqb (h_origin h) "local" then match h_pid h with Some pid => pid_alive pid | None => false end
  else true.

Definition sweep_turn (pid_alive : Z -> bool) : M astate unit :=
  released <-! in_d (sweep (is_holder_alive pid_alive)) ;;
  mfor released pop_connection.
End Api.
