(* ===== verification/ApiFacts.v ===== *)
(** * Properties of the request handlers

    Which locks a request may end, and which it may leave behind, whatever
    the request, the exceptions and the other threads; and what a local
    [flash] request runs. *)

From S2P Require Import Prelude Tables Naming Json Identity Virtual UniversalHex Store StoreNames Locks.
From S2P Require Import Claims Daemon DaemonFacts Flash FlashFacts EventBus Peering Api.
Local Open Scope py_scope.

(** ** The relations a handler keeps *)

(** Neither the lock table nor any connection's set changed. *)
Definition inert (s s' : astate) : Prop :=
  a_locks s' = a_locks s /\ a_acquired s' = a_acquired s.

(** The sets are the same, and no lock is new. *)
Definition loses (s s' : astate) : Prop :=
  a_acquired s' = a_acquired s /\
  forall uid st, dget uid (a_locks s') = Some st -> dget uid (a_locks s) = Some st.

(** Every lock of holder [h] is in the set of an open connection of his. *)
Definition covered (h : HolderRef) (s : astate) : Prop :=
  forall uid st, dget uid (a_locks s) = Some st -> ls_holder st = h ->
  exists c l, dget c (a_acquired s) = Some l /\ cn_holder c = h /\ uid ∈ l.

Definition keeps_covered (s s' : astate) : Prop := forall h, covered h s -> covered h s'.

(** The locks of everybody else than [h] are still there. *)
Definition spares (h : HolderRef) (s s' : astate) : Prop :=
  forall uid st, dget uid (a_locks s) = Some st -> ls_holder st <> h ->
  dget uid (a_locks s') = Some st.

#[export] Instance inert_preorder : PreOrder inert.
Proof. split; [intros s; split; reflexivity|]. intros s1 s2 s3 [A B] [C D]. split; congruence. Qed.
#[export] Instance loses_preorder : PreOrder loses.
Proof. split; [intros s; split; auto|]. intros s1 s2 s3 [A B] [C D]. split; [congruence|auto]. Qed.
#[export] Instance keeps_covered_preorder : PreOrder keeps_covered.
Proof. split; [intros s h; exact id|]. intros s1 s2 s3 A B h H. exact (B h (A h H)). Qed.
#[export] Instance spares_preorder h : PreOrder (spares h).
Proof. split; [intros s uid st H _; exact H|]. intros s1 s2 s3 A B uid st H Hn. exact (B _ _ (A _ _ H Hn) Hn). Qed.

Lemma inert_loses s s' : inert s s' -> loses s s'.
Proof. intros [A B]. split; [exact B|]. rewrite A. auto. Qed.
Lemma loses_keeps_covered s s' : loses s s' -> keeps_covered s s'.
Proof. intros [A B] h H uid st Hu Hh. rewrite A. exact (H uid st (B _ _ Hu) Hh). Qed.
Lemma inert_spares h s s' : inert s s' -> spares h s s'.
Proof. intros [A B] uid st H _. rewrite A. exact H. Qed.

Lemma inert_covers {A} (m : M astate A) : stays inert m -> stays keeps_covered m.
Proof. apply stays_weaken. intros s s' H. apply loses_keeps_covered, inert_loses, H. Qed.
Lemma inert_sparing {A} h (m : M astate A) : stays inert m -> stays (spares h) m.
Proof. apply stays_weaken. intros s s'. apply inert_spares. Qed.

(** ** What leaves the locks alone *)

Definition same_locks (f f' : fstate) : Prop := dm_locks (fl_d f') = dm_locks (fl_d f).
Definition same_dlocks (d d' : dstate) : Prop := dm_locks d' = dm_locks d.
#[export] Instance same_locks_preorder : PreOrder same_locks.
Proof. split; [intros s; reflexivity|]. intros s1 s2 s3. unfold same_locks. congruence. Qed.
#[export] Instance same_dlocks_preorder : PreOrder same_dlocks.
Proof. split; [intros s; reflexivity|]. intros s1 s2 s3. unfold same_dlocks. congruence. Qed.

Lemma in_flash_inert {A} (m : M fstate A) : stays same_locks m -> stays inert (in_flash m).
Proof.
  intros H s. specialize (H (a_f s)). unfold mstate, same_locks, in_flash in *.
  destruct (m (a_f s)) as [r f]. split; [exact H|reflexivity].
Qed.
Lemma in_daemon_same {A} (m : M dstate A) : stays same_dlocks m -> stays same_locks (in_daemon m).
Proof.
  intros H s. specialize (H (fl_d s)). unfold mstate, same_dlocks, same_locks, in_daemon in *.
  destruct (m (fl_d s)) as [r f]. exact H.
Qed.
Lemma in_d_inert {A} (m : M dstate A) : stays same_dlocks m -> stays inert (in_d m).
Proof. intros H. apply in_flash_inert, in_daemon_same, H. Qed.
Lemma in_store_same {A} (m : M db A) : stays same_dlocks (in_store m).
Proof. intros s. unfold mstate, same_dlocks, in_store. destruct (m (dm_db s)). reflexivity. Qed.
Lemma read_same {A} (o : nat -> A) : stays same_dlocks (read o).
Proof. intros s. reflexivity. Qed.
Lemma in_db_inert {A} (m : M db A) : stays inert (in_db m).
Proof. apply in_d_inert, in_store_same. Qed.
Lemma in_bus_inert {A} (m : M bus A) : stays inert (in_bus m).
Proof. intros s. unfold mstate, in_bus. destruct (m (a_bus s)). split; reflexivity. Qed.
Lemma modify_inert f : (forall s, a_f (f s) = a_f s) -> (forall s, a_acquired (f s) = a_acquired s) ->
  stays inert (mmodify f).
Proof. intros H1 H2 s. split; [unfold a_locks, a_d; cbn; rewrite H1; reflexivity|apply H2]. Qed.

Create HintDb api.
#[export] Hint Resolve in_flash_inert in_daemon_same in_d_inert in_store_same read_same in_db_inert in_bus_inert : api.
Lemma wall_same A : stays same_dlocks (wall_now A).
Proof. apply read_same. Qed.
#[export] Hint Resolve wall_same : api.
#[export] Hint Extern 2 (stays same_dlocks (mbind _ _)) =>
  (apply stays_bind; [typeclasses eauto| |intros ?]) : api.
#[export] Hint Extern 5 (stays inert (mmodify _)) => (apply modify_inert; intros; reflexivity) : api.

Ltac stays_all := repeat first [stays_step | solve [auto 8 with api]].

(** ** Flashing leaves the locks alone *)

(** Running pyOCD and converting the image: only the trace and the files
    move, besides what the log does. *)
Section Running.
Variable E : flash_env.
Variable R : fstate -> fstate -> Prop.
Context `{!PreOrder R}.
Hypothesis R_data : forall f f', fl_d f' = fl_d f -> R f f'.
Variable log : logger.
Hypothesis R_log : forall m, stays R (log m).

Lemma run_emit e : stays R (mmodify (emit_event e)).
Proof. intros s. apply R_data. reflexivity. Qed.
Lemma run_tmp f : stays R (mmodify (fun s => with_tmp (f s) s)).
Proof. intros s. apply R_data. reflexivity. Qed.
Lemma run_log m : stays R (log_to (Some log) m).
Proof. exact (R_log m). Qed.
Hint Resolve run_emit run_tmp run_log : api.

Lemma watch_keeps items closed lines : stays R (watch log items closed lines).
Proof.
  revert lines. induction items as [|[raw|] items IH]; intros lines; cbn [watch]; stays_all.
Qed.

Lemma run_keeps cmd : stays R (run_streamed E cmd (Some log)).
Proof.
  unfold run_streamed, run_streamed_with_watchdog. stays_all.
  - intros s. apply R_data. reflexivity.
  - apply watch_keeps.
Qed.

Lemma unlink_data path : stays R (unlink_quietly E path).
Proof. intros s. unfold mstate. rewrite unlink_quietly_run. apply R_data. reflexivity. Qed.
Hint Resolve unlink_data : api.

Lemma normalized_keeps {A} hex mcu (body : string -> M fstate A) : (forall p, stays R (body p)) ->
  stays R (with_normalized_hex E hex mcu body).
Proof. intros H. unfold with_normalized_hex. stays_all; try apply H. intros ?. reflexivity. Qed.

Lemma plain_keeps uid hex mcu name port : stays R (flash_hex_plain E uid hex mcu (Some log) name port).
Proof. unfold flash_hex_plain, flash_and_recover, recover. stays_all; apply run_keeps. Qed.

Lemma flashlogic_keeps uid hex mcu name port : stays R (flashlogic_flash_hex E uid hex mcu (Some log) name port).
Proof.
  unfold flashlogic_flash_hex. stays_all. apply normalized_keeps. intros p. stays_all. apply plain_keeps.
Qed.
End Running.

Lemma same_of_data f f' : fl_d f' = fl_d f -> same_locks f f'.
Proof. unfold same_locks. intros ->. reflexivity. Qed.
Lemma same_emit e : stays same_locks (mmodify (emit_event e)).
Proof. intros s. reflexivity. Qed.
#[export] Hint Resolve same_emit : api.

Section FlashLocks.
Variable E : flash_env.

Lemma validate_same op hex : stays same_locks (validate_hex E op hex).
Proof.
  unfold validate_hex. stays_all. apply normalized_keeps; [typeclasses eauto|exact same_of_data|].
  intros p. unfold validate_plain. stays_all.
Qed.

Definition runner_same (op : FlashOp) : Prop :=
  forall runner, fo_runner op = Some runner -> forall cmd log,
    (forall m, stays same_locks (log m)) -> stays same_locks (runner cmd log).

Lemma flash_hex_same op uid hex log : runner_same op -> (forall m, stays same_locks (log m)) ->
  stays same_locks (flash_hex E op uid hex log).
Proof.
  intros Hr H. unfold flash_hex. stays_all. apply normalized_keeps; [typeclasses eauto|exact same_of_data|].
  intros p. unfold flash_locked, validate_plain, count_flash. stays_all; try apply H.
  unfold attempt. destruct (fo_runner op) as [runner|] eqn:Er; [exact (Hr _ Er _ _ H)|].
  apply plain_keeps; [typeclasses eauto|exact same_of_data|exact H].
Qed.
End FlashLocks.
#[export] Hint Resolve validate_same : api.

(** ** The lock operations of the handlers *)

Section Handlers.
Variable A : api_env.
Variable sc : scope.
Hypothesis runner_keeps : runner_same (ae_op A).
Notation others := (ae_other_threads A) (only parsing).

Lemma in_d_locks {B} (m : M dstate B) s :
  a_locks (mstate (in_d m) s) = dm_locks (mstate m (a_d s)) /\ a_acquired (mstate (in_d m) s) = a_acquired s.
Proof.
  unfold mstate, in_d, in_flash, in_daemon, a_locks, a_d.
  destruct (m (fl_d (a_f s))) as [r d]. split; reflexivity.
Qed.

Lemma a_release_effect uid h s :
  a_locks (mstate (a_release A uid h) s) =
    match dget uid (a_locks s) with
    | Some st => if bool_decide (ls_holder st = h) then ddel uid (a_locks s) else a_locks s
    | None => a_locks s
    end /\
  a_acquired (mstate (a_release A uid h) s) = a_acquired s.
Proof.
  unfold a_release. match goal with |- context [in_d ?m] => destruct (in_d_locks m s) as [-> ->] end.
  split; [|reflexivity]. exact (@release_table dstate (daemon_host (ae_d A)) uid h (a_d s)).
Qed.

Lemma release_loses uid h : stays loses (a_release A uid h).
Proof.
  intros s. destruct (a_release_effect uid h s) as [HL HA]. split; [exact HA|].
  intros u st. rewrite HL. destruct (dget uid (a_locks s)) as [st'|]; [|exact id].
  destruct (bool_decide (ls_holder st' = h)); [|exact id].
  destruct (decide (uid = u)) as [->|Hn]; [rewrite dget_ddel_eq; discriminate|].
  rewrite dget_ddel_ne by exact Hn. exact id.
Qed.

Lemma release_spares uid h : stays (spares h) (a_release A uid h).
Proof.
  intros s u st Hu Hn. destruct (a_release_effect uid h s) as [-> _].
  destruct (dget uid (a_locks s)) as [st'|] eqn:E; [|exact Hu].
  destruct (bool_decide_reflect (ls_holder st' = h)) as [Hh|]; [|exact Hu].
  rewrite dget_ddel_ne; [exact Hu|]. intros ->. congruence.
Qed.

Lemma a_release_ok uid h s : exists b, mresult (a_release A uid h) s = Ok b.
Proof.
  unfold mresult, a_release, in_d, in_flash, in_daemon, release, mbind at 1, mgets.
  destruct (status uid (fl_d (a_f s))) as [st|]; [|eexists; reflexivity].
  destruct (bool_decide (ls_holder st = h)); [|eexists; reflexivity].
  unfold release_entry, call_flash, call_display. cbn. unfold on_flash_release, mbind, mmodify, read, mret.
  destruct (String.eqb (ls_kind st) KIND_FLASH); [destruct (is_virtual_uid uid)|]; eexists; reflexivity.
Qed.

(** What a release and a discard leave of the board. *)
Lemma released_gone uid c s : let s' := acquired_discard c uid (mstate (a_release A uid (cn_holder c)) s) in
  (forall st, dget uid (a_locks s') = Some st -> ls_holder st <> cn_holder c) /\ uid ∉ acquired c s'.
Proof.
  intros s'. destruct (a_release_effect uid (cn_holder c) s) as [HL _]. split.
  - intros st Hu. change (dget uid (a_locks (mstate (a_release A uid (cn_holder c)) s)) = Some st) in Hu. rewrite HL in Hu.
    destruct (dget uid (a_locks s)) as [st'|] eqn:E'; [|congruence].
    destruct (bool_decide_reflect (ls_holder st' = cn_holder c)); [rewrite dget_ddel_eq in Hu; discriminate|congruence].
  - unfold acquired. cbn. rewrite dget_dset_eq, list_elem_of_In, filter_In, String.eqb_refl. intros [_ ?]. discriminate.
Qed.

(** A release by the connection, and the uid taken out of its set. *)
Lemma release_discard_covers c uid s :
  keeps_covered s (acquired_discard c uid (mstate (a_release A uid (cn_holder c)) s)).
Proof.
  intros h H u st. destruct (a_release_effect uid (cn_holder c) s) as [HL HA].
  unfold acquired_discard, acquired. change (a_locks (a_with_acquired _ ?x)) with (a_locks x). cbn [a_acquired a_with_acquired].
  rewrite HA. set (s1 := mstate _ s) in *. intros Hu Hh.
  assert (Hs : dget u (a_locks s) = Some st /\ (u = uid -> h <> cn_holder c)).
  { rewrite HL in Hu. destruct (dget uid (a_locks s)) as [st'|] eqn:E; [|split; [exact Hu|intros ->; congruence]].
    destruct (bool_decide_reflect (ls_holder st' = cn_holder c)) as [Hx|Hx].
    - destruct (decide (uid = u)) as [->|Hn]; [rewrite dget_ddel_eq in Hu; discriminate|].
      rewrite dget_ddel_ne in Hu by exact Hn. split; [exact Hu|congruence].
    - split; [exact Hu|]. intros ->. congruence. }
  destruct Hs as [Hs Hne]. destruct (H u st Hs Hh) as (c' & l & Hl & Hc & Hi).
  destruct (decide (c = c')) as [<-|Hn].
  - rewrite Hl. eexists c, _. rewrite dget_dset_eq. split; [reflexivity|]. split; [exact Hc|].
    apply list_elem_of_In, filter_In. split; [apply list_elem_of_In; exact Hi|].
    apply negb_true_iff, String.eqb_neq. intros ->. apply Hne; auto.
  - exists c', l. rewrite dget_dset_ne by exact Hn. auto.
Qed.

Lemma release_discard_spares c uid s :
  spares (cn_holder c) s (acquired_discard c uid (mstate (a_release A uid (cn_holder c)) s)).
Proof. intros u st H Hn. exact (release_spares uid (cn_holder c) s u st H Hn). Qed.

Lemma release_discard c uid {B} (k : bool -> M astate B) (R : astate -> astate -> Prop) `{!PreOrder R} :
  (forall s, R s (acquired_discard c uid (mstate (a_release A uid (cn_holder c)) s))) ->
  (forall b, stays R (k b)) ->
  stays R (released <-! a_release A uid (cn_holder c) ;; mmodify (acquired_discard c uid) ;;! k released).
Proof.
  intros Hd Hk s. destruct (a_release_ok uid (cn_holder c) s) as [b Hb]. unfold mstate at 1.
  rewrite (bind_result _ _ _ b Hb). unfold mbind, mmodify. etransitivity; [exact (Hd s)|apply Hk].
Qed.

(** A granted lock, put in the connection's set in the same hold of the
    shared lock. *)
Lemma a_acquire_run uid kind h label s :
  a_acquired (mstate (a_acquire A uid kind h label) s) = a_acquired s /\
  match dget uid (a_locks s) with
  | Some _ => mresult (a_acquire A uid kind h label) s = Err (LockHeldError uid) /\
              a_locks (mstate (a_acquire A uid kind h label) s) = a_locks s
  | None => mresult (a_acquire A uid kind h label) s = Ok true /\
            exists now, a_locks (mstate (a_acquire A uid kind h label) s) =
              dset uid (mkLockStatus kind h label now) (a_locks s)
  end.
Proof.
  unfold mstate, mresult, a_acquire, in_d, in_flash, in_daemon, wall_now, read, acquire, mbind, mgets, status, a_locks, a_d.
  cbn. destruct (dget uid (dm_locks (fl_d (a_f s)))); cbn; eauto.
Qed.

Lemma acquire_add_covers c uid kind label s : dget uid (a_locks s) = None ->
  keeps_covered s (acquired_add c uid (mstate (a_acquire A uid kind (cn_holder c) label) s)).
Proof.
  intros Hfree h H u st. destruct (a_acquire_run uid kind (cn_holder c) label s) as [HA HL]. rewrite Hfree in HL.
  destruct HL as (_ & now & HL). unfold acquired_add, acquired.
  change (a_locks (a_with_acquired _ ?x)) with (a_locks x). cbn [a_acquired a_with_acquired].
  rewrite HL, HA. set (mine := match dget c (a_acquired s) with Some l => l | None => [] end).
  assert (Hmine : uid ∈ mine ++ (if bool_decide (uid ∈ mine) then [] else [uid])).
  { apply elem_of_app. case_bool_decide as Hm; [left; exact Hm|right; apply list_elem_of_singleton; reflexivity]. }
  intros Hu Hh. destruct (decide (uid = u)) as [->|Hn].
  - rewrite dget_dset_eq in Hu. injection Hu as <-. cbn in Hh. subst h. eexists c, _. rewrite dget_dset_eq. eauto.
  - rewrite dget_dset_ne in Hu by exact Hn. destruct (H u st Hu Hh) as (c' & l & Hl & Hc & Hi).
    destruct (decide (c = c')) as [<-|Hc'].
    + eexists c, _. rewrite dget_dset_eq. split; [reflexivity|]. split; [exact Hc|]. unfold mine. rewrite Hl.
      apply elem_of_app. left. exact Hi.
    + exists c', l. rewrite dget_dset_ne by exact Hc'. auto.
Qed.

Lemma acquire_add_spares c h uid kind label s : dget uid (a_locks s) = None ->
  spares h s (acquired_add c uid (mstate (a_acquire A uid kind (cn_holder c) label) s)).
Proof.
  intros Hfree u st Hu _. destruct (a_acquire_run uid kind (cn_holder c) label s) as [_ HL]. rewrite Hfree in HL.
  destruct HL as (_ & now & HL). change (a_locks (acquired_add _ _ ?x)) with (a_locks x).
  rewrite HL, dget_dset_ne; [exact Hu|congruence].
Qed.

(** ** Every handler, for a relation its lock operations keep *)

Section Relation.
Variable c : connection.
Variable R : astate -> astate -> Prop.
Context `{!PreOrder R}.
Hypothesis R_inert : forall s s', inert s s' -> R s s'.
Hypothesis R_release : forall uid s,
  R s (acquired_discard c uid (mstate (a_release A uid (cn_holder c)) s)).
Hypothesis R_acquire : forall uid kind label s, dget uid (a_locks s) = None ->
  R s (acquired_add c uid (mstate (a_acquire A uid kind (cn_holder c) label) s)).
Hypothesis R_others : forall s, R s (others s).
Hypothesis R_poll : stays R (ae_poll A).
Hypothesis R_resync : stays R (ae_peer_resync A).

Lemma R_of_inert {B} (m : M astate B) : stays inert m -> stays R m.
Proof. apply stays_weaken. exact R_inert. Qed.
Lemma R_others_stays : stays R (Api.others A).
Proof. intros s. exact (R_others s). Qed.

Lemma write_inert c' m : stays inert (write A c' m).
Proof. unfold write, client_ready. stays_all. Qed.
Lemma client_log_same m : stays same_locks (client_log A m).
Proof. unfold client_log, client_ready. stays_all. Qed.

Hint Resolve R_of_inert R_others_stays write_inert R_poll R_resync : api.

Ltac inert_all := apply R_of_inert; stays_all.

Lemma with_visible_R t k : (forall r, stays R (k r)) -> stays R (with_visible A sc t k).
Proof. intros H. unfold with_visible, respond. stays_all. Qed.

Lemma op_lock_R req : stays R (op_lock A sc req c).
Proof.
  unfold op_lock. destruct (_ || _); [apply stays_ret; typeclasses eauto|].
  destruct (jget "kind" req); try (apply stays_ret; typeclasses eauto).
  destruct (negb _); [apply stays_ret; typeclasses eauto|].
  apply with_visible_R. intros r. destruct (detached_error r); [apply stays_ret; typeclasses eauto|].
  set (label := label_of A _). intros s0. unfold mstate, mtry, mbind at 1.
  destruct (a_acquire_run (dr_uid r) s (cn_holder c) label s0) as [HA HL].
  unfold mstate, mresult in HA, HL.
  destruct (dget (dr_uid r) (a_locks s0)) as [st|] eqn:Hd.
  - destruct HL as [HR HL]. destruct (a_acquire _ _ _ _ _ s0) as [res s1]. cbn [fst snd] in *. subst res.
    apply R_inert. split; assumption.
  - destruct HL as [HR _]. pose proof (R_acquire (dr_uid r) s label s0 Hd) as H. unfold mstate in H.
    destruct (a_acquire _ _ _ _ _ s0) as [res s1]. cbn [fst snd] in *. subst res. exact H.
Qed.

Lemma op_unlock_R req : stays R (op_unlock A sc req c).
Proof.
  unfold op_unlock. destruct (negb _); [apply stays_ret; typeclasses eauto|].
  apply with_visible_R. intros r. apply release_discard; [typeclasses eauto|intros s; apply R_release|].
  intros b. apply stays_ret. typeclasses eauto.
Qed.

Lemma finish_flash_R uid : stays R (finish_flash A uid c).
Proof.
  refine (release_discard c uid (fun _ => pop_connection uid) R _ _); [intros s; apply R_release|].
  intros _. unfold pop_connection. inert_all.
Qed.

Lemma relay_flash_inert replies : stays inert (relay_flash A replies).
Proof.
  induction replies as [|[m|e] replies IH]; cbn [relay_flash]; stays_all.
  apply in_flash_inert, client_log_same.
Qed.

Lemma flash_virtual_inert r hex : stays inert (flash_virtual A r hex).
Proof.
  unfold flash_virtual, flash_at_endpoint, dial, ep_call, ep_send, ep_read, respond. stays_all.
  apply relay_flash_inert.
Qed.

Lemma run_flash_R r hex : stays R (run_flash A r hex c).
Proof.
  unfold run_flash. cbv zeta. stays_step; [auto with api|]. intros _. destruct (is_virtual r).
  - stays_all; [apply R_of_inert, flash_virtual_inert|apply finish_flash_R].
  - unfold respond. stays_all; [|apply finish_flash_R].
    apply R_of_inert, in_flash_inert, flash_hex_same; [exact runner_keeps|apply client_log_same].
Qed.

Lemma op_flash_R req : stays R (op_flash A req c).
Proof. unfold op_flash, respond. stays_all. apply run_flash_R. Qed.

Lemma op_rescan_R eventbus req : stays R (op_rescan A eventbus req).
Proof. unfold op_rescan, respond, publish_removed, publish_bus. stays_all. Qed.

Lemma names_R req : stays R (op_names_get A req) /\ stays R (op_names_set A req) /\
  stays R (op_names_clear A req) /\ stays R (op_names_list req).
Proof.
  unfold op_names_get, op_names_set, op_names_clear, op_names_list, invalid_if, respond.
  split; [stays_all|]. split; [stays_all|]. split; stays_all.
Qed.

Lemma tracking_R (m : M astate fields) : stays R m ->
  stays R (tracking_lock A c m) /\ stays R (tracking_unlock A c m).
Proof. intros H. unfold tracking_lock, tracking_unlock, pop_connection. split; stays_all. Qed.

Lemma stream_R req : stays R (op_stream_precheck A sc req c).
Proof. unfold op_stream_precheck, virtual_stream_open, dial, ep_call, ep_send, ep_read. stays_all. Qed.

Lemma register_R req : stays R (op_register_board A req c).
Proof. unfold op_register_board, fire_virtual_events, wall_now. stays_all. Qed.

Lemma answer_R m : stays R m -> stays R (answer A c m).
Proof. intros H. unfold answer. stays_all. Qed.

(** Everything but [force_unlock]. *)
Lemma dispatch_R op req : is_str "force_unlock" op = false \/ stays R (op_force_unlock A sc req) ->
  stays R (dispatch A sc op req c).
Proof.
  intros Hforce. unfold dispatch.
  destruct (names_R req) as (N1 & N2 & N3 & N4).
  repeat match goal with
  | |- stays R (if is_str "force_unlock" op then _ else _) =>
      let E := fresh in destruct (is_str "force_unlock" op) eqn:E;
      [destruct Hforce as [?|Hforce]; [discriminate|apply answer_R, Hforce]|]
  | |- stays R (if ?b then _ else _) => destruct b
  | |- stays R (answer _ _ _) => apply answer_R
  end; try assumption; unfold op_list, op_find, op_mark_flashed, respond.
  all: first [apply op_unlock_R | apply op_flash_R | apply op_rescan_R
             | apply tracking_R, op_lock_R | apply tracking_R, op_unlock_R | idtac].
  all: stays_all; try (apply with_visible_R; intros); stays_all; try apply stream_R; try apply register_R.
Qed.

Lemma dispatch_line_R line : (forall req, line = Some (JObj req) -> is_str "force_unlock" (jget "op" req) = false \/
  stays R (op_force_unlock A sc req)) -> stays R (dispatch_line A sc line c).
Proof.
  intros H. unfold dispatch_line, respond.
  destruct line as [[]|]; try (apply answer_R; stays_all). apply dispatch_R, H. reflexivity.
Qed.
End Relation.

(** ** Handlers that only take locks away *)

Lemma loses_of_inert {B} (m : M astate B) : stays inert m -> stays loses m.
Proof. apply stays_weaken. exact inert_loses. Qed.

Lemma force_release_loses uid : stays loses (in_d (@force_release dstate (daemon_host (ae_d A)) uid)).
Proof.
  intros s. destruct (in_d_locks (@force_release dstate (daemon_host (ae_d A)) uid) s) as [HL HA].
  split; [exact HA|]. intros u st. rewrite HL.
  pose proof (@force_release_table dstate (daemon_host (ae_d A)) uid (a_d s)) as Ht.
  change (dm_locks (mstate (@force_release dstate (daemon_host (ae_d A)) uid) (a_d s))) with
    (@lh_locks dstate (daemon_host (ae_d A)) (mstate (@force_release dstate (daemon_host (ae_d A)) uid) (a_d s))).
  rewrite Ht. destruct (status uid (a_d s)); [|exact id]. change (lh_locks (a_d s)) with (a_locks s).
  destruct (decide (uid = u)) as [->|Hn]; [rewrite dget_ddel_eq; discriminate|].
  rewrite dget_ddel_ne by exact Hn. exact id.
Qed.

Lemma force_unlock_covers req : stays keeps_covered (op_force_unlock A sc req).
Proof.
  apply (stays_weaken loses); [exact loses_keeps_covered|].
  unfold op_force_unlock, with_visible, respond, pop_connection, shut_down. cbv zeta.
  stays_all; first [exact (force_release_loses _)|apply loses_of_inert; solve [stays_all]].
Qed.

Lemma detach_virtual_loses reg : stays loses (detach_virtual A reg).
Proof.
  unfold detach_virtual, pop_connection, shut_down, fire_virtual_events.
  stays_all; first [apply release_loses|apply loses_of_inert; solve [stays_all]].
Qed.

(** Releasing each of a list of uids, and what is done after each. *)
Section DropEach.
Variable after : string -> M astate unit.
Hypothesis after_ok : forall uid s, mresult (after uid) s = Ok tt /\ inert s (mstate (after uid) s).

Definition drop_each (h : HolderRef) (uids : list string) : M astate unit :=
  mfor uids (fun uid => a_release A uid h ;;! after uid).

Lemma drop_each_spec h uids s :
  mresult (drop_each h uids) s = Ok tt /\ loses s (mstate (drop_each h uids) s) /\
  forall u st, u ∈ uids -> dget u (a_locks (mstate (drop_each h uids) s)) = Some st -> ls_holder st <> h.
Proof.
  revert s. induction uids as [|uid uids IH]; intros s.
  { split; [reflexivity|]. split; [reflexivity|]. intros u st Hu. inversion Hu. }
  unfold drop_each. cbn [mfor]. fold (drop_each h uids).
  destruct (a_release_ok uid h s) as [b Hb]. destruct (a_release_effect uid h s) as [HL _].
  pose proof (release_loses uid h s) as Hl. set (s1 := mstate (a_release A uid h) s) in *.
  destruct (after_ok uid s1) as [Ha1 Ha2].
  assert (E : mbind (mbind (a_release A uid h) (fun _ => after uid)) (fun _ => drop_each h uids) s =
    drop_each h uids (mstate (after uid) s1)).
  { rewrite bind_assoc, (bind_result _ _ _ b Hb), (bind_result _ _ _ tt Ha1). reflexivity. }
  unfold mresult, mstate at 1 2. rewrite E. destruct (IH (mstate (after uid) s1)) as (R1 & R2 & R3).
  split; [exact R1|]. split; [etransitivity; [exact Hl|]; etransitivity; [apply inert_loses, Ha2|exact R2]|].
  intros u st Hu Hg. apply elem_of_cons in Hu as [->|Hu]; [|exact (R3 u st Hu Hg)].
  destruct R2 as [_ R2]. apply R2 in Hg. rewrite (proj1 Ha2), HL in Hg.
  destruct (dget uid (a_locks s)) as [st'|] eqn:E'; [|congruence].
  destruct (bool_decide_reflect (ls_holder st' = h)); [rewrite dget_ddel_eq in Hg; discriminate|congruence].
Qed.

Lemma close_covers c s :
  keeps_covered s (mstate (uids <-! mgets (acquired c) ;; drop_each (cn_holder c) uids ;;!
     mmodify (fun s => a_with_acquired (ddel c (a_acquired s)) s)) s).
Proof.
  intros h H. destruct (drop_each_spec (cn_holder c) (acquired c s) s) as (HR & [HA HL] & HN).
  unfold mstate at 1. rewrite (bind_result _ _ _ (acquired c s)) by reflexivity.
  change (mstate (mgets (acquired c)) s) with s. rewrite (bind_result _ _ _ tt) by exact HR.
  unfold mmodify. cbn [snd]. set (s1 := mstate _ s) in *. intros u st Hu Hh.
  change (dget u (a_locks s1) = Some st) in Hu. destruct (H u st (HL u st Hu) Hh) as (c' & l & Hl & Hc & Hi).
  exists c', l. cbn [a_acquired a_with_acquired]. rewrite HA. destruct (decide (c = c')) as [<-|Hn].
  - exfalso. refine (HN u st _ Hu _); [|congruence]. unfold acquired. rewrite Hl. exact Hi.
  - rewrite dget_ddel_ne by exact Hn. auto.
Qed.

Lemma drop_each_spares h uids : stays (spares h) (drop_each h uids).
Proof.
  unfold drop_each. stays_all; [apply release_spares|]. intros s. apply inert_spares, after_ok.
Qed.
End DropEach.

Lemma pop_ok uid s : mresult (pop_connection uid) s = Ok tt /\ inert s (mstate (pop_connection uid) s).
Proof. split; [reflexivity|]. split; reflexivity. Qed.

Lemma leave_mode_covers c h : stays keeps_covered (leave_mode A c h).
Proof.
  destruct h as [| |reg|r]; cbn [leave_mode].
  - apply stays_ret. typeclasses eauto.
  - apply stays_ret. typeclasses eauto.
  - apply (stays_weaken loses); [exact loses_keeps_covered|apply detach_virtual_loses].
  - intros s. destruct (a_release_ok (dr_uid r) (cn_holder c) s) as [b Hb].
    unfold mstate. rewrite (bind_result _ _ _ b Hb). apply release_discard_covers.
Qed.

Lemma end_connection_covers c h : stays keeps_covered (end_connection A c h).
Proof.
  unfold end_connection. apply stays_finally; [typeclasses eauto|apply leave_mode_covers|].
  exact (close_covers pop_connection pop_ok c).
Qed.

(** What is left of a connection after its end: not even its set. *)
Lemma end_connection_closes c h s : dget c (a_acquired (mstate (end_connection A c h) s)) = None.
Proof.
  unfold end_connection, mstate, mfinally. destruct (leave_mode A c h s) as [r s1].
  fold (drop_each pop_connection (cn_holder c)).
  destruct (drop_each_spec pop_connection pop_ok (cn_holder c) (acquired c s1) s1) as (HR & _ & _).
  rewrite (bind_result _ _ _ (acquired c s1)) by reflexivity. change (mstate (mgets (acquired c)) s1) with s1.
  change (mbind (drop_each pop_connection (cn_holder c) (acquired c s1)) (fun _ => mmodify (fun s => a_with_acquired (ddel c (a_acquired s)) s)) s1)
    with ((drop_each pop_connection (cn_holder c) (acquired c s1) ;;! mmodify (fun s => a_with_acquired (ddel c (a_acquired s)) s)) s1).
  rewrite (bind_result _ _ _ tt) by exact HR. unfold mmodify. cbn. apply dget_ddel_eq.
Qed.

(** The sweep drops entries one by one. *)
Definition dloses (d d' : dstate) : Prop :=
  forall uid st, dget uid (dm_locks d') = Some st -> dget uid (dm_locks d) = Some st.
#[local] Instance dloses_preorder : PreOrder dloses.
Proof. split; [intros s u st; exact id|]. intros s1 s2 s3 H1 H2 u st H. exact (H1 _ _ (H2 _ _ H)). Qed.

Lemma sweep_dloses alive : stays dloses (@sweep dstate (daemon_host (ae_d A)) alive).
Proof.
  unfold sweep. stays_all. intros d u st.
  pose proof (@release_entry_table dstate (daemon_host (ae_d A)) a0 l d) as Ht.
  cbn [lh_locks daemon_host] in Ht. rewrite Ht. destruct (decide (a0 = u)) as [->|Hn].
  - rewrite dget_ddel_eq. discriminate.
  - rewrite dget_ddel_ne by exact Hn. exact id.
Qed.

Lemma sweep_covers pid_alive : stays keeps_covered (sweep_turn A pid_alive).
Proof.
  apply (stays_weaken loses); [exact loses_keeps_covered|]. unfold sweep_turn, pop_connection.
  stays_all; [|apply loses_of_inert; stays_all]. intros s.
  match goal with |- context [in_d ?m] => destruct (in_d_locks m s) as [HL HA] end.
  split; [exact HA|]. intros u st. rewrite HL. exact (sweep_dloses _ (a_d s) u st).
Qed.

(** ** The server as a transition system *)

(** One step: a connection is accepted, a line of it served, or it ends; a
    sweep; or anything on another thread that only takes locks away, as a
    scan cycle does. *)
Inductive server_step : astate -> astate -> Prop :=
| step_accept c s : dget c (a_acquired s) = None -> server_step s (mstate (accept c) s)
| step_line c line s : dget c (a_acquired s) <> None -> server_step s (serve_line A sc c line s)
| step_end c h s : dget c (a_acquired s) <> None -> server_step s (mstate (end_connection A c h) s)
| step_sweep pid_alive s : server_step s (mstate (sweep_turn A pid_alive) s)
| step_other s s' : loses s s' -> server_step s s'.

Section Environment.
Hypothesis others_covers : forall s, keeps_covered s (others s).
Hypothesis poll_covers : stays keeps_covered (ae_poll A).
Hypothesis resync_covers : stays keeps_covered (ae_peer_resync A).

Lemma dispatch_line_covers c line : stays keeps_covered (dispatch_line A sc line c).
Proof.
  apply dispatch_line_R; auto.
  - typeclasses eauto.
  - intros s s' H. apply loses_keeps_covered, inert_loses, H.
  - intros uid s. apply release_discard_covers.
  - intros. apply acquire_add_covers. assumption.
  - intros req _. right. apply force_unlock_covers.
Qed.

Lemma server_step_covers s s' : server_step s s' -> keeps_covered s s'.
Proof.
  intros []; [|clear H|clear H| |].
  - intros h Hc u st Hu Hh. destruct (Hc u st Hu Hh) as (c' & l & Hl & Hx). exists c', l. split; [|exact Hx].
    cbn. rewrite dget_dset_ne; [exact Hl|]. congruence.
  - unfold serve_line. pose proof (dispatch_line_covers c line s0) as H. unfold mstate in H.
    destruct (dispatch_line A sc line c s0) as [[?|e] s1]; [exact H|]. destruct (hung e); [exact H|].
    etransitivity; [exact H|apply end_connection_covers].
  - apply end_connection_covers.
  - apply sweep_covers.
  - apply loses_keeps_covered. assumption.
Qed.

Lemma server_run_covers s s' : rtc server_step s s' -> keeps_covered s s'.
Proof. induction 1; [reflexivity|]. etransitivity; [apply server_step_covers; eassumption|assumption]. Qed.
End Environment.

(** ** Other holders' locks *)

Lemma close_spares c : stays (spares (cn_holder c)) (end_connection A c Requests).
Proof.
  unfold end_connection, leave_mode. stays_all.
  - apply release_spares.
  - apply inert_sparing. unfold pop_connection. stays_all.
  - intros ? u st Hu _. exact Hu.
Qed.

Lemma dispatch_line_spares c line :
  (forall s, spares (cn_holder c) s (others s)) -> stays (spares (cn_holder c)) (ae_poll A) ->
  stays (spares (cn_holder c)) (ae_peer_resync A) ->
  (forall req, line = Some (JObj req) -> jget "op" req <> JStr "force_unlock") ->
  stays (spares (cn_holder c)) (dispatch_line A sc line c).
Proof.
  intros Ho Hp Hr Hl. apply dispatch_line_R; auto.
  - typeclasses eauto.
  - intros s s'. apply inert_spares.
  - intros uid s. apply release_discard_spares.
  - intros. apply acquire_add_spares. assumption.
  - intros req E. left. specialize (Hl req E). unfold is_str. destruct (jget "op" req); try reflexivity.
    apply String.eqb_neq. congruence.
Qed.

Lemma serve_line_spares c line s :
  (forall s, spares (cn_holder c) s (others s)) -> stays (spares (cn_holder c)) (ae_poll A) ->
  stays (spares (cn_holder c)) (ae_peer_resync A) ->
  (forall req, line = Some (JObj req) -> jget "op" req <> JStr "force_unlock") ->
  spares (cn_holder c) s (serve_line A sc c line s).
Proof.
  intros Ho Hp Hr Hl. pose proof (dispatch_line_spares c line Ho Hp Hr Hl s) as H.
  unfold serve_line, mstate in *. destruct (dispatch_line A sc line c s) as [[?|e] s1]; [exact H|]. destruct (hung e); [exact H|].
  etransitivity; [exact H|apply close_spares].
Qed.

(** ** [flash] *)

Lemma flash_checks_found token c s r : flash_checks A token c s = Ok (inl r) ->
  find (py_str A token) (a_db s) = Ok (Some r) /\ detached_error r = None /\
  exists st, dget (dr_uid r) (a_locks s) = Some st /\ ls_kind st = KIND_FLASH /\
             h_pid (ls_holder st) = h_pid (cn_holder c).
Proof.
  unfold flash_checks. destruct (find (py_str A token) (a_db s)) as [[r'|]|e]; [|discriminate|discriminate].
  cbn [result_bind]. destruct (holds [KIND_FLASH] (same_pid c) (dr_uid r') s) eqn:Hh; cbn [negb]; [|discriminate].
  destruct (detached_error r') eqn:Hd; [discriminate|]. intros [= <-].
  split; [reflexivity|]. split; [exact Hd|]. unfold holds in Hh.
  destruct (dget (dr_uid r') (a_locks s)) as [st|]; [|discriminate]. exists st. split; [reflexivity|].
  apply andb_prop in Hh as [H1 H2]. apply bool_decide_eq_true in H1, H2. split; [|exact H2].
  apply list_elem_of_singleton in H1. exact H1.
Qed.

Lemma flash_checks_refused token c s err : flash_checks A token c s = Ok (inr err) ->
  jget "ok" err = JBool false /\ jget "success" err = JBool false /\ jget "type" err = JStr "result".
Proof.
  unfold flash_checks. destruct (find (py_str A token) (a_db s)) as [[r|]|e]; [| |discriminate].
  - cbn [result_bind]. destruct (negb _); [intros [= <-]; auto|]. unfold detached_error.
    destruct (_ && _); [intros [= <-]; auto|discriminate].
  - intros [= <-]. auto.
Qed.

(** The end of an attempt. *)
Definition let_go (c : connection) (uid : string) (s : astate) : Prop :=
  (forall st, dget uid (a_locks s) = Some st -> ls_holder st <> cn_holder c) /\
  uid ∉ acquired c s /\ dget uid (a_uid_connections s) = None.

Lemma finish_flash_spec uid c s : mresult (finish_flash A uid c) s = Ok tt /\
  let_go c uid (mstate (finish_flash A uid c) s).
Proof.
  unfold finish_flash. destruct (a_release_ok uid (cn_holder c) s) as [b Hb].
  destruct (released_gone uid c s) as [HL HA].
  unfold mresult, mstate. rewrite (bind_result _ _ _ b Hb).
  unfold mbind, mmodify, pop_connection. cbn [fst snd]. split; [reflexivity|]. split; [exact HL|]. split; [exact HA|].
  cbn. apply dget_ddel_eq.
Qed.

(** What a hardware attempt answers, from what [FlashOp.flash_hex] gave. *)
Definition flash_answer (o : result FlashResult) : result fields :=
  match o with
  | Ok res => Ok (flash_result res)
  | Err HexValidationError =>
      Ok [("type", JStr "result"); ("ok", JBool false); ("code", JStr CODE_INVALID_REQUEST);
          ("success", JBool false); ("exit_code", JNull); ("error", message)]
  | Err e => Err e
  end.

Lemma run_flash_hardware r hex c s : is_virtual r = false ->
  let o := Flash.flash_hex (ae_f A) (ae_op A) (dr_uid r) hex (client_log A) (a_f (others s)) in
  run_flash A r hex c s =
    match flash_answer o.1 with
    | Ok resp => (finish_flash A (dr_uid r) c ;;! respond resp) (others (a_with_f o.2 (others s)))
    | Err e => (Err e, a_with_f o.2 (others s))
    end.
Proof.
  intros Hv o. unfold o, run_flash. rewrite Hv. unfold Api.others, mbind, mmodify, mtry, in_flash, flash_answer, respond.
  destruct (Flash.flash_hex _ _ _ _ _ _) as [[res|e] f]; cbn; [reflexivity|].
  destruct e; reflexivity.
Qed.

Lemma finished uid c (resp : fields) s : mresult (finish_flash A uid c ;;! respond resp) s = Ok resp /\
  let_go c uid (mstate (finish_flash A uid c ;;! respond resp) s).
Proof.
  destruct (finish_flash_spec uid c s) as [H1 H2]. unfold mresult, mstate.
  rewrite (bind_result _ _ _ tt H1). split; [reflexivity|exact H2].
Qed.

(** A virtual board's attempt lets go of it however it ends. *)
Lemma run_flash_virtual r hex c s : is_virtual r = true -> let_go c (dr_uid r) (mstate (run_flash A r hex c) s).
Proof.
  intros Hv. unfold run_flash, mstate. rewrite Hv. unfold Api.others. unfold mbind at 1, mmodify at 1.
  unfold mfinally. destruct (flash_virtual A r hex (others s)) as [res s1].
  unfold mbind at 1, mmodify at 1. destruct (finish_flash_spec (dr_uid r) c (others s1)) as [H1 H2].
  unfold mresult, mstate in H1, H2. destruct (finish_flash A (dr_uid r) c (others s1)) as [r2 s2].
  cbn [fst snd] in *. subst r2. exact H2.
Qed.

Lemma op_flash_run req c s : truthy (jget "uid" req) = true -> truthy (jget "hex_path" req) = true ->
  op_flash A req c s = match flash_checks A (jget "uid" req) c s with
                       | Err e => (Err e, s)
                       | Ok (inr err) => (Ok err, s)
                       | Ok (inl r) => run_flash A r (py_str A (jget "hex_path" req)) c s
                       end.
Proof.
  intros H1 H2. unfold op_flash. rewrite H1, H2. cbn [negb orb]. unfold mbind, mgets, mlift.
  destruct (flash_checks A (jget "uid" req) c s) as [[r|err]|e]; reflexivity.
Qed.
End Handlers.

(** ** An example server *)

Definition example_api : api_env := {|
  ae_d := DaemonFacts.example_env;
  ae_f := FlashFacts.example_env example_spawn;
  ae_op := mkFlashOp None DEFAULT_MCU;
  ae_str := fun _ => "";
  ae_write := fun _ => true;
  ae_read_bytes := fun _ => Ok "";
  ae_endpoint := fun _ _ => mkEndpoint false (fun _ => true) [];
  ae_other_threads := fun s => s;
  ae_poll := mret tt;
  ae_peer_resync := mret tt |}.

Definition idle_server : astate :=
  mkAstate (mkFstate (initial (mstate (upsert_attached "9906" "/dev/ttyACM0" "0d28:0204" 3) empty_db)) [] [])
    empty_bus [] [] [] [] [] [] [] [].

Definition conn_a : connection := mkConnection 1 (local_holder 41).
Definition conn_b : connection := mkConnection 2 (local_holder 42).

Definition request (op : string) : option json :=
  Some (JObj [("op", JStr op); ("uid", JStr "9906"); ("kind", JStr "flash"); ("hex_path", JStr "a.hex")]).

Definition accepted : astate := mstate (accept conn_b) (mstate (accept conn_a) idle_server).
Definition locked_server : astate := serve_line example_api local_scope conn_a (request "lock") accepted.

Lemma example_runner : runner_same (ae_op example_api).
Proof. intros runner H. discriminate H. Defined.

(** ** Properties *)

(** C16: a local [flash] runs only with the caller's own flash lock: a
    request that fails a check changes nothing and answers an error; one
    that passes them names an attached board (or another host's) whose flash
    lock is held under the connection's pid; and when it has answered, that
    lock is gone from the table, from the connection's set and from the
    connection map, whatever pyOCD, the endpoint or the client did. For
    hardware the answer is [FlashOp.flash_hex]'s, run outside the shared
    lock; only an exception other than [HexValidationError] escapes. *)
Theorem flash_op_guarded A req c s :
  truthy (jget "uid" req) = true -> truthy (jget "hex_path" req) = true ->
  let o := op_flash A req c s in
  match flash_checks A (jget "uid" req) c s with
  | Err e => o = (Err e, s)
  | Ok (inr err) => o = (Ok err, s) /\ jget "ok" err = JBool false /\ jget "success" err = JBool false
  | Ok (inl r) =>
      find (py_str A (jget "uid" req)) (a_db s) = Ok (Some r) /\
      (dr_host r = None -> dr_state r <> STATE_DISCONNECTED) /\
      (exists st, dget (dr_uid r) (a_locks s) = Some st /\ ls_kind st = KIND_FLASH /\
                  h_pid (ls_holder st) = h_pid (cn_holder c)) /\
      (is_ok o.1 = true \/ is_virtual r = true -> let_go c (dr_uid r) o.2) /\
      (is_virtual r = false -> o.1 = flash_answer (fst (Flash.flash_hex (ae_f A) (ae_op A) (dr_uid r)
         (py_str A (jget "hex_path" req)) (client_log A) (a_f (ae_other_threads A s)))))
  end.
Proof.
  intros H1 H2 o. assert (Eo : o = op_flash A req c s) by reflexivity. clearbody o.
  rewrite (op_flash_run A req c s H1 H2) in Eo.
  destruct (flash_checks A (jget "uid" req) c s) as [[r|err]|e] eqn:Hc; [|split; [exact Eo|]|exact Eo].
  - destruct (flash_checks_found A _ c s r Hc) as (Hf & Hd & Hst). split; [exact Hf|].
    split; [|split; [exact Hst|]].
    + intros Hh Hs. unfold detached_error in Hd. rewrite Hh, Hs in Hd. discriminate.
    + destruct (is_virtual r) eqn:Hv.
      * split; [|discriminate]. intros _. subst o. exact (run_flash_virtual A r _ c s Hv).
      * rewrite (run_flash_hardware A r _ c s Hv) in Eo.
        destruct (flash_answer (Flash.flash_hex _ _ _ _ _ _).1) as [resp|e].
        -- destruct (finished A (dr_uid r) c resp (ae_other_threads A (a_with_f
             (Flash.flash_hex (ae_f A) (ae_op A) (dr_uid r) (py_str A (jget "hex_path" req)) (client_log A)
                (a_f (ae_other_threads A s))).2 (ae_other_threads A s)))) as [F1 F2].
           subst o. split; [intros _; exact F2|intros _; exact F1].
        -- subst o. split; [intros [|]; discriminate|reflexivity].
  - destruct (flash_checks_refused A _ c s err Hc) as (A1 & A2 & _). auto.
Qed.

Lemma flash_op_guarded_witness :
  let req := [("op", JStr "flash"); ("uid", JStr "9906"); ("hex_path", JStr "a.hex")] in
  (exists r, flash_checks example_api (jget "uid" req) conn_a locked_server = Ok (inl r) /\ dr_uid r = "9906") /\
  is_ok (mresult (op_flash example_api req conn_a) locked_server) = true /\
  let_go conn_a "9906" (mstate (op_flash example_api req conn_a) locked_server).
Proof.
  intros req.
  pose proof (flash_op_guarded example_api req conn_a locked_server eq_refl eq_refl) as H. cbv zeta in H.
  assert (E : exists r, flash_checks example_api (jget "uid" req) conn_a locked_server = Ok (inl r) /\ dr_uid r = "9906")
    by (eexists; vm_compute; split; reflexivity).
  assert (Ho : is_ok (mresult (op_flash example_api req conn_a) locked_server) = true) by (vm_compute; reflexivity).
  split; [exact E|]. split; [exact Ho|]. destruct E as (r & E & Hu). rewrite E in H.
  destruct H as (_ & _ & _ & H & _). rewrite Hu in H. apply H. left. exact Ho.
Defined.

(** A registration whose acknowledgement cannot be written: the connection
    ends without the board being held, so nothing ever detaches it. *)
Lemma lost_ack_keeps_board :
  let env := {| ae_d := DaemonFacts.example_env; ae_f := FlashFacts.example_env example_spawn;
    ae_op := mkFlashOp None DEFAULT_MCU; ae_str := fun _ => ""; ae_write := fun _ => false;
    ae_read_bytes := fun _ => Ok ""; ae_endpoint := fun _ _ => mkEndpoint false (fun _ => true) [];
    ae_other_threads := fun s => s; ae_poll := mret tt; ae_peer_resync := mret tt |} in
  let s := serve_line env local_scope conn_a (Some (JObj [("op", JStr "register_board"); ("name", JStr "bench1");
    ("endpoint", JStr "localhost:8123"); ("serial", JInt 7); ("simulated", JBool true)])) accepted in
  dget conn_a (a_acquired s) = None /\ name_in_use "bench1" (a_boards s) = true /\
  (dr_state <$> get "sim-bench1" (a_db s)) = Some STATE_CONNECTED.
Proof.
  intros env s. split; [vm_compute; reflexivity|]. split; vm_compute; reflexivity.
Qed.
