(* ===== verification/ApiWindows.v ===== *)
(** * [registry/api_windows.py]: the local server on a Windows pipe

    The framing of a pipe's bytes into lines, the dispatch of a line, a
    connection from its holder to its end, the accept loop's handles and
    the way [stop] wakes it.  The requests are Api's, but that nothing is
    published on a bus.  What the kernel
    answers is the environment's; [ctypes] itself and the security
    descriptor are left out. *)

From S2P Require Import Prelude Tables Json UniversalHex Store Locks Daemon Peering Api.
Local Open Scope py_scope.

(** ** What the kernel's answers mean *)

Definition ERROR_PIPE_CONNECTED : Z := 535.
Definition ERROR_NOT_FOUND : Z := 1168.
Definition STILL_ACTIVE : Z := 259.

(** A handle, [None] for the null or the invalid one. *)
Definition create_named_pipe (handle : option Z) : result Z := match handle with Some h => Ok h | None => Err OSError end.
Definition open_client_pipe (handle : option Z) : result Z := match handle with Some h => Ok h | None => Err OSError end.
Definition connect_named_pipe (ok : bool) (last_error : Z) : result unit :=
  if negb ok && negb (last_error =? ERROR_PIPE_CONNECTED) then Err OSError else Ok tt.
(** The bytes read; a broken pipe reads as its end. *)
Definition read_file (ok : bool) (bytes : string) : string := if ok then bytes else "".
Definition write_file (ok : bool) : result unit := if ok then Ok tt else Err OSError.
Definition get_client_process_id (ok : bool) (pid : Z) : result Z := if ok then Ok pid else Err OSError.

(** [cancel_pending_connect]: the thread's handle, the cancellation, its
    error. *)
Definition cancel_pending_connect (thread : option Z) (ok : bool) (last_error : Z) : result unit :=
  match thread with
  | None => Ok tt
  | Some _ => if negb ok && negb (last_error =? ERROR_NOT_FOUND) then Err OSError else Ok tt
  end.

Definition default_is_pid_alive_windows (pid : Z) (handle : option Z) (exit_code : option Z) : bool :=
  if pid <=? 0 then false
  else match handle, exit_code with
       | Some _, Some code => code =? STILL_ACTIVE
       | _, _ => false
       end.

(** ** Lines *)

(** [_PipeLineReader]: what [read_file] will return, in order, nothing
    (the end) after it, and the bytes read but not returned. *)
Record reader := mkReader { rd_chunks : list string; rd_buf : string; rd_eof : bool }.

Definition has_newline (s : string) : bool := Py.sexists (Ascii.eqb lf) s.

(** [while b"\n" not in self._buf and not self._eof]. *)
Fixpoint fill (chunks : list string) (buf : string) : reader :=
  if has_newline buf then mkReader chunks buf false
  else match chunks with
       | [] => mkReader [] buf true
       | "" :: rest => mkReader rest buf true
       | chunk :: rest => fill rest (buf +:+ chunk)%string
       end.

(** [readline], up to [decode]. *)
Definition pipe_readline (r : reader) : string * reader :=
  let r := if rd_eof r then r else fill (rd_chunks r) (rd_buf r) in
  match Py.partition lf (rd_buf r) with
  | (line, true, rest) => ((line +:+ String lf "")%string, mkReader (rd_chunks r) rest (rd_eof r))
  | _ => (rd_buf r, mkReader (rd_chunks r) "" (rd_eof r))
  end.

(** [__next__] until the end; the bytes to come bound the lines. *)
Definition to_come (r : reader) : nat := String.length (rd_buf r) + list_sum (map String.length (rd_chunks r)).

Fixpoint pipe_iter (fuel : nat) (r : reader) : list string :=
  match fuel with
  | O => []
  | S fuel' => let '(line, r') := pipe_readline r in
               if String.eqb line "" then [] else line :: pipe_iter fuel' r'
  end.

Definition pipe_lines (chunks : list string) : list string :=
  let r := mkReader chunks "" false in pipe_iter (S (to_come r)) r.

(** [_PipeWriter]: what has been written since the last flush. *)
Definition writer_write (buf text : string) : string := (buf +:+ text)%string.
(** [flush]: what [write_file] is given, if anything. *)
Definition writer_flush (buf : string) : option string := if String.eqb buf "" then None else Some buf.

(** ** A connection *)

Inductive handle_act := HCreated (h : Z) | HConnected (h : Z) | HServed (h : Z) | HDisconnected (h : Z) | HClosed (h : Z).

Record wstate := mkWstate { ws_a : astate; ws_log : list handle_act }.

Definition on_server {A} (m : M astate A) : M wstate A :=
  fun s => let (r, a) := m (ws_a s) in (r, mkWstate a (ws_log s)).
Definition log_handle (x : handle_act) : M wstate unit := mmodify (fun s => mkWstate (ws_a s) (ws_log s ++ [x])).

Section Windows.
Variable A : api_env.
Variable loads : string -> option json.                 (* [json.loads], [None] when malformed *)
Variable decode : string -> result string.              (* UTF-8 *)

(** [_dispatch_line]'s requests: Api's, but for [flash], [force_unlock],
    [watch], [stream] and [register_board]; this server has no event bus, so
    its [rescan] publishes nothing. *)
Definition w_request (op : json) (req : fields) (c : connection) : M astate fields :=
  if is_str "list" op then op_list local_scope
  else if is_str "get" op || is_str "find" op then op_find A local_scope req
  else if is_str "lock" op then op_lock A local_scope req c
  else if is_str "unlock" op then op_unlock A local_scope req c
  else if is_str "mark_flashed" op then op_mark_flashed A local_scope req c
  else if is_str "rescan" op then op_rescan A false req
  else if is_str "names_get" op then op_names_get A req
  else if is_str "names_set" op then op_names_set A req
  else if is_str "names_clear" op then op_names_clear A req
  else if is_str "names_list" op then op_names_list req
  else respond (error CODE_INVALID_REQUEST []).

Definition w_dispatch_line (line : option json) (c : connection) : M astate unit :=
  resp <-! match line with
           | Some (JObj req) => w_request (jget "op" req) req c
           | _ => respond (error CODE_INVALID_REQUEST [])
           end ;;
  write A c resp.

(** [for raw_line in rfile]; between two lines other threads run. *)
Fixpoint w_serve (c : connection) (lines : list string) : M astate unit :=
  match lines with
  | [] => mret tt
  | raw :: lines' =>
      text <-! mlift (decode raw) ;;
      if String.eqb text "" then mret tt
      else
        others A ;;!
        (let line := Py.strip text in
         if String.eqb line "" then mret tt else w_dispatch_line (loads line) c) ;;!
        w_serve c lines'
  end.

(** The locks of the connection's set, released at its end. *)
Definition w_release (c : connection) : M astate unit :=
  others A ;;!
  uids <-! mgets (acquired c) ;;
  mfor uids (fun uid => a_release A uid (cn_holder c) ;;! mret tt) ;;!
  mmodify (fun s => a_with_acquired (ddel c (a_acquired s)) s).

(** [_handle_connection]: the peer's pid, or none; what its pipe will
    read. *)
Definition handle_connection (h : Z) (id : Z) (pid : result Z) (chunks : list string) : M wstate unit :=
  match pid with
  | Err OSError => log_handle (HClosed h)
  | Err e => mraise e
  | Ok pid =>
      let c := mkConnection id (local_holder pid) in
      on_server (accept c) ;;!
      mfinally
        (mtry (on_server (w_serve c (pipe_lines chunks)))
              (fun e => match e with OSError => Some (mret tt) | _ => None end))
        (on_server (w_release c) ;;! log_handle (HDisconnected h) ;;! log_handle (HClosed h))
  end.

(** ** The accept loop *)

(** One turn: the pipe's instance, whether [stop] was called before it was
    announced, what connecting to it came to with the last error, and
    whether [stop] was called by then. *)
Record turn := mkTurn { tn_create : option Z; tn_stop : bool; tn_connect : bool; tn_error : Z; tn_stopped : bool }.

(** The handles given to a thread of their own. *)
Fixpoint accept_loop (turns : list turn) : M wstate (list Z) :=
  match turns with
  | [] => mret []
  | t :: turns' =>
      match create_named_pipe (tn_create t) with
      | Err OSError => mret []
      | Err e => mraise e
      | Ok h =>
          log_handle (HCreated h) ;;!
          if tn_stop t then log_handle (HClosed h) ;;! mret []
          else match connect_named_pipe (tn_connect t) (tn_error t) with
               | Err OSError => log_handle (HClosed h) ;;! mret []
               | Err e => mraise e
               | Ok _ =>
                   if tn_stopped t then log_handle (HClosed h) ;;! mret []
                   else log_handle (HServed h) ;;! hs <-! accept_loop turns' ;; mret (h :: hs)
               end
      end
  end.

(** A turn of [_sweep_loop]; [_is_holder_alive] is Api's, on this
    system's liveness check. *)
Definition w_sweep_turn (pid_alive : Z -> bool) : M astate unit :=
  in_d (@sweep dstate (daemon_host (ae_d A)) (is_holder_alive pid_alive)) ;;! mret tt.
End Windows.

(** ** [stop] *)

(** [_cancel_accept_thread_pending_io]: each round cancels, with an error
    that is passed over, and joins for 50 ms; [alive] is whether the thread
    lives after so many rounds, [clock] the time before each look at it.
    The cancellations made. *)
Fixpoint cancel_rounds (fuel : nat) (alive : nat -> bool) (clock : nat -> Z) (deadline : Z) (round : nat) : option nat :=
  match fuel with
  | O => None
  | S fuel' =>
      if alive round && (clock round <? deadline) then cancel_rounds fuel' alive clock deadline (S round)
      else Some round
  end.
