(* ===== verification/ApiWindowsFacts.v ===== *)
(** * Properties of the Windows pipe server

    The lines a pipe's bytes are read as, whatever pieces they come in; the
    requests against the socket server's; what is left of a connection; what
    becomes of the handles; how long [stop] waits. *)

From S2P Require Import Prelude Tables Trace Naming Json Regex Identity Virtual UniversalHex Store StoreNames Locks.
From S2P Require Import Claims Daemon DaemonFacts Flash FlashFacts EventBus Peering Api ApiFacts ApiWindows.
Local Open Scope py_scope.

(** ** Lines *)

(** The lines of a text, their newlines kept. *)
Fixpoint keep_lines (s : string) : list string :=
  match s with
  | "" => []
  | String c s' =>
      if Ascii.eqb c lf then String lf "" :: keep_lines s'
      else match keep_lines s' with [] => [String c ""] | l :: ls => String c l :: ls end
  end.

(** What arrives before the pipe ends. *)
Fixpoint received (chunks : list string) : string :=
  match chunks with
  | [] | "" :: _ => ""
  | chunk :: rest => (chunk +:+ received rest)%string
  end.

Lemma keep_lines_at h t : Py.lacks lf h = true ->
  keep_lines (h +:+ String lf t)%string = (h +:+ String lf "")%string :: keep_lines t.
Proof.
  induction h as [|c h IH]; [reflexivity|]. unfold Py.lacks in *. cbn [Py.sforall].
  rewrite andb_true_iff, negb_true_iff, Ascii.eqb_sym. intros [Hc Hh].
  change (String c h +:+ String lf t)%string with (String c (h +:+ String lf t)). cbn [keep_lines].
  rewrite Hc, (IH Hh). reflexivity.
Qed.

Lemma keep_lines_end h : Py.lacks lf h = true -> h <> "" -> keep_lines h = [h].
Proof.
  induction h as [|c h IH]; [congruence|]. unfold Py.lacks in *. cbn [Py.sforall keep_lines].
  rewrite andb_true_iff, negb_true_iff, Ascii.eqb_sym. intros [-> Hh] _.
  destruct h as [|d h]; [reflexivity|]. rewrite IH by (exact Hh || discriminate). reflexivity.
Qed.

(** The text a reader has still to return. *)
Definition remaining (r : reader) : string :=
  (rd_buf r +:+ (if rd_eof r then "" else received (rd_chunks r)))%string.

Lemma fill_remaining chunks : forall buf, let r := fill chunks buf in
  remaining r = (buf +:+ received chunks)%string /\ (rd_eof r = true \/ has_newline (rd_buf r) = true) /\
  (to_come r <= String.length buf + list_sum (map String.length chunks))%nat.
Proof.
  induction chunks as [|chunk chunks IH]; intros buf r; subst r; cbn [fill].
  all: destruct (has_newline buf) eqn:Hn; [unfold remaining, to_come; cbn; auto|].
  - unfold remaining, to_come. cbn. auto.
  - destruct chunk as [|c chunk]; [unfold remaining, to_come; cbn; auto|].
    destruct (IH (buf +:+ String c chunk)%string) as (A & B & D). split; [rewrite A, <- Py.append_assoc; reflexivity|].
    split; [exact B|]. rewrite Regex.length_append in D. cbn [map list_sum foldr String.length] in *.
    unfold list_sum in *. cbn in *. lia.
Qed.

Lemma readline_remaining r : exists line r', pipe_readline r = (line, r') /\
  keep_lines (remaining r) = (if String.eqb line "" then [] else line :: keep_lines (remaining r')) /\
  (line = "" -> remaining r = "") /\ (String.length line + to_come r' <= to_come r)%nat.
Proof.
  unfold pipe_readline.
  set (r1 := if rd_eof r then r else fill (rd_chunks r) (rd_buf r)).
  assert (H : remaining r1 = remaining r /\ (rd_eof r1 = true \/ has_newline (rd_buf r1) = true) /\
    (to_come r1 <= to_come r)%nat).
  { subst r1. destruct (rd_eof r) eqn:He; [auto|]. destruct (fill_remaining (rd_chunks r) (rd_buf r)) as (A & B & D).
    split; [rewrite A; unfold remaining; rewrite He; reflexivity|]. split; [exact B|exact D]. }
  clearbody r1. destruct H as (E & B & L). rewrite <- E. clear E.
  destruct (Py.partition lf (rd_buf r1)) as [[h f] t] eqn:Hp. destruct (Py.partition_join _ _ _ _ _ Hp) as (H1 & H2 & H3).
  destruct f.
  - eexists _, _. split; [reflexivity|]. unfold remaining, to_come in *. cbn [rd_buf rd_chunks rd_eof].
    assert (Hl : (h +:+ String lf "")%string <> "") by (destruct h; discriminate).
    rewrite (proj2 (String.eqb_neq _ _) Hl). rewrite H2 in L |- *.
    rewrite <- Py.append_assoc. change (String lf t +:+ ?x)%string with (String lf (t +:+ x)).
    split; [exact (keep_lines_at _ _ H1)|]. split; [congruence|].
    rewrite !Regex.length_append in *. cbn [String.length] in *. lia.
  - specialize (H3 eq_refl) as ->. rewrite Py.append_nil_r in H2. eexists _, _. split; [reflexivity|].
    assert (He : rd_eof r1 = true).
    { destruct B as [B|B]; [exact B|]. unfold has_newline in B. rewrite H2, (Py.lacks_none _ _ H1) in B. discriminate. }
    unfold remaining, to_come in *. cbn [rd_buf rd_chunks rd_eof]. rewrite He, !Py.append_nil_r.
    split; [|split; [auto|cbn; lia]]. destruct (String.eqb_spec (rd_buf r1) "") as [->|Hn]; [reflexivity|].
    rewrite keep_lines_end by (rewrite ?H2; congruence). reflexivity.
Qed.

Lemma pipe_iter_lines fuel : forall r, (to_come r < fuel)%nat -> pipe_iter fuel r = keep_lines (remaining r).
Proof.
  induction fuel as [|fuel IH]; intros r Hf; [lia|]. cbn [pipe_iter].
  destruct (readline_remaining r) as (line & r' & -> & -> & _ & L).
  destruct (String.eqb_spec line "") as [->|Hn]; [reflexivity|]. f_equal. apply IH.
  destruct line; [congruence|]. cbn [String.length] in L. lia.
Qed.

(** The lines depend on the text received alone, not on its pieces. *)
Lemma pipe_lines_text chunks : pipe_lines chunks = keep_lines (received chunks).
Proof. unfold pipe_lines. rewrite pipe_iter_lines by lia. reflexivity. Qed.

(** ** Requests *)

Definition served_here (op : json) : bool :=
  match op with
  | JStr op => bool_decide (op ∈ ["list"; "get"; "find"; "lock"; "unlock"; "mark_flashed"; "rescan";
                                  "names_get"; "names_set"; "names_clear"; "names_list"])
  | _ => false
  end.

(** The socket server's state, but for the connections it notes for
    [force_unlock]. *)
Definition unnoted (s : astate) : astate := a_with_connections [] s.

Definition same_outcome {A B} (o : result A * astate) (o' : result B * astate) : Prop :=
  match o.1, o'.1 with Ok _, Ok _ => True | Err e, Err e' => e = e' | _, _ => False end /\
  unnoted o.2 = unnoted o'.2.

Section Requests.
Variable A : api_env.
Variable c : connection.
Hypothesis alone : forall s, ae_other_threads A s = s.

Lemma write_unnoted resp s v : same_outcome (write A c resp (a_with_connections v s)) (write A c resp s).
Proof.
  unfold write, in_d, in_flash, in_daemon, client_ready, read, mbind. cbn.
  destruct s as [f b bo ac uc p n sh se o]. cbn. destruct (ae_write A _); split; reflexivity.
Qed.

Lemma noting (f : string -> astate -> astate) uids : forall s, (forall u s, exists v, f u s = a_with_connections v s) ->
  exists v, mfor uids (fun u => mmodify (f u)) s = (Ok tt, a_with_connections v s).
Proof.
  intros s H. revert s. induction uids as [|u uids IH]; intros s.
  - exists (a_uid_connections s). destruct s. reflexivity.
  - cbn [mfor]. unfold mbind, mmodify at 1. destruct (H u s) as [v ->].
    destruct (IH (a_with_connections v s)) as [v' E]. exists v'. rewrite E. destruct s. reflexivity.
Qed.

Lemma same_answer m s : same_outcome ((resp <-! m ;; write A c resp) s) (answer A c m s).
Proof.
  unfold answer. rewrite !bind_run. destruct (m s) as [[resp|e] s1]; [|split; reflexivity].
  rewrite bind_run. destruct (write A c resp s1) as [[u|e] s2]; split; reflexivity.
Qed.

Lemma same_tracked m (f : list string -> list string -> list string) (g : string -> astate -> astate) s :
  (forall u s, exists v, g u s = a_with_connections v s) ->
  same_outcome ((resp <-! m ;; write A c resp) s)
    (answer A c (before <-! mgets (acquired c) ;; resp <-! m ;; others A ;;! after <-! mgets (acquired c) ;;
                 mfor (f before after) (fun u => mmodify (g u)) ;;! mret resp) s).
Proof.
  intros Hg. unfold answer, others, mgets, mmodify, mbind, mret. cbv beta iota zeta.
  destruct (m s) as [[resp|e] s1]; [|split; reflexivity]. rewrite alone.
  destruct (noting g (f (acquired c s) (acquired c s1)) s1 Hg) as [v E]. unfold mmodify in E. rewrite E.
  pose proof (write_unnoted resp s1 v) as W. unfold same_outcome in *. set (wr := write A c resp) in *. clearbody wr.
  destruct (wr s1) as [[u|e] s2], (wr (a_with_connections v s1)) as [[u'|e'] s2'];
    destruct W as [W1 W2]; cbn in *; try contradiction; split; auto; congruence.
Qed.
End Requests.

(** ** A connection *)

Section Connection.
Variable A : api_env.
Variable loads : string -> option json.
Variable decode : string -> result string.
Hypothesis others_covers : forall s, keeps_covered s (ae_other_threads A s).
Hypothesis poll_covers : stays keeps_covered (ae_poll A).
Hypothesis resync_covers : stays keeps_covered (ae_peer_resync A).

Lemma covering {B} (m : M astate B) : stays inert m -> stays keeps_covered m.
Proof. exact (inert_covers m). Qed.
Lemma others_stays : stays keeps_covered (others A).
Proof. intros s. apply others_covers. Qed.
Lemma write_covers c resp : stays keeps_covered (write A c resp).
Proof. apply covering, write_inert. Qed.
Hint Resolve covering others_stays write_covers poll_covers resync_covers : api.

Lemma w_request_covers op req c : stays keeps_covered (w_request A op req c).
Proof.
  assert (K : forall s s', inert s s' -> keeps_covered s s') by (intros s s' H; apply loses_keeps_covered, inert_loses, H).
  pose proof (names_R A keeps_covered K req) as (N1 & N2 & N3 & N4).
  assert (L : stays keeps_covered (op_lock A local_scope req c)).
  { apply op_lock_R; auto using keeps_covered_preorder. intros. apply acquire_add_covers. assumption. }
  assert (U : stays keeps_covered (op_unlock A local_scope req c)).
  { apply op_unlock_R; auto using keeps_covered_preorder. intros. apply release_discard_covers. }
  assert (V : stays keeps_covered (op_rescan A false req)) by (apply op_rescan_R; auto using keeps_covered_preorder).
  assert (W : forall t k, (forall r, stays keeps_covered (k r)) -> stays keeps_covered (with_visible A local_scope t k))
    by (intros; apply with_visible_R; auto using keeps_covered_preorder).
  unfold w_request, op_list, op_find, op_mark_flashed, respond.
  repeat match goal with |- stays _ (if ?b then _ else _) => destruct b end; auto; stays_all; apply W; intros; stays_all.
Qed.

Lemma w_serve_covers c lines : stays keeps_covered (w_serve A loads decode c lines).
Proof.
  induction lines as [|raw lines IH]; cbn [w_serve]; [stays_all|]. unfold w_dispatch_line, respond. cbv zeta.
  stays_all; try apply w_request_covers.
Qed.

(** The locks of the set go, and the set with them. *)
Lemma w_release_ends c s : let s' := mstate (w_release A c) s in
  mresult (w_release A c) s = Ok tt /\ dget c (a_acquired s') = None /\ keeps_covered s s'.
Proof.
  cbv zeta. set (s1 := ae_other_threads A s).
  assert (T : forall (uid : string) s, mresult (mret tt : M astate unit) s = Ok tt /\ inert s (mstate (mret tt : M astate unit) s))
    by (intros; split; reflexivity).
  pose proof (close_covers A (fun _ => mret tt) (fun _ => T "") c s1) as H.
  destruct (drop_each_spec A (fun _ => mret tt) (fun _ => T "") (cn_holder c) (acquired c s1) s1) as (HR & _ & _).
  assert (E : w_release A c s = (uids <-! mgets (acquired c) ;; drop_each A (fun _ => mret tt) (cn_holder c) uids ;;!
     mmodify (fun s => a_with_acquired (ddel c (a_acquired s)) s)) s1) by reflexivity.
  unfold mstate, mresult in *. rewrite E. split; [|split].
  - rewrite (bind_result _ _ _ (acquired c s1)) by reflexivity. change (mstate (mgets (acquired c)) s1) with s1.
    rewrite (bind_result _ _ _ tt) by exact HR. reflexivity.
  - rewrite (bind_result _ _ _ (acquired c s1)) by reflexivity. change (mstate (mgets (acquired c)) s1) with s1.
    rewrite (bind_result _ _ _ tt) by exact HR. cbn. apply dget_ddel_eq.
  - etransitivity; [apply others_covers|exact H].
Qed.
End Connection.

(** ** The bus *)

(** The events the socket's [rescan] publishes for the rows it removes. *)
Definition removal_events (req : fields) (s : astate) : list fields :=
  if truthy (jget_or "dry_run" (JBool false) req) then []
  else
    let candidates := candidates_for_purge (a_db s) in
    let uids := List.filter (fun u => negb (bool_decide (dget u (a_locks s) <> None))) (device_uids candidates) in
    let host_of uid := match get uid (a_db s) with Some r => dr_host r | None => None end in
    match mresult (purge uids (unreachable_peers candidates)) (a_db s) with
    | Ok removed =>
        map (fun uid => [("type", JStr EVENT_DEVICE_REMOVED); ("uid", JStr uid); ("host", jopt (host_of uid))]) removed.1 ++
        map (fun host => [("type", JStr EVENT_PEER_REMOVED); ("host", JStr host)]) removed.2
    | Err _ => []
    end.

(** What the socket's server publishes of its own to answer an operation of
    this one. *)
Definition own_events (op : json) (req : fields) (s : astate) : list fields :=
  if is_str "rescan" op then removal_events req s else [].

Definition publish_all (events : list fields) (b : bus) : bus :=
  fold_left (fun b e => mstate (publish (JObj e)) b) events b.
Definition announced (events : list fields) (s : astate) : astate := a_with_bus (publish_all events (a_bus s)) s.

Lemma publish_ok e b : publish e b = (Ok tt, mstate (publish e) b).
Proof.
  unfold mstate, publish. rewrite bind_run. unfold mgets. generalize (bus_subscribers b). intros l. revert b.
  induction l as [|q l IH]; intros b; [reflexivity|]. cbn [mfor]. rewrite bind_run. apply IH.
Qed.

Lemma announce_each {X} (f : X -> fields) l : forall s,
  mfor l (fun x => publish_bus (f x)) s = (Ok tt, announced (map f l) s).
Proof.
  induction l as [|x l IH]; intros s; [destruct s; reflexivity|]. cbn [mfor map].
  unfold mbind, publish_bus at 1, in_bus. rewrite publish_ok. rewrite IH. destruct s; reflexivity.
Qed.

Lemma publish_all_app l l' b : publish_all (l ++ l') b = publish_all l' (publish_all l b).
Proof. apply fold_left_app. Qed.

Lemma in_db_announced {X} (m : M db X) events s :
  mstate (in_db m) (announced events s) = announced events (mstate (in_db m) s).
Proof.
  unfold mstate, in_db, in_d, in_flash, in_daemon, in_store, announced. cbn [a_f a_bus a_with_bus].
  destruct (m (dm_db (fl_d (a_f s)))). reflexivity.
Qed.

Section Bus.
Variable A : api_env.
Hypothesis alone : forall s, ae_other_threads A s = s.

(** The socket's [rescan] is the pipe's, its own events published before. *)
Lemma rescan_announces req s : op_rescan A true req s = op_rescan A false req (announced (removal_events req s) s).
Proof.
  unfold op_rescan, removal_events. destruct (truthy _).
  { destruct s. reflexivity. }
  rewrite (bind_run mget). rewrite (bind_run mget). unfold mget. cbv zeta.
  repeat match goal with
  | |- context [a_db (announced ?e s)] => change (a_db (announced e s)) with (a_db s)
  | |- context [a_locks (announced ?e s)] => change (a_locks (announced e s)) with (a_locks s)
  end.
  set (uids := List.filter _ _). set (hosts := unreachable_peers _).
  assert (P : forall t, in_db (purge uids hosts) t = (mresult (purge uids hosts) (a_db t), mstate (in_db (purge uids hosts)) t)).
  { intros t. unfold mresult, mstate, in_db, in_d, in_flash, in_daemon, in_store, a_db, a_d.
    destruct (purge uids hosts (dm_db (fl_d (a_f t)))). reflexivity. }
  rewrite (bind_run (in_db (purge uids hosts))), P. rewrite (bind_run (in_db (purge uids hosts))), P.
  match goal with |- context [a_db (announced ?e s)] => change (a_db (announced e s)) with (a_db s) end.
  destruct (mresult (purge uids hosts) (a_db s)) as [removed|e] eqn:Er.
  2: { destruct s. reflexivity. }
  set (s' := announced _ s).
  subst s'. rewrite in_db_announced. set (s1 := mstate (in_db (purge uids hosts)) s). clearbody s1.
  assert (O : forall t, others A t = (Ok tt, t)) by (intros t; unfold others, mmodify; rewrite alone; reflexivity).
  rewrite !(bind_run (others A)), !O. unfold publish_removed.
  rewrite (bind_run (mbind _ _)), (bind_run (mfor _ _)), announce_each, announce_each.
  rewrite (bind_run (mret tt)). unfold mret at 1. unfold announced. cbn [a_bus a_with_bus]. rewrite publish_all_app. reflexivity.
Qed.
End Bus.

(** Nothing the pipe's server does of its own reaches the bus. *)
Definition same_bus (s s' : astate) : Prop := a_bus s' = a_bus s.
#[export] Instance same_bus_preorder : PreOrder same_bus.
Proof. split; [intros s; reflexivity|]. intros s1 s2 s3. unfold same_bus. congruence. Qed.

Lemma in_flash_bus {X} (m : M fstate X) : stays same_bus (in_flash m).
Proof. intros s. unfold mstate, same_bus, in_flash. destruct (m (a_f s)). reflexivity. Qed.
Lemma in_d_bus {X} (m : M dstate X) : stays same_bus (in_d m).
Proof. apply in_flash_bus. Qed.
Lemma in_db_bus {X} (m : M db X) : stays same_bus (in_db m).
Proof. apply in_flash_bus. Qed.
Lemma modify_bus f : (forall s, a_bus (f s) = a_bus s) -> stays same_bus (mmodify f).
Proof. intros H s. apply H. Qed.
Hint Resolve in_flash_bus in_d_bus in_db_bus : api.
Hint Extern 5 (stays same_bus (mmodify _)) => (apply modify_bus; intros; reflexivity) : api.

Lemma pipe_leaves_bus A line c :
  (forall s, same_bus s (ae_other_threads A s)) -> stays same_bus (ae_poll A) -> stays same_bus (ae_peer_resync A) ->
  stays same_bus (w_dispatch_line A line c).
Proof.
  intros Ho Hp Hr.
  assert (O : stays same_bus (others A)) by (intros s; apply Ho).
  assert (Q : forall m, stays same_bus (a_acquire A m.1.1 m.1.2 m.2.1 m.2.2)) by (intros; apply in_d_bus).
  unfold w_dispatch_line, w_request, write, op_list, op_find, op_mark_flashed, op_lock, op_unlock, op_rescan, publish_removed,
    op_names_get, op_names_set, op_names_clear, op_names_list, invalid_if, with_visible, respond, a_acquire, a_release.
  stays_all.
Qed.

(** C37: the pipe's server answers as the socket's: with no other thread
    between two holds of the lock, a request of an operation it serves ends
    the same way, with the same response and the same server state but for
    the connections the socket server notes for [force_unlock] -- and for a
    [rescan] but for the events of the removed rows, which only the socket's
    server publishes: its run is the pipe's from a bus on which they are
    already.  Of itself the pipe's server never publishes anything.  Any other
    request, [flash], [stream], [watch], [register_board] and
    [force_unlock] among them, is answered [invalid_request]. *)
Theorem pipe_answers_as_socket A (loads : string -> option json) req raw c s :
  (forall s, ae_other_threads A s = s) -> loads raw = Some (JObj req) ->
  (if served_here (jget "op" req)
   then same_outcome (w_dispatch_line A (loads raw) c (announced (own_events (jget "op" req) req s) s))
          (dispatch_line A local_scope (loads raw) c s)
   else w_dispatch_line A (loads raw) c s = write A c (error CODE_INVALID_REQUEST []) s) /\
  (stays same_bus (ae_poll A) -> stays same_bus (ae_peer_resync A) ->
   a_bus (mstate (w_dispatch_line A (loads raw) c) s) = a_bus s).
Proof.
  intros Ho ->. split.
  2: { intros Hp Hr. apply pipe_leaves_bus; [|exact Hp|exact Hr]. intros t. unfold same_bus. rewrite Ho. reflexivity. }
  unfold w_dispatch_line, dispatch_line, served_here, own_events.
  generalize (jget "op" req) as op. intros op.
  destruct op as [| | | |op| |]; try reflexivity. unfold w_request, dispatch, is_str.
  case_bool_decide as Hop.
  - destruct (String.eqb_spec op "rescan") as [->|Hn].
    { cbn [String.eqb Ascii.eqb Bool.eqb orb]. pose proof (rescan_announces A Ho req s) as R.
      unfold answer. unfold same_outcome. rewrite !bind_run, R.
      destruct (op_rescan A false req _) as [[resp|e] s1]; [|split; reflexivity].
      rewrite bind_run. destruct (write A c resp s1) as [[u|e] s2]; split; reflexivity. }
    replace (announced [] s) with s by (destruct s; reflexivity).
    repeat match type of Hop with
    | _ ∈ _ :: _ => apply elem_of_cons in Hop as [->|Hop]; cbn [String.eqb Ascii.eqb Bool.eqb orb]
    end; try (apply same_answer); try solve [inversion Hop]; try congruence.
    + apply (same_tracked A c Ho _ (fun before after => List.filter (fun u => negb (bool_decide (u ∈ before))) after)
               (fun u s => a_with_connections (dset u c (a_uid_connections s)) s)). eauto.
    + apply (same_tracked A c Ho _ (fun before after => List.filter (fun u => negb (bool_decide (u ∈ after))) before)
               (fun u s => a_with_connections (ddel u (a_uid_connections s)) s)). eauto.
  - assert (N : forall w, w ∈ ["list"; "get"; "find"; "lock"; "unlock"; "mark_flashed"; "rescan";
                          "names_get"; "names_set"; "names_clear"; "names_list"] -> String.eqb w op = false).
    { intros w Hw. apply String.eqb_neq. congruence. }
    rewrite !(fun w H => eq_trans (String.eqb_sym op w) (N w H)) by set_solver. reflexivity.
Qed.

(** The example server with its board unplugged, and a watcher. *)
Definition unplugged_server : astate :=
  mstate (in_bus subscribe) (mstate (in_db (mark_disconnected "9906" 4)) accepted).

Lemma pipe_answers_as_socket_witness :
  (same_outcome (w_dispatch_line example_api (request "lock") conn_a (announced [] accepted))
     (dispatch_line example_api local_scope (request "lock") conn_a accepted) /\
   dget "9906" (a_locks (mstate (w_dispatch_line example_api (request "lock") conn_a) accepted)) <> None /\
   w_dispatch_line example_api (request "flash") conn_a accepted =
     write example_api conn_a (error CODE_INVALID_REQUEST []) accepted) /\
  let event := [("type", JStr "device_removed"); ("uid", JStr "9906"); ("host", JNull)] in
  same_outcome (w_dispatch_line example_api (request "rescan") conn_a (announced [event] unplugged_server))
    (dispatch_line example_api local_scope (request "rescan") conn_a unplugged_server) /\
  bus_queues (a_bus (mstate (dispatch_line example_api local_scope (request "rescan") conn_a) unplugged_server)) = [[JObj event]] /\
  get "9906" (a_db (mstate (w_dispatch_line example_api (request "rescan") conn_a) unplugged_server)) = None /\
  a_bus (mstate (w_dispatch_line example_api (request "rescan") conn_a) unplugged_server) = a_bus unplugged_server.
Proof.
  split; [split; [|split]|split; [|split; [|split]]].
  - exact (proj1 (pipe_answers_as_socket example_api (fun _ => request "lock") _ "" conn_a accepted (fun _ => eq_refl) eq_refl)).
  - vm_compute. discriminate.
  - exact (proj1 (pipe_answers_as_socket example_api (fun _ => request "flash") _ "" conn_a accepted (fun _ => eq_refl) eq_refl)).
  - exact (proj1 (pipe_answers_as_socket example_api (fun _ => request "rescan") _ "" conn_a unplugged_server (fun _ => eq_refl) eq_refl)).
  - vm_compute. reflexivity.
  - vm_compute. reflexivity.
  - refine (proj2 (pipe_answers_as_socket example_api (fun _ => request "rescan") _ "" conn_a unplugged_server (fun _ => eq_refl) eq_refl) _ _);
      intros s; reflexivity.
Defined.

Lemma accept_covers c s : dget c (a_acquired s) = None -> keeps_covered s (mstate (accept c) s).
Proof.
  intros Hn h Hc u st Hu Hh. destruct (Hc u st Hu Hh) as (c' & l & Hl & Hx). exists c', l. split; [|exact Hx].
  cbn. rewrite dget_dset_ne; [exact Hl|]. congruence.
Qed.

Lemma on_server_run {A} (m : M astate A) s : on_server m s = (mresult m (ws_a s), mkWstate (mstate m (ws_a s)) (ws_log s)).
Proof. unfold on_server, mresult, mstate. destruct (m (ws_a s)) as [r a]. reflexivity. Qed.

(** whatever a client of the pipe sends, and however serving it ends,
    at the end of its connection the set of locks it acquired is gone and
    each lock still in the table is in the set of an open connection of its
    holder, when it was so before; its handle is disconnected, then closed.
    A connection whose client cannot be identified only has its handle
    closed. *)
Theorem pipe_connection_ends A loads decode h id pid chunks s :
  (forall s, keeps_covered s (ae_other_threads A s)) -> stays keeps_covered (ae_poll A) ->
  stays keeps_covered (ae_peer_resync A) ->
  let s' := mstate (handle_connection A loads decode h id pid chunks) s in
  match pid with
  | Ok p => let c := mkConnection id (local_holder p) in
      dget c (a_acquired (ws_a s)) = None ->
      dget c (a_acquired (ws_a s')) = None /\ keeps_covered (ws_a s) (ws_a s') /\
      ws_log s' = ws_log s ++ [HDisconnected h; HClosed h]
  | Err OSError => ws_a s' = ws_a s /\ ws_log s' = ws_log s ++ [HClosed h]
  | Err e => s' = s
  end.
Proof.
  intros Ho Hp Hr s'. destruct pid as [p|[]]; try (split; reflexivity); try reflexivity.
  intros c Hn. pose proof (accept_covers c (ws_a s) Hn) as K0. set (s0 := mstate (accept c) (ws_a s)) in *.
  pose proof (w_serve_covers A loads decode Ho Hp Hr c (pipe_lines chunks) s0) as K1.
  set (served := w_serve A loads decode c (pipe_lines chunks)) in *.
  destruct (w_release_ends A Ho c (mstate served s0)) as (R1 & R2 & R3).
  assert (E : s' = mkWstate (mstate (w_release A c) (mstate served s0)) (ws_log s ++ [HDisconnected h; HClosed h])).
  { subst s'. unfold handle_connection, mstate at 1. fold c. rewrite (bind_result _ _ _ tt) by reflexivity.
    change (mstate (on_server (accept c)) s) with (mkWstate s0 (ws_log s)). fold served. unfold mfinally, mtry.
    rewrite on_server_run. cbn [ws_a ws_log]. set (s1 := mstate served s0) in *.
    assert (F : (on_server (w_release A c) ;;! log_handle (HDisconnected h) ;;! log_handle (HClosed h)) (mkWstate s1 (ws_log s)) =
      (Ok tt, mkWstate (mstate (w_release A c) s1) (ws_log s ++ [HDisconnected h; HClosed h]))).
    { rewrite bind_run, on_server_run. cbn [ws_a ws_log]. rewrite R1. unfold log_handle, mmodify, mbind. cbn.
      rewrite <- app_assoc. reflexivity. }
    destruct (mresult served s0) as [[]|[]]; cbn [mret]; unfold mret; rewrite F; reflexivity. }
  rewrite E. cbn [ws_a ws_log]. split; [exact R2|]. split; [|reflexivity].
  etransitivity; [exact K0|]. etransitivity; [exact K1|exact R3].
Qed.

Lemma pipe_connection_ends_witness :
  let turn := handle_connection example_api (fun _ => request "lock") Ok 7 1 (Ok 41) ["lo"; "ck" +:+ String lf ""]%string in
  dget "9906" (a_locks (mstate (w_serve example_api (fun _ => request "lock") Ok conn_a
    (pipe_lines ["lo"; "ck" +:+ String lf ""]%string)) (mstate (accept conn_a) idle_server))) <> None /\
  dget "9906" (a_locks (ws_a (mstate turn (mkWstate idle_server [])))) = None /\
  ws_log (mstate turn (mkWstate idle_server [])) = [HDisconnected 7; HClosed 7].
Proof.
  split; [vm_compute; discriminate|]. split; [vm_compute; reflexivity|].
  refine (proj2 (proj2 (pipe_connection_ends example_api (fun _ => request "lock") Ok 7 1 (Ok 41) _ (mkWstate idle_server [])
    _ _ _ eq_refl))); intros s; reflexivity.
Defined.

(** ** The handles of the accept loop *)

(** Every instance of the pipe created is handed to a thread of its own, or
    closed; only the last may be closed, and the loop is then over. *)
Lemma accept_loop_handles turns : forall s, exists hs last,
  ws_log (mstate (accept_loop turns) s) = ws_log s ++ flat_map (fun h => [HCreated h; HServed h]) hs ++ last /\
  (last = [] \/ exists h, last = [HCreated h; HClosed h]) /\ (List.length hs <= List.length turns)%nat /\
  mresult (accept_loop turns) s = Ok hs /\
  ws_a (mstate (accept_loop turns) s) = ws_a s.
Proof.
  induction turns as [|[[h|] st cn er sp] turns IH]; intros s.
  - exists [], []. rewrite app_nil_r. cbn. auto.
  - cbn [accept_loop tn_create tn_stop tn_connect tn_error tn_stopped create_named_pipe].
    assert (C : exists hs last, ws_log s ++ [HCreated h; HClosed h] = ws_log s ++ flat_map (fun h => [HCreated h; HServed h]) hs ++ last /\
      (last = [] \/ exists h, last = [HCreated h; HClosed h]) /\ (List.length hs <= S (List.length turns))%nat /\
      Ok [] = Ok hs /\ ws_a s = ws_a s).
    { exists [], [HCreated h; HClosed h]. cbn. eauto 7 with lia. }
    unfold mstate, mresult, log_handle, mmodify, mbind, mret in *.
    destruct st; [cbn; rewrite <- app_assoc; exact C|].
    assert (Hc : connect_named_pipe cn er = Ok tt \/ connect_named_pipe cn er = Err OSError)
      by (unfold connect_named_pipe; destruct (_ && _); auto).
    destruct Hc as [-> | ->]; [|cbn; rewrite <- app_assoc; exact C].
    destruct sp; [cbn; rewrite <- app_assoc; exact C|]. clear C. cbn.
    destruct (IH (mkWstate (ws_a s) ((ws_log s ++ [HCreated h]) ++ [HServed h]))) as (hs & last & A & B & D & E & F).
    exists (h :: hs), last. set (o := accept_loop turns _) in *. clearbody o. destruct o as [r s2]. cbn in *. subst r. cbn.
    rewrite A, <- !app_assoc. cbn. auto with lia.
  - exists [], []. rewrite app_nil_r. cbn. auto with lia.
Qed.

(** ** [stop] *)

(** While the thread lives each round takes at least its 50 ms: [stop]
    cancels at most forty times, and with that many rounds it is over. *)
Lemma cancel_rounds_bounded alive clock :
  (forall n, alive (S n) = true -> clock n + 50000 <= clock (S n)) ->
  exists n, cancel_rounds 42 alive clock (clock 0%nat + 2000000) 0 = Some n /\ (n <= 40)%nat.
Proof.
  intros Hc.
  assert (G : forall fuel round, (41 < fuel + round)%nat -> (round <= 40)%nat ->
    clock 0%nat + 50000 * Z.of_nat round <= clock round \/ alive round = false ->
    exists n, cancel_rounds fuel alive clock (clock 0%nat + 2000000) round = Some n /\ (n <= 40)%nat).
  { induction fuel as [|fuel IH]; intros round Hf Hr Ht; [lia|]. cbn [cancel_rounds].
    destruct (alive round) eqn:Hl; [|eauto]. destruct Ht as [Ht|Ht]; [|discriminate]. cbn [andb].
    destruct (Z.ltb_spec (clock round) (clock 0%nat + 2000000)) as [Hlt|]; [|eauto].
    apply IH; [lia|lia|].
    destruct (alive (S round)) eqn:Hn; [left|auto]. specialize (Hc round Hn). lia. }
  apply (G 42%nat 0%nat); lia || (intros; lia).
Qed.
