(* ===== verification/RemoteApi.v ===== *)
(** * [registry/remote_api.py]: the remote control-plane server

    The requests a peer's clients may send over TCP: the shared ones in the
    remote scope, the staging of a hex file, the remote flash, and a
    connection from its authentication to its end.  A session is a
    connection, whose holder carries the session id; the sets its handler
    keeps ([acquired_uids], [uploaded_hex_paths]) and the live sessions are
    part of the state, next to the local server's, which shares the store
    and the lock table. *)

From S2P Require Import Prelude Tables Json Base64 Identity Virtual UniversalHex Store Locks Claims.
From S2P Require Import Daemon Flash EventBus Peering Api.
Local Open Scope py_scope.

Definition CODE_UNAUTHORIZED : string := "unauthorized".

Definition MAX_HEX_PAYLOAD_BYTES : Z := 8 * 1024 * 1024.
Definition MAX_HEX_B64_CHARS : Z := 4 * ((MAX_HEX_PAYLOAD_BYTES + 2) / 3).

Record rstate := mkRstate {
  r_a : astate;
  r_live_sessions : list string;
  r_authenticated : list connection;
  r_uploaded : list (connection * list string) }.

Definition r_with_a (v : astate) (s : rstate) : rstate :=
  mkRstate v (r_live_sessions s) (r_authenticated s) (r_uploaded s).
Definition r_with_live (v : list string) (s : rstate) : rstate :=
  mkRstate (r_a s) v (r_authenticated s) (r_uploaded s).
Definition r_with_authenticated (v : list connection) (s : rstate) : rstate :=
  mkRstate (r_a s) (r_live_sessions s) v (r_uploaded s).
Definition r_with_uploaded (v : list (connection * list string)) (s : rstate) : rstate :=
  mkRstate (r_a s) (r_live_sessions s) (r_authenticated s) v.

Definition in_api {A} (m : M astate A) : M rstate A :=
  fun s => let (r, a) := m (r_a s) in (r, r_with_a a s).

Definition r_tmp (s : rstate) : list (string * string) := fl_tmp (a_f (r_a s)).

Definition uploaded (c : connection) (s : rstate) : list string :=
  match dget c (r_uploaded s) with Some l => l | None => [] end.
Definition uploaded_add (c : connection) (path : string) (s : rstate) : rstate :=
  r_with_uploaded (dset c (uploaded c s ++ (if bool_decide (path ∈ uploaded c s) then [] else [path]))
                     (r_uploaded s)) s.
Definition uploaded_discard (c : connection) (path : string) (s : rstate) : rstate :=
  r_with_uploaded (dset c (List.filter (fun p => negb (String.eqb p path)) (uploaded c s)) (r_uploaded s)) s.

Section RemoteApi.
Variable A : api_env.
(** Can a staged file be written. *)
Variable can_stage : list (string * string) -> string -> bool.
Variable auth_token : option string.

Definition r_write (c : connection) (response : fields) : M rstate unit := in_api (write A c response).

(** [os.unlink] with [OSError] suppressed. *)
Definition unlink (path : string) : M rstate unit :=
  in_api (in_flash (unlink_quietly (ae_f A) path)).

(** [_check_auth]: whether the line carried the token. *)
Definition check_auth (line : option json) (c : connection) : M rstate bool :=
  let token := match line with Some (JObj req) => jget "token" req | _ => JNull end in
  if match auth_token with Some t => is_str t token | None => false end then
    r_write c (ok []) ;;! mret true
  else
    r_write c (error CODE_UNAUTHORIZED []) ;;! mret false.

Definition op_send_hex (req : fields) (c : connection) : M rstate fields :=
  match jget "data" req with
  | JStr data =>
      if String.eqb data "" then mret (error CODE_INVALID_REQUEST [])
      else if MAX_HEX_B64_CHARS <? Py.slen data then mret (error CODE_INVALID_REQUEST [])
      else match b64decode data with
           | None => mret (error CODE_INVALID_REQUEST [])
           | Some raw =>
               if MAX_HEX_PAYLOAD_BYTES <? Py.slen raw then mret (error CODE_INVALID_REQUEST [])
               else
                 path <-! in_api (in_flash (fun f => (fe_mkstemp (ae_f A) (fl_trace f), f))) ;;
                 in_api (in_flash (mmodify (fun f => with_tmp (dset path "" (fl_tmp f)) f))) ;;!
                 writable <-! mgets (fun s => can_stage (r_tmp s) path) ;;
                 if writable : bool then
                   in_api (in_flash (mmodify (fun f => with_tmp (dset path raw (fl_tmp f)) f))) ;;!
                   mmodify (uploaded_add c path) ;;!
                   mret (ok [("hex_path", JStr path)])
                 else unlink path ;;! mret (error CODE_INVALID_REQUEST [])
           end
  | _ => mret (error CODE_INVALID_REQUEST [])
  end.

(** The checks of [_op_flash], in its order. *)
Definition remote_flash_checks (req : fields) (c : connection) (s : rstate) : result (DeviceRecord + fields) :=
  let token := jget "uid" req in let hex_path := jget "hex_path" req in
  if negb (truthy token) || negb (truthy hex_path) then Ok (inr (no_run (error CODE_INVALID_REQUEST [])))
  else if negb (bool_decide (py_str A hex_path ∈ uploaded c s)) then Ok (inr (no_run (error CODE_INVALID_REQUEST [])))
  else
    let! found := resolve_visible remote_scope (py_str A token) (r_a s) in
    Ok match found with
       | inr err => inr (no_run err)
       | inl r =>
           if negb (holds [KIND_FLASH] (same_holder c) (dr_uid r) (r_a s)) then inr (no_run (error CODE_NOT_LOCKED []))
           else match detached_error r with
                | Some err => inr (no_run err)
                | None => inl r
                end
       end.

(** The run, and the staged file's end; [None]: it raised. *)
Definition staged_run (r : DeviceRecord) (hex_path : string) (c : connection) : M rstate (option Z) :=
  mafter
    (mcatch (rc <-! in_api (in_flash (flashlogic_flash_hex (ae_f A) (dr_uid r) hex_path DEFAULT_MCU
                            (Some (client_log A)) (Some (or_else (dr_device_name r) (dr_uid r))) (dr_port r))) ;;
             mret (Some rc))
       (fun _ => mret None))
    (unlink hex_path ;;! mmodify (uploaded_discard c hex_path)).

Definition remote_flash_result (outcome : option Z) : fields :=
  let success := match outcome with Some rc => rc =? 0 | None => false end in
  [("type", JStr "result"); ("ok", JBool success); ("success", JBool success); ("exit_code", jint outcome);
   ("error", if success then JNull else message)].

Definition remote_run_flash (r : DeviceRecord) (hex_path : string) (c : connection) : M rstate fields :=
  in_api (others A) ;;!
  outcome <-! staged_run r hex_path c ;;
  in_api (others A) ;;!
  in_api (a_release A (dr_uid r) (cn_holder c) ;;! mmodify (acquired_discard c (dr_uid r)) ;;! mret tt) ;;!
  (if bool_decide (outcome = Some 0) then in_api (in_db (increment_flash_count (dr_uid r))) ;;! mret tt else mret tt) ;;!
  mret (remote_flash_result outcome).

Definition remote_op_flash (req : fields) (c : connection) : M rstate fields :=
  checked <-! mgets (remote_flash_checks req c) ;;
  checked <-! mlift checked ;;
  match checked with
  | inr err => mret err
  | inl r => remote_run_flash r (py_str A (jget "hex_path" req)) c
  end.

Definition r_answer (c : connection) (m : M rstate fields) : M rstate handoff :=
  resp <-! m ;; r_write c resp ;;! mret Requests.

Definition remote_dispatch (op : json) (req : fields) (c : connection) : M rstate handoff :=
  if is_str "list" op then r_answer c (in_api (op_list remote_scope))
  else if is_str "get" op || is_str "find" op then r_answer c (in_api (op_find A remote_scope req))
  else if is_str "lock" op then r_answer c (in_api (op_lock A remote_scope req c))
  else if is_str "unlock" op then r_answer c (in_api (op_unlock A remote_scope req c))
  else if is_str "mark_flashed" op then r_answer c (in_api (op_mark_flashed A remote_scope req c))
  else if is_str "send_hex" op then r_answer c (op_send_hex req c)
  else if is_str "flash" op then r_answer c (remote_op_flash req c)
  else if is_str "stream" op then
    opened <-! in_api (op_stream_precheck A remote_scope req c) ;;
    r_write c opened.1 ;;!
    mret match opened.2 with Some r => Streaming r | None => Requests end
  else if is_str "watch" op then r_write c (ok []) ;;! mret Watching
  else r_answer c (mret (error CODE_INVALID_REQUEST [])).

Definition remote_dispatch_line (line : option json) (c : connection) : M rstate handoff :=
  match line with
  | Some (JObj req) => remote_dispatch (jget "op" req) req c
  | _ => r_answer c (mret (error CODE_INVALID_REQUEST []))
  end.

(** ** A session's life *)

Definition session_holder (session_id host : string) : HolderRef := mkHolder "remote" session_id None (Some host).

(** An accepted session; without a token configured it is authenticated. *)
Definition remote_accept (c : connection) : M rstate unit :=
  mmodify (fun s => r_with_live (h_ref (cn_holder c) :: r_live_sessions s) s) ;;!
  in_api (accept c) ;;!
  mmodify (fun s => r_with_uploaded (dset c [] (r_uploaded s)) s) ;;!
  match auth_token with
  | None => mmodify (fun s => r_with_authenticated (c :: r_authenticated s) s)
  | Some _ => mret tt
  end.

(** The end of [_handle_connection]. *)
Definition remote_end (c : connection) (h : handoff) : M rstate unit :=
  mfinally (in_api (leave_mode A c h))
    (in_api (uids <-! mgets (acquired c) ;;
             mfor uids (fun uid => a_release A uid (cn_holder c) ;;! mret tt) ;;!
             mmodify (fun s => a_with_acquired (ddel c (a_acquired s)) s)) ;;!
     paths <-! mgets (uploaded c) ;;
     mfor paths unlink ;;!
     mmodify (fun s => r_with_uploaded (ddel c (r_uploaded s))
       (r_with_live (List.filter (fun i => negb (String.eqb i (h_ref (cn_holder c)))) (r_live_sessions s))
         (r_with_authenticated (List.filter (fun k => negb (bool_decide (k = c))) (r_authenticated s)) s)))).

(** One line read from a session: the token first, when one is asked for. *)
Definition remote_line (c : connection) (line : option json) : M rstate handoff :=
  authenticated <-! mgets (fun s => bool_decide (c ∈ r_authenticated s)) ;;
  if authenticated : bool then remote_dispatch_line line c
  else
    passed <-! check_auth line c ;;
    if passed : bool then mmodify (fun s => r_with_authenticated (c :: r_authenticated s) s) ;;! mret Requests
    else mraise (OpError CODE_UNAUTHORIZED).

(** A refused token and an exception both end the connection; a dispatch
    that hangs goes on holding it. *)
Definition serve_remote_line (c : connection) (line : option json) (s : rstate) : rstate :=
  match remote_line c line s with
  | (Ok _, s') => s'
  | (Err e, s') => if hung e then s' else mstate (remote_end c Requests) s'
  end.

(** The sweep doubts remote holders only. *)
Definition remote_holder_alive (live : list string) (h : HolderRef) : bool :=
  if negb (String.eqb (h_origin h) "remote") then true else bool_decide (h_ref h ∈ live).

Definition remote_sweep_turn : M rstate unit :=
  live <-! mgets r_live_sessions ;;
  in_api (in_d (@sweep dstate (daemon_host (ae_d A)) (remote_holder_alive live)) ;;! mret tt).
End RemoteApi.
