(* ===== verification/RemoteFacts.v ===== *)
(** * Properties of the two request servers together

    The local server's connections and the remote server's sessions work on
    one store and one lock table; what a lock's life is tied to, what a
    session may touch, and what staging and remote flashing do. *)

From S2P Require Import Prelude Trace Tables Json Base64 Identity Virtual UniversalHex Store StoreFacts Locks Claims.
From S2P Require Import Daemon DaemonFacts Flash FlashFacts EventBus Peering Api ApiFacts RemoteApi.
Local Open Scope py_scope.

(** ** Relations on the shared part *)

Definition on_a (R : astate -> astate -> Prop) (s s' : rstate) : Prop := R (r_a s) (r_a s').

#[export] Instance on_a_preorder R `{!PreOrder R} : PreOrder (on_a R).
Proof.
  split; [intros s; unfold on_a; reflexivity|]. intros s1 s2 s3 H1 H2. unfold on_a in *.
  etransitivity; eassumption.
Qed.

Lemma in_api_stays R {A} (m : M astate A) : stays R m -> stays (on_a R) (in_api m).
Proof.
  intros H s. specialize (H (r_a s)). unfold mstate, on_a, in_api in *. destruct (m (r_a s)). exact H.
Qed.

Lemma r_modify_stays R `{!PreOrder R} f : (forall s, r_a (f s) = r_a s) -> stays (on_a R) (mmodify f).
Proof. intros H s. unfold on_a, mstate. cbn. rewrite H. reflexivity. Qed.

#[export] Hint Resolve in_api_stays : api.
#[export] Hint Extern 5 (stays (on_a _) (mmodify _)) =>
  (apply r_modify_stays; [typeclasses eauto|intros; reflexivity]) : api.

Section Remote.
Variable A : api_env.
Variable can_stage : list (string * string) -> string -> bool.
Variable auth_token : option string.

Section Relation.
Variable c : connection.
Variable R : astate -> astate -> Prop.
Context `{!PreOrder R}.
Hypothesis R_inert : forall s s', inert s s' -> R s s'.
Hypothesis R_release : forall uid s,
  R s (acquired_discard c uid (mstate (a_release A uid (cn_holder c)) s)).
Hypothesis R_acquire : forall uid kind label s, dget uid (a_locks s) = None ->
  R s (acquired_add c uid (mstate (a_acquire A uid kind (cn_holder c) label) s)).
Hypothesis R_others : forall s, R s (ae_other_threads A s).

Lemma r_inert {B} (m : M astate B) : stays inert m -> stays (on_a R) (in_api m).
Proof. intros H. apply in_api_stays. exact (stays_weaken _ _ m R_inert H). Qed.

Lemma r_tmp_inert f : stays (on_a R) (in_api (in_flash (mmodify (fun x => with_tmp (f x) x)))).
Proof. apply r_inert, in_flash_inert. intros s. reflexivity. Qed.

Hint Resolve r_inert r_tmp_inert write_inert in_db_inert : api.

Lemma r_write_R c' m : stays (on_a R) (r_write A c' m).
Proof. apply r_inert, write_inert. Qed.
Hint Resolve r_write_R : api.

Lemma r_answer_R m : stays (on_a R) m -> stays (on_a R) (r_answer A c m).
Proof. intros H. unfold r_answer. stays_all. Qed.

Lemma send_hex_R req : stays (on_a R) (op_send_hex A can_stage req c).
Proof.
  unfold op_send_hex, unlink. stays_all; apply r_inert, in_flash_inert; intros ?; unfold mstate; try rewrite unlink_quietly_run; reflexivity.
Qed.

Lemma release_step uid : stays R (a_release A uid (cn_holder c) ;;! mmodify (acquired_discard c uid) ;;! mret tt).
Proof.
  apply release_discard; [typeclasses eauto|intros s; apply R_release|].
  intros _. apply stays_ret. typeclasses eauto.
Qed.

Lemma remote_flash_R req : stays (on_a R) (remote_op_flash A req c).
Proof.
  unfold remote_op_flash, remote_run_flash, staged_run, unlink.
  stays_all; first [apply in_api_stays, release_step | apply r_inert, in_flash_inert, unlink_data; exact same_of_data | apply in_api_stays; exact R_others
                   | apply r_inert, in_flash_inert, flashlogic_keeps; [typeclasses eauto|exact same_of_data|apply client_log_same]].
Qed.

Lemma remote_dispatch_R op req : stays (on_a R) (remote_dispatch A can_stage op req c).
Proof.
  unfold remote_dispatch.
  repeat match goal with
  | |- stays _ (if ?b then _ else _) => destruct b
  | |- stays _ (r_answer _ _ _) => apply r_answer_R
  end; unfold op_list, op_find, op_mark_flashed, respond.
  - apply r_inert. stays_all.
  - apply r_inert. apply with_visible_R || stays_all.
    stays_all. apply with_visible_R; [typeclasses eauto|]. intros. stays_all.
  - apply in_api_stays, op_lock_R; auto.
  - apply in_api_stays, op_unlock_R; auto.
  - apply r_inert. stays_all. apply with_visible_R; [typeclasses eauto|]. intros. stays_all.
  - apply send_hex_R.
  - apply remote_flash_R.
  - stays_all. apply in_api_stays, stream_R; auto.
  - stays_all.
  - stays_all.
Qed.

Lemma remote_line_R line : stays (on_a R) (remote_line A can_stage auth_token c line).
Proof.
  unfold remote_line, remote_dispatch_line, check_auth.
  stays_all; first [apply remote_dispatch_R|apply r_answer_R; stays_all].
Qed.
End Relation.

(** ** A session's end *)

Lemma none_ok (uid : string) s : mresult (mret tt) s = Ok tt /\ inert s (mstate (mret (A:=unit) tt) s).
Proof. split; [reflexivity|]. split; reflexivity. Qed.

Definition close_session (c : connection) : M astate unit :=
  uids <-! mgets (acquired c) ;;
  mfor uids (fun uid => a_release A uid (cn_holder c) ;;! mret tt) ;;!
  mmodify (fun s => a_with_acquired (ddel c (a_acquired s)) s).

Lemma close_session_covers c : stays keeps_covered (close_session c).
Proof. exact (close_covers A (fun _ => mret tt) none_ok c). Qed.


(** The tail of the end touches no part the servers share. *)
Lemma remote_end_stays R `{!PreOrder R} c h : (forall s s', inert s s' -> R s s') ->
  stays R (leave_mode A c h) -> stays R (close_session c) -> stays (on_a R) (remote_end A c h).
Proof.
  intros Ri Hl Hc. unfold remote_end, unlink. fold (close_session c). stays_all.
  apply in_api_stays, (stays_weaken inert R); [exact Ri|]. apply in_flash_inert, unlink_data. exact same_of_data.
Qed.

Lemma remote_sweep_covers : stays (on_a keeps_covered) (remote_sweep_turn A).
Proof.
  unfold remote_sweep_turn. stays_all. apply in_api_stays.
  apply (stays_weaken loses); [exact loses_keeps_covered|]. stays_all. intros s.
  match goal with |- context [in_d ?m] => destruct (in_d_locks m s) as [HL HA] end.
  split; [exact HA|]. intros u st. rewrite HL. exact (sweep_dloses A _ (a_d s) u st).
Qed.

(** ** The two servers as one transition system *)

(** A step of the local server, of the remote one, or of anything else on
    another thread that only takes locks away. *)
Inductive servers_step : rstate -> rstate -> Prop :=
| local_step s a : server_step A local_scope (r_a s) a -> servers_step s (r_with_a a s)
| session_accept c s : dget c (a_acquired (r_a s)) = None ->
    servers_step s (mstate (remote_accept auth_token c) s)
| session_line c line s : servers_step s (serve_remote_line A can_stage auth_token c line s)
| session_end c h s : servers_step s (mstate (remote_end A c h) s)
| session_sweep s : servers_step s (mstate (remote_sweep_turn A) s).

Section Environment.
Hypothesis runner_keeps : runner_same (ae_op A).
Hypothesis others_covers : forall s, keeps_covered s (ae_other_threads A s).
Hypothesis poll_covers : stays keeps_covered (ae_poll A).
Hypothesis resync_covers : stays keeps_covered (ae_peer_resync A).

Lemma remote_line_covers c line : stays (on_a keeps_covered) (remote_line A can_stage auth_token c line).
Proof.
  refine (remote_line_R c keeps_covered _ _ _ others_covers line).
  - intros s s' H. apply loses_keeps_covered, inert_loses, H.
  - exact (release_discard_covers A c).
  - intros uid kind label s. exact (acquire_add_covers A c uid kind label s).
Qed.

Lemma remote_end_covers c h : stays (on_a keeps_covered) (remote_end A c h).
Proof.
  apply remote_end_stays; [typeclasses eauto| |apply leave_mode_covers|apply close_session_covers].
  intros s s' H. apply loses_keeps_covered, inert_loses, H.
Qed.

Lemma servers_step_covers s s' : servers_step s s' -> on_a keeps_covered s s'.
Proof.
  intros [s0 a H|c s0 H|c line s0|c h s0|s0].
  - exact (server_step_covers A local_scope runner_keeps others_covers poll_covers resync_covers _ _ H).
  - intros h Hc u st Hu Hh.
    assert (E : r_a (mstate (remote_accept auth_token c) s0) = mstate (accept c) (r_a s0)).
    { unfold remote_accept. destruct auth_token; reflexivity. }
    unfold on_a in *. rewrite E in Hu |- *. destruct (Hc u st Hu Hh) as (c' & l & Hl & Hx). exists c', l. split; [|exact Hx].
    cbn. rewrite dget_dset_ne; [exact Hl|]. congruence.
  - unfold serve_remote_line. pose proof (remote_line_covers c line s0) as H. unfold mstate in H.
    destruct (remote_line A can_stage auth_token c line s0) as [[?|e] s1]; [exact H|]. destruct (hung e); [exact H|].
    etransitivity; [exact H|apply remote_end_covers].
  - apply remote_end_covers.
  - apply remote_sweep_covers.
Qed.

Lemma servers_run_covers s s' : rtc servers_step s s' -> on_a keeps_covered s s'.
Proof.
  induction 1; [reflexivity|]. etransitivity; [apply servers_step_covers; eassumption|assumption].
Qed.
End Environment.


(** ** Authentication *)

(** Nothing but the clock and what was written out differs. *)
Definition unread (s s' : rstate) : Prop :=
  a_db (r_a s') = a_db (r_a s) /\ a_locks (r_a s') = a_locks (r_a s) /\
  a_acquired (r_a s') = a_acquired (r_a s) /\ r_tmp s' = r_tmp s /\
  r_uploaded s' = r_uploaded s /\ r_authenticated s' = r_authenticated s.

Lemma r_write_unread c m s : unread s (mstate (r_write A c m) s).
Proof.
  unfold unread, r_write, in_api, mstate, write, client_ready, in_d, in_flash, in_daemon, read, mbind, mmodify, mraise.
  cbn. destruct (ae_write A (dm_tick (fl_d (a_f (r_a s))))); cbn; auto 10.
Qed.

Definition line_token (line : option json) : json :=
  match line with Some (JObj req) => jget "token" req | _ => JNull end.

Lemma check_auth_refused t line c s : auth_token = Some t -> line_token line <> JStr t ->
  unread s (mstate (check_auth A auth_token line c) s) /\
  mresult (check_auth A auth_token line c) s <> Ok true /\
  mresult (check_auth A auth_token line c) s <> Err Hangs.
Proof.
  intros Ht Hl. unfold check_auth. rewrite Ht. fold (line_token line).
  assert (E : is_str t (line_token line) = false).
  { unfold is_str. destruct (line_token line); try reflexivity. apply String.eqb_neq. congruence. }
  rewrite E. pose proof (r_write_unread c (error CODE_UNAUTHORIZED []) s) as H.
  unfold mstate, mresult, mbind in *. destruct (r_write A c _ s) as [[u|e] s1] eqn:Ew; cbn in *;
    (split; [auto|]); (split; [discriminate|]); [discriminate|].
  intros [= ->]. apply (f_equal fst) in Ew. revert Ew.
  unfold r_write, in_api, write, client_ready, in_d, in_flash, in_daemon, read, mbind, mmodify, mraise. cbn.
  destruct (ae_write A _); discriminate.
Qed.

(** A session that has taken nothing leaves nothing. *)
Lemma remote_end_idle c s : acquired c (r_a s) = [] -> uploaded c s = [] ->
  let s' := mstate (remote_end A c Requests) s in
  a_db (r_a s') = a_db (r_a s) /\ a_locks (r_a s') = a_locks (r_a s) /\ r_tmp s' = r_tmp s /\
  acquired c (r_a s') = [] /\ uploaded c s' = [] /\ c ∉ r_authenticated s' /\
  h_ref (cn_holder c) ∉ r_live_sessions s'.
Proof.
  intros Ha Hu s'. assert (E : s' = mstate (remote_end A c Requests) s) by reflexivity. clearbody s'.
  revert E. unfold mstate, remote_end, mfinally, leave_mode, in_api, mbind, mgets, mmodify, mret. cbn [fst snd r_a r_with_a].
  rewrite Ha. cbn. unfold uploaded in Hu |- *. cbn. rewrite Hu. cbn. intros ->. cbn.
  repeat split.
  - unfold acquired. cbn [a_acquired a_with_acquired]. rewrite dget_ddel_eq. reflexivity.
  - pose proof (dget_ddel_eq c (r_uploaded s)) as E. unfold ddel, tdel in E. rewrite E. reflexivity.
  - rewrite list_elem_of_In, filter_In. intros [_ Hx]. rewrite bool_decide_eq_true_2 in Hx by reflexivity. discriminate.
  - rewrite list_elem_of_In, filter_In, String.eqb_refl. intros [_ Hx]. discriminate.
Qed.

Lemma unauthenticated_line t c line s : auth_token = Some t -> line_token line <> JStr t ->
  c ∉ r_authenticated s -> acquired c (r_a s) = [] -> uploaded c s = [] ->
  let s' := serve_remote_line A can_stage auth_token c line s in
  a_db (r_a s') = a_db (r_a s) /\ a_locks (r_a s') = a_locks (r_a s) /\ r_tmp s' = r_tmp s /\
  acquired c (r_a s') = [] /\ uploaded c s' = [] /\ c ∉ r_authenticated s' /\
  h_ref (cn_holder c) ∉ r_live_sessions s'.
Proof.
  intros Ht Hl Hc Ha Hu s'. destruct (check_auth_refused t line c s Ht Hl) as (Hun & Hr & Hg).
  assert (E : exists e s1, remote_line A can_stage auth_token c line s = (Err e, s1) /\ hung e = false /\ unread s s1).
  { unfold remote_line. unfold mbind at 1, mgets. rewrite bool_decide_eq_false_2 by exact Hc.
    unfold mbind. unfold mstate, mresult in Hun, Hr, Hg. destruct (check_auth A auth_token line c s) as [[[|]|e] s1];
      cbn [fst snd] in *; [congruence| |]; unfold mraise; [eauto|]. exists e, s1. split; [reflexivity|]. split; [|exact Hun].
    destruct e; try reflexivity. congruence. }
  destruct E as (e & s1 & E & Hh & (U1 & U2 & U3 & U4 & U5 & U6)).
  assert (E' : s' = mstate (remote_end A c Requests) s1).
  { unfold s', serve_remote_line. rewrite E, Hh. reflexivity. }
  destruct (remote_end_idle c s1) as (I1 & I2 & I3 & I4 & I5 & I6 & I7).
  - unfold acquired in *. rewrite U3. exact Ha.
  - unfold uploaded in *. rewrite U5. exact Hu.
  - rewrite <- E' in *. rewrite I1, I2, I3, U1, U2, U4. auto 10.
Qed.

Fixpoint serve_lines (c : connection) (lines : list (option json)) (s : rstate) : rstate :=
  match lines with
  | [] => s
  | l :: ls => serve_lines c ls (serve_remote_line A can_stage auth_token c l s)
  end.

Lemma unauthenticated_lines t c lines s : auth_token = Some t ->
  Forall (fun l => line_token l <> JStr t) lines ->
  c ∉ r_authenticated s -> acquired c (r_a s) = [] -> uploaded c s = [] ->
  let s' := serve_lines c lines s in
  a_db (r_a s') = a_db (r_a s) /\ a_locks (r_a s') = a_locks (r_a s) /\
  r_tmp s' = r_tmp s /\ c ∉ r_authenticated s' /\
  (lines <> [] -> h_ref (cn_holder c) ∉ r_live_sessions s').
Proof.
  intros Ht HF. revert s. induction HF as [|l ls Hl HF IH]; intros s Hc Ha Hu; [cbn; auto 10|].
  cbn [serve_lines]. cbv zeta.
  destruct (unauthenticated_line t c l s Ht Hl Hc Ha Hu) as (A1 & A2 & A3 & A4 & A5 & A6 & A7).
  destruct (IH _ A6 A4 A5) as (B1 & B2 & B3 & B4 & B5). rewrite B1, B2, B3, A1, A2, A3.
  repeat (split; [auto|]). intros _. destruct ls as [|l' ls']; [exact A7|]. apply B5. discriminate.
Qed.

Lemma token_authenticates t c req s : c ∉ r_authenticated s -> jget "token" req = JStr t ->
  ae_write A (dm_tick (a_d (r_a s))) = true ->
  c ∈ r_authenticated (serve_remote_line A can_stage (Some t) c (Some (JObj req)) s).
Proof.
  intros Hc Ht Hw. unfold serve_remote_line, remote_line, check_auth. rewrite Ht. unfold is_str at 1.
  rewrite String.eqb_refl. unfold mbind at 1, mgets. rewrite bool_decide_eq_false_2 by exact Hc.
  unfold r_write, in_api, write, client_ready, in_d, in_flash, in_daemon, read, mbind, mmodify, mret, mraise.
  unfold a_d in Hw. cbn. rewrite Hw. cbn. left.
Qed.

(** ** Staging a hex file *)


(** A request [send_hex] accepts, and the bytes it carries. *)
Definition stageable (req : fields) (raw : string) : Prop :=
  exists data, jget "data" req = JStr data /\ data <> "" /\ Py.slen data <= MAX_HEX_B64_CHARS /\
    b64decode data = Some raw /\ Py.slen raw <= MAX_HEX_PAYLOAD_BYTES.

(** What unlinking a file leaves. *)
Definition after_unlink (trace : list fevent) (p : string) (tmp : list (string * string)) : list (string * string) :=
  if fe_unlink (ae_f A) trace p then ddel p tmp else tmp.




Lemma stageable_dec req : (exists raw, stageable req raw) \/ (forall raw, ~ stageable req raw).
Proof.
  destruct (jget "data" req) as [| | | |data| |] eqn:Hd; try (right; intros raw (x & Hx & _); congruence).
  destruct (String.eqb_spec data "") as [->|Hne]; [right; intros raw (x & Hx & Hy & _); congruence|].
  destruct (Z.leb_spec (Py.slen data) MAX_HEX_B64_CHARS) as [Hl|Hl];
    [|right; intros raw (x & Hx & _ & Hy & _); rewrite Hd in Hx; injection Hx as <-; lia].
  destruct (b64decode data) as [raw|] eqn:Hr;
    [|right; intros raw (x & Hx & _ & _ & Hy & _); rewrite Hd in Hx; injection Hx as <-; congruence].
  destruct (Z.leb_spec (Py.slen raw) MAX_HEX_PAYLOAD_BYTES) as [Hm|Hm].
  - left. exists raw, data. auto.
  - right. intros raw' (x & Hx & _ & _ & Hy & Hz). rewrite Hd in Hx. injection Hx as <-.
    rewrite Hr in Hy. injection Hy as <-. lia.
Qed.

(** ** The remote flash *)

Definition same_db (f f' : fstate) : Prop := dm_db (fl_d f') = dm_db (fl_d f).
#[local] Instance same_db_preorder : PreOrder same_db.
Proof. split; [intros s; reflexivity|]. intros s1 s2 s3. unfold same_db. congruence. Qed.

Lemma client_log_db m : stays same_db (client_log A m).
Proof.
  intros s. unfold same_db, mstate, client_log, client_ready, in_daemon, read, mbind, mmodify, mraise. cbn.
  destruct (ae_write A (dm_tick (fl_d s))); reflexivity.
Qed.

(** The run itself, and its outcome; [None]: it raised. *)
Definition staged_flash (r : DeviceRecord) (path : string) : M fstate Z :=
  flashlogic_flash_hex (ae_f A) (dr_uid r) path DEFAULT_MCU (Some (client_log A))
    (Some (or_else (dr_device_name r) (dr_uid r))) (dr_port r).
Definition staged_outcome (r : DeviceRecord) (path : string) (a : astate) : option Z :=
  match mresult (staged_flash r path) (a_f a) with Ok rc => Some rc | Err _ => None end.

Lemma staged_flash_db r path : stays same_db (staged_flash r path).
Proof.
  apply flashlogic_keeps; [typeclasses eauto| |exact client_log_db]. unfold same_db. intros f f' ->. reflexivity.
Qed.

Lemma staged_flash_locks r path : stays same_locks (staged_flash r path).
Proof. apply flashlogic_keeps; [typeclasses eauto|exact same_of_data|apply client_log_same]. Qed.

(** A run that has not returned: everything the session holds, it holds. *)
Definition still_flashing (s s' : rstate) : Prop :=
  a_locks (r_a s') = a_locks (r_a s) /\ a_db (r_a s') = a_db (r_a s) /\
  a_acquired (r_a s') = a_acquired (r_a s) /\ r_uploaded s' = r_uploaded s.

Lemma in_files {B} (m : M fstate B) s :
  in_api (in_flash m) s = ((m (a_f (r_a s))).1, r_with_a (a_with_f (m (a_f (r_a s))).2 (r_a s)) s).
Proof. unfold in_api, in_flash. destruct (m (a_f (r_a s))). reflexivity. Qed.

(** The run with its [try] and its [finally]. *)
Lemma staged_run_run r path c s : staged_run A r path c s =
  let o := staged_flash r path (a_f (r_a s)) in
  if match o.1 with Err e => hung e | Ok _ => false end
  then (Err Hangs, r_with_a (a_with_f o.2 (r_a s)) s)
  else (Ok (staged_outcome r path (r_a s)),
        uploaded_discard c path (r_with_a (a_with_f
          (with_tmp (after_unlink (fl_trace o.2) path (fl_tmp o.2)) o.2) (r_a s)) s)).
Proof.
  unfold staged_run, staged_outcome, mresult. fold (staged_flash r path).
  unfold mafter, mcatch, mtry. unfold mbind at 1. rewrite in_files. cbv zeta.
  destruct (staged_flash r path (a_f (r_a s))) as [x f]. cbn [fst snd].
  set (s1 := r_with_a (a_with_f f (r_a s)) s).
  assert (F : (unlink A path ;;! mmodify (uploaded_discard c path)) s1 =
    (Ok tt, uploaded_discard c path (r_with_a (a_with_f (with_tmp (after_unlink (fl_trace f) path (fl_tmp f)) f) (r_a s)) s))).
  { unfold unlink, mbind. rewrite in_files, unlink_quietly_run. reflexivity. }
  destruct x as [rc|e]; unfold mret; [rewrite F; reflexivity|].
  destruct e; cbn [hung]; try (rewrite F; reflexivity). reflexivity.
Qed.

Lemma staged_run_hangs r path c s : mresult (staged_flash r path) (a_f (r_a s)) = Err Hangs ->
  mresult (staged_run A r path c) s = Err Hangs /\ still_flashing s (mstate (staged_run A r path c) s).
Proof.
  intros H. pose proof (staged_flash_db r path (a_f (r_a s))) as Hd.
  pose proof (staged_flash_locks r path (a_f (r_a s))) as Hl.
  unfold mresult, mstate, same_db, same_locks in *. rewrite staged_run_run. cbv zeta. rewrite H. cbn [hung fst snd].
  split; [reflexivity|]. split; [exact Hl|]. split; [exact Hd|]. split; reflexivity.
Qed.

Lemma staged_run_spec r path c s : mresult (staged_flash r path) (a_f (r_a s)) <> Err Hangs ->
  let s1 := mstate (staged_run A r path c) s in
  mresult (staged_run A r path c) s = Ok (staged_outcome r path (r_a s)) /\
  a_db (r_a s1) = a_db (r_a s) /\
  (fe_unlink (ae_f A) (fl_trace (mstate (staged_flash r path) (a_f (r_a s)))) path = true ->
   dget path (r_tmp s1) = None) /\ path ∉ uploaded c s1.
Proof.
  intros Hh. pose proof (staged_flash_db r path (a_f (r_a s))) as H. cbv zeta. revert Hh H.
  unfold mresult, mstate, same_db. rewrite staged_run_run. cbv zeta.
  destruct (staged_flash r path (a_f (r_a s))) as [x f]. cbn [fst snd]. intros Hh H.
  assert (Ex : match x with Err e => hung e | Ok _ => false end = false).
  { destruct x as [|e]; [reflexivity|]. destruct e; try reflexivity. congruence. }
  rewrite Ex. cbn [fst snd]. split; [reflexivity|]. split; [exact H|]. split.
  - intros Hu. unfold r_tmp, after_unlink. cbn. rewrite Hu. apply dget_ddel_eq.
  - unfold uploaded, uploaded_discard. cbn. rewrite dget_dset_eq, list_elem_of_In, filter_In, String.eqb_refl.
    intros [_ Hx]. discriminate.
Qed.

Lemma a_release_db uid h a : a_db (mstate (a_release A uid h) a) = a_db a.
Proof.
  unfold mstate, a_release, in_d, in_flash, in_daemon, release, mbind at 1, mgets.
  destruct (status uid (fl_d (a_f a))) as [st|]; [|reflexivity].
  destruct (bool_decide (ls_holder st = h)); [|reflexivity].
  unfold release_entry, call_flash, call_display. cbn. unfold on_flash_release, mbind, mmodify, read, mret.
  destruct (String.eqb (ls_kind st) KIND_FLASH); [destruct (is_virtual_uid uid)|]; reflexivity.
Qed.

(** The board is let go of by the session. *)
Definition session_let_go (c : connection) (uid path : string) (s : rstate) : Prop :=
  (forall st, dget uid (a_locks (r_a s)) = Some st -> ls_holder st <> cn_holder c) /\
  uid ∉ acquired c (r_a s) /\ path ∉ uploaded c s.

Lemma session_release uid path c s : path ∉ uploaded c s ->
  let m := in_api (a_release A uid (cn_holder c) ;;! mmodify (acquired_discard c uid) ;;! mret tt) in
  mresult m s = Ok tt /\ session_let_go c uid path (mstate m s) /\ a_db (r_a (mstate m s)) = a_db (r_a s) /\
  r_tmp (mstate m s) = r_tmp s.
Proof.
  intros Hp m. destruct (a_release_ok A uid (cn_holder c) (r_a s)) as [b Hb].
  destruct (released_gone A uid c (r_a s)) as [HL HA].
  pose proof (a_release_db uid (cn_holder c) (r_a s)) as Hd.
  assert (Ht : fl_tmp (a_f (mstate (a_release A uid (cn_holder c)) (r_a s))) = r_tmp s).
  { unfold mstate, a_release, in_d, in_flash, in_daemon. destruct (release uid (cn_holder c) (fl_d (a_f (r_a s)))). reflexivity. }
  unfold m, mresult, mstate, in_api. rewrite (bind_result _ _ _ b Hb).
  unfold mbind, mmodify, mret. cbn [fst snd r_a r_with_a].
  split; [reflexivity|]. split; [exact (conj HL (conj HA Hp))|]. split; [exact Hd|exact Ht].
Qed.

(** The end of the request: counted on success only. *)
Definition count_success (outcome : option Z) (uid : string) (d : db) : db :=
  if bool_decide (outcome = Some 0) then mstate (increment_flash_count uid) d else d.

Lemma count_tail uid path c outcome (resp : fields) s : session_let_go c uid path s ->
  let m := ((if bool_decide (outcome = Some 0) then in_api (in_db (increment_flash_count uid)) ;;! mret tt
             else mret tt) ;;! mret resp) in
  session_let_go c uid path (mstate m s) /\ r_tmp (mstate m s) = r_tmp s /\
  a_db (r_a (mstate m s)) = count_success outcome uid (a_db (r_a s)) /\
  (get uid (a_db (r_a s)) <> None -> mresult m s = Ok resp).
Proof.
  intros Hg m. unfold count_success, m. destruct (bool_decide (outcome = Some 0)).
  - unfold mstate, mresult, mbind, in_api, in_db, in_d, in_flash, in_daemon, in_store, mret, increment_flash_count.
    change (fl_d (a_f (r_a s))) with (a_d (r_a s)). change (dm_db (a_d (r_a s))) with (a_db (r_a s)).
    rewrite update_existing_run by (intros x; reflexivity).
    destruct (get uid (a_db (r_a s))) as [x|]; cbn; (split; [exact Hg|]; split; [reflexivity|]; split; [reflexivity|]); congruence.
  - split; [exact Hg|]. auto.
Qed.

(** The staged file can be unlinked once the run is over. *)
Definition can_unlink (r : DeviceRecord) (path : string) (a : astate) : Prop :=
  fe_unlink (ae_f A) (fl_trace (mstate (staged_flash r path) (a_f a))) path = true.

Lemma remote_run_flash_hangs r path c s :
  mresult (staged_flash r path) (a_f (ae_other_threads A (r_a s))) = Err Hangs ->
  let o := remote_run_flash A r path c s in
  o.1 = Err Hangs /\ still_flashing (r_with_a (ae_other_threads A (r_a s)) s) o.2.
Proof.
  intros H. set (s0 := r_with_a (ae_other_threads A (r_a s)) s).
  destruct (staged_run_hangs r path c s0 H) as [H1 H2]. cbv zeta. unfold remote_run_flash.
  match goal with |- context [mbind _ ?k s] => change (mbind (in_api (Api.others A)) k s) with (k tt s0) end. cbv beta.
  unfold mresult, mstate in H1, H2. rewrite !(bind_run (staged_run A r path c)).
  destruct (staged_run A r path c s0) as [x s1]. cbn [fst snd] in H1, H2. subst x. split; [reflexivity|exact H2].
Qed.

Lemma remote_run_flash_spec r path c s :
  mresult (staged_flash r path) (a_f (ae_other_threads A (r_a s))) <> Err Hangs ->
  let o := remote_run_flash A r path c s in
  let outcome := staged_outcome r path (ae_other_threads A (r_a s)) in
  session_let_go c (dr_uid r) path o.2 /\
  (can_unlink r path (ae_other_threads A (r_a s)) ->
   (forall a, dget path (fl_tmp (a_f a)) = None -> dget path (fl_tmp (a_f (ae_other_threads A a))) = None) ->
   dget path (r_tmp o.2) = None) /\
  ((forall a, a_db (ae_other_threads A a) = a_db a) ->
   a_db (r_a o.2) = count_success outcome (dr_uid r) (a_db (r_a s)) /\
   (get (dr_uid r) (a_db (r_a s)) <> None -> o.1 = Ok (remote_flash_result outcome))).
Proof.
  intros Hh o outcome. assert (Eo : o = remote_run_flash A r path c s) by reflexivity. clearbody o. revert Eo.
  unfold remote_run_flash. set (s0 := r_with_a (ae_other_threads A (r_a s)) s).
  match goal with |- o = mbind _ ?k s -> _ => change (mbind (in_api (Api.others A)) k s) with (k tt s0) end. cbv beta.
  destruct (staged_run_spec r path c s0 Hh) as (R1 & R2 & R3 & R4). change (r_a s0) with (ae_other_threads A (r_a s)) in R1, R2, R3.
  fold outcome in R1. rewrite (bind_result _ _ _ outcome R1). set (s1 := mstate (staged_run A r path c) s0) in *.
  set (s2 := r_with_a (ae_other_threads A (r_a s1)) s1).
  match goal with |- o = mbind _ ?k s1 -> _ => change (mbind (in_api (Api.others A)) k s1) with (k tt s2) end. cbv beta.
  destruct (session_release (dr_uid r) path c s2 R4) as (L1 & L2 & L3 & L4).
  rewrite (bind_result _ _ _ tt L1). set (s3 := mstate _ s2) in *.
  destruct (count_tail (dr_uid r) path c outcome (remote_flash_result outcome) s3 L2) as (C1 & C2 & C3 & C4).
  intros ->. unfold mstate, mresult in C1, C2, C3, C4. split; [exact C1|]. split.
  - intros Hu Ho. rewrite C2, L4. unfold s2, r_tmp. cbn [r_a r_with_a]. apply Ho. exact (R3 Hu).
  - intros Ho. assert (E : a_db (r_a s3) = a_db (r_a s)).
    { rewrite L3. unfold s2. cbn [r_a r_with_a]. rewrite Ho, R2. apply Ho. }
    rewrite E in C3, C4. split; [exact C3|]. intros Hg. apply C4, Hg.
Qed.

Lemma remote_checks_found req c s r : remote_flash_checks A req c s = Ok (inl r) ->
  py_str A (jget "hex_path" req) ∈ uploaded c s /\
  find (py_str A (jget "uid" req)) (a_db (r_a s)) = Ok (Some r) /\
  dr_host r = None /\ is_virtual r = false /\ dr_state r <> STATE_DISCONNECTED /\
  exists st, dget (dr_uid r) (a_locks (r_a s)) = Some st /\ ls_kind st = KIND_FLASH /\ ls_holder st = cn_holder c.
Proof.
  unfold remote_flash_checks. destruct (_ || _); [discriminate|].
  destruct (bool_decide_reflect (py_str A (jget "hex_path" req) ∈ uploaded c s)) as [Hp|]; cbn [negb]; [|discriminate].
  unfold resolve_visible. destruct (find _ (a_db (r_a s))) as [[x|]|e]; cbn [result_bind];
    [|discriminate|destruct e; discriminate].
  cbn [sc_visible remote_scope]. destruct (bool_decide_reflect (dr_host x = None)) as [Hh|]; cbn [andb]; [|discriminate].
  destruct (is_virtual x) eqn:Hv; cbn [negb]; [discriminate|]. unfold result_bind.
  destruct (holds [KIND_FLASH] (same_holder c) (dr_uid x) (r_a s)) eqn:Hl; cbn [negb]; [|discriminate].
  unfold detached_error. rewrite bool_decide_eq_true_2 by exact Hh.
  destruct (bool_decide_reflect (dr_state x = STATE_DISCONNECTED)) as [|Hs]; cbn [andb]; [discriminate|].
  intros [= <-]. repeat split; auto. unfold holds in Hl.
  destruct (dget (dr_uid x) (a_locks (r_a s))) as [st|]; [|discriminate]. exists st. split; [reflexivity|].
  apply andb_prop in Hl as [H1 H2]. unfold same_holder in H2. apply bool_decide_eq_true in H1, H2. split; [|exact H2].
  apply list_elem_of_singleton in H1. exact H1.
Qed.

Lemma remote_checks_refused req c s err : remote_flash_checks A req c s = Ok (inr err) ->
  jget "ok" err = JBool false /\ jget "success" err = JBool false.
Proof.
  unfold remote_flash_checks. destruct (_ || _); [intros [= <-]; auto|].
  destruct (negb _); [intros [= <-]; auto|].
  destruct (resolve_visible _ _ _) as [[x|e]|e] eqn:Hr; cbn [result_bind]; [| |discriminate].
  - destruct (negb _); [intros [= <-]; auto|]. unfold detached_error. destruct (_ && _); [intros [= <-]; auto|discriminate].
  - intros [= <-]. unfold resolve_visible in Hr.
    destruct (find _ _) as [[x|]|[]]; try discriminate; [destruct (sc_visible _ _); [discriminate|]| |];
      injection Hr as <-; auto.
Qed.
End Remote.

(** ** An example session *)

Definition session_a : connection := mkConnection 11 (session_holder "s1" "lab").
Definition session_b : connection := mkConnection 12 (session_holder "s2" "lab").
Definition writable (tmp : list (string * string)) (path : string) : bool := true.
Definition token : option string := Some "secret".

(** The server with both sessions accepted and the first authenticated. *)
Definition open_server : rstate :=
  let s := mkRstate accepted [] [] [] in
  let s := mstate (remote_accept token session_a) s in
  let s := mstate (remote_accept token session_b) s in
  serve_remote_line example_api writable token session_a (Some (JObj [("token", JStr "secret")])) s.

Definition hex_text : string := ":00000001FF".

(** The first session has staged a file and locked the board. *)
Definition staged_server : rstate :=
  let s := serve_remote_line example_api writable token session_a
    (Some (JObj [("op", JStr "send_hex"); ("data", JStr (b64encode hex_text))])) open_server in
  serve_remote_line example_api writable token session_a (request "lock") s.

(** ** Properties *)

(** C1: no lock outlives its connection, on either server. Whatever lines
    any connections and sessions send in whatever order, with exceptions out
    of the handlers, lost clients, both sweeps, ended streams and
    registrations, and other threads that do the same between two holds of
    the shared lock, every lock of a holder stays in the set of an open
    connection of that holder; so once his last connection has ended, he
    holds no lock. *)
Theorem locks_follow_connections A can_stage auth h s s' :
  runner_same (ae_op A) -> (forall s, keeps_covered s (ae_other_threads A s)) ->
  stays keeps_covered (ae_poll A) -> stays keeps_covered (ae_peer_resync A) ->
  covered h (r_a s) -> rtc (servers_step A can_stage auth) s s' ->
  covered h (r_a s') /\
  ((forall c l, dget c (a_acquired (r_a s')) = Some l -> cn_holder c <> h) ->
   forall uid st, dget uid (a_locks (r_a s')) = Some st -> ls_holder st <> h).
Proof.
  intros Hr Ho Hp Hy Hc Hs.
  pose proof (servers_run_covers A can_stage auth Hr Ho Hp Hy s s' Hs h Hc) as H.
  split; [exact H|]. intros Hn uid st Hu Hh. destruct (H uid st Hu Hh) as (c & l & Hl & Hx & _).
  exact (Hn c l Hl Hx).
Qed.

Lemma locks_follow_connections_witness :
  let s := serve_remote_line example_api writable token session_a (request "lock") open_server in
  let s' := mstate (remote_end example_api session_a Requests) s in
  (ls_holder <$> dget "9906" (a_locks (r_a s)) = Some (session_holder "s1" "lab")) /\
  rtc (servers_step example_api writable token) open_server s' /\
  forall uid st, dget uid (a_locks (r_a s')) = Some st -> ls_holder st <> session_holder "s1" "lab".
Proof.
  intros s s'.
  assert (Hs : rtc (servers_step example_api writable token) open_server s').
  { apply rtc_l with s; [|apply rtc_once].
    - apply (session_line example_api writable token session_a (request "lock") open_server).
    - apply (session_end example_api writable token session_a Requests s). }
  split; [vm_compute; reflexivity|]. split; [exact Hs|].
  apply (locks_follow_connections example_api writable token (session_holder "s1" "lab") open_server s' example_runner
    (fun s h H => H) (fun s h H => H) (fun s h H => H)).
  - assert (E : a_locks (r_a open_server) = []) by (vm_compute; reflexivity).
    intros uid st H. rewrite E in H. discriminate H.
  - exact Hs.
  - assert (E : map (fun x => cn_holder x.1) (a_acquired (r_a s')) =
      [local_holder 41; local_holder 42; session_holder "s2" "lab"]) by (vm_compute; reflexivity).
    clearbody s'. intros c l H Hh. apply dget_in in H. apply (in_map (fun x => cn_holder x.1)) in H.
    rewrite E in H. cbn in H. rewrite Hh in H. destruct H as [H|[H|[H|[]]]]; discriminate H.
Defined.



(** C8: with a token configured, a session that does not send it gets
    nothing done: whatever lines it sends, in any number, the store, the
    locks and the files stay as they were and it stays unauthenticated,
    its first bad line already ending it. The line with the token is what
    authenticates it. *)
Theorem token_required A can_stage t c lines s :
  Forall (fun l => line_token l <> JStr t) lines ->
  c ∉ r_authenticated s -> acquired c (r_a s) = [] -> uploaded c s = [] ->
  let s' := serve_lines A can_stage (Some t) c lines s in
  a_db (r_a s') = a_db (r_a s) /\ a_locks (r_a s') = a_locks (r_a s) /\ r_tmp s' = r_tmp s /\
  c ∉ r_authenticated s' /\ (lines <> [] -> h_ref (cn_holder c) ∉ r_live_sessions s') /\
  (forall req, jget "token" req = JStr t -> ae_write A (dm_tick (a_d (r_a s))) = true ->
   c ∈ r_authenticated (serve_remote_line A can_stage (Some t) c (Some (JObj req)) s)).
Proof.
  intros HF Hc Ha Hu s'. unfold s'.
  destruct (unauthenticated_lines A can_stage (Some t) t c lines s eq_refl HF Hc Ha Hu) as (H1 & H2 & H3 & H4 & H5).
  repeat (split; [assumption|]). intros req Ht Hw. exact (token_authenticates A can_stage t c req s Hc Ht Hw).
Qed.

Lemma token_required_witness :
  let lines := [request "lock"; Some (JObj [("op", JStr "lock"); ("token", JStr "guess")]); None] in
  a_locks (r_a (serve_lines example_api writable token session_b lines open_server)) = a_locks (r_a open_server) /\
  session_b ∈ r_authenticated (serve_remote_line example_api writable token session_b
    (Some (JObj [("token", JStr "secret")])) open_server).
Proof.
  intros lines.
  destruct (token_required example_api writable "secret" session_b lines open_server) as (_ & H & _ & _ & _ & H6).
  - repeat constructor; discriminate.
  - assert (E : r_authenticated open_server = [session_a]) by (vm_compute; reflexivity). rewrite E.
    rewrite list_elem_of_singleton. discriminate.
  - vm_compute. reflexivity.
  - vm_compute. reflexivity.
  - split; [exact H|]. apply H6; vm_compute; reflexivity.
Defined.



(** C2: a remote [flash] runs only a file this session staged, on an attached
    board of this host that no simulator registered, under the session's own
    flash lock; otherwise nothing changes and it answers an error. Once it
    ran, however it ended, the lock is gone, the uid left the session's set,
    and the file is no longer the session's, and unlinked unless that fails;
    the flash is counted exactly when the run exits 0, and the answer is
    that outcome. While its pyOCD does not end there is no answer and the
    session keeps lock, set and file, with nothing counted. *)
Theorem remote_flash_guarded A req c s :
  let o := remote_op_flash A req c s in
  let path := py_str A (jget "hex_path" req) in
  match remote_flash_checks A req c s with
  | Err e => o = (Err e, s)
  | Ok (inr err) => o = (Ok err, s) /\ jget "ok" err = JBool false /\ jget "success" err = JBool false
  | Ok (inl r) =>
      let a0 := ae_other_threads A (r_a s) in
      let outcome := staged_outcome A r path a0 in
      path ∈ uploaded c s /\ find (py_str A (jget "uid" req)) (a_db (r_a s)) = Ok (Some r) /\
      dr_host r = None /\ is_virtual r = false /\ dr_state r <> STATE_DISCONNECTED /\
      (exists st, dget (dr_uid r) (a_locks (r_a s)) = Some st /\ ls_kind st = KIND_FLASH /\
                  ls_holder st = cn_holder c) /\
      (mresult (staged_flash A r path) (a_f a0) = Err Hangs ->
       o.1 = Err Hangs /\ still_flashing (r_with_a a0 s) o.2) /\
      (mresult (staged_flash A r path) (a_f a0) <> Err Hangs ->
       session_let_go c (dr_uid r) path o.2 /\
       (can_unlink A r path a0 ->
        (forall a, dget path (fl_tmp (a_f a)) = None -> dget path (fl_tmp (a_f (ae_other_threads A a))) = None) ->
        dget path (r_tmp o.2) = None) /\
       ((forall a, a_db (ae_other_threads A a) = a_db a) ->
        o.1 = Ok (remote_flash_result outcome) /\
        a_db (r_a o.2) = count_success outcome (dr_uid r) (a_db (r_a s))))
  end.
Proof.
  intros o path.
  assert (Eo : o = match remote_flash_checks A req c s with
                   | Err e => (Err e, s)
                   | Ok (inr err) => (Ok err, s)
                   | Ok (inl r) => remote_run_flash A r path c s
                   end).
  { unfold o, remote_op_flash, mbind, mgets, mlift. destruct (remote_flash_checks A req c s) as [[r|err]|e]; reflexivity. }
  clearbody o. destruct (remote_flash_checks A req c s) as [[r|err]|e] eqn:Hc; [|split; [exact Eo|]|exact Eo].
  - destruct (remote_checks_found A req c s r Hc) as (F1 & F2 & F3 & F4 & F5 & F6). subst o. cbv zeta.
    do 6 (split; [assumption|]). split; [intros Hh; exact (remote_run_flash_hangs A r path c s Hh)|]. intros Hh.
    destruct (remote_run_flash_spec A r path c s Hh) as (R1 & R2 & R3).
    split; [exact R1|]. split; [exact R2|]. intros Ho. destruct (R3 Ho) as [Rd Rr].
    destruct (find_get _ _ _ F2) as [r' Hg]. split; [apply Rr; congruence|exact Rd].
  - exact (remote_checks_refused A req c s err Hc).
Qed.

Lemma remote_flash_guarded_witness :
  let path := fe_mkstemp (ae_f example_api) [] in
  exists p, path = Ok p /\
  let req := [("op", JStr "flash"); ("uid", JStr "9906"); ("hex_path", JStr p)] in
  let o := remote_op_flash example_api req session_a staged_server in
  session_let_go session_a "9906" p o.2 /\ dget p (r_tmp o.2) = None /\
  is_ok o.1 = true /\ dget p (r_tmp staged_server) = Some hex_text.
Proof.
  intros path. assert (Hp : exists p, path = Ok p) by (eexists; vm_compute; reflexivity).
  vm_compute in Hp. destruct Hp as [p Hp]. injection Hp as <-. eexists. split; [vm_compute; reflexivity|]. intros req o.
  pose proof (remote_flash_guarded example_api req session_a staged_server) as H. cbv zeta in H.
  assert (E : exists r, remote_flash_checks example_api req session_a staged_server = Ok (inl r) /\ dr_uid r = "9906" /\
      mresult (staged_flash example_api r "/tmp/x.hex") (a_f (r_a staged_server)) <> Err Hangs /\
      can_unlink example_api r "/tmp/x.hex" (r_a staged_server))
    by (eexists; split; [vm_compute; reflexivity|]; split; [reflexivity|]; split; [vm_compute; discriminate|reflexivity]).
  destruct E as (r & E & Hu & Hh & Hk). rewrite E in H. destruct H as (_ & _ & _ & _ & _ & _ & _ & H).
  destruct (H Hh) as (H1 & H2 & H3). rewrite Hu in H1.
  split; [exact H1|]. split; [exact (H2 Hk (fun a H => H))|].
  destruct (H3 (fun a => eq_refl)) as [H4 _]. split; [|vm_compute; reflexivity].
  unfold o. rewrite H4. reflexivity.
Defined.
