(* ===== verification/Stream.v ===== *)
(** * [registry/_api_base.py]: the data phase of a stream

    What an accepted [stream] runs for the rest of its connection's life:
    frames read off the socket in whatever pieces it delivers them and
    applied to the serial port, the port's bytes sent back as frames by the
    reader thread, the attachment check, and the end, which closes the port
    and lets go of the board.  The socket is a script of the pieces [recv]
    gives, then an end of file or an error; the port answers each action
    from the ones before. *)

From S2P Require Import Prelude Tables Json Identity Virtual StreamFrame Store Locks Claims.
From S2P Require Import Daemon Flash EventBus Peering Api ApiFacts.
Local Open Scope py_scope.

(** ** The socket *)

Record conn_in := mkConnIn {
  in_chunks : list (list Z);      (* what successive [recv]s have to give *)
  in_eof : bool }.                (* then: end of file, or [OSError] *)

Definition pending (s : conn_in) : list Z := concat (in_chunks s).

Definition recv (n : Z) : M conn_in (list Z) := fun s =>
  match in_chunks s with
  | [] => (if in_eof s then Ok [] else Err OSError, s)
  | c :: cs =>
      if zlen c <=? n then (Ok c, mkConnIn cs (in_eof s))
      else (Ok (firstn (Z.to_nat n) c), mkConnIn (skipn (Z.to_nat n) c :: cs) (in_eof s))
  end.

(** [_read_exact]: [recv] until [n] bytes or an empty piece; a piece holds a
    byte at least, so [n] rounds are enough. *)
Fixpoint read_exact_loop (fuel : nat) (remaining : Z) (chunks : list Z) : M conn_in (list Z) :=
  if remaining <=? 0 then mret chunks
  else match fuel with
       | O => mraise RuntimeError
       | S fuel' =>
           chunk <-! recv remaining ;;
           match chunk with
           | [] => mret chunks
           | _ => read_exact_loop fuel' (remaining - zlen chunk) (chunks ++ chunk)
           end
       end.

Definition read_exact (n : Z) : M conn_in (list Z) := read_exact_loop (Z.to_nat n) n [].

(** ** The session *)

Inductive port_action :=
| PWrite (payload : list Z)
| PBreak
| PSetDtr (v : bool)
| PSetRts (v : bool)
| PClose.

Record session := mkSession { ss_in : conn_in; ss_port : list port_action }.

Definition in_conn {A} (m : M conn_in A) : M session A :=
  fun s => let (r, i) := m (ss_in s) in (r, mkSession i (ss_port s)).

Section Session.
(** What an action on the port does, given the ones done. *)
Variable port_do : list port_action -> port_action -> result unit.

Definition act (a : port_action) : M session unit := fun s =>
  match port_do (ss_port s) a with
  | Ok _ => (Ok tt, mkSession (ss_in s) (ss_port s ++ [a]))
  | Err e => (Err e, s)
  end.

(** One frame on the port; is the session to go on? *)
Definition apply_frame (frame : Z * list Z) : M session bool :=
  let '(frame_type, payload) := frame in
  if frame_type =? FRAME_DATA then mtry (act (PWrite payload) ;;! mret true) (fun _ => Some (mret false))
  else if frame_type =? FRAME_BREAK then mtry (act PBreak ;;! mret true) (fun _ => Some (mret false))
  else if frame_type =? FRAME_SET_DTR then
    match payload with [] => mret true | b :: _ => act (PSetDtr (negb (b =? 0))) ;;! mret true end
  else if frame_type =? FRAME_SET_RTS then
    match payload with [] => mret true | b :: _ => act (PSetRts (negb (b =? 0))) ;;! mret true end
  else if frame_type =? FRAME_CLOSE then mret false
  else mret false.

(** The loop over the client's frames; a frame takes bytes off the socket,
    so as many rounds as bytes, and one more, are enough. *)
Fixpoint stream_loop (fuel : nat) : M session unit :=
  match fuel with
  | O => mraise RuntimeError
  | S fuel' =>
      frame <-! mtry (in_conn (read_frame read_exact))
                  (fun e => match e with FrameError => Some (mret None) | _ => None end) ;;
      match frame with
      | None => mret tt
      | Some frame =>
          go_on <-! apply_frame frame ;;
          if go_on : bool then stream_loop fuel' else mret tt
      end
  end.

Definition run_stream : M session unit :=
  pending_now <-! mgets (fun s => length (pending (ss_in s))) ;;
  mtry (stream_loop (S pending_now)) (fun e => match e with OSError => Some (mret tt) | _ => None end).

(** [_handle_stream] on a hardware board: the port opened without a reboot
    or not; then, whatever happens, it is closed and the board let go of. *)
Definition on_api {A} (m : M astate A) : M (astate * session) A :=
  fun s => let (r, a) := m s.1 in (r, (a, s.2)).
Definition on_session {A} (m : M session A) : M (astate * session) A :=
  fun s => let (r, x) := m s.2 in (r, (s.1, x)).

Definition close_port : M session unit :=
  mmodify (fun s => mkSession (ss_in s) (ss_port s ++ [PClose])).

Definition handle_stream (A : api_env) (opened : bool) (c : connection) (r : DeviceRecord)
    : M (astate * session) unit :=
  let let_go := on_api (leave_mode A c (Streaming r)) in
  if opened then mfinally (on_session run_stream) (on_session close_port ;;! let_go)
  else let_go.
End Session.

(** [_stream_still_valid]. *)
Definition stream_still_valid (uid port : string) (d : db) : bool :=
  match get uid d with
  | Some r => negb (bool_decide (dr_state r = STATE_DISCONNECTED)) && bool_decide (dr_port r = Some port)
  | None => false
  end.

(** *** The reader thread *)

Inductive pump_event :=
| UCheck (valid : bool)                      (* the attachment check came due *)
| URead (data : list Z) (sent : bool)        (* the port's bytes; can they be sent *)
| UFail.                                     (* reading the port failed *)

(** The bytes sent, and whether the thread shut the connection down; the end
    of the list is the main loop's [stop]. *)
Fixpoint pump_port (evs : list pump_event) : list Z * bool :=
  match evs with
  | [] | UFail :: _ => ([], false)
  | UCheck false :: _ => ([], true)
  | UCheck true :: evs' => pump_port evs'
  | URead [] _ :: evs' => pump_port evs'
  | URead data sent :: evs' =>
      match encode_frame FRAME_DATA data with
      | Ok bs => if sent then let (out, shut) := pump_port evs' in (bs ++ out, shut) else ([], false)
      | Err _ => ([], false)
      end
  end.

(** ** The reference: what a client asked for *)

(** The frames at the front of a buffer, up to its end or a bad one. *)
Fixpoint frames_of (fuel : nat) (buf : list Z) : list (Z * list Z) :=
  match fuel with
  | O => []
  | S fuel' =>
      match read_frame buf_read buf with
      | (Ok (Some f), rest) => f :: frames_of fuel' rest
      | _ => []
      end
  end.

Definition action_of (frame : Z * list Z) : list port_action :=
  let '(t, payload) := frame in
  if t =? FRAME_DATA then [PWrite payload]
  else if t =? FRAME_BREAK then [PBreak]
  else if t =? FRAME_SET_DTR then match payload with [] => [] | b :: _ => [PSetDtr (negb (b =? 0))] end
  else match payload with [] => [] | b :: _ => [PSetRts (negb (b =? 0))] end.

Definition goes_on (frame : Z * list Z) : bool :=
  bool_decide (frame.1 ∈ [FRAME_DATA; FRAME_BREAK; FRAME_SET_DTR; FRAME_SET_RTS]).

(** The actions of a list of frames, up to a [CLOSE] or an unknown one. *)
Fixpoint actions_of (frames : list (Z * list Z)) : list port_action :=
  match frames with
  | [] => []
  | f :: fs => if goes_on f then action_of f ++ actions_of fs else []
  end.

Definition requested (buf : list Z) : list port_action := actions_of (frames_of (S (length buf)) buf).

(** ** Reading whatever the pieces *)

Definition pieces_ok (s : conn_in) : Prop := Forall (fun c => c <> []) (in_chunks s).

Lemma recv_piece n s c cs : pieces_ok s -> 0 < n -> in_chunks s = c :: cs -> exists got s',
  recv n s = (Ok got, s') /\ got <> [] /\ got = firstn (length got) (pending s) /\ zlen got <= n /\
  pending s' = skipn (length got) (pending s) /\ pieces_ok s' /\ in_eof s' = in_eof s.
Proof.
  intros Hp Hn E. unfold pieces_ok, pending, recv in *. rewrite E in *. inversion Hp as [|? ? Hc Hcs]; subst.
  destruct (Z.leb_spec (zlen c) n) as [Hle|Hgt].
  - exists c, (mkConnIn cs (in_eof s)). cbn [concat in_chunks in_eof]. rewrite take_app_length, drop_app_length. auto 10.
  - assert (Hl : length (firstn (Z.to_nat n) c) = Z.to_nat n) by (unfold zlen in Hgt; rewrite length_firstn; lia).
    exists (firstn (Z.to_nat n) c), (mkConnIn (skipn (Z.to_nat n) c :: cs) (in_eof s)).
    cbn [concat in_chunks in_eof]. rewrite Hl. unfold zlen in Hgt |- *. repeat split.
    + intros E0. rewrite E0 in Hl. cbn in Hl. lia.
    + symmetry. apply take_app_le. lia.
    + lia.
    + rewrite drop_app_le by lia. reflexivity.
    + constructor; [|exact Hcs]. intros E0. apply (f_equal length) in E0. rewrite length_skipn in E0. cbn in E0. lia.
Qed.

(** What [_read_exact] leaves: as the buffer reader does, except that an
    error instead of an end of file is raised. *)
Definition reads (n : Z) (s : conn_in) (acc : list Z) (o : result (list Z) * conn_in) : Prop :=
  let buf := pending s in
  pieces_ok o.2 /\ in_eof o.2 = in_eof s /\
  ((n <= zlen buf \/ in_eof s = true) /\
     o.1 = Ok (acc ++ firstn (Z.to_nat n) buf) /\ pending o.2 = skipn (Z.to_nat n) buf \/
   zlen buf < n /\ in_eof s = false /\ o.1 = Err OSError).

Lemma read_exact_reads fuel : forall n acc s, pieces_ok s -> n <= Z.of_nat fuel ->
  reads n s acc (read_exact_loop fuel n acc s).
Proof.
  induction fuel as [|fuel IH]; intros n acc s Hp Hf.
  - cbn [read_exact_loop]. rewrite (proj2 (Z.leb_le n 0)) by lia. unfold reads. cbn.
    split; [exact Hp|]. split; [reflexivity|]. left. replace (Z.to_nat n) with 0%nat by lia. cbn. unfold zlen.
    rewrite app_nil_r. split; [left; lia|auto].
  - cbn [read_exact_loop]. destruct (Z.leb_spec n 0) as [Hn|Hn].
    + unfold reads. cbn. split; [exact Hp|]. split; [reflexivity|]. left.
      replace (Z.to_nat n) with 0%nat by lia. cbn. unfold zlen. rewrite app_nil_r. split; [left; lia|auto].
    + unfold mbind. destruct (in_chunks s) as [|c cs] eqn:E.
      * unfold recv. rewrite E. unfold reads, pending. rewrite E. cbn [concat].
        destruct (in_eof s) eqn:He; cbn; rewrite ?E; (split; [exact Hp|]); (split; [assumption || reflexivity|]).
        -- left. rewrite firstn_nil, skipn_nil, app_nil_r. auto.
        -- right. unfold zlen. cbn. auto.
      * destruct (recv_piece n s c cs Hp Hn E) as (got & s1 & -> & Hg & Hgf & Hgl & Hs1 & Hp1 & He1).
        destruct got as [|g got']; [congruence|]. set (got := g :: got') in *.
        assert (Hlen : (0 < length got)%nat) by (subst got; cbn; lia).
        assert (Hle : (length got <= length (pending s))%nat).
        { rewrite Hgf at 1. rewrite length_firstn. lia. }
        specialize (IH (n - zlen got) (acc ++ got) s1 Hp1). unfold zlen in IH, Hgl |- *.
        destruct IH as (H1 & H2 & H3); [lia|]. unfold reads. split; [exact H1|]. split; [congruence|].
        unfold zlen in H3. rewrite Hs1, He1, length_skipn in H3.
        assert (En : Z.to_nat n = (length got + Z.to_nat (n - Z.of_nat (length got)))%nat) by lia.
        destruct H3 as [(Ha & Hb & Hc)|(Ha & Hb & Hc)]; [left|right].
        -- split; [unfold zlen; destruct Ha; [left; lia|right; assumption]|]. rewrite En. split.
           ++ rewrite Hb, <- app_assoc. do 2 f_equal. rewrite Hgf at 1.
              rewrite <- (firstn_skipn (length got) (pending s)) at 3.
              rewrite firstn_app, length_firstn, Nat.min_l by lia.
              rewrite firstn_all2 with (n := (length got + _)%nat) by (rewrite length_firstn; lia).
              f_equal. f_equal. lia.
           ++ rewrite Hc, skipn_skipn. f_equal. lia.
        -- unfold zlen. split; [lia|auto].
Qed.

Lemma read_exact_spec n s : pieces_ok s -> reads n s [] (read_exact n s).
Proof.
  intros Hp. destruct (Z.le_gt_cases 0 n) as [H|H]; [apply read_exact_reads; [exact Hp|lia]|].
  unfold read_exact. replace (Z.to_nat n) with 0%nat by lia. apply read_exact_reads; [exact Hp|lia].
Qed.

(** One frame, off the pieces and off the whole buffer. *)
Definition same_frame (s : conn_in) (o : result (option (Z * list Z)) * conn_in) : Prop :=
  pieces_ok o.2 /\ in_eof o.2 = in_eof s /\
  match read_frame buf_read (pending s) with
  | (Ok (Some f), rest) => o.1 = Ok (Some f) /\ pending o.2 = rest /\ (length rest < length (pending s))%nat
  | (Ok None, _) => o.1 = Ok None \/ o.1 = Err OSError
  | (Err _, _) => o.1 = Err FrameError \/ o.1 = Err OSError
  end.

Lemma read_frame_short buf : zlen buf < HEADER_SIZE ->
  (exists rest, read_frame buf_read buf = (Ok None, rest)) \/ (exists rest, read_frame buf_read buf = (Err FrameError, rest)).
Proof.
  intros H. unfold read_frame, mbind, buf_read at 1 3. change (Z.to_nat HEADER_SIZE) with 5%nat.
  rewrite firstn_all2 by (unfold zlen, HEADER_SIZE in H; lia).
  destruct (zlen buf =? 0); [left; eexists; reflexivity|].
  rewrite (proj2 (Z.ltb_lt _ _) H). right. eexists. reflexivity.
Qed.

Lemma read_frame_pieces s : pieces_ok s -> same_frame s (read_frame read_exact s).
Proof.
  intros Hp. pose proof (read_exact_spec HEADER_SIZE s Hp) as H. unfold reads in H.
  destruct H as (H1 & H2 & [(Ha & Hb & Hc)|(Ha & Hb & Hc)]).
  2: { assert (E : read_frame read_exact s = (Err OSError, (read_exact HEADER_SIZE s).2)).
       { unfold read_frame, mbind. destruct (read_exact HEADER_SIZE s) as [r s1]. cbn in Hc. subst r. reflexivity. }
       rewrite E. split; [exact H1|]. split; [exact H2|]. cbn [fst].
       destruct (read_frame_short _ Ha) as [[rest ->]|[rest ->]]; auto. }
  unfold same_frame, read_frame, mbind, buf_read at 1. change (Z.to_nat HEADER_SIZE) with 5%nat in *.
  destruct (read_exact HEADER_SIZE s) as [r s1]. cbn [fst snd app] in *. subst r.
  set (buf := pending s) in *. set (h := firstn 5 buf) in *.
  destruct (zlen h =? 0); [cbn; auto|]. destruct (Z.ltb_spec (zlen h) HEADER_SIZE) as [|Hh]; [cbn; auto|].
  assert (Hl : (5 <= length buf)%nat).
  { unfold h, zlen, HEADER_SIZE in Hh. rewrite length_firstn in Hh. lia. }
  set (len := from_bytes _). destruct (MAX_FRAME_PAYLOAD <? len); [cbn; auto|].
  destruct (len =? 0).
  - cbn. rewrite Hc. split; [exact H1|]. split; [exact H2|]. repeat split. rewrite length_skipn. lia.
  - pose proof (read_exact_spec len s1 H1) as H. unfold reads in H. rewrite Hc in H.
    destruct H as (P1 & P2 & P). unfold buf_read. destruct (read_exact len s1) as [r2 s2]. cbn [fst snd app] in *.
    destruct P as [(Pa & -> & Pc)|(Pa & Pb & ->)].
    + destruct (_ <? len); cbn; (split; [exact P1|]); (split; [congruence|]); [auto|].
      repeat split; [exact Pc|]. rewrite !length_skipn. lia.
    + assert (E : zlen (firstn (Z.to_nat len) (skipn 5 buf)) <? len = true).
      { apply Z.ltb_lt. unfold zlen in *. rewrite length_firstn. lia. }
      rewrite E. cbn. split; [exact P1|]. split; [congruence|]. auto.
Qed.

(** ** The loop against the reference *)

Section Loop.
Variable port_do : list port_action -> port_action -> result unit.

Definition accepts : Prop := forall past a, port_do past a = Ok tt.

(** A frame's effect on the port: its action, or, refused, nothing and the
    session is over; any exception is one the port raised. *)
Lemma apply_frame_spec f s :
  let o := apply_frame port_do f s in
  ss_in o.2 = ss_in s /\
  (goes_on f = false -> o = (Ok false, s)) /\
  (goes_on f = true ->
     o = (Ok true, mkSession (ss_in s) (ss_port s ++ action_of f)) \/
     (~ accepts /\ ss_port o.2 = ss_port s /\
      (o.1 = Ok false \/ exists a e, o.1 = Err e /\ port_do (ss_port s) a = Err e))).
Proof.
  assert (Hact : forall a, act port_do a s = (Ok tt, mkSession (ss_in s) (ss_port s ++ [a])) \/
    (~ accepts /\ exists e, act port_do a s = (Err e, s) /\ port_do (ss_port s) a = Err e)).
  { intros a. unfold act. destruct (port_do (ss_port s) a) as [[]|e] eqn:E; [left; reflexivity|right].
    split; [|eauto]. intros H. rewrite H in E. discriminate. }
  destruct f as [t p]. unfold apply_frame, goes_on, action_of. cbn [fst].
  assert (Hs : s = mkSession (ss_in s) (ss_port s)) by (destruct s; reflexivity).
  destruct (Z.eqb_spec t FRAME_DATA) as [->|N1];
    [|destruct (Z.eqb_spec t FRAME_BREAK) as [->|N2];
      [|destruct (Z.eqb_spec t FRAME_SET_DTR) as [->|N3];
        [|destruct (Z.eqb_spec t FRAME_SET_RTS) as [->|N4]]]]; cbv zeta.
  - destruct (Hact (PWrite p)) as [Ha|(Hn & e & Ha & He)]; unfold mtry, mbind; rewrite Ha; cbn;
      (split; [reflexivity|]); (split; [discriminate|]); auto.
  - destruct (Hact PBreak) as [Ha|(Hn & e & Ha & He)]; unfold mtry, mbind; rewrite Ha; cbn;
      (split; [reflexivity|]); (split; [discriminate|]); auto.
  - destruct p as [|b p]; [cbn; rewrite app_nil_r, <- Hs; (split; [reflexivity|]); (split; [discriminate|]); auto|].
    destruct (Hact (PSetDtr (negb (b =? 0)))) as [Ha|(Hn & e & Ha & He)]; unfold mbind; rewrite Ha; cbn;
      (split; [reflexivity|]); (split; [discriminate|]); eauto 10.
  - destruct p as [|b p]; [cbn; rewrite app_nil_r, <- Hs; (split; [reflexivity|]); (split; [discriminate|]); auto|].
    destruct (Hact (PSetRts (negb (b =? 0)))) as [Ha|(Hn & e & Ha & He)]; unfold mbind; rewrite Ha; cbn;
      (split; [reflexivity|]); (split; [discriminate|]); eauto 10.
  - replace (if t =? FRAME_CLOSE then mret (S:=session) false else mret false) with (mret (S:=session) false)
      by (destruct (t =? FRAME_CLOSE); reflexivity).
    cbn. split; [reflexivity|]. split; [reflexivity|]. rewrite bool_decide_eq_true.
    intros H. exfalso. rewrite !elem_of_cons in H. destruct H as [|[|[|[|H]]]]; try congruence. inversion H.
Qed.

(** How a loop ends: on the whole request unless the port refuses. *)
Definition loop_end (s : session) (asked : list port_action) (o : result unit * session) : Prop :=
  exists taken, ss_port o.2 = ss_port s ++ taken /\ taken `prefix_of` asked /\ (accepts -> taken = asked) /\
  (o.1 = Ok tt \/ o.1 = Err OSError \/ exists past a e, o.1 = Err e /\ port_do past a = Err e).

Lemma loop_end_now s asked o : ss_port o.2 = ss_port s -> (accepts -> asked = []) ->
  (o.1 = Ok tt \/ o.1 = Err OSError \/ exists past a e, o.1 = Err e /\ port_do past a = Err e) ->
  loop_end s asked o.
Proof.
  intros H1 H2 H3. exists []. rewrite app_nil_r. split; [exact H1|]. split; [apply prefix_nil|].
  split; [intros H; symmetry; auto|exact H3].
Qed.

Lemma stream_loop_spec fuel s : pieces_ok (ss_in s) -> (length (pending (ss_in s)) < fuel)%nat ->
  loop_end s (actions_of (frames_of fuel (pending (ss_in s)))) (stream_loop port_do fuel s).
Proof.
  revert s. induction fuel as [|fuel IH]; intros s Hp Hf; [lia|]. cbn [stream_loop frames_of].
  destruct (read_frame_pieces (ss_in s) Hp) as (P1 & P2 & P3).
  unfold mbind at 1, mtry, in_conn. destruct (read_frame read_exact (ss_in s)) as [r i]. cbn [fst snd] in *.
  set (buf := pending (ss_in s)) in *.
  destruct (read_frame buf_read buf) as [[[f|]|e] rest].
  - destruct P3 as (-> & Hrest & Hlt). set (s1 := mkSession i (ss_port s)).
    unfold mret at 1. cbv iota beta. fold s1.
    destruct (apply_frame_spec f s1) as (A1 & A2 & A3). cbn [actions_of]. unfold mbind.
    destruct (goes_on f).
    + destruct (A3 eq_refl) as [A|(Hn & A & A')]; clear A2 A3.
      * rewrite A. cbn [ss_in ss_port s1]. set (s2 := mkSession i (ss_port s ++ action_of f)).
        assert (Hlen : (length (pending (ss_in s2)) < fuel)%nat) by (cbn; rewrite Hrest; lia).
        destruct (IH s2 P1 Hlen) as (taken & T1 & T2 & T3 & T4). cbn [ss_in s2] in T2, T3. rewrite Hrest in T2, T3.
        exists (action_of f ++ taken). split; [rewrite T1; cbn; apply eq_sym, app_assoc|].
        split; [apply prefix_app; exact T2|]. split; [intros Ha; rewrite (T3 Ha); reflexivity|exact T4].
      * destruct (apply_frame port_do f s1) as [r2 s2]. cbn [fst snd] in *.
        assert (Hport : ss_port s2 = ss_port s) by (rewrite A; reflexivity).
        destruct A' as [->|(a & e & -> & He)].
        -- apply loop_end_now; [exact Hport|contradiction|left; reflexivity].
        -- apply loop_end_now; [exact Hport|contradiction|right; right; eauto].
    + rewrite (A2 eq_refl). apply loop_end_now; [reflexivity|reflexivity|left; reflexivity].
  - destruct P3 as [-> | ->]; apply loop_end_now; auto; reflexivity.
  - destruct P3 as [-> | ->]; apply loop_end_now; auto; reflexivity.
Qed.

Lemma run_stream_spec s : pieces_ok (ss_in s) ->
  exists taken, ss_port (mstate (run_stream port_do) s) = ss_port s ++ taken /\
    taken `prefix_of` requested (pending (ss_in s)) /\
    (accepts -> taken = requested (pending (ss_in s))) /\
    (mresult (run_stream port_do) s = Ok tt \/
     exists past a e, mresult (run_stream port_do) s = Err e /\ port_do past a = Err e).
Proof.
  intros Hp.
  destruct (stream_loop_spec (S (length (pending (ss_in s)))) s Hp ltac:(lia)) as (taken & T1 & T2 & T3 & T4).
  exists taken. unfold run_stream, mstate, mresult, mbind, mgets, mtry in *. unfold requested.
  destruct (stream_loop port_do (S (length (pending (ss_in s)))) s) as [[[]|e] s1]; cbn [fst snd] in *; [auto|].
  destruct T4 as [T4|[T4|(past & a & e' & T4 & T5)]]; [discriminate|injection T4 as ->; auto|].
  injection T4 as <-. destruct e; cbn; (split; [exact T1|]); (split; [exact T2|]); (split; [exact T3|]); eauto 6.
Qed.
End Loop.

(** What a well-formed client asks for. *)
Lemma frames_of_encoded fs : forall bs fuel rest,
  Forall (fun f => zlen (snd f) <= MAX_FRAME_PAYLOAD) fs -> encode_frames fs = Ok bs ->
  (length (bs ++ rest) < fuel)%nat -> exists fuel', (length rest < fuel')%nat /\
  frames_of fuel (bs ++ rest) = fs ++ frames_of fuel' rest.
Proof.
  induction fs as [|[t p] fs IH]; intros bs fuel rest HF He Hf.
  - injection He as <-. exists fuel. auto.
  - cbn [encode_frames] in He. destruct (encode_frame t p) as [b|] eqn:E1; [|discriminate].
    destruct (encode_frames fs) as [bs'|] eqn:E2; [|discriminate]. cbn [result_bind] in He. injection He as <-.
    inversion HF as [|? ? Hp HF']; subst. destruct fuel as [|fuel]; [lia|]. cbn [frames_of]. rewrite <- app_assoc in Hf |- *.
    rewrite (read_encoded t p b (bs' ++ rest) Hp E1).
    assert (Hb : (0 < length b)%nat).
    { unfold encode_frame, bytes1 in E1. destruct (_ && _); [|discriminate].
      destruct (to_bytes4 (zlen p)); [|discriminate]. injection E1 as <-. cbn. lia. }
    rewrite length_app in Hf. destruct (IH bs' fuel rest HF' eq_refl ltac:(lia)) as (fuel' & H1 & H2).
    exists fuel'. split; [exact H1|]. rewrite H2. reflexivity.
Qed.

Lemma actions_of_app fs fs' : forallb goes_on fs = true ->
  actions_of (fs ++ fs') = concat (map action_of fs) ++ actions_of fs'.
Proof.
  induction fs as [|f fs IH]; [reflexivity|]. cbn [forallb app actions_of map concat].
  intros H. apply andb_prop in H as [-> H]. rewrite (IH H). apply app_assoc.
Qed.

(** A client that closes, by a [CLOSE] frame or the socket's end. *)
Definition closing (rest : list Z) : Prop :=
  rest = [] \/ exists junk, encode_frame FRAME_CLOSE [] = Ok (firstn 5 rest) /\ rest = firstn 5 rest ++ junk.

Lemma requested_encoded fs bs rest : Forall (fun f => zlen (snd f) <= MAX_FRAME_PAYLOAD) fs ->
  forallb goes_on fs = true -> encode_frames fs = Ok bs -> closing rest ->
  requested (bs ++ rest) = concat (map action_of fs).
Proof.
  intros HF Hg He Hr. unfold requested.
  destruct (frames_of_encoded fs bs (S (length (bs ++ rest))) rest HF He ltac:(lia)) as (fuel & Hf & ->).
  rewrite actions_of_app by exact Hg. replace (actions_of (frames_of fuel rest)) with (@nil port_action);
    [apply app_nil_r|].
  destruct Hr as [->|(junk & He' & ->)]; destruct fuel as [|fuel]; try reflexivity. cbn [frames_of].
  rewrite (read_encoded FRAME_CLOSE [] _ junk) by (exact He' || vm_compute; discriminate). reflexivity.
Qed.

(** ** The two directions *)

(** C17: a stream carries out the client's frames. However the socket splits
    the bytes, the port is given exactly the actions of the frames up to the
    first [CLOSE], unknown or malformed one or the end of the connection, in
    order, or a prefix of them when it refuses one; then it is closed, once,
    and the board let go of, also when the port could not be opened or an
    exception goes through. For frames a client encoded before it closed,
    that is every one of them. *)
Theorem stream_session port_do A opened c r a s : pieces_ok (ss_in s) ->
  let o := handle_stream port_do A opened c r (a, s) in
  (if opened then
     exists taken, ss_port o.2.2 = ss_port s ++ taken ++ [PClose] /\
       taken `prefix_of` requested (pending (ss_in s)) /\
       (accepts port_do -> taken = requested (pending (ss_in s)) /\ o.1 = Ok tt)
   else o.2.2 = s) /\
  (forall fs bs rest, pending (ss_in s) = bs ++ rest -> encode_frames fs = Ok bs ->
     Forall (fun f => zlen (snd f) <= MAX_FRAME_PAYLOAD) fs -> forallb goes_on fs = true -> closing rest ->
     requested (pending (ss_in s)) = concat (map action_of fs)) /\
  o.2.1 = mstate (leave_mode A c (Streaming r)) a /\
  (forall st, dget (dr_uid r) (a_locks o.2.1) = Some st -> ls_holder st <> cn_holder c) /\
  dr_uid r ∉ acquired c o.2.1.
Proof.
  intros Hp o. assert (Hlm : mresult (leave_mode A c (Streaming r)) a = Ok tt).
  { unfold leave_mode. destruct (a_release_ok A (dr_uid r) (cn_holder c) a) as [b Hb].
    unfold mresult. rewrite (bind_result _ _ _ b Hb). reflexivity. }
  assert (Ha : o.2.1 = mstate (leave_mode A c (Streaming r)) a /\
    (if opened then ss_port o.2.2 = ss_port (mstate (run_stream port_do) s) ++ [PClose] /\
                    o.1 = mresult (run_stream port_do) s
     else o.2.2 = s)).
  { unfold o, handle_stream, mstate, mresult in *. destruct opened.
    - unfold mfinally, on_session, on_api, close_port, mbind, mmodify. cbn [fst snd].
      destruct (run_stream port_do s) as [r0 s1]. cbn [fst snd].
      destruct (leave_mode A c (Streaming r) a) as [r1 a1]. cbn in *. subst r1. auto.
    - unfold on_api. cbn [fst snd]. destruct (leave_mode A c (Streaming r) a). auto. }
  destruct Ha as [Ha Hs]. split; [|split; [|split; [exact Ha|]]].
  - destruct opened; [|exact Hs]. destruct Hs as [-> ->].
    destruct (run_stream_spec port_do s Hp) as (taken & T1 & T2 & T3 & T4). exists taken.
    rewrite T1, <- app_assoc. split; [reflexivity|]. split; [exact T2|]. intros Hx. split; [exact (T3 Hx)|].
    destruct T4 as [T4|(past & x & e & _ & T4)]; [exact T4|]. rewrite Hx in T4. discriminate.
  - intros fs bs rest -> He HF Hg Hr. exact (requested_encoded fs bs rest HF Hg He Hr).
  - rewrite Ha. unfold leave_mode. destruct (a_release_ok A (dr_uid r) (cn_holder c) a) as [b Hb].
    unfold mstate. rewrite (bind_result _ _ _ b Hb). exact (released_gone A (dr_uid r) c a).
Qed.

Lemma stream_session_witness :
  let s := mkSession (mkConnIn [[1; 0; 0]; [0; 2; 104; 105; 2; 0]; [0; 0; 0; 3; 0; 0; 0; 1; 1; 5; 0; 0; 0; 0]] false) [] in
  let r := match get "9906" (a_db locked_server) with Some r => r | None => virtual_device "" "" "" "" 0 end in
  let o := handle_stream (fun _ _ => Ok tt) example_api true conn_a r (locked_server, s) in
  ss_port o.2.2 = [PWrite [104; 105]; PBreak; PSetDtr true; PClose] /\ dget "9906" (a_locks o.2.1) = None.
Proof.
  intros s r o.
  destruct (stream_session (fun _ _ => Ok tt) example_api true conn_a r locked_server s) as ((taken & H1 & _ & H2) & H3 & _ & H4 & _).
  - repeat constructor; discriminate.
  - split.
    + fold o in H1. rewrite H1. destruct (H2 (fun _ _ => eq_refl)) as [-> _].
      rewrite (H3 [(1, [104; 105]); (2, []); (3, [1])] (firstn 18 (pending (ss_in s))) (skipn 18 (pending (ss_in s)))).
      * reflexivity.
      * reflexivity.
      * reflexivity.
      * repeat constructor; vm_compute; discriminate.
      * reflexivity.
      * right. exists []. split; reflexivity.
    + fold o in H4. destruct (dget "9906" (a_locks o.2.1)) as [st|] eqn:E; [|reflexivity].
      exfalso. apply (H4 st E). vm_compute in E. discriminate E.
Defined.

(** What the reader thread got off the port before it stopped. *)
Fixpoint port_data (evs : list pump_event) : list (list Z) :=
  match evs with
  | [] | UFail :: _ | UCheck false :: _ => []
  | UCheck true :: evs' => port_data evs'
  | URead [] _ :: evs' => port_data evs'
  | URead data sent :: evs' => if sent then data :: port_data evs' else []
  end.

(** The bytes sent are those frames, encoded. *)
Lemma pump_encodes evs :
  Forall (fun e => match e with URead data _ => zlen data <= MAX_FRAME_PAYLOAD | _ => True end) evs ->
  encode_frames (map (fun data => (FRAME_DATA, data)) (port_data evs)) = Ok (pump_port evs).1 /\
  Forall (fun f => zlen (snd f) <= MAX_FRAME_PAYLOAD) (map (fun data => (FRAME_DATA, data)) (port_data evs)).
Proof.
  intros HF. induction evs as [|e evs IH]; [split; [reflexivity|constructor]|].
  inversion HF as [|? ? He HF']; subst. specialize (IH HF'). destruct IH as [I1 I2].
  destruct e as [[|]|[|b data] sent|]; cbn [pump_port port_data]; auto; try (split; [reflexivity|constructor]).
  destruct (encode_frame_ok FRAME_DATA (b :: data)) as (h & E & _).
  { split; vm_compute; congruence. }
  { pose proof max_lt_2_32. lia. }
  rewrite E. destruct sent; [|split; [reflexivity|constructor]].
  destruct (pump_port evs) as [out shut]. cbn [fst map encode_frames] in *. rewrite E, I1.
  split; [reflexivity|]. constructor; [exact He|exact I2].
Qed.

(** a client reads back exactly what the port produced. The bytes the
    reader thread sends decode to one [DATA] frame for each piece read from
    the port, in order, and nothing else; the thread shuts the connection
    down exactly when an attachment check failed before anything else
    stopped it, and a check fails exactly when the row is gone, its board is
    disconnected, or it is attached on another port. *)
Theorem pump_roundtrip evs fuel uid port d :
  Forall (fun e => match e with URead data _ => zlen data <= MAX_FRAME_PAYLOAD | _ => True end) evs ->
  (length (port_data evs) < fuel)%nat ->
  read_all fuel (pump_port evs).1 = (Ok (map (fun data => (FRAME_DATA, data)) (port_data evs)), []) /\
  ((pump_port evs).2 = true ->
   exists pre post, evs = pre ++ UCheck false :: post /\ (pump_port evs).1 = (pump_port pre).1) /\
  (stream_still_valid uid port d = false <->
   forall r, get uid d = Some r -> dr_state r = STATE_DISCONNECTED \/ dr_port r <> Some port).
Proof.
  intros HF Hf. split; [|split].
  - destruct (pump_encodes evs HF) as [He HF']. apply read_all_encoded; [exact HF'|exact He|]. rewrite length_map. exact Hf.
  - clear HF Hf. induction evs as [|e evs IH]; [discriminate|].
    destruct e as [[|]|[|b data] sent|]; cbn [pump_port]; try discriminate.
    + intros H. destruct (IH H) as (pre & post & -> & E). exists (UCheck true :: pre), post. auto.
    + intros _. exists [], evs. auto.
    + intros H. destruct (IH H) as (pre & post & -> & E). exists (URead [] sent :: pre), post. auto.
    + destruct (encode_frame FRAME_DATA (b :: data)) as [bs|e] eqn:E; [|discriminate].
      destruct sent; [|discriminate]. destruct (pump_port evs) as [out shut] eqn:Ep. cbn [snd]. intros H.
      destruct (IH H) as (pre & post & -> & E'). exists (URead (b :: data) true :: pre), post.
      split; [reflexivity|]. cbn [pump_port]. rewrite E. cbn [fst] in *. destruct (pump_port pre). cbn in *. congruence.
  - unfold stream_still_valid. destruct (get uid d) as [r|]; [|split; [intros _ r H; discriminate|reflexivity]].
    rewrite andb_false_iff, negb_false_iff, bool_decide_eq_true, bool_decide_eq_false.
    split; [intros H r' [= <-]; exact H|intros H; apply H; reflexivity].
Qed.

Lemma pump_roundtrip_witness :
  read_all 3 (pump_port [UCheck true; URead [104; 105] true; URead [] true; URead [33] true; UCheck false]).1 =
  (Ok [(FRAME_DATA, [104; 105]); (FRAME_DATA, [33])], []).
Proof.
  apply (pump_roundtrip [UCheck true; URead [104; 105] true; URead [] true; URead [33] true; UCheck false] 3 "" "" empty_db);
    [repeat constructor; vm_compute; discriminate|cbn; lia].
Defined.
