(* ===== verification/Relay.v ===== *)
(** * [relay/protocol.py]: driving a relay board through its command plane

    The patterns of the board's replies, the reader that scans only whole
    lines, and the sequences of [RelayControl]: [HELLO] with its break, the
    verified return to factory defaults, reset and probe.  The channel is
    the environment: whether it opens, writes and breaks, and what arrives
    during each wait, each answered from everything done so far; the trace
    has what was written and what was heard. *)

From S2P Require Import Prelude Regex.
Local Open Scope py_scope.

(** ** The patterns *)

Definition DIGITS : re := RPlus (RChr Py.is_digit).
Definition SPACES : re := RStar (RChr is_bspace).
Definition SPACES1 : re := RPlus (RChr is_bspace).
Definition WORD : re := RPlus (RChr is_word).
Definition NONSPACE : re := RPlus (RChr (fun c => negb (is_bspace c))).
Definition NOT_COLON : re := RPlus (RChr (fun c => negb (Ascii.eqb c ":"))).
Definition NOT_COLON_SPACE : re := RPlus (RChr (fun c => negb (Ascii.eqb c ":" || is_bspace c))).
Definition HEX : re := RPlus (RChr is_hex).

Definition BANNER_RE : re :=
  rcat [RLit "DEVICE:"; RGroup 1 (RAlt (RLit "RADIOBRIDGE") (RLit "RADIORELAY")); RLit ":relay:";
        RGroup 2 NOT_COLON; RLit ":"; RGroup 3 HEX].

(** The groups [role common name serial], and the same of the other dialect. *)
Definition IDENTITY_RE : re :=
  RAlt
    (rcat [RLit "DEVICE:"; RGroup 1 WORD; RLit ":"; RGroup 2 NOT_COLON_SPACE; RLit ":";
           RGroup 3 NOT_COLON_SPACE; RLit ":"; RGroup 4 HEX])
    (rcat [RWordB; RLit "device "; RGroup 5 WORD; RLit " "; RGroup 6 NONSPACE; RLit " ";
           RGroup 7 NONSPACE; RLit " "; RGroup 8 HEX]).

Definition CONFIG_RE : re :=
  rcat [RLit "#"; SPACES; RLit "channel:"; SPACES; RGroup 1 DIGITS; SPACES1; RLit "group:"; SPACES;
        RGroup 2 DIGITS; SPACES1; RLit "mode:"; SPACES; RGroup 3 NONSPACE; SPACES1; RLit "power:"; SPACES;
        RGroup 4 DIGITS].

Definition VERSION_RE : re :=
  rcat [RLit "#"; SPACES;
        RAlt (rcat [RLit "version:"; SPACES; RGroup 1 NONSPACE]) (RLit "error: unknown command")].

Definition ROBOT_VERSION_RE : re := rcat [RBol; RLit "ver "; RGroup 1 NONSPACE].

Definition nl : string := String newline "".
Definition hash (l : list re) : re := rcat (RLit "#" :: SPACES :: l).

Definition NORMALIZE_STEPS : list (string * re) :=
  [(("!MODE RAW250" +:+ nl)%string, hash [RLit "mode:"; SPACES; RLit "RAW250"]);
   (("!FRAG OFF" +:+ nl)%string, hash [RLit "frag:"; SPACES; RLit "OFF"]);
   (("!ECHO OFF" +:+ nl)%string, hash [RLit "echo:"; SPACES; RLit "OFF"]);
   (("!P 7" +:+ nl)%string, hash [RLit "channel:"]);
   (("!C 0" +:+ nl)%string, hash [RLit "channel:"; SPACES; RLit "0"; SPACES1; RLit "group:"; SPACES; RLit "10"])].

Definition DEFAULT_CFG : Z * Z * string * Z := (0, 10, "RAW250", 7).

Definition RELAY_ROLES : list string := ["RADIOBRIDGE"; "RADIORELAY"].

(** ** The banner *)

Record BannerInfo := mkBanner {
  bi_role : string; bi_device_name : string; bi_serial : string; bi_raw : string; bi_firmware : string }.

Definition with_firmware (v : string) (b : BannerInfo) : BannerInfo :=
  mkBanner (bi_role b) (bi_device_name b) (bi_serial b) (bi_raw b) v.

Definition either (a b : option string) : string :=
  match a with
  | Some "" | None => match b with Some s => s | None => "" end
  | Some s => s
  end.

(** [int] of a run of digits. *)
Fixpoint digits_value (acc : Z) (s : string) : Z :=
  match s with
  | "" => acc
  | String c s' => digits_value (acc * 10 + (Z.of_N (N_of_ascii c) - 48)) s'
  end.

(** The buffer up to and including its last newline. *)
Fixpoint complete_lines (s : string) : string :=
  match s with
  | "" => ""
  | String c s' =>
      match complete_lines s' with
      | "" => if Ascii.eqb c newline then nl else ""
      | t => String c t
      end
  end.

(** ** The channel *)

(** What is done on the channel, the waits among it, and what a wait takes
    in. *)
Inductive channel_event := EOpen | EWrite (data : string) | EBreak | EWait | EHeard (data : string) | EClose.
Inductive arrival := Arrived (data : string) | ReadFailed.

Record channel_env := mkChannelEnv {
  ch_open : list channel_event -> result unit;
  ch_write : list channel_event -> string -> result unit;
  ch_break : list channel_event -> result unit;
  ch_arrivals : list channel_event -> list arrival;    (* before a wait's deadline *)
  ch_decode : string -> string }.                      (* [bytes.decode(errors="replace")] *)

(** The reader's buffer, and everything done on the channel. *)
Record relay := mkRelay { rl_buf : string; rl_failed : bool; rl_trace : list channel_event }.

Definition emit (e : channel_event) (s : relay) : relay := mkRelay (rl_buf s) (rl_failed s) (rl_trace s ++ [e]).
(** [Reader._on_data], as the wait that is waiting sees it. *)
Definition hear (data : string) (s : relay) : relay :=
  mkRelay (rl_buf s +:+ data)%string (rl_failed s) (rl_trace s ++ [EHeard data]).
Definition set_buf (b : string) (s : relay) : relay := mkRelay b (rl_failed s) (rl_trace s).
Definition fail_read (s : relay) : relay := mkRelay (rl_buf s) true (rl_trace s).

Section Relay.
Variable E : channel_env.

Definition parse (data : string) : option BannerInfo :=
  match search IDENTITY_RE data with
  | None => None
  | Some m =>
      Some (mkBanner (either (group 1 m) (group 5 m)) (ch_decode E (either (group 3 m) (group 7 m)))
              (either (group 4 m) (group 8 m)) (m_text m) "")
  end.

(** An operation on the channel, whatever the environment says of it. *)
Definition channel_op (e : channel_event) (can : list channel_event -> result unit) : M relay unit :=
  fun s => (can (rl_trace s), emit e s).

Definition open_channel : M relay unit := channel_op EOpen (ch_open E).
Definition write_nowait (data : string) : M relay unit := channel_op (EWrite data) (fun t => ch_write E t data).
Definition send_break : M relay unit := channel_op EBreak (ch_break E).
Definition close_channel : M relay unit := mmodify (emit EClose).

(** [Reader(channel)]. *)
Definition new_reader : M relay unit := mmodify (fun s => mkRelay "" false (rl_trace s)).
Definition clear : M relay unit := mmodify (set_buf "").

(** [Reader.wait_for]: the complete lines are scanned before each arrival
    and after the last one. *)
Fixpoint scan (pattern : re) (arrivals : list arrival) : M relay (option re_match) :=
  s <-! mget ;;
  match search pattern (complete_lines (rl_buf s)) with
  | Some m => mret (Some m)
  | None =>
      if rl_failed s then mraise RelayError
      else match arrivals with
           | [] => mret None
           | Arrived data :: rest => mmodify (hear data) ;;! scan pattern rest
           | ReadFailed :: rest => mmodify fail_read ;;! scan pattern rest
           end
  end.

Definition wait_for (pattern : re) : M relay (option re_match) :=
  arrivals <-! mgets (fun s => ch_arrivals E (rl_trace s)) ;;
  mmodify (emit EWait) ;;! scan pattern arrivals.

(** [clear], a command, and the wait for its reply. *)
Definition ask (command : string) (pattern : re) : M relay (option re_match) :=
  clear ;;! write_nowait command ;;! wait_for pattern.

(** ** [RelayControl] *)

Fixpoint ask_hello (attempts : nat) (pattern : re) : M relay (option BannerInfo) :=
  match attempts with
  | O => mret None
  | S attempts' =>
      write_nowait ("HELLO" +:+ nl)%string ;;!
      m <-! wait_for pattern ;;
      match m ≫= (fun m => parse (m_text m)) with
      | Some info => mret (Some info)
      | None => ask_hello attempts' pattern
      end
  end.

Variable hello_attempts : nat.

(** The recovery by a break; a break that fails is not one. *)
Definition break_recovery (pattern : re) : M relay (option BannerInfo) :=
  broke <-! mtry (send_break ;;! mret true) (fun _ => Some (mret false)) ;;
  if broke : bool then clear ;;! ask_hello hello_attempts pattern else mret None.

Definition hello (allow_break : bool) (pattern : re) : M relay BannerInfo :=
  info <-! ask_hello hello_attempts pattern ;;
  match info with
  | Some info => mret info
  | None =>
      info <-! (if allow_break then break_recovery pattern else mret None) ;;
      match info with
      | Some info => mret info
      | None => mraise RelayError
      end
  end.

Definition query : M relay (option re_match) := ask ("?" +:+ nl)%string CONFIG_RE.

Definition is_default (m : re_match) : bool :=
  match group 1 m, group 2 m, group 3 m, group 4 m with
  | Some channel, Some grp, Some mode, Some power =>
      bool_decide ((digits_value 0 channel, digits_value 0 grp, mode, digits_value 0 power) = DEFAULT_CFG)
  | _, _, _, _ => false
  end.

(** [normalize], with [rounds] attempts left. *)
Fixpoint normalize_rounds (rounds : nat) : M relay unit :=
  match rounds with
  | O => mraise RelayError
  | S rounds' =>
      mfor NORMALIZE_STEPS (fun step => ask step.1 step.2 ;;! mret tt) ;;!
      config <-! query ;;
      if match config with Some m => is_default m | None => false end then mret tt
      else normalize_rounds rounds'
  end.

Definition normalize : M relay unit := normalize_rounds 2.

Definition version_of (m : option re_match) : string :=
  match m ≫= group 1 with
  | Some "" | None => ""
  | Some v => ch_decode E v
  end.

Definition firmware_version : M relay string :=
  m <-! ask ("!VER?" +:+ nl)%string VERSION_RE ;; mret (version_of m).

Definition robot_version : M relay string :=
  m <-! ask ("VER" +:+ nl)%string ROBOT_VERSION_RE ;; mret (version_of m).

Definition clear_stored_config : M relay unit :=
  ask ("!DEFAULTS" +:+ nl)%string (hash [RLit "stored config cleared"]) ;;! mret tt.

Definition reset_and_normalize (clear_stored : bool) : M relay BannerInfo :=
  open_channel ;;!
  mfinally
    (new_reader ;;!
     info <-! hello true BANNER_RE ;;
     version <-! firmware_version ;;
     normalize ;;!
     (if clear_stored then clear_stored_config else mret tt) ;;!
     mret (with_firmware version info))
    close_channel.

Definition probe_relay : M relay (option BannerInfo) :=
  open_channel ;;!
  mfinally
    (new_reader ;;!
     info <-! mtry (info <-! hello true IDENTITY_RE ;; mret (Some info))
                (fun e => match e with RelayError => Some (mret None) | _ => None end) ;;
     match info with
     | None => mret None
     | Some info =>
         if String.eqb (bi_role info) "RADIOBRIDGE" then
           v <-! firmware_version ;; mret (Some (with_firmware v info))
         else if bool_decide (bi_role info ∈ RELAY_ROLES) then mret (Some info)
         else v <-! robot_version ;; mret (Some (with_firmware v info))
     end)
    close_channel.
End Relay.
