(* ===== verification/RelayFacts.v ===== *)
(** * Properties of the relay's command plane

    What a banner is made of and that it is never a truncated one; which
    commands each sequence sends, in which order and how often; and what has
    to come back before a board counts as being at factory defaults. *)

From S2P Require Import Prelude Trace Regex Relay.
Local Open Scope py_scope.

(** ** Whole lines *)

Lemma complete_lines_prefix s : exists t, s = (complete_lines s +:+ t)%string.
Proof.
  induction s as [|c s [t IH]]; [exists ""; reflexivity|]. cbn [complete_lines].
  destruct (complete_lines s) as [|c' l] eqn:E.
  - destruct (Ascii.eqb_spec c newline) as [->|]; [exists s; reflexivity|exists (String c s); reflexivity].
  - exists t. cbn in IH |- *. f_equal. exact IH.
Qed.

Lemma complete_lines_end s : complete_lines s <> "" -> Py.last_char (complete_lines s) = Some newline.
Proof.
  induction s as [|c s IH]; [intros H; contradiction|]. cbn [complete_lines].
  destruct (complete_lines s) as [|c' l] eqn:E.
  - destruct (Ascii.eqb_spec c newline) as [->|]; [reflexivity|intros H; contradiction].
  - intros _. rewrite Py.last_char_cons, IH by discriminate. reflexivity.
Qed.

(** ** What a banner is *)

Lemma banner_tail : tail_plus is_hex BANNER_RE.
Proof. unfold BANNER_RE, HEX. cbn [rcat]. repeat constructor. Qed.

Lemma identity_tail : tail_plus is_hex IDENTITY_RE.
Proof. unfold IDENTITY_RE, HEX. cbn [rcat]. repeat constructor. Qed.

(** Either dialect's line, with its role, name and serial. *)
Definition announces (raw role name serial : string) : Prop :=
  exists common,
  (raw = ("DEVICE:" +:+ role +:+ ":" +:+ common +:+ ":" +:+ name +:+ ":" +:+ serial)%string \/
   raw = ("device " +:+ role +:+ " " +:+ common +:+ " " +:+ name +:+ " " +:+ serial)%string) /\
  role <> "" /\ name <> "" /\ serial <> "" /\ Py.sforall is_word role = true /\ Py.sforall is_hex serial = true.

Lemma spans_unique p q t u : spans p q t -> spans p q u -> t = u.
Proof. intros Ht Hu. rewrite <- (consumed_spans p q t Ht). exact (consumed_spans p q u Hu). Qed.

Lemma four_groups p q c sep1 sep2 g1 g2 g3 g4 f1 f2 f3 f4 pre d :
  matches (rcat [RLit pre; RGroup g1 (RPlus (RChr f1)); RLit sep1; RGroup g2 (RPlus (RChr f2)); RLit sep2;
                 RGroup g3 (RPlus (RChr f3)); RLit sep2; RGroup g4 (RPlus (RChr f4))]) p c q d ->
  exists t1 t2 t3 t4, d = [(g4, t4); (g3, t3); (g2, t2); (g1, t1)] ++ c /\
    spans p q (pre +:+ t1 +:+ sep1 +:+ t2 +:+ sep2 +:+ t3 +:+ sep2 +:+ t4)%string /\
    (t1 <> "" /\ Py.sforall f1 t1 = true) /\ (t3 <> "" /\ Py.sforall f3 t3 = true) /\
    (t4 <> "" /\ Py.sforall f4 t4 = true).
Proof.
  cbn [rcat]. intros H.
  repeat match goal with H : matches (RCat _ _) _ _ _ _ |- _ =>
    let x := fresh "p" in let y := fresh "d" in let H1 := fresh "H" in let H2 := fresh "H" in
    destruct (cat_matches _ _ _ _ _ _ H) as (x & y & H1 & H2); clear H end.
  repeat match goal with
  | H : matches (RLit _) _ _ _ _ |- _ => let Hs := fresh "S" in destruct (lit_matches _ _ _ _ _ H) as [-> Hs]; clear H
  | H : matches (RGroup _ _) _ _ _ _ |- _ =>
      let t := fresh "t" in let Hs := fresh "S" in let Hn := fresh "N" in let Ha := fresh "A" in
      destruct (group_plus_matches _ _ _ _ _ _ H) as (t & -> & Hs & Hn & Ha); clear H
  end.
  do 4 eexists. split; [reflexivity|]. split; [eauto 10 using spans_trans|]. auto.
Qed.

(** What [BannerInfo.parse] finds. *)
Lemma parse_spec E data info : parse E data = Some info ->
  exists pre post name, data = (pre +:+ bi_raw info +:+ post)%string /\
    announces (bi_raw info) (bi_role info) name (bi_serial info) /\
    bi_device_name info = ch_decode E name /\ bi_firmware info = "" /\
    (forall ch, head post = Some ch -> is_hex ch = false).
Proof.
  unfold parse. intros H. destruct (search IDENTITY_RE data) as [m|] eqn:Es; [|discriminate]. injection H as <-.
  pose proof (search_correct IDENTITY_RE data) as Hc. rewrite Es in Hc. destruct Hc as (Hd & Hm & Hsp & Ht).
  destruct (Ht is_hex identity_tail) as [Hstop _]. cbn [bi_raw bi_role bi_serial bi_device_name bi_firmware].
  assert (Hg : exists role common name serial,
    either (group 1 m) (group 5 m) = role /\ either (group 3 m) (group 7 m) = name /\
    either (group 4 m) (group 8 m) = serial /\
    (m_text m = ("DEVICE:" +:+ role +:+ ":" +:+ common +:+ ":" +:+ name +:+ ":" +:+ serial)%string \/
     m_text m = ("device " +:+ role +:+ " " +:+ common +:+ " " +:+ name +:+ " " +:+ serial)%string) /\
    role <> "" /\ name <> "" /\ serial <> "" /\ Py.sforall is_word role = true /\ Py.sforall is_hex serial = true).
  { unfold group. unfold IDENTITY_RE in Hm. destruct (alt_matches _ _ _ _ _ _ Hm) as [Ha|Hb].
    - destruct (four_groups _ _ _ _ _ _ _ _ _ _ _ _ _ _ _ Ha) as (t1 & t2 & t3 & t4 & Hg & Hs & [N1 A1] & [N3 A3] & [N4 A4]).
      rewrite (spans_unique _ _ _ _ Hsp Hs), Hg. cbn.
      exists t1, t2, t3, t4. destruct t1; [congruence|]. destruct t3; [congruence|]. destruct t4; [congruence|]. auto 10.
    - destruct (cat_matches _ _ _ _ _ _ Hb) as (q0 & d0 & Hw & Hb').
      destruct (wordb_matches _ _ _ _ Hw) as (-> & -> & _).
      destruct (four_groups _ _ _ _ _ _ _ _ _ _ _ _ _ _ _ Hb') as (t1 & t2 & t3 & t4 & Hg & Hs & [N1 A1] & [N3 A3] & [N4 A4]).
      rewrite (spans_unique _ _ _ _ Hsp Hs), Hg. cbn. exists t1, t2, t3, t4. auto 15. }
  destruct Hg as (role & common & name & serial & -> & -> & -> & Hraw & Hrest).
  exists (m_pre m), (m_post m), name. split; [exact Hd|]. split; [exists common; auto|].
  split; [reflexivity|]. split; [reflexivity|exact Hstop].
Qed.

Create HintDb relay.

(** ** What a run does on the channel *)

Definition is_act (e : channel_event) : bool := match e with EWait | EHeard _ => false | _ => true end.
Definition acted (l : list channel_event) : list channel_event := List.filter is_act l.
Definition acts (s : relay) : list channel_event := acted (rl_trace s).

Lemma acted_app l1 l2 : acted (l1 ++ l2) = acted l1 ++ acted l2.
Proof. apply List.filter_app. Qed.

(** The text a part of the trace took in, and what a pattern finds in its
    whole lines. *)
Fixpoint heard_text (l : list channel_event) : string :=
  match l with
  | [] => ""
  | EHeard data :: l' => (data +:+ heard_text l')%string
  | _ :: l' => heard_text l'
  end.
Definition reply (pattern : re) (l : list channel_event) : option re_match :=
  search pattern (complete_lines (heard_text l)).

Lemma heard_text_app l1 l2 : heard_text (l1 ++ l2) = (heard_text l1 +:+ heard_text l2)%string.
Proof. induction l1 as [|[] l1 IH]; cbn [app heard_text]; rewrite ?IH, ?Py.append_assoc; reflexivity. Qed.

(** What follows the last break, if there is one; and the reader's buffer
    after [l], from [b] on: a break that works empties it. *)
Fixpoint after_break (l : list channel_event) : option (list channel_event) :=
  match l with
  | [] => None
  | e :: l' => match after_break l' with
               | Some t => Some t
               | None => match e with EBreak => Some l' | _ => None end
               end
  end.
Definition buffered (b : string) (l : list channel_event) : string :=
  match after_break l with Some t => heard_text t | None => (b +:+ heard_text l)%string end.

Lemma after_break_app l1 l2 : after_break (l1 ++ l2) =
  match after_break l2 with Some t => Some t | None => option_map (fun t => t ++ l2) (after_break l1) end.
Proof.
  induction l1 as [|e l1 IH]; cbn [app after_break option_map]; [destruct (after_break l2); reflexivity|].
  rewrite IH. destruct (after_break l2); [reflexivity|]. destruct (after_break l1); [reflexivity|]. destruct e; reflexivity.
Qed.

Lemma buffered_app b l1 l2 : buffered b (l1 ++ l2) = buffered (buffered b l1) l2.
Proof.
  unfold buffered. rewrite after_break_app. destruct (after_break l2); [reflexivity|].
  destruct (after_break l1); cbn [option_map]; rewrite heard_text_app, ?Py.append_assoc; reflexivity.
Qed.

Lemma unbroken l : ~ In EBreak (acted l) -> after_break l = None.
Proof.
  induction l as [|e l IH]; [reflexivity|]. intros H. cbn [after_break].
  rewrite IH by (intros Hi; apply H; unfold acted; cbn [List.filter]; destruct (is_act e); [right|]; exact Hi).
  destruct e; try reflexivity. destruct H. left. reflexivity.
Qed.

Lemma buffered_unbroken b l : ~ In EBreak (acted l) -> buffered b l = (b +:+ heard_text l)%string.
Proof. intros H. unfold buffered. rewrite (unbroken l H). reflexivity. Qed.

#[local] Notation does := (does rl_trace).

Section Facts.
Variable E : channel_env.

(** What a wait gives: no act; the buffer grows by what was heard; and the
    pattern's match in the whole lines of it. *)
Definition waited (pattern : re) (s : relay) (r : result (option re_match)) (l : list channel_event) (s' : relay) : Prop :=
  acted l = [] /\ rl_buf s' = (rl_buf s +:+ heard_text l)%string /\
  forall m, r = Ok m -> m = search pattern (complete_lines (rl_buf s')).

Lemma scan_does pattern arrivals : does (scan pattern arrivals) (waited pattern).
Proof.
  unfold waited.
  assert (H0 : forall (s : relay) r, (forall m, r = Ok m -> m = search pattern (complete_lines (rl_buf s))) ->
    exists l, rl_trace s = rl_trace s ++ l /\ acted l = [] /\ rl_buf s = (rl_buf s +:+ heard_text l)%string /\
      forall m, r = Ok m -> m = search pattern (complete_lines (rl_buf s))).
  { intros s r H. exists []. rewrite app_nil_r. cbn. rewrite Py.append_nil_r. auto. }
  induction arrivals as [|[data|] arrivals IH]; intros s; cbn [scan]; unfold mstate, mresult, mbind, mget, mmodify;
    cbv beta iota; destruct (search pattern (complete_lines (rl_buf s))) as [m|] eqn:Es.
  1, 3, 5: cbn; apply H0; rewrite Es; congruence.
  all: destruct (rl_failed s); [cbn; apply H0; discriminate|].
  - cbn. apply H0. rewrite Es. congruence.
  - destruct (IH (hear data s)) as (l & H1 & H2 & H3 & H4). unfold mstate, mresult in *. exists (EHeard data :: l).
    split; [rewrite H1; cbn; rewrite <- app_assoc; reflexivity|]. split; [exact H2|]. split; [|exact H4].
    rewrite H3. cbn. rewrite Py.append_assoc. reflexivity.
  - exact (IH (fail_read s)).
Qed.

Lemma wait_does pattern : does (wait_for E pattern) (waited pattern).
Proof.
  intros s. destruct (scan_does pattern (ch_arrivals E (rl_trace s)) (emit EWait s)) as (l & H1 & H2 & H3 & H4).
  exists (EWait :: l). unfold mstate, mresult in *. unfold wait_for, mbind, mgets, mmodify.
  split; [rewrite H1; cbn; rewrite <- app_assoc; reflexivity|]. split; [exact H2|]. split; [exact H3|exact H4].
Qed.

Lemma op_does e can : does (channel_op e can) (fun s _ l s' => l = [e] /\ rl_buf s' = rl_buf s).
Proof. intros s. exists [e]. split; [reflexivity|]. split; reflexivity. Qed.

Lemma write_does data : does (write_nowait E data) (fun s _ l s' => l = [EWrite data] /\ rl_buf s' = rl_buf s).
Proof. apply op_does. Qed.

(** One command and its reply: what is heard after it. *)
Definition answered (command : string) (pattern : re) (r : result (option re_match)) (l : list channel_event) : Prop :=
  exists w, l = EWrite command :: w /\ acted w = [] /\ forall m, r = Ok m -> m = reply pattern w.

Lemma ask_does command pattern : does (ask E command pattern) (fun _ r l _ => answered command pattern r l).
Proof.
  unfold ask, answered. eapply does_weaken.
  { apply does_modify; [reflexivity|]. eapply does_bind; [apply write_does|]. intros ?. apply wait_does. }
  cbn. intros s r l s' [(e & -> & -> & _)|([] & l1 & l2 & s1 & -> & [-> Hb] & H1 & H2 & H3)].
  - exists []. repeat split. discriminate.
  - exists l2. split; [reflexivity|]. split; [exact H1|]. intros m Hm. rewrite (H3 m Hm), H2, Hb. reflexivity.
Qed.

Lemma answered_acts command pattern r l : answered command pattern r l -> acted l = [EWrite command].
Proof. intros (w & -> & Hw & _). unfold acted in *. cbn. rewrite Hw. reflexivity. Qed.

(** *** [HELLO] *)

Definition HELLO : channel_event := EWrite ("HELLO" +:+ nl)%string.

(** [info] is what a match of whole lines, heard since the last break,
    parses to; [b] is what was in the buffer before. *)
Definition introduced (b : string) (pattern : re) (info : BannerInfo) (l : list channel_event) : Prop :=
  exists m, search pattern (complete_lines (buffered b l)) = Some m /\ parse E (m_text m) = Some info.

Lemma no_break_hellos k : ~ In EBreak (replicate k HELLO).
Proof. intros H. apply list_elem_of_In, elem_of_replicate in H as [H _]. discriminate H. Qed.

Definition greeted (n : nat) (pattern : re) (s : relay) (r : result (option BannerInfo)) (l : list channel_event)
    (s' : relay) : Prop :=
  exists k, (k <= n)%nat /\ acted l = replicate k HELLO /\ rl_buf s' = (rl_buf s +:+ heard_text l)%string /\
    (r = Ok None -> k = n) /\ forall info, r = Ok (Some info) -> introduced (rl_buf s) pattern info l.

(** One [HELLO] before the rest. *)
Lemma greeted_cons n pattern (s s1 s' : relay) r w l :
  acted w = [] -> rl_buf s1 = (rl_buf s +:+ heard_text w)%string -> greeted n pattern s1 r l s' ->
  greeted (S n) pattern s r (HELLO :: w ++ l) s'.
Proof.
  intros Hw Hb (k & Hk & Ha & Hb' & Hn & Hi). exists (S k). split; [lia|].
  assert (Hac : acted (HELLO :: w ++ l) = replicate (S k) HELLO).
  { change (HELLO :: w ++ l) with ([HELLO] ++ w ++ l). rewrite !acted_app, Hw, Ha. reflexivity. }
  split; [exact Hac|]. split.
  { rewrite Hb', Hb. cbn [heard_text HELLO]. rewrite heard_text_app, Py.append_assoc. reflexivity. }
  split; [intros H; rewrite (Hn H); reflexivity|]. intros info H. destruct (Hi info H) as (m & Hm & Hp).
  exists m. split; [|exact Hp]. rewrite <- Hm. f_equal. f_equal. rewrite !buffered_unbroken, Hb.
  - cbn [heard_text HELLO]. rewrite heard_text_app, Py.append_assoc. reflexivity.
  - rewrite Ha. apply no_break_hellos.
  - rewrite Hac. apply no_break_hellos.
Qed.

Lemma ask_hello_does n pattern : does (ask_hello E n pattern) (greeted n pattern).
Proof.
  induction n as [|n IH]; cbn [ask_hello].
  - eapply does_weaken; [apply does_ret|]. intros s r l s' (-> & -> & ->). exists 0%nat.
    split; [lia|]. split; [reflexivity|]. split; [cbn; rewrite Py.append_nil_r; reflexivity|]. split; [reflexivity|discriminate].
  - assert (Hend : forall (s s' : relay) r w, acted w = [] -> rl_buf s' = (rl_buf s +:+ heard_text w)%string -> r <> Ok None ->
      (forall info, r = Ok (Some info) -> introduced (rl_buf s) pattern info (HELLO :: w)) -> greeted (S n) pattern s r (HELLO :: w) s').
    { intros s s' r w Hw Hb Hr Hi. exists 1%nat. split; [lia|]. split; [unfold acted in *; cbn; rewrite Hw; reflexivity|].
      split; [exact Hb|]. split; [contradiction|exact Hi]. }
    set (Q2 := fun (m : option re_match) s r l s' =>
        match m ≫= (fun m => parse E (m_text m)) with
        | Some info => r = Ok (Some info) /\ l = [] /\ s' = s
        | None => greeted n pattern s r l s'
        end).
    eapply does_weaken.
    { eapply does_bind; [apply write_does|]. intros ?. apply (does_bind _ _ (waited pattern) Q2); [apply wait_does|].
      intros m. unfold Q2. destruct (m ≫= _); [apply does_ret|exact IH]. }
    cbn. intros s r l s' [(e & -> & -> & Hb)|([] & l1 & l2 & s1 & -> & [-> Hb] & H)].
    + apply (Hend s s' (Err e) []); [reflexivity|cbn; rewrite Py.append_nil_r; exact Hb|discriminate|discriminate].
    + destruct H as [(e & -> & Hw & Hb' & _)|(m & w & l3 & s2 & -> & (Hw & Hb' & Hm) & H)].
      * apply (Hend s s' (Err e) l2); [exact Hw|rewrite Hb', Hb; reflexivity|discriminate|discriminate].
      * specialize (Hm m eq_refl). unfold Q2 in H. destruct (m ≫= (fun m => parse E (m_text m))) as [info|] eqn:Ep.
        -- destruct H as (-> & -> & ->). rewrite app_nil_r.
           apply (Hend s s2 (Ok (Some info)) w); [exact Hw|rewrite Hb', Hb; reflexivity|discriminate|].
           intros i [= <-]. destruct m as [m|]; [|discriminate]. exists m. split; [|exact Ep].
           rewrite buffered_unbroken by (unfold acted in *; cbn; rewrite Hw; intros [H|[]]; discriminate H).
           cbn [heard_text HELLO]. rewrite <- Hb, <- Hb'. symmetry. exact Hm.
        -- apply (greeted_cons n pattern s s2 s' r w l3); [exact Hw|rewrite Hb', Hb; reflexivity|exact H].
Qed.

Definition rescued (n : nat) (pattern : re) (r : result (option BannerInfo)) (l : list channel_event) : Prop :=
  exists j w, (j <= n)%nat /\ l = EBreak :: w /\ acted w = replicate j HELLO /\
    forall info b, r = Ok (Some info) -> introduced b pattern info l.

Lemma break_does n pattern : does (break_recovery E n pattern) (fun _ r l _ => rescued n pattern r l).
Proof.
  unfold break_recovery.
  set (Q1 := fun (_ : relay) (r : result bool) l (_ : relay) => l = [EBreak] /\ exists b, r = Ok b).
  set (Q2 := fun (broke : bool) (s : relay) r l s' =>
    if broke then greeted n pattern (set_buf "" s) r l s' else r = Ok None /\ l = []).
  eapply does_weaken.
  { apply (does_bind _ _ Q1 Q2).
    - intros s. exists [EBreak]. unfold Q1, mstate, mresult, mtry, mbind, send_break, channel_op, mret.
      destruct (ch_break E (rl_trace s)); cbn; eauto.
    - intros [|]; unfold Q2.
      + apply (does_modify (set_buf "") _ (greeted n pattern)); [reflexivity|]. apply ask_hello_does.
      + eapply does_weaken; [apply does_ret|]. intros s r l s' (-> & -> & _). auto. }
  intros s r l s' [(e & -> & _ & b & H)|(broke & l1 & l2 & s1 & -> & [-> _] & H)]; [discriminate|].
  destruct broke; unfold Q2 in H.
  - destruct H as (j & Hj & Ha & _ & _ & H). exists j, l2. split; [exact Hj|]. split; [reflexivity|]. split; [exact Ha|].
    intros info b Hr. destruct (H info Hr) as (m & Hm & Hp). exists m. split; [|exact Hp]. rewrite <- Hm. f_equal. f_equal.
    assert (Hu : after_break l2 = None) by (apply unbroken; rewrite Ha; apply no_break_hellos).
    unfold buffered. cbn [app after_break set_buf rl_buf]. rewrite Hu. reflexivity.
  - destruct H as [-> ->]. exists 0%nat, []. repeat split; [lia|]. discriminate.
Qed.

(** A greeting: some [HELLO]s, or all of them, a break, and some again. *)
Definition greeting (n : nat) (allow_break : bool) (l : list channel_event) : Prop :=
  exists k, (k <= n)%nat /\
    (l = replicate k HELLO \/ allow_break = true /\ l = replicate n HELLO ++ EBreak :: replicate k HELLO).

Lemma introduced_later b pattern info l1 l2 : introduced (buffered b l1) pattern info l2 -> introduced b pattern info (l1 ++ l2).
Proof. intros (m & H1 & H2). exists m. rewrite buffered_app. auto. Qed.

(** The break and what follows, when no [HELLO] was answered. *)
Definition unanswered (n : nat) (allow_break : bool) (pattern : re) (r : result BannerInfo) (l : list channel_event) : Prop :=
  (allow_break = false /\ l = [] \/ allow_break = true /\ exists j w, (j <= n)%nat /\ l = EBreak :: w /\ acted w = replicate j HELLO) /\
  forall info, r = Ok info -> forall b, introduced b pattern info l.

Lemma second_try n (allow_break : bool) pattern :
  does (info <-! (if allow_break then break_recovery E n pattern else mret None) ;;
        match info with Some info => mret info | None => mraise RelayError end)
    (fun _ r l _ => unanswered n allow_break pattern r l).
Proof.
  set (Q3 := fun (info : option BannerInfo) (s : relay) (r : result BannerInfo) (l : list channel_event) (s' : relay) =>
    l = [] /\ match info with Some i => r = Ok i | None => exists e, r = Err e end).
  assert (H3 : forall info, does (match info with Some info => mret info | None => mraise RelayError end) (Q3 info)).
  { intros [i|]; unfold Q3; eapply does_weaken; [apply does_ret| |apply does_raise|]; cbn;
      intros s r l s' (-> & -> & _); eauto. }
  unfold unanswered. destruct allow_break.
  - eapply does_weaken; [apply (does_bind _ _ (fun _ r l _ => rescued n pattern r l) Q3); [apply break_does|exact H3]|].
    intros s r l s' [(e & -> & j & w & Hj & -> & Ha & _)|(i & l1 & l2 & s1 & -> & (j & w & Hj & -> & Ha & H) & (-> & H'))].
    + split; [right; eauto 8|]. discriminate.
    + rewrite app_nil_r. split; [right; eauto 8|]. intros info -> b. destruct i as [i|]; [injection H' as ->; auto|].
      destruct H'; discriminate.
  - eapply does_weaken.
    + apply (does_bind _ _ (fun s r l s' => r = Ok None /\ l = [] /\ s' = s) Q3); [apply does_ret|exact H3].
    + intros s r l s' [(e & _ & H & _)|(i & l1 & l2 & s1 & -> & (Hi & -> & ->) & (-> & H'))]; [discriminate|].
      injection Hi as ->. split; [auto|]. intros info ->. destruct H'; discriminate.
Qed.

Lemma hello_does n allow_break pattern : does (hello E n allow_break pattern) (fun s r l _ =>
  greeting n allow_break (acted l) /\ forall info, r = Ok info -> introduced (rl_buf s) pattern info l).
Proof.
  unfold hello.
  set (Q2 := fun (info : option BannerInfo) (s : relay) r l (s' : relay) =>
    match info with Some i => r = Ok i /\ l = [] | None => unanswered n allow_break pattern r l end).
  eapply does_weaken.
  { apply (does_bind _ _ (greeted n pattern) Q2); [apply ask_hello_does|].
    intros [info|]; unfold Q2; [|apply second_try].
    eapply does_weaken; [apply does_ret|]. intros s r l s' (-> & -> & _). auto. }
  intros s r l s' [(e & -> & k & Hk & Ha & _)|(info & l1 & l2 & s1 & -> & (k & Hk & Ha & Hb & Hn & Hi) & H)].
  - split; [|discriminate]. rewrite Ha. exists k. auto.
  - destruct info as [info|]; unfold Q2 in H.
    + destruct H as (-> & ->). rewrite app_nil_r. split; [rewrite Ha; exists k; auto|]. intros i [= <-]. auto.
    + destruct H as [Hl H]. specialize (Hn eq_refl). subst k.
      split; [|intros i Hr; apply introduced_later, H; exact Hr]. rewrite acted_app, Ha.
      destruct Hl as [[-> ->]|(-> & j & w & Hj & -> & Hw)]; [exists n; rewrite app_nil_r; auto|].
      exists j. split; [exact Hj|]. right. split; [reflexivity|]. unfold acted in *. cbn. rewrite Hw. reflexivity.
Qed.

(** *** [normalize] *)

Definition steps_sent : list channel_event := map (fun step => EWrite step.1) NORMALIZE_STEPS.
Definition QUERY : channel_event := EWrite ("?" +:+ nl)%string.
Definition round : list channel_event := steps_sent ++ [QUERY].

Lemma steps_does steps : does (mfor steps (fun step => ask E step.1 step.2 ;;! mret tt)) (fun _ r l _ =>
  acted l `prefix_of` map (fun step => EWrite step.1) steps /\
  (r = Ok tt -> acted l = map (fun step => EWrite step.1) steps)).
Proof.
  induction steps as [|[command pattern] steps IH]; cbn [mfor map].
  - eapply does_weaken; [apply does_ret|]. intros s r l s' (-> & -> & _). split; [apply prefix_nil|reflexivity].
  - eapply does_weaken.
    { eapply (does_bind _ _ (fun _ _ l _ => acted l = [EWrite command])); [|intros ?; exact IH].
      eapply does_weaken; [eapply (does_bind _ _ _ (fun _ _ _ l _ => l = [])); [apply ask_does|]|].
      - intros _. eapply does_weaken; [apply does_ret|]. intros ? ? ? ? (_ & H & _). exact H.
      - cbn. intros s r l s' [(e & _ & H)|(a & l1 & l2 & s1 & -> & H & ->)]; [|rewrite app_nil_r]; eapply answered_acts, H. }
    cbn. intros s r l s' [(e & -> & ->)|(u & l1 & l2 & s1 & -> & H1 & Hp & Hr)].
    + split; [|discriminate]. apply (prefix_app [EWrite command] []). apply prefix_nil.
    + rewrite acted_app, H1. split; [apply (prefix_app [EWrite command]), Hp|]. intros H. rewrite (Hr H). reflexivity.
Qed.

(** The board's reply to the last [?], in whole lines heard since: it is at
    factory defaults. *)
Definition confirmed (l : list channel_event) : Prop :=
  exists l0 w m, l = l0 ++ QUERY :: w /\ acted w = [] /\ reply CONFIG_RE w = Some m /\ is_default m = true.

Lemma confirmed_later l1 l2 : confirmed l2 -> confirmed (l1 ++ l2).
Proof. intros (l0 & w & m & -> & H). exists (l1 ++ l0), w, m. rewrite app_assoc. auto. Qed.

Definition normalized (n : nat) (r : result unit) (l : list channel_event) : Prop :=
  acted l `prefix_of` concat (replicate n round) /\
  (r = Ok tt -> confirmed l /\ exists k, (1 <= k <= n)%nat /\ acted l = concat (replicate k round)).

(** One round, with what comes of it. *)
Lemma normalized_round n r lq w l2 : acted lq = steps_sent -> acted w = [] ->
  normalized n r l2 -> normalized (S n) r (lq ++ (QUERY :: w) ++ l2).
Proof.
  intros Hq Hw [Hp Hk].
  assert (Ha : acted (lq ++ (QUERY :: w) ++ l2) = round ++ acted l2).
  { rewrite !acted_app, Hq. change (acted (QUERY :: w)) with (QUERY :: acted w). rewrite Hw. unfold round. rewrite <- app_assoc. reflexivity. }
  split; [rewrite Ha; cbn [replicate concat]; apply prefix_app; exact Hp|]. intros Hr.
  destruct (Hk Hr) as [Hc (k & Hk' & Hl)]. split; [apply confirmed_later, confirmed_later, Hc|].
  exists (S k). split; [lia|]. rewrite Ha, Hl. reflexivity.
Qed.

Lemma normalize_does n : does (normalize_rounds E n) (fun _ r l _ => normalized n r l).
Proof.
  induction n as [|n IH]; cbn [normalize_rounds].
  - eapply does_weaken; [apply does_raise|]. intros s r l s' (-> & -> & _). split; [apply prefix_nil|discriminate].
  - set (Q3 := fun (config : option re_match) (s : relay) r l (s' : relay) =>
      if match config with Some m => is_default m | None => false end
      then r = Ok tt /\ l = [] else normalized n r l).
    eapply does_weaken.
    { eapply (does_bind _ _ _ (fun _ s r l s' => (acted l = [QUERY] /\ r <> Ok tt) \/
         exists config s2 w l', l = (QUERY :: w) ++ l' /\ acted w = [] /\ config = reply CONFIG_RE w /\ Q3 config s2 r l' s'));
        [apply steps_does|]. intros _.
      eapply does_weaken; [eapply (does_bind _ _ _ Q3); [apply ask_does|]|].
      - intros config. unfold Q3. destruct (match config with Some m => is_default m | None => false end); [|exact IH].
        eapply does_weaken; [apply does_ret|]. intros s r l s' (-> & -> & _). auto.
      - cbn. intros s r l s' [(e & -> & H)|(config & l1 & l2 & s1 & -> & (w & -> & Hw & Hm) & H)].
        + left. split; [eapply answered_acts, H|discriminate].
        + right. exists config, s1, w, l2. auto. }
    intros s r l s' [(e & -> & Hp & _)|([] & l1 & l2 & s1 & -> & (_ & Hs) & H)].
    + split; [|discriminate]. cbn [replicate concat]. apply prefix_app_r. unfold round. apply prefix_app_r. exact Hp.
    + specialize (Hs eq_refl). change (map _ NORMALIZE_STEPS) with steps_sent in Hs.
      assert (Hpre : acted (l1 ++ l2) `prefix_of` concat (replicate (S n) round) -> r <> Ok tt -> normalized (S n) r (l1 ++ l2)).
      { intros Hp Hr. split; [exact Hp|]. contradiction. }
      destruct H as [[Hq Hr]|(config & s2 & w & l' & -> & Hw & -> & H)].
      * apply Hpre; [|exact Hr]. rewrite acted_app, Hs, Hq. cbn [replicate concat]. apply prefix_app_r. reflexivity.
      * unfold Q3 in H. destruct (reply CONFIG_RE w) as [m|] eqn:Em; [destruct (is_default m) eqn:Ed|].
        -- destruct H as (-> & ->). rewrite app_nil_r.
           assert (Ha : acted (l1 ++ QUERY :: w) = round).
           { rewrite acted_app, Hs. change (acted (QUERY :: w)) with (QUERY :: acted w). rewrite Hw. reflexivity. }
           split; [rewrite Ha; cbn [replicate concat]; apply prefix_app_r; reflexivity|]. intros _.
           split; [exists l1, w, m; auto|]. exists 1%nat. split; [lia|]. rewrite Ha. cbn [replicate concat]. rewrite app_nil_r. reflexivity.
        -- apply normalized_round; assumption.
        -- apply normalized_round; assumption.
Qed.

(** *** Reset *)

Definition onboard (e : channel_event) : bool := match e with EWrite _ | EBreak => true | _ => false end.

Lemma onboard_hellos k : forallb onboard (replicate k HELLO) = true.
Proof. induction k; [reflexivity|exact IHk]. Qed.

Lemma onboard_greeting n b l : greeting n b l -> forallb onboard l = true.
Proof.
  intros (k & _ & [->|[_ ->]]); [apply onboard_hellos|]. rewrite forallb_app. cbn. rewrite !onboard_hellos. reflexivity.
Qed.

Lemma onboard_rounds k : forallb onboard (concat (replicate k round)) = true.
Proof. induction k; [reflexivity|]. cbn [replicate concat]. rewrite forallb_app, IHk. reflexivity. Qed.

Lemma onboard_prefix l l' : l `prefix_of` l' -> forallb onboard l' = true -> forallb onboard l = true.
Proof. intros [k ->]. rewrite forallb_app. intros H. apply andb_prop in H as [H _]. exact H. Qed.

Definition VER : channel_event := EWrite ("!VER?" +:+ nl)%string.
Definition DEFAULTS : channel_event := EWrite ("!DEFAULTS" +:+ nl)%string.

(** The stored record dropped, when it is to be. *)
Definition dropping (clear_stored : bool) : list channel_event := if clear_stored then [DEFAULTS] else [].

Lemma finish_does clear_stored (info : BannerInfo) :
  does ((if clear_stored : bool then clear_stored_config E else mret tt) ;;! mret info) (fun _ r l _ =>
    acted l = dropping clear_stored /\ forall i, r = Ok i -> i = info).
Proof.
  eapply does_weaken.
  { apply (does_bind _ _ (fun _ r l _ => acted l = dropping clear_stored)
      (fun _ s r l s' => r = Ok info /\ l = [] /\ s' = s)); [|intros []; apply does_ret].
    destruct clear_stored; [|eapply does_weaken; [apply does_ret|]; intros ? ? ? ? (_ & -> & _); reflexivity].
    unfold clear_stored_config. eapply does_weaken; [eapply does_bind; [apply ask_does|]; intros ?; apply does_ret|].
    cbn. intros s r l s' [(e & _ & H)|(a & l1 & l2 & s1 & -> & H & (_ & -> & _))]; [|rewrite app_nil_r]; eapply answered_acts, H. }
  intros s r l s' [(e & -> & Ha)|([] & l1 & l2 & s1 & -> & Ha & (-> & -> & _))].
  - split; [exact Ha|discriminate].
  - rewrite app_nil_r. split; [exact Ha|]. congruence.
Qed.

(** All that happened to the board in [l], from its banner to its defaults:
    it introduced itself, was asked its version and said it, was normalized
    and confirmed it; [b] is what was in the buffer before. *)
Definition reset_done (n : nat) (clear_stored : bool) (b : string) (info : BannerInfo) (l : list channel_event) : Prop :=
  exists lh wv ln ld info0 k,
    l = lh ++ (VER :: wv) ++ ln ++ ld /\
    greeting n true (acted lh) /\ introduced b BANNER_RE info0 lh /\
    acted wv = [] /\ info = with_firmware (version_of E (reply VERSION_RE wv)) info0 /\
    (1 <= k <= 2)%nat /\ acted ln = concat (replicate k round) /\ confirmed ln /\
    acted ld = dropping clear_stored.

Lemma firmware_does : does (firmware_version E) (fun _ r l _ =>
  exists w, l = VER :: w /\ acted w = [] /\ forall v, r = Ok v -> v = version_of E (reply VERSION_RE w)).
Proof.
  unfold firmware_version. eapply does_weaken; [eapply does_bind; [apply ask_does|]; intros ?; apply does_ret|].
  cbn. intros s r l s' [(e & -> & w & -> & Hw & _)|(m & l1 & l2 & s1 & -> & (w & -> & Hw & Hm) & (-> & -> & _))].
  - exists w. repeat split; [exact Hw|]. discriminate.
  - exists w. rewrite app_nil_r. repeat split; [exact Hw|]. intros v [= <-]. rewrite (Hm m eq_refl). reflexivity.
Qed.

Lemma reset_body_does n (clear_stored : bool) : does
  (info <-! hello E n true BANNER_RE ;;
   version <-! firmware_version E ;;
   normalize E ;;!
   (if clear_stored then clear_stored_config E else mret tt) ;;!
   mret (with_firmware version info)) (fun s r l _ =>
  forallb onboard (acted l) = true /\ forall info, r = Ok info -> reset_done n clear_stored (rl_buf s) info l).
Proof.
  eapply does_weaken.
  { eapply does_bind; [apply hello_does|]. intros info. eapply does_bind; [apply firmware_does|]. intros v.
    eapply does_bind; [apply normalize_does|]. intros u. apply finish_does. }
  cbv beta. intros s r l s' [(e & -> & Hg & _)|(info0 & lh & l2 & s1 & -> & [Hg Hi] & H)].
  { split; [exact (onboard_greeting _ _ _ Hg)|discriminate]. }
  rewrite acted_app, forallb_app, (onboard_greeting _ _ _ Hg).
  assert (Hv : forall w, acted w = [] -> acted (VER :: w) = [VER]) by (intros w Hw; unfold acted in *; cbn; rewrite Hw; reflexivity).
  destruct H as [(e & -> & w & -> & Hw & _)|(v & lv & l3 & sv & -> & (w & -> & Hw & Ev) & H)].
  { rewrite (Hv w Hw). split; [reflexivity|discriminate]. }
  rewrite acted_app, forallb_app, (Hv w Hw).
  destruct H as [(e & -> & Hp & _)|([] & ln & ld & s2 & -> & [_ Hn] & [Ho Hf])].
  { split; [cbn; apply (onboard_prefix _ _ Hp), onboard_rounds|discriminate]. }
  destruct (Hn eq_refl) as [Hc (k & Hk & Ha)]. split.
  - rewrite acted_app, forallb_app, Ha, onboard_rounds, Ho. destruct clear_stored; reflexivity.
  - intros info ->. rewrite (Hf _ eq_refl), (Ev v eq_refl). exists lh, w, ln, ld, info0, k. auto 15.
Qed.

(** The channel closed after [m], whatever it did. *)
Lemma closed_does {A} (m : M relay A) Q : does m Q ->
  does (mfinally m close_channel) (fun s r l _ => exists l' s', l = l' ++ [EClose] /\ Q s r l' s').
Proof.
  intros H s. destruct (H s) as (l & E1 & HQ). unfold mstate, mresult, mfinally, close_channel, mmodify in *.
  destruct (m s) as [r s1]. cbn [fst snd] in *. exists (l ++ [EClose]). split; [|eauto].
  unfold emit. cbn [rl_trace]. rewrite E1. apply eq_sym, app_assoc.
Qed.

(** An opened channel's life. *)
Lemma opened_run {A} (m : M relay A) s :
  mbind (open_channel E) (fun _ => m) s =
  match ch_open E (rl_trace s) with Err e => (Err e, emit EOpen s) | Ok _ => m (emit EOpen s) end.
Proof. unfold mbind, open_channel, channel_op. destruct (ch_open E (rl_trace s)); reflexivity. Qed.

Lemma acts_emit e s : is_act e = true -> acts (emit e s) = acts s ++ [e].
Proof. intros He. unfold acts, emit. cbn [rl_trace]. rewrite acted_app. unfold acted at 2. cbn. rewrite He. reflexivity. Qed.
End Facts.

(** *** Errors *)

(** A channel that opens and takes every write. *)
Definition working (E : channel_env) : Prop :=
  (forall t, ch_open E t = Ok tt) /\ (forall t data, ch_write E t data = Ok tt).

(** Whatever goes wrong is a [RelayError]. *)
Definition only_relay {A} (m : M relay A) : Prop := forall s e, mresult m s = Err e -> e = RelayError.

Section Errors.
Variable E : channel_env.
Hypothesis E_works : working E.

Lemma only_ret {A} (a : A) : only_relay (mret a).
Proof. intros s e. discriminate. Qed.
Lemma only_raise {A} : only_relay (mraise (A:=A) RelayError).
Proof. intros s e [= <-]. reflexivity. Qed.
Lemma only_modify f : only_relay (mmodify f).
Proof. intros s e. discriminate. Qed.
Lemma only_gets {A} (f : relay -> A) : only_relay (mgets f).
Proof. intros s e. discriminate. Qed.
Lemma only_get : only_relay mget.
Proof. intros s e. discriminate. Qed.
Lemma only_bind {A B} (m : M relay A) (k : A -> M relay B) :
  only_relay m -> (forall a, only_relay (k a)) -> only_relay (mbind m k).
Proof.
  intros Hm Hk s e. specialize (Hm s). unfold mresult, mbind in *. destruct (m s) as [[a|e'] s1].
  - exact (Hk a s1 e).
  - intros [= ->]. apply Hm. reflexivity.
Qed.
Lemma only_finally {A} (m : M relay A) f : only_relay m -> (forall s, mresult f s = Ok tt) -> only_relay (mfinally m f).
Proof.
  intros Hm Hf s e. specialize (Hm s). unfold mresult, mfinally in *. destruct (m s) as [r s1]. specialize (Hf s1).
  destruct (f s1) as [r2 s2]. cbn [fst] in *. subst r2. apply Hm.
Qed.
Lemma only_for {A} (l : list A) body : (forall a, only_relay (body a)) -> only_relay (mfor l body).
Proof. intros H. induction l as [|x l IH]; [apply only_ret|]. cbn. apply only_bind; auto. Qed.
Lemma only_open : only_relay (open_channel E).
Proof. intros s e. unfold mresult, open_channel, channel_op. rewrite (proj1 E_works). discriminate. Qed.
Lemma only_write data : only_relay (write_nowait E data).
Proof. intros s e. unfold mresult, write_nowait, channel_op. rewrite (proj2 E_works). discriminate. Qed.
Hint Resolve only_ret only_raise only_modify only_gets only_get only_open only_write : relay.

Ltac only_all := repeat match goal with
  | |- forall _, _ => intro
  | |- only_relay (mbind _ _) => apply only_bind
  | |- only_relay (mfor _ _) => apply only_for
  | |- only_relay (match ?x with _ => _ end) => destruct x
  | |- _ => solve [auto with relay]
  end.

Lemma only_scan pattern arrivals : only_relay (scan pattern arrivals).
Proof. induction arrivals as [|[]]; cbn [scan]; only_all. Qed.
Hint Resolve only_scan : relay.
Lemma only_wait pattern : only_relay (wait_for E pattern).
Proof. unfold wait_for. only_all. Qed.
Hint Resolve only_wait : relay.
Lemma only_ask command pattern : only_relay (ask E command pattern).
Proof. unfold ask, clear. only_all. Qed.
Hint Resolve only_ask : relay.
Lemma only_ask_hello n pattern : only_relay (ask_hello E n pattern).
Proof. induction n; cbn [ask_hello]; only_all. Qed.
Hint Resolve only_ask_hello : relay.
Lemma only_break n pattern : only_relay (break_recovery E n pattern).
Proof.
  unfold break_recovery, clear. apply only_bind; [|only_all].
  intros s e. unfold mresult, mtry, mbind, send_break, channel_op. destruct (ch_break E (rl_trace s)); discriminate.
Qed.
Lemma only_hello n b pattern : only_relay (hello E n b pattern).
Proof. unfold hello. only_all. apply only_break. Qed.
Hint Resolve only_hello : relay.
Lemma only_normalize n : only_relay (normalize_rounds E n).
Proof. induction n; cbn [normalize_rounds]; unfold query; only_all. Qed.
Hint Resolve only_normalize : relay.

Lemma only_reset n clear_stored : only_relay (reset_and_normalize E n clear_stored).
Proof.
  unfold reset_and_normalize. only_all. apply only_finally; [|reflexivity].
  unfold new_reader, firmware_version, normalize, clear_stored_config. only_all.
Qed.
End Errors.

(** ** Properties *)

(** a banner is whole. Whatever pieces the board's output comes in, what
    [hello] returns is an announcement in one of the two dialects, found in
    the complete lines received since the buffer was last emptied, its
    serial number the whole run of hexadecimal digits: a character that is
    none follows it there. *)
Theorem banner_whole E n allow_break pattern s info : pattern = BANNER_RE \/ pattern = IDENTITY_RE ->
  mresult (hello E n allow_break pattern) s = Ok info ->
  exists l pre ch post name, rl_trace (mstate (hello E n allow_break pattern) s) = rl_trace s ++ l /\
    complete_lines (buffered (rl_buf s) l) = (pre +:+ bi_raw info +:+ String ch post)%string /\ is_hex ch = false /\
    announces (bi_raw info) (bi_role info) name (bi_serial info) /\ bi_device_name info = ch_decode E name.
Proof.
  intros Hp Hr. destruct (hello_does E n allow_break pattern s) as (l & El & _ & H). exists l.
  destruct (H info Hr) as (m & Hm & Hparse). clear H. set (text := complete_lines (buffered (rl_buf s) l)) in *.
  assert (Ht : tail_plus is_hex pattern) by (destruct Hp as [-> | ->]; [exact banner_tail|exact identity_tail]).
  assert (Hn : text <> "").
  { intros E0. rewrite E0 in Hm. destruct Hp as [-> | ->]; vm_compute in Hm; discriminate. }
  pose proof (complete_lines_end _ Hn) as Hl. fold text in Hl.
  destruct (search_terminated pattern is_hex text m newline Ht Hm Hl eq_refl) as (ch & post & Hpost & Hch).
  pose proof (search_correct pattern text) as Hc. rewrite Hm in Hc. destruct Hc as (Hd & _).
  destruct (parse_spec E (m_text m) info Hparse) as (pre' & post' & name & Htext & Ha & Hname & _ & Hstop).
  rewrite Hpost, Htext in Hd. destruct post' as [|ch' post'].
  - exists (m_pre m +:+ pre')%string, ch, post, name. split; [exact El|]. split; [|auto]. rewrite Hd, <- !Py.append_assoc. reflexivity.
  - exists (m_pre m +:+ pre')%string, ch', (post' +:+ String ch post)%string, name. split; [exact El|].
    split; [rewrite Hd, <- !Py.append_assoc; reflexivity|]. split; [apply Hstop; reflexivity|auto].
Qed.

(** A board parked in the data plane: deaf until a break, then answering, its
    banner in two pieces. *)
Definition board_reply (trace : list channel_event) : list arrival :=
  match List.filter is_act (rev trace) with
  | EWrite command :: _ =>
      if existsb (fun e => match e with EBreak => true | _ => false end) trace then
        if String.eqb command ("HELLO" +:+ nl)%string then
          [Arrived "DEVICE:RADIOBRIDGE:relay:getez:17845"; Arrived ("14240" +:+ nl)%string]
        else if String.eqb command ("!VER?" +:+ nl)%string then [Arrived ("# version: 1.4.2" +:+ nl)%string]
        else if String.eqb command ("?" +:+ nl)%string then
          [Arrived ("# channel: 0 group: 10 mode: RAW250 power: 7" +:+ nl)%string]
        else []
      else []
  | _ => []
  end.

Definition deaf_board : channel_env :=
  mkChannelEnv (fun _ => Ok tt) (fun _ _ => Ok tt) (fun _ => Ok tt) board_reply (fun s => s).

Definition fresh_relay : relay := mkRelay "" false [].

Lemma banner_whole_witness :
  exists l pre ch post, rl_trace (mstate (hello deaf_board 2 true BANNER_RE) fresh_relay) = l /\
    complete_lines (buffered "" l) = (pre +:+ "DEVICE:RADIOBRIDGE:relay:getez:1784514240" +:+ String ch post)%string /\
    is_hex ch = false.
Proof.
  assert (Hr : mresult (hello deaf_board 2 true BANNER_RE) fresh_relay =
    Ok (mkBanner "RADIOBRIDGE" "getez" "1784514240" "DEVICE:RADIOBRIDGE:relay:getez:1784514240" ""))
    by (vm_compute; reflexivity).
  destruct (banner_whole deaf_board 2 true BANNER_RE fresh_relay _ (or_introl eq_refl) Hr)
    as (l & pre & ch & post & name & H0 & H1 & H2 & _). exists l, pre, ch, post. split; [exact H0|]. split; [exact H1|exact H2].
Defined.

(** C20: what [reset_and_normalize] takes for a clean board, and what it does
    to get one, all of it on the one trace of what was written to and heard
    from the channel. A channel that opens is closed again however it ends,
    after nothing but writes and breaks. It returns only for a board that
    introduced itself, in the whole lines heard after at most [n] [HELLO]s,
    or since a break that followed exactly [n] unanswered ones and after at
    most [n] more; was asked its version and gave the one returned; was sent
    the five default-setting commands and [?], once or twice over; and
    reported, in the whole lines heard after the last [?], channel 0, group
    10, mode RAW250 and power 7. The stored record is dropped last, and only
    when asked. *)
Theorem relay_reset E n (clear_stored : bool) s :
  let o := reset_and_normalize E n clear_stored s in
  match ch_open E (rl_trace s) with
  | Err e => o.1 = Err e /\ rl_trace o.2 = rl_trace s ++ [EOpen]
  | Ok _ =>
      exists l, rl_trace o.2 = rl_trace s ++ EOpen :: l ++ [EClose] /\ forallb onboard (acted l) = true /\
        forall info, o.1 = Ok info -> reset_done E n clear_stored "" info l
  end.
Proof.
  intros o.
  set (body := (info <-! hello E n true BANNER_RE ;; version <-! firmware_version E ;; normalize E ;;!
     (if clear_stored then clear_stored_config E else mret tt) ;;! mret (with_firmware version info))).
  assert (Eo : o = match ch_open E (rl_trace s) with
                   | Err e => (Err e, emit EOpen s)
                   | Ok _ => mfinally (new_reader ;;! body) close_channel (emit EOpen s)
                   end) by exact (opened_run E _ s).
  clearbody o.
  destruct (ch_open E (rl_trace s)); [|subst o; split; reflexivity].
  assert (Hb : does (new_reader ;;! body) (fun s r l _ =>
    forallb onboard (acted l) = true /\ forall info, r = Ok info -> reset_done E n clear_stored "" info l)).
  { eapply does_weaken; [apply does_modify; [reflexivity|apply reset_body_does]|].
    cbv beta. intros s0 r l s' H. exact H. }
  destruct (closed_does _ _ Hb (emit EOpen s)) as (l & E1 & l' & s' & -> & H1 & H2).
  exists l'. subst o. unfold mstate, mresult in *. split; [|split; [exact H1|exact H2]].
  rewrite E1. cbn [rl_trace emit]. rewrite <- app_assoc. reflexivity.
Qed.

(** A deaf board rescued by the break: the trace of it. *)
Lemma relay_reset_witness :
  let o := reset_and_normalize deaf_board 1 true fresh_relay in
  exists l info, rl_trace o.2 = EOpen :: l ++ [EClose] /\ o.1 = Ok info /\ bi_firmware info = "1.4.2" /\
    reset_done deaf_board 1 true "" info l /\
    acted l = [HELLO; EBreak; HELLO; VER] ++ round ++ [DEFAULTS].
Proof.
  intros o.
  assert (Hi : exists info, o.1 = Ok info /\ bi_firmware info = "1.4.2") by (eexists; vm_compute; split; reflexivity).
  assert (Ha : acted (rl_trace o.2) = EOpen :: ([HELLO; EBreak; HELLO; VER] ++ round ++ [DEFAULTS]) ++ [EClose]) by (vm_compute; reflexivity).
  pose proof (relay_reset deaf_board 1 true fresh_relay) as H. cbv zeta in H. fold o in H.
  change (ch_open deaf_board (rl_trace fresh_relay)) with (@Ok unit tt) in H. cbv beta iota in H.
  destruct H as (l & H1 & _ & H3). destruct Hi as (info & Hi & Hv). exists l, info. split; [exact H1|].
  split; [exact Hi|]. split; [exact Hv|]. split; [exact (H3 info Hi)|].
  rewrite H1 in Ha. change (acted (rl_trace fresh_relay ++ EOpen :: l ++ [EClose])) with (EOpen :: acted (l ++ [EClose])) in Ha.
  rewrite acted_app in Ha.
  exact (app_inv_tail [EClose] (acted l) ([HELLO; EBreak; HELLO; VER] ++ round ++ [DEFAULTS]) (f_equal (@tl _) Ha)).
Defined.

(** A probe closes what it opened, and a board that stays silent, or whose
    reading fails, is [None], no error. *)
Lemma probe_closes E n s :
  match ch_open E (rl_trace s) with
  | Err e => probe_relay E n s = (Err e, emit EOpen s)
  | Ok _ => exists s', mstate (probe_relay E n) s = emit EClose s' /\
      (mresult (hello E n true IDENTITY_RE) (mkRelay "" false (rl_trace s ++ [EOpen])) = Err RelayError ->
       mresult (probe_relay E n) s = Ok None)
  end.
Proof.
  unfold probe_relay. unfold mstate, mresult. rewrite opened_run. destruct (ch_open E (rl_trace s)); [|reflexivity].
  unfold mfinally, close_channel.
  match goal with |- context [mbind new_reader ?k (emit EOpen s)] => set (m := mbind new_reader k) end.
  destruct (m (emit EOpen s)) as [r s'] eqn:Em. unfold mmodify at 1 2. exists s'. split; [reflexivity|]. intros Hh. cbn [fst].
  unfold m, new_reader in Em. unfold mbind at 1, mmodify in Em. cbn [rl_trace emit] in Em.
  set (s1 := mkRelay "" false (rl_trace s ++ [EOpen])) in *.
  unfold mbind at 1, mtry, mbind at 1 in Em. unfold mresult in Hh.
  destruct (hello E n true IDENTITY_RE s1) as [[info|e] s2]; cbn [fst] in Hh; [discriminate|].
  injection Hh as ->. cbn in Em. injection Em as <- _. reflexivity.
Qed.
