(* ===== verification/RelayPool.v ===== *)
(** * [registry/console_compat/relay_pool.py]: one relay per connection

    A raw TCP client of the pool port is given a free relay of this host,
    reset and at factory defaults, for the length of its connection.  The
    state is the servers' (store and locks), the relay's channel, and what
    the client was sent; the client and the board are a script of what the
    byte pipe sees, in order.  The pool's start, stop, accept loop and
    advertisement are in Servers. *)

From S2P Require Import Prelude Tables Trace Json Identity Virtual Regex Relay RelayFacts Store Locks Claims.
From S2P Require Import Daemon DaemonFacts Flash EventBus Peering Api ApiFacts.
Local Open Scope py_scope.

Definition crlf : string := String "013" (String "010" "").

(** [_is_relay_role]. *)
Definition is_relay_role (role : option string) : bool :=
  match role with
  | None | Some "" => false
  | Some role => let upper := Py.upper role in Py.contains upper "RELAY" || Py.contains upper "BRIDGE"
  end.

(** ** Which relay *)

Definition status_of (r : DeviceRecord) (s : astate) : option LockStatus := dget (dr_uid r) (a_locks s).
Definition locked_now (r : DeviceRecord) (s : astate) : bool :=
  match status_of r s with Some _ => true | None => false end.

Definition pick_free_local_relay (s : astate) : option DeviceRecord :=
  List.find (fun r => bool_decide (dr_state r = STATE_CONNECTED) && negb (no_port r) &&
                      is_relay_role (dr_role r) && negb (locked_now r s))
    (snapshot_local_devices (a_db s)).

Definition zcount {A} (l : list A) : Z := Z.of_nat (length l).

Definition local_relay_counts (s : astate) : Z * Z :=
  let relays := List.filter (fun r => is_relay_role (dr_role r)) (snapshot_local_devices (a_db s)) in
  (zcount relays, zcount (List.filter (fun r => locked_now r s) relays)).

Definition reject_message (total busy : Z) : string :=
  ("# ERROR: no relay available (" +:+ pretty total +:+ " devices, " +:+ pretty busy +:+ " in use)" +:+ crlf)%string.

(** ** A session *)

(** What the pipe sees, in order; the end of the list is the client gone. *)
Inductive pipe_event := FromClient (data : string) | FromBoard (data : string) | BoardFailed.

Record pool := mkPool { po_a : astate; po_relay : relay; po_sent : list string; po_closed : bool }.

Definition po_with_a (v : astate) (s : pool) : pool := mkPool v (po_relay s) (po_sent s) (po_closed s).
Definition po_with_relay (v : relay) (s : pool) : pool := mkPool (po_a s) v (po_sent s) (po_closed s).
Definition po_send (data : string) (s : pool) : pool := mkPool (po_a s) (po_relay s) (po_sent s ++ [data]) (po_closed s).
Definition po_close (s : pool) : pool := mkPool (po_a s) (po_relay s) (po_sent s) true.

Definition on_registry {A} (m : M astate A) : M pool A :=
  fun s => let (r, a) := m (po_a s) in (r, po_with_a a s).
Definition on_relay {A} (m : M relay A) : M pool A :=
  fun s => let (r, x) := m (po_relay s) in (r, po_with_relay x s).

Section Pool.
Variable A : api_env.
Variable E : channel_env.
Variable hello_attempts : nat.
(** Can the client still be sent to. *)
Variable can_send : list string -> bool.

Definition sendall (data : string) : M pool unit := fun s =>
  if can_send (po_sent s) then (Ok tt, po_send data s) else (Err OSError, s).

(** A failure to send is ignored, or ends the session. *)
Definition try_send (data : string) : M pool bool :=
  mtry (sendall data ;;! mret true) (fun e => match e with OSError => Some (mret false) | _ => None end).

Fixpoint pipe (events : list pipe_event) : M pool unit :=
  match events with
  | [] | BoardFailed :: _ => mret tt
  | FromClient data :: rest => on_relay (write_nowait E data) ;;! pipe rest
  | FromBoard data :: rest => try_send data ;;! pipe rest
  end.

Definition pump (events : list pipe_event) : M pool unit :=
  on_relay (open_channel E) ;;! mfinally (pipe events) (on_relay close_channel).

(** Under the lock: a free relay, locked for this session, and the counts. *)
Definition take_relay (holder : HolderRef) : M astate (option DeviceRecord * (Z * Z)) :=
  r <-! mgets pick_free_local_relay ;;
  match r with
  | Some r => a_acquire A (dr_uid r) KIND_RELAY holder None ;;! mret tt
  | None => mret tt
  end ;;!
  counts <-! mgets local_relay_counts ;;
  mret (r, counts).

Definition reject (total busy : Z) : M pool unit :=
  try_send (reject_message total busy) ;;! mmodify po_close.

(** The session on the relay that was taken. *)
Definition serve_relay (events : list pipe_event) : M pool unit :=
  banner <-! mtry (b <-! on_relay (reset_and_normalize E hello_attempts false) ;; mret (Some b))
               (fun e => match e with RelayError => Some (mret None) | _ => None end) ;;
  match banner with
  | None => mret tt
  | Some b =>
      sent <-! try_send (bi_raw b +:+ crlf)%string ;;
      if sent : bool then pump events else mret tt
  end.

Definition give_back (uid : string) (holder : HolderRef) : M pool unit :=
  mtry (on_relay (reset_and_normalize E hello_attempts true) ;;! mret tt)
    (fun e => match e with RelayError => Some (mret tt) | _ => None end) ;;!
  on_registry (others A ;;! a_release A uid holder ;;! mret tt) ;;!
  mmodify po_close.

Definition pool_connection (holder : HolderRef) (events : list pipe_event) : M pool unit :=
  taken <-! on_registry (take_relay holder) ;;
  match taken.1 with
  | None => reject taken.2.1 taken.2.2
  | Some r => mfinally (serve_relay events) (give_back (dr_uid r) holder)
  end.
End Pool.

(** ** Facts *)



Section Facts.
Variable A : api_env.
Variable E : channel_env.
Variable n : nat.
Variable can_send : list string -> bool.


Definition same_registry (s s' : pool) : Prop := po_a s' = po_a s.
#[local] Instance same_registry_preorder : PreOrder same_registry.
Proof. split; [intros s; reflexivity|]. intros s1 s2 s3. unfold same_registry. congruence. Qed.












Hypothesis E_works : working E.




(** *** What goes through *)



Hypothesis listening : forall sent, can_send sent = true.



End Facts.

Section Ends.
Variable A : api_env.
Variable E : channel_env.
Variable n : nat.
Variable can_send : list string -> bool.


(** The state a client's session starts from: a relay picked and locked. *)
Definition taken (h : HolderRef) (s : pool) : pool := po_with_a (mstate (take_relay A h) (po_a s)) s.


End Ends.

(** ** Properties *)


(** ** An example relay *)

Definition relay_db : db :=
  mstate (apply_probe_result "9906" (Some (mkProbeResult "RADIOBRIDGE" "relay" "getez" "1784514240"
    "DEVICE:RADIOBRIDGE:relay:getez:1784514240")) 4)
    (mstate (upsert_attached "9906" "/dev/ttyACM0" "0d28:0204" 3) empty_db).

Definition relay_host : pool :=
  mkPool (mkAstate (mkFstate (initial relay_db) [] []) empty_bus [] [] [] [] [] [] [] []) fresh_relay [] false.

Definition pool_holder (ref : string) (pid : Z) : HolderRef :=
  mkHolder "local" ("console-compat-pool:" +:+ ref)%string (Some pid) None.



(** A port that cannot be opened: the exception of the final reset skips the
    release, so the relay stays locked by a session that has ended, and its
    client is not closed. *)
Lemma pool_leaks_lock :
  let closed_port := mkChannelEnv (fun _ => Err ConnectError) (fun _ _ => Ok tt) (fun _ => Ok tt) (fun _ => []) (fun s => s) in
  let o := pool_connection example_api closed_port 1 (fun _ => true) (pool_holder "a" 7) [] relay_host in
  o.1 = Err ConnectError /\ (ls_holder <$> dget "9906" (a_locks (po_a o.2))) = Some (pool_holder "a" 7) /\
  po_closed o.2 = false.
Proof. intros E o. split; [vm_compute; reflexivity|]. split; vm_compute; reflexivity. Qed.
