(* ===== verification/NamesApi.v ===== *)
(** * [registry/console_compat/names_api.py]: the names over HTTP

    [GET], [PUT] and [DELETE] of [/names/<name>] on the name registry, with
    the replication events they fire: routing, body limits, the parsing of
    an address, the three handlers and the error answers.  The server's start
    and stop are in Servers; [unquote] and [json.loads] are the
    standard library's, as functions. *)

From S2P Require Import Prelude Tables Naming Json Identity Virtual Store StoreNames Locks Claims.
From S2P Require Import Daemon Flash EventBus Peering Api.
Local Open Scope py_scope.

Definition CHANNEL_MIN : Z := 0.
Definition CHANNEL_MAX : Z := 83.
Definition GROUP_MIN : Z := 0.
Definition GROUP_MAX : Z := 255.
Definition MAX_BODY : Z := 64 * 1024.

Definition entry_payload (e : Entry) : json :=
  JObj [("channel", JInt (en_channel e)); ("group", JInt (en_group e)); ("source", JStr (en_source e))].

Definition http_error (code : string) : json := JObj [("error", JObj [("code", JStr code); ("message", message)])].
Definition bad_request : Z * json := (400, http_error "bad_request").

Record http_request := mkRequest {
  rq_method : string;
  rq_path : string;
  rq_length : option string;      (* the [Content-Length] header *)
  rq_input : string }.            (* what can be read after the headers *)

Section NamesApi.
Variable A : api_env.
Variable unquote : string -> string.
Variable json_loads : string -> result json.

(** [int(...)] of a body's field. *)
Definition whole_number (v : json) : result Z :=
  match py_int v with
  | Ok z => Ok z
  | Err TypeError | Err ValueError => Err ValueError
  | Err e => Err e
  end.

Definition parse_pair (body : string) : result (Z * Z) :=
  let! data := (if String.eqb body "" then Ok (JObj []) else json_loads body) in
  match data with
  | JObj d =>
      match dget "channel" d, dget "group" d with
      | Some c, Some g =>
          let! channel := whole_number c in
          let! grp := whole_number g in
          if negb ((CHANNEL_MIN <=? channel) && (channel <=? CHANNEL_MAX)) then Err ValueError
          else if negb ((GROUP_MIN <=? grp) && (grp <=? GROUP_MAX)) then Err ValueError
          else Ok (channel, grp)
      | _, _ => Err ValueError
      end
  | _ => Err ValueError
  end.

(** [except ValueError: return 400]. *)
Definition or_bad {B} (m : M astate B) (k : B -> M astate (Z * json)) : M astate (Z * json) :=
  r <-! mtry (x <-! m ;; mret (Some x)) (fun e => if is_value_error e then Some (mret None) else None) ;;
  match r with None => mret bad_request | Some x => k x end.

Definition resolve_now (name : string) : M astate Entry :=
  in_d (now <-! wall_now A ;; in_store (StoreNames.resolve name now)).

Definition handle_get (name : string) : M astate (Z * json) :=
  or_bad (existing <-! mgets (fun s => get_name name (a_db s)) ;;
          existing <-! mlift existing ;;
          e <-! resolve_now name ;;
          mret (existing, e))
    (fun found =>
       match found.1 with
       | None => mmodify (a_name_event (en_name found.2, Some found.2))
       | Some _ => mret tt
       end ;;!
       mret (200, entry_payload found.2)).

Definition handle_put (name body : string) : M astate (Z * json) :=
  or_bad (mlift (parse_pair body)) (fun pair =>
    or_bad (in_d (now <-! wall_now A ;; in_store (StoreNames.set name pair.1 pair.2 now))) (fun e =>
      mmodify (a_name_event (en_name e, Some e)) ;;! mret (200, entry_payload e))).

Definition handle_delete (name : string) : M astate (Z * json) :=
  or_bad (in_db (clear name)) (fun _ =>
    mmodify (a_name_event (name, None)) ;;!
    others A ;;!
    e <-! resolve_now name ;;
    mmodify (a_name_event (en_name e, Some e)) ;;!
    mret (200, entry_payload e)).

(** [_extract_name]. *)
Definition extract_name (path : string) : option string :=
  let path := (Py.partition "?" path).1.1 in
  if negb (Py.startswith path "/names/") then None
  else
    let raw := Py.sdrop 7 path in
    if String.eqb raw "" || Py.sexists (Ascii.eqb "/") raw then None else Some (unquote raw).

(** [_read_body]: the body, or the error to answer. *)
Definition read_body (rq : http_request) : result (string + (Z * json)) :=
  let header := match rq_length rq with Some "" | None => "0" | Some h => h end in
  match int_of_str header with
  | Err ValueError => Ok (inr bad_request)
  | Err e => Err e
  | Ok length =>
      Ok (if length <? 0 then inr bad_request
          else if MAX_BODY <? length then inr (413, http_error "too_large")
          else inl (Py.stake (Z.to_nat length) (rq_input rq)))
  end.

Definition handle (rq : http_request) (name : string) : M astate (Z * json) :=
  if String.eqb (rq_method rq) "GET" then handle_get name
  else if String.eqb (rq_method rq) "PUT" then
    body <-! mlift (read_body rq) ;;
    match body with
    | inr err => mret err
    | inl body => handle_put name body
    end
  else handle_delete name.

(** [_dispatch]. *)
Definition names_dispatch (rq : http_request) : M astate (Z * json) :=
  match extract_name (rq_path rq) with
  | None => mret (404, http_error "not_found")
  | Some name => mtry (handle rq name) (fun _ => Some (mret (500, http_error "internal_error")))
  end.
End NamesApi.
