(* ===== verification/NamesFacts.v ===== *)
(** * What the names API answers

    Lemmas that run each handler of NamesApi over the registry, and the
    property that states its answers, the row they leave and the events
    they fire. *)

From S2P Require Import Prelude Tables Naming Json Identity Virtual Store StoreNames Locks Claims.
From S2P Require Import Daemon DaemonFacts Flash FlashFacts EventBus Peering Api ApiFacts NamesApi.
Local Open Scope py_scope.

Section NamesApi.
Variable A : api_env.
Variable unquote : string -> string.
Variable json_loads : string -> result json.

(** The state with another database, one tick of the clock later. *)
Definition now_db (d : db) (s : astate) : astate := mstate (in_d (mput (with_db d (tick (a_d s))))) s.
Definition clock (s : astate) : Z := e_wall (ae_d A) (dm_tick (a_d s)).

Lemma at_now {B} (m : Z -> M db B) s :
  in_d (now <-! wall_now A ;; in_store (m now)) s =
  (mresult (m (clock s)) (a_db s), now_db (mstate (m (clock s)) (a_db s)) s).
Proof.
  unfold in_d, in_flash, in_daemon, mbind, wall_now, read, in_store, now_db, clock, mresult, mstate, a_db, a_d.
  cbn [tick dm_db dm_tick]. destruct (m _ _) as [r d]. reflexivity.
Qed.

Lemma now_db_db d s : a_db (now_db d s) = d.
Proof. reflexivity. Qed.
Lemma now_db_names d s : a_names (now_db d s) = a_names s.
Proof. reflexivity. Qed.
Lemma name_event_db e s : a_db (a_name_event e s) = a_db s.
Proof. reflexivity. Qed.

(** What an answer 200 promises: the row it shows is the registry's, and
    the last event is the row's, unless nothing was published. *)
Definition shows (v : string) (e : Entry) (body : json) (s : astate) : Prop :=
  get_name_row v (a_db s) = Some e /\ body = entry_payload e.

(** Nothing but the row of [v] differs. *)
Definition only_row (v : string) (s s' : astate) : Prop :=
  devices (a_db s') = devices (a_db s) /\ peers (a_db s') = peers (a_db s) /\
  forall w, w <> v -> get_name_row w (a_db s') = get_name_row w (a_db s).

Definition quiet (s s' : astate) : Prop := a_db s' = a_db s /\ a_names s' = a_names s.

(** The registry's resolution at some time, as an equation. *)
Lemma resolve_now_run name v s : validate name = Ok v ->
  exists e, resolve_now A name s = (Ok e, mstate (resolve_now A name) s) /\
    let s' := mstate (resolve_now A name) s in
    en_name e = v /\ get_name_row v (a_db s') = Some e /\ a_names s' = a_names s /\ only_row v s s' /\
    Ok (en_channel e, en_group e) = location v (a_db s) /\
    (get_name_row v (a_db s) = None -> en_source e = SOURCE_DERIVED) /\
    (forall e', get_name_row v (a_db s) = Some e' -> e = e' /\ a_db s' = a_db s).
Proof.
  intros Hv. unfold mstate, resolve_now. rewrite at_now. unfold mresult, mstate. rewrite resolve_run, Hv.
  unfold location. destruct (get_name_row v (a_db s)) as [e|] eqn:Hg.
  - exists e. split; [reflexivity|]. cbv zeta. cbn [snd fst]. unfold only_row. rewrite now_db_db, now_db_names.
    split; [exact (get_name_row_key _ _ _ Hg)|]. split; [exact Hg|]. repeat split; congruence.
  - destruct (name_to_radio_valid _ _ Hv) as (n & Ha & _). rewrite Ha. destruct (address n) as [c g].
    eexists. split; [reflexivity|]. cbv zeta. cbn [snd fst]. unfold only_row. rewrite now_db_db, now_db_names.
    unfold get_name_row, set_names in *. cbn [names devices peers]. rewrite tfind_app, Hg, tfind_cons.
    rewrite bool_decide_true by reflexivity. repeat split; try discriminate.
    intros w Hw. rewrite tfind_app, tfind_cons. rewrite bool_decide_false by (cbn [en_name mk_entry]; congruence).
    destruct (tfind en_name w (names (a_db s))); reflexivity.
Qed.

Lemma validate_error name e : validate name = Err e -> e = ValueError.
Proof. unfold validate. destruct (Naming.NAME_RE_match (normalize name)); congruence. Qed.

Lemma resolve_now_bad name e s : validate name = Err e ->
  mresult (resolve_now A name) s = Err ValueError /\ quiet s (mstate (resolve_now A name) s).
Proof.
  intros Hv. pose proof (validate_error _ _ Hv) as ->. unfold mresult, mstate, quiet, resolve_now.
  rewrite at_now. unfold mresult, mstate. rewrite resolve_run, Hv. auto.
Qed.

(** ** The handlers *)

Lemma or_bad_run {B} (m : M astate B) k s : or_bad m k s =
  match m s with
  | (Ok x, s') => k x s'
  | (Err e, s') => (if is_value_error e then Ok bad_request else Err e, s')
  end.
Proof.
  unfold or_bad, mtry, mbind, mret. destruct (m s) as [[x|e] s']; [reflexivity|].
  destruct (is_value_error e); reflexivity.
Qed.

Definition refused (res : result (Z * json)) (s s' : astate) : Prop := res = Ok bad_request /\ quiet s s'.

Lemma handle_get_spec name s :
  let '(res, s') := handle_get A name s in
  match validate name with
  | Err _ => refused res s s'
  | Ok v => exists e body, res = Ok (200, body) /\ shows v e body s' /\ only_row v s s' /\
      match get_name_row v (a_db s) with
      | Some _ => quiet s s'
      | None => name_to_radio v = Ok (en_channel e, en_group e) /\ en_source e = SOURCE_DERIVED /\
                a_names s' = a_names s ++ [(v, Some e)]
      end
  end.
Proof.
  unfold handle_get. rewrite or_bad_run. unfold mbind, mgets, mlift, mret, mmodify, get_name.
  destruct (validate name) as [v|x] eqn:Hv; cbn [result_bind].
  - destruct (resolve_now_run name v s Hv) as (e & -> & He). cbv zeta in He.
    set (s' := mstate (resolve_now A name) s) in *. destruct He as (Hn & Hg & Ha & Ho & Hl & Hd & Hs).
    unfold location in Hl. destruct (get_name_row v (a_db s)) as [e'|] eqn:Hr; cbn [fst snd];
      exists e, (entry_payload e).
    + destruct (Hs e' eq_refl) as [-> Hq]. unfold shows, quiet. auto.
    + unfold shows, only_row in *. rewrite !name_event_db. cbn [a_names a_name_event]. rewrite Ha, Hn. auto 10.
  - pose proof (validate_error _ _ Hv) as ->. unfold refused, quiet. cbn. auto.
Qed.

Lemma handle_put_spec name body s :
  let '(res, s') := handle_put A json_loads name body s in
  match parse_pair json_loads body, validate name with
  | Ok (c, g), Ok v => exists e, res = Ok (200, entry_payload e) /\ get_name_row v (a_db s') = Some e /\
      (en_channel e, en_group e, en_source e) = (c, g, SOURCE_REGISTRY) /\ only_row v s s' /\
      a_names s' = a_names s ++ [(v, Some e)]
  | Err x, _ => if is_value_error x then refused res s s' else res = Err x /\ quiet s s'
  | _, Err _ => refused res s s'
  end.
Proof.
  unfold handle_put, refused, quiet. rewrite or_bad_run. unfold mlift at 1.
  destruct (parse_pair json_loads body) as [[c g]|x]; [|destruct (is_value_error x); auto].
  cbn [fst snd]. rewrite or_bad_run, at_now. unfold mresult, mstate. rewrite set_run.
  destruct (validate name) as [v|x] eqn:Hv; cbn [fst snd];
    [|pose proof (validate_error _ _ Hv) as ->; cbn; auto].
  unfold mbind, mmodify, mret.
  eexists. split; [reflexivity|]. cbn [fst snd]. unfold only_row. rewrite name_event_db, now_db_db.
  unfold get_name_row, set_names. cbn [names devices peers]. fold (get_name_row v (a_db s)).
  assert (Hk : forall r, en_name r = v -> en_name (mk_entry v c g SOURCE_REGISTRY (clock s)) = v) by reflexivity.
  split; [|split; [reflexivity|split; [|reflexivity]]].
  - unfold get_name_row. destruct (tfind en_name v (names (a_db s))) as [e|] eqn:Hg.
    + rewrite tfind_tupd_eq, Hg by exact Hk. reflexivity.
    + rewrite tfind_app, Hg, tfind_cons, bool_decide_true; reflexivity.
  - repeat split. intros w Hw. unfold get_name_row. destruct (tfind en_name v (names (a_db s))) as [e|].
    + apply tfind_tupd_ne; auto.
    + rewrite tfind_app, tfind_cons, bool_decide_false by (cbn [en_name mk_entry]; congruence).
      destruct (tfind en_name w (names (a_db s))); reflexivity.
Qed.

(** The state in which a clear leaves the registry, and the one in which
    the re-derivation finds it. *)
Definition cleared (name v : string) (s : astate) : astate :=
  a_name_event (name, None) (mstate (in_db (clear name)) s).

Lemma in_db_run {B} (m : M db B) s :
  mresult (in_db m) s = mresult m (a_db s) /\ a_db (mstate (in_db m) s) = mstate m (a_db s) /\
  a_names (mstate (in_db m) s) = a_names s.
Proof.
  unfold mresult, mstate, in_db, in_d, in_flash, in_daemon, in_store, a_db, a_d.
  destruct (m (dm_db (fl_d (a_f s)))) as [r d]. auto.
Qed.

Lemma handle_delete_spec name s :
  let '(res, s') := handle_delete A name s in
  match validate name with
  | Err _ => refused res s s'
  | Ok v => exists e, res = Ok (200, entry_payload e) /\ get_name_row v (a_db s') = Some e /\
      get_name_row v (a_db (cleared name v s)) = None /\ only_row v s (cleared name v s) /\
      a_names (cleared name v s) = a_names s ++ [(name, None)] /\
      let s1 := ae_other_threads A (cleared name v s) in
      Ok (en_channel e, en_group e) = location v (a_db s1) /\ only_row v s1 s' /\
      a_names s' = a_names s1 ++ [(v, Some e)]
  end.
Proof.
  pose proof (in_db_run (clear name) s) as (Hr & Hd & Hn).
  unfold handle_delete, refused, quiet. rewrite or_bad_run. unfold mbind, mret, others, mmodify.
  unfold mresult in Hr. unfold cleared, mstate in *. destruct (in_db (clear name) s) as [r s0] eqn:E. cbn [fst snd] in *.
  unfold mresult, mstate in Hr, Hd. rewrite clear_run in Hr, Hd.
  destruct (validate name) as [v|x] eqn:Hv; cbn [fst snd] in Hr, Hd; subst r.
  - destruct (resolve_now_run name v (ae_other_threads A (a_name_event (name, None) s0)) Hv) as (e & -> & He).
    cbv zeta in He. destruct He as (Hk & Hg & Ha & Ho & Hl & _).
    exists e. cbn [fst snd]. split; [reflexivity|]. rewrite !name_event_db. split; [exact Hg|].
    unfold only_row in *. rewrite !name_event_db, Hd. unfold get_name_row, set_names. cbn [names devices peers].
    split; [apply tfind_tdel_eq|]. split; [repeat split; intros w Hw; apply tfind_tdel_ne; auto|].
    split; [exact (f_equal (fun l => l ++ [(name, None)]) Hn)|].
    cbv zeta. split; [exact Hl|]. split; [exact Ho|]. cbn [a_names a_name_event]. rewrite Ha, Hk. reflexivity.
  - pose proof (validate_error _ _ Hv) as ->. cbn. auto.
Qed.

(** ** The dispatcher *)

Lemma handle_any rq name s :
  (exists status body, mresult (handle A json_loads rq name) s = Ok (status, body) /\
     (status = 200 \/ ((status = 400 \/ status = 413) /\ quiet s (mstate (handle A json_loads rq name) s)))) \/
  (exists e, mresult (handle A json_loads rq name) s = Err e /\ quiet s (mstate (handle A json_loads rq name) s)).
Proof.
  unfold mresult, mstate, handle. destruct (String.eqb (rq_method rq) "GET").
  { pose proof (handle_get_spec name s) as H. destruct (handle_get A name s) as [res s'].
    left. destruct (validate name) as [v|x].
    - destruct H as (e & body & -> & _). eauto.
    - destruct H as [-> H]. unfold bad_request. eauto 10. }
  destruct (String.eqb (rq_method rq) "PUT").
  { unfold mbind, mlift. destruct (read_body rq) as [[body|[status err]]|x] eqn:Hb; [| |right; unfold quiet; eauto].
    - pose proof (handle_put_spec name body s) as H. destruct (handle_put A json_loads name body s) as [res s'].
      destruct (parse_pair json_loads body) as [[c g]|x].
      + destruct (validate name) as [v|x].
        * destruct H as (e & -> & _). left. eauto 10.
        * destruct H as [-> H]. left. unfold bad_request. eauto 10.
      + destruct (is_value_error x); destruct H as [-> H]; [left; unfold bad_request; eauto 10|right; eauto].
    - left. exists status, err. split; [reflexivity|]. right. split; [|split; reflexivity].
      unfold read_body, bad_request in Hb. destruct (int_of_str _) as [z|x]; [|destruct x; try discriminate].
      + destruct (z <? 0); [|destruct (MAX_BODY <? z)]; inversion Hb; subst; auto.
      + inversion Hb; subst; auto. }
  pose proof (handle_delete_spec name s) as H. destruct (handle_delete A name s) as [res s'].
  left. destruct (validate name) as [v|x].
  - destruct H as (e & -> & _). eauto.
  - destruct H as [-> H]. unfold bad_request. eauto 10.
Qed.

Lemma parse_pair_bounds body c g : parse_pair json_loads body = Ok (c, g) ->
  CHANNEL_MIN <= c <= CHANNEL_MAX /\ GROUP_MIN <= g <= GROUP_MAX.
Proof.
  unfold parse_pair. intros H. destruct (if String.eqb body "" then _ else _) as [d|]; [|discriminate].
  cbn [result_bind] in H. destruct d as [ | | | | | |d]; try discriminate.
  destruct (dget "channel" d) as [jc|]; [|discriminate]. destruct (dget "group" d) as [jg|]; [|discriminate].
  destruct (whole_number jc) as [c'|]; [|discriminate]. destruct (whole_number jg) as [g'|]; [|discriminate].
  cbn [result_bind] in H.
  destruct ((CHANNEL_MIN <=? c') && (c' <=? CHANNEL_MAX)) eqn:Hc; [|discriminate].
  destruct ((GROUP_MIN <=? g') && (g' <=? GROUP_MAX)) eqn:Hg; [|discriminate].
  injection H as <- <-. lia.
Qed.

Lemma names_dispatch_run rq name s : extract_name unquote (rq_path rq) = Some name ->
  names_dispatch A unquote json_loads rq s =
  (match mresult (handle A json_loads rq name) s with
   | Ok a => Ok a
   | Err _ => Ok (500, http_error "internal_error")
   end, mstate (handle A json_loads rq name) s).
Proof.
  intros Hx. unfold names_dispatch, mresult, mstate, mtry, mret. rewrite Hx.
  destruct (handle A json_loads rq name s) as [[a|e] s']; reflexivity.
Qed.
End NamesApi.

(** What each method of a request answered with 200 did. *)
Definition done_by (A : api_env) (json_loads : string -> result json) (rq : http_request) (name v : string) (e : Entry) (s s' : astate) : Prop :=
  if String.eqb (rq_method rq) "GET" then
    only_row v s s' /\
    match get_name_row v (a_db s) with
    | Some _ => quiet s s'
    | None => name_to_radio v = Ok (en_channel e, en_group e) /\ en_source e = SOURCE_DERIVED /\
              a_names s' = a_names s ++ [(v, Some e)]
    end
  else if String.eqb (rq_method rq) "PUT" then
    only_row v s s' /\
    (exists inp, read_body rq = Ok (inl inp) /\ parse_pair json_loads inp = Ok (en_channel e, en_group e)) /\
    CHANNEL_MIN <= en_channel e <= CHANNEL_MAX /\ GROUP_MIN <= en_group e <= GROUP_MAX /\
    en_source e = SOURCE_REGISTRY /\ a_names s' = a_names s ++ [(v, Some e)]
  else
    let s0 := cleared name v s in
    let s1 := ae_other_threads A s0 in
    get_name_row v (a_db s0) = None /\ only_row v s s0 /\ a_names s0 = a_names s ++ [(name, None)] /\
    Ok (en_channel e, en_group e) = location v (a_db s1) /\ only_row v s1 s' /\
    a_names s' = a_names s1 ++ [(v, Some e)].

Lemma handle_200 A json_loads rq name body s s' : handle A json_loads rq name s = (Ok (200, body), s') ->
  exists v e, validate name = Ok v /\ get_name_row v (a_db s') = Some e /\ body = entry_payload e /\
    done_by A json_loads rq name v e s s'.
Proof.
  intros Eh. unfold handle in Eh. unfold done_by. destruct (String.eqb (rq_method rq) "GET").
  { pose proof (handle_get_spec A name s) as H. rewrite Eh in H. destruct (validate name) as [v|x].
    - destruct H as (e & b & [= <-] & [Hg Hb] & Ho & Hr). exists v, e. auto.
    - destruct H as [H _]. discriminate H. }
  destruct (String.eqb (rq_method rq) "PUT").
  { unfold mbind, mlift in Eh. destruct (read_body rq) as [[inp|[status err]]|x] eqn:Hb; [| |discriminate Eh].
    - pose proof (handle_put_spec A json_loads name inp s) as H. rewrite Eh in H.
      destruct (parse_pair json_loads inp) as [[c g]|x] eqn:Hp; [|destruct (is_value_error x); destruct H as [H _]; discriminate H].
      destruct (validate name) as [v|x]; [|destruct H as [H _]; discriminate H].
      destruct H as (e & [= ->] & Hg & [= <- <- Hs] & Ho & Hn). pose proof (parse_pair_bounds _ _ _ _ Hp). exists v, e.
      assert (exists i, @Ok (string + (Z * json)) (inl inp) = Ok (inl i) /\ parse_pair json_loads i = Ok (en_channel e, en_group e)) by eauto.
      split; [reflexivity|]. tauto.
    - exfalso. injection Eh as -> _ _. unfold read_body in Hb.
      destruct (int_of_str _) as [z|[]]; try discriminate.
      destruct (z <? 0); [|destruct (MAX_BODY <? z)]; discriminate. }
  pose proof (handle_delete_spec A name s) as H. rewrite Eh in H. destruct (validate name) as [v|x].
  - destruct H as (e & [= ->] & H). exists v, e. cbv zeta in H. intuition auto.
  - destruct H as [H _]. discriminate H.
Qed.

(** The requests a well-formed name is answered 200 for. *)
Definition well_asked (json_loads : string -> result json) (rq : http_request) : Prop :=
  rq_method rq = "PUT"%string ->
  exists inp c g, read_body rq = Ok (inl inp) /\ parse_pair json_loads inp = Ok (c, g).

Lemma handle_well_asked A json_loads rq name v s : validate name = Ok v -> well_asked json_loads rq ->
  exists body, mresult (handle A json_loads rq name) s = Ok (200, body).
Proof.
  intros Hv Hw. unfold mresult, handle. destruct (String.eqb_spec (rq_method rq) "GET") as [_|_].
  { pose proof (handle_get_spec A name s) as H. destruct (handle_get A name s) as [res s'].
    rewrite Hv in H. destruct H as (en & body & -> & _). eauto. }
  destruct (String.eqb_spec (rq_method rq) "PUT") as [Em|_].
  { destruct (Hw Em) as (inp & c & g & Hb & Hp). unfold mbind, mlift. rewrite Hb.
    pose proof (handle_put_spec A json_loads name inp s) as H. destruct (handle_put A json_loads name inp s) as [res s'].
    rewrite Hp, Hv in H. destruct H as (e & -> & _). eauto. }
  pose proof (handle_delete_spec A name s) as H. destruct (handle_delete A name s) as [res s'].
  rewrite Hv in H. destruct H as (e & -> & _). eauto.
Qed.

(** C38: the names API answers every request, with 200, 400, 404, 413 or
    500, whatever the body's bytes, its length header and the JSON library
    say.  An answer other than 200 leaves the registry and the events as
    they were.  With 200 the answer shows the row the registry now holds
    for the normalized name, and none but that row differs, but for what
    other threads do in the middle of a [DELETE]; a [GET] changes and
    publishes nothing when the row was there, whatever address it holds, and
    otherwise publishes the row it created at its derived address; a [PUT]
    stored and published the pair its body gives as an explicit row, in
    [0..83] x [0..255]; a [DELETE] dropped the row, published that, and
    answered what the name then resolved to, publishing it again.  A
    well-formed name, and for [PUT] a body with a pair in range, is always
    answered with 200. *)
Theorem names_api_answers A unquote json_loads rq s :
  let '(res, s') := names_dispatch A unquote json_loads rq s in
  exists status body, res = Ok (status, body) /\
    (status <> 200 -> In status [400; 404; 413; 500] /\ quiet s s') /\
    (status = 200 -> exists name v e,
       extract_name unquote (rq_path rq) = Some name /\ validate name = Ok v /\
       get_name_row v (a_db s') = Some e /\ body = entry_payload e /\ done_by A json_loads rq name v e s s') /\
    (forall name v, extract_name unquote (rq_path rq) = Some name ->
       validate name = Ok v -> well_asked json_loads rq -> status = 200).
Proof.
  destruct (extract_name unquote (rq_path rq)) as [name|] eqn:Hx.
  - rewrite (names_dispatch_run _ _ _ _ _ _ Hx).
    pose proof (handle_any A json_loads rq name s) as H.
    pose proof (fun v => handle_well_asked A json_loads rq name v s) as Hwell. unfold mresult, mstate in *.
    destruct (handle A json_loads rq name s) as [res s'] eqn:Eh. cbn [fst snd] in *.
    destruct H as [(status & body & -> & H)|(e & -> & Hq)].
    + exists status, body. split; [reflexivity|]. split; [|split].
      * intros Hs. cbn [In]. destruct H as [H|([H|H] & Hq)]; [congruence| |]; auto.
      * intros ->. destruct (handle_200 _ _ _ _ _ _ _ Eh) as (v & e & Hv). exists name, v, e. auto.
      * intros n v [= <-] Hv Hw. destruct (Hwell v Hv Hw) as [b [= -> _]]. reflexivity.
    + exists 500, (http_error "internal_error"). split; [reflexivity|]. split; [cbn [In]; auto 10|].
      split; [discriminate|]. intros n v [= <-] Hv Hw. destruct (Hwell v Hv Hw) as [b [=]].
  - unfold names_dispatch. rewrite Hx. exists 404, (http_error "not_found"). split; [reflexivity|].
    split; [cbn [In]; unfold quiet; auto 10|]. split; [discriminate|]. discriminate.
Qed.

(** A body whose channel is an infinite number, which JSON as Python reads
    it allows, is answered with 500 where any other non-number is a 400. *)
Lemma infinite_channel_fails A unquote name v s d : validate name = Ok v ->
  extract_name unquote ("/names/" ++ name)%string = Some name ->
  mresult (names_dispatch A unquote (fun _ => Ok (JObj (("channel", JFloat (FInf true)) :: ("group", JInt d) :: []))) (mkRequest "PUT" ("/names/" ++ name) (Some "1") "x")) s
  = Ok (500, http_error "internal_error").
Proof. intros _ Hx. unfold names_dispatch, mresult. cbn [rq_path]. rewrite Hx. reflexivity. Qed.

(** The names of the example server, over HTTP. *)
Definition example_loads (body : string) : result json :=
  if String.eqb body "twelve" then Ok (JObj [("channel", JInt 12); ("group", JFloat (FFin 9 2))]) else Err ValueError.
Definition example_names (rq : http_request) : result (Z * json) * astate :=
  names_dispatch example_api (fun s => s) example_loads rq idle_server.

Example get_derives :
  let '(res, s) := example_names (mkRequest "GET" "/names/Zagip?x" None "") in
  res = Ok (200, JObj [("channel", JInt 63); ("group", JInt 96); ("source", JStr SOURCE_DERIVED)]) /\
  map fst (a_names s) = ["zagip"%string].
Proof. vm_compute. auto. Qed.

(** A group of 4.5 is truncated to 4, not refused. *)
Example put_truncates :
  fst (example_names (mkRequest "PUT" "/names/zagip" (Some "6") "twelve")) =
  Ok (200, JObj [("channel", JInt 12); ("group", JInt 4); ("source", JStr SOURCE_REGISTRY)]).
Proof. vm_compute. reflexivity. Qed.

Example bad_name_400 : fst (example_names (mkRequest "DELETE" "/names/robot9" None "")) = Ok bad_request.
Proof. vm_compute. reflexivity. Qed.

(** [GET] shows a stored row as it is: the socket's [names_set] bounds no
    address, so one out of range is shown, and nothing is published. *)
Example get_shows_any_row :
  let s := mstate (op_names_set example_api [("name", JStr "zagip"); ("channel", JInt 200); ("group", JInt 300)])
                  idle_server in
  let '(res, s') := names_dispatch example_api (fun s => s) example_loads (mkRequest "GET" "/names/zagip" None "") s in
  res = Ok (200, JObj [("channel", JInt 200); ("group", JInt 300); ("source", JStr SOURCE_REGISTRY)]) /\
  a_names s' = a_names s.
Proof. vm_compute. auto. Qed.
