(* ===== verification/Render.v ===== *)
(** * [registry/render.py]: the device list as text

    The cells of a device's row, the display order, the table, the rescan
    summary, and their structured forms.  A device is the dictionary the
    registry's [list] answers ([Api.device_dict]): its texts are strings or
    null, [uid] and [state] always there. *)

From S2P Require Import Prelude Tables Sorting Json Regex Identity Store.
Local Open Scope py_scope.

Definition TABLE_HEADERS : list string := ["STATE"; "LOCKED"; "NAME"; "UID"; "FIRMWARE"; "HOST"; "PORT"].
Definition SORT_KEYS : list string := ["state"; "name"; "firmware"; "host"].

(** The text under a key, empty when missing or null, and [a or b]. *)
Definition text (k : string) (d : fields) : string := match jget k d with JStr s => s | _ => "" end.
Definition or_else (a b : string) : string := match a with "" => b | _ => a end.
Definition is_none (k : string) (d : fields) : bool := match jget k d with JNull => true | _ => false end.

Definition name_cell (d : fields) : string :=
  or_else (text "device_name" d) (or_else (text "chip_identity_name" d) "-").

Definition is_locked (d : fields) : bool :=
  truthy (jget (if is_none "host" d then "lock_kind" else "remote_lock_kind") d).

Definition peer_reachable (d : fields) : bool :=
  match dget "peer_reachable" d with Some v => truthy v | None => true end.

Definition state_cell (d : fields) : string :=
  let state := text "state" d in
  if negb (is_none "host" d) && negb (peer_reachable d) then "peer unreachable"
  else if String.eqb state STATE_DISCONNECTED then "gone"
  else if is_locked d then "locked"
  else if String.eqb state STATE_ATTACHED_NO_ANNOUNCE then "no-answer"
  else if String.eqb state STATE_CONNECTED_NO_FIRMWARE then "no-firmware"
  else "free".

Definition not_parens (c : ascii) : bool := negb (Ascii.eqb c "(" || Ascii.eqb c ")").
Definition not_comma_parens (c : ascii) : bool := negb (Ascii.eqb c ",") && not_parens c.

Definition DISPLAY_LABEL_RE : re :=
  rcat [RLit "("; RGroup 1 (RStar (RChr not_parens)); RLit ", "; RStar (RChr not_comma_parens); RLit ")";
        RStar (RChr Py.is_space); REol].
Definition DISPLAY_ON_RE : re :=
  rcat [RWordB; RLit "on "; RGroup 1 (RPlus (RChr (fun c => negb (Py.is_space c))))].

(** [s.split(sep)[0]]. *)
Fixpoint first_piece (sep s : string) : string :=
  if Py.startswith s sep then ""
  else match s with "" => "" | String c s' => String c (first_piece sep s') end.

(** [label.split(" / ")[0].strip()]. *)
Definition machine (label : string) : string := Py.strip (first_piece " / " label).

(** A peer's row: the label in the tail of its display, or the address. *)
Definition display_label (display : string) : string + string :=
  match search DISPLAY_LABEL_RE display ≫= group 1 with
  | None | Some "" =>
      match search DISPLAY_ON_RE display ≫= group 1 with
      | Some address => inr address
      | None => inl ""
      end
  | Some label => inl label
  end.

Definition lock_cell (d : fields) : string :=
  if negb (is_locked d) then "-"
  else
    match (if is_none "host" d then inl (text "lock_label" d) else display_label (text "remote_lock_display" d)) with
    | inr address => address
    | inl "" => or_else (text "host" d) "local"
    | inl label => machine label
    end.

Definition host_cell (d : fields) : string := or_else (text "host" d) "local".

Definition firmware_cell (d : fields) : string :=
  let state := text "state" d in
  if String.eqb state STATE_ATTACHED_UNPROBED then "(not probed yet)"
  else if String.eqb state STATE_ATTACHED_NO_ANNOUNCE then "unknown"
  else if String.eqb state STATE_CONNECTED_NO_FIRMWARE then "no firmware"
  else
    match text "role" d, text "common_name" d with
    | "", c => or_else c "-"
    | r, "" => r
    | r, c => (r +:+ "/" +:+ c)%string
    end.

(** ** The display order *)

Definition uid_key (d : fields) : string := or_else (text "short_uid" d) (text "uid" d).

(** Tuples of a flag and a text. *)
Definition pair_leb (a b : bool * string) : bool :=
  match a.1, b.1 with
  | false, true => true
  | true, false => false
  | _, _ => String.leb a.2 b.2
  end.

(** The key of a column, as the pair the host column sorts by. *)
Definition column_key (sort_by : string) : result (fields -> bool * string) :=
  if String.eqb sort_by "state" then Ok (fun d => (false, Py.lower (state_cell d)))
  else if String.eqb sort_by "name" then Ok (fun d => (false, Py.lower (name_cell d)))
  else if String.eqb sort_by "firmware" then Ok (fun d => (false, Py.lower (firmware_cell d)))
  else if String.eqb sort_by "host" then Ok (fun d => (negb (is_none "host" d), Py.lower (host_cell d)))
  else Err ValueError.

Definition sort_devices (sort_by : option string) (devices : list fields) : result (list fields) :=
  let ordered := sorted String.leb uid_key devices in
  match sort_by with
  | None => Ok ordered
  | Some k => let! key := column_key k in Ok (sorted pair_leb key ordered)
  end.

(** ** The table *)

Definition newline_str : string := String newline "".
Fixpoint fill (c : ascii) (n : nat) : string := match n with O => "" | S n' => String c (fill c n') end.
Definition ljust (w : nat) (s : string) : string := (s +:+ fill " " (w - String.length s))%string.

(** The widest cell of every column. *)
Definition widths (headers : list string) (rows : list (list string)) : list nat :=
  fold_left (fun ws row => zip_with Nat.max ws (map String.length row)) rows (map String.length headers).

Definition table_line (ws : list nat) (cells : list string) : string :=
  Py.rstrip_ws (Py.join "  " (zip_with ljust ws cells)).

Definition table (rows : list (list string)) (headers : list string) : string :=
  let ws := widths headers rows in
  Py.join newline_str
    (table_line ws headers :: Py.join "  " (map (fill "-") ws) :: map (table_line ws) rows).

Definition device_cells (d : fields) : list string :=
  [state_cell d; lock_cell d; name_cell d; or_else (text "short_uid" d) (Py.last_n (text "uid" d) 8);
   firmware_cell d; host_cell d; or_else (text "port" d) "-"].

Definition render_table (sort_by : option string) (devices : list fields) : result string :=
  let! devices := sort_devices sort_by devices in
  Ok match devices with
     | [] => "no devices known to the registry"
     | _ => table (map device_cells devices) TABLE_HEADERS
     end.

Definition render_json (sort_by : option string) (devices : list fields) : result fields :=
  let! devices := sort_devices sort_by devices in Ok [("devices", JList (map JObj devices))].

(** ** A rescan *)

Record rescan_response := mkRescan {
  rs_devices : list string;
  rs_peers : list string;
  rs_skipped : list string;
  rs_dry_run : bool }.

Definition plural {A} (l : list A) : string := if Nat.eqb (length l) 1 then "" else "s".

Definition render_rescan_summary (resp : rescan_response) : string :=
  let remove_verb := if rs_dry_run resp then "would remove" else "removed" in
  let skip_verb := if rs_dry_run resp then "would skip" else "skipped" in
  let some {A} (l : list A) (line : string) : list string := match l with [] => [] | _ => [line] end in
  let lines :=
    some (rs_devices resp) (remove_verb +:+ " " +:+ pretty (length (rs_devices resp)) +:+ " device" +:+
        plural (rs_devices resp) +:+ ": " +:+ Py.join ", " (map short_uid (rs_devices resp)))%string ++
    some (rs_peers resp) (remove_verb +:+ " " +:+ pretty (length (rs_peers resp)) +:+ " unreachable peer" +:+
        plural (rs_peers resp) +:+ ": " +:+ Py.join ", " (rs_peers resp))%string ++
    some (rs_skipped resp) (skip_verb +:+ " " +:+ pretty (length (rs_skipped resp)) +:+ " locked: " +:+
        Py.join ", " (map short_uid (rs_skipped resp)))%string in
  match lines with [] => "nothing to remove" | _ => Py.join newline_str lines end.

Definition render_rescan_json (sort_by : option string) (resp : rescan_response) (devices : option (list fields))
    : result fields :=
  let payload := [("removed", JObj [("devices", JList (map JStr (rs_devices resp))); ("peers", JList (map JStr (rs_peers resp)))]);
                  ("skipped_locked", JList (map JStr (rs_skipped resp)));
                  ("dry_run", JBool (rs_dry_run resp))] in
  match devices with
  | None => Ok payload
  | Some l => let! j := render_json sort_by l in Ok (payload ++ j)
  end.
