(* ===== verification/RenderFacts.v ===== *)
(** * What the device list shows

    The display order does not depend on the order the devices came in;
    the table's lines read back to the cells; and the LOCKED column of a
    peer's board names the machine its owner shows. *)

From stdpp Require Import sorting.
From S2P Require Import Prelude Tables Sorting Json Regex Identity Virtual Store StoreFacts Locks Claims Daemon DaemonFacts UniversalHex Flash FlashFacts EventBus Peering PeeringFacts Api ApiFacts Render.
Local Open Scope py_scope.

(** ** Orders *)

Lemma pair_leb_trans a b c : pair_leb a b = true -> pair_leb b c = true -> pair_leb a c = true.
Proof.
  destruct a as [[] a], b as [[] b], c as [[] c]; unfold pair_leb; cbn; try discriminate; try reflexivity;
    apply string_leb_trans.
Qed.

Lemma pair_leb_total a b : pair_leb a b = true \/ pair_leb b a = true.
Proof.
  destruct a as [[] a], b as [[] b]; unfold pair_leb; cbn; auto; apply String.leb_total.
Qed.

(** ** The display order *)

(** The order of the UID column, whatever follows. *)
Definition uid_le : relation fields := by_key String.leb uid_key (fun _ _ => True).

Definition display_le (sort_by : option string) : relation fields :=
  match sort_by with
  | None => uid_le
  | Some k => match column_key k with
              | Ok key => by_key pair_leb key uid_le
              | Err _ => uid_le
              end
  end.

Lemma uid_sorted l : StronglySorted uid_le (sorted String.leb uid_key l).
Proof.
  apply sorted_by_key; [apply String.leb_total|apply string_leb_trans|].
  induction l; constructor; auto. apply Forall_forall. auto.
Qed.

Lemma sort_devices_spec sort_by l l' : sort_devices sort_by l = Ok l' ->
  l' ≡ₚ l /\ StronglySorted (display_le sort_by) l'.
Proof.
  unfold sort_devices, display_le. destruct sort_by as [k|].
  - destruct (column_key k) as [key|e]; [|discriminate]. intros [= <-].
    split; [rewrite !sorted_perm; reflexivity|].
    apply sorted_by_key; [apply pair_leb_total|apply pair_leb_trans|apply uid_sorted].
  - intros [= <-]. split; [apply sorted_perm|apply uid_sorted].
Qed.

Lemma display_le_uid sort_by x y : display_le sort_by x y -> display_le sort_by y x -> uid_key x = uid_key y.
Proof.
  assert (H : uid_le x y -> uid_le y x -> uid_key x = uid_key y).
  { intros [A _] [B _]. apply String.leb_antisym; assumption. }
  unfold display_le. destruct sort_by as [k|]; [|exact H]. destruct (column_key k); [|exact H].
  intros [A B] [C D]. auto.
Qed.

Lemma same_key l x y : NoDup (map uid_key l) -> x ∈ l -> y ∈ l -> uid_key x = uid_key y -> x = y.
Proof.
  induction l as [|z l IH]; cbn; [intros _ H; apply elem_of_nil in H; destruct H|].
  rewrite NoDup_cons, !elem_of_cons. intros [Hz Hn] [->|Hx] [->|Hy] E; auto.
  - destruct Hz. rewrite E. apply list_elem_of_fmap_2, Hy.
  - destruct Hz. rewrite <- E. apply list_elem_of_fmap_2, Hx.
Qed.

(** the device list is shown in one order, whatever order the registry
    answers in: for every column to sort by, the rows are a permutation of
    the devices, ordered by that column's shown text (this host's rows
    first under [host]) and then by uid, so two answers that differ in
    their order only, over distinct uids, give the same table and the same
    structured form; and any other column name raises [ValueError]. *)
Theorem list_order_canonical sort_by l1 l2 : l1 ≡ₚ l2 -> NoDup (map uid_key l1) ->
  render_table sort_by l1 = render_table sort_by l2 /\ render_json sort_by l1 = render_json sort_by l2 /\
  match sort_devices sort_by l1 with
  | Ok l => l ≡ₚ l1 /\ StronglySorted (display_le sort_by) l /\ (forall k, sort_by = Some k -> In k SORT_KEYS)
  | Err e => e = ValueError /\ exists k, sort_by = Some k /\ ~ In k SORT_KEYS
  end.
Proof.
  intros Hp Hn. assert (E : sort_devices sort_by l1 = sort_devices sort_by l2).
  { destruct (sort_devices sort_by l1) as [s1|e1] eqn:E1, (sort_devices sort_by l2) as [s2|e2] eqn:E2.
    - apply sort_devices_spec in E1 as [P1 S1], E2 as [P2 S2]. f_equal.
      apply (StronglySorted_unique_strong (display_le sort_by)); [|exact S1|exact S2|rewrite P1, P2; exact Hp].
      intros x y Hx Hy A B. rewrite P1 in Hx. rewrite P2, <- Hp in Hy.
      exact (same_key l1 x y Hn Hx Hy (display_le_uid _ _ _ A B)).
    - revert E1 E2. unfold sort_devices. destruct sort_by as [k|]; [destruct (column_key k)|]; discriminate.
    - revert E1 E2. unfold sort_devices. destruct sort_by as [k|]; [destruct (column_key k)|]; discriminate.
    - revert E1 E2. unfold sort_devices. destruct sort_by as [k|]; [destruct (column_key k)|]; cbn; congruence. }
  unfold render_table, render_json. rewrite <- E. split; [reflexivity|]. split; [reflexivity|].
  destruct (sort_devices sort_by l1) as [l|e] eqn:E1.
  { destruct (sort_devices_spec _ _ _ E1) as [A B]. split; [exact A|]. split; [exact B|]. intros k ->.
    revert E1. unfold sort_devices, column_key, SORT_KEYS. cbn [In].
    destruct (String.eqb_spec k "state"), (String.eqb_spec k "name"), (String.eqb_spec k "firmware"), (String.eqb_spec k "host");
      subst; auto 10. discriminate. }
  revert E1. unfold sort_devices. destruct sort_by as [k|]; [|discriminate]. unfold column_key, SORT_KEYS. cbn [In].
  destruct (String.eqb_spec k "state"), (String.eqb_spec k "name"), (String.eqb_spec k "firmware"), (String.eqb_spec k "host");
    try discriminate. intros [= <-]. split; [reflexivity|]. exists k. split; [reflexivity|]. intuition congruence.
Qed.

(** ** The machine of a peer's lock *)

Lemma format_age_clean us : Py.sforall not_comma_parens (format_age us) = true.
Proof.
  assert (H : forall n u, 0 <= n -> u = "s"%string \/ u = "m"%string \/ u = "h"%string ->
    Py.sforall not_comma_parens (pretty n +:+ u)%string = true).
  { intros n u Hn Hu. rewrite Py.sforall_app. apply andb_true_intro. split; [|destruct Hu as [->|[->| ->]]; reflexivity].
    apply (Py.sforall_imp Py.is_digit); [|exact (pretty_digits n Hn)].
    intros c. destruct c as [[] [] [] [] [] [] [] []]; vm_compute; congruence. }
  unfold format_age. set (n := Z.max 0 (whole_seconds us)). assert (Hn : 0 <= n) by (unfold n; lia).
  destruct (n <? 60); [apply H; auto|]. assert (0 <= n / 60) by (apply Z.div_pos; lia).
  destruct (n / 60 <? 60); apply H; auto. apply Z.div_pos; lia.
Qed.

(** Building a match. *)
Lemma before_app t u b : or_before (t +:+ u)%string b = or_before u (or_before t b).
Proof. unfold or_before. rewrite last_char_app. destruct (Py.last_char u), (Py.last_char t); reflexivity. Qed.

Lemma lit_match t : forall b r c, matches (RLit t) (mkPos b (t +:+ r)%string) c (mkPos (or_before t b) r) c.
Proof.
  induction t as [|a t IH]; intros b r c; [constructor|]. cbn. econstructor; [constructor; apply Ascii.eqb_refl|].
  replace (or_before (String a t) b) with (or_before t (Some a)); [apply IH|].
  unfold or_before. rewrite Py.last_char_cons. destruct (Py.last_char t); reflexivity.
Qed.

Lemma class_match f t : Py.sforall f t = true -> forall b r c,
  matches (RStar (RChr f)) (mkPos b (t +:+ r)%string) c (mkPos (or_before t b) r) c.
Proof.
  induction t as [|a t IH]; cbn [Py.sforall]; intros Ht b r c; [constructor|]. apply andb_prop in Ht as [Ha Ht].
  cbn. econstructor; [constructor; exact Ha|unfold progress; apply Nat.ltb_lt; cbn; lia|].
  replace (or_before (String a t) b) with (or_before t (Some a)); [exact (IH Ht _ _ _)|].
  unfold or_before. rewrite Py.last_char_cons. destruct (Py.last_char t); reflexivity.
Qed.

(** What the label pattern matches, and its group. *)
Lemma label_match b label age : Py.sforall not_parens label = true -> Py.sforall not_comma_parens age = true ->
  exists q d, matches DISPLAY_LABEL_RE (mkPos b ("(" +:+ label +:+ ", " +:+ age +:+ ")" +:+ "" +:+ "")%string) [] q d.
Proof.
  intros Hl Ha. do 2 eexists. unfold DISPLAY_LABEL_RE. cbn [rcat].
  eapply m_cat; [apply (lit_match "(")|]. eapply m_cat; [constructor; apply (class_match _ _ Hl)|].
  eapply m_cat; [apply (lit_match ", ")|]. eapply m_cat; [apply (class_match _ _ Ha)|].
  eapply m_cat; [apply (lit_match ")")|]. eapply m_cat; [apply (class_match _ "" eq_refl)|].
  constructor. reflexivity.
Qed.

Lemma group_matches n a p c q d : matches (RGroup n a) p c q d -> exists d', matches a p c q d' /\ d = (n, consumed p q) :: d'.
Proof. intros H. inversion H; subst. eauto. Qed.

Lemma label_spans p q d : matches DISPLAY_LABEL_RE p [] q d -> exists g a w,
  spans p q ("(" +:+ g +:+ ", " +:+ a +:+ ")" +:+ w)%string /\ d = [(1%nat, g)] /\
  Py.sforall not_parens g = true /\ Py.sforall not_comma_parens a = true.
Proof.
  unfold DISPLAY_LABEL_RE. cbn [rcat]. intros H.
  apply cat_matches in H as (p1 & c1 & H1 & H). apply lit_matches in H1 as [-> S1].
  apply cat_matches in H as (p2 & c2 & H2 & H). apply group_matches in H2 as (c2' & H2 & ->).
  apply class_matches in H2 as [-> (g & S2 & Hg)]. rewrite (consumed_spans _ _ _ S2) in H.
  apply cat_matches in H as (p3 & c3 & H3 & H). apply lit_matches in H3 as [-> S3].
  apply cat_matches in H as (p4 & c4 & H4 & H). apply class_matches in H4 as [-> (a & S4 & Ha)].
  apply cat_matches in H as (p5 & c5 & H5 & H). apply lit_matches in H5 as [-> S5].
  apply cat_matches in H as (p6 & c6 & H6 & H). apply class_matches in H6 as [-> (w & S6 & _)].
  inversion H; subst. exists g, a, w. split; [|auto].
  exact (spans_trans _ _ _ _ _ S1 (spans_trans _ _ _ _ _ S2 (spans_trans _ _ _ _ _ S3
    (spans_trans _ _ _ _ _ S4 (spans_trans _ _ _ _ _ S5 S6))))).
Qed.

Lemma no_paren_lacks t : Py.sforall not_parens t = true -> Py.lacks "(" t = true /\ Py.lacks ")" t = true.
Proof.
  intros H. split; (eapply Py.sforall_imp; [|exact H]); intros c; unfold not_parens;
    rewrite negb_true_iff, orb_false_iff; rewrite Ascii.eqb_sym, negb_true_iff; intros [A B]; [exact A|];
    rewrite Ascii.eqb_sym; exact B.
Qed.

Lemma clean_lacks t : Py.sforall not_comma_parens t = true -> Py.lacks "," t = true /\ Py.sforall not_parens t = true.
Proof.
  intros H. split; (eapply Py.sforall_imp; [|exact H]); intros c; unfold not_comma_parens; rewrite andb_true_iff; intros [A B]; [rewrite Ascii.eqb_sym; exact A|exact B].
Qed.

(** The label of a display text is the one it was made of. *)
Lemma display_label_spec holder label age : Py.sforall not_parens holder = true ->
  Py.sforall not_parens label = true -> label <> "" -> Py.sforall not_comma_parens age = true ->
  display_label (holder +:+ " (" +:+ label +:+ ", " +:+ age +:+ ")")%string = inl label.
Proof.
  intros Hh Hl Hne Ha. set (s := (holder +:+ " (" +:+ label +:+ ", " +:+ age +:+ ")")%string).
  assert (Es : s = ((holder +:+ " ") +:+ ("(" +:+ label +:+ ", " +:+ age +:+ ")" +:+ "" +:+ ""))%string).
  { unfold s. rewrite <- Py.append_assoc. rewrite Py.append_nil_r. reflexivity. }
  unfold display_label. pose proof (search_correct DISPLAY_LABEL_RE s) as H.
  destruct (search DISPLAY_LABEL_RE s) as [m|]; cycle 1.
  { destruct (label_match (Py.last_char (holder +:+ " ")%string) label age Hl Ha) as (q & d & Hm).
    destruct (H _ _ q d Es Hm). }
  destruct H as (E & Hm & Hspan & _). apply label_spans in Hm as (g & a & w & Sp & Hd & Hg & Hca).
  enough (g = label) as ->.
  { change (Some m ≫= group 1) with (group 1 m). unfold group. rewrite Hd. cbn.
    destruct label; [congruence|reflexivity]. }
  pose proof Sp as [Er _]. cbn [pos_rest] in Er. rewrite E, Er in Es. clear - Es Hh Hl Ha Hg Hca.
  destruct (clean_lacks _ Ha) as [Hac Hap], (clean_lacks _ Hca) as [Hcac Hcap].
  destruct (no_paren_lacks _ Hl) as [L1 L2], (no_paren_lacks _ Hg) as [G1 G2], (no_paren_lacks _ Hap) as [A1 A2],
    (no_paren_lacks _ Hcap) as [C1 C2], (no_paren_lacks _ Hh) as [H1 _].
  assert (E1 : (m_pre m +:+ String "(" (g +:+ ", " +:+ a +:+ ")" +:+ w +:+ m_post m) =
                (holder +:+ " ") +:+ String "(" (label +:+ ", " +:+ age +:+ ")"))%string).
  { rewrite <- !Py.append_assoc in Es. rewrite <- Py.append_assoc. exact Es. }
  apply Py.split_only in E1 as [_ E1]; cycle 1.
  { unfold Py.lacks in *. rewrite Py.sforall_app, H1. reflexivity. }
  { unfold Py.lacks in *. rewrite !Py.sforall_app, L1, A1. reflexivity. }
  assert (E2 : ((g +:+ ", " +:+ a) +:+ String ")" (w +:+ m_post m) = (label +:+ ", " +:+ age) +:+ String ")" "")%string).
  { rewrite <- !Py.append_assoc. exact E1. }
  apply Py.split_only in E2 as [E2 _]; [| |reflexivity]; cycle 1.
  { unfold Py.lacks in *. rewrite !Py.sforall_app, L2, A2. reflexivity. }
  apply (Py.split_last "," g label (" " +:+ a)%string (" " +:+ age)%string) in E2 as [E2 _]; [exact E2| |];
    unfold Py.lacks in *; rewrite Py.sforall_app, ?Hac, ?Hcac; reflexivity.
Qed.

(** A device's row, as [list] answers it. *)
Definition row (r : DeviceRecord) (s : astate) : fields :=
  match device_dict r s with JObj f => f | _ => [] end.

#[local] Arguments row : simpl never.
#[local] Arguments jget : simpl never.

Lemma row_host r s : jget "host" (row r s) = jopt (dr_host r).
Proof. unfold row, device_dict, record_fields. destruct (dr_host r); reflexivity. Qed.

Lemma row_lock r s : dr_host r = None ->
  jget "lock_kind" (row r s) = jopt (ls_kind <$> dget (dr_uid r) (a_locks s)) /\
  jget "lock_label" (row r s) = jopt (dget (dr_uid r) (a_locks s) ≫= ls_label).
Proof. intros Hh. unfold row, device_dict, record_fields. rewrite Hh. split; reflexivity. Qed.

Lemma row_remote_lock r s : jget "remote_lock_kind" (row r s) = jopt (dr_remote_lock_kind r) /\
  jget "remote_lock_display" (row r s) = jopt (dr_remote_lock_display r).
Proof. unfold row, device_dict, record_fields. destruct (dr_host r); split; reflexivity. Qed.

Lemma truthy_str t : t <> "" -> truthy (JStr t) = true.
Proof. destruct t; [congruence|reflexivity]. Qed.

Lemma local_lock_cell r s st label : dr_host r = None -> dget (dr_uid r) (a_locks s) = Some st ->
  ls_kind st <> "" -> ls_label st = Some label -> label <> "" -> lock_cell (row r s) = machine label.
Proof.
  intros Hh Hs Hk Hl Hne. destruct (row_lock r s Hh) as [Rk Rl]. rewrite Hs in Rk, Rl. cbn in Rk, Rl. rewrite Hl in Rl.
  unfold lock_cell, is_locked, is_none, text. rewrite row_host, Hh. cbn [jopt]. rewrite Rk, Rl. cbn [jopt].
  rewrite (truthy_str _ Hk). cbn [negb]. destruct label; [congruence|reflexivity].
Qed.

Lemma remote_lock_cell r s host kind display label : dr_host r = Some host -> dr_remote_lock_kind r = Some kind ->
  dr_remote_lock_display r = Some display -> kind <> "" -> display_label display = inl label -> label <> "" ->
  lock_cell (row r s) = machine label.
Proof.
  intros Hh Hk Hd Hne Hl Hln. destruct (row_remote_lock r s) as [Rk Rd].
  unfold lock_cell, is_locked, is_none, text. rewrite row_host, Hh. cbn [jopt]. rewrite Rk, Rd, Hk, Hd. cbn [jopt].
  rewrite (truthy_str _ Hne). cbn [negb]. rewrite Hl. destruct label; [congruence|reflexivity].
Qed.

(** The message a lock's display sends, and what a peer does with it. *)
Definition lock_message (host uid : string) (st : LockStatus) (now : Z) : fields :=
  [("type", JStr EVENT_LOCK_STATE); ("host", JStr host); ("uid", JStr uid); ("kind", JStr (ls_kind st));
   ("display", JStr (describe_holder (ls_holder st) +:+ format_lock_suffix (ls_label st) (Some (ls_since st)) now)%string);
   ("label", jopt (ls_label st)); ("since", jtime (Some (ls_since st)))].

Lemma lock_published host uid st now : is_virtual_uid uid = false ->
  mstate (publish_lock_event host uid (Some (ls_kind st)) (Some (describe_holder (ls_holder st)))
            (ls_label st) (Some (ls_since st)) now) (Some [])
  = Some [JObj (lock_message host uid st now)].
Proof. intros Hv. unfold publish_lock_event. rewrite Hv. reflexivity. Qed.

Lemma lock_applied host uid st now now' d r : get uid d = Some r -> dr_host r = Some host ->
  get uid (mstate (recv_message host (Some (JObj (lock_message host uid st now))) now') d)
  = Some (set_remote_lock_display (Some (describe_holder (ls_holder st) +:+
            format_lock_suffix (ls_label st) (Some (ls_since st)) now)%string)
            (set_remote_lock_kind (Some (ls_kind st)) r)).
Proof.
  intros Hg Hh. unfold recv_message, apply_event, dispatch_event.
  change (jget "type" _) with (JStr EVENT_LOCK_STATE). change (jget "uid" (lock_message _ _ _ _)) with (JStr uid).
  change (is_str EVENT_ATTACH _) with false. change (is_str EVENT_DETACH _) with false.
  change (is_str EVENT_IDENTITY _) with false. change (is_str EVENT_LOCK_STATE _) with true. cbv iota.
  set (display := (describe_holder (ls_holder st) +:+ format_lock_suffix (ls_label st) (Some (ls_since st)) now)%string).
  change (jget "kind" (lock_message _ _ _ _)) with (JStr (ls_kind st)).
  change (jget "display" (lock_message _ _ _ _)) with (JStr display).
  assert (Hat : attributed_to d uid host = true).
  { unfold attributed_to. rewrite Hg. apply bool_decide_eq_true_2, Hh. }
  unfold mstate, mtry, mbind, mlift, mgets, mret. cbn [uid_of text_of]. rewrite Hat.
  unfold quietly, mbind, mret, apply_remote_lock_state.
  rewrite update_existing_run by (intros ?; reflexivity). rewrite Hg. cbn [snd]. unfold get, set_devices in *. cbn [devices].
  rewrite tfind_tupd_eq by auto. rewrite Hg. reflexivity.
Qed.

(** the LOCKED column is the same on every host. When a board of this
    host is locked with a label and its lock event reaches a peer that
    attributes the board to this host, the machine the peer's list shows in
    the LOCKED column is the one this host's own list shows: the label
    survives the text it travels in, whatever commas, slashes or blanks it
    has, as long as it and the holder have no parentheses. *)
Theorem lock_shown_on_peers host uid r s st label now now' d peer_row s' :
  is_virtual_uid uid = false -> dr_uid r = uid -> dr_host r = None -> dget uid (a_locks s) = Some st ->
  ls_kind st <> "" -> ls_label st = Some label -> label <> "" ->
  Py.sforall not_parens label = true -> Py.sforall not_parens (describe_holder (ls_holder st)) = true ->
  get uid d = Some peer_row -> dr_host peer_row = Some host ->
  exists message,
    mstate (publish_lock_event host uid (Some (ls_kind st)) (Some (describe_holder (ls_holder st)))
              (ls_label st) (Some (ls_since st)) now) (Some []) = Some [message] /\
    exists shown, get uid (mstate (recv_message host (Some message) now') d) = Some shown /\
      lock_cell (row shown s') = lock_cell (row r s) /\ lock_cell (row shown s') = machine label.
Proof.
  intros Hv Hu Hh Hs Hk Hl Hne Hp Hd Hg Hph. exists (JObj (lock_message host uid st now)).
  split; [exact (lock_published host uid st now Hv)|].
  eexists. split; [exact (lock_applied host uid st now now' d peer_row Hg Hph)|].
  rewrite <- Hu in Hs. rewrite (local_lock_cell r s st label Hh Hs Hk Hl Hne).
  enough (E : lock_cell _ = machine label) by (split; exact E).
  eapply remote_lock_cell; [exact Hph|reflexivity|reflexivity|exact Hk| |exact Hne].
  rewrite Hl. unfold format_lock_suffix. destruct label as [|c t] eqn:El; [congruence|]. rewrite <- El in *.
  exact (display_label_spec _ _ _ Hd Hp Hne (format_age_clean _)).
Qed.

(** ** The lines of the table *)

Lemma length_fill c n : String.length (fill c n) = n.
Proof. induction n as [|n IH]; [reflexivity|]. cbn. f_equal. exact IH. Qed.

Lemma length_ljust w s : (String.length s <= w)%nat -> String.length (ljust w s) = w.
Proof. intros H. unfold ljust. rewrite length_append, length_fill. lia. Qed.

Lemma sforall_fill (P : ascii -> bool) c n : P c = true -> Py.sforall P (fill c n) = true.
Proof. intros H. induction n as [|n IH]; [reflexivity|]. cbn. rewrite H. exact IH. Qed.

Lemma split_on_plain sep s : Py.lacks sep s = true -> Py.split_on sep s = [s].
Proof.
  induction s as [|a s IH]; [reflexivity|]. unfold Py.lacks. cbn [Py.sforall Py.split_on]. intros H.
  apply andb_prop in H as [Ha Hs]. rewrite Ascii.eqb_sym in Ha. apply negb_true_iff in Ha. rewrite Ha, (IH Hs). reflexivity.
Qed.

(** Splitting undoes joining. *)
Lemma split_join sep x l : Forall (fun s => Py.lacks sep s = true) (x :: l) ->
  Py.split_on sep (Py.join (String sep "") (x :: l)) = x :: l.
Proof.
  revert x. induction l as [|y l IH]; intros x H; inversion H as [|? ? Hx Hl]; subst.
  - exact (split_on_plain sep x Hx).
  - change (Py.join (String sep "") (x :: y :: l)) with (x +:+ String sep (Py.join (String sep "") (y :: l)))%string.
    rewrite (Py.split_on_app _ _ _ (Py.lacks_none _ _ Hx)). f_equal. exact (IH y Hl).
Qed.

Lemma rstrip_split s : exists u, s = (Py.rstrip_ws s +:+ u)%string /\ Py.sforall Py.is_space u = true.
Proof.
  induction s as [|c s (u & E & Hu)]; [exists ""; auto|]. cbn [Py.rstrip_ws].
  destruct (Py.rstrip_ws s) as [|c' t] eqn:Er.
  - destruct (Py.is_space c) eqn:Hc.
    + exists (String c s). split; [reflexivity|]. cbn. rewrite Hc. cbn in E. rewrite E. exact Hu.
    + exists u. split; [cbn; f_equal; exact E|exact Hu].
  - exists u. split; [cbn; f_equal; exact E|exact Hu].
Qed.

Lemma stake_app_gen w a u : Py.stake w (a +:+ u)%string = (Py.stake w a +:+ Py.stake (w - String.length a) u)%string.
Proof.
  revert w. induction a as [|c a IH]; intros w; [destruct w; reflexivity|]. destruct w as [|w]; [reflexivity|].
  cbn. f_equal. exact (IH w).
Qed.
Lemma sdrop_app_gen o a u : Py.sdrop o (a +:+ u)%string = (Py.sdrop o a +:+ Py.sdrop (o - String.length a) u)%string.
Proof.
  revert o. induction a as [|c a IH]; intros o; [destruct o; reflexivity|]. destruct o as [|o]; [reflexivity|].
  exact (IH o).
Qed.
Lemma sforall_stake P w s : Py.sforall P s = true -> Py.sforall P (Py.stake w s) = true.
Proof.
  revert w. induction s as [|c s IH]; intros [|w] H; try reflexivity. cbn in *. apply andb_prop in H as [-> H]. exact (IH w H).
Qed.
Lemma sforall_sdrop P o s : Py.sforall P s = true -> Py.sforall P (Py.sdrop o s) = true.
Proof.
  revert o. induction s as [|c s IH]; intros [|o] H; try exact H; try reflexivity. cbn in H. apply andb_prop in H as [_ H]. exact (IH o H).
Qed.

Lemma sdrop_past o t : (String.length t <= o)%nat -> Py.sdrop o t = "".
Proof. revert o. induction t as [|c t IH]; intros [|o] H; cbn in *; try reflexivity; [lia|]. apply IH. lia. Qed.

(** The trailing blanks of a line do not matter to its columns. *)
Lemma slice_rstrip o w s : Py.rstrip_ws (Py.stake w (Py.sdrop o (Py.rstrip_ws s))) = Py.rstrip_ws (Py.stake w (Py.sdrop o s)).
Proof.
  destruct (rstrip_split s) as (u & E & Hu). rewrite E at 2. rewrite sdrop_app_gen, stake_app_gen, rstrip_app_blank; [reflexivity|].
  apply sforall_stake, sforall_sdrop, Hu.
Qed.

(** Where a column starts, and the text of a line in it. *)
Definition offset (ws : list nat) (i : nat) : nat := foldr (fun w o => (w + 2 + o)%nat) 0%nat (take i ws).
Definition column (ws : list nat) (i : nat) (line : string) : string :=
  Py.rstrip_ws (Py.stake (nth i ws 0%nat) (Py.sdrop (offset ws i) line)).

Lemma join_column ws : forall cells i cell, Forall2 (fun w c => (String.length c <= w)%nat) ws cells ->
  cells !! i = Some cell ->
  Py.stake (nth i ws 0%nat) (Py.sdrop (offset ws i) (Py.join "  " (zip_with ljust ws cells))) = ljust (nth i ws 0%nat) cell.
Proof.
  induction ws as [|w ws IH]; intros cells i cell Hf Hi; inversion Hf as [|? c ? cs Hc Hcs]; subst; [discriminate|].
  assert (Hlen : String.length (ljust w c) = w) by exact (length_ljust w c Hc).
  assert (E : exists rest, Py.join "  " (zip_with ljust (w :: ws) (c :: cs)) = (ljust w c +:+ rest)%string /\
    (cs <> [] -> rest = ("  " +:+ Py.join "  " (zip_with ljust ws cs))%string)).
  { unfold Py.join. cbn [zip_with String.concat]. destruct Hcs as [|w' c' ws' cs']; cbn [zip_with].
    - exists "". rewrite Py.append_nil_r. split; [reflexivity|congruence].
    - eexists. split; [reflexivity|reflexivity]. }
  destruct E as (rest & -> & Hr). destruct i as [|i].
  - injection Hi as ->. unfold offset. cbn [take foldr nth Py.sdrop]. rewrite <- Hlen at 1. apply stake_app.
  - cbn in Hi. rewrite Hr by (intros ->; discriminate). unfold offset. cbn [take foldr nth].
    rewrite sdrop_app_gen, Hlen. replace (Py.sdrop _ (ljust w c)) with "".
    + replace (w + 2 + foldr (fun w o => (w + 2 + o)%nat) 0%nat (take i ws) - w)%nat with (S (S (offset ws i))) by (unfold offset; lia).
      exact (IH cs i cell Hcs Hi).
    + symmetry. apply sdrop_past. lia.
Qed.

Definition fits (ws : list nat) (cells : list string) : Prop := Forall2 (fun w c => (String.length c <= w)%nat) ws cells.

Lemma fits_self cells : fits (map String.length cells) cells.
Proof. induction cells; constructor; auto. Qed.

Lemma widen_fits ws cells : fits ws cells -> forall row, length row = length ws ->
  fits (zip_with Nat.max ws (map String.length row)) cells.
Proof.
  induction 1 as [|w c ws cells Hc _ IH]; intros [|r row] Hl; try discriminate; [constructor|].
  injection Hl as Hl. cbn. constructor; [lia|exact (IH row Hl)].
Qed.

Lemma widen_row ws : forall row, length row = length ws -> fits (zip_with Nat.max ws (map String.length row)) row.
Proof.
  induction ws as [|w ws IH]; intros [|r row] Hl; try discriminate; [constructor|].
  injection Hl as Hl. cbn. constructor; [lia|exact (IH row Hl)].
Qed.

Lemma fold_fits rows : forall ws, Forall (fun row => length row = length ws) rows ->
  let ws' := fold_left (fun ws row => zip_with Nat.max ws (map String.length row)) rows ws in
  (forall cells, fits ws cells -> fits ws' cells) /\ Forall (fits ws') rows.
Proof.
  induction rows as [|row rows IH]; intros ws H; [split; [auto|constructor]|].
  inversion H as [|? ? Hr Hrs]; subst. cbn [fold_left].
  assert (Hl : length (zip_with Nat.max ws (map String.length row)) = length ws).
  { rewrite length_zip_with, length_map. lia. }
  destruct (IH (zip_with Nat.max ws (map String.length row))) as [A B].
  { eapply Forall_impl; [exact Hrs|]. intros r E. rewrite Hl. exact E. }
  split; [intros cells Hc; apply A, widen_fits; auto|]. constructor; [apply A, widen_row, Hr|exact B].
Qed.

Lemma widths_fit headers rows : Forall (fun row => length row = length headers) rows ->
  fits (widths headers rows) headers /\ Forall (fits (widths headers rows)) rows.
Proof.
  intros H. destruct (fold_fits rows (map String.length headers)) as [A B].
  - eapply Forall_impl; [exact H|]. intros r E. rewrite length_map. exact E.
  - split; [apply A, fits_self|exact B].
Qed.

(** A cell that a column can show: one line, no blank at its end. *)
Definition tidy (c : string) : Prop := Py.lacks Regex.newline c = true /\ Py.rstrip_ws c = c.

Lemma line_column ws cells i cell : fits ws cells -> cells !! i = Some cell -> tidy cell ->
  column ws i (table_line ws cells) = cell.
Proof.
  intros Hf Hi [_ Ht]. unfold column, table_line. rewrite slice_rstrip, (join_column ws cells i cell Hf Hi).
  unfold ljust. rewrite rstrip_app_blank; [exact Ht|]. apply sforall_fill. reflexivity.
Qed.

Lemma lacks_rstrip c s : Py.lacks c s = true -> Py.lacks c (Py.rstrip_ws s) = true.
Proof. apply UniversalHex.sforall_rstrip. Qed.

Lemma lacks_join c sep l : Py.lacks c sep = true -> Forall (fun s => Py.lacks c s = true) l -> Py.lacks c (Py.join sep l) = true.
Proof.
  intros Hs. unfold Py.join, Py.lacks in *. induction l as [|x l IH]; intros H; [reflexivity|].
  inversion H as [|? ? Hx Hl]; subst. destruct l as [|y l]; [exact Hx|].
  change (String.concat sep (x :: y :: l)) with (x +:+ (sep +:+ String.concat sep (y :: l)))%string.
  rewrite !Py.sforall_app, Hx, Hs, (IH Hl). reflexivity.
Qed.

Lemma lacks_line ws : forall cells, Forall tidy cells -> Py.lacks Regex.newline (table_line ws cells) = true.
Proof.
  intros cells H. apply lacks_rstrip, lacks_join; [reflexivity|]. revert ws.
  induction H as [|c cells [Hc _] _ IH]; intros [|w ws]; cbn [zip_with]; constructor; auto.
  unfold ljust, Py.lacks. rewrite Py.sforall_app, sforall_fill by reflexivity. unfold Py.lacks in Hc. rewrite Hc. reflexivity.
Qed.

Lemma table_lines headers rows : Forall tidy headers -> Forall (Forall tidy) rows ->
  Py.split_on Regex.newline (table rows headers) =
  table_line (widths headers rows) headers :: Py.join "  " (map (fill "-") (widths headers rows)) ::
  map (table_line (widths headers rows)) rows.
Proof.
  intros Hh Hr. unfold table. apply (split_join Regex.newline).
  constructor; [apply lacks_line, Hh|]. constructor.
  - apply lacks_join; [reflexivity|]. apply Forall_map, Forall_forall. intros w _. apply sforall_fill. reflexivity.
  - apply Forall_map. eapply Forall_impl; [exact Hr|]. intros row. apply lacks_line.
Qed.

(** the device table reads back. For any column to sort by and devices
    whose cells are one-line texts without trailing blanks, the text has
    one header line, one rule line and one line per device and nothing
    else, in the display order; and cutting a line at the widths of the
    columns gives back the device's cells, the header line those of
    [TABLE_HEADERS]: no cell is cut or shifted by another row's widths. *)
Theorem table_reads_back sort_by devices l : sort_devices sort_by devices = Ok l -> l <> [] ->
  Forall (fun d => Forall tidy (device_cells d)) l ->
  let ws := widths TABLE_HEADERS (map device_cells l) in
  exists text header rule lines, render_table sort_by devices = Ok text /\
    Py.split_on Regex.newline text = header :: rule :: lines /\ length lines = length devices /\
    (forall i h, TABLE_HEADERS !! i = Some h -> column ws i header = h) /\
    (forall k d i cell, l !! k = Some d -> device_cells d !! i = Some cell ->
       exists line, lines !! k = Some line /\ column ws i line = cell).
Proof.
  intros Hs Hne Ht ws. assert (Hh : Forall tidy TABLE_HEADERS) by (repeat constructor).
  assert (Hrows : Forall (Forall tidy) (map device_cells l)) by (apply Forall_map; exact Ht).
  destruct (widths_fit TABLE_HEADERS (map device_cells l)) as [Fh Fr]; [apply Forall_map, Forall_forall; reflexivity|].
  exists (table (map device_cells l) TABLE_HEADERS). do 3 eexists.
  split; [unfold render_table; rewrite Hs; destruct l; [congruence|reflexivity]|].
  split; [exact (table_lines _ _ Hh Hrows)|].
  split; [rewrite !length_map; apply Permutation_length, (sort_devices_spec _ _ _ Hs)|]. split.
  - intros i h Hi. apply line_column; [exact Fh|exact Hi|]. rewrite Forall_lookup in Hh. exact (Hh i h Hi).
  - intros k d i cell Hk Hi. exists (table_line ws (device_cells d)).
    split; [rewrite !list_lookup_fmap, Hk; reflexivity|]. rewrite Forall_lookup in Ht. pose proof (Ht k d Hk) as Hd.
    rewrite Forall_lookup in Hd. apply line_column; [|exact Hi|exact (Hd i cell Hi)].
    rewrite Forall_map, Forall_lookup in Fr. exact (Fr k d Hk).
Qed.

(** ** An example list *)

Definition gala_server : astate :=
  mstate (a_acquire example_api "9906" KIND_RELAY (local_holder 41) (Some "gala, lab / robot-console")) idle_server.

(** A peer's database that attributes the board to the host [torture]. *)
Definition peer_db : db :=
  mstate (upsert_remote_attached "9906" "torture" (Some "/dev/ttyACM0") None 5) empty_db.

Definition example_rows : list fields :=
  map (fun r => row r gala_server) (list_devices (a_db gala_server)) ++
  [[("uid", JStr "77"); ("short_uid", JStr "77"); ("state", JStr STATE_CONNECTED); ("host", JStr "hodr");
    ("peer_reachable", JBool false); ("role", JStr "NEZHA2"); ("common_name", JStr "robot")]].

Lemma list_order_canonical_witness :
  render_table (Some "host") example_rows = render_table (Some "host") (rev example_rows) /\
  render_json (Some "host") example_rows = render_json (Some "host") (rev example_rows).
Proof.
  destruct (list_order_canonical (Some "host") example_rows (rev example_rows)) as (A & B & _).
  - apply Permutation_rev.
  - apply (bool_decide_unpack _). vm_compute. exact I.
  - exact (conj A B).
Defined.

Lemma lock_shown_on_peers_witness :
  exists message, mstate (publish_lock_event "torture" "9906" (Some KIND_RELAY) (Some "pid 41")
      (Some "gala, lab / robot-console") (Some 1000000) 61000000) (Some []) = Some [message] /\
    exists shown, get "9906" (mstate (recv_message "torture" (Some message) 7) peer_db) = Some shown /\
      lock_cell (row shown idle_server) = "gala, lab"%string.
Proof.
  pose (r := match get "9906" (a_db gala_server) with Some r => r | None => virtual_device "" "" "" "" 0 end).
  pose (st := mkLockStatus KIND_RELAY (local_holder 41) (Some "gala, lab / robot-console"%string) 1000000).
  pose (p := match get "9906" peer_db with Some r => r | None => virtual_device "" "" "" "" 0 end).
  destruct (lock_shown_on_peers "torture" "9906" r gala_server st "gala, lab / robot-console" 61000000 7 peer_db p idle_server)
    as (m & Hm & shown & Hs & _ & Hc); try (vm_compute; reflexivity); try discriminate.
  exists m. split; [exact Hm|]. exists shown. split; [exact Hs|]. rewrite Hc. vm_compute. reflexivity.
Defined.

(** With a parenthesis in the label, the peer shows the owning host. *)
Example label_with_parens :
  display_label "pid 41 (gala (lab) / x, 1m)" = inl "" /\ machine "gala (lab) / x" = "gala (lab)"%string.
Proof. vm_compute. auto. Qed.

Lemma table_reads_back_witness :
  exists text header rule lines, render_table (Some "name") example_rows = Ok text /\
    Py.split_on Regex.newline text = header :: rule :: lines /\ length lines = length example_rows.
Proof.
  assert (E : sort_devices (Some "name"%string) example_rows = Ok (rev example_rows)) by (vm_compute; reflexivity).
  destruct (table_reads_back (Some "name"%string) example_rows (rev example_rows) E) as (t & h & r & ls & A & B & C & _).
  - discriminate.
  - repeat constructor.
  - exists t, h, r, ls. auto.
Defined.

(** A cell with a newline, as the name of a registered board may have,
    takes two lines. *)
Example newline_name_splits :
  match render_table None [[("uid", JStr "v1"); ("state", JStr STATE_CONNECTED); ("device_name", JStr (String "s" newline_str))]] with
  | Ok t => length (Py.split_on Regex.newline t) = 4%nat
  | Err _ => False
  end.
Proof. vm_compute. reflexivity. Qed.
