(* ===== verification/Client.v ===== *)
(** * [registry/client.py], [registry/remote_client.py]: the two clients

    The requests a command line makes, over whatever carries its lines: an
    interface states what a connection does, the requests are written
    against it, and an answer that is not ok becomes the exception of its
    code.  The framed stream of a remote client is [Stream]'s other end. *)

From S2P Require Import Prelude Tables Json Base64 StreamFrame Store Locks Peering Api.
Local Open Scope py_scope.

Definition EXIT_OK : Z := 0.
Definition EXIT_ERROR : Z := 1.
Definition EXIT_USAGE : Z := 2.
Definition EXIT_NO_DAEMON : Z := 3.
Definition EXIT_NO_DEVICE : Z := 4.
Definition EXIT_LOCKED : Z := 5.
Definition EXIT_HARDWARE : Z := 6.

(** [RegistryClientError] and its subclasses are [OpError] of the answer's
    code; the class, and so the exit code, is that of the code. *)
Definition exit_code (code : string) : Z :=
  if String.eqb code CODE_LOCKED then EXIT_LOCKED
  else if String.eqb code CODE_NOT_FOUND then EXIT_NO_DEVICE
  else if String.eqb code CODE_INVALID_REQUEST then EXIT_USAGE
  else EXIT_ERROR.

(** A connection to a registry: dialling and sending raise [OSError], a
    line that is not JSON [ValueError], a closed connection reads [None].
    [tr_pending] bounds the lines still to come. *)
Class Transport (S : Type) := {
  tr_connected : S -> bool;
  tr_dial : M S unit;
  tr_send : fields -> M S unit;
  tr_readline : M S (option json);
  tr_hangup : M S unit;
  tr_pending : S -> nat }.

Section Client.
Context {S : Type} `{Transport S}.

Definition unavailable {A} (e : py_exc) : option (M S A) :=
  match e with OSError | ValueError => Some (mraise RegistryUnavailable) | _ => None end.

Definition dial : M S unit := mtry tr_dial unavailable.

Definition connect : M S unit :=
  up <-! mgets tr_connected ;;
  if up : bool then mret tt else dial.

(** The line read as a dictionary. *)
Definition as_dict (line : option json) : M S fields :=
  match line with
  | None => mraise RegistryUnavailable
  | Some (JObj resp) => mret resp
  | Some _ => mraise AttributeError
  end.

Definition raw_request (payload : fields) : M S fields :=
  line <-! mtry (tr_send payload ;;! tr_readline) unavailable ;; as_dict line.

Definition raise_for_error {A} (resp : fields) : M S A :=
  mraise (OpError match jget "code" resp with JStr code => code | _ => "" end).

Definition checked (resp : fields) : M S fields :=
  if truthy (jget "ok" resp) then mret resp else raise_for_error resp.

Definition request (payload : fields) : M S fields :=
  connect ;;! resp <-! raw_request payload ;; checked resp.

Definition list_ : M S (list json) :=
  resp <-! request [("op", JStr "list")] ;;
  match jget_or "devices" (JList []) resp with JList l => mret l | _ => mraise TypeError end.

Definition dict_of (k : string) (resp : fields) : M S fields :=
  v <-! mlift (item k resp) ;;
  match v with JObj d => mret d | _ => mraise TypeError end.

Definition find (uid : string) : M S fields :=
  resp <-! request [("op", JStr "find"); ("uid", JStr uid)] ;; dict_of "device" resp.

Definition lock (uid kind : string) : M S unit :=
  request [("op", JStr "lock"); ("uid", JStr uid); ("kind", JStr kind)] ;;! mret tt.

Definition unlock (uid : string) : M S bool :=
  resp <-! request [("op", JStr "unlock"); ("uid", JStr uid)] ;;
  mret (truthy (jget_or "released" (JBool false) resp)).

Definition force_unlock (uid : string) : M S (option (json * json)) :=
  resp <-! request [("op", JStr "force_unlock"); ("uid", JStr uid)] ;;
  if truthy (jget "released" resp) then
    kind <-! mlift (item "kind" resp) ;; holder <-! mlift (item "holder" resp) ;; mret (Some (kind, holder))
  else mret None.

Definition rescan (dry_run : bool) : M S (fields * list json * bool) :=
  resp <-! request [("op", JStr "rescan"); ("dry_run", JBool dry_run)] ;;
  removed <-! dict_of "removed" resp ;;
  match jget_or "skipped_locked" (JList []) resp with
  | JList skipped => mret (removed, skipped, truthy (jget_or "dry_run" (JBool dry_run) resp))
  | _ => mraise TypeError
  end.

Definition names_get (name : string) : M S (option fields) :=
  resp <-! request [("op", JStr "names_get"); ("name", JStr name)] ;;
  match jget "entry" resp with
  | JNull => mret None
  | JObj e => mret (Some e)
  | _ => mraise TypeError
  end.

Definition names_set (name : string) (channel group : Z) : M S fields :=
  resp <-! request [("op", JStr "names_set"); ("name", JStr name); ("channel", JInt channel); ("group", JInt group)] ;;
  dict_of "entry" resp.

Definition names_clear (name : string) : M S unit :=
  request [("op", JStr "names_clear"); ("name", JStr name)] ;;! mret tt.

Definition names_list : M S (list json) :=
  resp <-! request [("op", JStr "names_list")] ;;
  match jget_or "entries" (JList []) resp with JList l => mret l | _ => mraise TypeError end.

Definition mark_flashed (uid : string) : M S unit :=
  request [("op", JStr "mark_flashed"); ("uid", JStr uid)] ;;! mret tt.

(** ** The remote client *)

(** [RemoteRegistryClient.connect]: the token goes first, and a refusal
    closes the connection. *)
Definition remote_connect (auth_token : option string) : M S unit :=
  up <-! mgets tr_connected ;;
  if up : bool then mret tt
  else
    dial ;;!
    match auth_token with
    | None => mret tt
    | Some token =>
        resp <-! mtry (raw_request [("token", JStr token)])
                   (fun e => match e with
                             | RegistryUnavailable => Some (tr_hangup ;;! mraise RegistryUnavailable)
                             | _ => None
                             end) ;;
        if truthy (jget "ok" resp) then mret tt else tr_hangup ;;! raise_for_error resp
    end.

Definition remote_request (auth_token : option string) (payload : fields) : M S fields :=
  remote_connect auth_token ;;! resp <-! raw_request payload ;; checked resp.

Definition is_log (resp : fields) : bool := is_str "log" (jget "type" resp).

(** The log lines passed over, until the answer. *)
Fixpoint read_answer (fuel : nat) : M S fields :=
  match fuel with
  | O => mraise RuntimeError
  | Datatypes.S fuel' =>
      line <-! tr_readline ;;
      resp <-! as_dict line ;;
      if is_log resp then read_answer fuel' else mret resp
  end.

Definition stream_request (auth_token : option string) (payload : fields) : M S fields :=
  remote_connect auth_token ;;!
  mtry (tr_send payload ;;! n <-! mgets tr_pending ;; read_answer (Datatypes.S n)) unavailable.

Definition remote_find (auth_token : option string) (uid : string) : M S fields :=
  resp <-! remote_request auth_token [("op", JStr "find"); ("uid", JStr uid)] ;; dict_of "device" resp.

Definition remote_lock (auth_token : option string) (uid kind : string) : M S unit :=
  remote_request auth_token [("op", JStr "lock"); ("uid", JStr uid); ("kind", JStr kind)] ;;! mret tt.

Definition remote_unlock (auth_token : option string) (uid : string) : M S bool :=
  resp <-! remote_request auth_token [("op", JStr "unlock"); ("uid", JStr uid)] ;;
  mret (truthy (jget_or "released" (JBool false) resp)).

(** [flash]: upload the bytes, then flash what was staged. *)
Definition remote_flash (auth_token : option string) (uid : string) (data : string) : M S (bool * json) :=
  staged <-! remote_request auth_token [("op", JStr "send_hex"); ("data", JStr (b64encode data))] ;;
  staged_path <-! mlift (item "hex_path" staged) ;;
  resp <-! stream_request auth_token [("op", JStr "flash"); ("uid", JStr uid); ("hex_path", staged_path)] ;;
  if negb (truthy (jget "ok" resp)) && truthy (jget "code" resp) then raise_for_error resp
  else mret (truthy (jget "success" resp), jget "exit_code" resp).

(** [open_stream]: the connection is the stream's from then on. *)
Definition open_stream (auth_token : option string) (uid : string) : M S unit :=
  remote_request auth_token [("op", JStr "stream"); ("uid", JStr uid)] ;;! mret tt.
End Client.

(** [RemoteStream]'s writes, as the bytes sent. *)
Definition stream_write (data : list Z) : result (list Z) := encode_frame FRAME_DATA data.
Definition stream_break : result (list Z) := encode_frame FRAME_BREAK [].
Definition stream_dtr (value : bool) : result (list Z) := encode_frame FRAME_SET_DTR [if value then 1 else 0].
Definition stream_rts (value : bool) : result (list Z) := encode_frame FRAME_SET_RTS [if value then 1 else 0].
Definition stream_close : result (list Z) := encode_frame FRAME_CLOSE [].
