(* ===== verification/Connections.v ===== *)
(** * What a connection is made of

    Below the lines: who is at the other end of a local one and whether he
    lives ([registry/api.py]), the options of a remote one's socket
    ([registry/remote_api.py]), and what the clients open and close
    ([registry/client.py], [registry/remote_client.py]).  The operating
    system's answers are arguments. *)

From S2P Require Import Prelude Tables Json Paths Locks Api Client.
Local Open Scope py_scope.

(** ** The peer's process *)

(** [struct.unpack("i")] of four bytes, the least first. *)
Definition byte_at (i : nat) (s : string) : Z := match String.get i s with Some c => Z.of_N (N_of_ascii c) | None => 0 end.

Definition signed32 (z : Z) : Z := if z <? 2 ^ 31 then z else z - 2 ^ 32.

Definition int_at (i : nat) (s : string) : Z :=
  signed32 (byte_at i s + 2 ^ 8 * byte_at (i + 1) s + 2 ^ 16 * byte_at (i + 2) s + 2 ^ 24 * byte_at (i + 3) s).

(** What [getsockopt] returns, the number of bytes asked; another number is
    [struct.error], which is no [OSError]. *)
Definition peer_pid_linux (creds : result string) : result Z :=
  let! s := creds in if (String.length s =? 12)%nat then Ok (int_at 0 s) else Err ValueError.

Definition peer_pid_darwin (raw : result string) : result Z :=
  let! s := raw in if (String.length s =? 4)%nat then Ok (int_at 0 s) else Err ValueError.

Definition default_peer_pid (p : platform) (answer : result string) : result Z :=
  match p with
  | Linux => peer_pid_linux answer
  | Darwin => peer_pid_darwin answer
  | OtherPlatform name => if Py.startswith name "linux" then peer_pid_linux answer else Err OSError
  | Win32 => Err OSError
  end.

(** How [os.kill(pid, 0)] ends. *)
Inductive kill_answer := KillOk | ProcessLookupError | PermissionError | KillOSError.

Definition default_is_pid_alive (pid : Z) (answer : kill_answer) : bool :=
  if pid <=? 0 then false
  else match answer with KillOk | PermissionError => true | ProcessLookupError | KillOSError => false end.

(** *** The bytes the kernel writes *)

Definition pack_int (z : Z) : string :=
  let byte k := ascii_of_N (Z.to_N ((z / 2 ^ k) mod 256)) in
  String (byte 0) (String (byte 8) (String (byte 16) (String (byte 24) ""))).

Lemma byte_value z : 0 <= z < 256 -> Z.of_N (N_of_ascii (ascii_of_N (Z.to_N z))) = z.
Proof. intros H. rewrite N_ascii_embedding by lia. lia. Qed.

Lemma bytes_sum z : 0 <= z < 2 ^ 32 ->
  (z / 2 ^ 0) mod 256 + 2 ^ 8 * ((z / 2 ^ 8) mod 256) + 2 ^ 16 * ((z / 2 ^ 16) mod 256) + 2 ^ 24 * ((z / 2 ^ 24) mod 256) = z.
Proof.
  intros H. change (2 ^ 0) with 1. rewrite Z.div_1_r.
  replace (z / 2 ^ 16) with (z / 2 ^ 8 / 256) by (rewrite Z.div_div by lia; reflexivity).
  replace (z / 2 ^ 24) with (z / 2 ^ 8 / 256 / 256) by (rewrite !Z.div_div by lia; reflexivity).
  change (2 ^ 8) with 256. change (2 ^ 16) with (256 * 256). change (2 ^ 24) with (256 * 256 * 256). change (2 ^ 32) with (256 * 256 * 256 * 256) in H.
  set (a := z / 256). set (b := a / 256). set (c := b / 256).
  pose proof (Z.div_mod z 256). pose proof (Z.div_mod a 256). pose proof (Z.div_mod b 256).
  assert (0 <= c < 256) by (unfold c, b, a; rewrite !Z.div_div by lia; split; [apply Z.div_pos; lia|apply Z.div_lt_upper_bound; lia]).
  rewrite (Z.mod_small c) by lia. fold a b c in H0, H1, H2 |- *. lia.
Qed.

Lemma signed32_wraps z : - 2 ^ 31 <= z < 2 ^ 31 -> signed32 (z mod 2 ^ 32) = z.
Proof.
  intros H. unfold signed32. destruct (Z.leb_spec 0 z).
  - rewrite Z.mod_small by lia. destruct (Z.ltb_spec z (2 ^ 31)); lia.
  - replace (z mod 2 ^ 32) with (z + 2 ^ 32) by (apply (Z.mod_unique_pos _ _ (-1)); lia).
    destruct (Z.ltb_spec (z + 2 ^ 32) (2 ^ 31)); lia.
Qed.

Lemma int_at_packed z t : - 2 ^ 31 <= z < 2 ^ 31 -> int_at 0 (pack_int (z mod 2 ^ 32) +:+ t)%string = z.
Proof.
  intros H. unfold int_at, pack_int, byte_at. cbn [String.append String.get Nat.add].
  rewrite !byte_value by (apply Z.mod_pos_bound; lia).
  rewrite bytes_sum by (apply Z.mod_pos_bound; lia). apply signed32_wraps, H.
Qed.

(** The holder of a local connection is the process the kernel names, on
    Linux (whose answer also has the user and the group) and on macOS. *)
Theorem peer_pid_read pid uid gid : - 2 ^ 31 <= pid < 2 ^ 31 ->
  default_peer_pid Linux (Ok (pack_int (pid mod 2 ^ 32) +:+ (pack_int uid +:+ pack_int gid))%string) = Ok pid /\
  default_peer_pid Darwin (Ok (pack_int (pid mod 2 ^ 32) +:+ "")%string) = Ok pid.
Proof.
  intros H. split; cbn [default_peer_pid]; unfold peer_pid_linux, peer_pid_darwin; cbn [result_bind].
  - rewrite (int_at_packed pid _ H). reflexivity.
  - rewrite (int_at_packed pid _ H). reflexivity.
Qed.

(** ** Keep-alive *)

Definition KEEPALIVE_IDLE_S : Z := 30.
Definition KEEPALIVE_INTERVAL_S : Z := 10.
Definition KEEPALIVE_PROBES : Z := 3.

Definition keepalive_knobs : list (string * Z) :=
  [("TCP_KEEPIDLE", KEEPALIVE_IDLE_S); ("TCP_KEEPINTVL", KEEPALIVE_INTERVAL_S); ("TCP_KEEPCNT", KEEPALIVE_PROBES);
   ("TCP_KEEPALIVE", KEEPALIVE_IDLE_S)].

(** The options set on a connection, in order; [has] is whether the
    platform's [socket] module has an option, [accepts] whether the system
    takes it. *)
Definition configure_keepalive (has accepts : string -> bool) : list (string * Z) :=
  if accepts "SO_KEEPALIVE" then
    ("SO_KEEPALIVE", 1) :: List.filter (fun kv => has kv.1 && accepts kv.1) keepalive_knobs
  else [].

(** ** A client's connection *)

(** The descriptors it holds; [cl_open] are those of the process. *)
Record client := mkClient {
  cl_sock : option Z;
  cl_pipe : option Z;
  cl_files : bool;                       (* [_rfile] and [_wfile] *)
  cl_open : list Z }.

Definition fresh_client (open : list Z) : client := mkClient None None false open.

(** The system's answers, to opening and to each closing. *)
Record client_env := mkClientEnv {
  ce_win32 : bool;
  ce_pipe : result Z;                    (* [open_client_pipe] *)
  ce_socket : result Z;
  ce_connect : result unit;
  ce_close_files : result unit;
  ce_close : result unit }.

Section Lifecycle.
Variable E : client_env.

Definition is_up (s : client) : bool :=
  match cl_sock s, cl_pipe s with None, None => false | _, _ => true end.

(** [RegistryClient.connect]; a socket that does not connect is dropped
    with the frame. *)
Definition client_connect : M client unit :=
  up <-! mgets is_up ;;
  if up : bool then mret tt
  else if ce_win32 E then
    h <-! mtry (mlift (ce_pipe E)) (fun e => match e with OSError => Some (mraise RegistryUnavailable) | _ => None end) ;;
    mmodify (fun s => mkClient None (Some h) true (h :: cl_open s))
  else
    fd <-! mtry (fd <-! mlift (ce_socket E) ;; mlift (ce_connect E) ;;! mret fd)
             (fun e => match e with OSError => Some (mraise RegistryUnavailable) | _ => None end) ;;
    mmodify (fun s => mkClient (Some fd) None true (fd :: cl_open s)).

(** A close whose [OSError] is passed over; the system has let go of the
    descriptor either way. *)
Definition passing_over (r : result unit) : M client unit :=
  mtry (mlift r) (fun e => match e with OSError => Some (mret tt) | _ => None end).

Definition let_go (fd : Z) : M client unit :=
  mmodify (fun s => mkClient (cl_sock s) (cl_pipe s) (cl_files s) (List.filter (fun d => negb (Z.eqb d fd)) (cl_open s))).

Definition client_close : M client unit :=
  files <-! mgets cl_files ;;
  (if files : bool then passing_over (ce_close_files E) ;;! passing_over (ce_close_files E) else mret tt) ;;!
  pipe <-! mgets cl_pipe ;;
  match pipe with
  | Some h => let_go h ;;! passing_over (ce_close E) ;;! mmodify (fun s => mkClient (cl_sock s) None (cl_files s) (cl_open s))
  | None => mret tt
  end ;;!
  sock <-! mgets cl_sock ;;
  match sock with Some fd => let_go fd ;;! passing_over (ce_close E) | None => mret tt end ;;!
  mmodify (fun s => mkClient None (cl_pipe s) false (cl_open s)).

(** [RemoteRegistryClient.close]. *)
Definition remote_client_close : M client unit :=
  files <-! mgets cl_files ;;
  (if files : bool then passing_over (ce_close_files E) ;;! passing_over (ce_close_files E) else mret tt) ;;!
  sock <-! mgets cl_sock ;;
  match sock with Some fd => let_go fd ;;! passing_over (ce_close E) | None => mret tt end ;;!
  mmodify (fun s => mkClient None (cl_pipe s) false (cl_open s)).

(** [RemoteRegistryClient.connect] and what it does when the token is not
    taken: [answer] is the registry's answer to it. *)
Definition remote_client_connect (auth_token : option string) (answer : result fields) : M client unit :=
  up <-! mgets is_up ;;
  if up : bool then mret tt
  else
    fd <-! mtry (fd <-! mlift (ce_socket E) ;; mlift (ce_connect E) ;;! mret fd)
             (fun e => match e with OSError => Some (mraise RegistryUnavailable) | _ => None end) ;;
    mmodify (fun s => mkClient (Some fd) None true (fd :: cl_open s)) ;;!
    match auth_token with
    | None => mret tt
    | Some _ =>
        resp <-! mtry (mlift answer) (fun e => match e with RegistryUnavailable => Some (remote_client_close ;;! mraise RegistryUnavailable) | _ => None end) ;;
        if truthy (jget "ok" resp) then mret tt else remote_client_close ;;! raise_for_error resp
    end.

Definition only_os_error (r : result unit) : Prop := match r with Err e => e = OSError | Ok _ => True end.

Lemma passing_over_ok r s : only_os_error r -> passing_over r s = (Ok tt, s).
Proof. destruct r as [[]|e]; [reflexivity|]. intros ->. reflexivity. Qed.

Hypothesis closes : only_os_error (ce_close_files E) /\ only_os_error (ce_close E).

Lemma filter_none l : List.filter (fun d : Z => negb (bool_decide (Some d = None))) l = l.
Proof.
  induction l as [|x l IH]; [reflexivity|]. cbn [List.filter]. rewrite bool_decide_eq_false_2 by discriminate. cbn [negb].
  rewrite IH. reflexivity.
Qed.

Lemma client_close_run s : client_close s =
  (Ok tt, fresh_client (List.filter (fun d => negb (bool_decide (Some d = cl_sock s))) (List.filter (fun d => negb (bool_decide (Some d = cl_pipe s))) (cl_open s)))).
Proof.
  destruct closes as [C1 C2]. destruct s as [sock pipe files open].
  assert (F : forall x l, List.filter (fun d => negb (bool_decide (Some d = Some x))) l = List.filter (fun d => negb (Z.eqb d x)) l).
  { intros x l. apply filter_ext. intros d. f_equal. rewrite <- (bool_decide_ext (d = x) (Some d = Some x)) by (split; congruence).
    destruct (Z.eqb_spec d x) as [->|Hn]; [apply bool_decide_eq_true_2; reflexivity|apply bool_decide_eq_false_2; exact Hn]. }
  unfold client_close, mbind, mgets, mmodify, let_go, mret.
  destruct files; cbn [cl_files cl_pipe cl_sock cl_open]; rewrite ?(passing_over_ok _ _ C1);
    destruct pipe as [h|]; cbn [cl_files cl_pipe cl_sock cl_open]; unfold mmodify; rewrite ?(passing_over_ok _ _ C2); cbn [cl_files cl_pipe cl_sock cl_open];
    destruct sock as [fd|]; cbn [cl_files cl_pipe cl_sock cl_open]; unfold mmodify; rewrite ?(passing_over_ok _ _ C2); cbn [cl_files cl_pipe cl_sock cl_open];
    rewrite ?filter_none, ?F; reflexivity.
Qed.

Lemma filter_absent (open : list Z) fd : ~ In fd open -> List.filter (fun d => negb (bool_decide (Some d = Some fd))) open = open.
Proof.
  induction open as [|x open IH]; [reflexivity|]. intros H. cbn [List.filter].
  rewrite bool_decide_eq_false_2 by (intros [= ->]; apply H; left; reflexivity). cbn [negb]. rewrite IH; [reflexivity|]. intros Hi. apply H. right. exact Hi.
Qed.

Definition opens_new (fd : result Z) (open : list Z) : Prop := match fd with Ok fd => ~ In fd open | Err e => e = OSError end.

(** What a connect, on a client that is not connected, leaves: one more
    open descriptor, or an error and nothing; and a close leaves none. *)
Definition balanced (open : list Z) (connect close : M client unit) : Prop :=
  let s1 := mstate connect (fresh_client open) in
  match mresult connect (fresh_client open) with
  | Ok _ => exists fd, cl_open s1 = fd :: open /\ is_up s1 = true
  | Err _ => s1 = fresh_client open
  end /\
  close s1 = (Ok tt, fresh_client open) /\ close (fresh_client open) = (Ok tt, fresh_client open).

(** Without a pipe the two closes are one. *)
Lemma remote_close_run s : cl_pipe s = None -> remote_client_close s = client_close s.
Proof.
  destruct closes as [C1 C2]. destruct s as [sock pipe files open]. cbn [cl_pipe]. intros ->.
  unfold remote_client_close, client_close, mbind, mgets, mmodify, let_go, mret.
  destruct files; cbn [cl_files cl_pipe cl_sock cl_open]; rewrite ?(passing_over_ok _ _ C1); reflexivity.
Qed.

Lemma closes_sock fd open : ~ In fd open -> client_close (mkClient (Some fd) None true (fd :: open)) = (Ok tt, fresh_client open).
Proof.
  intros H. rewrite client_close_run. cbn [cl_sock cl_pipe cl_open]. rewrite filter_none. cbn [List.filter].
  rewrite bool_decide_eq_true_2 by reflexivity. cbn [negb]. rewrite filter_absent by exact H. reflexivity.
Qed.

Lemma closes_pipe h open : ~ In h open -> client_close (mkClient None (Some h) true (h :: open)) = (Ok tt, fresh_client open).
Proof.
  intros H. rewrite client_close_run. cbn [cl_sock cl_pipe cl_open]. rewrite filter_none. cbn [List.filter]. rewrite bool_decide_eq_true_2 by reflexivity. cbn [negb].
  rewrite filter_absent by exact H. reflexivity.
Qed.

Lemma closes_fresh open : client_close (fresh_client open) = (Ok tt, fresh_client open).
Proof.
  rewrite client_close_run. cbn [cl_sock cl_pipe cl_open fresh_client]. unfold fresh_client.
  rewrite !filter_none. reflexivity.
Qed.
End Lifecycle.

(** Whatever the system answers and whoever is at the other end, a client
    that connects has one more descriptor open and one that cannot, or whose
    token is refused, has none; a close gives back the one there is, and may
    be repeated. *)
Theorem client_balanced E open auth_token answer :
  only_os_error (ce_close_files E) /\ only_os_error (ce_close E) ->
  opens_new (ce_pipe E) open -> opens_new (ce_socket E) open -> only_os_error (ce_connect E) ->
  match answer with Err e => e = RegistryUnavailable | Ok _ => True end ->
  balanced open (client_connect E) (client_close E) /\
  balanced open (remote_client_connect E auth_token answer) (remote_client_close E).
Proof.
  intros HC Hp Hs Hc Ha. pose proof (closes_fresh E HC open) as Hf. unfold balanced, mresult, mstate.
  unfold client_connect, remote_client_connect, mbind, mgets, mmodify, mtry, mlift, mret, mraise, fresh_client in *. cbn [is_up cl_sock cl_pipe].
  assert (S1 : forall fd, ~ In fd open -> client_close E (mkClient (Some fd) None true (fd :: open)) = (Ok tt, mkClient None None false open))
    by (intros fd; exact (closes_sock E HC fd open)).
  assert (R1 : forall fd, ~ In fd open -> remote_client_close E (mkClient (Some fd) None true (fd :: open)) = (Ok tt, mkClient None None false open))
    by (intros fd H; rewrite (remote_close_run E HC) by reflexivity; exact (S1 fd H)).
  assert (Rf : remote_client_close E (mkClient None None false open) = (Ok tt, mkClient None None false open))
    by (rewrite (remote_close_run E HC) by reflexivity; exact Hf).
  assert (P1 : forall fd, ~ In fd open -> client_close E (mkClient None (Some fd) true (fd :: open)) = (Ok tt, mkClient None None false open))
    by (intros fd; exact (closes_pipe E HC fd open)).
  split.
  - destruct (ce_win32 E).
    + destruct (ce_pipe E) as [h|e]; cbn -[client_close] in *; [|subst e; cbn -[client_close]; auto]. split; [eauto|]. split; [exact (P1 h Hp)|exact Hf].
    + destruct (ce_socket E) as [fd|e]; cbn -[client_close] in *; [|subst e; cbn -[client_close]; auto]. destruct (ce_connect E) as [[]|e]; cbn -[client_close] in *; [|subst e; cbn -[client_close]; auto].
      split; [eauto|]. split; [exact (S1 fd Hs)|exact Hf].
  - destruct (ce_socket E) as [fd|e]; cbn -[remote_client_close] in *; [|subst e; cbn -[remote_client_close]; auto]. destruct (ce_connect E) as [[]|e]; cbn -[remote_client_close] in *; [|subst e; cbn -[remote_client_close]; auto].
    destruct auth_token as [token|]; [|cbn -[remote_client_close]; split; [eauto|]; split; [exact (R1 fd Hs)|exact Rf]]. destruct answer as [resp|e]; cbn -[remote_client_close] in *.
    + destruct (truthy (jget "ok" resp)); [cbn -[remote_client_close]; split; [eauto|]; split; [exact (R1 fd Hs)|exact Rf]|].
      rewrite (R1 fd Hs). unfold raise_for_error, mraise. cbn -[remote_client_close]. auto.
    + subst e. rewrite (R1 fd Hs). cbn -[remote_client_close]. auto.
Qed.
