(* ===== verification/Build.v ===== *)
(** * [deploy/cli.py], [common/__init__.py], [_stub.py]: small commands and texts

    [mbdeploy build], which runs a build script and answers its exit code;
    the message of a lock that is held; the commands that only say what is
    to come. *)

From S2P Require Import Prelude Tables Json Client.
Local Open Scope py_scope.

Section Build.
(** Is there a [build.py] in the working directory; what a command answers. *)
Variable has_build_py : bool.
Variable executable : string.
Variable run : list string -> result Z.

Definition build_flags (clean verbose : bool) (jobs : option Z) : list string :=
  (if clean then ["--clean"] else []) ++ (if verbose then ["--verbose"] else []) ++
  match jobs with Some n => ["-j"; pretty n] | None => [] end.

(** The command, unless there is none. *)
Definition build_command (build_cmd : option string) (clean verbose : bool) (jobs : option Z) : option (list string) :=
  match build_cmd with
  | Some (String c s) => Some (Py.split_ws (String c s) ++ build_flags clean verbose jobs)
  | _ => if has_build_py then Some ([executable; "build.py"] ++ build_flags clean verbose jobs) else None
  end.

Definition cmd_build (build_cmd : option string) (clean verbose : bool) (jobs : option Z) : result Z :=
  match build_command build_cmd clean verbose jobs with
  | Some cmd => run cmd
  | None => Ok EXIT_ERROR
  end.

(** [debug]'s pyOCD, with the terminal its own. *)
Definition run_pyocd (cmd : list string) : result Z := run cmd.
End Build.

Section Messages.
Variable str : json -> string.                      (* an f-string's [str] of a value *)

Definition format_locked_message (name : string) (holder : fields) : string :=
  let kind := jget "kind" holder in
  let host := jget "host" holder in
  if truthy host then (name +:+ " is locked for " +:+ str kind +:+ " by a remote session on " +:+ str host)%string
  else (name +:+ " is locked for " +:+ str kind +:+ " by pid " +:+ str (jget "pid" holder))%string.
End Messages.

(** What is told on standard error, and the exit status. *)
Definition stub_main (program where_ : string) : string * Z :=
  ((program +:+ ": not yet implemented — see mbtools " +:+ where_)%string, 1).

(** ** Properties *)

(** The flags are last and in their order whichever the command, and a
    command given is used whether or not there is a script. *)
Lemma build_command_flags h e build_cmd clean verbose jobs cmd :
  build_command h e build_cmd clean verbose jobs = Some cmd ->
  exists base, cmd = base ++ build_flags clean verbose jobs /\
    base = match build_cmd with Some (String _ _ as s) => Py.split_ws s | _ => [e; "build.py"] end.
Proof.
  unfold build_command. destruct build_cmd as [[|c s]|]; destruct h; try discriminate; intros [= <-];
    eexists; (split; [|reflexivity]); reflexivity.
Qed.

Example a_build : cmd_build true "python" (fun cmd => Ok (Z.of_nat (length cmd))) None true false (Some 8) = Ok 5.
Proof. reflexivity. Qed.
