(* ===== verification/Feeds.v ===== *)
(** * [registry/_api_base.py], [api.py], [remote_client.py]: what a
      connection becomes

    The modes a connection never comes back from, at both ends: the
    client's side of a stream, the splice of a virtual board's stream, the
    watch feed, and the connection that holds a registration.  A stream's
    server side is Stream's. *)

From S2P Require Import Prelude Tables Json Identity Virtual StreamFrame Store Locks EventBus Peering.
From S2P Require Import Api Stream Client.
Local Open Scope py_scope.

(** ** [RemoteStream] *)

Record rstream := mkRstream {
  rs_in : conn_in;
  rs_out : list Z;              (* the bytes sent *)
  rs_closed : bool;
  rs_sock : bool }.             (* the socket is open *)

Definition new_rstream (i : conn_in) : rstream := mkRstream i [] false true.

Section RemoteStream.
Variable can_send : list Z -> bool.      (* can more be sent, after these bytes *)

(** [_send_frame]. *)
Definition rs_send (frame : result (list Z)) : M rstream unit :=
  bs <-! mlift frame ;;
  ready <-! mgets (fun s => rs_sock s && can_send (rs_out s)) ;;
  if ready : bool then mmodify (fun s => mkRstream (rs_in s) (rs_out s ++ bs) (rs_closed s) (rs_sock s))
  else mraise RegistryUnavailable.

Definition rs_write (data : list Z) : M rstream unit := rs_send (stream_write data).
Definition rs_send_break : M rstream unit := rs_send stream_break.
Definition rs_set_dtr (value : bool) : M rstream unit := rs_send (stream_dtr value).
Definition rs_set_rts (value : bool) : M rstream unit := rs_send (stream_rts value).

(** [_read_exact]: what [recv] raises is the transport's. *)
Definition rs_read_exact (n : Z) : M rstream (list Z) := fun s =>
  if rs_sock s || (n <=? 0) then
    let (r, i) := mtry (read_exact n) (fun e => match e with OSError => Some (mraise RegistryUnavailable) | _ => None end) (rs_in s) in
    (r, mkRstream i (rs_out s) (rs_closed s) (rs_sock s))
  else (Err RegistryUnavailable, s).

Definition rs_read_frame : M rstream (option (Z * list Z)) :=
  mtry (read_frame rs_read_exact)
    (fun e => match e with FrameError => Some (mraise RegistryUnavailable) | _ => None end).

Definition rs_read : M rstream (option (list Z)) :=
  frame <-! rs_read_frame ;;
  mret match frame with
       | None => None
       | Some (frame_type, payload) => if frame_type =? FRAME_CLOSE then None else Some payload
       end.

Definition rs_close : M rstream unit :=
  closed <-! mgets rs_closed ;;
  if closed : bool then mret tt
  else
    mmodify (fun s => mkRstream (rs_in s) (rs_out s) true (rs_sock s)) ;;!
    mtry (rs_send stream_close) (fun e => match e with RegistryUnavailable => Some (mret tt) | _ => None end) ;;!
    mmodify (fun s => mkRstream (rs_in s) (rs_out s) (rs_closed s) false).

(** A caller that reads to the end. *)
Fixpoint rs_read_all (fuel : nat) : M rstream (list (list Z)) :=
  match fuel with
  | O => mraise RuntimeError
  | S fuel' =>
      data <-! rs_read ;;
      match data with None => mret [] | Some d => ds <-! rs_read_all fuel' ;; mret (d :: ds) end
  end.

(** A caller that asks for things, then closes. *)
Definition rs_ask (a : port_action) : M rstream unit :=
  match a with
  | PWrite data => rs_write data
  | PBreak => rs_send_break
  | PSetDtr v => rs_set_dtr v
  | PSetRts v => rs_set_rts v
  | PClose => mret tt
  end.
Definition rs_session (asked : list port_action) : M rstream unit :=
  mfinally (mfor asked rs_ask) rs_close.
End RemoteStream.

(** ** [_handle_virtual_stream] *)

(** Two threads, each with a socket to read and the other's to write: what
    the two ends have still to send, whether they then hang up, what was
    passed on, and the shutdowns. *)
Record splice := mkSplice {
  sp_buf : list Z;                     (* [ep.buf] *)
  sp_from_endpoint : list (list Z);
  sp_from_client : list (list Z);
  sp_to_client : list Z;
  sp_to_endpoint : list Z;
  sp_client_up : bool;                 (* the reader has not shut [conn] down *)
  sp_endpoint_up : bool;               (* the main loop has not shut [ep.sock] down *)
  sp_reader : bool;                    (* the reader thread lives *)
  sp_main : bool }.                    (* the main loop runs *)

Section Splice.
Variables endpoint_ends client_ends : bool.   (* after their last byte they hang up *)
Variable may_fail : bool.                     (* a read or a write may raise [OSError] *)

Inductive splice_step : splice -> splice -> Prop :=
| sp_flush buf e c tc te cu eu m : buf <> [] ->
    splice_step (mkSplice buf e c tc te cu eu true m) (mkSplice [] e c (tc ++ buf) te cu eu true m)
| sp_down d e c tc te cu eu m :
    splice_step (mkSplice [] (d :: e) c tc te cu eu true m) (mkSplice [] e c (tc ++ d) te cu eu true m)
| sp_down_end e c tc te cu eu m : (e = [] /\ endpoint_ends = true) \/ eu = false ->
    splice_step (mkSplice [] e c tc te cu eu true m) (mkSplice [] e c tc te false eu false m)
| sp_down_error buf e c tc te cu eu m : may_fail = true ->
    splice_step (mkSplice buf e c tc te cu eu true m) (mkSplice buf e c tc te false eu false m)
| sp_up d buf e c tc te cu eu r :
    splice_step (mkSplice buf e (d :: c) tc te cu eu r true) (mkSplice buf e c tc (te ++ d) cu eu r true)
| sp_up_end buf e c tc te cu eu r : (c = [] /\ client_ends = true) \/ cu = false ->
    splice_step (mkSplice buf e c tc te cu eu r true) (mkSplice buf e c tc te cu false r false)
| sp_up_error buf e c tc te cu eu r : may_fail = true ->
    splice_step (mkSplice buf e c tc te cu eu r true) (mkSplice buf e c tc te cu false r false).
End Splice.

Definition splice_start (buf : list Z) (from_endpoint from_client : list (list Z)) : splice :=
  mkSplice buf from_endpoint from_client [] [] true true true true.

(** ** [_handle_watch] *)

(** [q.get()] on a queue that is not empty. *)
Definition bus_get (q : nat) : M bus (option json) := fun b =>
  match bus_queues b !! q with
  | Some (e :: l) => (Ok (Some e), mkBus (<[q := l]> (bus_queues b)) (bus_subscribers b))
  | _ => (Ok None, b)
  end.

(** What happens in turn: another thread uses the bus, or the loop runs,
    when there is an event, and writes it or cannot. *)
Inductive watch_turn := WOther (o : bus_op) | WServe (writable : bool).

Record watching := mkWatching { wa_bus : bus; wa_written : list json }.

Definition on_watch_bus {A} (m : M bus A) : M watching A :=
  fun s => let (r, b) := m (wa_bus s) in (r, mkWatching b (wa_written s)).

(** The loop over the turns there are; it returns only to end. *)
Fixpoint watch_loop (q : nat) (turns : list watch_turn) : M watching bool :=
  match turns with
  | [] => mret false
  | WOther o :: turns' => on_watch_bus (mmodify (bus_exec o)) ;;! watch_loop q turns'
  | WServe writable :: turns' =>
      event <-! on_watch_bus (bus_get q) ;;
      match event with
      | None => watch_loop q turns'
      | Some e =>
          if writable then mmodify (fun s => mkWatching (wa_bus s) (wa_written s ++ [e])) ;;! watch_loop q turns'
          else mret true
      end
  end.

(** Whether the feed has ended, and its queue. *)
Definition handle_watch (turns : list watch_turn) : M watching (nat * bool) :=
  q <-! on_watch_bus subscribe ;;
  ended <-! watch_loop q turns ;;
  if ended : bool then on_watch_bus (unsubscribe q) ;;! mret (q, true) else mret (q, false).

(** ** [_hold_registration] *)

Fixpoint drain (fuel : nat) : M conn_in unit :=
  match fuel with
  | O => mraise RuntimeError
  | S fuel' => chunk <-! recv 4096 ;; match chunk with [] => mret tt | _ => drain fuel' end
  end.

(** Every [recv] takes a byte at least. *)
Definition hold_registration (A : api_env) (reg : VirtualRegistration) : M (astate * conn_in) unit :=
  let on_conn := fun m : M conn_in unit => fun s => let (r, i) := m s.2 in (r, (s.1, i)) in
  let on_server := fun m : M astate unit => fun s => let (r, a) := m s.1 in (r, (a, s.2)) in
  mfinally
    (mtry (n <-! (fun s : astate * conn_in => (Ok (length (pending s.2)), s)) ;; on_conn (drain (S n)))
          (fun e => match e with OSError => Some (mret tt) | _ => None end))
    (on_server (detach_virtual A reg)).
