(* ===== verification/FeedsFacts.v ===== *)
(** * Properties of the long-lived connections

    A stream from end to end; the splice's two threads; what a watcher is
    sent; when a registered board is let go of. *)

From S2P Require Import Prelude Tables Trace Json Identity Virtual StreamFrame Store Locks EventBus Peering.
From S2P Require Import Api ApiFacts Stream Client Feeds.
Local Open Scope py_scope.

(** ** A stream, from end to end *)

Definition sendable : list Z -> bool := fun _ => true.

Definition frame_of (a : port_action) : Z * list Z :=
  match a with
  | PWrite data => (FRAME_DATA, data)
  | PBreak => (FRAME_BREAK, [])
  | PSetDtr v => (FRAME_SET_DTR, [if v then 1 else 0])
  | PSetRts v => (FRAME_SET_RTS, [if v then 1 else 0])
  | PClose => (FRAME_CLOSE, [])
  end.

(** What a client may ask: it closes in its own way, and a server takes no
    more than a mebibyte at once. *)
Definition askable (a : port_action) : Prop :=
  match a with PWrite data => zlen data <= MAX_FRAME_PAYLOAD | PClose => False | _ => True end.

Lemma frame_of_action a : askable a -> action_of (frame_of a) = [a] /\ goes_on (frame_of a) = true /\
  zlen (snd (frame_of a)) <= MAX_FRAME_PAYLOAD.
Proof.
  destruct a as [data| |[|]|[|]|]; cbn [askable frame_of snd]; intros H; try contradiction;
    (split; [reflexivity|]); (split; [vm_compute; reflexivity|]); first [exact H | vm_compute; discriminate].
Qed.

Lemma frames_asked asked : Forall askable asked ->
  concat (map action_of (map frame_of asked)) = asked /\ forallb goes_on (map frame_of asked) = true /\
  Forall (fun f => zlen (snd f) <= MAX_FRAME_PAYLOAD) (map frame_of asked).
Proof.
  induction 1 as [|a asked Ha _ (I1 & I2 & I3)]; [repeat split; constructor|].
  destruct (frame_of_action a Ha) as (A1 & A2 & A3). cbn [map concat forallb].
  rewrite A1, A2, I1, I2. repeat split. constructor; assumption.
Qed.

Lemma encodes f : (0 <= f.1 < 256) -> zlen f.2 <= MAX_FRAME_PAYLOAD -> exists bs, encode_frame f.1 f.2 = Ok bs.
Proof.
  intros H1 H2. destruct (encode_frame_ok f.1 f.2 H1) as (h & E & _); [pose proof max_lt_2_32; lia|eauto].
Qed.

Lemma ask_sends a s : askable a -> rs_sock s = true -> exists bs, encode_frame (frame_of a).1 (frame_of a).2 = Ok bs /\
  rs_ask sendable a s = (Ok tt, mkRstream (rs_in s) (rs_out s ++ bs) (rs_closed s) true).
Proof.
  destruct s as [i out cl so]. cbn [rs_sock]. intros Ha ->. destruct (encodes (frame_of a)) as [bs E].
  { destruct a as [| |[|]|[|]|]; vm_compute; split; congruence. }
  { apply frame_of_action. exact Ha. }
  exists bs. split; [exact E|].
  destruct a; cbn [rs_ask frame_of askable fst snd] in *; try contradiction;
    unfold rs_write, rs_send_break, rs_set_dtr, rs_set_rts, stream_write, stream_break, stream_dtr, stream_rts;
    rewrite E; reflexivity.
Qed.

Lemma asks_send asked : forall s, Forall askable asked -> rs_sock s = true -> exists bs,
  encode_frames (map frame_of asked) = Ok bs /\
  mfor asked (rs_ask sendable) s = (Ok tt, mkRstream (rs_in s) (rs_out s ++ bs) (rs_closed s) true).
Proof.
  induction asked as [|a asked IH]; intros s HF Hs.
  - exists []. split; [reflexivity|]. cbn. rewrite app_nil_r. destruct s; cbn in *. subst. reflexivity.
  - inversion HF as [|? ? Ha HF']; subst. destruct (ask_sends a s Ha Hs) as (bs & E & R).
    cbn [mfor]. rewrite bind_run, R. destruct (IH (mkRstream (rs_in s) (rs_out s ++ bs) (rs_closed s) true) HF' eq_refl) as (bs' & E' & R').
    exists (bs ++ bs'). cbn [map encode_frames]. destruct (frame_of a) as [t p]. cbn [fst snd] in E. rewrite E, E'.
    split; [reflexivity|]. rewrite R'. cbn. rewrite app_assoc. reflexivity.
Qed.

(** A session sends what was asked, then closes. *)
Lemma session_sends asked i : Forall askable asked -> exists bs close,
  encode_frames (map frame_of asked) = Ok bs /\ encode_frame FRAME_CLOSE [] = Ok close /\
  rs_session sendable asked (new_rstream i) = (Ok tt, mkRstream i (bs ++ close) true false).
Proof.
  intros HF. destruct (asks_send asked (new_rstream i) HF eq_refl) as (bs & E & R).
  destruct (encodes (FRAME_CLOSE, [])) as [close Ec]; [vm_compute; split; congruence|vm_compute; discriminate|].
  exists bs, close. split; [exact E|]. split; [exact Ec|]. unfold rs_session, mfinally. rewrite R.
  cbn [fst snd] in Ec. unfold rs_close, stream_close. rewrite Ec. reflexivity.
Qed.

Lemma rs_frame s : rs_sock s = true -> rs_read_frame s =
  let (r, i) := read_frame read_exact (rs_in s) in
  (match r with Err OSError | Err FrameError => Err RegistryUnavailable | r => r end,
   mkRstream i (rs_out s) (rs_closed s) true).
Proof.
  destruct s as [i out cl so]. cbn [rs_sock rs_in rs_out rs_closed]. intros ->.
  unfold rs_read_frame, read_frame, rs_read_exact, mtry, mbind, mraise. cbn [rs_sock rs_in rs_out rs_closed orb].
  destruct (read_exact HEADER_SIZE i) as [[h|[]] i1]; try reflexivity.
  destruct (zlen h =? 0); [reflexivity|]. destruct (zlen h <? HEADER_SIZE); [reflexivity|].
  set (n := from_bytes _). destruct (MAX_FRAME_PAYLOAD <? n); [reflexivity|]. destruct (n =? 0); [reflexivity|].
  cbn [rs_sock rs_in rs_out rs_closed orb].
  destruct (read_exact n i1) as [[p|[]] i2]; try reflexivity. destruct (zlen p <? n); reflexivity.
Qed.

(** A frame of data, in whatever pieces, and the end. *)
Lemma reads_data d b bs i out cl : pieces_ok i -> zlen d <= MAX_FRAME_PAYLOAD -> encode_frame FRAME_DATA d = Ok b ->
  pending i = b ++ bs -> exists i', rs_read (mkRstream i out cl true) = (Ok (Some d), mkRstream i' out cl true) /\
  pieces_ok i' /\ in_eof i' = in_eof i /\ pending i' = bs.
Proof.
  intros Hp Hd E Hi. unfold rs_read. rewrite bind_run, rs_frame by reflexivity. cbn [rs_in rs_out rs_closed].
  destruct (read_frame_pieces i Hp) as (P1 & P2 & P3). rewrite Hi, (read_encoded FRAME_DATA d b bs Hd E) in P3.
  destruct P3 as (P3 & P4 & _). destruct (read_frame read_exact i) as [r i1]. cbn [fst snd] in *. subst r. eauto.
Qed.

Lemma reads_end i out cl : pieces_ok i -> in_eof i = true -> pending i = [] -> exists i',
  rs_read (mkRstream i out cl true) = (Ok None, mkRstream i' out cl true).
Proof.
  intros Hp He Hi. unfold rs_read. rewrite bind_run, rs_frame by reflexivity. cbn [rs_in rs_out rs_closed].
  destruct (read_exact_spec HEADER_SIZE i Hp) as (_ & _ & [(_ & Hr & _)|(_ & Hc & _)]); [|congruence].
  unfold read_frame. rewrite bind_run. destruct (read_exact HEADER_SIZE i) as [r i2]. cbn [fst] in Hr. subst r.
  rewrite Hi, firstn_nil. cbn. eauto.
Qed.

(** Frames of data are read back in order. *)
Lemma read_all_data datas : forall bs i out cl fuel, pieces_ok i -> in_eof i = true ->
  Forall (fun d => zlen d <= MAX_FRAME_PAYLOAD) datas ->
  encode_frames (map (fun d => (FRAME_DATA, d)) datas) = Ok bs -> pending i = bs -> (length datas < fuel)%nat ->
  mresult (rs_read_all fuel) (mkRstream i out cl true) = Ok datas.
Proof.
  induction datas as [|d datas IH]; intros bs i out cl [|fuel] Hp He HF E Hi Hf; try (cbn in Hf; lia);
    unfold mresult; cbn [rs_read_all]; rewrite bind_run; cbn [map encode_frames] in E.
  - injection E as <-. destruct (reads_end i out cl Hp He Hi) as [i' ->]. reflexivity.
  - destruct (encode_frame FRAME_DATA d) as [b|] eqn:E1; [|discriminate].
    destruct (encode_frames _) as [bs'|] eqn:E2; [|discriminate]. cbn [result_bind] in E. injection E as <-.
    inversion HF as [|? ? Hd HF']; subst. destruct (reads_data d b bs' i out cl Hp Hd E1 Hi) as (i1 & -> & P1 & P2 & P3).
    rewrite bind_run. pose proof (IH bs' i1 out cl fuel P1 (eq_trans P2 He) HF' eq_refl P3 ltac:(cbn in Hf; lia)) as R. unfold mresult in R.
    destruct (rs_read_all fuel _) as [r s2]. cbn in R. subst r. reflexivity.
Qed.

(** C18: a stream carries both ways, from end to end. What a client asks of
    the port, however the network splits it, the owning host's port is
    given, all of it, in order and nothing else, before it is closed; and a
    client that reads to the end gets exactly what the reader thread read
    off the port, piece by piece. A piece to write is at most a mebibyte. *)
Theorem stream_end_to_end port_do asked evs i chunks eof chunks' fuel :
  accepts port_do -> Forall askable asked ->
  Forall (fun e => match e with URead data _ => zlen data <= MAX_FRAME_PAYLOAD | _ => True end) evs ->
  let s := mstate (rs_session sendable asked) (new_rstream i) in
  Forall (fun c => c <> []) chunks -> concat chunks = rs_out s ->
  Forall (fun c => c <> []) chunks' -> concat chunks' = (pump_port evs).1 -> (length (port_data evs) < fuel)%nat ->
  ss_port (mstate (run_stream port_do) (mkSession (mkConnIn chunks eof) [])) = asked /\
  rs_sock s = false /\
  mresult (rs_read_all fuel) (new_rstream (mkConnIn chunks' true)) = Ok (port_data evs).
Proof.
  intros Hacc Hask Hevs s Hc Ec Hc' Ec' Hf.
  destruct (session_sends asked i Hask) as (bs & close & E1 & E2 & E3). unfold s, mstate in *. rewrite E3 in *. clear s E3.
  cbn [snd rs_out rs_sock] in *. destruct (frames_asked asked Hask) as (F1 & F2 & F3). split; [|split; [reflexivity|]].
  - destruct (run_stream_spec port_do (mkSession (mkConnIn chunks eof) []) Hc) as (taken & T1 & _ & T3 & _).
    unfold mstate in T1. rewrite T1. cbn [ss_port ss_in app]. rewrite (T3 Hacc). cbn [ss_in pending in_chunks]. unfold pending. cbn [in_chunks].
    rewrite Ec, <- F1 at 1. apply (requested_encoded _ bs close F3 F2 E1). right. exists []. rewrite app_nil_r.
    assert (H : firstn 5 close = close).
    { vm_compute in E2. injection E2 as <-. reflexivity. }
    rewrite H. auto.
  - destruct (pump_encodes evs Hevs) as [P1 P2]. apply (read_all_data _ (pump_port evs).1); auto.
    exact (proj1 (List.Forall_map _ _ _) P2).
Qed.

Lemma stream_end_to_end_witness :
  let asked := [PSetDtr false; PWrite [104; 105]; PBreak] in
  let evs := [URead [111; 107] true; UCheck true; URead [33] true; UFail] in
  ss_port (mstate (run_stream (fun _ _ => Ok tt)) (mkSession (mkConnIn
    [[3; 0; 0]; [0; 1; 0; 1; 0; 0; 0; 2; 104]; [105; 2; 0; 0; 0; 0; 5; 0; 0; 0; 0]] true) [])) = asked /\
  mresult (rs_read_all 3) (new_rstream (mkConnIn [[1; 0; 0]; [0; 2; 111; 107; 1; 0; 0; 0; 1]; [33]] true)) =
    Ok [[111; 107]; [33]].
Proof.
  intros asked evs.
  destruct (stream_end_to_end (fun _ _ => Ok tt) asked evs (mkConnIn [] true)
    [[3; 0; 0]; [0; 1; 0; 1; 0; 0; 0; 2; 104]; [105; 2; 0; 0; 0; 0; 5; 0; 0; 0; 0]] true
    [[1; 0; 0]; [0; 2; 111; 107; 1; 0; 0; 0; 1]; [33]] 3) as (A & _ & B);
    [intros ? ?; reflexivity|repeat constructor; vm_compute; discriminate|repeat constructor; vm_compute; discriminate
    |repeat constructor; discriminate|reflexivity|repeat constructor; discriminate|reflexivity|cbn; lia|].
  split; [exact A|exact B].
Defined.

(** A write of more than that ends the stream, whatever it holds. *)
Lemma oversized_write_ends_stream port_do data i chunks eof bs :
  MAX_FRAME_PAYLOAD < zlen data < 2 ^ 32 -> Forall (fun c => c <> []) chunks ->
  concat chunks = rs_out (mstate (rs_session sendable [PWrite data]) (new_rstream i)) ->
  encode_frame FRAME_DATA data = Ok bs ->
  ss_port (mstate (run_stream port_do) (mkSession (mkConnIn chunks eof) [])) = [].
Proof.
  intros Hd Hc Ec E. destruct (run_stream_spec port_do (mkSession (mkConnIn chunks eof) []) Hc) as (taken & T1 & T2 & _).
  rewrite T1. cbn [ss_port app ss_in] in *. unfold pending in T2. cbn [in_chunks] in T2.
  assert (R : requested (concat chunks) = []); [|rewrite R in T2; apply prefix_nil_inv; exact T2].
  unfold requested. cbn [frames_of].
  assert (F : exists rest, read_frame buf_read (concat chunks) = (Err FrameError, rest)); [|destruct F as [rest ->]; reflexivity].
  rewrite Ec. unfold rs_session, mfinally, mstate. cbn [mfor rs_ask]. unfold rs_write, stream_write. rewrite E.
  destruct (encode_frame_ok FRAME_DATA data) as (h & E' & Hl & _ & Hv); [split; vm_compute; congruence|lia|].
  rewrite E in E'. injection E' as ->. destruct h as [|b3 [|b2 [|b1 [|b0 [|]]]]]; try discriminate.
  set (tl := rs_out _). assert (Et : exists more, tl = FRAME_DATA :: [b3; b2; b1; b0] ++ more).
  { subst tl. destruct (encode_frame FRAME_CLOSE []) as [cl|] eqn:Ecl; [|discriminate].
    unfold rs_close, stream_close. rewrite Ecl. cbn. eauto. }
  destruct Et as [more ->]. unfold read_frame. rewrite bind_run. unfold buf_read at 1. cbn [firstn skipn app Z.to_nat].
  change (Z.to_nat HEADER_SIZE) with 5%nat. cbn [firstn skipn]. rewrite ?take_0, ?drop_0.
  change (zlen [FRAME_DATA; b3; b2; b1; b0] =? 0) with false. change (zlen [FRAME_DATA; b3; b2; b1; b0] <? HEADER_SIZE) with false.
  cbv iota. cbn [firstn skipn nth]. rewrite ?take_0, Hv. rewrite (proj2 (Z.ltb_lt _ _) (proj1 Hd)). eexists. reflexivity.
Qed.

(** ** The splice *)

Lemma nsteps_keeps {S} (R : S -> S -> Prop) (P : S -> Prop) n x y :
  (forall x y, R x y -> P x -> P y) -> nsteps R n x y -> P x -> P y.
Proof. intros H. induction 1 as [|n x y z Hxy _ IH]; [auto|]. intros Hx. exact (IH (H _ _ Hxy Hx)). Qed.

Section Splice.
Variables ee ce fails : bool.
Variable buf0 : list Z.
Variables e0 c0 : list (list Z).
Notation step := (splice_step ee ce fails) (only parsing).
Notation start := (splice_start buf0 e0 c0) (only parsing).

(** Nothing is lost, added or reordered. *)
Definition whole (s : splice) : Prop :=
  sp_to_client s ++ sp_buf s ++ concat (sp_from_endpoint s) = buf0 ++ concat e0 /\
  sp_to_endpoint s ++ concat (sp_from_client s) = concat c0.

Lemma step_whole s s' : step s s' -> whole s -> whole s'.
Proof.
  intros [] [H1 H2]; unfold whole in *; cbn in *; rewrite <- ?app_assoc, ?app_nil_l in *; auto.
Qed.

(** A thread that is over has shut the other's socket down. *)
Definition coupled (s : splice) : Prop := sp_client_up s = sp_reader s /\ sp_endpoint_up s = sp_main s.

Lemma step_coupled s s' : step s s' -> coupled s -> coupled s'.
Proof. intros [] [H1 H2]; unfold coupled in *; cbn in *; auto. Qed.

Definition left_to_do (s : splice) : nat :=
  (match sp_buf s with [] => 0 | _ => 1 end + length (sp_from_endpoint s) + length (sp_from_client s) +
   Nat.b2n (sp_reader s) + Nat.b2n (sp_main s))%nat.

Lemma step_lowers s s' : step s s' -> (left_to_do s' < left_to_do s)%nat.
Proof. intros []; unfold left_to_do; cbn; try lia. destruct buf; [congruence|]. cbn. lia. Qed.

Lemma steps_bounded n s s' : nsteps step n s s' -> (n + left_to_do s' <= left_to_do s)%nat.
Proof. induction 1 as [|n a b c Hab _ IH]; [lia|]. apply step_lowers in Hab. lia. Qed.

(** The end whose other side never hangs up gets everything first. *)
Definition served_first (s : splice) : Prop :=
  (ce = false -> (sp_endpoint_up s = false -> sp_client_up s = false) /\
                 (sp_client_up s = false -> sp_buf s = [] /\ sp_from_endpoint s = [])) /\
  (ee = false -> (sp_client_up s = false -> sp_endpoint_up s = false) /\
                 (sp_endpoint_up s = false -> sp_from_client s = [])).

Lemma step_served s s' : fails = false -> step s s' -> coupled s -> served_first s -> served_first s'.
Proof.
  intros Hf Hs [C1 C2] [I1 I2]. destruct Hs; unfold served_first in *; cbn in *; subst; try congruence.
  all: split; intros Hc; try specialize (I1 Hc); try specialize (I2 Hc); naive_solver congruence.
Qed.

Lemma stuck_over s : fails = false -> coupled s -> served_first s -> (forall s', ~ step s s') ->
  (ee || ce = true -> sp_reader s = false /\ sp_main s = false) /\
  (ce = false -> sp_buf s = [] /\ sp_from_endpoint s = []) /\ (ee = false -> sp_from_client s = []).
Proof.
  destruct s as [buf e c tc te cu eu r m]. cbn. intros Hf [C1 C2] [I1 I2] Hn. cbn in *. subst cu eu.
  assert (Hr : r = true -> buf = [] /\ e = [] /\ ee = false /\ m = true).
  { intros ->. destruct buf as [|b buf]; [|destruct (Hn _ (sp_flush ee ce fails (b :: buf) e c tc te true m m ltac:(discriminate)))].
    destruct e as [|d e]; [|destruct (Hn _ (sp_down ee ce fails d e c tc te true m m))].
    destruct m; [|destruct (Hn _ (sp_down_end ee ce fails [] c tc te true false false ltac:(auto)))].
    destruct ee; [|auto]. destruct (Hn _ (sp_down_end true ce fails [] c tc te true true true ltac:(auto))). }
  assert (Hm : m = true -> c = [] /\ ce = false /\ r = true).
  { intros ->. destruct c as [|d c]; [|destruct (Hn _ (sp_up ee ce fails d buf e c tc te r true r))].
    destruct r; [|destruct (Hn _ (sp_up_end ee ce fails buf e [] tc te false true false ltac:(auto)))].
    destruct ce; [|auto]. destruct (Hn _ (sp_up_end ee true fails buf e [] tc te true true true ltac:(auto))). }
  destruct r, m; try (specialize (Hr eq_refl)); try (specialize (Hm eq_refl)); destruct ee, ce; cbn in *; naive_solver.
Qed.
End Splice.

(** C32: the splice of a virtual board's stream is transparent. Whatever the
    scheduling of its two threads and whatever fails, each end has been
    given a prefix of the bytes the other sent, what the endpoint sent with
    its acknowledgement first, in order; it is over within so many steps as
    there are pieces and three more; and when nothing fails, an end that
    hangs up ends both threads, the other having been given everything
    unless it hung up too. *)
Theorem splice_transparent ee ce fails buf e c n s :
  nsteps (splice_step ee ce fails) n (splice_start buf e c) s ->
  sp_to_client s `prefix_of` buf ++ concat e /\ sp_to_endpoint s `prefix_of` concat c /\
  (n <= length e + length c + 3)%nat /\
  (fails = false -> (forall s', ~ splice_step ee ce fails s s') ->
     (ee || ce = true -> sp_reader s = false /\ sp_main s = false) /\
     (ce = false -> sp_to_client s = buf ++ concat e) /\ (ee = false -> sp_to_endpoint s = concat c)).
Proof.
  intros Hn. pose proof (steps_bounded ee ce fails n _ _ Hn) as Hb.
  assert (H : whole buf e c s /\ coupled s /\ (fails = false -> served_first ee ce s)).
  { apply (nsteps_keeps (splice_step ee ce fails) (fun s => whole buf e c s /\ coupled s /\ (fails = false -> served_first ee ce s)) n (splice_start buf e c) s); [|exact Hn|].
    2: { split; [split; reflexivity|]. split; [split; reflexivity|]. intros _. split; intros _; cbn; split; congruence. }
    intros x y Hxy (A & B & D). split; [exact (step_whole ee ce fails _ _ _ _ _ Hxy A)|].
    split; [exact (step_coupled ee ce fails _ _ Hxy B)|]. intros Hf. exact (step_served ee ce fails x y Hf Hxy B (D Hf)). }
  destruct H as ((W1 & W2) & C & I). split; [exists (sp_buf s ++ concat (sp_from_endpoint s)); congruence|].
  split; [exists (concat (sp_from_client s)); congruence|]. split.
  { unfold left_to_do in Hb. cbn in Hb. destruct buf; cbn in Hb; lia. }
  intros Hf Hs. destruct (stuck_over ee ce fails s Hf C (I Hf) Hs) as (A & B & D). split; [exact A|]. split.
  - intros Hc. destruct (B Hc) as [B1 B2]. rewrite B1, B2 in W1. cbn in W1. rewrite app_nil_r in W1. exact W1.
  - intros Hc. rewrite (D Hc) in W2. cbn in W2. rewrite app_nil_r in W2. exact W2.
Qed.

Lemma splice_transparent_witness : exists s,
  nsteps (splice_step true false false) 6 (splice_start [1] [[2; 3]; [4]] [[9]]) s /\
  sp_to_client s = [1; 2; 3; 4] /\ sp_main s = false.
Proof.
  eexists. assert (H : nsteps (splice_step true false false) 6 (splice_start [1] [[2; 3]; [4]] [[9]])
    (mkSplice [] [] [] ([] ++ [1] ++ [2; 3] ++ [4]) [9] false false false false)).
  { eapply nsteps_l; [apply sp_flush; discriminate|]. eapply nsteps_l; [apply sp_down|].
    eapply nsteps_l; [apply (sp_up true false false [9] [] [[4]])|]. eapply nsteps_l; [apply sp_down|].
    eapply nsteps_l; [apply sp_down_end; auto|]. eapply nsteps_l; [apply sp_up_end; auto|]. apply nsteps_O. }
  split; [exact H|].
  destruct (splice_transparent _ _ _ _ _ _ _ _ H) as (_ & _ & _ & F).
  destruct (F eq_refl) as (F1 & F2 & _); [intros s' Hs; inversion Hs|]. split; [exact (F2 eq_refl)|apply F1; reflexivity].
Defined.

(** ** The watch feed *)

(** What is published while the turns are taken. *)
Definition published (turns : list watch_turn) : list json :=
  flat_map (fun t => match t with WOther (BPublish e) => [e] | _ => [] end) turns.

(** The queue of a watcher is its own: nobody else removes it. *)
Definition leaves (q : nat) (t : watch_turn) : Prop := t <> WOther (BUnsubscribe q).

Definition feeding (q : nat) (have : list json) (b : bus) : Prop :=
  bus_ok b /\ bus_queues b !! q = Some have /\ q ∈ bus_subscribers b.

Lemma feeding_other q have b o : feeding q have b -> o <> BUnsubscribe q ->
  feeding q (have ++ published [WOther o]) (bus_exec o b).
Proof.
  intros (H1 & H2 & H3) Ho. split; [apply bus_exec_ok, H1|]. split.
  - rewrite (queue_after o b q have H1 H2). unfold published. cbn. destruct o; try reflexivity.
    rewrite bool_decide_eq_true_2 by exact H3. reflexivity.
  - pose proof (subscribed_after o b q H1) as S. rewrite (bool_decide_eq_true_2 (q ∈ bus_subscribers b)) in S by exact H3.
    apply (bool_decide_eq_true_1 (q ∈ bus_subscribers (bus_exec o b))). rewrite S. destruct o as [|p|e]; try reflexivity. cbn. apply negb_true_iff, Nat.eqb_neq. congruence.
Qed.

Lemma feeding_get q e l b : feeding q (e :: l) b -> exists b', bus_get q b = (Ok (Some e), b') /\ feeding q l b'.
Proof.
  intros ((H1 & H1') & H2 & H3). unfold bus_get. rewrite H2. eexists. split; [reflexivity|]. split; [split|split].
  - exact H1.
  - cbn. rewrite length_insert. exact H1'.
  - cbn. apply list_lookup_insert_eq. apply lookup_lt_Some in H2. exact H2.
  - exact H3.
Qed.

Lemma watch_loop_feeds q turns : forall have s, feeding q have (wa_bus s) -> Forall (leaves q) turns ->
  exists ended written left b,
    watch_loop q turns s = (Ok ended, mkWatching b (wa_written s ++ written)) /\ feeding q left b /\
    if ended : bool then exists before event after, turns = before ++ WServe false :: after /\
      have ++ published before = written ++ event :: left
    else have ++ published turns = written ++ left.
Proof.
  induction turns as [|t turns IH]; intros have s Hq HF.
  - exists false, [], have, (wa_bus s). cbn. rewrite !app_nil_r. destruct s. auto.
  - inversion HF as [|? ? Ht HF']; subst. destruct t as [o|writable]; cbn [watch_loop].
    + rewrite bind_run. unfold on_watch_bus, mmodify.
      assert (Ho : o <> BUnsubscribe q) by (intros ->; exact (Ht eq_refl)).
      destruct (IH _ (mkWatching (bus_exec o (wa_bus s)) (wa_written s)) (feeding_other q have _ o Hq Ho) HF')
        as (ended & w & l & b & E & Hl & H).
      exists ended, w, l, b. split; [exact E|]. split; [exact Hl|]. destruct ended.
      * destruct H as (pre & e & post & -> & H). exists (WOther o :: pre), e, post. split; [reflexivity|].
        rewrite <- H, <- app_assoc. unfold published. cbn. rewrite app_nil_r. reflexivity.
      * rewrite <- H, <- app_assoc. unfold published. cbn. rewrite app_nil_r. reflexivity.
    + rewrite bind_run. unfold on_watch_bus. destruct have as [|e have].
      * unfold bus_get. rewrite (proj1 (proj2 Hq)). cbn iota beta.
        destruct (IH [] (mkWatching (wa_bus s) (wa_written s)) Hq HF') as (ended & w & l & b & E & Hl & H).
        exists ended, w, l, b. split; [exact E|]. split; [exact Hl|]. destruct ended; [|exact H].
        destruct H as (pre & e & post & -> & H). exists (WServe writable :: pre), e, post. auto.
      * destruct (feeding_get q e have _ Hq) as (b1 & -> & Hq1). destruct writable.
        -- rewrite bind_run. unfold mmodify. cbn [wa_bus wa_written].
           destruct (IH have (mkWatching b1 (wa_written s ++ [e])) Hq1 HF') as (ended & w & l & b & E & Hl & H).
           exists ended, (e :: w), l, b. cbn [wa_written] in E. rewrite <- app_assoc in E. split; [exact E|]. split; [exact Hl|].
           destruct ended; [|cbn; f_equal; exact H]. destruct H as (pre & e' & post & -> & H).
           exists (WServe true :: pre), e', post. split; [reflexivity|]. cbn. f_equal. exact H.
        -- exists true, [], have, b1. cbn. rewrite app_nil_r. split; [reflexivity|]. split; [exact Hq1|].
           exists [], e, turns. split; [reflexivity|cbn; rewrite app_nil_r; reflexivity].
Qed.

(** C33: a watcher is written every event published since it subscribed,
    each once and in order, up to the events still queued; the feed ends at
    the first that cannot be written, and then, and only then, its queue
    takes no more. A client that is gone is noticed at the next event. *)
Theorem watch_feed b turns : bus_ok b ->
  let q := length (bus_queues b) in Forall (leaves q) turns ->
  exists ended written left b',
    handle_watch turns (mkWatching b []) = (Ok (q, ended), mkWatching b' written) /\
    bus_queues b' !! q = Some left /\
    (ended = true <-> q ∉ bus_subscribers b') /\
    if ended : bool then exists before event after, turns = before ++ WServe false :: after /\
      published before = written ++ event :: left
    else published turns = written ++ left.
Proof.
  intros Hb q HF. unfold handle_watch. rewrite bind_run. unfold on_watch_bus at 1. cbn [wa_bus wa_written].
  change (subscribe b) with (Ok q, bus_exec BSubscribe b). cbn iota beta.
  assert (Hq : feeding q [] (wa_bus (mkWatching (bus_exec BSubscribe b) []))).
  { split; [apply bus_exec_ok, Hb|]. cbn. split; [rewrite lookup_app_r by (subst q; lia); subst q; rewrite Nat.sub_diag; reflexivity|].
    apply elem_of_app. right. constructor. }
  destruct (watch_loop_feeds q turns [] _ Hq HF) as (ended & w & l & b' & E & (F1 & F2 & F3) & H).
  rewrite bind_run, E. cbn [wa_written app]. destruct ended.
  - exists true, w, l, (bus_exec (BUnsubscribe q) b'). split; [reflexivity|]. split; [exact F2|]. split; [|exact H].
    split; [|auto]. intros _ Hin. cbn in Hin. apply list_elem_of_In, filter_In in Hin as [_ Hin].
    rewrite Nat.eqb_refl in Hin. discriminate.
  - exists false, w, l, b'. split; [reflexivity|]. split; [exact F2|]. split; [|exact H]. split; [discriminate|contradiction].
Qed.

Lemma watch_feed_witness : exists b',
  handle_watch [WOther (BPublish (JInt 1)); WServe true; WOther BSubscribe; WOther (BPublish (JInt 2)); WServe false]
    (mkWatching empty_bus []) = (Ok (0%nat, true), mkWatching b' [JInt 1]) /\ 0%nat ∉ bus_subscribers b'.
Proof.
  destruct (watch_feed empty_bus
    [WOther (BPublish (JInt 1)); WServe true; WOther BSubscribe; WOther (BPublish (JInt 2)); WServe false])
    as (ended & w & l & b' & E & _ & S & _).
  - split; constructor.
  - repeat constructor; discriminate.
  - exists b'. assert (H : ended = true /\ w = [JInt 1]) by (vm_compute in E; injection E as <- <- <-; auto).
    destruct H as [-> ->]. split; [exact E|apply S; reflexivity].
Defined.

(** ** The holding of a registration *)

Lemma drain_spec fuel : forall i, pieces_ok i -> (length (pending i) < fuel)%nat ->
  mresult (drain fuel) i = (if in_eof i then Ok tt else Err OSError) /\ pending (mstate (drain fuel) i) = [].
Proof.
  induction fuel as [|fuel IH]; intros i Hp Hf; [lia|]. cbn [drain]. unfold mresult, mstate. rewrite bind_run.
  destruct (in_chunks i) as [|c cs] eqn:E.
  - unfold recv, pending. rewrite E. destruct (in_eof i); cbn; rewrite E; auto.
  - destruct (recv_piece 4096 i c cs Hp ltac:(lia) E) as (got & i' & -> & Hg & Hgf & _ & Hs & Hp' & He).
    destruct got as [|g got]; [congruence|]. rewrite <- He. apply IH; [exact Hp'|]. rewrite Hs, length_skipn. cbn [length].
    assert (length (pending i) <> 0)%nat by (intros H0; apply length_zero_iff_nil in H0; rewrite H0 in Hgf; discriminate). lia.
Qed.

(** However its client's connection ends, and whatever it sent meanwhile, a
    registered board is detached, once, when it ends. *)
Lemma hold_detaches A reg a i : pieces_ok i ->
  let o := hold_registration A reg (a, i) in
  o.2.1 = mstate (detach_virtual A reg) a /\ o.1 = mresult (detach_virtual A reg) a /\ pending o.2.2 = [].
Proof.
  intros Hp o. destruct (drain_spec (S (length (pending i))) i Hp ltac:(lia)) as [D1 D2].
  subst o. unfold hold_registration, mfinally, mtry, mbind, mresult, mstate in *. cbn [snd fst].
  generalize (detach_virtual A reg). intros detach. destruct (drain (S (length (pending i))) i) as [r i']. cbn [fst snd] in *. subst r.
  destruct (in_eof i); cbn; destruct (detach a) as [[[]|e] a']; cbn; auto.
Qed.
