(* ===== verification/Channel.v ===== *)
(** * [relay/channel.py]: the transports of a relay's bytes

    A relay is talked to over a serial port of this host or over a stream to
    the host that has it.  The class [ByteChannel] is what [relay.protocol]
    asks of either, with the laws its users rely on; the two channels are its
    instances.  Each reads with a thread of its own: a thread is at the top
    of its loop, in a read, or over, and moves when the environment gives it
    a turn; waiting for one that is blocked ends without it. *)

From S2P Require Import Prelude Tables Trace Json Identity Virtual StreamFrame Store Locks EventBus Peering.
From S2P Require Import Api Stream Client Feeds FeedsFacts.
Local Open Scope py_scope.

(** ** The reading threads *)

Inductive callback := OnData (data : list Z) | OnError.
Inductive thread_state := AtTop | Reading | Ended.

Definition on_bytes (data : list Z) : list callback := match data with [] => [] | _ => [OnData data] end.

(** A turn of [LocalRelayChannel._pump]: the stop flag as it is, and what
    the read gave, if it was in one. *)
Definition local_turn (stop : bool) (st : thread_state) (x : result (list Z)) : thread_state * list callback :=
  match st with
  | AtTop => if stop then (Ended, []) else (Reading, [])
  | Reading =>
      match x with
      | Err _ => (Ended, if stop then [] else [OnError])
      | Ok data => (AtTop, on_bytes data)
      end
  | Ended => (Ended, [])
  end.

(** A turn of [RemoteRelayChannel._pump]. *)
Definition remote_turn (stop : bool) (st : thread_state) (x : result (option (list Z))) : thread_state * list callback :=
  match st with
  | AtTop => if stop then (Ended, []) else (Reading, [])
  | Reading =>
      match x with
      | Err _ => (Ended, if stop then [] else [OnError])
      | Ok payload =>
          if stop then (Ended, [])
          else match payload with
               | None => (Ended, [OnError])
               | Some data => (AtTop, on_bytes data)
               end
      end
  | Ended => (Ended, [])
  end.

(** Every thread that was started; [self._thread]; the stop flag they share;
    the callbacks, by a number; and what was reported, and to which. *)
Record reader := mkReader {
  rd_threads : list thread_state;
  rd_thread : option nat;
  rd_stop : bool;
  rd_callbacks : nat;
  rd_reports : list (nat * callback) }.

Definition no_reader : reader := mkReader [] None false 0 [].

Definition alive (i : nat) (r : reader) : bool :=
  match rd_threads r !! i with Some AtTop | Some Reading => true | _ => false end.

(** [start_reading]. *)
Definition reader_start (k : nat) (r : reader) : reader :=
  if match rd_thread r with Some i => alive i r | None => false end
  then mkReader (rd_threads r) (rd_thread r) (rd_stop r) k (rd_reports r)
  else mkReader (rd_threads r ++ [AtTop]) (Some (length (rd_threads r))) false k (rd_reports r).

(** [self._stop.set()]. *)
Definition reader_halt (r : reader) : reader :=
  mkReader (rd_threads r) (rd_thread r) true (rd_callbacks r) (rd_reports r).

Section Turns.
Context {O : Type}.
Variable body : bool -> thread_state -> O -> thread_state * list callback.

Definition reader_turn (i : nat) (x : O) (r : reader) : reader :=
  match rd_threads r !! i with
  | None => r
  | Some st =>
      let (st', said) := body (rd_stop r) st x in
      mkReader (<[i := st']> (rd_threads r)) (rd_thread r) (rd_stop r) (rd_callbacks r)
        (rd_reports r ++ map (fun c => (rd_callbacks r, c)) said)
  end.

Definition reader_turns (l : list (nat * O)) (r : reader) : reader := fold_left (fun r t => reader_turn t.1 t.2 r) l r.

(** [self._thread.join(timeout=1.0); self._thread = None]: the turns there
    are in that time, whether or not the thread is over then. *)
Definition reader_join (during : list (nat * O)) (r : reader) : reader :=
  match rd_thread r with
  | None => r
  | Some _ =>
      let r' := reader_turns during r in
      mkReader (rd_threads r') None (rd_stop r') (rd_callbacks r') (rd_reports r')
  end.

(** A whole thread: the flag and what reading gives, turn after turn. *)
Fixpoint pump (st : thread_state) (turns : list (bool * O)) : list callback :=
  match turns with
  | [] => []
  | (stop, x) :: turns' => let (st', said) := body stop st x in said ++ pump st' turns'
  end.
End Turns.

(** ** The interface *)

(** [bc_asked]: what the board's port is given, or will be once the bytes
    sent have been received.  [bc_last]: how many pieces a thread that was
    in a read may still report once the stop flag is set. *)
Class ByteChannel (C : Type) := {
  bc_outcome : Type;                           (* what a read gives *)
  bc_piece : list Z -> bc_outcome;
  bc_body : bool -> thread_state -> bc_outcome -> thread_state * list callback;
  bc_last : nat;
  bc_open : M C unit;
  bc_close : list (nat * bc_outcome) -> M C unit;
  bc_start_reading : nat -> M C unit;
  bc_stop_reading : list (nat * bc_outcome) -> M C unit;
  bc_turn : nat -> bc_outcome -> M C unit;     (* the environment runs a thread *)
  bc_write : list Z -> M C unit;
  bc_break : M C unit;
  bc_reader : C -> reader;
  bc_asked : C -> list port_action;
  bc_fresh : C -> Prop;
  bc_ready : C -> Prop;
  bc_enters : forall x, bc_body false AtTop x = (Reading, []);
  bc_reads : forall data, bc_body false Reading (bc_piece data) = (AtTop, on_bytes data);
  bc_leaves : forall x, bc_body true AtTop x = (Ended, []);
  bc_breaks_off : forall x, let (st, said) := bc_body true Reading x in
    st <> Reading /\ (length said <= bc_last)%nat /\ ~ In OnError said;
  bc_over : forall stop x, bc_body stop Ended x = (Ended, []);
  bc_open_law : forall c, bc_fresh c -> mresult bc_open c = Ok tt /\ bc_ready (mstate bc_open c) /\
    bc_asked (mstate bc_open c) = bc_asked c /\ bc_reader c = no_reader /\ bc_reader (mstate bc_open c) = no_reader;
  bc_start_law : forall k c, bc_ready c -> let c' := mstate (bc_start_reading k) c in
    mresult (bc_start_reading k) c = Ok tt /\ bc_ready c' /\ bc_asked c' = bc_asked c /\
    bc_reader c' = reader_start k (bc_reader c);
  bc_turn_law : forall i x c, let c' := mstate (bc_turn i x) c in
    mresult (bc_turn i x) c = Ok tt /\ (bc_ready c -> bc_ready c') /\ bc_asked c' = bc_asked c /\
    bc_reader c' = reader_turn bc_body i x (bc_reader c);
  bc_write_law : forall data c, bc_ready c -> zlen data <= MAX_FRAME_PAYLOAD -> let c' := mstate (bc_write data) c in
    mresult (bc_write data) c = Ok tt /\ bc_ready c' /\ bc_asked c' = bc_asked c ++ [PWrite data] /\ bc_reader c' = bc_reader c;
  bc_break_law : forall c, bc_ready c -> let c' := mstate bc_break c in
    mresult bc_break c = Ok tt /\ bc_ready c' /\ bc_asked c' = bc_asked c ++ [PBreak] /\ bc_reader c' = bc_reader c;
  bc_close_law : forall during c, bc_ready c -> let c' := mstate (bc_close during) c in
    mresult (bc_close during) c = Ok tt /\ bc_asked c' = bc_asked c /\
    bc_reader c' = reader_join bc_body during (reader_halt (bc_reader c)) /\
    forall data, mresult (bc_write data) c' <> Ok tt }.

(** ** [LocalRelayChannel] *)

Record local_channel := mkLocal {
  lc_ser : bool;                   (* [self._ser] is a port *)
  lc_reader : reader;
  lc_port : list port_action }.    (* what the port was given *)

Definition new_local : local_channel := mkLocal false no_reader [].

Section Local.
Variable opens : bool.                                       (* can the port be opened *)
Variable port_do : list port_action -> port_action -> result unit.

Definition with_local (f : reader -> reader) : M local_channel unit :=
  mmodify (fun s => mkLocal (lc_ser s) (f (lc_reader s)) (lc_port s)).

Definition local_open : M local_channel unit := fun s =>
  if opens then (Ok tt, mkLocal true (lc_reader s) (lc_port s)) else (Err ConnectError, s).

Definition local_start_reading (k : nat) : M local_channel unit := with_local (reader_start k).

Definition local_stop_reading (during : list (nat * result (list Z))) : M local_channel unit :=
  with_local reader_halt ;;! with_local (reader_join local_turn during).

Definition local_close (during : list (nat * result (list Z))) : M local_channel unit :=
  local_stop_reading during ;;! mmodify (fun s => mkLocal false (lc_reader s) (lc_port s)).

Definition local_do (a : port_action) : M local_channel unit := fun s =>
  if lc_ser s then
    match port_do (lc_port s) a with
    | Ok _ => (Ok tt, mkLocal true (lc_reader s) (lc_port s ++ [a]))
    | Err e => (Err e, s)
    end
  else (Err AttributeError, s).

Definition local_write (data : list Z) : M local_channel unit := local_do (PWrite data).
Definition local_break : M local_channel unit := local_do PBreak.
End Local.

(** ** [RemoteRelayChannel] *)

Record remote_channel := mkRemote { rc_stream : rstream; rc_reader : reader }.

Definition new_remote (i : conn_in) : remote_channel := mkRemote (new_rstream i) no_reader.

Section Remote.
Variable can_send : list Z -> bool.

Definition on_stream {A} (m : M rstream A) : M remote_channel A :=
  fun s => let (r, x) := m (rc_stream s) in (r, mkRemote x (rc_reader s)).
Definition with_remote (f : reader -> reader) : M remote_channel unit :=
  mmodify (fun s => mkRemote (rc_stream s) (f (rc_reader s))).

(** The owning host has opened its port. *)
Definition remote_open : M remote_channel unit := mret tt.

Definition remote_start_reading (k : nat) : M remote_channel unit := with_remote (reader_start k).

(** Closing the stream is meant to end a read that waits; it need not. *)
Definition remote_stop_reading (during : list (nat * result (option (list Z)))) : M remote_channel unit :=
  with_remote reader_halt ;;!
  mtry (on_stream (rs_close can_send)) (fun _ => Some (mret tt)) ;;!
  with_remote (reader_join remote_turn during).

Definition remote_close (during : list (nat * result (option (list Z)))) : M remote_channel unit := remote_stop_reading during.
Definition remote_write (data : list Z) : M remote_channel unit := on_stream (rs_write can_send data).
Definition remote_break : M remote_channel unit := on_stream (rs_send_break can_send).
End Remote.

(** The thread of a stream nobody stops: at its loop's top, then in a read,
    for each frame. *)
Fixpoint remote_reads (fuel : nat) (s : rstream) : list (bool * result (option (list Z))) :=
  match fuel with
  | O => []
  | S fuel' => (false, Ok None) :: (false, mresult rs_read s) :: remote_reads fuel' (mstate rs_read s)
  end.
