(* ===== verification/ChannelFacts.v ===== *)
(** * The two channels are channels

    The instances of [ByteChannel], a client proved against the interface,
    and what the reading threads report. *)

From S2P Require Import Prelude Tables Trace Json Identity Virtual StreamFrame Store Locks EventBus Peering.
From S2P Require Import Api Stream Client Feeds FeedsFacts Channel.
Local Open Scope py_scope.

(** ** The port of this host *)

Section Local.
Variable port_do : list port_action -> port_action -> result unit.
Hypothesis works : accepts port_do.

Lemma local_does a s : lc_ser s = true ->
  local_do port_do a s = (Ok tt, mkLocal true (lc_reader s) (lc_port s ++ [a])).
Proof. intros H. unfold local_do. rewrite H, works. reflexivity. Qed.

#[refine] Instance local_byte_channel : ByteChannel local_channel := {
  bc_outcome := result (list Z);
  bc_piece := fun data => Ok data;
  bc_body := local_turn;
  bc_last := 1;
  bc_open := local_open true;
  bc_close := local_close;
  bc_start_reading := local_start_reading;
  bc_stop_reading := local_stop_reading;
  bc_turn := fun i x => with_local (reader_turn local_turn i x);
  bc_write := local_write port_do;
  bc_break := local_break port_do;
  bc_reader := lc_reader;
  bc_asked := lc_port;
  bc_fresh := fun s => lc_reader s = no_reader;
  bc_ready := fun s => lc_ser s = true }.
Proof.
  - reflexivity.
  - reflexivity.
  - reflexivity.
  - intros [data|e]; cbn; (split; [discriminate|]); [destruct data as [|z data]|]; cbn; split; (lia || tauto || auto).
    intros [H|[]]; discriminate.
  - reflexivity.
  - intros c H. cbn. auto.
  - intros k c H. cbn. auto.
  - intros i x c. cbn. auto.
  - intros data c H _. cbv zeta. unfold local_write, mresult, mstate. rewrite local_does by exact H. cbn. auto.
  - intros c H. cbv zeta. unfold local_break, mresult, mstate. rewrite local_does by exact H. cbn. auto.
  - intros during c H. cbn. repeat split. discriminate.
Defined.
End Local.

(** ** The stream to another host *)

(** The stream is open and has carried whole frames. *)
Definition streaming (s : rstream) : Prop :=
  rs_sock s = true /\ rs_closed s = false /\
  exists asked, Forall askable asked /\ encode_frames (map frame_of asked) = Ok (rs_out s).

Lemma requested_asked asked bs : Forall askable asked -> encode_frames (map frame_of asked) = Ok bs ->
  requested bs = asked.
Proof.
  intros HF E. destruct (frames_asked asked HF) as (F1 & F2 & F3).
  rewrite <- (app_nil_r bs), <- F1. apply requested_encoded; auto. left. reflexivity.
Qed.

Lemma requested_closed asked bs close : Forall askable asked -> encode_frames (map frame_of asked) = Ok bs ->
  encode_frame FRAME_CLOSE [] = Ok close -> requested (bs ++ close) = asked.
Proof.
  intros HF E Ec. destruct (frames_asked asked HF) as (F1 & F2 & F3). rewrite <- F1.
  apply requested_encoded; auto. right. exists []. vm_compute in Ec. injection Ec as <-. split; reflexivity.
Qed.

Lemma encode_frames_app fs fs' bs bs' : encode_frames fs = Ok bs -> encode_frames fs' = Ok bs' ->
  encode_frames (fs ++ fs') = Ok (bs ++ bs').
Proof.
  revert bs. induction fs as [|[t p] fs IH]; intros bs E E'; cbn [app encode_frames] in *.
  - injection E as <-. exact E'.
  - destruct (encode_frame t p) as [b|]; [|discriminate]. destruct (encode_frames fs) as [b'|]; [|discriminate].
    cbn [result_bind] in *. injection E as <-. rewrite (IH b' eq_refl E'). cbn. rewrite app_assoc. reflexivity.
Qed.

Lemma streaming_ask a s : askable a -> streaming s -> let s' := mstate (rs_ask sendable a) s in
  mresult (rs_ask sendable a) s = Ok tt /\ streaming s' /\ requested (rs_out s') = requested (rs_out s) ++ [a].
Proof.
  intros Ha (H1 & H2 & asked & HF & E). cbv zeta. destruct (ask_sends a s Ha H1) as (bs & Eb & R).
  unfold mresult, mstate. rewrite R. cbn [fst snd rs_out]. split; [reflexivity|].
  assert (E' : encode_frames (map frame_of (asked ++ [a])) = Ok (rs_out s ++ bs)).
  { rewrite map_app. apply encode_frames_app; [exact E|]. cbn. destruct (frame_of a) as [t p]. cbn in Eb. rewrite Eb.
    cbn. rewrite app_nil_r. reflexivity. }
  assert (HF' : Forall askable (asked ++ [a])) by (apply Forall_app; auto).
  split; [split; [reflexivity|split; [exact H2|]]; exists (asked ++ [a]); auto|].
  rewrite (requested_asked _ _ HF' E'), (requested_asked _ _ HF E). reflexivity.
Qed.

Lemma streaming_close s : streaming s -> let s' := mstate (rs_close sendable) s in
  mresult (rs_close sendable) s = Ok tt /\ rs_sock s' = false /\ requested (rs_out s') = requested (rs_out s).
Proof.
  intros (H1 & H2 & asked & HF & E). cbv zeta. destruct s as [i out cl so]. cbn [rs_sock rs_closed rs_out] in *. subst cl so.
  destruct (encodes (FRAME_CLOSE, [])) as [close Ec]; [vm_compute; split; congruence|vm_compute; discriminate|].
  cbn [fst snd] in Ec. unfold rs_close, stream_close. rewrite Ec. split; [reflexivity|]. split; [reflexivity|].
  change (requested (out ++ close) = requested out). rewrite (requested_closed _ _ _ HF E Ec), (requested_asked _ _ HF E). reflexivity.
Qed.

Lemma closed_refuses data s : rs_sock s = false -> mresult (rs_write sendable data) s <> Ok tt.
Proof.
  intros H. unfold rs_write, rs_send, mresult, mbind, mlift, mgets. destruct (stream_write data); [|discriminate].
  rewrite H. discriminate.
Qed.

#[refine] Instance remote_byte_channel : ByteChannel remote_channel := {
  bc_outcome := result (option (list Z));
  bc_piece := fun data => Ok (Some data);
  bc_body := remote_turn;
  bc_last := 0;
  bc_open := remote_open;
  bc_close := remote_close sendable;
  bc_start_reading := remote_start_reading;
  bc_stop_reading := remote_stop_reading sendable;
  bc_turn := fun i x => with_remote (reader_turn remote_turn i x);
  bc_write := remote_write sendable;
  bc_break := remote_break sendable;
  bc_reader := rc_reader;
  bc_asked := fun s => requested (rs_out (rc_stream s));
  bc_fresh := fun s => streaming (rc_stream s) /\ rc_reader s = no_reader;
  bc_ready := fun s => streaming (rc_stream s) }.
Proof.
  - reflexivity.
  - reflexivity.
  - reflexivity.
  - intros [data|e]; cbn; split; (discriminate || auto).
  - reflexivity.
  - intros c [H Hr]. cbn. auto.
  - intros k c H. cbn. auto.
  - intros i x c. cbn. auto.
  - intros data c H Hd. cbv zeta. destruct (streaming_ask (PWrite data) (rc_stream c) Hd H) as (A & B & D).
    unfold remote_write, on_stream, mresult, mstate in *. cbn [rs_ask] in *.
    destruct (rs_write sendable data (rc_stream c)) as [r x]. cbn in *. auto.
  - intros c H. cbv zeta. destruct (streaming_ask PBreak (rc_stream c) I H) as (A & B & D).
    unfold remote_break, on_stream, mresult, mstate in *. cbn [rs_ask] in *.
    destruct (rs_send_break sendable (rc_stream c)) as [r x]. cbn in *. auto.
  - intros during c H. cbv zeta. destruct (streaming_close (rc_stream c) H) as (A & B & D).
    unfold remote_close, remote_stop_reading, with_remote, on_stream, mtry, mbind, mmodify, mresult, mstate in *. cbn [rc_stream rc_reader] in *.
    destruct (rs_close sendable (rc_stream c)) as [r x]. cbn in *. subst r. cbn. split; [reflexivity|].
    split; [exact D|]. split; [reflexivity|]. intros data. pose proof (closed_refuses data x B) as Hc.
    unfold mresult, remote_write, on_stream in *. cbn [rc_stream]. destruct (rs_write sendable data x) as [[[]|e] y]; cbn in *; congruence.
Defined.

(** ** A client of the interface *)

(** A use of an open channel, and a turn of a thread whose read, if it is
    in one, gives a piece. *)
Inductive channel_use := UseWrite (data : list Z) | UseBreak | Turn (i : nat) (data : list Z).

Definition use_of {C} `{ByteChannel C} (u : channel_use) : M C unit :=
  match u with UseWrite data => bc_write data | UseBreak => bc_break | Turn i data => bc_turn i (bc_piece data) end.
Definition action_used (u : channel_use) : list port_action :=
  match u with UseWrite data => [PWrite data] | UseBreak => [PBreak] | Turn _ _ => [] end.
Definition usable (u : channel_use) : Prop := match u with UseWrite data => zlen data <= MAX_FRAME_PAYLOAD | _ => True end.

(** What the one thread of a channel has reported after some uses, and where
    it is. *)
Fixpoint heard (st : thread_state) (uses : list channel_use) : thread_state * list callback :=
  match uses with
  | Turn O data :: uses' =>
      match st with
      | AtTop => heard Reading uses'
      | Reading => let (st', said) := heard AtTop uses' in (st', on_bytes data ++ said)
      | Ended => heard Ended uses'
      end
  | _ :: uses' => heard st uses'
  | [] => (st, [])
  end.

(** Opened, read from, used, closed, as [relay.protocol] does. *)
Definition channel_session {C} `{ByteChannel C} (k : nat) (uses : list channel_use) (during : list (nat * bc_outcome)) : M C unit :=
  bc_open ;;! bc_start_reading k ;;! mfinally (mfor uses use_of) (bc_close during).

(** The turns there are after it. *)
Definition channel_after {C} `{ByteChannel C} (turns : list (nat * bc_outcome)) : M C unit :=
  mfor turns (fun t => bc_turn t.1 t.2).

(** A reader of one thread. *)
Definition one_reader (st : thread_state) (k : nat) (said : list callback) : reader :=
  mkReader [st] (Some 0%nat) false k (map (fun c => (k, c)) said).

(** How many of the turns are the first thread's. *)
Definition own_turns {O} (turns : list (nat * O)) : nat := length (List.filter (fun t => Nat.eqb t.1 0) turns).

Section Client.
Context {C : Type} `{ByteChannel C}.

Lemma use_law u c k st said : bc_ready c -> usable u -> bc_reader c = one_reader st k said -> st <> Ended ->
  let c' := mstate (use_of u) c in
  mresult (use_of u) c = Ok tt /\ bc_ready c' /\ bc_asked c' = bc_asked c ++ action_used u /\
  bc_reader c' = one_reader (heard st [u]).1 k (said ++ (heard st [u]).2) /\ (heard st [u]).1 <> Ended.
Proof.
  intros Hc Hu Hr Hst. destruct u as [data| |i data]; cbn [use_of action_used heard fst snd].
  - destruct (bc_write_law data c Hc Hu) as (A & B & D & F). rewrite F, Hr, app_nil_r. auto.
  - destruct (bc_break_law c Hc) as (A & B & D & F). rewrite F, Hr, app_nil_r. auto.
  - destruct (bc_turn_law i (bc_piece data) c) as (A & B & D & F). cbv zeta. rewrite F, Hr, app_nil_r.
    split; [exact A|]. split; [exact (B Hc)|]. split; [exact D|].
    destruct i as [|i]; cbn [heard fst snd]; [|rewrite app_nil_r; split; [destruct i; reflexivity|exact Hst]].
    unfold reader_turn. cbn [one_reader rd_threads rd_stop rd_callbacks rd_reports rd_thread]. cbn [lookup list_lookup].
    destruct st; [rewrite bc_enters|rewrite bc_reads|congruence]; cbn [fst snd]; rewrite ?app_nil_r; unfold one_reader;
      cbn [map]; rewrite ?app_nil_r; split; try discriminate; [reflexivity|rewrite map_app; reflexivity].
Qed.

Lemma heard_after st u uses : heard st (u :: uses) =
  (let (st1, said1) := heard st [u] in let (st2, said2) := heard st1 uses in (st2, said1 ++ said2)).
Proof.
  destruct u as [data| |[|i] data]; cbn [heard]; try (destruct (heard st uses); reflexivity).
  destruct st; cbn [heard]; [destruct (heard Reading uses)|destruct (heard AtTop uses) as [st' said]|destruct (heard Ended uses)];
    try reflexivity. rewrite app_nil_r. reflexivity.
Qed.

Lemma uses_law uses k : forall c st said, bc_ready c -> Forall usable uses -> bc_reader c = one_reader st k said -> st <> Ended ->
  let c' := mstate (mfor uses use_of) c in
  mresult (mfor uses use_of) c = Ok tt /\ bc_ready c' /\ bc_asked c' = bc_asked c ++ flat_map action_used uses /\
  bc_reader c' = one_reader (heard st uses).1 k (said ++ (heard st uses).2).
Proof.
  induction uses as [|u uses IH]; intros c st said Hc HF Hr Hst; cbv zeta; [cbn; rewrite !app_nil_r; auto|].
  inversion HF as [|? ? Hu HF']; subst. destruct (use_law u c k st said Hc Hu Hr Hst) as (A & B & D & F & G).
  unfold mresult, mstate. cbn [mfor]. rewrite (bind_result _ _ _ tt A). unfold mstate.
  destruct (IH _ _ _ B HF' F G) as (A' & B' & D' & F'). unfold mresult, mstate in A', B', D', F', D.
  split; [exact A'|]. split; [exact B'|]. split; [rewrite D', D; cbn [flat_map]; rewrite app_assoc; reflexivity|].
  rewrite F', (heard_after st u uses). destruct (heard st [u]) as [st1 said1]. cbn [fst snd]. destruct (heard st1 uses) as [st2 said2].
  cbn [fst snd]. rewrite <- app_assoc. reflexivity.
Qed.

(** *** Once the stop flag is set *)

(** One thread, told to stop: where it is, and what it reported since. *)
Definition stopping (k : nat) (said : list callback) (st0 : thread_state) (n : nat) (r : reader) : Prop :=
  exists st more, rd_threads r = [st] /\ rd_stop r = true /\ rd_callbacks r = k /\
    rd_reports r = map (fun c => (k, c)) (said ++ more) /\ ~ In OnError more /\
    (length more <= match st with Reading => 0 | _ => bc_last end)%nat /\ (st0 <> Reading -> more = [] /\ st <> Reading) /\
    match n with O => st = st0 | S O => st <> Reading | _ => st = Ended end.

Lemma stopping_turn k said st0 n r i x : stopping k said st0 n r ->
  stopping k said st0 (if Nat.eqb i 0 then S n else n) (reader_turn bc_body i x r).
Proof.
  intros (st & more & H1 & H2 & H3 & H4 & H5 & H6 & H7 & H8). unfold reader_turn. rewrite H1. destruct i as [|i]; cbn [Nat.eqb].
  2: { cbn. destruct i; exists st, more; auto 10. }
  cbn [lookup list_lookup]. rewrite H2. destruct st.
  - rewrite bc_leaves. exists Ended, more. cbn [rd_threads rd_stop rd_callbacks rd_reports map]. rewrite app_nil_r.
    repeat split; auto; try (apply H7; assumption); try discriminate. destruct n as [|[|n]]; [discriminate|reflexivity|discriminate].
  - pose proof (bc_breaks_off x) as Hb. destruct (bc_body true Reading x) as [st' what]. destruct Hb as (B1 & B2 & B3).
    assert (Hm : more = []) by (destruct more; [reflexivity|cbn in H6; lia]). subst more. rewrite app_nil_r in H4.
    exists st', what. cbn [rd_threads rd_stop rd_callbacks rd_reports]. split; [reflexivity|]. split; [reflexivity|]. split; [exact H3|].
    split; [rewrite H4, H3, map_app; reflexivity|]. split; [exact B3|]. split; [destruct st'; [exact B2|congruence|exact B2]|].
    split; [intros Hn; destruct (H7 Hn) as [_ Hn']; congruence|]. destruct n as [|[|n]]; [exact B1|congruence|discriminate].
  - rewrite bc_over. exists Ended, more. cbn [rd_threads rd_stop rd_callbacks rd_reports map]. rewrite app_nil_r.
    repeat split; auto; try (apply H7; assumption); try discriminate. destruct n as [|[|n]]; [discriminate|reflexivity|reflexivity].
Qed.

Lemma stopping_turns k said st0 turns : forall n r, stopping k said st0 n r ->
  stopping k said st0 (own_turns turns + n) (reader_turns bc_body turns r).
Proof.
  induction turns as [|[i x] turns IH]; intros n r Hr; [exact Hr|]. cbn [reader_turns fold_left fst snd].
  pose proof (IH _ _ (stopping_turn k said st0 n r i x Hr)) as H'. unfold own_turns in *. cbn [List.filter fst].
  destruct (Nat.eqb i 0); [|exact H']. cbn [length]. replace (S (length (List.filter (fun t => Nat.eqb t.1 0) turns)) + n)%nat
    with (length (List.filter (fun t => Nat.eqb t.1 0) turns) + S n)%nat by lia. exact H'.
Qed.

Lemma after_law turns : forall c, let c' := mstate (channel_after turns) c in
  mresult (channel_after turns) c = Ok tt /\ bc_asked c' = bc_asked c /\ bc_reader c' = reader_turns bc_body turns (bc_reader c).
Proof.
  unfold channel_after. induction turns as [|t turns IH]; intros c; cbv zeta; [auto|].
  destruct (bc_turn_law t.1 t.2 c) as (A & _ & D & F). unfold mresult, mstate. cbn [mfor]. rewrite (bind_result _ _ _ tt A). unfold mstate.
  destruct (IH (mstate (bc_turn t.1 t.2) c)) as (A' & D' & F'). unfold mresult, mstate in *.
  split; [exact A'|]. split; [congruence|]. rewrite F', F. reflexivity.
Qed.

(** A session, and the turns after it: [st] is where the thread is. *)
Lemma session_law k uses during turns c : bc_fresh c -> Forall usable uses ->
  let c1 := mstate (channel_session k uses during) c in
  let c2 := mstate (channel_after turns) c1 in
  mresult (channel_session k uses during) c = Ok tt /\
  bc_asked c1 = bc_asked c ++ flat_map action_used uses /\ rd_thread (bc_reader c1) = None /\
  (forall data, mresult (bc_write data) c1 <> Ok tt) /\
  stopping k (heard AtTop uses).2 (heard AtTop uses).1 (own_turns during + own_turns turns) (bc_reader c2).
Proof.
  intros Hc HF c1 c2. subst c2. destruct (after_law turns c1) as (_ & _ & Af). rewrite Af. clear Af. subst c1.
  unfold mresult at 1, mstate, channel_session.
  destruct (bc_open_law c Hc) as (O1 & O2 & O3 & _ & O4). rewrite (bind_result _ _ _ tt O1).
  destruct (bc_start_law k _ O2) as (S1 & S2 & S3 & S4). rewrite (bind_result _ _ _ tt S1).
  rewrite O4 in S4. change (reader_start k no_reader) with (one_reader AtTop k []) in S4.
  set (c1 := mstate (bc_start_reading k) _) in *.
  destruct (uses_law uses k c1 AtTop [] S2 HF S4 ltac:(discriminate)) as (U1 & U2 & U3 & U4).
  unfold mfinally. unfold mresult, mstate in U1, U2, U3, U4. destruct (mfor uses use_of c1) as [r c2]. cbn [fst snd] in *. subst r.
  destruct (bc_close_law during c2 U2) as (L1 & L2 & L3 & L4). unfold mresult, mstate in L1, L2, L3, L4.
  destruct (bc_close during c2) as [r c3]. cbn [fst snd] in *. subst r. cbn [fst snd]. split; [reflexivity|].
  split; [congruence|]. rewrite L3. split; [rewrite U4; reflexivity|]. split; [exact L4|].
  assert (H0 : stopping k (heard AtTop uses).2 (heard AtTop uses).1 0 (reader_halt (bc_reader c2))).
  { rewrite U4. exists (heard AtTop uses).1, []. cbn. rewrite app_nil_r. repeat split; auto; try tauto.
    destruct (heard AtTop uses).1; lia. }
  pose proof (stopping_turns _ _ _ during 0 _ H0) as H1. rewrite Nat.add_0_r in H1.
  assert (H2 : stopping k (heard AtTop uses).2 (heard AtTop uses).1 (own_turns during) (reader_join bc_body during (reader_halt (bc_reader c2)))).
  { unfold reader_join. rewrite U4. cbn [one_reader reader_halt rd_thread]. rewrite U4 in H1. exact H1. }
  rewrite Nat.add_comm. exact (stopping_turns _ _ _ turns _ _ H2).
Qed.
End Client.

(** ** Properties *)

(** C34: a relay of another host is used as one of this host is. A use of a
    channel, opened, read from, written to, reset and closed, with any turns
    of its thread between, has the port of this host given exactly its
    writes and breaks, in order; through a stream, the bytes sent, however
    the network splits them, have the owning host's port given the same. On
    both the use returns and a write after it fails; the callbacks are given
    the same pieces, each that was read, once and in order. Closing waits
    for the thread for as many turns as it has in that time, none when it is
    blocked; whenever it has had two turns since, it is over; and what it
    reports after the close is no error, and at most the piece it was
    reading here, nothing over a stream. *)
Theorem channels_agree port_do (W : accepts port_do) k uses i chunks eof during during' turns turns' :
  Forall usable uses ->
  let l := channel_session (H := local_byte_channel port_do W) k uses during new_local in
  let r := channel_session (H := remote_byte_channel) k uses during' (new_remote i) in
  let l2 := lc_reader (mstate (channel_after (H := local_byte_channel port_do W) turns) l.2) in
  let r2 := rc_reader (mstate (channel_after (H := remote_byte_channel) turns') r.2) in
  Forall (fun c => c <> []) chunks -> concat chunks = rs_out (rc_stream r.2) ->
  l.1 = Ok tt /\ r.1 = Ok tt /\ lc_port l.2 = flat_map action_used uses /\
  ss_port (mstate (run_stream port_do) (mkSession (mkConnIn chunks eof) [])) = flat_map action_used uses /\
  (forall data, mresult (local_write port_do data) l.2 <> Ok tt) /\
  (forall data, mresult (remote_write sendable data) r.2 <> Ok tt) /\
  rd_thread (lc_reader l.2) = None /\ rd_thread (rc_reader r.2) = None /\
  ((2 <= own_turns during + own_turns turns)%nat -> rd_threads l2 = [Ended]) /\
  ((2 <= own_turns during' + own_turns turns')%nat -> rd_threads r2 = [Ended]) /\
  exists more, rd_reports l2 = map (fun c => (k, c)) ((heard AtTop uses).2 ++ more) /\ (length more <= 1)%nat /\ ~ In OnError more /\
    ((heard AtTop uses).1 <> Reading -> more = []) /\
    rd_reports r2 = map (fun c => (k, c)) (heard AtTop uses).2.
Proof.
  intros HF l r l2 r2 Hc Ec.
  destruct (session_law (H := local_byte_channel port_do W) k uses during turns new_local eq_refl HF) as (L1 & L2 & L3 & L4 & L5).
  assert (Hs : streaming (new_rstream i)) by (split; [reflexivity|]; split; [reflexivity|]; exists []; split; constructor).
  destruct (session_law (H := remote_byte_channel) k uses during' turns' (new_remote i) (conj Hs eq_refl) HF) as (R1 & R2 & R3 & R4 & R5).
  destruct L5 as (st & more & LA & _ & _ & LD & LE & LF & LG & LH).
  destruct R5 as (st' & more' & RA & _ & _ & RD & _ & RF & _ & RH).
  split; [exact L1|]. split; [exact R1|]. split; [exact L2|]. split.
  - destruct (run_stream_spec port_do (mkSession (mkConnIn chunks eof) []) Hc) as (taken & T1 & _ & T3 & _).
    unfold mstate in T1. rewrite (T3 W) in T1. cbn [ss_in ss_port app] in T1. unfold mstate. rewrite T1.
    unfold pending. cbn [in_chunks]. rewrite Ec. exact R2.
  - split; [exact L4|]. split; [exact R4|]. split; [exact L3|]. split; [exact R3|].
    assert (Hend : forall n st0 (st : thread_state), (2 <= n)%nat -> match n with O => st = st0 | S O => st <> Reading | _ => st = Ended end -> st = Ended)
      by (intros [|[|n]] st0 s0 Hn Hm; [lia|lia|exact Hm]).
    split; [intros Hn; rewrite <- (Hend _ _ _ Hn LH); exact LA|].
    split; [intros Hn; rewrite <- (Hend _ _ _ Hn RH); exact RA|].
    exists more. split; [exact LD|]. split; [destruct st; cbn in LF; lia|]. split; [exact LE|].
    split; [intros Hn; exact (proj1 (LG Hn))|].
    assert (Hm : more' = []) by (destruct more'; [reflexivity|destruct st'; cbn in RF; lia]).
    subst more'. rewrite app_nil_r in RD. exact RD.
Qed.

Lemma channels_agree_witness :
  let uses := [Turn 0 []; UseWrite [72; 10]; Turn 0 [111; 107]; UseBreak; Turn 0 []] in
  let l := channel_session (H := local_byte_channel (fun _ _ => Ok tt) (fun _ _ => eq_refl)) 1 uses [(0%nat, Ok [33])] new_local in
  let r := channel_session (H := remote_byte_channel) 1 uses [] (new_remote (mkConnIn [] true)) in
  lc_port l.2 = [PWrite [72; 10]; PBreak] /\
  ss_port (mstate (run_stream (fun _ _ => Ok tt)) (mkSession (mkConnIn
    [[1; 0; 0; 0]; [2; 72; 10; 2; 0]; [0; 0; 0; 5; 0; 0; 0; 0]] true) [])) = [PWrite [72; 10]; PBreak] /\
  rd_threads (lc_reader (mstate (channel_after (H := local_byte_channel (fun _ _ => Ok tt) (fun _ _ => eq_refl)) [(0%nat, Ok [])]) l.2)) = [Ended] /\
  rd_reports (lc_reader l.2) = [(1%nat, OnData [111; 107]); (1%nat, OnData [33])] /\
  rd_threads (rc_reader r.2) = [Reading] /\ rd_reports (rc_reader r.2) = [(1%nat, OnData [111; 107])].
Proof.
  intros uses l r.
  destruct (channels_agree (fun _ _ => Ok tt) (fun _ _ => eq_refl) 1 uses (mkConnIn [] true)
    [[1; 0; 0; 0]; [2; 72; 10; 2; 0]; [0; 0; 0; 5; 0; 0; 0; 0]] true [(0%nat, Ok [33])] [] [(0%nat, Ok [])] [])
    as (_ & _ & A & B & _ & _ & _ & _ & D & _);
    [repeat constructor; vm_compute; discriminate|repeat constructor; discriminate|reflexivity|].
  split; [exact A|]. split; [exact B|]. split; [exact (D (le_n 2))|]. vm_compute. repeat split.
Defined.

(** A thread that is blocked outlives the close, and when the channel is
    read from again before it moves, the flag it should have seen is clear:
    two threads read, and the old one reports to the new callbacks. *)
Example blocked_thread_survives :
  let s := new_remote (mkConnIn [] true) in
  let s := mstate (remote_start_reading 1) s in
  let s := mstate (with_remote (reader_turn remote_turn 0 (Ok None))) s in
  let s := mstate (remote_stop_reading sendable []) s in
  let s := mstate (remote_start_reading 2) s in
  let s := mstate (with_remote (reader_turn remote_turn 0 (Ok (Some [33])))) s in
  rd_threads (rc_reader s) = [AtTop; AtTop] /\ rd_reports (rc_reader s) = [(2%nat, OnData [33])].
Proof. vm_compute. split; reflexivity. Qed.

(** ** What the threads report *)

(** A thread reports what it read, once and in order, empty pieces apart;
    then at most one error, its last report. *)
Lemma local_pump_reports turns : forall st, exists seen,
  pump local_turn st turns = map OnData seen \/ pump local_turn st turns = map OnData seen ++ [OnError].
Proof.
  assert (Hend : forall turns, pump local_turn Ended turns = []) by (induction turns0 as [|[stop x] turns0 IH]; [reflexivity|exact IH]).
  induction turns as [|[stop x] turns IH]; intros st; [exists []; left; reflexivity|]. cbn [pump]. destruct st; cbn [local_turn].
  - destruct stop; [rewrite Hend; exists []; left; reflexivity|exact (IH Reading)].
  - destruct x as [data|e].
    + destruct (IH AtTop) as (seen & [E|E]); rewrite E; (destruct data as [|d data]; [exists seen|exists ((d :: data) :: seen)]); auto.
    + rewrite Hend. exists []. destruct stop; [left|right]; reflexivity.
  - rewrite Hend. exists []. left. reflexivity.
Qed.

(** The thread of a stream nobody stops reports what the owning host's
    reader thread read off the port, then the stream's end. *)
Lemma remote_pump_data datas : forall bs i out cl fuel, pieces_ok i -> in_eof i = true ->
  Forall (fun d => zlen d <= MAX_FRAME_PAYLOAD) datas -> Forall (fun d => d <> []) datas ->
  encode_frames (map (fun d => (FRAME_DATA, d)) datas) = Ok bs -> pending i = bs -> (length datas < fuel)%nat ->
  pump remote_turn AtTop (remote_reads fuel (mkRstream i out cl true)) = map OnData datas ++ [OnError].
Proof.
  assert (Hend : forall turns, pump remote_turn Ended turns = []) by (induction turns as [|[stop x] turns IH]; [reflexivity|exact IH]).
  induction datas as [|d datas IH]; intros bs i out cl [|fuel] Hp He HF HN E Hi Hf; try (cbn in Hf; lia);
    cbn [remote_reads pump remote_turn app]; unfold mresult, mstate; cbn [map encode_frames] in E.
  - injection E as <-. destruct (reads_end i out cl Hp He Hi) as [i' ->]. cbn [fst]. rewrite Hend. reflexivity.
  - destruct (encode_frame FRAME_DATA d) as [b|] eqn:E1; [|discriminate].
    destruct (encode_frames _) as [bs'|] eqn:E2; [|discriminate]. cbn [result_bind] in E. injection E as <-.
    inversion HF as [|? ? Hd HF']; subst. inversion HN as [|? ? Hn HN']; subst.
    destruct (reads_data d b bs' i out cl Hp Hd E1 Hi) as (i1 & -> & P1 & P2 & P3).
    cbn [fst snd]. rewrite (IH bs' i1 out cl fuel P1 (eq_trans P2 He) HF' HN' eq_refl P3 ltac:(cbn in Hf; lia)).
    destruct d; [congruence|reflexivity].
Qed.
