(* ===== verification/Session.v ===== *)
(** * A client and the local server it talks to

    [RegistryClient] over a connection to [LocalApi]: the transport of
    Client implemented by the handlers of Api, one request line served, one
    response read.  What the client's methods return and raise is then a
    statement about the server's store and locks. *)

From S2P Require Import Prelude Trace Tables Json Identity Virtual Store Locks Claims Daemon Flash EventBus Peering Api ApiFacts Client.
Local Open Scope py_scope.

(** The server, and the client's end: is it open, and how many of the
    responses written to it has it read. *)
Record linked := mkLinked { ln_server : astate; ln_open : bool; ln_read : nat }.

Section Session.
Variable A : api_env.
Variable c : connection.

Definition to_client (s : astate) : list fields :=
  map snd (List.filter (fun m => bool_decide (m.1 = c)) (a_out s)).

Definition ln_dial : M linked unit := fun s =>
  let s1 := mstate (accept c) (ln_server s) in (Ok tt, mkLinked s1 true (length (to_client s1))).

Definition ln_send (payload : fields) : M linked unit := fun s =>
  if ln_open s then (Ok tt, mkLinked (serve_line A local_scope c (Some (JObj payload)) (ln_server s)) true (ln_read s))
  else (Err OSError, s).

(** The next response, or the end: every request asked here, none a
    [flash], is answered or ends the connection. *)
Definition ln_readline : M linked (option json) := fun s =>
  match nth_error (to_client (ln_server s)) (ln_read s) with
  | Some resp => (Ok (Some (JObj resp)), mkLinked (ln_server s) (ln_open s) (S (ln_read s)))
  | None => (Ok None, s)
  end.

Definition ln_hangup : M linked unit := fun s =>
  (Ok tt, mkLinked (mstate (end_connection A c Requests) (ln_server s)) false (ln_read s)).

#[export] Instance linked_transport : Transport linked := {|
  tr_connected := ln_open;
  tr_dial := ln_dial;
  tr_send := ln_send;
  tr_readline := ln_readline;
  tr_hangup := ln_hangup;
  tr_pending := fun s => (length (to_client (ln_server s)) - ln_read s)%nat |}.

(** An open connection with nothing left to read. *)
Definition caught_up (s : astate) : linked := mkLinked s true (length (to_client s)).

(** ** One request *)

Definition quiet (s s' : astate) : Prop := a_out s' = a_out s.
#[export] Instance quiet_preorder : PreOrder quiet.
Proof. split; unfold quiet; [intros s|intros s1 s2 s3]; congruence. Qed.

Lemma in_d_quiet {B} (m : M dstate B) : stays quiet (in_d m).
Proof. intros s. unfold mstate, in_d, in_flash. destruct (in_daemon m (a_f s)). reflexivity. Qed.

Lemma to_client_write resp s : to_client (a_write (c, resp) s) = to_client s ++ [resp].
Proof.
  unfold to_client. cbn [a_out a_write]. rewrite List.filter_app, map_app. cbn. rewrite bool_decide_eq_true_2 by reflexivity. reflexivity.
Qed.

Lemma request_answered payload s resp s1 :
  dispatch A local_scope (jget "op" payload) payload c s = (Ok Requests, a_write (c, resp) s1) -> quiet s s1 ->
  raw_request payload (caught_up s) = (Ok resp, caught_up (a_write (c, resp) s1)).
Proof.
  intros Hd Hq. assert (Hc : to_client s1 = to_client s) by (unfold to_client; rewrite Hq; reflexivity).
  unfold raw_request. rewrite bind_run. unfold mtry. rewrite bind_run. cbn [tr_send tr_readline linked_transport].
  unfold ln_send, caught_up. cbn [ln_open ln_server ln_read]. unfold serve_line, dispatch_line. rewrite Hd.
  unfold ln_readline. cbn [ln_server ln_read ln_open]. rewrite to_client_write, Hc, nth_error_app2, Nat.sub_diag by lia. cbn.
  rewrite length_app. cbn. rewrite Nat.add_comm. reflexivity.
Qed.

Lemma request_open payload s r l : raw_request payload (caught_up s) = (r, l) ->
  request payload (caught_up s) = match r with Ok resp => checked resp l | Err e => (Err e, l) end.
Proof.
  intros H. unfold request. rewrite bind_run. unfold connect. rewrite bind_run. unfold mgets. cbn [tr_connected linked_transport ln_open caught_up].
  unfold mret at 1. rewrite bind_run, H. destruct r; reflexivity.
Qed.

(** ** The server's side *)

(** Nobody else is at work, and the client reads what it is written. *)
Hypothesis writable : forall n, ae_write A n = true.
Hypothesis alone : forall s, ae_other_threads A s = s.

(** Neither the responses, nor the locks, nor the sets. *)
Definition settled (s s' : astate) : Prop := quiet s s' /\ inert s s'.
Lemma settled_trans s1 s2 s3 : settled s1 s2 -> settled s2 s3 -> settled s1 s3.
Proof. intros [Q1 I1] [Q2 I2]. split; etransitivity; eassumption. Qed.

Lemma write_run resp s : exists s1, write A c resp s = (Ok tt, a_write (c, resp) s1) /\ settled s s1.
Proof.
  unfold write. rewrite bind_run. unfold in_d, in_flash, in_daemon, client_ready, read, mbind, mgets. cbn. rewrite writable. cbn.
  eexists. split; [reflexivity|]. split; [reflexivity|split; reflexivity].
Qed.

Lemma answer_run m resp s s1 : m s = (Ok resp, s1) -> quiet s s1 ->
  exists s2, answer A c m s = (Ok Requests, a_write (c, resp) s2) /\ quiet s s2 /\ settled s1 s2.
Proof.
  intros Hm Hq. unfold answer. rewrite bind_run, Hm, bind_run. destruct (write_run resp s1) as (s2 & -> & H).
  exists s2. split; [reflexivity|]. split; [|exact H]. etransitivity; [exact Hq|apply H].
Qed.

Lemma track_settled l s : exists s1, mfor l (fun uid => mmodify (fun s => a_with_connections (dset uid c (a_uid_connections s)) s)) s = (Ok tt, s1) /\ settled s s1.
Proof.
  revert s. induction l as [|u l IH]; intros s; cbn [mfor].
  - exists s. split; [reflexivity|]. split; reflexivity.
  - rewrite bind_run. unfold mmodify at 1. destruct (IH (a_with_connections (dset u c (a_uid_connections s)) s)) as (s1 & -> & H).
    exists s1. split; [reflexivity|]. eapply settled_trans; [|exact H]. split; [reflexivity|split; reflexivity].
Qed.

Lemma untrack_settled l s : exists s1, mfor l pop_connection s = (Ok tt, s1) /\ settled s s1.
Proof.
  revert s. induction l as [|u l IH]; intros s; cbn [mfor].
  - exists s. split; [reflexivity|]. split; reflexivity.
  - rewrite bind_run. unfold pop_connection at 1, mmodify. destruct (IH (a_with_connections (ddel u (a_uid_connections s)) s)) as (s1 & -> & H).
    exists s1. split; [reflexivity|]. eapply settled_trans; [|exact H]. split; [reflexivity|split; reflexivity].
Qed.

Lemma tracking_run track m resp s s1 : track = tracking_lock A c \/ track = tracking_unlock A c -> m s = (Ok resp, s1) ->
  exists s2, track m s = (Ok resp, s2) /\ settled s1 s2.
Proof.
  intros [-> | ->] Hm; [unfold tracking_lock|unfold tracking_unlock]; rewrite bind_run; unfold mgets at 1; rewrite bind_run, Hm, bind_run;
    unfold others, mmodify at 1; rewrite alone, bind_run; unfold mgets at 1; rewrite bind_run.
  - destruct (track_settled (List.filter (fun u => negb (bool_decide (u ∈ acquired c s))) (acquired c s1)) s1) as (s2 & -> & H). eauto.
  - destruct (untrack_settled (List.filter (fun u => negb (bool_decide (u ∈ acquired c s1))) (acquired c s)) s1) as (s2 & -> & H). eauto.
Qed.

Lemma find_error token d e : Store.find token d = Err e -> exists query hosts, e = AmbiguousName query hosts.
Proof. unfold Store.find. cbv zeta. intros H. repeat case_match; try discriminate H; injection H as <-; eauto. Qed.

Lemma resolve_error token s e : resolve_visible local_scope token s <> Err e.
Proof.
  unfold resolve_visible, local_scope. cbn [sc_visible]. destruct (Store.find token (a_db s)) as [[r|]|e'] eqn:Hf; try discriminate.
  destruct (find_error _ _ _ Hf) as (q & h & ->). discriminate.
Qed.

(** What a request for an unknown or ambiguous token is answered. *)
Definition refusal (code : string) (resp : fields) : Prop := jget "ok" resp = JBool false /\ jget "code" resp = JStr code.

Lemma resolve_refusal token s resp : resolve_visible local_scope token s = Ok (inr resp) ->
  exists code, (code = CODE_NOT_FOUND \/ code = CODE_AMBIGUOUS_NAME) /\ refusal code resp.
Proof.
  unfold resolve_visible, local_scope. cbn [sc_visible]. intros H.
  assert (Hn : Ok (error CODE_NOT_FOUND []) = Ok resp -> exists code, (code = CODE_NOT_FOUND \/ code = CODE_AMBIGUOUS_NAME) /\ refusal code resp).
  { intros [= <-]. exists CODE_NOT_FOUND. split; [auto|]. split; reflexivity. }
  destruct (Store.find token (a_db s)) as [[r|]|[]]; try discriminate H.
  - apply Hn. congruence.
  - injection H as <-. exists CODE_AMBIGUOUS_NAME. split; [auto|]. split; reflexivity.
Qed.

(** ** [lock] *)

Definition lock_request (token kind : string) : fields := [("op", JStr "lock"); ("uid", JStr token); ("kind", JStr kind)].

Definition gone (r : DeviceRecord) : bool := bool_decide (dr_host r = None) && bool_decide (dr_state r = STATE_DISCONNECTED).

(** The lock a request asks for, from [s] to [s'], and the code it is
    refused with. *)
Definition lock_outcome (token kind : string) (s s' : astate) (refused : option string) : Prop :=
  match resolve_visible local_scope token s with
  | Ok (inl r) =>
      if gone r then refused = Some CODE_NOT_FOUND /\ inert s s'
      else match dget (dr_uid r) (a_locks s) with
           | Some _ => refused = Some CODE_LOCKED /\ inert s s'
           | None => refused = None /\ dr_uid r ∈ acquired c s' /\
                     exists now, a_locks s' = dset (dr_uid r) (mkLockStatus kind (cn_holder c) None now) (a_locks s)
           end
  | _ => (refused = Some CODE_NOT_FOUND \/ refused = Some CODE_AMBIGUOUS_NAME) /\ inert s s'
  end.

Lemma op_lock_run token kind s : token <> "" -> kind ∈ LOCK_KINDS ->
  exists resp s1 refused, op_lock A local_scope (lock_request token kind) c s = (Ok resp, s1) /\ quiet s s1 /\
    lock_outcome token kind s s1 refused /\
    match refused with None => jget "ok" resp = JBool true | Some code => refusal code resp end.
Proof.
  intros Ht Hk. unfold op_lock, lock_outcome. change (jget "uid" (lock_request token kind)) with (JStr token).
  change (jget "kind" (lock_request token kind)) with (JStr kind). change (jget "label" (lock_request token kind)) with JNull. cbn [truthy].
  rewrite (proj2 (String.eqb_neq token "") Ht). assert (Hk' : kind <> "") by (intros ->; unfold LOCK_KINDS in Hk; set_solver).
  rewrite (proj2 (String.eqb_neq kind "") Hk'). cbn [negb orb]. rewrite bool_decide_eq_true_2 by exact Hk. cbn [negb].
  unfold with_visible. rewrite bind_run. unfold mgets at 1. change (py_str A (JStr token)) with token. rewrite bind_run. unfold mlift at 1.
  destruct (resolve_visible local_scope token s) as [[r|resp]|e] eqn:Hv; [| |destruct (resolve_error token s e Hv)].
  2: { destruct (resolve_refusal _ _ _ Hv) as (code & Hc & Hr). exists resp, s, (Some code).
       split; [reflexivity|]. split; [reflexivity|]. split; [|exact Hr]. split; [destruct Hc as [-> | ->]; auto|reflexivity]. }
  unfold detached_error. fold (gone r). destruct (gone r).
  { exists (error CODE_NOT_FOUND []), s, (Some CODE_NOT_FOUND). split; [reflexivity|]. split; [reflexivity|].
    split; [split; [reflexivity|reflexivity]|split; reflexivity]. }
  destruct (a_acquire_run A (dr_uid r) kind (cn_holder c) None s) as [Ha Hl].
  assert (Hq : quiet s (mstate (a_acquire A (dr_uid r) kind (cn_holder c) None) s)) by apply in_d_quiet.
  unfold mtry. rewrite bind_run. unfold mstate, mresult in *. change (label_of A JNull) with (@None string).
  destruct (a_acquire A (dr_uid r) kind (cn_holder c) None s) as [res s1]. cbn [fst snd] in *.
  destruct (dget (dr_uid r) (a_locks s)) as [st|] eqn:Hd.
  - destruct Hl as [-> Hl]. eexists _, s1, (Some CODE_LOCKED). split; [reflexivity|]. split; [exact Hq|].
    split; [split; [reflexivity|split; assumption]|split; reflexivity].
  - destruct Hl as [-> [now Hl]]. eexists _, _, None. split; [reflexivity|]. split; [exact Hq|].
    split; [|reflexivity]. split; [reflexivity|]. split; [|exists now; exact Hl].
    unfold acquired_add, acquired at 1. cbn [a_acquired a_with_acquired]. rewrite dget_dset_eq.
    apply elem_of_app. case_bool_decide as Hm; [left; exact Hm|right; apply list_elem_of_singleton; reflexivity].
Qed.

Lemma lock_outcome_inert token kind s s1 s2 refused : inert s1 s2 ->
  lock_outcome token kind s s1 refused -> lock_outcome token kind s s2 refused.
Proof.
  intros [Hl Ha]. unfold lock_outcome, inert, acquired. rewrite Hl, Ha. auto.
Qed.

(** The end of the connection frees what it had locked. *)
Lemma hangup_frees uid st s : uid ∈ acquired c s -> dget uid (a_locks s) = Some st -> ls_holder st = cn_holder c ->
  dget uid (a_locks (ln_server (mstate ln_hangup (caught_up s)))) = None.
Proof.
  intros Hin Hst Hh. cbn [tr_hangup linked_transport]. unfold ln_hangup, mstate at 1. cbn [snd ln_server caught_up].
  unfold end_connection, leave_mode, mfinally, mstate, mret.
  rewrite bind_run. unfold mgets at 1.
  change (mfor (acquired c s) (fun uid => a_release A uid (cn_holder c) ;;! pop_connection uid))
    with (drop_each A pop_connection (cn_holder c) (acquired c s)).
  destruct (drop_each_spec A pop_connection pop_ok (cn_holder c) (acquired c s) s) as (HR & [_ HL] & HN).
  rewrite bind_run. unfold mresult, mstate in *.
  destruct (drop_each A pop_connection (cn_holder c) (acquired c s) s) as [r s1]. cbn [fst snd] in *. subst r. cbn [snd].
  change (dget uid (a_locks s1) = None). destruct (dget uid (a_locks s1)) as [st'|] eqn:E1; [|reflexivity].
  destruct (HN uid st' Hin E1). specialize (HL uid st' E1). congruence.
Qed.

(** C23: [RegistryClient.lock] on a connection to the local server, for any
    store and locks: it returns when the board was free, and the server then
    holds exactly the lock asked for, in this connection's holder's name and
    set; it raises the error of the code [locked] when the board was held
    and [not_found] or [ambiguous_name] when the token names no board here,
    several, or one that is unplugged, and changes no lock; the connection
    is ready for the next request either way, and when it ends the board
    that was locked is free. *)
Theorem client_lock token kind s : token <> "" -> kind ∈ LOCK_KINDS ->
  exists s' refused, Client.lock token kind (caught_up s) =
      (match refused with None => Ok tt | Some code => Err (OpError code) end, caught_up s') /\
    lock_outcome token kind s s' refused /\
    forall r, resolve_visible local_scope token s = Ok (inl r) -> refused = None ->
      dget (dr_uid r) (a_locks (ln_server (mstate ln_hangup (caught_up s')))) = None.
Proof.
  intros Ht Hk. destruct (op_lock_run token kind s Ht Hk) as (resp & s1 & refused & Hop & Hq & Ho & Hresp).
  destruct (tracking_run _ _ _ _ _ (or_introl eq_refl) Hop) as (s2 & Htr & H12).
  assert (Hq2 : quiet s s2) by (etransitivity; [exact Hq|apply H12]).
  destruct (answer_run _ _ _ _ Htr Hq2) as (s3 & Hans & Hq3 & H23).
  assert (Hout : lock_outcome token kind s (a_write (c, resp) s3) refused).
  { apply (lock_outcome_inert _ _ _ s1); [|exact Ho]. transitivity s2; [apply H12|]. transitivity s3; [apply H23|]. split; reflexivity. }
  exists (a_write (c, resp) s3), refused. split; [|split; [exact Hout|]].
  - unfold Client.lock. rewrite bind_run. fold (lock_request token kind).
    rewrite (request_open _ _ _ _ (request_answered (lock_request token kind) s resp s3 Hans Hq3)).
    unfold checked, raise_for_error. destruct refused as [code|]; [destruct Hresp as [-> ->]|rewrite Hresp]; reflexivity.
  - intros r Hr ->. unfold lock_outcome in Hout. rewrite Hr in Hout. destruct (gone r); [destruct Hout; discriminate|].
    destruct (dget (dr_uid r) (a_locks s)); [destruct Hout; discriminate|]. destruct Hout as (_ & Hin & now & Hl).
    eapply hangup_frees; [exact Hin|rewrite Hl, dget_dset_eq; reflexivity|reflexivity].
Qed.
End Session.

(** Two clients: one locks, the other is told so; the first one leaves. *)
Example two_clients :
  let one := Client.lock (H := linked_transport example_api conn_a) "9906" KIND_FLASH (caught_up conn_a accepted) in
  let other := Client.lock (H := linked_transport example_api conn_b) "9906" KIND_SERIAL (caught_up conn_b (ln_server one.2)) in
  one.1 = Ok tt /\ other.1 = Err (OpError CODE_LOCKED) /\ a_locks (ln_server other.2) = a_locks (ln_server one.2).
Proof. vm_compute. repeat split. Qed.

Lemma client_lock_witness :
  "9906" <> "" /\ KIND_FLASH ∈ LOCK_KINDS /\
  exists s' refused, Client.lock (H := linked_transport example_api conn_a) "9906" KIND_FLASH (caught_up conn_a accepted) =
      (match refused with None => Ok tt | Some code => Err (OpError code) end, caught_up conn_a s') /\
    lock_outcome conn_a "9906" KIND_FLASH accepted s' refused /\
    forall r, resolve_visible local_scope "9906" accepted = Ok (inl r) -> refused = None ->
      dget (dr_uid r) (a_locks (ln_server (mstate (ln_hangup example_api conn_a) (caught_up conn_a s')))) = None.
Proof.
  assert (Hk : KIND_FLASH ∈ LOCK_KINDS) by (apply list_elem_of_In; vm_compute; auto).
  split; [discriminate|]. split; [exact Hk|].
  exact (client_lock example_api conn_a (fun _ => eq_refl) (fun _ => eq_refl) "9906" KIND_FLASH accepted (fun H => ltac:(discriminate H)) Hk).
Defined.
