(* ===== verification/Service.v ===== *)
(** * [registry/service.py]: the daemon as a service of its machine

    Installing, removing and controlling the launchd and systemd services:
    the files written, the commands run, the refusals.  The host is its
    files and a log of what was done to it; what a command answers, and
    whether a file operation is allowed, is the environment's.  Texts that
    are only printed are left out, but whether something is announced as
    done is kept.

    Bounds: the account database is a function; a directory is there when a
    file is under it or it was made. *)

From S2P Require Import Prelude Tables Trace Paths.
Local Open Scope py_scope.

Definition newline_char : string := String "010" "".
Definition dquote : string := String "034" "".
Definition quoted (s : string) : string := (dquote +:+ s +:+ dquote)%string.
Definition tab : string := String "009" "".
(** Lines, each ended. *)
Definition text_of_lines (l : list string) : string := foldr (fun s acc => (s +:+ newline_char +:+ acc)%string) "" l.

(** ** The host *)

Inductive act :=
| Ran (argv : list string)
| WouldRun (argv : list string)
| MadeDir (p : path)
| Wrote (p : path)
| Unlinked (p : path)
| RemovedTree (p : path)
| AnnouncedGroup (user : string)        (* "added ... to the group" *)
| Refused (in_group rule_present : bool).

Record host := mkHost {
  ho_files : list (path * string);
  ho_dirs : list path;
  ho_log : list act }.

Definition logged (a : act) (h : host) : host := mkHost (ho_files h) (ho_dirs h) (ho_log h ++ [a]).
Definition exists_file (p : path) (h : host) : bool := bool_decide (dget p (ho_files h) <> None).

(** Under a directory. *)
Fixpoint is_prefix (a b : list string) : bool :=
  match a, b with
  | [], _ => true
  | x :: a', y :: b' => String.eqb x y && is_prefix a' b'
  | _, _ => false
  end.
Definition under (d p : path) : bool := Bool.eqb (pa_absolute d) (pa_absolute p) && is_prefix (pa_parts d) (pa_parts p).

Definition exists_dir (d : path) (h : host) : bool :=
  existsb (fun kv => under d kv.1) (ho_files h) || existsb (under d) (ho_dirs h).

(** What commands answer, and which file operations are allowed. *)
Record service_env := mkServiceEnv {
  sv_run : list act -> list string -> Z;
  sv_io : list act -> act -> bool;
  sv_machine : machine;
  sv_python : string;                                 (* [sys.executable] *)
  sv_login : string;                                  (* [getpass.getuser()] *)
  sv_group_of : string -> option string;              (* the account's primary group *)
  sv_members : option (list string) }.                (* of [plugdev] *)

Section Service.
Variable E : service_env.
Notation m := (sv_machine E).

Definition io (a : act) (f : host -> host) : M host unit := fun h =>
  if sv_io E (ho_log h) a then (Ok tt, logged a (f h)) else (Err OSError, h).

Definition mkdir (p : path) : M host unit :=
  io (MadeDir p) (fun h => mkHost (ho_files h) (if exists_dir p h then ho_dirs h else ho_dirs h ++ [p]) (ho_log h)).
Definition write_text (p : path) (text : string) : M host unit :=
  io (Wrote p) (fun h => mkHost (dset p text (ho_files h)) (ho_dirs h) (ho_log h)).
(** [unlink(missing_ok=True)]. *)
Definition unlink (p : path) : M host unit :=
  io (Unlinked p) (fun h => mkHost (ddel p (ho_files h)) (ho_dirs h) (ho_log h)).
Definition rmtree (p : path) : M host unit :=
  io (RemovedTree p) (fun h => mkHost (List.filter (fun kv => negb (under p kv.1)) (ho_files h))
                                      (List.filter (fun d => negb (under p d)) (ho_dirs h)) (ho_log h)).

(** ** Runners *)

Inductive runner := SubprocessCommandRunner (check : bool) | DryRunCommandRunner.

Definition run (r : runner) (argv : list string) : M host Z := fun h =>
  match r with
  | DryRunCommandRunner => (Ok 0, logged (WouldRun argv) h)
  | SubprocessCommandRunner check =>
      let code := sv_run E (ho_log h) argv in
      (if check && negb (code =? 0) then Err CalledProcessError else Ok code, logged (Ran argv) h)
  end.

Definition default_runner (dry_run : bool) : runner :=
  if dry_run then DryRunCommandRunner else SubprocessCommandRunner true.

Definition pick_runner (r : option runner) (dry_run : bool) : runner :=
  match r with Some r => r | None => default_runner dry_run end.

(** [try: run except CalledProcessError: pass]. *)
Definition run_tolerant (r : runner) (argv : list string) : M host unit :=
  mtry (run r argv ;;! mret tt) (fun e => match e with CalledProcessError => Some (mret tt) | _ => None end).

Definition unless (b : bool) (c : M host unit) : M host unit := if b then mret tt else c.

Record ServiceStatus := mkServiceStatus {
  ss_scope : string;
  ss_path : path;
  ss_installed : bool;
  ss_running : bool }.

Definition describe (s : ServiceStatus) : string :=
  if negb (ss_installed s) then "not installed"
  else if ss_running s then "installed and running" else "installed but not running".

(** ** macOS *)

Definition validate_scope (scope : string) : result unit :=
  if bool_decide (scope ∈ ["user"; "system"]) then Ok tt else Err ValueError.

Definition is_user (scope : string) : bool := String.eqb scope "user".
Definition is_system (scope : string) : bool := String.eqb scope "system".

Definition macos_plist_path (scope : string) : path :=
  if is_user scope then macos_launch_agent_path m else macos_launch_daemon_path m.
Definition macos_log_path (scope : string) : path :=
  if is_user scope then macos_user_log_path m else macos_system_log_path m.
Definition macos_domain (scope : string) : string :=
  if is_system scope then "system" else ("gui/" +:+ pretty (mc_uid m))%string.
Definition macos_working_directory (scope : string) : string :=
  if is_system scope then "/" else path_str (home m).

(** [plistlib.dumps]: the XML of a value, the keys of a dict in order, each
    line indented by its depth. *)
Inductive plist := PStr (s : string) | PBool (b : bool) | PInt (z : Z) | PArray (l : list plist) | PDict (kvs : list (string * plist)).

Definition escape_char (c : ascii) : string :=
  if Ascii.eqb c "&" then "&amp;" else if Ascii.eqb c "<" then "&lt;" else if Ascii.eqb c ">" then "&gt;" else String c "".
Definition escape (s : string) : string := foldr (fun c acc => (escape_char c +:+ acc)%string) "" (list_ascii_of_string s).

Definition indented (l : list string) : list string := map (fun s => (tab +:+ s)%string) l.
Definition element (tag s : string) : string := ("<" +:+ tag +:+ ">" +:+ escape s +:+ "</" +:+ tag +:+ ">")%string.

Fixpoint plist_lines (v : plist) : list string :=
  match v with
  | PStr s => [element "string" s]
  | PBool b => [if b then "<true/>" else "<false/>"]
  | PInt z => [element "integer" (pretty z)]
  | PArray [] => ["<array/>"]
  | PArray l => ["<array>"] ++ indented (flat_map plist_lines l) ++ ["</array>"]
  | PDict [] => ["<dict/>"]
  | PDict kvs => ["<dict>"] ++ indented (flat_map (fun kv => element "key" kv.1 :: plist_lines kv.2) kvs) ++ ["</dict>"]
  end.

Definition plist_dumps (v : plist) : string :=
  text_of_lines
    ([("<?xml version=" +:+ quoted "1.0" +:+ " encoding=" +:+ quoted "UTF-8" +:+ "?>")%string;
      ("<!DOCTYPE plist PUBLIC " +:+ quoted "-//Apple//DTD PLIST 1.0//EN" +:+ " " +:+
        quoted "http://www.apple.com/DTDs/PropertyList-1.0.dtd" +:+ ">")%string;
      ("<plist version=" +:+ quoted "1.0" +:+ ">")%string] ++ plist_lines v ++ ["</plist>"]).

(** The keys as [sort_keys] writes them. *)
Definition render_launchd_plist (scope : string) (exec_path : option string) : string :=
  let program := match exec_path with Some p => p | None => sv_python E end in
  let log_path := path_str (macos_log_path scope) in
  plist_dumps (PDict
    [("EnvironmentVariables", PDict [("PYTHONDONTWRITEBYTECODE", PStr "1"); ("PYTHONUNBUFFERED", PStr "1")]);
     ("KeepAlive", PDict [("SuccessfulExit", PBool false)]);
     ("Label", PStr (path_stem (macos_plist_path scope)));
     ("ProgramArguments", PArray (map PStr [program; "-m"; "mbtools.registry.cli"; "service"; "run"]));
     ("RunAtLoad", PBool true);
     ("StandardErrorPath", PStr log_path);
     ("StandardOutPath", PStr log_path);
     ("ThrottleInterval", PInt 10);
     ("WorkingDirectory", PStr (macos_working_directory scope))]).

Definition service_target (scope : string) : string :=
  (macos_domain scope +:+ "/" +:+ path_stem (macos_plist_path scope))%string.

Definition macos_install (scope : string) (dry_run : bool) (r : option runner) : M host path :=
  mlift (validate_scope scope) ;;!
  let plist_path := macos_plist_path scope in
  let r := pick_runner r dry_run in
  unless dry_run (
    mkdir (parent plist_path) ;;!
    mkdir (parent (macos_log_path scope)) ;;!
    write_text plist_path (render_launchd_plist scope None)) ;;!
  run_tolerant r ["launchctl"; "bootout"; service_target scope] ;;!
  run r ["launchctl"; "enable"; service_target scope] ;;!
  run r ["launchctl"; "bootstrap"; macos_domain scope; path_str plist_path] ;;!
  mret plist_path.

Definition socket_path_of (scope : string) : result path :=
  if is_system scope then system_socket_path m else user_socket_path m.
Definition db_path_of (scope : string) : path :=
  if is_system scope then system_db_path m else user_db_path m.

Definition purge_state (scope : string) : M host unit :=
  let state_dir := parent (db_path_of scope) in
  there <-! mgets (exists_dir state_dir) ;;
  if there : bool then rmtree state_dir else mret tt.

(** What an uninstall says: whether there was a service, and one at the
    other scope. *)
Inductive removal := NotInstalled (elsewhere : bool) | Removed.

Definition macos_uninstall (scope : string) (purge dry_run : bool) (r : option runner) : M host removal :=
  mlift (validate_scope scope) ;;!
  let plist_path := macos_plist_path scope in
  let other := macos_plist_path (if is_user scope then "system" else "user") in
  there <-! mgets (exists_file plist_path) ;;
  if negb there then elsewhere <-! mgets (exists_file other) ;; mret (NotInstalled elsewhere)
  else
    let r := pick_runner r dry_run in
    run_tolerant r ["launchctl"; "bootout"; service_target scope] ;;!
    unless dry_run (
      unlink plist_path ;;!
      socket_path <-! mlift (socket_path_of scope) ;;
      unlink socket_path ;;!
      unlink (macos_log_path scope) ;;!
      if purge then purge_state scope else mret tt) ;;!
    mret Removed.

Definition macos_status (scope : string) (r : option runner) : M host ServiceStatus :=
  mlift (validate_scope scope) ;;!
  let plist_path := macos_plist_path scope in
  installed <-! mgets (exists_file plist_path) ;;
  running <-!
    (if installed : bool then
       code <-! run (match r with Some r => r | None => SubprocessCommandRunner false end)
                  ["launchctl"; "print"; service_target scope] ;;
       mret (code =? 0)
     else mret false) ;;
  mret (mkServiceStatus scope plist_path installed running).

Definition macos_control (action scope : string) (dry_run : bool) (r : option runner) : M host path :=
  mlift (validate_scope scope) ;;!
  let plist_path := macos_plist_path scope in
  there <-! mgets (exists_file plist_path) ;;
  if negb there then mraise FileNotFoundError
  else
    let r := pick_runner r dry_run in
    if String.eqb action "stop" then
      run_tolerant r ["launchctl"; "bootout"; service_target scope] ;;! mret plist_path
    else
      run_tolerant r ["launchctl"; "bootstrap"; macos_domain scope; path_str plist_path] ;;!
      run r (["launchctl"; "kickstart"] ++ (if String.eqb action "restart" then ["-k"] else []) ++ [service_target scope]) ;;!
      mret plist_path.

(** ** Linux *)

Definition LINUX_UNIT_NAME : string := "mbregistry.service".
Definition USB_VENDOR_ID : string := "0d28".
Definition USB_PRODUCT_ID : string := "0204".
Definition UDEV_GROUP : string := "plugdev".

Definition linux_unit_path (scope : string) : path :=
  if is_user scope then linux_user_unit_path m else LINUX_SYSTEM_UNIT_PATH m.

Definition resolve_linux_operating_user (flag_value : option string) : string :=
  match flag_value with
  | Some s => if String.eqb s "" then match env_value m "SUDO_USER" with
                                        | Some u => u
                                        | None => match env_value m "USER" with Some u => u | None => sv_login E end
                                        end
              else s
  | None => match env_value m "SUDO_USER" with
            | Some u => u
            | None => match env_value m "USER" with Some u => u | None => sv_login E end
            end
  end.

(** An account that does not exist has no primary group. *)
Definition linux_user_in_plugdev (user : string) : bool :=
  match sv_group_of E user with
  | None => false
  | Some g => String.eqb g UDEV_GROUP ||
              match sv_members E with Some l => existsb (String.eqb user) l | None => false end
  end.

Definition SYSTEMD_UNIT_TEMPLATE (exec_start : string) : list string :=
  ["[Unit]"; "Description=mbregistry -- micro:bit device registry daemon"; "After=network.target"; "";
   "[Service]"; "Type=simple"; ("ExecStart=" +:+ exec_start)%string;
   "# Running as root, the daemon would otherwise write root-owned __pycache__";
   "# into the (user-owned) venv, which breaks the next non-root reinstall.";
   "Environment=PYTHONDONTWRITEBYTECODE=1"; "Restart=on-failure"; "RestartSec=2";
   "RuntimeDirectory=mbregistry"; "StateDirectory=mbregistry"; "";
   "[Install]"; "WantedBy=multi-user.target"].

Definition SYSTEMD_USER_UNIT_TEMPLATE (exec_start : string) : list string :=
  ["[Unit]"; "Description=mbregistry -- micro:bit device registry daemon"; "After=network.target"; "";
   "[Service]"; "Type=simple"; ("ExecStart=" +:+ exec_start)%string; "Restart=on-failure"; "RestartSec=2"; "";
   "[Install]"; "WantedBy=default.target"].

Definition render_systemd_unit (exec_start : option string) (scope : string) : string :=
  let exec_start := match exec_start with
                    | Some s => s
                    | None => (sv_python E +:+ " -m mbtools.registry.cli service run")%string
                    end in
  text_of_lines (if is_system scope then SYSTEMD_UNIT_TEMPLATE exec_start else SYSTEMD_USER_UNIT_TEMPLATE exec_start).

(** A match rule: [key=="value"] conditions, then the access granted. *)
Definition cond (key value : string) : string := (key +:+ "==" +:+ quoted value)%string.
Definition usb_rule (device : list string) : string :=
  Py.join ", " (device ++ [cond "ATTRS{idVendor}" USB_VENDOR_ID; cond "ATTRS{idProduct}" USB_PRODUCT_ID;
    ("GROUP=" +:+ quoted UDEV_GROUP)%string; ("MODE=" +:+ quoted "0660")%string; ("TAG+=" +:+ quoted "uaccess")%string]).

Definition render_udev_rule : string := text_of_lines
  ["# mbregistry -- non-root access to the micro:bit DAPLink interface";
   ("# (VID:PID " +:+ USB_VENDOR_ID +:+ ":" +:+ USB_PRODUCT_ID +:+ "). Written by `mbregistry service install`")%string;
   "# (ticket 006-003) -- re-running it overwrites this file with identical";
   "# content, so re-running install is idempotent. See";
   "# mbtools.registry.service.render_udev_rule()'s docstring for why each rule";
   ("# below grants access via both the " +:+ UDEV_GROUP +:+ " group and uaccess rather than")%string;
   "# just one of the two."; "";
   "# CDC-ACM tty device node (mbserial, and pyOCD's DAPLink serial transport)";
   usb_rule [cond "SUBSYSTEM" "tty"; cond "SUBSYSTEMS" "usb"]; "";
   "# Raw USB device node (CMSIS-DAP v2 / WinUSB transport, opened directly by pyOCD)";
   usb_rule [cond "SUBSYSTEM" "usb"]; "";
   "# hidraw device node (CMSIS-DAP v1 / HID transport)";
   usb_rule [cond "KERNEL" "hidraw*"]].

Definition note (a : act) : M host unit := mmodify (logged a).

Definition linux_install_system (dry_run : bool) (r : runner) (operating_user : option string) : M host path :=
  let unit_path := linux_unit_path "system" in
  let udev_path := LINUX_UDEV_RULE_PATH m in
  let user := resolve_linux_operating_user operating_user in
  unless dry_run (
    mkdir (parent unit_path) ;;! write_text unit_path (render_systemd_unit None "system") ;;!
    mkdir (parent udev_path) ;;! write_text udev_path render_udev_rule) ;;!
  run r ["systemctl"; "daemon-reload"] ;;!
  run r ["systemctl"; "enable"; "--now"; LINUX_UNIT_NAME] ;;!
  run r ["udevadm"; "control"; "--reload-rules"] ;;!
  run r ["udevadm"; "trigger"] ;;!
  run r ["usermod"; "-aG"; UDEV_GROUP; user] ;;!
  note (AnnouncedGroup user) ;;!
  mret unit_path.

Definition linux_install_user (dry_run : bool) (r : runner) (operating_user : option string) : M host path :=
  let user := resolve_linux_operating_user operating_user in
  let in_plugdev := linux_user_in_plugdev user in
  udev_rule_present <-! mgets (exists_file (LINUX_UDEV_RULE_PATH m)) ;;
  if negb in_plugdev || negb udev_rule_present then
    note (Refused in_plugdev udev_rule_present) ;;! mraise LinuxUserPreflightError
  else
    let unit_path := linux_unit_path "user" in
    unless dry_run (mkdir (parent unit_path) ;;! write_text unit_path (render_systemd_unit None "user")) ;;!
    run r ["systemctl"; "--user"; "daemon-reload"] ;;!
    run r ["systemctl"; "--user"; "enable"; "--now"; LINUX_UNIT_NAME] ;;!
    run r ["loginctl"; "enable-linger"; user] ;;!
    mret unit_path.

Definition linux_install (scope : string) (dry_run : bool) (r : option runner) (operating_user : option string) : M host path :=
  mlift (validate_scope scope) ;;!
  let r := pick_runner r dry_run in
  if is_user scope then linux_install_user dry_run r operating_user
  else linux_install_system dry_run r operating_user.

Definition systemctl (scope : string) : list string := if is_user scope then ["systemctl"; "--user"] else ["systemctl"].

Definition linux_uninstall (scope : string) (purge dry_run : bool) (r : option runner) : M host removal :=
  mlift (validate_scope scope) ;;!
  let unit_path := linux_unit_path scope in
  let other := linux_unit_path (if is_user scope then "system" else "user") in
  there <-! mgets (exists_file unit_path) ;;
  if negb there then elsewhere <-! mgets (exists_file other) ;; mret (NotInstalled elsewhere)
  else
    let r := pick_runner r dry_run in
    run_tolerant r (systemctl scope ++ ["disable"; "--now"; LINUX_UNIT_NAME]) ;;!
    unless dry_run (
      unlink unit_path ;;!
      socket_path <-! mlift (socket_path_of scope) ;;
      unlink socket_path) ;;!
    (if is_system scope then
       unless dry_run (unlink (LINUX_UDEV_RULE_PATH m)) ;;!
       run r ["systemctl"; "daemon-reload"] ;;!
       run_tolerant r ["udevadm"; "control"; "--reload-rules"]
     else mret tt) ;;!
    (if negb dry_run && purge then purge_state scope else mret tt) ;;!
    mret Removed.

Definition linux_status (scope : string) (r : option runner) : M host ServiceStatus :=
  mlift (validate_scope scope) ;;!
  let unit_path := linux_unit_path scope in
  installed <-! mgets (exists_file unit_path) ;;
  running <-!
    (if installed : bool then
       code <-! run (match r with Some r => r | None => SubprocessCommandRunner false end)
                  (systemctl scope ++ ["is-active"; "mbregistry"]) ;;
       mret (code =? 0)
     else mret false) ;;
  mret (mkServiceStatus scope unit_path installed running).

Definition linux_control (action scope : string) (dry_run : bool) (r : option runner) : M host path :=
  mlift (validate_scope scope) ;;!
  let unit_path := linux_unit_path scope in
  there <-! mgets (exists_file unit_path) ;;
  if negb there then mraise FileNotFoundError
  else run (pick_runner r dry_run) (systemctl scope ++ [action; LINUX_UNIT_NAME]) ;;! mret unit_path.
End Service.
