(* ===== verification/ServiceFacts.v ===== *)
(** * What installing and removing the service does to a host

    A dry run touches nothing and names the commands a real run would make;
    an install and the uninstall after it leave every other file as it was;
    a user's install without access to the boards is refused. *)

From S2P Require Import Prelude Tables Trace Paths Service.
Local Open Scope py_scope.

(** Every operation of the module that changes something, on either system. *)
Inductive service_op :=
| MacInstall (scope : string)
| MacUninstall (scope : string) (purge : bool)
| MacControl (action scope : string)
| LinuxInstall (scope : string) (operating_user : option string)
| LinuxUninstall (scope : string) (purge : bool)
| LinuxControl (action scope : string).

Definition service_exec (E : service_env) (o : service_op) (dry_run : bool) : M host unit :=
  match o with
  | MacInstall scope => macos_install E scope dry_run None ;;! mret tt
  | MacUninstall scope purge => macos_uninstall E scope purge dry_run None ;;! mret tt
  | MacControl action scope => macos_control E action scope dry_run None ;;! mret tt
  | LinuxInstall scope user => linux_install E scope dry_run None user ;;! mret tt
  | LinuxUninstall scope purge => linux_uninstall E scope purge dry_run None ;;! mret tt
  | LinuxControl action scope => linux_control E action scope dry_run None ;;! mret tt
  end.

(** ** Dry runs *)

Definition harmless (a : act) : bool :=
  match a with WouldRun _ | AnnouncedGroup _ | Refused _ _ => true | _ => false end.

Definition same_files (h h' : host) : Prop := ho_files h' = ho_files h /\ ho_dirs h' = ho_dirs h.

#[export] Instance same_files_preorder : PreOrder same_files.
Proof. split; [split; reflexivity|]. intros a b c [H1 H2] [H3 H4]. split; congruence. Qed.

Section DryRuns.
Variable E : service_env.

Lemma dry_run_emits argv : emits ho_log harmless (run E DryRunCommandRunner argv).
Proof. intros h. exists [WouldRun argv]. split; reflexivity. Qed.
Lemma dry_run_same argv : stays same_files (run E DryRunCommandRunner argv).
Proof. intros h. split; reflexivity. Qed.
Lemma note_emits a : harmless a = true -> emits ho_log harmless (note a).
Proof. intros H h. exists [a]. split; [reflexivity|]. cbn. rewrite H. reflexivity. Qed.
Lemma note_same a : stays same_files (note a).
Proof. intros h. split; reflexivity. Qed.

Ltac dry := repeat (emits_step || apply dry_run_emits || (apply note_emits; reflexivity)).
Ltac same := repeat (stays_step || apply dry_run_same || apply note_same).

Lemma dry_exec_emits o : emits ho_log harmless (service_exec E o true).
Proof.
  destruct o; cbn [service_exec]; unfold macos_install, macos_uninstall, macos_control, linux_install, linux_install_user,
    linux_install_system, linux_uninstall, linux_control, run_tolerant, unless; cbn [pick_runner default_runner negb andb]; dry.
Qed.

Lemma dry_exec_same o : stays same_files (service_exec E o true).
Proof.
  destruct o; cbn [service_exec]; unfold macos_install, macos_uninstall, macos_control, linux_install, linux_install_user,
    linux_install_system, linux_uninstall, linux_control, run_tolerant, unless; cbn [pick_runner default_runner negb andb]; same.
Qed.
End DryRuns.

(** ** What a dry run announces is what a real run does *)

(** The commands of a log. *)
Definition commands (l : list act) : list (list string) :=
  flat_map (fun a => match a with Ran argv | WouldRun argv => [argv] | _ => [] end) l.

Lemma commands_app a b : commands (a ++ b) = commands a ++ commands b.
Proof. apply flat_map_app. Qed.

(** The real run [m'] runs the commands of the dry run [m], or, when it
    raises, the first of them. *)
Definition plans_at {A} (h h' : host) (m m' : M host A) : Prop :=
  exists announced ran, commands (ho_log (mstate m h)) = commands (ho_log h) ++ announced /\
    commands (ho_log (mstate m' h')) = commands (ho_log h') ++ ran /\ ran `prefix_of` announced /\
    (forall a, mresult m' h' = Ok a -> mresult m h = Ok a /\ ran = announced).

Definition plans {A} (m m' : M host A) : Prop := forall h h', plans_at h h' m m'.

(** Neither runs any command. *)
Definition runs_nothing {A} (m : M host A) : Prop := forall h, commands (ho_log (mstate m h)) = commands (ho_log h).

Section Plans.
Variable E : service_env.

Lemma plans_nothing {A} (m m' : M host A) : runs_nothing m -> runs_nothing m' ->
  (forall h h' a, mresult m' h' = Ok a -> mresult m h = Ok a) -> plans m m'.
Proof.
  intros H H' Hr h h'. exists [], []. rewrite !app_nil_r. split; [apply H|]. split; [apply H'|].
  split; [reflexivity|]. intros a Ha. split; [exact (Hr h h' a Ha)|reflexivity].
Qed.

Lemma plans_ret {A} (a : A) : plans (mret a) (mret a).
Proof. apply plans_nothing; try (intros ?; reflexivity). auto. Qed.
Lemma plans_raise {A} e : plans (mraise (A:=A) e) (mraise e).
Proof. apply plans_nothing; try (intros ?; reflexivity). discriminate. Qed.
Lemma plans_lift {A} (x : result A) : plans (mlift x) (mlift x).
Proof. apply plans_nothing; try (intros ?; reflexivity). auto. Qed.
Lemma plans_note a : commands [a] = [] -> plans (note a) (note a).
Proof.
  intros Ha. apply plans_nothing; [| |auto]; intros h; unfold note, mmodify, mstate, logged; cbn [snd ho_log];
    rewrite commands_app, Ha, app_nil_r; reflexivity.
Qed.

Lemma plans_bind_at {A B} (m m' : M host A) (k k' : A -> M host B) h h' :
  plans_at h h' m m' -> (forall a, plans (k a) (k' a)) -> plans_at h h' (mbind m k) (mbind m' k').
Proof.
  intros (c & r & H1 & H2 & H3 & H4) Hk. unfold plans_at, mstate, mresult in *. rewrite !bind_run.
  destruct (m' h') as [[a|e] s'] eqn:E'; cbn [fst snd] in *.
  - destruct (H4 a eq_refl) as [Hd ->]. destruct (m h) as [rd s]; cbn [fst snd] in *. subst rd.
    destruct (Hk a s s') as (c2 & r2 & H5 & H6 & H7 & H8). unfold mstate, mresult in *.
    exists (c ++ c2), (c ++ r2). rewrite H5, H6, H1, H2, !app_assoc. split; [reflexivity|]. split; [reflexivity|].
    split; [apply prefix_app; exact H7|]. intros b Hb. destruct (H8 b Hb) as [H9 ->]. auto.
  - destruct (m h) as [[a|e0] s] eqn:Ed; cbn [fst snd] in *.
    + destruct (Hk a s s') as (c2 & r2 & H5 & _). unfold mstate in *. exists (c ++ c2), r.
      rewrite H5, H1, app_assoc. repeat split; auto; try discriminate. apply prefix_app_r. exact H3.
    + exists c, r. repeat split; auto; discriminate.
Qed.

Lemma plans_bind {A B} (m m' : M host A) (k k' : A -> M host B) :
  plans m m' -> (forall a, plans (k a) (k' a)) -> plans (mbind m k) (mbind m' k').
Proof. intros H Hk h h'. apply plans_bind_at; auto. Qed.

Lemma plans_gets {A B} (f : host -> A) (k k' : A -> M host B) h :
  (forall a, plans_at h h (k a) (k' a)) -> plans_at h h (mbind (mgets f) k) (mbind (mgets f) k').
Proof. intros H. exact (H (f h)). Qed.

Lemma plans_lift_at {A B} (x : result A) (k k' : A -> M host B) h :
  (forall a, plans_at h h (k a) (k' a)) -> plans_at h h (mbind (mlift x) k) (mbind (mlift x) k').
Proof. intros H. destruct x as [a|e]; [exact (H a)|]. apply plans_raise. Qed.

Lemma plans_run argv : plans (run E DryRunCommandRunner argv) (run E (SubprocessCommandRunner true) argv).
Proof.
  intros h h'. exists [argv], [argv]. unfold mstate, mresult, run. cbn [snd fst]. unfold logged. cbn [ho_log].
  rewrite !commands_app. split; [reflexivity|]. split; [reflexivity|]. split; [reflexivity|].
  intros a. cbn [andb]. destruct (Z.eqb_spec (sv_run E (ho_log h') argv) 0) as [->|]; [|discriminate]. intros [= <-]. auto.
Qed.

Lemma plans_tolerant argv : plans (run_tolerant E DryRunCommandRunner argv) (run_tolerant E (SubprocessCommandRunner true) argv).
Proof.
  intros h h'. exists [argv], [argv]. unfold mstate, mresult, run_tolerant, mtry. rewrite !bind_run. unfold run. cbn [andb].
  destruct (negb _); cbn; unfold logged; cbn [ho_log]; rewrite !commands_app; (repeat split; auto).
Qed.

(** File operations, which a dry run leaves out. *)
Lemma io_runs_nothing a f : commands [a] = [] -> (forall h, ho_log (f h) = ho_log h) -> runs_nothing (io E a f).
Proof.
  intros Ha Hf h. unfold mstate, io. destruct (sv_io E (ho_log h) a); [|reflexivity].
  cbn [snd]. unfold logged. cbn [ho_log]. rewrite commands_app, Ha, app_nil_r, Hf. reflexivity.
Qed.
Lemma mkdir_runs_nothing p : runs_nothing (mkdir E p).
Proof. apply io_runs_nothing; reflexivity. Qed.
Lemma write_runs_nothing p t : runs_nothing (write_text E p t).
Proof. apply io_runs_nothing; reflexivity. Qed.
Lemma unlink_runs_nothing p : runs_nothing (unlink E p).
Proof. apply io_runs_nothing; reflexivity. Qed.
Lemma rmtree_runs_nothing p : runs_nothing (rmtree E p).
Proof. apply io_runs_nothing; reflexivity. Qed.
Lemma nothing_bind {A B} (m : M host A) (k : A -> M host B) :
  runs_nothing m -> (forall a, runs_nothing (k a)) -> runs_nothing (mbind m k).
Proof.
  intros H Hk h. specialize (H h). unfold mstate in *. rewrite bind_run. destruct (m h) as [[a|e] s]; [|exact H].
  cbn [snd] in H. rewrite <- H. apply Hk.
Qed.
Lemma nothing_ret {A} (a : A) : runs_nothing (mret a).
Proof. intros h. reflexivity. Qed.
Lemma nothing_lift {A} (x : result A) : runs_nothing (mlift x).
Proof. intros h. reflexivity. Qed.
Lemma purge_runs_nothing scope : runs_nothing (purge_state E scope).
Proof. intros h. unfold purge_state. cbn zeta. destruct (exists_dir (parent (db_path_of E scope)) h) eqn:Ed;
  unfold mstate; rewrite bind_run; cbn [mgets]; rewrite Ed; [apply rmtree_runs_nothing|reflexivity]. Qed.

Lemma plans_left_out (m : M host unit) : runs_nothing m -> plans (mret tt) m.
Proof. intros H. apply plans_nothing; [apply nothing_ret|exact H|]. intros ? ? [] _. reflexivity. Qed.
End Plans.

Create HintDb silent.
#[export] Hint Resolve mkdir_runs_nothing write_runs_nothing unlink_runs_nothing rmtree_runs_nothing
  nothing_bind nothing_ret nothing_lift purge_runs_nothing : silent.


Ltac plan_step :=
  lazymatch goal with
  | |- forall _, _ => intro
  | |- plans (mret _) (mret _) => apply plans_ret
  | |- plans (mlift _) (mlift _) => apply plans_lift
  | |- plans (mraise _) (mraise _) => apply plans_raise
  | |- plans (note _) (note _) => apply plans_note; reflexivity
  | |- plans (run _ _ _) (run _ _ _) => apply plans_run
  | |- plans (run_tolerant _ _ _) (run_tolerant _ _ _) => apply plans_tolerant
  | |- plans (mret tt) _ => apply plans_left_out
  | |- plans (mbind _ _) (mbind _ _) => apply plans_bind
  | |- plans (if ?x then _ else _) _ => destruct x
  | |- plans_at ?h ?h (mbind (mgets _) _) _ => apply plans_gets
  | |- plans_at ?h ?h (mbind (mlift _) _) _ => apply plans_lift_at
  | |- plans_at _ _ (if ?x then _ else _) _ => destruct x
  | |- plans_at _ _ (mbind _ _) _ => apply plans_bind_at
  | |- plans_at ?h ?h' ?m ?m' => refine ((_ : plans m m') h h')
  | |- runs_nothing (mbind _ _) => apply nothing_bind
  | |- runs_nothing (if ?x then _ else _) => destruct x
  | |- runs_nothing _ => auto with silent
  end.

Lemma exec_plans E o h : plans_at h h (service_exec E o true) (service_exec E o false).
Proof.
  destruct o; cbn [service_exec]; unfold macos_install, macos_uninstall, macos_control, linux_install, linux_install_user,
    linux_install_system, linux_uninstall, linux_control, unless; cbn [pick_runner default_runner negb andb].
  all: apply plans_bind_at; [|intro; plan_step].
  all: repeat (plan_step; cbv beta zeta; cbn [negb andb]).
Qed.

(** ** Running for real, when nothing fails *)

Section Works.
Variable E : service_env.
Hypothesis runs : forall l argv, sv_run E l argv = 0.
Hypothesis allowed : forall l a, sv_io E l a = true.
Notation m := (sv_machine E).

Lemma run_works check argv h : run E (SubprocessCommandRunner check) argv h = (Ok 0, logged (Ran argv) h).
Proof. cbn. rewrite runs, andb_false_r. reflexivity. Qed.

Lemma tolerant_works check argv h : run_tolerant E (SubprocessCommandRunner check) argv h = (Ok tt, logged (Ran argv) h).
Proof. unfold run_tolerant, mtry. rewrite bind_run, run_works. reflexivity. Qed.

Lemma io_works a f h : io E a f h = (Ok tt, logged a (f h)).
Proof. unfold io. rewrite allowed. reflexivity. Qed.

(** An operation that returns and leaves these files. *)
Definition leaves {A} (c : M host A) (files files' : list (path * string)) : Prop :=
  forall h, ho_files h = files -> (exists a, mresult c h = Ok a) /\ ho_files (mstate c h) = files'.

Lemma leaves_bind {A B} (c : M host A) (k : A -> M host B) f1 f2 f3 :
  leaves c f1 f2 -> (forall a, leaves (k a) f2 f3) -> leaves (mbind c k) f1 f3.
Proof.
  intros Hc Hk h Hh. destruct (Hc h Hh) as [[a Ha] Hf]. unfold mstate, mresult in *. rewrite bind_run.
  destruct (c h) as [r s]. cbn [fst snd] in *. subst r. exact (Hk a s Hf).
Qed.
Lemma leaves_ret {A} (a : A) f : leaves (mret a) f f.
Proof. intros h Hh. split; [eexists; reflexivity|exact Hh]. Qed.
Lemma leaves_lift {A} (x : result A) a f : x = Ok a -> leaves (mlift x) f f.
Proof. intros -> h Hh. split; [eexists; reflexivity|exact Hh]. Qed.
Lemma leaves_note a f : leaves (note a) f f.
Proof. intros h Hh. split; [eexists; reflexivity|exact Hh]. Qed.
Lemma leaves_run check argv f : leaves (run E (SubprocessCommandRunner check) argv) f f.
Proof. intros h Hh. unfold mresult, mstate. rewrite run_works. split; [eexists; reflexivity|exact Hh]. Qed.
Lemma leaves_tolerant check argv f : leaves (run_tolerant E (SubprocessCommandRunner check) argv) f f.
Proof. intros h Hh. unfold mresult, mstate. rewrite tolerant_works. split; [eexists; reflexivity|exact Hh]. Qed.
Lemma leaves_mkdir p f : leaves (mkdir E p) f f.
Proof. intros h Hh. unfold mresult, mstate, mkdir. rewrite io_works. split; [eexists; reflexivity|exact Hh]. Qed.
Lemma leaves_write p t f : leaves (write_text E p t) f (dset p t f).
Proof. intros h <-. unfold mresult, mstate, write_text. rewrite io_works. split; [eexists; reflexivity|reflexivity]. Qed.
Lemma leaves_unlink p f : leaves (unlink E p) f (ddel p f).
Proof. intros h <-. unfold mresult, mstate, unlink. rewrite io_works. split; [eexists; reflexivity|reflexivity]. Qed.
(** A file's presence, known from the files. *)
Lemma leaves_look {B} p f f' (k : bool -> M host B) :
  leaves (k (bool_decide (dget p f <> None))) f f' -> leaves (mbind (mgets (exists_file p)) k) f f'.
Proof. intros H h Hh. unfold mstate, mresult. rewrite bind_run. cbn [mgets]. unfold exists_file. rewrite Hh. exact (H h Hh). Qed.
Lemma leaves_lift_bind {A B} (x : result A) a f f' (k : A -> M host B) :
  x = Ok a -> leaves (k a) f f' -> leaves (mbind (mlift x) k) f f'.
Proof. intros -> H. exact H. Qed.
End Works.

(** ** What each system's service leaves on the disk *)

Inductive service_system := MacOS | LinuxOS.

Section Artifacts.
Variable E : service_env.
Notation m := (sv_machine E).

Definition install_op (s : service_system) (scope : string) (user : option string) : service_op :=
  match s with MacOS => MacInstall scope | LinuxOS => LinuxInstall scope user end.
Definition uninstall_op (s : service_system) (scope : string) : service_op :=
  match s with MacOS => MacUninstall scope false | LinuxOS => LinuxUninstall scope false end.

(** The files an install writes, in order. *)
Definition texts (s : service_system) (scope : string) : list (path * string) :=
  match s with
  | MacOS => [(macos_plist_path E scope, render_launchd_plist E scope None)]
  | LinuxOS => (linux_unit_path E scope, render_systemd_unit E None scope) ::
               if is_system scope then [(LINUX_UDEV_RULE_PATH m, render_udev_rule)] else []
  end.

Definition service_path (s : service_system) (scope : string) : path :=
  match s with MacOS => macos_plist_path E scope | LinuxOS => linux_unit_path E scope end.

(** The files an uninstall removes, in order. *)
Definition artifacts (s : service_system) (scope : string) (socket : path) : list path :=
  [service_path s scope; socket] ++
  match s with
  | MacOS => [macos_log_path E scope]
  | LinuxOS => if is_system scope then [LINUX_UDEV_RULE_PATH m] else []
  end.

(** A user's install on Linux needs access to the boards. *)
Definition preflight (s : service_system) (scope : string) (user : option string) (files : list (path * string)) : Prop :=
  match s with
  | LinuxOS => is_user scope = true -> linux_user_in_plugdev E (resolve_linux_operating_user E user) = true /\
                                       dget (LINUX_UDEV_RULE_PATH m) files <> None
  | MacOS => True
  end.

Definition write_all (l : list (path * string)) (files : list (path * string)) : list (path * string) :=
  fold_left (fun f kv => dset kv.1 kv.2 f) l files.
Definition remove_all (l : list path) (files : list (path * string)) : list (path * string) :=
  fold_left (fun f p => ddel p f) l files.
End Artifacts.

Lemma write_all_others p l files : ~ In p (map fst l) -> dget p (write_all l files) = dget p files.
Proof.
  revert files. induction l as [|[q t] l IH]; intros files Hp; [reflexivity|]. cbn [write_all fold_left fst snd].
  change (dget p (write_all l (dset q t files)) = dget p files). cbn in Hp.
  rewrite IH by tauto. apply dget_dset_ne. intros ->. tauto.
Qed.

Lemma write_all_in p t l files : NoDup (map fst l) -> In (p, t) l -> dget p (write_all l files) = Some t.
Proof.
  revert files. induction l as [|[q u] l IH]; intros files Hd Hi; [destruct Hi|]. cbn [map fst] in Hd. inversion Hd as [|? ? Hn Hd']; subst.
  change (dget p (write_all l (dset q u files)) = Some t). destruct Hi as [[= <- <-]|Hi]; [|auto].
  rewrite write_all_others by (rewrite <- list_elem_of_In; exact Hn). apply dget_dset_eq.
Qed.

Lemma remove_all_others p l (files : list (path * string)) : ~ In p l -> dget p (remove_all l files) = dget p files.
Proof.
  revert files. induction l as [|q l IH]; intros files Hp; [reflexivity|].
  change (dget p (remove_all l (ddel q files)) = dget p files). cbn in Hp.
  rewrite IH by tauto. apply dget_ddel_ne. intros ->. tauto.
Qed.

Lemma remove_all_in p l (files : list (path * string)) : In p l -> dget p (remove_all l files) = None.
Proof.
  revert files. induction l as [|q l IH]; intros files Hi; [destruct Hi|].
  change (dget p (remove_all l (ddel q files)) = None).
  destruct (in_dec path_eq_dec p l) as [H|H]; [auto|]. destruct Hi as [->|Hi]; [|tauto].
  rewrite remove_all_others by exact H. apply dget_ddel_eq.
Qed.

Lemma scope_cases scope : validate_scope scope = Ok tt -> scope = "user" \/ scope = "system".
Proof.
  unfold validate_scope. case_bool_decide as H; [|discriminate]. intros _.
  apply list_elem_of_In in H. destruct H as [<-|[<-|[]]]; auto.
Qed.

Section Runs.
Variable E : service_env.
Hypothesis runs : forall l argv, sv_run E l argv = 0.
Hypothesis allowed : forall l a, sv_io E l a = true.
Notation m := (sv_machine E).

Ltac leaves_step :=
  lazymatch goal with
  | |- forall _, _ => intro
  | |- leaves (mret _) _ _ => apply leaves_ret
  | |- leaves (note _) _ _ => apply leaves_note
  | |- leaves (run _ _ _) _ _ => apply leaves_run; exact runs
  | |- leaves (run_tolerant _ _ _) _ _ => apply leaves_tolerant; exact runs
  | |- leaves (mkdir _ _) _ _ => apply leaves_mkdir; exact allowed
  | |- leaves (write_text _ _ _) _ _ => apply leaves_write; exact allowed
  | |- leaves (unlink _ _) _ _ => apply leaves_unlink; exact allowed
  | H : ?x = Ok _ |- leaves (mbind (mlift ?x) _) _ _ => apply (leaves_lift_bind _ _ _ _ _ H)
  | |- leaves (mbind (mlift (Ok _)) _) _ _ => apply (leaves_lift_bind _ _ _ _ _ eq_refl)
  | |- leaves (mbind (mgets (exists_file _)) _) _ _ => apply leaves_look
  | |- leaves (mbind _ _) _ _ => eapply leaves_bind
  end; cbv beta.

Lemma install_leaves s scope user files : validate_scope scope = Ok tt -> preflight E s scope user files ->
  leaves (service_exec E (install_op s scope user) false) files (write_all (texts E s scope) files).
Proof.
  intros Hs Hp. destruct s, (scope_cases scope Hs) as [-> | ->]; cbn [install_op service_exec preflight] in *;
    unfold macos_install, linux_install, linux_install_user, linux_install_system, unless;
    cbn [pick_runner default_runner negb andb is_user is_system String.eqb Ascii.eqb Bool.eqb]; cbv zeta.
  1-2,4: repeat leaves_step.
  destruct (Hp eq_refl) as [H1 H2]. repeat leaves_step. rewrite H1. rewrite bool_decide_eq_true_2 by exact H2.
  cbn [negb orb]. repeat leaves_step.
Qed.

Lemma uninstall_leaves s scope files socket : validate_scope scope = Ok tt -> socket_path_of E scope = Ok socket ->
  dget (service_path E s scope) files <> None ->
  leaves (service_exec E (uninstall_op s scope) false) files (remove_all (artifacts E s scope socket) files).
Proof.
  intros Hs Hk Hp. destruct s, (scope_cases scope Hs) as [-> | ->]; cbn [uninstall_op service_exec service_path] in *;
    unfold macos_uninstall, linux_uninstall, unless;
    cbn [pick_runner default_runner negb andb is_user is_system String.eqb Ascii.eqb Bool.eqb]; cbv zeta; 
    repeat leaves_step; rewrite bool_decide_eq_true_2 by exact Hp; cbn [negb]; repeat leaves_step.
Qed.

(** On Linux and macOS every path is known, and the two files a system's
    install writes on Linux are different ones. *)
Lemma texts_distinct s scope : mc_platform m <> Win32 -> NoDup (map fst (texts E s scope)).
Proof.
  intros Hw. destruct s; cbn [texts map fst]; [apply NoDup_singleton|].
  destruct (is_system scope) eqn:Hs; [|apply NoDup_singleton].
  apply String.eqb_eq in Hs. subst scope. apply NoDup_cons_2; [|apply NoDup_singleton].
  intros Hin. apply list_elem_of_singleton in Hin. revert Hin. cbn [fst]. unfold linux_unit_path, LINUX_SYSTEM_UNIT_PATH, LINUX_UDEV_RULE_PATH, path_of, Path, is_win32.
  rewrite bool_decide_eq_false_2 by exact Hw. vm_compute. discriminate.
Qed.

Lemma socket_known scope : mc_platform m <> Win32 -> exists socket, socket_path_of E scope = Ok socket.
Proof.
  intros Hw. unfold socket_path_of, system_socket_path, user_socket_path.
  destruct (is_system scope), (mc_platform m); try congruence; try (eexists; reflexivity);
    destruct (env_value m "XDG_RUNTIME_DIR"); try (eexists; reflexivity); destruct (mc_isdir m _); eexists; reflexivity.
Qed.
End Runs.

(** ** The theorems *)

(** C28: A dry run of any operation changes no file, logs nothing but what
    it would run, announces or refuses, and names exactly the commands the
    real run makes: all of them, with the same outcome, when the real run
    returns, and the first of them when it raises, whatever the commands
    answer and whichever file operations are allowed. *)
Theorem dry_run_faithful E o h :
  let dry := service_exec E o true in
  let real := service_exec E o false in
  same_files h (mstate dry h) /\
  (exists l, ho_log (mstate dry h) = ho_log h ++ l /\ forallb harmless l = true) /\
  exists announced ran,
    commands (ho_log (mstate dry h)) = commands (ho_log h) ++ announced /\
    commands (ho_log (mstate real h)) = commands (ho_log h) ++ ran /\
    ran `prefix_of` announced /\
    (mresult real h = Ok tt -> mresult dry h = Ok tt /\ ran = announced).
Proof.
  cbv zeta. split; [apply dry_exec_same|]. split.
  - destruct (dry_exec_emits E o h) as (l & H1 & H2). eauto.
  - destruct (exec_plans E o h) as (c & r & H1 & H2 & H3 & H4). exists c, r. auto.
Qed.

(** C29: On Linux and macOS, when commands succeed and file operations are
    allowed, an install (a user's one after its preflight) writes exactly
    its texts and nothing else, an install over it changes nothing more,
    and the uninstall after it removes exactly the service's artifacts:
    every other file is as it was before. *)
Theorem install_uninstall E s scope user h :
  (forall l argv, sv_run E l argv = 0) -> (forall l a, sv_io E l a = true) ->
  mc_platform (sv_machine E) <> Win32 -> validate_scope scope = Ok tt -> preflight E s scope user (ho_files h) ->
  exists socket, socket_path_of E scope = Ok socket /\
  let install := service_exec E (install_op s scope user) false in
  let h1 := mstate install h in
  let h2 := mstate (service_exec E (uninstall_op s scope) false) h1 in
  mresult install h = Ok tt /\
  (forall p t, In (p, t) (texts E s scope) -> dget p (ho_files h1) = Some t) /\
  (forall p, ~ In p (map fst (texts E s scope)) -> dget p (ho_files h1) = dget p (ho_files h)) /\
  (mresult install h1 = Ok tt /\ forall p, dget p (ho_files (mstate install h1)) = dget p (ho_files h1)) /\
  mresult (service_exec E (uninstall_op s scope) false) h1 = Ok tt /\
  (forall p, In p (artifacts E s scope socket) -> dget p (ho_files h2) = None) /\
  (forall p, ~ In p (artifacts E s scope socket) -> dget p (ho_files h2) = dget p (ho_files h)).
Proof.
  intros Hr Hi Hw Hs Hp. destruct (socket_known E scope Hw) as [socket Hk]. exists socket. split; [exact Hk|]. cbv zeta.
  pose proof (texts_distinct E s scope Hw) as Hd.
  pose proof (install_leaves E Hr Hi s scope user (ho_files h) Hs Hp h eq_refl) as [[[] H1] H2].
  set (h1 := mstate (service_exec E (install_op s scope user) false) h) in *.
  assert (Hin : forall p t, In (p, t) (texts E s scope) -> dget p (ho_files h1) = Some t)
    by (intros p t Ht; rewrite H2; apply write_all_in; auto).
  assert (Hout : forall p, ~ In p (map fst (texts E s scope)) -> dget p (ho_files h1) = dget p (ho_files h))
    by (intros p Ht; rewrite H2; apply write_all_others; exact Ht).
  assert (Hp1 : preflight E s scope user (ho_files h1)).
  { destruct s; [exact I|]. intros Hu. destruct (Hp Hu) as [Ha Hb]. split; [exact Ha|].
    destruct (in_dec path_eq_dec (LINUX_UDEV_RULE_PATH (sv_machine E)) (map fst (texts E LinuxOS scope))) as [Hx|Hx].
    - apply in_map_iff in Hx as ([p t] & Hpt & Hx). cbn [fst] in Hpt. subst p. rewrite (Hin _ _ Hx). discriminate.
    - rewrite (Hout _ Hx). exact Hb. }
  pose proof (install_leaves E Hr Hi s scope user (ho_files h1) Hs Hp1 h1 eq_refl) as [[[] H3] H4].
  assert (Hthere : dget (service_path E s scope) (ho_files h1) <> None).
  { destruct s; cbn [service_path]; (erewrite Hin; [discriminate|]); left; reflexivity. }
  pose proof (uninstall_leaves E Hr Hi s scope (ho_files h1) socket Hs Hk Hthere h1 eq_refl) as [[[] H5] H6].
  repeat split; auto.
  - intros p. rewrite H4. destruct (in_dec path_eq_dec p (map fst (texts E s scope))) as [Hx|Hx].
    + apply in_map_iff in Hx as ([q t] & Hq & Hx). cbn [fst] in Hq. subst q. rewrite (Hin _ _ Hx). apply write_all_in; auto.
    + apply write_all_others. exact Hx.
  - intros p Hx. rewrite H6. apply remove_all_in. exact Hx.
  - intros p Hx. rewrite H6, remove_all_others by exact Hx. apply Hout. intros Hy. apply Hx. clear - Hy.
    destruct s; cbn [texts map fst artifacts service_path app] in *; [destruct Hy as [<-|[]]; left; reflexivity|].
    destruct Hy as [<-|Hy]; [left; reflexivity|]. right. right. destruct (is_system scope); [|destruct Hy].
    destruct Hy as [<-|[]]. left. reflexivity.
Qed.

(** A user's install without access to the boards is refused before
    anything is written or run. *)
Lemma user_install_refused E user h r :
  linux_user_in_plugdev E (resolve_linux_operating_user E user) = false \/ dget (LINUX_UDEV_RULE_PATH (sv_machine E)) (ho_files h) = None ->
  let c := linux_install E "user" false r user in
  mresult c h = Err LinuxUserPreflightError /\ same_files h (mstate c h) /\
  commands (ho_log (mstate c h)) = commands (ho_log h).
Proof.
  intros H. cbv zeta. unfold linux_install, linux_install_user. cbn [validate_scope].
  unfold mstate, mresult. rewrite bind_run. unfold mlift. cbn [is_user String.eqb Ascii.eqb Bool.eqb].
  assert (Hv : validate_scope "user" = Ok tt) by reflexivity. rewrite Hv. cbn [is_user String.eqb Ascii.eqb Bool.eqb].
  rewrite bind_run. unfold mgets, exists_file.
  assert (Hg : negb (linux_user_in_plugdev E (resolve_linux_operating_user E user))
               || negb (bool_decide (dget (LINUX_UDEV_RULE_PATH (sv_machine E)) (ho_files h) <> None)) = true).
  { destruct H as [->|H]; [reflexivity|]. rewrite (bool_decide_eq_false_2 (dget _ _ <> None)) by (rewrite H; auto). apply orb_true_r. }
  rewrite Hg. cbn. split; [reflexivity|]. split; [split; reflexivity|]. rewrite commands_app. cbn. apply app_nil_r.
Qed.

(** ** Examples *)

Definition willing (m : machine) : service_env := mkServiceEnv (fun _ _ => 0) (fun _ _ => true) m
  "/usr/bin/python3" "ann" (fun _ => Some "ann") (Some ["ann"]).
Definition bare_host : host := mkHost [(Path Linux "/etc/hosts", "127.0.0.1 localhost")] [] [].

(** A dry run still says the user was added to the group. *)
Example dry_run_announces :
  ho_log (mstate (service_exec (willing a_user) (LinuxInstall "system" None) true) bare_host) =
    [WouldRun ["systemctl"; "daemon-reload"]; WouldRun ["systemctl"; "enable"; "--now"; "mbregistry.service"];
     WouldRun ["udevadm"; "control"; "--reload-rules"]; WouldRun ["udevadm"; "trigger"];
     WouldRun ["usermod"; "-aG"; "plugdev"; "ann"]; AnnouncedGroup "ann"].
Proof. by_eval. Qed.

Lemma install_uninstall_witness :
  let E := willing a_user in
  exists socket, socket_path_of E "system" = Ok socket /\
  let h1 := mstate (service_exec E (install_op LinuxOS "system" None) false) bare_host in
  let h2 := mstate (service_exec E (uninstall_op LinuxOS "system") false) h1 in
  dget (LINUX_UDEV_RULE_PATH a_user) (ho_files h1) = Some render_udev_rule /\
  dget (LINUX_UDEV_RULE_PATH a_user) (ho_files h2) = None /\
  dget (Path Linux "/etc/hosts") (ho_files h2) = Some "127.0.0.1 localhost".
Proof.
  destruct (install_uninstall (willing a_user) LinuxOS "system" None bare_host) as (socket & Hk & _ & H1 & _ & _ & _ & H2 & H3).
  1-4: first [reflexivity | discriminate].
  { intros H. discriminate H. }
  exists socket. split; [exact Hk|]. cbv zeta. split; [apply H1; right; left; reflexivity|].
  split; [apply H2; right; right; left; reflexivity|]. rewrite H3; [reflexivity|].
  injection Hk as <-. intros Hi. repeat (destruct Hi as [Hi|Hi]; [vm_compute in Hi; discriminate Hi|]). destruct Hi.
Defined.
