(* ===== verification/RegistryCli.v ===== *)
(** * [registry/cli.py]: [mbregistry]'s commands

    The commands that ask a running daemon ([list], [unlock], [rescan]),
    over any connection to one, and the commands about the service
    ([service install] and the rest), over the host Service models.  A
    command's outcome is its exit code and what it prints on standard
    output; what it tells on standard error is left out.  Parsers has the
    command lines. *)

From S2P Require Import Prelude Tables Trace Json Store Locks Peering Api Paths Service Client Render.
Local Open Scope py_scope.

Definition EXIT_LINUX_USER_PREFLIGHT : Z := 7.

(** ** Where the daemon is, and what it listens on *)

Inductive address := PipeName (name : string) | SocketPath (p : path).

Definition SOCKET_ENV_VAR : string := "MBREGISTRY_SOCKET".
(** A flag's or a variable's value as a condition. *)
Definition given (v : option string) : option string := match v with Some "" => None | v => v end.

Section Values.
Variable m : Paths.machine.

(** [flag_value or os.environ.get(env_var)]. *)
Definition flag_or_env (flag_value : option string) (env_var : string) : option string :=
  match given flag_value with Some v => Some v | None => env_value m env_var end.

(** On Windows the module's default socket path is [None], which [Path]
    refuses. *)
Definition resolve_socket_path (flag_value : option string) (env_var : string) : result path :=
  match flag_or_env flag_value env_var with
  | Some v => Ok (path_of m v)
  | None => if is_win32 (mc_platform m) then Err TypeError else default_socket_path m
  end.

Definition resolve_local_api_address (flag_value : option string) (env_var : string) : result address :=
  if is_win32 (mc_platform m) then
    Ok (PipeName match flag_or_env flag_value env_var with Some v => v | None => default_pipe_name end)
  else let! p := resolve_socket_path flag_value env_var in Ok (SocketPath p).

Definition find_local_api_address (exists_ : path -> bool) (flag_value : option string) (env_var : string) : result address :=
  if is_win32 (mc_platform m) then resolve_local_api_address flag_value env_var
  else match flag_or_env flag_value env_var with
       | Some v => Ok (SocketPath (path_of m v))
       | None => let! p := find_client_socket m exists_ in Ok (SocketPath p)
       end.

Definition resolve_path (flag_value : option string) (env_var : string) (default : path) : path :=
  match flag_or_env flag_value env_var with Some v => path_of m v | None => default end.

(** A flag given on the command line, 0 included, is not [None]. *)
Definition resolve_int (flag_value : option Z) (env_var : string) (default : Z) : result Z :=
  match flag_value with
  | Some v => Ok v
  | None => match env_value m env_var with Some v => int_of_str v | None => Ok default end
  end.

Definition resolve_token (flag_value : option string) (env_var : string) : option string :=
  flag_or_env flag_value env_var.
End Values.

(** [--peer HOST[:PORT]]. *)
Definition parse_peer_spec (default_port : Z) (spec : string) : result (string * Z) :=
  let '(host, sep, port_str) := Py.partition ":" spec in
  if String.eqb host "" then Err ValueError
  else if negb sep then Ok (host, default_port)
  else let! port := int_of_str port_str in Ok (host, port).

(** ** Asking a daemon *)

Inductive printed := Text (s : string) | Json (j : json).

Section Asking.
Context {S : Type} `{Transport S}.

(** [with RegistryClient(...) as client: m], and the exit codes of no
    daemon and of an answer that is an error. *)
Definition asking {A} (m : M S A) : M S (A + Z) :=
  mtry (a <-! (connect ;;! mfinally m tr_hangup) ;; mret (inl a)) (fun e =>
    match e with
    | RegistryUnavailable => Some (mret (inr EXIT_NO_DAEMON))
    | OpError code => Some (mret (inr (exit_code code)))
    | _ => None
    end).

Definition answered {A} (m : M S A) (k : A -> result (list printed)) : M S (Z * list printed) :=
  asked <-! asking m ;;
  match asked with
  | inr code => mret (code, [])
  | inl a => out <-! mlift (k a) ;; mret (EXIT_OK, out)
  end.

Definition is_unreachable_peer_row (device : fields) : bool :=
  negb (is_none "host" device) && negb (truthy (jget_or "peer_reachable" (JBool true) device)).

Definition shown (show_all : bool) (devices : list fields) : list fields :=
  if show_all then devices else List.filter (fun d => negb (is_unreachable_peer_row d)) devices.

Definition print_devices (json_ : bool) (sort_by : option string) (devices : list fields) : result (list printed) :=
  if json_ then let! j := render_json sort_by devices in Ok [Json (JObj j)]
  else let! t := render_table sort_by devices in Ok [Text t].

Definition cmd_list (show_all json_ : bool) (sort_by : option string) : M S (Z * list printed) :=
  answered list_ (fun devices =>
    let! devices := objects (JList devices) in print_devices json_ sort_by (shown show_all devices)).

(** A time in seconds as microseconds. *)
Definition us_of (v : json) : result (option Z) :=
  match v with
  | JNull => Ok None
  | JInt z => Ok (Some (z * 1000000))
  | JFloat (FFin n d) => Ok (Some (n * 1000000 / Z.pos d))
  | _ => Err TypeError
  end.

Definition released_line (uid : string) (now : Z) (released : option (json * json)) : result string :=
  match released with
  | None => Ok (uid +:+ ": not locked")%string
  | Some (JStr kind, JObj holder) =>
      let! label := text_of (jget "label" holder) in
      let! since := us_of (jget "since" holder) in
      Ok (uid +:+ ": released " +:+ kind +:+ " lock" +:+ format_lock_suffix label since now)%string
  | Some _ => Err TypeError
  end.

Definition cmd_unlock (uid : string) (now : Z) : M S (Z * list printed) :=
  answered (force_unlock uid) (fun released =>
    let! line := released_line uid now released in Ok [Text ("mbregistry: " +:+ line)%string]).

(** The rescan's answer as the renderers take it. *)
Definition names_of (l : list json) : result (list string) :=
  map_result (fun v => match v with JStr s => Ok s | _ => Err TypeError end) l.
Definition names_at (k : string) (d : fields) : result (list string) :=
  match jget k d with JList l => names_of l | _ => Err TypeError end.

Definition rescan_answer (resp : fields * list json * bool) : result rescan_response :=
  let '(removed, skipped, dry_run) := resp in
  let! devices := names_at "devices" removed in
  let! peers := names_at "peers" removed in
  let! skipped := names_of skipped in
  Ok (mkRescan devices peers skipped dry_run).

Definition cmd_rescan (dry_run json_ : bool) : M S (Z * list printed) :=
  answered
    (resp <-! rescan dry_run ;;
     devices <-! (if dry_run then mret None else l <-! list_ ;; mret (Some l)) ;;
     mret (resp, devices))
    (fun got =>
       let '(resp, devices) := got in
       let! resp := rescan_answer resp in
       let! devices := match devices with None => Ok None | Some l => let! l := objects (JList l) in Ok (Some l) end in
       if json_ then let! j := render_rescan_json None resp devices in Ok [Json (JObj j)]
       else match devices with
            | None => Ok [Text (render_rescan_summary resp)]
            | Some l => let! t := render_table None l in Ok [Text (render_rescan_summary resp); Text ""; Text t]
            end).
End Asking.

(** ** The service's commands *)

Section ServiceCommands.
Variable E : service_env.
Notation m := (sv_machine E).

(** Which system's functions are dispatched to; [None] elsewhere. *)
Inductive service_backend := Launchd | Systemd.
Definition backend : option service_backend :=
  match mc_platform m with Darwin => Some Launchd | Linux => Some Systemd | _ => None end.

Definition unsupported : M host Z := mret EXIT_ERROR.

(** The scope flags: at most one is given. *)
Inductive scope_flag := UserFlag | SystemFlag.
Definition service_scope (f : scope_flag) : string := match f with UserFlag => "user" | SystemFlag => "system" end.

Definition install (b : service_backend) (scope : string) (dry_run : bool) : M host path :=
  match b with
  | Launchd => macos_install E scope dry_run None
  | Systemd => linux_install E scope dry_run None None
  end.
Definition uninstall (b : service_backend) (scope : string) (purge dry_run : bool) : M host removal :=
  match b with
  | Launchd => macos_uninstall E scope purge dry_run None
  | Systemd => linux_uninstall E scope purge dry_run None
  end.
Definition status (b : service_backend) (scope : string) : M host ServiceStatus :=
  match b with Launchd => macos_status E scope None | Systemd => linux_status E scope None end.
Definition control (b : service_backend) (action scope : string) (dry_run : bool) : M host path :=
  match b with
  | Launchd => macos_control E action scope dry_run None
  | Systemd => linux_control E action scope dry_run None
  end.

Definition cmd_service_install (f : scope_flag) (dry_run : bool) : M host Z :=
  match backend with
  | None => unsupported
  | Some b =>
      mtry (install b (service_scope f) dry_run ;;! mret EXIT_OK)
        (fun e => match e with LinuxUserPreflightError => Some (mret EXIT_LINUX_USER_PREFLIGHT) | _ => None end)
  end.

Definition cmd_service_uninstall (f : scope_flag) (purge dry_run : bool) : M host Z :=
  match backend with
  | None => unsupported
  | Some b => uninstall b (service_scope f) purge dry_run ;;! mret EXIT_OK
  end.

(** A line of two padded columns and the path. *)
Definition status_line (s : ServiceStatus) : string :=
  (ljust 6 (ss_scope s) +:+ " " +:+ ljust 24 (describe s) +:+ " " +:+ path_str (ss_path s))%string.

Definition cmd_service_status : M host (Z * list printed) :=
  match backend with
  | None => code <-! unsupported ;; mret (code, [])
  | Some b =>
      user <-! status b "user" ;;
      system <-! status b "system" ;;
      mret (EXIT_OK, [Text (status_line user); Text (status_line system)])
  end.

Definition installed_service_scope (b : service_backend) (f : option scope_flag) : M host (option string) :=
  match f with
  | Some f => mret (Some (service_scope f))
  | None =>
      user <-! status b "user" ;;
      system <-! status b "system" ;;
      mret match ss_installed user, ss_installed system with
           | true, false => Some "user"
           | false, true => Some "system"
           | _, _ => None
           end
  end.

Definition cmd_service_control (action : string) (f : option scope_flag) (dry_run : bool) : M host Z :=
  match backend with
  | None => unsupported
  | Some b =>
      scope <-! installed_service_scope b f ;;
      match scope with
      | None => mret EXIT_ERROR
      | Some scope =>
          mtry (control b action scope dry_run ;;! mret EXIT_OK)
            (fun e => match e with FileNotFoundError | CalledProcessError => Some (mret EXIT_ERROR) | _ => None end)
      end
  end.

(** [install-service], on macOS and elsewhere but Windows: files are
    written, commands only told. *)
Definition cmd_install_service (user : option string) : M host Z :=
  (if is_darwin (mc_platform m) then macos_install E "system" false (Some DryRunCommandRunner)
   else linux_install E "system" false (Some DryRunCommandRunner) user) ;;! mret EXIT_OK.
End ServiceCommands.
