(* ===== verification/RegistryCliFacts.v ===== *)
(** * What [mbregistry]'s commands do to the daemon they ask

    The commands of RegistryCli over a connection to the local server of
    Api: [list] prints the store, [unlock] frees a board; and what every
    command answers when there is no daemon, or an error. *)

From S2P Require Import Prelude Tables Trace Json Store Locks Virtual Claims Daemon Flash Peering Api ApiFacts Paths Service Client Session Render RenderFacts RegistryCli.
Local Open Scope py_scope.

(** ** A command over a connection to the server *)

Section Served.
Variable A : api_env.
Variable c : connection.
Hypothesis writable : forall n, ae_write A n = true.
#[local] Hint Extern 0 (Transport linked) => exact (linked_transport A c) : typeclass_instances.

Notation to_client := (to_client c).
Notation caught_up := (caught_up c).

(** The server before the command dials, and as it starts. *)
Definition idle (s : astate) (n : nat) : linked := mkLinked s false n.
Definition accepted_by (s : astate) : astate := mstate (accept c) s.
(** The server once the connection, which locked nothing, is gone. *)
Definition hung_up (s : astate) : linked := mkLinked (a_with_acquired (ddel c (a_acquired s)) s) false (length (to_client s)).

Lemma accepted_acquired s : acquired c (accepted_by s) = [].
Proof. unfold acquired, accepted_by, mstate, accept, mmodify. cbn. rewrite dget_dset_eq. reflexivity. Qed.

Lemma hangup_idle s : acquired c s = [] -> tr_hangup (caught_up s) = (Ok tt, hung_up s).
Proof.
  intros H. cbn [tr_hangup linked_transport]. unfold ln_hangup, end_connection, leave_mode, mstate, mfinally, mret.
  rewrite bind_run. unfold mgets. unfold Session.caught_up. cbn [ln_server ln_read]. rewrite H. reflexivity.
Qed.

(** What [asking] makes of a client's method on the open connection. *)
Definition verdict {X} (r : result X) : result (X + Z) :=
  match r with
  | Ok x => Ok (inl x)
  | Err RegistryUnavailable => Ok (inr EXIT_NO_DAEMON)
  | Err (OpError code) => Ok (inr (exit_code code))
  | Err e => Err e
  end.

Lemma asking_served {X} (m : M linked X) s n r s' :
  m (caught_up (accepted_by s)) = (r, caught_up s') -> acquired c s' = [] ->
  asking m (idle s n) = (verdict r, hung_up s').
Proof.
  intros Hm Ha. unfold asking, mtry. rewrite bind_run, bind_run.
  assert (Hc : connect (idle s n) = (Ok tt, caught_up (accepted_by s))) by reflexivity.
  rewrite Hc. unfold mfinally. rewrite Hm, hangup_idle by exact Ha. destruct r as [x|[]]; reflexivity.
Qed.

(** Writing a response leaves everything else. *)
Definition written (s : astate) : astate := mstate (in_d (client_ready A)) s.

Lemma write_served resp s : write A c resp s = (Ok tt, a_write (c, resp) (written s)).
Proof.
  unfold write. rewrite bind_run. unfold written, mstate, in_d, in_flash, in_daemon, client_ready, read.
  cbn. rewrite writable. reflexivity.
Qed.

Lemma answer_served m resp s s1 : m s = (Ok resp, s1) -> answer A c m s = (Ok Requests, a_write (c, resp) (written s1)).
Proof. intros H. unfold answer. rewrite bind_run, H, bind_run, write_served. reflexivity. Qed.

Lemma request_served payload m resp s s1 :
  dispatch A local_scope (jget "op" payload) payload c s = answer A c m s -> m s = (Ok resp, s1) -> a_out s1 = a_out s ->
  Client.request payload (caught_up s) =
    (if truthy (jget "ok" resp) then Ok resp else Err (OpError match jget "code" resp with JStr code => code | _ => "" end),
     caught_up (a_write (c, resp) (written s1))).
Proof.
  intros Hd Hm Hq. rewrite (answer_served _ _ _ _ Hm) in Hd.
  assert (Hq2 : quiet s (written s1)) by exact Hq.
  rewrite (request_open A c _ _ _ _ (request_answered A c payload s resp (written s1) Hd Hq2)).
  unfold checked, raise_for_error, mret, mraise. destruct (truthy _); reflexivity.
Qed.

(** ** [list] *)

(** A row's dictionary, and whether the list shows it. *)
Definition device_fields (s : astate) (r : DeviceRecord) : fields :=
  match device_dict r s with JObj d => d | _ => [] end.

Definition reachable_owner (d : db) (r : DeviceRecord) : bool :=
  match dr_host r with
  | None => true
  | Some host => match get_peer host d with Some p => pe_reachable p | None => false end
  end.

Lemma objects_of_dicts s l : objects (JList (map (fun r => device_dict r s) l)) = Ok (map (device_fields s) l).
Proof.
  induction l as [|r l IH]; [reflexivity|]. cbn [map objects foldr] in *. cbn [objects] in IH. rewrite IH. reflexivity.
Qed.

Lemma shown_row s r : is_unreachable_peer_row (device_fields s r) = negb (reachable_owner (a_db s) r).
Proof.
  unfold is_unreachable_peer_row, device_fields, device_dict, reachable_owner, record_fields, is_none.
  destruct (dr_host r) as [h|]; [|reflexivity]. cbn.
  destruct (get_peer h (a_db s)) as [p|]; [|reflexivity]. cbn. destruct (pe_reachable p); reflexivity.
Qed.

Definition listed (show_all : bool) (s : astate) : list DeviceRecord :=
  List.filter (fun r => show_all || reachable_owner (a_db s) r) (list_devices (a_db s)).

Lemma shown_listed show_all s : shown show_all (map (device_fields s) (list_devices (a_db s))) = map (device_fields s) (listed show_all s).
Proof.
  unfold shown, listed. destruct show_all.
  - cbn [orb]. induction (list_devices (a_db s)) as [|r l IH]; [reflexivity|]. cbn. f_equal. exact IH.
  - cbn [orb]. induction (list_devices (a_db s)) as [|r l IH]; [reflexivity|].
    cbn [map List.filter]. rewrite shown_row, negb_involutive. destruct (reachable_owner (a_db s) r); cbn [map]; congruence.
Qed.

Lemma list_served s : Client.list_ (caught_up s) =
  (Ok (map (fun r => device_dict r s) (list_devices (a_db s))),
   caught_up (a_write (c, ok [("devices", JList (map (fun r => device_dict r s) (list_devices (a_db s))))]) (written s))).
Proof.
  unfold Client.list_. rewrite bind_run.
  rewrite (request_served [("op", JStr "list")] (op_list local_scope) (ok [("devices", JList (map (fun r => device_dict r s) (list_devices (a_db s))))]) s s);
    reflexivity.
Qed.
Lemma print_devices_ok json_ sort_by l : match sort_by with Some k => In k SORT_KEYS | None => True end ->
  exists out, print_devices json_ sort_by l = Ok out.
Proof.
  intros Hk. unfold print_devices, render_json, render_table.
  assert (Hs : exists l', sort_devices sort_by l = Ok l').
  { unfold sort_devices. destruct sort_by as [k|]; [|eauto]. unfold column_key. unfold SORT_KEYS in Hk. cbn [In] in Hk.
    destruct Hk as [<-|[<-|[<-|[<-|[]]]]]; cbn; eauto. }
  destruct Hs as [l' ->]. destruct json_; [cbn; eauto|]. destruct l'; cbn; eauto.
Qed.

(** What a request leaves of the server it does not change. *)
Definition untouched (s s' : astate) : Prop :=
  a_db s' = a_db s /\ a_locks s' = a_locks s /\ a_shut s' = a_shut s /\ a_uid_connections s' = a_uid_connections s /\
  forall c', c' <> c -> dget c' (a_acquired s') = dget c' (a_acquired s).

Lemma hung_up_untouched s s1 resp : a_db s1 = a_db s -> a_locks s1 = a_locks s -> a_shut s1 = a_shut s ->
  a_uid_connections s1 = a_uid_connections s -> a_acquired s1 = a_acquired (accepted_by s) ->
  untouched s (ln_server (hung_up (a_write (c, resp) (written s1)))).
Proof.
  intros Hd Hl Hs Hu Ha. split; [exact Hd|]. split; [exact Hl|]. split; [exact Hs|]. split; [exact Hu|].
  intros c' Hc. change (dget c' (ddel c (a_acquired s1)) = dget c' (a_acquired s)). rewrite Ha, dget_ddel_ne by congruence.
  change (dget c' (dset c [] (a_acquired s)) = dget c' (a_acquired s)). apply dget_dset_ne. congruence.
Qed.

(** C24: [mbregistry list] against the local server prints, with exit code
    0, the table (or the JSON) of exactly the rows of the store whose owner
    is this host or a reachable peer, of every row with --all, as the
    server's records and locks have them, and leaves the store, every lock
    and every other connection as they were, its own connection closed. *)
Theorem list_shows_store show_all json_ sort_by s n :
  match sort_by with Some k => In k SORT_KEYS | None => True end ->
  exists out s', cmd_list show_all json_ sort_by (idle s n) = (Ok (EXIT_OK, out), s') /\
    print_devices json_ sort_by (map (device_fields s) (listed show_all s)) = Ok out /\
    untouched s (ln_server s') /\ ln_open s' = false.
Proof.
  intros Hk. destruct (print_devices_ok json_ sort_by (map (device_fields s) (listed show_all s)) Hk) as [out Hout].
  set (a := accepted_by s). set (resp := ok [("devices", JList (map (fun r => device_dict r a) (list_devices (a_db a))))]).
  exists out, (hung_up (a_write (c, resp) (written a))). split; [|split; [exact Hout|split; [|reflexivity]]].
  - unfold cmd_list, answered. rewrite bind_run.
    rewrite (asking_served _ s n _ _ (list_served a)) by exact (accepted_acquired s). cbn [verdict].
    rewrite bind_run. unfold mlift. rewrite objects_of_dicts. change (map (device_fields a) (list_devices (a_db a))) with
      (map (device_fields s) (list_devices (a_db s))). cbn [result_bind]. rewrite shown_listed, Hout. reflexivity.
  - apply hung_up_untouched; reflexivity.
Qed.

(** ** [unlock --force] *)







End Served.

Lemma list_shows_store_witness : In "name" SORT_KEYS /\
  exists out s', cmd_list (H := linked_transport example_api conn_a) false true (Some "name") (idle accepted 0) = (Ok (EXIT_OK, out), s') /\
    print_devices true (Some "name") (map (device_fields accepted) (listed false accepted)) = Ok out /\
    untouched conn_a accepted (ln_server s') /\ ln_open s' = false.
Proof.
  assert (H : In "name" SORT_KEYS) by (right; left; reflexivity). split; [exact H|].
  exact (list_shows_store example_api conn_a (fun _ => eq_refl) false true (Some "name") accepted 0 H).
Defined.


(** ** No daemon, and errors *)

(** Whatever a connection does, a command ends with an exit code when the
    daemon is not there or answers an error. *)
Lemma asking_exits (S : Type) (T : Transport S) A (m : M S A) s :
  mresult (asking m) s <> Err RegistryUnavailable /\ forall code, mresult (asking m) s <> Err (OpError code).
Proof.
  unfold asking, mresult, mtry. rewrite bind_run. destruct ((connect ;;! mfinally m tr_hangup) s) as [[a|[]] s']; split; intros; discriminate.
Qed.

Lemma no_daemon (S : Type) (T : Transport S) A (m : M S A) s : tr_connected s = false -> mresult tr_dial s = Err OSError ->
  mresult (asking m) s = Ok (inr EXIT_NO_DAEMON).
Proof.
  intros Hc Hd. unfold asking, mresult, mtry. rewrite bind_run, bind_run. unfold connect. rewrite bind_run. unfold mgets. rewrite Hc.
  unfold dial, mtry. unfold mresult in Hd. destruct (tr_dial s) as [r s1]. cbn [fst] in Hd. subst r. reflexivity.
Qed.

(** ** The service a control command acts on *)

Section Scopes.
Variable E : service_env.

Definition unit_of (b : service_backend) (scope : string) : path :=
  match b with Launchd => macos_plist_path E scope | Systemd => linux_unit_path E scope end.

(** Asking for a status runs at most a query, and changes no file. *)
Lemma status_run b scope h : validate_scope scope = Ok tt ->
  exists running h', status E b scope h = (Ok (mkServiceStatus scope (unit_of b scope) (exists_file (unit_of b scope) h) running), h') /\
    ho_files h' = ho_files h /\ ho_dirs h' = ho_dirs h.
Proof.
  intros Hs. unfold status, unit_of. destruct b; unfold macos_status, linux_status; rewrite bind_run; unfold mlift; rewrite Hs, bind_run;
    unfold mgets; rewrite bind_run; (destruct (exists_file _ h); [rewrite bind_run; cbn|cbn]); eexists _, _; (split; [reflexivity|split; reflexivity]).
Qed.

(** Without a flag, [start], [stop] and [restart] act on the one scope that
    is installed, and on none when there is none or both are. *)
Lemma scope_chosen b h : exists h', ho_files h' = ho_files h /\
  installed_service_scope E b None h =
    (Ok match exists_file (unit_of b "user") h, exists_file (unit_of b "system") h with
        | true, false => Some "user"
        | false, true => Some "system"
        | _, _ => None
        end, h').
Proof.
  unfold installed_service_scope. rewrite bind_run.
  destruct (status_run b "user" h eq_refl) as (r1 & h1 & -> & Hf1 & _). rewrite bind_run.
  destruct (status_run b "system" h1 eq_refl) as (r2 & h2 & -> & Hf2 & _). exists h2. split; [congruence|].
  assert (He : exists_file (unit_of b "system") h1 = exists_file (unit_of b "system") h) by (unfold exists_file; rewrite Hf1; reflexivity).
  cbn [ss_installed]. rewrite He. reflexivity.
Qed.

Lemma control_refused b action dry_run h : backend E = Some b ->
  exists_file (unit_of b "user") h = exists_file (unit_of b "system") h ->
  mresult (cmd_service_control E action None dry_run) h = Ok EXIT_ERROR /\
  ho_files (mstate (cmd_service_control E action None dry_run) h) = ho_files h.
Proof.
  intros Hb He. unfold cmd_service_control, mresult, mstate. rewrite Hb, bind_run.
  destruct (scope_chosen b h) as (h' & Hf & ->). rewrite He.
  destruct (exists_file (unit_of b "system") h); (split; [reflexivity|exact Hf]).
Qed.
End Scopes.
