(* ===== verification/RegistryRun.v ===== *)
(** * [mbregistry run]: the daemon's parts, put together

    [registry/cli.py]'s other half: the callbacks that publish a change to
    the watchers of this host and to its peers, and the run from the flags
    to the last [stop], as the trace of what it starts, says and stops.
    What each part does is its own file's; here a start or a stop returns
    or raises as the environment says. *)

From S2P Require Import Prelude Tables Trace Json Store StoreNames Virtual EventBus Peering Discovery Paths Client RegistryCli.
Local Open Scope py_scope.

Definition DEFAULT_POOL_PORT : Z := 7444.
Definition DEFAULT_NAMES_API_PORT : Z := 7445.

(** ** Publishing a change *)

(** The bus the watchers subscribe to, and the peering's PUB socket. *)
Record fan := mkFan { fn_bus : bus; fn_pub : pub }.

Definition on_bus {A} (m : M bus A) : M fan A := fun s => let (r, b) := m (fn_bus s) in (r, mkFan b (fn_pub s)).
Definition on_pub {A} (m : M pub A) : M fan A := fun s => let (r, p) := m (fn_pub s) in (r, mkFan (fn_bus s) p).

Section Callbacks.
Variable host_name : string.
Variable peering : bool.                     (* is there a [PeerDiscovery] *)

(** [{"type": event_type, "host": host_name, **payload}]. *)
Definition bus_event (event_type : string) (payload : fields) : json :=
  JObj (fold_left (fun d kv => dset kv.1 kv.2 d) payload [("type", JStr event_type); ("host", JStr host_name)]).

Definition to_peers (m : M pub unit) : M fan unit := if peering then on_pub m else mret tt.

Definition event_callback (event_type : string) (record : DeviceRecord) : M fan unit :=
  match daemon_event_payload event_type record with
  | Some payload => on_bus (publish (bus_event event_type payload))
  | None => mret tt
  end ;;!
  to_peers (publish_daemon_event host_name event_type record).

Definition lock_display_callback (uid : string) (kind display label : option string) (since : option Z) (now : Z) : M fan unit :=
  on_bus (publish (bus_event EVENT_LOCK_STATE (lock_event_payload uid kind display label since))) ;;!
  to_peers (publish_lock_event host_name uid kind display label since now).

Definition name_set_callback (entry : Entry) : M fan unit :=
  on_bus (publish (bus_event EVENT_NAME_SET (name_set_payload entry))) ;;!
  to_peers (publish_name_set host_name entry).

Definition name_clear_callback (name : string) : M fan unit :=
  on_bus (publish (bus_event EVENT_NAME_CLEAR (name_clear_payload name))) ;;!
  to_peers (publish_name_clear host_name name).

(** The two callbacks the names HTTP API is given instead. *)
Definition names_api_set_callback (entry : Entry) : M fan unit := to_peers (publish_name_set host_name entry).
Definition names_api_clear_callback (name : string) : M fan unit := to_peers (publish_name_clear host_name name).
End Callbacks.

(** [peering_host if peering_host is not None else _short_hostname()]. *)
Definition instance_name (instance : option string) (gethostname : string) : string :=
  match instance with Some h => h | None => short_hostname gethostname end.

(** ** [--exit-with-parent] *)

Inductive stdin_read := StdinLine (line : string) | StdinRaises (e : py_exc).

(** Does the watcher set the stop event within these reads: at the end of
    the input, or at any exception. *)
Fixpoint watch_stdin_for_parent_exit (reads : list stdin_read) : bool :=
  match reads with
  | [] => false
  | StdinLine "" :: _ => true
  | StdinLine _ :: reads' => watch_stdin_for_parent_exit reads'
  | StdinRaises _ :: _ => true
  end.

(** ** The run *)

Record run_args := mkRunArgs {
  ra_socket : option string;
  ra_db : option string;
  ra_remote_port : option Z;
  ra_peer_pub_port : option Z;
  ra_peer_snapshot_port : option Z;
  ra_auth_token : option string;
  ra_pool_port : option Z;
  ra_names_port : option Z;
  ra_instance : option string;
  ra_pipe : option string;
  ra_peer : list string;
  ra_exit_with_parent : bool;
  ra_no_peering : bool;
  ra_no_relay_pool : bool;
  ra_ready_json : bool }.

(** The parts with a start and a stop. *)
Inductive part := LocalApi | Remote | Peers | NamesHttp | Pool.

#[export] Instance part_eq_dec : EqDecision part.
Proof. solve_decision. Defined.

Inductive local_server := PipeServer (name : string) | SocketServer (p : path).

(** What the parts are made with. *)
Record settings := mkSettings {
  st_local : local_server;
  st_db : path;
  st_remote_port : Z;
  st_peer_pub_port : Z;
  st_peer_snapshot_port : Z;
  st_auth_token : option string;
  st_pool_port : Z;
  st_names_port : Z;
  st_instance : option string }.

Inductive run_act :=
| WatchedStdin
| OpenedStore (db : path)
| Assembled (cfg : settings)
| Started (p : part)
| SetRemotePort (port : Z)
| Connected (host : string) (pub_port snapshot_port remote_port : Z)
| Ready (payload : json)
| Polled
| Stopped (p : part)
| ClosedStore.

Record run_env := mkRunEnv {
  rn_machine : Paths.machine;
  rn_gethostname : string;
  rn_version : string;
  rn_open : result unit;                            (* [Store(db_path)] *)
  rn_assemble : result unit;                        (* the constructors *)
  rn_start : part -> result unit;
  rn_bound : part -> Z;                             (* the port a started part is bound to *)
  rn_connect : string -> result unit;               (* [connect_peer] *)
  rn_poll : result unit;                            (* [daemon.run], until the stop event *)
  rn_stop : part -> result unit;
  rn_close : result unit }.

Section Run.
Variable E : run_env.
Notation m := (rn_machine E).

(** Something that logs [a] when it returns. *)
Definition step (r : result unit) (a : run_act) : M (list run_act) unit := mlift r ;;! mmodify (fun l => l ++ [a]).
Definition when (b : bool) (c : M (list run_act) unit) : M (list run_act) unit := if b then c else mret tt.

Definition start_part (p : part) : M (list run_act) unit := step (rn_start E p) (Started p).
Definition stop_part (p : part) : M (list run_act) unit := step (rn_stop E p) (Stopped p).

(** [assemble_daemon_and_api]'s choice of the local server: a pipe of its
    own name, else of the socket address. *)
Definition local_server_of (pipe : option string) (a : address) : local_server :=
  match a with
  | PipeName name => PipeServer match pipe with Some n => n | None => name end
  | SocketPath p =>
      if is_win32 (mc_platform m) then PipeServer match pipe with Some n => n | None => path_str p end
      else SocketServer p
  end.

Definition str_address (a : address) : string := match a with PipeName n => n | SocketPath p => path_str p end.

Definition resolve_settings (a : run_args) (addr : address) : result settings :=
  let db := resolve_path m (ra_db a) "MBREGISTRY_DB" (default_db_path m) in
  let! remote_port := resolve_int m (ra_remote_port a) "MBREGISTRY_REMOTE_PORT" DEFAULT_REMOTE_PORT in
  let! peer_pub_port := resolve_int m (ra_peer_pub_port a) "MBREGISTRY_PEER_PUB_PORT" DEFAULT_PUB_PORT in
  let! peer_snapshot_port := resolve_int m (ra_peer_snapshot_port a) "MBREGISTRY_PEER_SNAPSHOT_PORT" DEFAULT_SNAPSHOT_PORT in
  let auth_token := resolve_token m (ra_auth_token a) "MBREGISTRY_TOKEN" in
  let! pool_port := resolve_int m (ra_pool_port a) "MBREGISTRY_POOL_PORT" DEFAULT_POOL_PORT in
  let! names_port := resolve_int m (ra_names_port a) "MBREGISTRY_NAMES_PORT" DEFAULT_NAMES_API_PORT in
  let instance := resolve_token m (ra_instance a) "MBREGISTRY_INSTANCE" in
  Ok (mkSettings (local_server_of (ra_pipe a) addr) db remote_port peer_pub_port peer_snapshot_port auth_token
        pool_port names_port instance).

(** [--ready-json]: the ports of what was started. *)
Definition ready_ports (a : run_args) (cfg : settings) : fields :=
  [("remote", JInt (rn_bound E Remote))] ++
  (if ra_no_peering a then [] else [("peer_pub", JInt (st_peer_pub_port cfg)); ("peer_snapshot", JInt (st_peer_snapshot_port cfg))]) ++
  (if ra_no_relay_pool a then [] else [("pool", JInt (rn_bound E Pool))]) ++
  [("names", JInt (rn_bound E NamesHttp))].

Definition ready_payload (a : run_args) (cfg : settings) (addr : address) : json :=
  JObj [("ready", JBool true); ("instance", JStr (instance_name (st_instance cfg) (rn_gethostname E)));
        ("version", JStr (rn_version E)); ("socket", JStr (str_address addr)); ("ports", JObj (ready_ports a cfg))].

Definition start_parts (a : run_args) : M (list run_act) unit :=
  start_part LocalApi ;;!
  start_part Remote ;;!
  when (negb (ra_no_peering a)) (step (Ok tt) (SetRemotePort (rn_bound E Remote)) ;;! start_part Peers) ;;!
  start_part NamesHttp ;;!
  when (negb (ra_no_relay_pool a)) (start_part Pool).

Definition connect_peers (a : run_args) (cfg : settings) (specs : list (string * Z)) : M (list run_act) unit :=
  when (negb (ra_no_peering a)) (mfor specs (fun spec =>
    step (rn_connect E spec.1) (Connected spec.1 (st_peer_pub_port cfg) (st_peer_snapshot_port cfg) spec.2))).

Definition stop_parts (a : run_args) : M (list run_act) unit :=
  stop_part NamesHttp ;;!
  when (negb (ra_no_relay_pool a)) (stop_part Pool) ;;!
  when (negb (ra_no_peering a)) (stop_part Peers) ;;!
  stop_part Remote ;;!
  stop_part LocalApi ;;!
  step (rn_close E) ClosedStore.

(** Up to the line that says the daemon is ready. *)
Definition bring_up (a : run_args) (cfg : settings) (addr : address) (specs : list (string * Z)) : M (list run_act) unit :=
  when (ra_exit_with_parent a) (step (Ok tt) WatchedStdin) ;;!
  step (rn_open E) (OpenedStore (st_db cfg)) ;;!
  step (rn_assemble E) (Assembled cfg) ;;!
  start_parts a ;;!
  connect_peers a cfg specs ;;!
  when (ra_ready_json a) (step (Ok tt) (Ready (ready_payload a cfg addr))).

Definition run_registry (a : run_args) : M (list run_act) Z :=
  addr <-! mlift (resolve_local_api_address m (ra_socket a) SOCKET_ENV_VAR) ;;
  cfg <-! mlift (resolve_settings a addr) ;;
  match map_result (parse_peer_spec DEFAULT_REMOTE_PORT) (ra_peer a) with
  | Err _ => mret EXIT_ERROR
  | Ok specs =>
      bring_up a cfg addr specs ;;!
      mfinally (step (Ok tt) Polled ;;! mlift (rn_poll E)) (stop_parts a) ;;!
      mret EXIT_OK
  end.
End Run.
