(* ===== verification/RegistryRunFacts.v ===== *)
(** * What a run of the daemon starts, says and stops

    Every change reaches this host's watchers and its peers as the same
    event; a run's trace is the beginning of one plan, whatever raises, and
    all of it once the daemon polled, so that everything is stopped before
    the store is closed. *)

From S2P Require Import Prelude Tables Trace Json Store StoreNames Virtual Locks EventBus Peering Discovery Paths Client RegistryCli RegistryRun.
Local Open Scope py_scope.

(** ** The same event on the bus and to the peers *)

(** A change, as its callback is called with it. *)
Inductive change :=
| DeviceChange (event_type : string) (record : DeviceRecord)
| LockChange (uid : string) (kind display label : option string) (since : option Z) (now : Z)
| NameSet (entry : Entry)                   (* by an operation of the local socket *)
| NameCleared (name : string)
| HttpNameSet (entry : Entry)               (* by the names HTTP API *)
| HttpNameCleared (name : string).

Section Fanout.
Variable host_name : string.

Definition call_back (peering : bool) (c : change) : M fan unit :=
  match c with
  | DeviceChange t r => event_callback host_name peering t r
  | LockChange uid kind display label since now => lock_display_callback host_name peering uid kind display label since now
  | NameSet e => name_set_callback host_name peering e
  | NameCleared n => name_clear_callback host_name peering n
  | HttpNameSet e => names_api_set_callback host_name peering e
  | HttpNameCleared n => names_api_clear_callback host_name peering n
  end.

(** A name written over HTTP is published to the peers only. *)
Definition told_here (c : change) : bool :=
  match c with HttpNameSet _ | HttpNameCleared _ => false | _ => true end.

(** A registered board is this host's affair. *)
Definition stays_here (c : change) : bool :=
  match c with
  | DeviceChange _ r => is_virtual r
  | LockChange uid _ _ _ _ _ => is_virtual_uid uid
  | _ => false
  end.

(** The event of a change, none for a board that is already gone. *)
Definition event_of_change (c : change) : list fields :=
  let event t payload := [[("type", JStr t); ("host", JStr host_name)] ++ payload] in
  match c with
  | DeviceChange t r => match daemon_event_payload t r with Some p => event t p | None => [] end
  | LockChange uid kind display label since _ => event EVENT_LOCK_STATE (lock_event_payload uid kind display label since)
  | NameSet e | HttpNameSet e => event EVENT_NAME_SET (name_set_payload e)
  | NameCleared n | HttpNameCleared n => event EVENT_NAME_CLEAR (name_clear_payload n)
  end.

(** What a peer is sent: a lock's holder is shown with its age. *)
Definition for_peers (c : change) (event : fields) : fields :=
  match c with
  | LockChange _ _ (Some display) label since now =>
      dset "display" (JStr (display +:+ format_lock_suffix label since now)%string) event
  | _ => event
  end.

Lemma merge_disjoint (a payload : fields) : NoDup (map fst (a ++ payload)) -> fold_left (fun d kv => dset kv.1 kv.2 d) payload a = a ++ payload.
Proof.
  revert a. induction payload as [|[k v] p IH]; intros a Hn; [rewrite app_nil_r; reflexivity|]. cbn [fold_left fst snd].
  assert (Hk : dget k a = None).
  { apply dget_none. intros Hi. rewrite map_app in Hn. apply NoDup_app in Hn as (_ & Hd & _).
    apply (Hd k); [apply list_elem_of_In; exact Hi|]. left. }
  assert (Hs : dset k v a = a ++ [(k, v)]).
  { unfold dset. unfold dget in Hk. destruct (tfind fst k a); [discriminate|]. reflexivity. }
  rewrite Hs, IH; rewrite <- app_assoc; [reflexivity|exact Hn].
Qed.

Definition payload_of (c : change) : option (string * fields) :=
  match c with
  | DeviceChange t r => option_map (pair t) (daemon_event_payload t r)
  | LockChange uid kind display label since _ => Some (EVENT_LOCK_STATE, lock_event_payload uid kind display label since)
  | NameSet e | HttpNameSet e => Some (EVENT_NAME_SET, name_set_payload e)
  | NameCleared n | HttpNameCleared n => Some (EVENT_NAME_CLEAR, name_clear_payload n)
  end.
Lemma payload_keys c t p : payload_of c = Some (t, p) -> NoDup (map fst ([("type", JStr t); ("host", JStr host_name)] ++ p)).
Proof.
  destruct c as [t' r|uid kind display label since now|e|n|e|n]; cbn [payload_of].
  2-6: intros [= <- <-]; apply (bool_decide_unpack _); vm_compute; exact I.
  unfold daemon_event_payload. destruct (_ && _); [discriminate|]. cbn [option_map].
  destruct (String.eqb t' EVENT_ATTACH); [|destruct (String.eqb t' EVENT_DETACH)]; intros [= <- <-];
    (destruct (is_virtual r); apply (bool_decide_unpack _); vm_compute; exact I).
Qed.

Lemma event_of_payload c : event_of_change c = match payload_of c with
  | Some (t, p) => [[("type", JStr t); ("host", JStr host_name)] ++ p] | None => [] end.
Proof. destruct c as [t r| | | | |]; try reflexivity. cbn. destruct (daemon_event_payload t r); reflexivity. Qed.

(** The bus's half and the peers' half of a callback. *)
Definition bus_half (c : change) : M bus unit :=
  if told_here c then match payload_of c with Some (t, p) => publish (bus_event host_name t p) | None => mret tt end
  else mret tt.
Definition pub_half (c : change) : M pub unit :=
  match c with
  | DeviceChange t r => publish_daemon_event host_name t r
  | LockChange uid kind display label since now => publish_lock_event host_name uid kind display label since now
  | NameSet e | HttpNameSet e => publish_name_set host_name e
  | NameCleared n | HttpNameCleared n => publish_name_clear host_name n
  end.

Lemma publish_returns e b : mresult (publish e) b = Ok tt.
Proof.
  unfold mresult, publish. rewrite bind_run. unfold mgets. generalize (bus_subscribers b). intros l. revert b.
  induction l as [|q l IH]; intros b; [reflexivity|]. cbn [mfor]. rewrite bind_run. apply IH.
Qed.

Lemma bus_half_returns c b : mresult (bus_half c) b = Ok tt.
Proof. unfold bus_half. destruct (told_here c); [|reflexivity]. destruct (payload_of c) as [[t p]|]; [apply publish_returns|reflexivity]. Qed.

Lemma call_back_halves peering c s : call_back peering c s =
  (Ok tt, mkFan (mstate (bus_half c) (fn_bus s)) (if peering then mstate (pub_half c) (fn_pub s) else fn_pub s)).
Proof.
  assert (Hb : on_bus (bus_half c) s = (Ok tt, mkFan (mstate (bus_half c) (fn_bus s)) (fn_pub s))).
  { unfold on_bus. pose proof (bus_half_returns c (fn_bus s)) as H. unfold mresult, mstate in *.
    destruct (bus_half c (fn_bus s)) as [r b]. cbn in *. subst r. reflexivity. }
  assert (Hc : call_back peering c s = mbind (on_bus (bus_half c)) (fun _ => to_peers peering (pub_half c)) s).
  { destruct c as [t r| | | |e|n]; try reflexivity; try (destruct s; reflexivity).
    cbn [call_back]. unfold event_callback, bus_half. cbn [told_here payload_of pub_half].
    destruct (daemon_event_payload t r), s; reflexivity. }
  rewrite Hc, bind_run, Hb. unfold to_peers. destruct peering; [|reflexivity]. unfold on_pub, mstate. cbn [fn_bus fn_pub].
  assert (Hp : mresult (pub_half c) (fn_pub s) = Ok tt).
  { destruct c as [t r|uid kind display label since now|e|n|e|n]; cbn [pub_half]; [| |reflexivity..].
    - unfold publish_daemon_event. destruct (is_virtual r); [reflexivity|]. destruct (daemon_event_payload t r); reflexivity.
    - unfold publish_lock_event. destruct (is_virtual_uid uid); reflexivity. }
  unfold mresult in Hp. destruct (pub_half c (fn_pub s)) as [r b]. cbn in *. subst r. reflexivity.
Qed.

Lemma sent_to_peers c sent : mstate (pub_half c) (Some sent) =
  Some (sent ++ if stays_here c then [] else map (fun e => JObj (for_peers c e)) (event_of_change c)).
Proof.
  rewrite event_of_payload. destruct c as [t r|uid kind display label since now|e|n|e|n]; cbn [pub_half stays_here for_peers].
  - unfold publish_daemon_event. destruct (is_virtual r); [rewrite app_nil_r; reflexivity|].
    pose proof (payload_keys (DeviceChange t r)) as Hk. cbn [payload_of] in *.
    destruct (daemon_event_payload t r) as [p|]; [|cbn; rewrite app_nil_r; reflexivity].
    unfold publish_event, mstate, mmodify. cbn [snd option_map map for_peers]. rewrite merge_disjoint by exact (Hk t p eq_refl). reflexivity.
  - unfold publish_lock_event. destruct (is_virtual_uid uid); [rewrite app_nil_r; reflexivity|].
    unfold publish_event, mstate, mmodify. cbn [snd option_map map].
    rewrite merge_disjoint by exact (payload_keys (LockChange uid kind _ label since now) _ _ eq_refl). destruct display; reflexivity.
  - unfold publish_name_set, publish_event, mstate, mmodify. cbn [snd option_map map].
    rewrite merge_disjoint by exact (payload_keys (NameSet e) _ _ eq_refl). reflexivity.
  - unfold publish_name_clear, publish_event, mstate, mmodify. cbn [snd option_map map].
    rewrite merge_disjoint by exact (payload_keys (NameCleared n) _ _ eq_refl). reflexivity.
  - unfold publish_name_set, publish_event, mstate, mmodify. cbn [snd option_map map].
    rewrite merge_disjoint by exact (payload_keys (NameSet e) _ _ eq_refl). reflexivity.
  - unfold publish_name_clear, publish_event, mstate, mmodify. cbn [snd option_map map].
    rewrite merge_disjoint by exact (payload_keys (NameCleared n) _ _ eq_refl). reflexivity.
Qed.

Lemma unstarted_peers c : mstate (pub_half c) None = None.
Proof.
  destruct c as [t r|uid kind display label since now|e|n|e|n]; cbn [pub_half]; try reflexivity.
  - unfold publish_daemon_event. destruct (is_virtual r); [reflexivity|]. destruct (daemon_event_payload t r); reflexivity.
  - unfold publish_lock_event. destruct (is_virtual_uid uid); reflexivity.
Qed.

(** The events a change puts on the bus, and those its peers are sent. *)
Definition on_the_bus (c : change) : list json := if told_here c then map JObj (event_of_change c) else [].
Definition on_the_wire (c : change) : list json :=
  if stays_here c then [] else map (fun e => JObj (for_peers c e)) (event_of_change c).

(** C12: whatever changes here, the watchers of this host are sent the
    change's event, in their queues' order and no other queue, unless the
    change is a name written over HTTP; and the peers are sent that event
    too, when there are peers and a started PUB socket, unless it is of a
    registered board.  A change that reaches both is the same event on both
    ways, the same fields in the same order with the same values, but for a
    lock's display, which peers are sent with the lock's label and age.  A
    board that is already gone has no event at all. *)
Theorem changes_reach_both peering c s : bus_ok (fn_bus s) ->
  let s' := mstate (call_back peering c) s in
  mresult (call_back peering c) s = Ok tt /\
  bus_subscribers (fn_bus s') = bus_subscribers (fn_bus s) /\
  (forall q queue, bus_queues (fn_bus s) !! q = Some queue ->
     bus_queues (fn_bus s') !! q = Some (if bool_decide (q ∈ bus_subscribers (fn_bus s)) then queue ++ on_the_bus c else queue)) /\
  fn_pub s' = option_map (fun sent => sent ++ if peering then on_the_wire c else []) (fn_pub s) /\
  Forall (fun e => map fst (for_peers c e) = map fst e /\
                   forall k, (forall u kd ds lb si now, c = LockChange u kd ds lb si now -> k <> "display") ->
                     dget k (for_peers c e) = dget k e) (event_of_change c) /\
  (event_of_change c = [] <-> payload_of c = None).
Proof.
  intros Hb. cbv zeta. change (mresult (call_back peering c) s) with (fst (call_back peering c s)).
  change (mstate (call_back peering c) s) with (snd (call_back peering c s)).
  rewrite call_back_halves. cbn [fst snd fn_bus fn_pub]. split; [reflexivity|].
  split; [|split; [|split; [|split]]].
  - unfold bus_half. destruct (told_here c); [|reflexivity]. destruct (payload_of c) as [[t p]|]; [|reflexivity].
    pose proof (publish_state (bus_event host_name t p) (fn_bus s) Hb) as H. cbn [bus_exec] in H. rewrite H. reflexivity.
  - intros q queue Hq. unfold on_the_bus. rewrite event_of_payload. unfold bus_half.
    destruct (told_here c); [|rewrite app_nil_r; destruct (bool_decide _); exact Hq].
    destruct (payload_of c) as [[t p]|] eqn:Hp.
    + pose proof (publish_state (bus_event host_name t p) (fn_bus s) Hb) as H. cbn [bus_exec] in H. rewrite H. cbn [bus_queues].
      rewrite list_lookup_imap, Hq. cbn [fmap option_fmap option_map map]. unfold bus_event.
      rewrite merge_disjoint by exact (payload_keys c t p Hp). reflexivity.
    + cbn [map]. rewrite app_nil_r. destruct (bool_decide _); exact Hq.
  - unfold on_the_wire. destruct peering.
    + destruct (fn_pub s) as [sent|]; [|apply unstarted_peers]. cbn [option_map]. rewrite sent_to_peers.
      reflexivity.
    + destruct (fn_pub s); cbn; [rewrite app_nil_r|]; reflexivity.
  - rewrite event_of_payload. destruct c as [t r|uid kind [display|] label since now|e|n|e|n]; cbn [payload_of for_peers];
      try (constructor; [|constructor]; auto).
    + destruct (daemon_event_payload t r); cbn; auto.
    + split; [reflexivity|]. intros k Hk. apply dget_dset_ne. specialize (Hk _ _ _ _ _ _ eq_refl). congruence.
  - rewrite event_of_payload. destruct (payload_of c) as [[t p]|]; split; (reflexivity || discriminate).
Qed.

(** A name written over HTTP is sent to the peers alone: this host's
    watchers are not told. *)
Lemma http_names_miss_watchers peering e n s :
  fn_bus (mstate (names_api_set_callback host_name peering e) s) = fn_bus s /\
  fn_bus (mstate (names_api_clear_callback host_name peering n) s) = fn_bus s.
Proof. destruct peering; split; reflexivity. Qed.
End Fanout.

(** A name cleared on the socket reaches the watcher and the peers, one
    cleared over HTTP the peers alone. *)
Lemma changes_reach_both_witness :
  let watched := mkFan (mkBus [[]] [0%nat]) (Some []) in
  let event := JObj [("type", JStr "name_clear"); ("host", JStr "hut"); ("name", JStr "zuzav")] in
  bus_ok (fn_bus watched) /\
  bus_queues (fn_bus (mstate (call_back "hut" true (NameCleared "zuzav")) watched)) !! 0%nat = Some [event] /\
  fn_pub (mstate (call_back "hut" true (NameCleared "zuzav")) watched) = Some [event] /\
  bus_queues (fn_bus (mstate (call_back "hut" true (HttpNameCleared "zuzav")) watched)) !! 0%nat = Some [] /\
  fn_pub (mstate (call_back "hut" true (HttpNameCleared "zuzav")) watched) = Some [event].
Proof.
  set (watched := mkFan (mkBus [[]] [0%nat]) (Some [])). assert (Hb : bus_ok (fn_bus watched)).
  { split; [apply NoDup_singleton|repeat constructor]. }
  destruct (changes_reach_both "hut" true (NameCleared "zuzav") watched Hb) as (_ & _ & Hq & Hp & _).
  destruct (changes_reach_both "hut" true (HttpNameCleared "zuzav") watched Hb) as (_ & _ & Hq' & Hp' & _).
  split; [exact Hb|]. split; [exact (Hq 0%nat [] eq_refl)|]. split; [exact Hp|]. split; [exact (Hq' 0%nat [] eq_refl)|exact Hp'].
Defined.

(** ** A run follows its plan *)

Section Runs.
Variable E : run_env.
Notation m := (rn_machine E).

Definition trace_of : list run_act -> list run_act := fun l => l.

(** [c] does the acts of [p] in order, or, when it raises, the first of
    them. *)
Definition follows {A} (p : list run_act) (c : M (list run_act) A) : Prop :=
  does trace_of c (fun _ r l _ => l `prefix_of` p /\ ((exists a, r = Ok a) -> l = p)).

Lemma follows_step r a : follows [a] (step r a).
Proof.
  intros s. unfold step, mstate, mresult. rewrite bind_run. destruct r as [x|e]; cbn.
  - exists [a]. split; [reflexivity|]. split; [reflexivity|auto].
  - exists []. split; [symmetry; apply app_nil_r|]. split; [apply prefix_nil|]. intros [? [=]].
Qed.
Lemma follows_ret {A} (a : A) : follows [] (mret a).
Proof. eapply does_weaken; [apply does_ret|]. cbn. intros s r l s' (-> & -> & ->). split; [reflexivity|auto]. Qed.
Lemma follows_bind {A B} p q (c : M (list run_act) A) (k : A -> M (list run_act) B) :
  follows p c -> (forall a, follows q (k a)) -> follows (p ++ q) (mbind c k).
Proof.
  intros Hc Hk. eapply does_weaken; [eapply (does_bind _ _ _ (fun _ => _) Hc Hk)|].
  cbn. intros s r l s' [(e & -> & Hp & _)|(a & l1 & l2 & s1 & -> & [_ H1] & H2 & H3)].
  - split; [apply prefix_app_r; exact Hp|]. intros [a [=]].
  - rewrite (H1 (ex_intro _ a eq_refl)). split; [apply prefix_app; exact H2|]. intros Hr. f_equal. auto.
Qed.
Lemma follows_when (b : bool) p c : follows p c -> follows (if b then p else []) (when b c).
Proof. intros H. destruct b; [exact H|apply follows_ret]. Qed.
Lemma follows_for {A} (l : list A) (f : A -> run_act) c : (forall x, follows [f x] (c x)) -> follows (map f l) (mfor l c).
Proof.
  intros H. induction l as [|x l IH]; [apply follows_ret|]. cbn [map mfor]. change (f x :: map f l) with ([f x] ++ map f l).
  apply follows_bind; auto.
Qed.

(** The plan of a run, by what it starts and stops. *)
Definition start_plan (a : run_args) : list run_act :=
  [Started LocalApi] ++ [Started Remote] ++
  (if negb (ra_no_peering a) then [SetRemotePort (rn_bound E Remote)] ++ [Started Peers] else []) ++
  [Started NamesHttp] ++ (if negb (ra_no_relay_pool a) then [Started Pool] else []).
Definition connect_plan (a : run_args) (cfg : settings) (specs : list (string * Z)) : list run_act :=
  if negb (ra_no_peering a) then map (fun spec => Connected spec.1 (st_peer_pub_port cfg) (st_peer_snapshot_port cfg) spec.2) specs else [].
Definition stop_plan (a : run_args) : list run_act :=
  [Stopped NamesHttp] ++ (if negb (ra_no_relay_pool a) then [Stopped Pool] else []) ++
  (if negb (ra_no_peering a) then [Stopped Peers] else []) ++ [Stopped Remote] ++ [Stopped LocalApi] ++ [ClosedStore].
Definition opening (a : run_args) (cfg : settings) : list run_act :=
  (if ra_exit_with_parent a then [WatchedStdin] else []) ++ [OpenedStore (st_db cfg)] ++ [Assembled cfg].
Definition ready_plan (a : run_args) (cfg : settings) (addr : address) : list run_act :=
  if ra_ready_json a then [Ready (ready_payload E a cfg addr)] else [].

(** Up to the polling. *)
Definition before_plan a cfg addr specs : list run_act :=
  opening a cfg ++ start_plan a ++ connect_plan a cfg specs ++ ready_plan a cfg addr.
Definition run_plan a cfg addr specs : list run_act := before_plan a cfg addr specs ++ [Polled] ++ stop_plan a.

Lemma start_follows a : follows (start_plan a) (start_parts E a).
Proof.
  unfold start_plan, start_parts, start_part. repeat first [apply follows_bind; [|intro] | apply follows_when | apply follows_step].
Qed.
Lemma stop_follows a : follows (stop_plan a) (stop_parts E a).
Proof.
  unfold stop_plan, stop_parts, stop_part. repeat first [apply follows_bind; [|intro] | apply follows_when | apply follows_step].
Qed.
Lemma connect_follows a cfg specs : follows (connect_plan a cfg specs) (connect_peers E a cfg specs).
Proof. apply follows_when, follows_for. intros x. apply follows_step. Qed.

(** What a stop comes to, the stops that are made (those before the first
    that raises), and what they come to. *)
Definition stop_result (x : run_act) : result unit :=
  match x with Stopped p => rn_stop E p | ClosedStore => rn_close E | _ => Ok tt end.
Fixpoint made (l : list run_act) : list run_act :=
  match l with
  | [] => []
  | x :: l' => match stop_result x with Ok _ => x :: made l' | Err _ => [] end
  end.
Fixpoint outcome (l : list run_act) : result unit :=
  match l with
  | [] => Ok tt
  | x :: l' => let! _ := stop_result x in outcome l'
  end.

Lemma made_prefix l : made l `prefix_of` l.
Proof.
  induction l as [|x l IH]; [reflexivity|]. cbn [made]. destruct (stop_result x); [|apply prefix_nil].
  apply prefix_cons. exact IH.
Qed.

Lemma made_all l : outcome l = Ok tt -> made l = l.
Proof.
  induction l as [|x l IH]; [reflexivity|]. cbn [made outcome]. destruct (stop_result x); [|discriminate].
  cbn [result_bind]. intros H. f_equal. exact (IH H).
Qed.

(** [c] makes the acts of [p] up to the first that raises. *)
Definition makes (p : list run_act) (c : M (list run_act) unit) : Prop := forall l, c l = (outcome p, l ++ made p).

Lemma makes_step x : makes [x] (step (stop_result x) x).
Proof.
  intros l. unfold step, mbind, mlift, mmodify. cbn [made outcome].
  destruct (stop_result x) as [[]|e]; cbn [result_bind]; rewrite ?app_nil_r; reflexivity.
Qed.
Lemma makes_ret : makes [] (mret tt).
Proof. intros l. cbn. rewrite app_nil_r. reflexivity. Qed.
Lemma made_app p q :
  match outcome p with
  | Ok _ => outcome (p ++ q) = outcome q /\ made (p ++ q) = p ++ made q
  | Err e => outcome (p ++ q) = Err e /\ made (p ++ q) = made p
  end.
Proof.
  induction p as [|x p IH]; [split; reflexivity|]. cbn [app outcome made].
  destruct (stop_result x) as [[]|e]; cbn [result_bind]; [|split; reflexivity].
  destruct (outcome p); destruct IH as [-> ->]; split; reflexivity.
Qed.
Lemma makes_bind p q c k : makes p c -> makes q k -> makes (p ++ q) (c ;;! k).
Proof.
  intros Hc Hk l. unfold mbind. rewrite Hc. pose proof (made_app p q) as H.
  destruct (outcome p) as [[]|e] eqn:Ho; destruct H as [-> ->]; [|reflexivity].
  rewrite Hk, (made_all p Ho), <- app_assoc. reflexivity.
Qed.
Lemma makes_when (b : bool) p c : makes p c -> makes (if b then p else []) (when b c).
Proof. intros H. destruct b; [exact H|apply makes_ret]. Qed.

Lemma stops_made a : makes (stop_plan a) (stop_parts E a).
Proof.
  assert (Hp : forall p, makes [Stopped p] (stop_part E p)) by (intros p; exact (makes_step (Stopped p))).
  assert (Hc : makes [ClosedStore] (step (rn_close E) ClosedStore)) by exact (makes_step ClosedStore).
  unfold stop_plan, stop_parts. repeat first [apply makes_bind | apply makes_when | apply Hp | apply Hc].
Qed.

(** The polling and the stops. *)
Definition polled_result (a : run_args) : result unit := let! _ := outcome (stop_plan a) in rn_poll E.

Lemma poll_makes a l : mfinally (step (Ok tt) Polled ;;! mlift (rn_poll E)) (stop_parts E a) l =
  (polled_result a, l ++ Polled :: made (stop_plan a)).
Proof.
  unfold mfinally, polled_result. unfold mbind at 1, step at 1. unfold mbind, mlift, mmodify. rewrite stops_made, <- app_assoc.
  destruct (outcome (stop_plan a)) as [[]|e]; reflexivity.
Qed.

Lemma bring_up_follows a cfg addr specs : follows (before_plan a cfg addr specs) (bring_up E a cfg addr specs).
Proof.
  unfold before_plan, opening, bring_up. rewrite <- !app_assoc.
  repeat first [apply start_follows | apply connect_follows | apply follows_bind; [|intro] | apply follows_when | apply follows_step].
Qed.

(** Before the polling there is no polling, nothing is stopped, and the
    daemon is only said to be ready at the end. *)
Definition coming_up (x : run_act) : bool :=
  match x with Polled | Stopped _ | ClosedStore => false | _ => true end.

Lemma before_coming_up a cfg addr specs : forallb coming_up (before_plan a cfg addr specs) = true.
Proof.
  unfold before_plan, opening, start_plan, connect_plan, ready_plan. rewrite !forallb_app.
  assert (Hc : forallb coming_up (map (fun spec => Connected spec.1 (st_peer_pub_port cfg) (st_peer_snapshot_port cfg) spec.2) specs) = true).
  { apply forallb_forall. intros x Hx. apply in_map_iff in Hx as (spec & <- & _). reflexivity. }
  destruct (ra_exit_with_parent a), (ra_no_peering a), (ra_no_relay_pool a), (ra_ready_json a); cbn; rewrite ?Hc; reflexivity.
Qed.

Lemma not_polled_yet a cfg addr specs : Polled ∉ before_plan a cfg addr specs.
Proof.
  intros H. apply list_elem_of_In in H. pose proof (before_coming_up a cfg addr specs) as Hf.
  rewrite forallb_forall in Hf. discriminate (Hf _ H).
Qed.

Lemma run_cases a s : run_registry E a s =
  match resolve_local_api_address m (ra_socket a) SOCKET_ENV_VAR with
  | Err e => (Err e, s)
  | Ok addr =>
      match resolve_settings E a addr with
      | Err e => (Err e, s)
      | Ok cfg =>
          match map_result (parse_peer_spec DEFAULT_REMOTE_PORT) (ra_peer a) with
          | Err _ => (Ok EXIT_ERROR, s)
          | Ok specs =>
              mbind (bring_up E a cfg addr specs) (fun _ =>
                mbind (mfinally (step (Ok tt) Polled ;;! mlift (rn_poll E)) (stop_parts E a)) (fun _ => mret EXIT_OK)) s
          end
      end
  end.
Proof.
  unfold run_registry. rewrite bind_run. unfold mlift at 1. destruct (resolve_local_api_address _ _ _) as [addr|e]; [|reflexivity].
  rewrite bind_run. unfold mlift at 1. destruct (resolve_settings E a addr) as [cfg|e]; [|reflexivity].
  destruct (map_result _ (ra_peer a)); reflexivity.
Qed.

(** What a run comes to and leaves: nothing, or the beginning of what comes
    before the polling, or all of it, the polling, and the stops that are
    made. *)
Lemma run_follows a : let log := mstate (run_registry E a) [] in
  (log = [] /\ ~ In Polled log) \/
  exists addr cfg specs, resolve_local_api_address m (ra_socket a) SOCKET_ENV_VAR = Ok addr /\ resolve_settings E a addr = Ok cfg /\
    ((log `prefix_of` before_plan a cfg addr specs /\ ~ In Polled log /\ exists e, mresult (run_registry E a) [] = Err e) \/
     (log = before_plan a cfg addr specs ++ Polled :: made (stop_plan a) /\
      mresult (run_registry E a) [] = let! _ := polled_result a in Ok EXIT_OK)).
Proof.
  cbv zeta. unfold mresult, mstate. rewrite run_cases.
  destruct (resolve_local_api_address m (ra_socket a) SOCKET_ENV_VAR) as [addr|e]; [|left; auto].
  destruct (resolve_settings E a addr) as [cfg|e] eqn:Hs; [|left; auto].
  destruct (map_result _ (ra_peer a)) as [specs|e]; [|left; auto]. right. exists addr, cfg, specs. split; [reflexivity|]. split; [exact Hs|].
  destruct (bring_up_follows a cfg addr specs []) as (l & H1 & H2 & H3). unfold mstate, mresult, trace_of in *.
  rewrite bind_run. destruct (bring_up E a cfg addr specs []) as [[[]|e] s1]; cbn [fst snd app] in *; subst s1.
  - right. rewrite (H3 (ex_intro _ tt eq_refl)). rewrite bind_run, poll_makes.
    destruct (polled_result a) as [[]|e]; split; reflexivity.
  - left. split; [exact H2|]. split; [|eauto]. intros Hi. apply (not_polled_yet a cfg addr specs).
    eapply elem_of_prefix; [|exact H2]. apply list_elem_of_In. exact Hi.
Qed.
End Runs.

Lemma split_after {A} (p : A -> bool) B R l1 (x : A) l2 : forallb p B = true -> p x = false -> B ++ R = l1 ++ x :: l2 ->
  exists l1', l1 = B ++ l1' /\ R = l1' ++ x :: l2.
Proof.
  revert l1. induction B as [|b B IH]; intros l1 Hb Hx H; [exists l1; auto|]. cbn [forallb] in Hb. apply andb_true_iff in Hb as [Hb HB].
  destruct l1 as [|y l1]; cbn [app] in H; injection H as <- H; [congruence|]. destruct (IH l1 HB Hx H) as (l1' & -> & ->). eauto.
Qed.

Lemma split_unique {A} (x : A) X Y l1 l2 : NoDup (X ++ x :: Y) -> X ++ x :: Y = l1 ++ x :: l2 -> l1 = X /\ l2 = Y.
Proof.
  revert l1. induction X as [|y X IH]; intros l1 Hn H; destruct l1 as [|z l1]; cbn [app] in *.
  - injection H as ->. auto.
  - injection H as -> ->. apply NoDup_cons in Hn as [Hn _]. destruct Hn. apply elem_of_app. right. left.
  - injection H as -> _. apply NoDup_cons in Hn as [Hn _]. destruct Hn. apply elem_of_app. right. left.
  - injection H as -> H. apply NoDup_cons in Hn as [_ Hn]. destruct (IH l1 Hn H) as [-> ->]. auto.
Qed.

(** The parts a run has. *)
Definition configured (a : run_args) (p : part) : bool :=
  match p with Peers => negb (ra_no_peering a) | Pool => negb (ra_no_relay_pool a) | _ => true end.

Lemma started_before E a cfg specs p : configured a p = true -> In (Started p) (opening a cfg ++ start_plan E a ++ connect_plan a cfg specs).
Proof.
  intros H. apply in_or_app. right. apply in_or_app. left. unfold start_plan, configured in *.
  destruct p, (ra_no_peering a), (ra_no_relay_pool a); try discriminate H; cbn; auto 10.
Qed.

Lemma stop_plan_nodup a : NoDup (stop_plan a).
Proof. unfold stop_plan. destruct (ra_no_peering a), (ra_no_relay_pool a); cbn [negb app]; repeat (apply NoDup_cons; split; [set_solver|]); apply NoDup_nil_2. Qed.

Lemma stopped_configured a p : In (Stopped p) (stop_plan a) <-> configured a p = true.
Proof.
  unfold stop_plan, configured. destruct p, (ra_no_peering a), (ra_no_relay_pool a); cbn; intuition (discriminate || auto).
Qed.

(** The acts of a run after its polling are its stops. *)
Lemma stop_split E a cfg addr specs l1 x l2 : coming_up x = false -> x <> Polled ->
  run_plan E a cfg addr specs = l1 ++ x :: l2 ->
  exists l1', l1 = before_plan E a cfg addr specs ++ Polled :: l1' /\ stop_plan a = l1' ++ x :: l2.
Proof.
  intros Hx Hp H. destruct (split_after coming_up _ _ _ _ _ (before_coming_up E a cfg addr specs) Hx H) as (l1' & -> & H').
  cbn [app] in H'. destruct l1' as [|y l1']; cbn [app] in H'; injection H' as E1 E2; [congruence|]. subst y. eauto.
Qed.

Definition not_ready (x : run_act) : bool := match x with Ready _ => false | _ => true end.

Lemma ready_split E a cfg addr specs l1 j l2 : run_plan E a cfg addr specs = l1 ++ Ready j :: l2 ->
  l1 = opening a cfg ++ start_plan E a ++ connect_plan a cfg specs /\ j = ready_payload E a cfg addr /\ ra_ready_json a = true.
Proof.
  unfold run_plan, before_plan. intros H.
  assert (Hn : forallb not_ready (opening a cfg ++ start_plan E a ++ connect_plan a cfg specs) = true).
  { unfold opening, start_plan, connect_plan. rewrite !forallb_app.
    assert (Hc : forallb not_ready (map (fun spec => Connected spec.1 (st_peer_pub_port cfg) (st_peer_snapshot_port cfg) spec.2) specs) = true).
    { apply forallb_forall. intros x Hx. apply in_map_iff in Hx as (spec & <- & _). reflexivity. }
    destruct (ra_exit_with_parent a), (ra_no_peering a), (ra_no_relay_pool a); cbn; rewrite ?Hc; reflexivity. }
  assert (Hs : forall y, In y (stop_plan a) -> not_ready y = true).
  { unfold stop_plan. destruct (ra_no_peering a), (ra_no_relay_pool a); cbn; intuition (subst; reflexivity). }
  assert (H2 : (opening a cfg ++ start_plan E a ++ connect_plan a cfg specs) ++ ready_plan E a cfg addr ++ Polled :: stop_plan a =
    l1 ++ Ready j :: l2) by (rewrite <- H, <- !app_assoc; reflexivity).
  destruct (split_after not_ready _ _ _ (Ready j) _ Hn eq_refl H2) as (l1' & -> & H').
  assert (Hin : forall l, Polled :: stop_plan a <> l ++ Ready j :: l2).
  { intros l Hl. assert (Hi : In (Ready j) (Polled :: stop_plan a)) by (rewrite Hl; apply in_elt).
    destruct Hi as [Hi|Hi]; [discriminate|]. discriminate (Hs _ Hi). }
  unfold ready_plan in H'. destruct (ra_ready_json a); cbn [app] in H'; [|destruct (Hin _ H')].
  destruct l1' as [|y l1']; cbn [app] in H'; injection H' as E1 E2; [subst; rewrite app_nil_r; auto|]. destruct (Hin _ E2).
Qed.

Lemma stopped_once E a cfg addr specs l1' p l2 : stop_plan a = l1' ++ Stopped p :: l2 ->
  let l1 := before_plan E a cfg addr specs ++ Polled :: l1' in
  configured a p = true /\ In Polled l1 /\ In (Started p) l1 /\ ~ In (Stopped p) l1.
Proof.
  intros Hs. cbv zeta. assert (Hc : configured a p = true) by (apply stopped_configured; rewrite Hs; apply in_elt).
  split; [exact Hc|]. split; [apply in_elt|]. split.
  - apply in_or_app. left. unfold before_plan. rewrite !app_assoc, in_app_iff, <- app_assoc. left. apply started_before; exact Hc.
  - intros Hi. apply in_app_iff in Hi as [Hi|[Hi|Hi]]; [|discriminate|].
    + pose proof (before_coming_up E a cfg addr specs) as Hf. rewrite forallb_forall in Hf. discriminate (Hf _ Hi).
    + pose proof (stop_plan_nodup a) as Hn. rewrite Hs in Hn. apply NoDup_app in Hn as (_ & Hn & _).
      apply (Hn (Stopped p)); [apply list_elem_of_In; exact Hi|left].
Qed.

Lemma closed_last a l1' l2 : stop_plan a = l1' ++ ClosedStore :: l2 ->
  l2 = [] /\ forall p, configured a p = true -> In (Stopped p) l1'.
Proof.
  intros Hs. pose proof (stop_plan_nodup a) as Hn.
  assert (Ho : exists X, stop_plan a = X ++ [ClosedStore] /\ forall p, In (Stopped p) (stop_plan a) -> In (Stopped p) X).
  { exists (removelast (stop_plan a)). unfold stop_plan. destruct (ra_no_peering a), (ra_no_relay_pool a); cbn;
      (split; [reflexivity|]); intuition (discriminate || auto). }
  destruct Ho as (X & Ho & HX). assert (Hq : l1' = X /\ l2 = []).
  { apply (split_unique ClosedStore X [] l1' l2); [rewrite <- Ho; exact Hn|rewrite <- Ho; exact Hs]. }
  destruct Hq as [-> ->]. split; [reflexivity|]. intros p Hc. apply HX, stopped_configured, Hc.
Qed.

(** The ready line's ports: those the remote API, the pool and the names API
    are bound to; the peering's are the ports asked for. *)
Definition ready_line (E : run_env) (a : run_args) (cfg : settings) (addr : address) (j : json) : Prop :=
  exists d ports, j = JObj d /\ jget "ready" d = JBool true /\ jget "socket" d = JStr (str_address addr) /\
    jget "instance" d = JStr (instance_name (st_instance cfg) (rn_gethostname E)) /\ jget "ports" d = JObj ports /\
    dget "remote" ports = Some (JInt (rn_bound E Remote)) /\ dget "names" ports = Some (JInt (rn_bound E NamesHttp)) /\
    dget "pool" ports = (if configured a Pool then Some (JInt (rn_bound E Pool)) else None) /\
    dget "peer_pub" ports = (if configured a Peers then Some (JInt (st_peer_pub_port cfg)) else None) /\
    dget "peer_snapshot" ports = (if configured a Peers then Some (JInt (st_peer_snapshot_port cfg)) else None).

Lemma ready_payload_line E a cfg addr : ready_line E a cfg addr (ready_payload E a cfg addr).
Proof.
  unfold ready_line, ready_payload. exists (match ready_payload E a cfg addr with JObj d => d | _ => [] end), (ready_ports E a cfg).
  do 5 (split; [reflexivity|]). unfold ready_ports, configured.
  destruct (ra_no_peering a), (ra_no_relay_pool a); repeat (split; [reflexivity|]); reflexivity.
Qed.

(** C11: whatever opens, starts, connects, polls or stops of [mbregistry
    run] raise: the ready line is only printed once every part the flags ask
    for is started, and it gives the ports the remote API, the pool and the
    names API are bound to and the peering ports that were asked for; a part
    is stopped at most once, after it was started and the daemon polled; the
    store is closed last, every part stopped before.  Once the daemon polled,
    also when the polling raised, the stops are made in their order (names,
    pool, peers, remote, local, store) up to the first that raises, which is
    what the run then raises: all of them when none does, and the run ends
    as the polling did.  A run that fails before it polls stops nothing. *)
Theorem run_ordered E a : let log := mstate (run_registry E a) [] in
  (forall l1 j l2, log = l1 ++ Ready j :: l2 ->
     (forall p, configured a p = true -> In (Started p) l1) /\ ra_ready_json a = true /\
     exists addr cfg, resolve_local_api_address (rn_machine E) (ra_socket a) SOCKET_ENV_VAR = Ok addr /\
       resolve_settings E a addr = Ok cfg /\ ready_line E a cfg addr j) /\
  (forall l1 p l2, log = l1 ++ Stopped p :: l2 ->
     configured a p = true /\ In Polled l1 /\ In (Started p) l1 /\ ~ In (Stopped p) l1) /\
  (forall l1 l2, log = l1 ++ ClosedStore :: l2 ->
     l2 = [] /\ forall p, configured a p = true -> In (Stopped p) l1) /\
  (In Polled log -> (exists l1, log = l1 ++ Polled :: made E (stop_plan a)) /\
     mresult (run_registry E a) [] = (let! _ := outcome E (stop_plan a) in let! _ := rn_poll E in Ok EXIT_OK) /\
     (outcome E (stop_plan a) = Ok tt -> made E (stop_plan a) = stop_plan a)) /\
  (~ In Polled log -> forall p, ~ In (Stopped p) log /\ ~ In ClosedStore log).
Proof.
  cbv zeta. pose proof (run_follows E a) as Hf. cbv zeta in Hf. set (log := mstate (run_registry E a) []) in *.
  destruct Hf as [[Hl Hno]|(addr & cfg & specs & Ha & Hc & H)].
  { rewrite Hl in Hno |- *. split; [intros []; discriminate|]. split; [intros []; discriminate|].
    split; [intros []; discriminate|]. split; [intros []|]. intros _ p. split; intros []. }
  assert (Hp : exists rest, run_plan E a cfg addr specs = log ++ rest).
  { destruct H as [[[r Hr] _]|[Hl _]].
    - exists (r ++ [Polled] ++ stop_plan a). unfold run_plan. rewrite Hr, <- app_assoc. reflexivity.
    - destruct (made_prefix E (stop_plan a)) as [r Hr]. exists r. unfold run_plan. rewrite Hr at 1. rewrite Hl, <- app_assoc. reflexivity. }
  destruct Hp as [rest Hp].
  assert (Hlate : forall l1 x l2, log = l1 ++ x :: l2 -> coming_up x = false -> x <> Polled ->
    exists l1', l1 = before_plan E a cfg addr specs ++ Polled :: l1' /\ stop_plan a = l1' ++ x :: l2 ++ rest).
  { intros l1 x l2 Hl Hx Hn. apply stop_split; auto. rewrite Hp, Hl, <- app_assoc. reflexivity. }
  split; [|split; [|split; [|split]]].
  - intros l1 j l2 Hl. rewrite Hl, <- app_assoc in Hp. destruct (ready_split E a cfg addr specs l1 j (l2 ++ rest) Hp) as (-> & -> & Hr).
    split; [intros p; apply started_before|]. split; [exact Hr|]. exists addr, cfg. auto using ready_payload_line.
  - intros l1 p l2 Hl. destruct (Hlate _ _ _ Hl eq_refl ltac:(discriminate)) as (l1' & -> & Hs). eauto using stopped_once.
  - intros l1 l2 Hl. destruct (Hlate _ _ _ Hl eq_refl ltac:(discriminate)) as (l1' & -> & Hs).
    destruct (closed_last a l1' (l2 ++ rest) Hs) as [Hq HX]. apply app_eq_nil in Hq as [-> _]. split; [reflexivity|].
    intros p Hcf. apply in_or_app. right. right. exact (HX p Hcf).
  - intros Hi. destruct H as [(_ & Hn & _)|[Hl Hr]]; [contradiction|]. split; [eauto|]. split; [|apply made_all].
    rewrite Hr. unfold polled_result. destruct (outcome E (stop_plan a)); reflexivity.
  - intros Hn p. assert (Hno : forall x, coming_up x = false -> x <> Polled -> ~ In x log).
    { intros x Hx Hnx Hi. apply Hn. apply in_split in Hi as (l1 & l2 & Hl). destruct (Hlate _ _ _ Hl Hx Hnx) as (l1' & -> & _).
      rewrite Hl, <- app_assoc. apply in_elt. }
    split; apply Hno; (reflexivity || discriminate).
Qed.

(** A run whose polling ends and whose peering cannot be stopped: the parts
    after it are not stopped, the store is not closed, and the run raises. *)
Definition stuck_env : run_env :=
  mkRunEnv a_user "hut" "1.0" (Ok tt) (Ok tt) (fun _ => Ok tt)
    (fun p => match p with Remote => 7440 | Pool => 7444 | _ => 7445 end) (fun _ => Ok tt) (Ok tt)
    (fun p => if bool_decide (p = Peers) then Err OSError else Ok tt) (Ok tt).
Definition plain_args : run_args :=
  mkRunArgs None None None None None None None None None None [] false false false true.

Lemma run_ordered_witness :
  let log := mstate (run_registry stuck_env plain_args) [] in
  In Polled log /\
  (exists l1, log = l1 ++ [Polled; Stopped NamesHttp; Stopped Pool]) /\
  mresult (run_registry stuck_env plain_args) [] = Err OSError /\
  (forall l1 j l2, log = l1 ++ Ready j :: l2 -> In (Started Peers) l1 /\ In (Started Pool) l1) /\
  exists l1 j l2, log = l1 ++ Ready j :: l2.
Proof.
  destruct (run_ordered stuck_env plain_args) as (Hr & _ & _ & Hp & _). cbv zeta in Hr, Hp.
  assert (Hi : In Polled (mstate (run_registry stuck_env plain_args) [])) by (vm_compute; auto 20).
  destruct (Hp Hi) as (Hl & Hres & _). split; [exact Hi|]. split; [exact Hl|]. split; [exact Hres|]. split.
  - intros l1 j l2 Hlog. destruct (Hr l1 j l2 Hlog) as (Hs & _). split; apply Hs; reflexivity.
  - eexists [_; _; _; _; _; _; _; _], _, _. vm_compute. reflexivity.
Defined.

(** A names API that cannot start: what was started stays so. *)
Example failed_start_leaves_parts :
  let E := mkRunEnv a_user "hut" "1.0" (Ok tt) (Ok tt)
             (fun p => if bool_decide (p = NamesHttp) then Err OSError else Ok tt) (fun _ => 7440) (fun _ => Ok tt) (Ok tt) (fun _ => Ok tt) (Ok tt) in
  let a := mkRunArgs None None None None None None None None None None ["pine:7"] false true true true in
  mresult (run_registry E a) [] = Err OSError /\
  match mstate (run_registry E a) [] with
  | [OpenedStore _; Assembled _; Started LocalApi; Started Remote] => True
  | _ => False
  end.
Proof. vm_compute. split; [reflexivity|exact I]. Qed.
