(* ===== verification/Replication.v ===== *)
(** * A registry and its peer, in step

    The daemon of one host (Daemon), the callback that publishes what it
    finds (RegistryRun), and the link of a peer that receives it (Peering),
    together: a peer that applied a snapshot and receives the events
    published since has a copy of every board attached here, whatever the
    other threads of this host do to rows that are not its attached boards. *)

From S2P Require Import Prelude Tables Trace Json Identity Virtual Store StoreFacts Locks Claims Daemon DaemonFacts EventBus Peering PeeringFacts RegistryRun RegistryRunFacts.
Local Open Scope py_scope.

(** ** The relation *)

(** What a peer knows of a row: nothing when the board is not attached here. *)
Definition wire_row (o : option DeviceRecord) : option (option string * option string * string * list (option string)) :=
  match o with
  | Some r => if locally_attached r then Some (dr_port r, dr_vid_pid r, dr_state r, announced r) else None
  | None => None
  end.

Definition not_live (host : string) (o : option DeviceRecord) : Prop :=
  forall e, o = Some e -> dr_host e = Some host -> is_disconnected e = true.

(** [ob], a peer's row of a board whose row at [host] is [oa]: a copy while
    the board is attached there, unless the peer has it attached itself; and
    never a board of [host] otherwise. *)
Definition mirrors (host : string) (oa ob : option DeviceRecord) : Prop :=
  match oa with
  | Some r =>
      if locally_attached r then
        (exists e, ob = Some e /\ rejects_claim (Some host) e = true) \/
        (exists r', ob = Some r' /\ copy_of host r r')
      else not_live host ob
  | None => not_live host ob
  end.

Definition in_step (host : string) (da db : db) : Prop :=
  keys_ok db /\ forall k, mirrors host (get k da) (get k db).

(** Every board attached here is the same, and there is no other. *)
Definition same_own (d d' : db) : Prop := keys_ok d' /\ forall k, wire_row (get k d') = wire_row (get k d).

Lemma same_own_refl d : keys_ok d -> same_own d d.
Proof. split; auto. Qed.
Lemma same_own_trans d1 d2 d3 : same_own d1 d2 -> same_own d2 d3 -> same_own d1 d3.
Proof. intros [_ H1] [K H2]. split; [exact K|]. intros k. congruence. Qed.

Lemma copy_ext host r1 r2 r' : wire_row (Some r1) = wire_row (Some r2) -> locally_attached r1 = true ->
  copy_of host r1 r' -> copy_of host r2 r'.
Proof.
  intros E0 H1. unfold wire_row in E0. rewrite H1 in E0. destruct (locally_attached r2); [|discriminate].
  injection E0 as E1 E2 E3 E4 E5 E6 E7 E8. unfold copy_of, wire_announcement. rewrite E1, E2, E3, E4, E5, E6, E7, E8. auto.
Qed.

Lemma mirrors_ext host oa oa' ob : wire_row oa' = wire_row oa -> mirrors host oa ob -> mirrors host oa' ob.
Proof.
  intros E0. unfold mirrors. assert (Hl : match oa with Some r => locally_attached r | None => false end =
    match oa' with Some r => locally_attached r | None => false end).
  { unfold wire_row in E0. destruct oa as [r|], oa' as [r'|]; repeat case_match; congruence. }
  destruct oa as [r|], oa' as [r'|]; cbn in Hl.
  - destruct (locally_attached r) eqn:H1; rewrite <- Hl; [|auto]. intros [H|(e & -> & Hc)]; [left; exact H|right].
    exists e. split; [reflexivity|]. eapply copy_ext; [symmetry; exact E0|exact H1|exact Hc].
  - rewrite Hl. auto.
  - rewrite <- Hl. auto.
  - auto.
Qed.

Lemma in_step_same host da da' b : same_own da da' -> in_step host da b -> in_step host da' b.
Proof. intros [_ H] [K M]. split; [exact K|]. intros k. exact (mirrors_ext host _ _ _ (H k) (M k)). Qed.

(** ** One change, told *)

(** [r] is the row that changed. *)
Definition changed_row (d d' : db) (r : DeviceRecord) : Prop :=
  keys_ok d' /\ get (dr_uid r) d' = Some r /\ forall k, k <> dr_uid r -> get k d' = get k d.

Inductive told (d d' : db) : string -> DeviceRecord -> Prop :=
| ToldAttach r : changed_row d d' r -> locally_attached r = true -> dr_state r = STATE_ATTACHED_UNPROBED ->
    told d d' EVENT_ATTACH r
| ToldDetach r e : changed_row d d' r -> is_virtual r = false -> dr_state r = STATE_DISCONNECTED ->
    get (dr_uid r) d = Some e -> locally_attached e = true -> told d d' EVENT_DETACH r
| ToldIdentity r e : changed_row d d' r -> locally_attached r = true -> In (dr_state r) PROBED_STATES ->
    get (dr_uid r) d = Some e -> locally_attached e = true -> dr_port r = dr_port e -> dr_vid_pid r = dr_vid_pid e ->
    told d d' EVENT_IDENTITY r.

Lemma attached_cases r : locally_attached r = true ->
  dr_host r = None /\ dr_state r <> STATE_DISCONNECTED /\ is_virtual r = false.
Proof.
  unfold locally_attached, is_disconnected. rewrite !andb_true_iff, !negb_true_iff, bool_decide_eq_true, bool_decide_eq_false. tauto.
Qed.

Lemma told_changed d d' t r : told d d' t r -> changed_row d d' r.
Proof. intros []; assumption. Qed.

(** The event of a change. *)
Definition event_message (host : string) (t : string) (r : DeviceRecord) : list (string * json) :=
  [("type", JStr t); ("host", JStr host)] ++ match daemon_event_payload t r with Some p => p | None => [] end.

Lemma dispatched host event now b : mstate (recv_message host (Some (JObj event)) now) b = mstate (dispatch_event host event now) b.
Proof. unfold recv_message, apply_event. rewrite try_all_state, try_state. reflexivity. Qed.

Lemma in_step_changed host d d' r b b' : in_step host d b -> changed_row d d' r -> keys_ok b' ->
  (forall k, k <> dr_uid r -> get k b' = get k b) -> mirrors host (Some r) (get (dr_uid r) b') -> in_step host d' b'.
Proof.
  intros [_ M] (_ & Hr & Ho) K Hb Hm. split; [exact K|]. intros k.
  destruct (decide (k = dr_uid r)) as [->|Hne]; [rewrite Hr; exact Hm|]. rewrite Ho, Hb by exact Hne. apply M.
Qed.

Lemma rejecting_host host e : rejects_claim (Some host) e = true -> dr_host e = None.
Proof. unfold rejects_claim. rewrite !andb_true_iff, bool_decide_eq_true. tauto. Qed.

(** The three events, as the link dispatches them. *)
Ltac compute_type :=
  repeat match goal with
  | |- context [is_str ?a (JStr ?b)] => let v := eval vm_compute in (is_str a (JStr b)) in change (is_str a (JStr b)) with v
  end; cbv iota.

Lemma dispatch_attach host event uid port vid_pid now b : jget "type" event = JStr EVENT_ATTACH ->
  jget "uid" event = JStr uid -> jget "port" event = jopt port -> jget "vid_pid" event = jopt vid_pid ->
  mstate (dispatch_event host event now) b = mstate (upsert_remote_attached uid host port vid_pid now) b.
Proof.
  intros Ht Hu Hp Hv. unfold dispatch_event. rewrite Ht, Hu, Hp, Hv, !text_of_jopt.
  compute_type. unfold quietly.
  rewrite <- (bind_ret_state (upsert_remote_attached uid host port vid_pid now) tt). reflexivity.
Qed.

Definition when_owned (host uid : string) (k : M db unit) (b : db) : db :=
  if attributed_to b uid host then mstate k b else b.

Lemma dispatch_detach host event uid now b : jget "type" event = JStr EVENT_DETACH -> jget "uid" event = JStr uid ->
  mstate (dispatch_event host event now) b = when_owned host uid (quietly (mark_remote_detached uid now)) b.
Proof.
  intros Ht Hu. unfold dispatch_event. rewrite Ht, Hu. compute_type. unfold when_owned, mstate, mbind, mlift, mgets. cbn [uid_of].
  destruct (attributed_to b uid host); reflexivity.
Qed.

Lemma dispatch_identity host event uid now b : jget "type" event = JStr EVENT_IDENTITY -> jget "uid" event = JStr uid ->
  mstate (dispatch_event host event now) b = when_owned host uid (apply_state uid (jget "state" event) event now) b.
Proof.
  intros Ht Hu. unfold dispatch_event. rewrite Ht, Hu. compute_type. unfold when_owned, mstate, mbind, mlift, mgets. cbn [uid_of].
  destruct (attributed_to b uid host); reflexivity.
Qed.

Lemma when_owned_row host uid k b e : get uid b = Some e ->
  when_owned host uid k b = if bool_decide (dr_host e = Some host) then mstate k b else b.
Proof. intros Hg. unfold when_owned, attributed_to. rewrite Hg. reflexivity. Qed.

Lemma attach_delivered host d d' r now b : in_step host d b -> changed_row d d' r -> locally_attached r = true ->
  dr_state r = STATE_ATTACHED_UNPROBED ->
  in_step host d' (mstate (recv_message host (Some (JObj (event_message host EVENT_ATTACH r))) now) b).
Proof.
  intros Hs Hc Hl Hst. pose proof (attached_cases r Hl) as (Hh & _ & Hv). rewrite dispatched.
  assert (E0 : mstate (dispatch_event host (event_message host EVENT_ATTACH r) now) b =
    mstate (upsert_remote_attached (dr_uid r) host (dr_port r) (dr_vid_pid r) now) b).
  { unfold event_message, daemon_event_payload. rewrite Hst, Hv. apply dispatch_attach; reflexivity. }
  rewrite E0. unfold upsert_remote_attached.
  destruct (upsert_device_row (dr_uid r) (Some host) (dr_port r) (dr_vid_pid r) now b (proj1 Hs)) as (_ & K & G & O & _).
  apply (in_step_changed host d d' r b); try assumption.
  rewrite G. unfold mirrors. rewrite Hl. unfold upserted. destruct (get (dr_uid r) b) as [e|].
  - destruct (rejects_claim (Some host) e) eqn:Hr; [left; eauto|right]. eexists. split; [reflexivity|].
    pose proof (row_upserted_live (Some host) (dr_port r) (dr_vid_pid r) now e) as Hd.
    assert (Hp : ~ In (dr_state r) PROBED_STATES) by (rewrite Hst; intros [X|[X|[X|[]]]]; discriminate X).
    split; [unfold row_upserted; destruct (is_disconnected e); reflexivity|].
    split; [unfold row_upserted; destruct (is_disconnected e); reflexivity|].
    split; [unfold row_upserted; destruct (is_disconnected e); reflexivity|].
    split; [exact Hd|]. split; [tauto|]. rewrite Hst. discriminate.
  - right. eexists. split; [reflexivity|]. repeat split; try discriminate; rewrite Hst.
    + intros [X|[X|[X|[]]]]; discriminate X.
    + discriminate.
Qed.

Lemma detach_delivered host d d' r e now b : in_step host d b -> changed_row d d' r -> is_virtual r = false ->
  dr_state r = STATE_DISCONNECTED -> get (dr_uid r) d = Some e -> locally_attached e = true ->
  in_step host d' (mstate (recv_message host (Some (JObj (event_message host EVENT_DETACH r))) now) b).
Proof.
  intros Hs Hc Hv Hst Hg Hl. rewrite dispatched.
  rewrite (dispatch_detach host _ (dr_uid r))
    by (unfold event_message, daemon_event_payload; rewrite Hv, ?andb_false_r; reflexivity).
  assert (Hn : locally_attached r = false) by (unfold locally_attached, is_disconnected; rewrite Hst, andb_false_r; reflexivity).
  pose proof (proj2 Hs (dr_uid r)) as M0. rewrite Hg in M0. unfold mirrors in M0. rewrite Hl in M0.
  destruct M0 as [(x & Hx & Hrej)|(x & Hx & Hcopy)]; rewrite (when_owned_row _ _ _ _ _ Hx).
  - rewrite (rejecting_host host x Hrej), bool_decide_eq_false_2 by discriminate.
    apply (in_step_changed host d d' r b b Hs Hc (proj1 Hs)); [reflexivity|]. unfold mirrors. rewrite Hn, Hx.
    intros y [= <-] Hy. rewrite (rejecting_host host x Hrej) in Hy. discriminate.
  - rewrite (proj1 Hcopy), bool_decide_eq_true_2 by reflexivity. unfold quietly. rewrite bind_ret_state.
    destruct (mark_disconnected_effect (dr_uid r) now b x (proj1 Hs) Hx) as (r' & b' & E1 & K & U & S' & _ & _ & G & O).
    unfold mark_remote_detached, mstate. rewrite E1. cbn [snd].
    apply (in_step_changed host d d' r b b' Hs Hc K O). unfold mirrors. rewrite Hn, G.
    intros y [= <-] _. unfold is_disconnected. rewrite S'. reflexivity.
Qed.

Lemma announced_probe r p : daemon_event_payload EVENT_IDENTITY r = Some p -> forall host,
  probe_result_from_dict ([("type", JStr EVENT_IDENTITY); ("host", JStr host)] ++ p) = Ok (probe_of_row r).
Proof.
  unfold daemon_event_payload. destruct (_ && _); [discriminate|]. intros [= <-] host.
  unfold probe_result_from_dict, probe_of_row, get_or_empty.
  destruct (dr_role r), (dr_common_name r), (dr_device_name r), (dr_serial_payload r), (dr_raw_announcement r); reflexivity.
Qed.

Lemma identity_delivered host d d' r e now b : in_step host d b -> changed_row d d' r -> locally_attached r = true ->
  In (dr_state r) PROBED_STATES -> get (dr_uid r) d = Some e -> locally_attached e = true ->
  dr_port r = dr_port e -> dr_vid_pid r = dr_vid_pid e ->
  in_step host d' (mstate (recv_message host (Some (JObj (event_message host EVENT_IDENTITY r))) now) b).
Proof.
  intros Hs Hc Hl Hst Hg He Hp Hv. pose proof (attached_cases r Hl) as (_ & Hd & Hvr). rewrite dispatched.
  assert (Epay : exists p, daemon_event_payload EVENT_IDENTITY r = Some p /\
    jget "uid" ([("type", JStr EVENT_IDENTITY); ("host", JStr host)] ++ p) = JStr (dr_uid r) /\
    jget "state" ([("type", JStr EVENT_IDENTITY); ("host", JStr host)] ++ p) = JStr (dr_state r)).
  { unfold daemon_event_payload. apply String.eqb_neq in Hd. rewrite Hd, andb_false_r, Hvr. eexists. repeat split. }
  destruct Epay as (p & Epay & Eu & Es). unfold event_message. rewrite Epay.
  rewrite (dispatch_identity host ([("type", JStr EVENT_IDENTITY); ("host", JStr host)] ++ p) (dr_uid r) now b eq_refl Eu), Es.
  pose proof (proj2 Hs (dr_uid r)) as M0. rewrite Hg in M0. unfold mirrors in M0. rewrite He in M0.
  destruct M0 as [(x & Hx & Hrej)|(x & Hx & (C1 & C2 & C3 & C4 & _))]; rewrite (when_owned_row _ _ _ _ _ Hx).
  - rewrite (rejecting_host host x Hrej), bool_decide_eq_false_2 by discriminate.
    apply (in_step_changed host d d' r b b Hs Hc (proj1 Hs)); [reflexivity|]. unfold mirrors. rewrite Hl. left. eauto.
  - rewrite C1, bool_decide_eq_true_2 by reflexivity.
    assert (Hxp : dr_port x = dr_port r) by congruence. assert (Hxv : dr_vid_pid x = dr_vid_pid r) by congruence.
    destruct (apply_state_run host r _ (dr_uid r) now b x (proj1 Hs) (announced_probe r p Epay host) Hx C1 Hxp Hxv C4) as (_ & K & O & r' & G & Hcopy).
    apply (in_step_changed host d d' r b _ Hs Hc K O). unfold mirrors. rewrite Hl. right. eauto.
Qed.

Lemma told_delivered host d d' t r now b : in_step host d b -> told d d' t r ->
  in_step host d' (mstate (recv_message host (Some (JObj (event_message host t r))) now) b).
Proof.
  intros Hs [x ? ? ?|x ? ? ? ? ? ?|x ? ? ? ? ? ? ? ?].
  - eapply attach_delivered; eassumption.
  - eapply detach_delivered; eassumption.
  - eapply identity_delivered; eassumption.
Qed.

(** ** What a cycle does, as the events tell it *)

Inductive story : db -> list (string * DeviceRecord) -> db -> Prop :=
| story_end d d' : same_own d d' -> story d [] d'
| story_told d d1 d2 t r l : told d d1 t r -> story d1 l d2 -> story d ((t, r) :: l) d2
| story_same d d1 d2 l : same_own d d1 -> story d1 l d2 -> story d l d2.

Lemma story_keys d l d' : story d l d' -> keys_ok d'.
Proof. induction 1 as [d d' [K _]| |]; auto. Qed.

Lemma story_app d l1 d1 l2 d2 : story d l1 d1 -> story d1 l2 d2 -> story d (l1 ++ l2) d2.
Proof. intros H1 H2. induction H1; cbn; econstructor; eauto. Qed.

Lemma story_one d t r d' : told d d' t r -> story d [(t, r)] d'.
Proof.
  intros H. eapply story_told; [exact H|]. apply story_end, same_own_refl. exact (proj1 (told_changed _ _ _ _ H)).
Qed.

(** Is [u] attached here. *)
Definition attached_here (u : string) (d : db) : Prop := wire_row (get u d) <> None.

Lemma attached_row u d : attached_here u d <-> exists r, get u d = Some r /\ locally_attached r = true.
Proof.
  unfold attached_here, wire_row. destruct (get u d) as [r|]; [|split; [congruence|intros (r & [=] & _)]].
  destruct (locally_attached r) eqn:E0; split; try congruence; eauto. intros (r' & [= <-] & H). congruence.
Qed.

Section Cycle.
Variable E : daemon_env.
#[local] Instance cycle_host : LockHost dstate := daemon_host E.

(** The other threads may do anything but raise here, change a board
    attached here, or add one. *)
Definition quiet_threads : Prop := forall s, keys_ok (dm_db s) ->
  mresult (e_other_threads E) s = Ok tt /\ same_own (dm_db s) (dm_db (mstate (e_other_threads E) s)) /\
  dm_events (mstate (e_other_threads E) s) = dm_events s.

(** A scan of this machine's ports, none of whose boards is in the store as
    a registered one, or as attached to a peer; and no flash of a board that
    is away runs out. *)
Definition calm_cycle (current : list (string * PortInfo)) (s : dstate) : Prop :=
  (exists comports, current = scan comports) /\
  (forall u i r, In (u, i) current -> get u (dm_db s) = Some r ->
     is_virtual r = false /\ (dr_host r = None \/ is_disconnected r = true)) /\
  (forall u dl, In (u, dl) (dm_flash_pending s) -> dget u current <> None \/ e_mono E (dm_tick s) < dl).

Definition hardware (current : list (string * PortInfo)) : Prop :=
  forall u i, In (u, i) current -> (pi_vid i, pi_pid i) = Identity.DAPLINK_VID_PID.

Lemma scan_hardware comports : hardware (scan comports).
Proof.
  unfold scan. assert (G : forall out, hardware out -> hardware (fold_left scan_entry comports out)).
  { induction comports as [|p ps IH]; intros out H; [exact H|]. cbn [fold_left]. apply IH. unfold scan_entry.
    destruct (cp_vid p) as [v|], (cp_pid p) as [q|]; try exact H.
    destruct (bool_decide_reflect ((v, q) = DAPLINK_VID_PID)) as [Ev|]; cbn [negb]; [|exact H].
    destruct (cp_serial_number p) as [u|]; [|exact H]. destruct (dget u out); [exact H|].
    intros u' i Hi. apply in_dset in Hi as [[= -> ->]|Hi]; [exact Ev|exact (H u' i Hi)]. }
  apply G. intros u i [].
Qed.

Lemma hardware_row r i : (pi_vid i, pi_pid i) = DAPLINK_VID_PID -> dr_host r = None ->
  dr_vid_pid r = Some (format_vid_pid (pi_vid i) (pi_pid i)) -> is_virtual r = false.
Proof.
  intros Hi Hh Hv. injection Hi as E1 E2. unfold is_virtual, is_virtual_row. rewrite Hh, Hv, E1, E2.
  rewrite bool_decide_eq_false_2; [reflexivity|]. vm_compute. discriminate.
Qed.

Lemma attached_when r : dr_host r = None -> dr_state r <> STATE_DISCONNECTED -> is_virtual r = false -> locally_attached r = true.
Proof.
  intros H1 H2 H3. unfold locally_attached, is_disconnected.
  rewrite H1, bool_decide_eq_true_2, bool_decide_eq_false_2, H3 by (reflexivity || exact H2). reflexivity.
Qed.

(** A board that was away is attached. *)
Lemma upsert_told u i now d : keys_ok d -> (pi_vid i, pi_pid i) = DAPLINK_VID_PID ->
  (forall r, get u d = Some r -> is_disconnected r = true) -> exists r d',
  upsert_attached u (pi_port i) (format_vid_pid (pi_vid i) (pi_pid i)) now d = (Ok r, d') /\
  dr_uid r = u /\ told d d' EVENT_ATTACH r /\ locally_attached r = true.
Proof.
  intros Hd Hi Hr.
  destruct (upsert_device_row u None (Some (pi_port i)) (Some (format_vid_pid (pi_vid i) (pi_pid i))) now d Hd)
    as (Eu & K & G & O & _).
  unfold mresult, mstate in *. unfold upsert_attached.
  destruct (upsert_device u None _ _ now d) as [res d']. cbn [fst snd] in *. subst res.
  eexists _, d'. split; [reflexivity|]. pose proof (get_uid _ _ _ G) as U. split; [exact U|].
  assert (Hrow : dr_host (upserted None (Some (pi_port i)) (Some (format_vid_pid (pi_vid i) (pi_pid i))) u now (get u d)) = None /\
    dr_state (upserted None (Some (pi_port i)) (Some (format_vid_pid (pi_vid i) (pi_pid i))) u now (get u d)) = STATE_ATTACHED_UNPROBED /\
    dr_vid_pid (upserted None (Some (pi_port i)) (Some (format_vid_pid (pi_vid i) (pi_pid i))) u now (get u d)) =
      Some (format_vid_pid (pi_vid i) (pi_pid i))).
  { unfold upserted. destruct (get u d) as [e|]; [|repeat split].
    change (rejects_claim None e) with false. cbv iota. rewrite (Hr e eq_refl). repeat split. }
  destruct Hrow as (H1 & H2 & H3).
  assert (Hl : locally_attached (upserted None (Some (pi_port i)) (Some (format_vid_pid (pi_vid i) (pi_pid i))) u now (get u d)) = true)
    by (apply attached_when; [exact H1|rewrite H2; discriminate|exact (hardware_row _ i Hi H1 H3)]).
  split; [|exact Hl]. apply ToldAttach; [|exact Hl|exact H2].
  split; [exact K|]. rewrite U. auto.
Qed.

(** Other boards are as they were, given that [l] are the boards that
    changed. *)
Definition others_same (l : list string) (d d' : db) : Prop := forall k, ~ In k l -> get k d' = get k d.

(** What an attach pass leaves, [recs] being the rows it attached. *)
Definition attaches (prev : list string) (current : list (string * PortInfo)) (s : dstate) (recs : list DeviceRecord) (s' : dstate) : Prop :=
  story (dm_db s) (map (pair EVENT_ATTACH) recs) (dm_db s') /\
  dm_events s' = dm_events s /\ dm_flash_pending s' = dm_flash_pending s /\ (dm_tick s <= dm_tick s')%nat /\
  Forall (fun r => ~ dr_uid r ∈ prev /\ dget (dr_uid r) current <> None /\ attached_here (dr_uid r) (dm_db s')) recs /\
  others_same (map dr_uid recs) (dm_db s) (dm_db s').

Lemma attach_pass_told prev current : dunique current -> hardware current -> forall owned attached s,
  keys_ok (dm_db s) ->
  (forall u i r, In (u, i) current -> ~ u ∈ prev -> get u (dm_db s) = Some r -> is_disconnected r = true) ->
  exists recs s', attach_pass E prev current owned attached s = (Ok (owned ++ map dr_uid recs, attached ++ recs), s') /\
    attaches prev current s recs s'.
Proof.
  unfold attaches. induction current as [|[u i] rest IH]; intros Hu Hw owned attached s Hd Haway.
  - exists [], s. rewrite !app_nil_r. split; [reflexivity|]. split; [apply story_end, same_own_refl, Hd|].
    do 2 (split; [reflexivity|]). split; [lia|]. split; [constructor|]. intros k _. reflexivity.
  - unfold dunique, unique in Hu. cbn [map fst] in Hu. apply NoDup_cons in Hu as [Hn Hu].
    assert (Hw' : hardware rest) by (intros k j Hk; apply (Hw k j); right; exact Hk).
    assert (Hlift : forall k, dget k rest <> None -> dget k ((u, i) :: rest) <> None).
    { intros k Hk. unfold dget in *. rewrite tfind_cons. cbn [fst]. destruct (bool_decide _); [discriminate|exact Hk]. }
    assert (Hrest : forall owned attached s1, keys_ok (dm_db s1) ->
      (forall k j r, In (k, j) rest -> ~ k ∈ prev -> get k (dm_db s1) = Some r -> is_disconnected r = true) -> _)
      by exact (IH Hu Hw').
    assert (Hskip : forall s1, dm_db s1 = dm_db s -> dm_events s1 = dm_events s -> dm_flash_pending s1 = dm_flash_pending s ->
      (dm_tick s <= dm_tick s1)%nat -> exists recs s',
      attach_pass E prev rest owned attached s1 = (Ok (owned ++ map dr_uid recs, attached ++ recs), s') /\
      attaches prev ((u, i) :: rest) s recs s').
    { unfold attaches. intros s1 E1 E2 E3 E4. destruct (Hrest owned attached s1) as (recs & s' & P1 & P2 & P3 & P4 & P5 & P6 & P7).
      - rewrite E1. exact Hd.
      - intros k j r Hk Hp Hg. rewrite E1 in Hg. apply (Haway k j r); [right; exact Hk|exact Hp|exact Hg].
      - exists recs, s'. rewrite E1 in P2, P7. rewrite P3, P4, E2, E3. split; [exact P1|]. split; [exact P2|]. do 2 (split; [reflexivity|]).
        split; [lia|]. split; [|exact P7]. eapply Forall_impl; [exact P6|]. cbn. intros r (A1 & A2 & A3). auto. }
    cbn [attach_pass]. destruct (bool_decide_reflect (u ∈ prev)) as [Hp|Hp]; [apply Hskip; auto|].
    unfold mbind at 1, read. destruct (e_claim E (dm_tick s) u) as [h|]; [|apply Hskip; cbn; auto].
    destruct (upsert_told u i (e_wall E (dm_tick (tick s))) (dm_db s) Hd (Hw u i (or_introl eq_refl)))
      as (r & d' & Eu & Ur & Ht & Hl).
    { intros r Hg. exact (Haway u i r (or_introl eq_refl) Hp Hg). }
    pose proof (told_changed _ _ _ _ Ht) as (K & G & O). rewrite Ur in G, O.
    set (s1 := with_db d' (tick (with_claims (dset u h (dm_claims s)) (tick s)))).
    assert (Hnr : forall k j, In (k, j) rest -> k <> u).
    { intros k j Hk ->. apply Hn, list_elem_of_In, in_map_iff. exists (u, j). auto. }
    destruct (Hrest (owned ++ [u]) (attached ++ [r]) s1 K) as (recs & s' & P1 & P2 & P3 & P4 & P5 & P6 & P7).
    { intros k j r' Hk Hpk Hg. cbn in Hg. rewrite O in Hg by exact (Hnr k j Hk).
      apply (Haway k j r'); [right; exact Hk|exact Hpk|exact Hg]. }
    assert (Hur : ~ In u (map dr_uid recs)).
    { intros Hi. apply in_map_iff in Hi as (r' & Er & Hr'). rewrite List.Forall_forall in P6.
      destruct (P6 r' Hr') as (_ & Hin & _). rewrite Er in Hin. apply Hin, dget_none. rewrite <- list_elem_of_In. exact Hn. }
    exists (r :: recs), s'. split.
    { unfold mbind, mmodify, in_store. cbn [dm_db with_claims tick dm_claims dm_tick] in *.
      rewrite Eu. fold s1. rewrite P1, <- !app_assoc. cbn [map app]. rewrite Ur. reflexivity. }
    split; [cbn [map]; eapply story_told; [exact Ht|exact P2]|].
    split; [exact P3|]. split; [exact P4|]. split; [cbn in P5; lia|]. split.
    + constructor.
      * rewrite Ur. split; [exact Hp|]. split; [unfold dget; rewrite tfind_cons; cbn [fst]; rewrite bool_decide_true by reflexivity; discriminate|].
        apply attached_row. exists r. rewrite P7 by exact Hur. cbn. auto.
      * eapply Forall_impl; [exact P6|]. cbn. intros r' (A1 & A2 & A3). auto.
    + intros k Hk. cbn [map In] in Hk. rewrite Ur in Hk. rewrite P7 by tauto. cbn. apply O. intros ->. tauto.
Qed.

(** One board is gone. *)
Lemma detach_one_told u s : keys_ok (dm_db s) -> attached_here u (dm_db s) -> exists r s1,
  detach_one E u s = (Ok r, s1) /\ dr_uid r = u /\ told (dm_db s) (dm_db s1) EVENT_DETACH r /\ dm_events s1 = dm_events s.
Proof.
  intros Hd Ha. apply attached_row in Ha as (e & Hg & Hl).
  destruct (release_lock_daemon E u s) as (s0 & E0 & _ & D0 & _ & _ & V0 & _).
  destruct (drop_claim_daemon u s0) as (s1 & E1 & _ & _ & D1 & _ & _ & V1 & _).
  assert (Ed : dm_db s1 = dm_db s) by congruence.
  destruct (mark_disconnected_effect u (e_wall E (dm_tick s1)) (dm_db s) e Hd Hg) as (r & d & E2 & K & U & S' & H' & _ & G & O).
  exists r, (with_db d (tick s1)). unfold detach_one.
  rewrite (bind_result _ _ _ tt) by (unfold mresult; rewrite E0; reflexivity).
  unfold mstate. rewrite E0. cbn [snd].
  rewrite (bind_result _ _ _ tt) by (unfold mresult; rewrite E1; reflexivity).
  unfold mstate. rewrite E1. cbn [snd]. unfold mbind, read, in_store. cbn [dm_db tick]. rewrite Ed, E2.
  split; [reflexivity|]. split; [exact U|]. split; [|cbn; congruence].
  apply (ToldDetach _ _ r e); [split; [exact K|]; rewrite U; auto| |exact S'|rewrite U; exact Hg|exact Hl].
  unfold mark_disconnected in E2. rewrite update_existing_run, Hg in E2 by (intros x; reflexivity). injection E2 as <- _.
  exact (proj2 (proj2 (attached_cases e Hl))).
Qed.

Lemma detach_pass_told missing : NoDup missing -> forall detached s, keys_ok (dm_db s) ->
  (forall u, In u missing -> attached_here u (dm_db s)) ->
  exists recs s', detach_pass E missing detached s = (Ok (detached ++ recs), s') /\
    story (dm_db s) (map (pair EVENT_DETACH) recs) (dm_db s') /\ dm_events s' = dm_events s /\
    others_same missing (dm_db s) (dm_db s').
Proof.
  induction missing as [|u rest IH]; intros Hn detached s Hd Ha.
  - exists [], s. rewrite app_nil_r. split; [reflexivity|]. split; [apply story_end, same_own_refl, Hd|].
    split; [reflexivity|]. intros k _. reflexivity.
  - apply NoDup_cons in Hn as [Hu Hn]. rewrite list_elem_of_In in Hu.
    destruct (detach_one_told u s Hd (Ha u (or_introl eq_refl))) as (r & s1 & E1 & U & Ht & V1).
    pose proof (told_changed _ _ _ _ Ht) as (K & _ & O). rewrite U in O.
    destruct (IH Hn (detached ++ [r]) s1 K) as (recs & s' & E2 & St & V2 & O2).
    { intros k Hk. unfold attached_here. rewrite O by (intros ->; exact (Hu Hk)). apply Ha. right. exact Hk. }
    exists (r :: recs), s'. cbn [detach_pass].
    rewrite (bind_result _ _ _ r) by (unfold mresult; rewrite E1; reflexivity).
    unfold mstate. rewrite E1. cbn [snd]. rewrite E2, <- app_assoc. split; [reflexivity|].
    split; [cbn [map]; eapply story_told; eassumption|]. split; [congruence|].
    intros k Hk. cbn [In] in Hk. rewrite O2 by tauto. apply O. intros ->. tauto.
Qed.

(** ** The probes *)

(** A row written by a probe, then perhaps by a chip's identity. *)
Lemma written_told d e r r2 d2 : keys_ok d2 -> get (dr_uid e) d = Some e -> locally_attached e = true ->
  get (dr_uid e) d2 = Some r2 -> (forall k, k <> dr_uid e -> get k d2 = get k d) ->
  dr_uid r2 = dr_uid e -> dr_host r = dr_host e -> dr_port r = dr_port e -> dr_vid_pid r = dr_vid_pid e ->
  In (dr_state r) PROBED_STATES ->
  dr_host r2 = dr_host r -> dr_port r2 = dr_port r -> dr_vid_pid r2 = dr_vid_pid r -> dr_state r2 = dr_state r ->
  told d d2 EVENT_IDENTITY r2.
Proof.
  intros K Hg Hl G O U H1 H2 H3 Hs C1 C2 C3 C4. pose proof (attached_cases e Hl) as (A1 & A2 & A3).
  apply (ToldIdentity _ _ r2 e); rewrite ?U; try congruence.
  - split; [exact K|]. rewrite U. auto.
  - apply attached_when; [congruence| |].
    + rewrite C4. intros X. rewrite X in Hs. destruct Hs as [Y|[Y|[Y|[]]]]; discriminate Y.
    + unfold is_virtual in *. congruence.
Qed.

Lemma record_outcome_told uid result chip s e : keys_ok (dm_db s) -> get uid (dm_db s) = Some e -> locally_attached e = true ->
  exists r s', record_outcome E uid result chip s = (Ok tt, s') /\
    told (dm_db s) (dm_db s') EVENT_IDENTITY r /\ dm_events s' = dm_events s ++ [(EVENT_IDENTITY, r)].
Proof.
  intros Hd Hg Hl. pose proof (get_uid _ _ _ Hg) as U. unfold record_outcome.
  rewrite bind_run. unfold read at 1. rewrite bind_run. unfold mget at 1.
  set (now := e_wall E (dm_tick s)). set (s1 := tick s).
  set (blank := bool_decide (result = None) && bool_decide (dget uid (dm_flash_pending s1) <> None)).
  set (f := if blank then row_silent STATE_CONNECTED_NO_FIRMWARE ERROR_NOTE_KNOWN_BLANK now
            else match result with Some p => row_probed p now
                 | None => row_silent STATE_ATTACHED_NO_ANNOUNCE ERROR_NOTE_NO_ANNOUNCEMENT now end).
  assert (Ew : (if blank then in_store (apply_known_blank uid now) else in_store (apply_probe_result uid result now)) =
    in_store (update_existing uid f)) by (unfold f; destruct blank; reflexivity).
  assert (Hf : keeps_uid f) by (intros x; unfold f; destruct blank; [|destruct result]; reflexivity).
  assert (Hrow : dr_host (f e) = dr_host e /\ dr_port (f e) = dr_port e /\ dr_vid_pid (f e) = dr_vid_pid e /\ In (dr_state (f e)) PROBED_STATES).
  { unfold f, PROBED_STATES. destruct blank; [|destruct result]; cbn; auto 10. }
  destruct Hrow as (R1 & R2 & R3 & R4).
  rewrite bind_run, Ew. unfold in_store at 1. change (dm_db s1) with (dm_db s).
  rewrite update_existing_run by exact Hf. rewrite Hg.
  set (d1 := set_devices (tupd dr_uid uid f (devices (dm_db s))) (dm_db s)).
  assert (G1 : get uid d1 = Some (f e)) by (unfold d1; rewrite get_tupd, bool_decide_eq_true_2, Hg by (exact Hf || reflexivity); reflexivity).
  assert (O1 : forall k, k <> uid -> get k d1 = get k (dm_db s))
    by (intros k Hk; unfold d1; rewrite get_tupd, bool_decide_eq_false_2 by (exact Hf || congruence); reflexivity).
  assert (K1 : keys_ok d1) by (apply keys_tupd; assumption).
  rewrite bind_run. unfold mmodify at 1.
  set (s2 := with_flash_pending _ _).
  assert (Hchip : exists r2 d2, match chip with Some (name, serial) => in_store (set_chip_identity uid name serial) | None => mret (f e) end s2 =
      (Ok r2, with_db d2 s2) /\ keys_ok d2 /\ get uid d2 = Some r2 /\ (forall k, k <> uid -> get k d2 = get k d1) /\
      dr_uid r2 = dr_uid (f e) /\ dr_host r2 = dr_host (f e) /\ dr_port r2 = dr_port (f e) /\ dr_vid_pid r2 = dr_vid_pid (f e) /\
      dr_state r2 = dr_state (f e)).
  { destruct chip as [[name serial]|].
    - unfold in_store. change (dm_db s2) with d1. rewrite set_chip_identity_run, G1.
      destruct (dr_chip_identity_name (f e)).
      + exists (f e), d1. split; [reflexivity|]. auto 10.
      + eexists _, _. split; [reflexivity|]. assert (Hc : keeps_uid (row_chip name serial)) by (intros x; reflexivity).
        split; [apply (keys_tupd d1 uid (row_chip name serial)); assumption|].
        split; [rewrite get_tupd, bool_decide_eq_true_2, G1 by (exact Hc || reflexivity); reflexivity|].
        split; [intros k Hk; rewrite get_tupd, bool_decide_eq_false_2 by (exact Hc || congruence); reflexivity|]. repeat split.
    - exists (f e), d1. split; [reflexivity|]. auto 10. }
  destruct Hchip as (r2 & d2 & E2 & K2 & G2 & O2 & C0 & C1 & C2 & C3 & C4).
  rewrite bind_run, E2. exists r2, (log_event (EVENT_IDENTITY, r2) (with_db d2 s2)).
  split; [reflexivity|]. split; [|reflexivity].
  apply (written_told _ e (f e)); try congruence; rewrite ?U; try assumption.
  intros k Hk. change (dm_db (log_event _ _)) with d2. rewrite O2, O1 by exact Hk. reflexivity.
Qed.

(** Past the other threads. *)
Lemma others_run (Hq : quiet_threads) {A} (k : M dstate A) s : keys_ok (dm_db s) ->
  exists s', same_own (dm_db s) (dm_db s') /\ dm_events s' = dm_events s /\ (e_other_threads E ;;! k) s = k s'.
Proof.
  intros Hd. destruct (Hq s Hd) as (H1 & H2 & H3). exists (mstate (e_other_threads E) s).
  split; [exact H2|]. split; [exact H3|]. exact (bind_result _ (fun _ => k) _ tt H1).
Qed.

Lemma same_own_attached d d' u : same_own d d' -> attached_here u d -> attached_here u d'.
Proof. intros [_ H]. unfold attached_here. rewrite H. auto. Qed.

Lemma told_attached d d' r u : told d d' EVENT_IDENTITY r -> attached_here u d -> attached_here u d'.
Proof.
  intros Ht Ha. destruct (decide (u = dr_uid r)) as [->|Hne].
  - apply attached_row. exists r. split; [exact (proj1 (proj2 (told_changed _ _ _ _ Ht)))|]. remember EVENT_IDENTITY as t.
    destruct Ht; [assumption|discriminate Heqt|assumption].
  - unfold attached_here. rewrite (proj2 (proj2 (told_changed _ _ _ _ Ht)) u Hne). exact Ha.
Qed.

(** What a probe adds: nothing, or the event of its outcome. *)
Definition identified (s s' : dstate) : Prop :=
  exists recs, story (dm_db s) (map (pair EVENT_IDENTITY) recs) (dm_db s') /\
    dm_events s' = dm_events s ++ map (pair EVENT_IDENTITY) recs /\
    forall u, attached_here u (dm_db s) -> attached_here u (dm_db s').

Lemma identified_same s s' : same_own (dm_db s) (dm_db s') -> dm_events s' = dm_events s -> identified s s'.
Proof.
  intros H1 H2. exists []. cbn. rewrite app_nil_r. split; [apply story_end, H1|]. split; [exact H2|].
  intros u. exact (same_own_attached _ _ u H1).
Qed.

Lemma identified_trans s1 s2 s3 : identified s1 s2 -> identified s2 s3 -> identified s1 s3.
Proof.
  intros (l1 & S1 & V1 & A1) (l2 & S2 & V2 & A2). exists (l1 ++ l2). rewrite map_app.
  split; [exact (story_app _ _ _ _ _ S1 S2)|]. split; [rewrite V2, V1, app_assoc; reflexivity|]. auto.
Qed.

Lemma swd_fallback_same (Hq : quiet_threads) u res s : keys_ok (dm_db s) ->
  exists chip s', swd_fallback E u res s = (Ok chip, s') /\ same_own (dm_db s) (dm_db s') /\ dm_events s' = dm_events s.
Proof.
  intros Hd. unfold swd_fallback. destruct (match res with None => true | Some r => _ end);
    [|exists None, s; split; [reflexivity|]; split; [apply same_own_refl, Hd|reflexivity]].
  rewrite bind_run. unfold mget at 1. cbv zeta.
  destruct (match get u (dm_db s) with Some e => _ | None => false end);
    [|exists None, s; split; [reflexivity|]; split; [apply same_own_refl, Hd|reflexivity]].
  destruct (others_run Hq (mmodify (log_swd u) ;;! session <-! read (fun t => e_swd E t u) ;;
    mret (read_chip_identity session DEFAULT_TARGET_MCU)) s Hd) as (s1 & S1 & V1 & E1).
  rewrite E1. eexists _, _. split; [reflexivity|]. split; [exact S1|exact V1].
Qed.

Lemma maybe_probe_told (Hq : quiet_threads) u i s : keys_ok (dm_db s) -> attached_here u (dm_db s) ->
  exists s', maybe_probe E u i s = (Ok tt, s') /\ identified s s'.
Proof.
  intros Hd Ha. pose proof (proj1 (attached_row _ _) Ha) as (e & Hg & _). rewrite maybe_probe_run, Hg.
  destruct (_ && _); [|exists s; split; [reflexivity|]; apply identified_same; [apply same_own_refl, Hd|reflexivity]].
  unfold probe_and_record.
  match goal with |- context [mbind (e_other_threads E) (fun _ => ?k) s] => destruct (others_run Hq k s Hd) as (s1 & S1 & V1 & E1) end.
  rewrite E1, bind_run. clear E1.
  set (script := e_port E (dm_tick s1) (pi_port i)). set (res := fst (probe script true true)).
  set (s2 := log_port (u, snd (probe script true true)) (tick s1)).
  change (probe_port E u i s1) with (Ok res, s2). cbv beta iota.
  assert (K2 : keys_ok (dm_db s2)) by exact (proj1 S1).
  match goal with |- context [mbind (e_other_threads E) (fun _ => ?k) s2] => destruct (others_run Hq k s2 K2) as (s3 & S3 & V3 & E3) end.
  rewrite E3, bind_run. clear E3.
  destruct (swd_fallback_same Hq u res s3 (proj1 S3)) as (chip & s4 & E4 & S4 & V4). rewrite E4. cbv beta iota. clear E4.
  match goal with |- context [mbind (e_other_threads E) (fun _ => ?k) s4] => destruct (others_run Hq k s4 (proj1 S4)) as (s5 & S5 & V5 & E5) end.
  rewrite E5. clear E5.
  assert (S : same_own (dm_db s) (dm_db s5)) by (eapply same_own_trans; [exact S1|]; eapply same_own_trans; [exact S3|]; eapply same_own_trans; eassumption).
  assert (V : dm_events s5 = dm_events s) by (change (dm_events s2) with (dm_events s1) in V3; congruence).
  pose proof (same_own_attached _ _ u S Ha) as Ha5. apply attached_row in Ha5 as (e5 & Hg5 & Hl5).
  destruct (record_outcome_told u res chip s5 e5 (proj1 S) Hg5 Hl5) as (r & s6 & E6 & T6 & V6).
  exists s6. split; [exact E6|]. eapply identified_trans; [apply identified_same; eassumption|].
  exists [r]. split; [apply story_one, T6|]. split; [exact V6|]. intros k. exact (told_attached _ _ _ k T6).
Qed.

Lemma probe_pass_told (Hq : quiet_threads) current owned : forall s, keys_ok (dm_db s) ->
  (forall u, In u owned -> dget u current <> None /\ attached_here u (dm_db s)) ->
  exists s', probe_pass E current owned s = (Ok tt, s') /\ identified s s'.
Proof.
  induction owned as [|u owned IH]; intros s Hd H.
  - exists s. split; [reflexivity|]. apply identified_same; [apply same_own_refl, Hd|reflexivity].
  - destruct (H u (or_introl eq_refl)) as [Hc Ha]. cbn [probe_pass]. destruct (dget u current) as [i|]; [|congruence].
    destruct (maybe_probe_told Hq u i s Hd Ha) as (s1 & E1 & (recs & S1 & V1 & A1)).
    destruct (IH s1 (story_keys _ _ _ S1)) as (s2 & E2 & I2).
    { intros k Hk. destruct (H k (or_intror Hk)). auto. }
    exists s2. rewrite bind_run, E1, E2. split; [reflexivity|]. eapply identified_trans; [|exact I2]. exists recs. auto.
Qed.

(** ** A whole cycle *)

Lemma fire_events_run t l : forall s, exists s', fire_events t l s = (Ok tt, s') /\ dm_db s' = dm_db s /\
  dm_events s' = dm_events s ++ map (pair t) l.
Proof.
  unfold fire_events. induction l as [|r l IH]; intros s; [exists s; cbn; rewrite app_nil_r; auto|].
  cbn [mfor]. rewrite bind_run. unfold mmodify at 1. destruct (IH (log_event (t, r) s)) as (s' & E1 & E2 & E3).
  exists s'. rewrite E1, E2, E3. cbn. rewrite <- app_assoc. auto.
Qed.

Context (set_order_perm : forall l, e_set_order E l ≡ₚ l).
Context (clock_runs : forall t t', (t <= t')%nat -> e_mono E t <= e_mono E t').
Context (some_time : 0 < e_flash_reprobe_timeout_s E).
Context (Hq : quiet_threads).

Lemma locked_pass_told current s : keys_ok (dm_db s) -> calm_cycle current s ->
  exists owned att det s', locked_pass E current (e_mono E (dm_tick s)) (tick s) = (Ok (owned, att, det, []), s') /\
    story (dm_db s) (map (pair EVENT_ATTACH) att ++ map (pair EVENT_DETACH) det) (dm_db s') /\
    dm_events s' = dm_events s /\
    forall u, In u owned -> dget u current <> None /\ attached_here u (dm_db s').
Proof.
  intros Hd ((ports & ->) & Hrows & Hpend). set (current := scan ports) in *.
  set (prev := previously_attached (dm_db s)). set (owned0 := present current (tick s)). set (gone := missing current (tick s)).
  assert (Hprev : forall u, In u prev <-> attached_here u (dm_db s)).
  { intros u. unfold prev. rewrite previously_attached_in, attached_row by exact Hd. reflexivity. }
  assert (Hown : forall u, In u owned0 -> dget u current <> None /\ In u prev).
  { intros u. unfold owned0, present. rewrite filter_In, bool_decide_eq_true. tauto. }
  assert (Hgone : forall u, In u gone -> dget u current = None /\ In u prev).
  { intros u. unfold gone, missing. rewrite filter_In, bool_decide_eq_true. tauto. }
  destruct (attach_pass_told prev current (scan_unique ports) (scan_hardware ports) owned0 [] (tick s) Hd)
    as (att & s1 & E1 & S1 & V1 & F1 & T1 & A1 & O1).
  { intros u i r Hi Hn Hg. destruct (Hrows u i r Hi Hg) as [Hv Hh]. destruct (is_disconnected r) eqn:Hdis; [reflexivity|].
    exfalso. apply Hn, list_elem_of_In, Hprev, attached_row. exists r. split; [exact Hg|].
    destruct Hh as [Hh|Hh]; [|discriminate Hh]. unfold locally_attached. rewrite Hh, Hdis, Hv, bool_decide_eq_true_2 by reflexivity. reflexivity. }
  change (dm_db (tick s)) with (dm_db s) in *. rewrite List.Forall_forall in A1.
  assert (Hold : forall u, In u prev -> get u (dm_db s1) = get u (dm_db s)).
  { intros u Hu. apply O1. intros Hi. apply in_map_iff in Hi as (r & <- & Hr). destruct (A1 r Hr) as [Hn _].
    apply Hn, list_elem_of_In, Hu. }
  assert (Hperm : forall u, In u (e_set_order E gone) <-> In u gone) by (intros u; rewrite <- !list_elem_of_In, (set_order_perm gone); reflexivity).
  destruct (detach_pass_told (e_set_order E gone)) with (detached := @nil DeviceRecord) (s := s1) as (det & s2 & E2 & S2 & V2 & O2).
  { rewrite set_order_perm. apply nodup_filter, previously_attached_nodup, Hd. }
  { exact (story_keys _ _ _ S1). }
  { intros u Hu. apply Hperm, Hgone in Hu as [_ Hu]. unfold attached_here. rewrite (Hold u Hu). apply Hprev, Hu. }
  exists (owned0 ++ map dr_uid att), att, det, s2.
  split; [|split; [exact (story_app _ _ _ _ _ S1 S2)|split; [rewrite V2, V1; reflexivity|]]].
  - unfold locked_pass. rewrite bind_run. unfold mgets at 1. change (dm_db (tick s)) with (dm_db s). fold prev.
    cbv zeta. fold owned0 gone. change (List.filter _ prev) with owned0 at 1.
    rewrite bind_run. change (List.filter (fun u => bool_decide (dget u current = None)) prev) with gone.
    rewrite E1. cbn [app]. rewrite bind_run, E2. cbn [app]. rewrite bind_run. unfold mgets at 1. rewrite bind_run.
    rewrite timeout_pass_none; [reflexivity|]. intros u dl Hi.
    destruct (detach_pass_pending E (e_set_order E gone) [] s1) as [_ Hp]. unfold mstate in Hp. rewrite E2 in Hp.
    destruct (Hp u dl Hi) as [Hi'|(t & Ht & ->)]; [rewrite F1 in Hi'; exact (Hpend u dl Hi')|right].
    cbn in T1. pose proof (clock_runs (dm_tick s) t ltac:(lia)). lia.
  - intros u Hu. apply in_app_iff in Hu as [Hu|Hu].
    + apply Hown in Hu as [Hc Hu]. split; [exact Hc|]. unfold attached_here.
      rewrite O2, (Hold u Hu); [apply Hprev, Hu|]. intros Hg. apply Hperm, Hgone in Hg as [Hg _]. exact (Hc Hg).
    + apply in_map_iff in Hu as (r & <- & Hr). destruct (A1 r Hr) as (Hn & Hc & Ha). split; [exact Hc|]. unfold attached_here.
      rewrite O2; [exact Ha|]. intros Hg. apply Hperm, Hgone in Hg as [Hg _]. exact (Hc Hg).
Qed.

(** A calm cycle returns, and its events tell what it did. *)
Lemma run_once_told current s : keys_ok (dm_db s) -> calm_cycle current s ->
  exists l s', run_once E current s = (Ok tt, s') /\ story (dm_db s) l (dm_db s') /\ dm_events s' = dm_events s ++ l.
Proof.
  intros Hd Hc. destruct (locked_pass_told current s Hd Hc) as (owned & att & det & s1 & E1 & S1 & V1 & H1).
  unfold run_once. rewrite bind_run. unfold read at 1. rewrite bind_run, E1. cbv beta iota zeta.
  match goal with |- context [mbind (e_other_threads E) (fun _ => ?k) s1] =>
    destruct (others_run Hq k s1 (story_keys _ _ _ S1)) as (s2 & S2 & V2 & E2) end.
  rewrite E2. clear E2.
  destruct (fire_events_run EVENT_ATTACH att s2) as (s3 & E3 & D3 & V3).
  destruct (fire_events_run EVENT_DETACH det s3) as (s4 & E4 & D4 & V4).
  change "attach" with EVENT_ATTACH. change "detach" with EVENT_DETACH.
  rewrite bind_run, E3, bind_run, E4, bind_run. change (fire_events "identity" [] s4) with (Ok tt, s4). cbv beta iota.
  assert (D : dm_db s4 = dm_db s2) by congruence.
  destruct (probe_pass_told Hq current (e_set_order E owned) s4) as (s5 & E5 & (ids & S5 & V5 & _)).
  { rewrite D. exact (proj1 S2). }
  { intros u Hu. assert (Hu' : In u owned) by (apply list_elem_of_In in Hu; rewrite set_order_perm in Hu; apply list_elem_of_In, Hu).
    destruct (H1 u Hu') as [Hcu Ha]. split; [exact Hcu|]. rewrite D. exact (same_own_attached _ _ u S2 Ha). }
  exists (map (pair EVENT_ATTACH) att ++ map (pair EVENT_DETACH) det ++ map (pair EVENT_IDENTITY) ids), s5.
  split; [exact E5|]. split.
  - rewrite app_assoc. eapply story_app; [exact S1|]. eapply story_same; [exact S2|]. rewrite <- D. exact S5.
  - rewrite V5, V4, V3, V2, V1, <- !app_assoc. reflexivity.
Qed.

(** Every cycle of a run is calm when it starts. *)
Fixpoint calm (scans : list (bool * list (string * PortInfo) * bool)) (s : dstate) : Prop :=
  match scans with
  | [] => True
  | (stop1, current, stop2) :: rest =>
      stop1 = true \/ calm_cycle current s /\ (stop2 = true \/ calm rest (mstate (run_once E current) s))
  end.

Lemma run_told scans : forall s, keys_ok (dm_db s) -> calm scans s ->
  exists l s', run E scans s = (Ok tt, s') /\ story (dm_db s) l (dm_db s') /\ dm_events s' = dm_events s ++ l.
Proof.
  assert (Hstop : forall s, keys_ok (dm_db s) -> exists l s', (Ok tt, s) = (Ok tt, s') /\ story (dm_db s) l (dm_db s') /\
    dm_events s' = dm_events s ++ l).
  { intros s Hd. exists [], s. rewrite app_nil_r. split; [reflexivity|]. split; [apply story_end, same_own_refl, Hd|reflexivity]. }
  induction scans as [|[[stop1 current] stop2] rest IH]; intros s Hd Hc; [apply Hstop, Hd|].
  cbn [run calm] in *. destruct stop1; [apply Hstop, Hd|]. destruct Hc as [Hc|[Hc Hrest]]; [discriminate Hc|].
  destruct (run_once_told current s Hd Hc) as (l & s1 & E1 & S1 & V1). rewrite bind_run, E1.
  unfold mstate in Hrest. rewrite E1 in Hrest. cbn [snd] in Hrest.
  destruct stop2; [exists l, s1; auto|]. destruct Hrest as [Hrest|Hrest]; [discriminate Hrest|].
  destruct (IH s1 (story_keys _ _ _ S1) Hrest) as (l2 & s2 & E2 & S2 & V2).
  exists (l ++ l2), s2. split; [exact E2|]. split; [exact (story_app _ _ _ _ _ S1 S2)|]. rewrite V2, V1, app_assoc. reflexivity.
Qed.
End Cycle.

(** ** At the peer *)

(** The messages of a link, each with the time it is applied at. *)
Definition receive (host : string) (inbox : list (json * Z)) : M db unit :=
  mfor inbox (fun m => recv_message host (Some m.1) m.2).

(** What the callback sends of the events of a story: one message each. *)
Definition message_of (host : string) (e : string * DeviceRecord) : json := JObj (event_message host e.1 e.2).

Lemma told_sent host d d' t r sent : told d d' t r ->
  mstate (publish_daemon_event host t r) (Some sent) = Some (sent ++ [message_of host (t, r)]).
Proof.
  intros Ht. assert (Hv : is_virtual r = false /\ exists p, daemon_event_payload t r = Some p).
  { destruct Ht as [r _ Hl _|r e _ Hv _ _ _|r e _ Hl _ _ _ _ _].
    - destruct (attached_cases r Hl) as (_ & Hd & Hv). apply String.eqb_neq in Hd. split; [exact Hv|].
      unfold daemon_event_payload. rewrite Hd, andb_false_r. eauto.
    - split; [exact Hv|]. unfold daemon_event_payload. change (String.eqb EVENT_DETACH EVENT_ATTACH || String.eqb EVENT_DETACH EVENT_IDENTITY) with false. cbn [andb]. eauto.
    - destruct (attached_cases r Hl) as (_ & Hd & Hv). apply String.eqb_neq in Hd. split; [exact Hv|].
      unfold daemon_event_payload. rewrite Hd, andb_false_r. eauto. }
  destruct Hv as [Hv (p & Hp)]. pose proof (sent_to_peers host (DeviceChange t r) sent) as H. cbn [pub_half stays_here event_of_change for_peers] in H.
  rewrite H, Hv, Hp. unfold message_of, event_message. cbn [fst snd]. rewrite Hp. reflexivity.
Qed.

Lemma event_callback_pub host t r f : mresult (event_callback host true t r) f = Ok tt /\
  fn_pub (mstate (event_callback host true t r) f) = mstate (publish_daemon_event host t r) (fn_pub f).
Proof.
  pose proof (call_back_halves host true (DeviceChange t r) f) as H. cbn [call_back pub_half] in H.
  unfold mresult, mstate at 1. rewrite H. split; reflexivity.
Qed.

Lemma story_published host d l d' : story d l d' -> forall f sent, fn_pub f = Some sent ->
  fn_pub (mstate (mfor l (fun e => event_callback host true e.1 e.2)) f) = Some (sent ++ map (message_of host) l).
Proof.
  induction 1 as [d d' _|d d1 d2 t r l Ht _ IH|d d1 d2 l _ _ IH]; intros f sent Hf.
  - cbn. rewrite app_nil_r. exact Hf.
  - cbn [mfor map fst snd]. destruct (event_callback_pub host t r f) as [H1 H2].
    change (message_of host (t, r) :: map (message_of host) l) with ([message_of host (t, r)] ++ map (message_of host) l).
    unfold mstate at 1. rewrite (bind_result _ _ _ tt H1). rewrite app_assoc. apply IH.
    rewrite H2, Hf. exact (told_sent host d d1 t r sent Ht).
  - apply IH. exact Hf.
Qed.

Lemma quiet_try (m : M db unit) b : mresult (mtry m (fun _ => Some (mret tt))) b = Ok tt.
Proof. unfold mresult, mtry. destruct (m b) as [[[]|e] b']; reflexivity. Qed.

Lemma recv_returns host m now b : mresult (recv_message host m now) b = Ok tt.
Proof. apply quiet_try. Qed.

Lemma story_received host d l d' : story d l d' -> forall b inbox, in_step host d b -> map fst inbox = map (message_of host) l ->
  in_step host d' (mstate (receive host inbox) b).
Proof.
  induction 1 as [d d' Hs|d d1 d2 t r l Ht _ IH|d d1 d2 l Hs _ IH]; intros b inbox Hb Hi.
  - destruct inbox; [|discriminate Hi]. exact (in_step_same host d d' b Hs Hb).
  - destruct inbox as [|[m now] inbox]; [discriminate Hi|]. injection Hi as -> Hi.
    unfold receive, mstate. cbn [mfor fst snd]. rewrite (bind_result _ _ _ tt (recv_returns _ _ _ _)).
    apply (IH _ inbox); [|exact Hi]. exact (told_delivered host d d1 t r now b Hb Ht).
  - apply IH; [exact (in_step_same host d d1 b Hs Hb)|exact Hi].
Qed.

Lemma in_snapshot r s : keys_ok s -> In r (snapshot_local_devices s) <-> get (dr_uid r) s = Some r /\ locally_attached r = true.
Proof.
  intros Hs. unfold snapshot_local_devices. rewrite !filter_In. unfold locally_attached, is_disconnected.
  rewrite !andb_true_iff. split.
  - intros ((Hi & H1 & H2) & H3). split; [apply tfind_unique; [apply Hs|exact Hi]|auto].
  - intros (Hg & (H1 & H2) & H3). split; [|exact H3]. split; [exact (tfind_in _ _ _ _ Hg)|auto].
Qed.

(** A snapshot puts its receiver in step with its sender. *)
Lemma snapshot_in_step clock host sender token message reply s :
  keys_ok sender -> keys_ok (p_db s) ->
  rep_reply token message sender = JObj reply -> dget "error" reply = None ->
  in_step host sender (p_db (mstate (apply_snapshot clock host reply) s)).
Proof.
  intros Hsend Hs Hrep Herr. destruct (snapshot_applied clock host sender token message reply s Hsend Hs Hrep Herr) as (_ & H1 & H2).
  split; [exact (proj1 (snapshot_steps clock host reply s Hs))|]. intros k.
  destruct (wire_row (get k sender)) as [w|] eqn:Hw.
  - assert (Ha : attached_here k sender) by (unfold attached_here; rewrite Hw; discriminate).
    apply attached_row in Ha as (r & Hg & Hl). unfold mirrors. rewrite Hg, Hl. pose proof (get_uid _ _ _ Hg) as <-.
    specialize (H1 r (proj2 (in_snapshot r sender Hsend) (conj Hg Hl))). unfold replica in H1.
    destruct (get (dr_uid r) (p_db s)) as [e|]; [|right; exact H1].
    destruct (rejects_claim (Some host) e) eqn:Hr; [left; eauto|right; exact H1].
  - apply (mirrors_ext host None); [exact Hw|]. unfold mirrors, not_live. intros e He Hh.
    assert (Hk : ~ In k (map dr_uid (snapshot_local_devices sender))).
    { intros Hi. apply in_map_iff in Hi as (r & <- & Hr). apply in_snapshot in Hr as [Hg Hl]; [|exact Hsend].
      unfold wire_row in Hw. rewrite Hg, Hl in Hw. discriminate. }
    specialize (H2 k Hk). destruct (get k (p_db s)) as [e0|]; [|congruence].
    destruct (bool_decide_reflect (dr_host e0 = Some host)) as [Hh0|Hh0]; cbn [andb] in H2; [|congruence].
    destruct (is_disconnected e0) eqn:Hdis; cbn [negb] in H2; [congruence|].
    destruct H2 as (now & H2). rewrite H2 in He. injection He as <-. reflexivity.
Qed.

(** ** Properties *)

(** C4: A peer that applied a snapshot of this host, and then every event
    the daemon's callback published over any number of calm cycles, in
    their order, is in step with the store these cycles left: it has a copy
    (port, state, announcement) of each board attached here, unless it has
    that board attached itself, and no other board is attached here in its
    table.  Whatever the peer's table was, whatever the ports, the probes
    and the debug sessions answer, and whatever other threads do to what is
    not a board attached here. *)
Theorem peers_stay_in_step E scans s host token message reply clock p f sent :
  (forall l, e_set_order E l ≡ₚ l) -> (forall t t', (t <= t')%nat -> e_mono E t <= e_mono E t') ->
  0 < e_flash_reprobe_timeout_s E -> quiet_threads E ->
  keys_ok (dm_db s) -> calm E scans s -> keys_ok (p_db p) ->
  rep_reply token message (dm_db s) = JObj reply -> dget "error" reply = None ->
  fn_pub f = Some sent ->
  let s' := mstate (run E scans) s in
  mresult (run E scans) s = Ok tt /\
  exists events messages, dm_events s' = dm_events s ++ events /\
    fn_pub (mstate (mfor events (fun e => event_callback host true e.1 e.2)) f) = Some (sent ++ messages) /\
    forall inbox, map fst inbox = messages ->
      in_step host (dm_db s') (mstate (receive host inbox) (p_db (mstate (apply_snapshot clock host reply) p))).
Proof.
  intros Hperm Hclock Htime Hq Hs Hcalm Hp Hrep Herr Hf.
  destruct (run_told E Hperm Hclock Htime Hq scans s Hs Hcalm) as (l & s' & E1 & S1 & V1).
  assert (Es : mstate (run E scans) s = s') by (unfold mstate; rewrite E1; reflexivity).
  cbv zeta. rewrite Es. split; [unfold mresult; rewrite E1; reflexivity|].
  exists l, (map (message_of host) l). split; [exact V1|]. split; [exact (story_published host _ _ _ S1 f sent Hf)|].
  intros inbox Hi. apply (story_received host _ _ _ S1); [|exact Hi].
  exact (snapshot_in_step clock host _ token message reply p Hs Hp Hrep Herr).
Qed.

(** ** A board plugged in, identified and unplugged, and the peer that sees it *)

Definition bench_ports : list comport := [mkComport (Some 3368) (Some 516) (Some "u1") "/dev/ttyACM0"].
Definition bench_scans : list (bool * list (string * PortInfo) * bool) :=
  [(false, scan bench_ports, false); (false, scan bench_ports, true)].

Lemma example_quiet : quiet_threads example_env.
Proof. intros s Hs. split; [reflexivity|]. split; [exact (same_own_refl _ Hs)|reflexivity]. Defined.

Lemma bench_calm : calm example_env bench_scans (initial empty_db).
Proof.
  right. split.
  - split; [exists bench_ports; reflexivity|]. split; [intros u i r _ H; vm_compute in H; discriminate H|intros u dl []].
  - right. right. split; [|left; reflexivity]. split; [exists bench_ports; reflexivity|]. split.
    + intros u i r [H|[]] Hg. injection H as <- <-. vm_compute in Hg. injection Hg as <-. split; [reflexivity|left; reflexivity].
    + intros u dl Hi. exfalso. vm_compute in Hi. exact Hi.
Defined.

Definition peer_state : pstate := mkPstate loki 0 false false false empty_bus.

Lemma peers_stay_in_step_witness :
  let s' := mstate (run example_env bench_scans) (initial empty_db) in
  exists events messages, dm_events s' = events /\ length messages = 2%nat /\
    fn_pub (mstate (mfor events (fun e => event_callback "thor" true e.1 e.2)) (mkFan empty_bus (Some []))) = Some messages /\
    in_step "thor" (dm_db s') (mstate (receive "thor" (map (fun m => (m, 9)) messages))
      (p_db (mstate (apply_snapshot (fun n => Z.of_nat n) "thor" [("devices", JList []); ("names", JList [])]) peer_state))).
Proof.
  destruct (peers_stay_in_step example_env bench_scans (initial empty_db) "thor" None None
    [("devices", JList []); ("names", JList [])] (fun n => Z.of_nat n) peer_state (mkFan empty_bus (Some [])) [])
    as (_ & events & messages & H1 & H2 & H3); try reflexivity.
  - intros t t' Ht. cbn. lia.
  - exact example_quiet.
  - unfold keys_ok, unique. repeat split; apply (bool_decide_unpack _); vm_compute; exact I.
  - exact bench_calm.
  - exact loki_keys.
  - exists events, messages. split; [exact H1|]. split; [|split; [exact H2|]].
    + assert (E0 : events = dm_events (mstate (run example_env bench_scans) (initial empty_db))) by (symmetry; exact H1).
      rewrite E0 in H2. vm_compute in H2. injection H2 as <-. reflexivity.
    + apply H3. rewrite map_map. cbn [fst]. apply map_id.
Defined.

(** A flash whose board never comes back: when its time is out the absent
    board is recorded as one without firmware, attached, and the next cycle
    detaches it a second time. *)
Definition flashed_away : dstate :=
  let host := daemon_host example_env in
  let s1 := mstate (@acquire dstate host "u1" KIND_FLASH flash_holder None 0) attached_state in
  mstate (run_once example_env []) (mstate (@release dstate host "u1" flash_holder) s1).

Example expired_flash_flickers :
  let s2 := mstate (run_once example_env []) flashed_away in
  let s3 := mstate (run_once example_env []) s2 in
  let s4 := mstate (run_once example_env []) s3 in
  map (fun s => option_map dr_state (get "u1" (dm_db s))) [flashed_away; s2; s3; s4] =
    [Some STATE_DISCONNECTED; Some STATE_CONNECTED_NO_FIRMWARE; Some STATE_DISCONNECTED; Some STATE_DISCONNECTED] /\
  map fst (dm_events s4) = ["attach"; "identity"; "detach"; "identity"; "detach"].
Proof. vm_compute. split; reflexivity. Qed.
