(* ===== verification/Assembly.v ===== *)
(** * [registry/cli.py]: what a registry is assembled of

    The objects [assemble_registry] and the functions beside it make, with
    what each is given of the others: a heap of objects, the constructors'
    own defaults (a lock, a bus of its own when none is given) and the
    callbacks as the closures they are.  Seams that only tests use (fake
    ports, clocks, modules) keep their defaults, and fields a constructor
    only fills for later are not listed. *)

From S2P Require Import Prelude Tables Json Store EventBus Peering Paths RegistryCli RegistryRun.
Local Open Scope py_scope.

(** ** Objects *)

Abbreviation ref := nat.

(** A bound method or a closure. *)
Inductive hook :=
| EventFanOut (host : string) (bus : ref) (peers : option ref)       (* [_event_callback] *)
| LockFanOut (host : string) (bus : ref) (peers : option ref)        (* [_lock_display_callback] *)
| NameSetFanOut (host : string) (bus : ref) (peers : option ref)
| NameClearFanOut (host : string) (bus : ref) (peers : option ref)
| OnFlashRelease (daemon : ref)
| PollVariable (variable : ref)                                      (* [daemon.run_once()], [daemon] looked up when called *)
| ResyncReachablePeers (peers : ref)
| PublishNameSet (peers : ref)
| PublishNameClear (peers : ref).

(** [build_claim_fn]'s filter. *)
Inductive claim_rule := NoClaim | Claiming (only exclude : list string).

Record Daemon_ := mkDaemon { da_store : ref; da_lock : ref; da_locks : ref; da_event : option hook; da_claim : claim_rule }.
Record LockManager_ := mkLockManager { lm_release : option hook; lm_display : option hook }.
Record FlashOp_ := mkFlashOp { fo_locks : ref; fo_store : ref }.
Record RegistryAPIServer_ := mkApiServer {
  as_socket : string; as_store : ref; as_locks : ref; as_flash : ref; as_lock : ref; as_bus : ref;
  as_name_set : option hook; as_name_clear : option hook; as_poll : option hook; as_resync : option hook; as_event : option hook }.
Record WindowsPipeAPIServer_ := mkPipeServer {
  ws_pipe : string; ws_store : ref; ws_locks : ref; ws_lock : ref;
  ws_name_set : option hook; ws_name_clear : option hook; ws_poll : option hook; ws_resync : option hook }.
Record RemoteAPIServer_ := mkRemoteServer {
  rs_port : Z; rs_store : ref; rs_locks : ref; rs_token : option string; rs_lock : ref; rs_bus : ref }.
Record PeerDiscovery_ := mkPeers {
  pe_store : ref; pe_host : string; pe_remote_port : Z; pe_pub_port : Z; pe_snapshot_port : Z; pe_lock : ref;
  pe_token : option string; pe_bus : option ref }.
Record RelayPool_ := mkPool {
  po_store : ref; po_locks : ref; po_port : Z; po_names_port : Z; po_host : string; po_lock : ref }.
Record NamesAPI_ := mkNames {
  na_store : ref; na_port : Z; na_lock : ref; na_name_set : option hook; na_name_clear : option hook }.

Inductive object :=
| OStore
| OLock
| OBus
| OVariable (value : option ref)
| ODaemon (d : Daemon_)
| OLocks (l : LockManager_)
| OFlashOp (f : FlashOp_)
| OApi (a : RegistryAPIServer_)
| OPipe (a : WindowsPipeAPIServer_)
| ORemote (r : RemoteAPIServer_)
| OPeers (p : PeerDiscovery_)
| OPool (p : RelayPool_)
| ONames (n : NamesAPI_).

(** Every object made, in order; the next reference is their number. *)
Abbreviation heap := (list object).

Definition new (o : object) : M heap ref := h <-! mget ;; mput (h ++ [o]) ;;! mret (length h).
Definition set_object (i : ref) (o : object) : M heap unit := mmodify (fun h => <[i := o]> h).

(** [x if x is not None else RLock()], and the like. *)
Definition given_or (x : option ref) (default : object) : M heap ref :=
  match x with Some i => mret i | None => new default end.

(** [daemon.locks]. *)
Definition daemon_locks (daemon : ref) : M heap ref :=
  h <-! mget ;;
  match h !! daemon with Some (ODaemon d) => mret (da_locks d) | _ => mraise AttributeError end.

(** ** Constructors *)

Definition make_lock_manager (release display : option hook) : M heap ref := new (OLocks (mkLockManager release display)).

(** A daemon's lock manager calls back the daemon. *)
Definition make_daemon (store : ref) (lock : option ref) (event display : option hook) (claim : claim_rule) : M heap ref :=
  self <-! new (OVariable None) ;;
  lock <-! given_or lock OLock ;;
  locks <-! make_lock_manager (Some (OnFlashRelease self)) display ;;
  set_object self (ODaemon (mkDaemon store lock locks event claim)) ;;!
  mret self.

Definition make_flash_op (locks store : ref) : M heap ref := new (OFlashOp (mkFlashOp locks store)).

Definition make_api_server (socket : string) (store locks flash : ref) (lock bus : option ref)
    (name_set name_clear poll resync event : option hook) : M heap ref :=
  bus <-! given_or bus OBus ;;
  lock <-! given_or lock OLock ;;
  new (OApi (mkApiServer socket store locks flash lock bus name_set name_clear poll resync event)).

Definition make_pipe_server (pipe : string) (store locks : ref) (lock : option ref) (name_set name_clear poll resync : option hook) : M heap ref :=
  lock <-! given_or lock OLock ;;
  new (OPipe (mkPipeServer pipe store locks lock name_set name_clear poll resync)).

Definition make_remote_server (port : Z) (store locks : ref) (token : option string) (lock bus : option ref) : M heap ref :=
  bus <-! given_or bus OBus ;;
  lock <-! given_or lock OLock ;;
  new (ORemote (mkRemoteServer port store locks token lock bus)).

Section Assembly.
(** The machine, and its name ([_short_hostname]). *)
Variable m : Paths.machine.
Variable hostname : string.

(** [host if host is not None else _short_hostname()]. *)
Definition host_or_own (host : option string) : string := instance_name host hostname.

Definition make_peer_discovery (store : ref) (host : option string) (remote_port pub_port snapshot_port : Z)
    (lock : option ref) (token : option string) (bus : option ref) : M heap ref :=
  lock <-! given_or lock OLock ;;
  new (OPeers (mkPeers store (host_or_own host) remote_port pub_port snapshot_port lock token bus)).

Definition make_relay_pool (store locks : ref) (port names_port : Z) (host : option string) (lock : option ref) : M heap ref :=
  lock <-! given_or lock OLock ;;
  new (OPool (mkPool store locks port names_port (host_or_own host) lock)).

Definition make_names_api (store : ref) (port : Z) (lock : option ref) (name_set name_clear : option hook) : M heap ref :=
  lock <-! given_or lock OLock ;;
  new (ONames (mkNames store port lock name_set name_clear)).

(** ** Assembly *)

Definition assemble_daemon_and_api (store : ref) (socket : string) (lock : option ref)
    (event display name_set name_clear : option hook) (claim : claim_rule) (pipe : option string) (bus : option ref)
    (poll resync : option hook) : M heap (ref * ref) :=
  shared_lock <-! given_or lock OLock ;;
  daemon <-! make_daemon store (Some shared_lock) event display claim ;;
  locks <-! daemon_locks daemon ;;
  if is_win32 (mc_platform m) then
    api <-! make_pipe_server match pipe with Some p => p | None => socket end store locks (Some shared_lock)
              name_set name_clear poll resync ;;
    mret (daemon, api)
  else
    flash <-! make_flash_op locks store ;;
    api <-! make_api_server socket store locks flash (Some shared_lock) bus name_set name_clear poll resync event ;;
    mret (daemon, api).

Record assembled := mkAssembled { ab_daemon : ref; ab_api : ref; ab_remote : ref; ab_peers : option ref }.

Definition assemble_registry (store : ref) (socket : string) (remote_port peer_pub_port peer_snapshot_port : Z)
    (token peering_host : option string) (lock : option ref) (claim : claim_rule) (pipe : option string) (no_peering : bool)
    : M heap assembled :=
  shared_lock <-! given_or lock OLock ;;
  eventbus <-! new OBus ;;
  let host_name := host_or_own peering_host in
  peers <-! (if no_peering then mret None
             else p <-! make_peer_discovery store peering_host remote_port peer_pub_port peer_snapshot_port
                          (Some shared_lock) token (Some eventbus) ;;
                  mret (Some p)) ;;
  variable <-! new (OVariable None) ;;
  da <-! assemble_daemon_and_api store socket (Some shared_lock)
           (Some (EventFanOut host_name eventbus peers)) (Some (LockFanOut host_name eventbus peers))
           (Some (NameSetFanOut host_name eventbus peers)) (Some (NameClearFanOut host_name eventbus peers))
           claim pipe (Some eventbus) (Some (PollVariable variable)) (option_map ResyncReachablePeers peers) ;;
  set_object variable (OVariable (Some da.1)) ;;!
  locks <-! daemon_locks da.1 ;;
  remote <-! make_remote_server remote_port store locks token (Some shared_lock) (Some eventbus) ;;
  mret (mkAssembled da.1 da.2 remote peers).

Definition assemble_relay_pool (store locks lock : ref) (port names_port : Z) (host : option string) : M heap ref :=
  make_relay_pool store locks port names_port host (Some lock).

Definition assemble_names_api (store lock : ref) (port : Z) (name_set name_clear : option hook) : M heap ref :=
  make_names_api store port (Some lock) name_set name_clear.

(** What [_run_registry] assembles; [names_bound] is the port the names
    API is bound to once started. *)
Record registry_objects := mkObjects {
  ro_store : ref; ro_lock : ref; ro_parts : assembled; ro_names : ref; ro_pool : option ref }.

Definition assemble_run (a : run_args) (cfg : settings) (socket : string) (only exclude : list string) (names_bound : Z)
    : M heap registry_objects :=
  store <-! new OStore ;;
  shared_lock <-! new OLock ;;
  parts <-! assemble_registry store socket (st_remote_port cfg) (st_peer_pub_port cfg) (st_peer_snapshot_port cfg)
              (st_auth_token cfg) (st_instance cfg) (Some shared_lock) (Claiming only exclude) (ra_pipe a) (ra_no_peering a) ;;
  names <-! assemble_names_api store shared_lock (st_names_port cfg)
              (option_map PublishNameSet (ab_peers parts)) (option_map PublishNameClear (ab_peers parts)) ;;
  pool <-! (if ra_no_relay_pool a then mret None
            else
              locks <-! daemon_locks (ab_daemon parts) ;;
              p <-! assemble_relay_pool store locks shared_lock (st_pool_port cfg) names_bound (st_instance cfg) ;;
              mret (Some p)) ;;
  mret (mkObjects store shared_lock parts names pool).
End Assembly.

(** ** What is shared *)

Definition store_of (o : object) : option ref :=
  match o with
  | ODaemon d => Some (da_store d) | OFlashOp f => Some (fo_store f) | OApi a => Some (as_store a) | OPipe a => Some (ws_store a)
  | ORemote r => Some (rs_store r) | OPeers p => Some (pe_store p) | OPool p => Some (po_store p) | ONames n => Some (na_store n)
  | _ => None
  end.

Definition lock_of (o : object) : option ref :=
  match o with
  | ODaemon d => Some (da_lock d) | OApi a => Some (as_lock a) | OPipe a => Some (ws_lock a) | ORemote r => Some (rs_lock r)
  | OPeers p => Some (pe_lock p) | OPool p => Some (po_lock p) | ONames n => Some (na_lock n)
  | _ => None
  end.

(** The table of the boards' locks. *)
Definition locks_of (o : object) : option ref :=
  match o with
  | ODaemon d => Some (da_locks d) | OFlashOp f => Some (fo_locks f) | OApi a => Some (as_locks a) | OPipe a => Some (ws_locks a)
  | ORemote r => Some (rs_locks r) | OPool p => Some (po_locks p)
  | _ => None
  end.

Definition bus_of (o : object) : option ref :=
  match o with OApi a => Some (as_bus a) | ORemote r => Some (rs_bus r) | OPeers p => pe_bus p | _ => None end.

Definition flash_of (o : object) : option ref := match o with OApi a => Some (as_flash a) | _ => None end.

Definition hooks_of (o : object) : list (option hook) :=
  match o with
  | ODaemon d => [da_event d]
  | OLocks l => [lm_release l; lm_display l]
  | OApi a => [as_name_set a; as_name_clear a; as_poll a; as_resync a; as_event a]
  | OPipe a => [ws_name_set a; ws_name_clear a; ws_poll a; ws_resync a]
  | ONames n => [na_name_set n; na_name_clear n]
  | _ => []
  end.

(** What a callback reaches: this registry's bus, peers and daemon. *)
Definition reaches (h : heap) (host : string) (bus : ref) (parts : assembled) (k : hook) : Prop :=
  match k with
  | EventFanOut n b p | LockFanOut n b p | NameSetFanOut n b p | NameClearFanOut n b p => n = host /\ b = bus /\ p = ab_peers parts
  | OnFlashRelease d => d = ab_daemon parts
  | PollVariable v => h !! v = Some (OVariable (Some (ab_daemon parts)))
  | ResyncReachablePeers p | PublishNameSet p | PublishNameClear p => ab_peers parts = Some p
  end.

Definition count (f : object -> bool) (h : heap) : nat := length (List.filter f h).
Definition is_lock (o : object) : bool := match o with OLock => true | _ => false end.
Definition is_bus (o : object) : bool := match o with OBus => true | _ => false end.
Definition is_table (o : object) : bool := match o with OLocks _ => true | _ => false end.
Definition is_store (o : object) : bool := match o with OStore => true | _ => false end.
Definition is_daemon (o : object) : bool := match o with ODaemon _ => true | _ => false end.
Definition is_peers (o : object) : bool := match o with OPeers _ => true | _ => false end.

Definition all_share (field : object -> option ref) (x : ref) (h : heap) : Prop := Forall (fun o => match field o with Some y => y = x | None => True end) h.

(** A run makes one store, one lock, one table of locks, one event bus and
    one daemon; every object that has such a thing has that one, and every
    callback reaches that bus, that daemon and the one peer discovery,
    which a run with --no-peering never makes. *)
Lemma registry_wired m hostname a cfg socket only exclude names_bound :
  exists objects h bus table,
    assemble_run m hostname a cfg socket only exclude names_bound [] = (Ok objects, h) /\
    count is_store h = 1%nat /\ count is_lock h = 1%nat /\ count is_bus h = 1%nat /\ count is_table h = 1%nat /\ count is_daemon h = 1%nat /\
    count is_peers h = (if ra_no_peering a then 0%nat else 1%nat) /\
    h !! ro_store objects = Some OStore /\ h !! ro_lock objects = Some OLock /\ h !! bus = Some OBus /\
    all_share store_of (ro_store objects) h /\ all_share lock_of (ro_lock objects) h /\ all_share bus_of bus h /\
    all_share locks_of table h /\ (exists l, h !! table = Some (OLocks l)) /\
    Forall (fun o => Forall (fun k => match k with
      | Some k => reaches h (instance_name (st_instance cfg) hostname) bus (ro_parts objects) k
      | None => True
      end) (hooks_of o)) h.
Proof.
  destruct a as [? ? ? ? ? ? ? ? ? ? ? ? no_peering no_pool ?]. unfold assemble_run, assemble_registry, assemble_daemon_and_api.
  destruct (is_win32 (mc_platform m)) eqn:Hw, no_peering, no_pool; (eexists _, _, 2%nat, _; split;
    [unfold assemble_run, assemble_registry, assemble_daemon_and_api; rewrite ?Hw; cbn -[instance_name is_win32]; reflexivity|]);
    repeat (apply conj; [reflexivity|]).
  all: cbn [ro_parts ro_lock ro_store].
  all: split; [repeat constructor|]; split; [repeat constructor|]; split; [repeat constructor|]; split; [repeat constructor|];
    split; [eexists; reflexivity|]; repeat constructor.
Qed.
