(* ===== verification/WindowsService.v ===== *)
(** * [registry/service_windows.py]: the daemon as a Windows service

    The commands that install it, and what the Service Control Manager is
    told while [mbregistry run --windows-service] lives.  The manager's
    answers and the controls it delivers are the environment; a callback of
    it that raises is reported by [ctypes] and forgotten. *)

From S2P Require Import Prelude Trace Json Paths Client Service RegistryCli RegistryRun.
Local Open Scope py_scope.

Definition SERVICE_NAME : string := "mbregistry".
Definition DISPLAY_NAME : string := "mbtools micro:bit registry daemon".

(** ** Installing *)

Definition quoted (s : string) : string := String "034" (s +:+ String "034" "")%string.

Definition render_windows_service_install (python : string) (exec_path : option string) : string :=
  let exec_path := match exec_path with
                   | Some p => p
                   | None => (python +:+ " -m mbtools.registry.cli run")%string
                   end in
  ("sc.exe create " +:+ SERVICE_NAME +:+ " binPath= " +:+ quoted exec_path +:+
   " start= auto DisplayName= " +:+ quoted DISPLAY_NAME)%string.

Definition render_windows_service_failure_actions (service_name : string) : string :=
  ("sc.exe failure " +:+ service_name +:+ " actions= restart/60000/restart/60000/restart/60000 reset= 86400")%string.

(** The lines printed, and the exit code. *)
Definition cmd_install_service_windows (python : string) (exec_path : option string) : list string * Z :=
  (["Run as Administrator to register the service:";
    ("  " +:+ render_windows_service_install python exec_path)%string;
    "Run as Administrator to set the restart-on-failure policy (systemd Restart=on-failure equivalent):";
    ("  " +:+ render_windows_service_failure_actions SERVICE_NAME)%string;
    ("Run as Administrator to start it once installed: sc.exe start " +:+ SERVICE_NAME)%string], EXIT_OK).

(** [cmd_install_service] on Windows. *)
Definition install_service_windows (python : string) : list string * Z :=
  cmd_install_service_windows python (Some (python +:+ " -m mbtools.registry.cli run --windows-service")%string).

(** ** Running *)

Definition SERVICE_CONTROL_STOP : Z := 1.
Definition SERVICE_ACCEPT_STOP : Z := 1.
Definition SERVICE_STOPPED : Z := 1.
Definition SERVICE_STOP_PENDING : Z := 3.
Definition SERVICE_RUNNING : Z := 4.

Inductive service_act := Registered | Status (state accepted : Z) | StopEventSet.

Record service_run := mkServiceRun { sr_log : list service_act; sr_code : Z }.

Section Running.
(** Can the handler be registered, can a state be reported, can the
    dispatcher be started. *)
Variable registers : bool.
Variable reports : Z -> bool.
Variable dispatches : bool.

Definition service_log (e : service_act) : M service_run unit := mmodify (fun s => mkServiceRun (sr_log s ++ [e]) (sr_code s)).

Definition register_control_handler : M service_run unit := if registers then service_log Registered else mraise OSError.
Definition set_status (state accepted : Z) : M service_run unit :=
  if reports state then service_log (Status state accepted) else mraise OSError.

Definition forgotten (m : M service_run unit) : M service_run unit := mtry m (fun _ => Some (mret tt)).

Definition service_handler (control : Z) : M service_run unit :=
  if control =? SERVICE_CONTROL_STOP then set_status SERVICE_STOP_PENDING 0 ;;! service_log StopEventSet else mret tt.

(** [controls] are delivered while [main] runs; what it comes to. *)
Definition service_main (controls : list Z) (main : result Z) : M service_run unit :=
  register_control_handler ;;!
  set_status SERVICE_RUNNING SERVICE_ACCEPT_STOP ;;!
  mfinally
    (mfor controls (fun c => forgotten (service_handler c)) ;;!
     code <-! mlift main ;; mmodify (fun s => mkServiceRun (sr_log s) code))
    (set_status SERVICE_STOPPED 0).

Definition start_dispatcher (body : M service_run unit) : M service_run unit :=
  if dispatches then forgotten body else mraise OSError.

Definition run_as_windows_service (controls : list Z) (main : result Z) : M service_run Z :=
  start_dispatcher (service_main controls main) ;;! mgets sr_code.
End Running.

(** [cmd_run]: the daemon under the manager, or in the foreground. *)
Definition cmd_run (E : run_env) (windows_service : bool) (registers : bool) (reports : Z -> bool)
    (dispatches : bool) (controls : list Z) (a : run_args) : result Z * service_run :=
  let main := mresult (run_registry E a) [] in
  if windows_service then run_as_windows_service registers reports dispatches controls main (mkServiceRun [] 0)
  else (main, mkServiceRun [] 0).

(** ** Properties *)

(** What the stop controls add. *)
Definition stopping (controls : list Z) : list service_act :=
  flat_map (fun c => if c =? SERVICE_CONTROL_STOP then [Status SERVICE_STOP_PENDING 0; StopEventSet] else []) controls.

Lemma handled controls : forall s,
  mfor controls (fun c => forgotten (service_handler (fun _ => true) c)) s =
  (Ok tt, mkServiceRun (sr_log s ++ stopping controls) (sr_code s)).
Proof.
  induction controls as [|c controls IH]; intros s; cbn [mfor stopping flat_map].
  - rewrite app_nil_r. destruct s. reflexivity.
  - unfold mbind, forgotten, mtry, service_handler, set_status, service_log, mmodify, mbind. cbn.
    destruct (c =? SERVICE_CONTROL_STOP); cbn; rewrite IH; cbn; rewrite <- ?app_assoc; reflexivity.
Qed.

(** To a manager that takes every report a service is running, then
    stopping for each stop it asked, each of which sets the stop event, then
    stopped, once and last, whatever became of the daemon: what a daemon
    that failed reports is what one that was asked to stop does, with the
    exit code 0 of a process that ended well when it raised. *)
Theorem service_reported controls main :
  run_as_windows_service true (fun _ => true) true controls main (mkServiceRun [] 0) =
  (Ok (match main with Ok code => code | Err _ => 0 end),
   mkServiceRun ([Registered; Status SERVICE_RUNNING SERVICE_ACCEPT_STOP] ++ stopping controls ++ [Status SERVICE_STOPPED 0])
     (match main with Ok code => code | Err _ => 0 end)).
Proof.
  unfold run_as_windows_service, start_dispatcher, forgotten, mtry. rewrite bind_run.
  assert (E : service_main true (fun _ => true) controls main (mkServiceRun [] 0) =
    (match main with Ok _ => Ok tt | Err e => Err e end,
     mkServiceRun ([Registered; Status SERVICE_RUNNING SERVICE_ACCEPT_STOP] ++ stopping controls ++ [Status SERVICE_STOPPED 0])
       (match main with Ok code => code | Err _ => 0 end))).
  { unfold service_main. rewrite !bind_run. unfold register_control_handler, set_status, service_log, mmodify at 1.
    cbn [sr_log sr_code app]. rewrite bind_run. unfold mmodify at 1. cbn [sr_log sr_code app]. unfold mfinally. rewrite bind_run, handled.
    cbn [sr_log sr_code]. unfold mbind, mlift, mmodify. destruct main as [code|e]; cbn; rewrite <- ?app_assoc; reflexivity. }
  rewrite E. destruct main; reflexivity.
Qed.

(** The command installed has the flag that makes the process a service. *)
Example installed_command : exists rest,
  nth 1 (install_service_windows "C:\py\python.exe").1 "" =
  ("  sc.exe create mbregistry binPath= " +:+ quoted "C:\py\python.exe -m mbtools.registry.cli run --windows-service" +:+ rest)%string.
Proof. eexists. reflexivity. Qed.
