(* ===== verification/Tool.v ===== *)
(** * The world of a command-line tool

    What [mbdeploy], [mbserial] and [mbrelay] run in: a connection to a
    registry, a clock, acts of their own, and a part of the state that is
    the tool's.  The trace has what was asked, each answer read and each
    act.  Everything outside is an environment that decides from what was
    done so far; time never goes back. *)

From S2P Require Import Prelude Tables Trace Json Client.
Local Open Scope py_scope.

(** What reading a line gives. *)
Inductive line := Line (v : json) | NotJson | Broken.

Inductive event (X : Type) :=
| Dialled
| Sent (payload : fields)
| Got (answer : option line)               (* read, [None] at the end *)
| HungUp
| Slept (us : Z)
| Did (act : X).
Arguments Dialled {X}.
Arguments Sent {X} payload.
Arguments Got {X} answer.
Arguments HungUp {X}.
Arguments Slept {X} us.
Arguments Did {X} act.

Record world (X T : Type) := mkWorld {
  w_up : bool;                         (* is there a connection *)
  w_in : list line;           (* the lines to be read from it *)
  w_clock : Z;                         (* microseconds *)
  w_trace : list (event X);
  w_tool : T }.
Arguments mkWorld {X T}.
Arguments w_up {X T} w.
Arguments w_in {X T} w.
Arguments w_clock {X T} w.
Arguments w_trace {X T} w.
Arguments w_tool {X T} w.

Record tool_env (X : Type) := mkToolEnv {
  te_dial : list (event X) -> bool;
  (* the lines a request is answered with, when it can be written *)
  te_answer : list (event X) -> fields -> option (list line);
  te_act : list (event X) -> X -> result Z;
  te_delay : list (event X) -> nat }.
Arguments te_dial {X} t.
Arguments te_answer {X} t.
Arguments te_act {X} t.
Arguments te_delay {X} t.

Section World.
Context {X T : Type}.
Variable E : tool_env X.
Notation W := (world X T).

(** An event, and the time it takes. *)
Definition log_event (e : event X) (s : W) : W :=
  mkWorld (w_up s) (w_in s) (w_clock s + Z.of_nat (te_delay E (w_trace s))) (w_trace s ++ [e]) (w_tool s).
Definition set_up (b : bool) (s : W) : W := mkWorld b (w_in s) (w_clock s) (w_trace s) (w_tool s).
Definition set_in (l : list line) (s : W) : W := mkWorld (w_up s) l (w_clock s) (w_trace s) (w_tool s).
Definition set_tool (t : T) (s : W) : W := mkWorld (w_up s) (w_in s) (w_clock s) (w_trace s) t.
Definition advance (us : Z) (s : W) : W := mkWorld (w_up s) (w_in s) (w_clock s + us) (w_trace s) (w_tool s).

Definition w_dial : M W unit := fun s =>
  let s' := log_event Dialled s in
  if te_dial E (w_trace s) then (Ok tt, set_in [] (set_up true s')) else (Err OSError, s').

Definition w_send (payload : fields) : M W unit := fun s =>
  let s' := log_event (Sent payload) s in
  match te_answer E (w_trace s) payload with
  | Some lines => (Ok tt, set_in (w_in s ++ lines) s')
  | None => (Err OSError, s')
  end.

Definition w_readline : M W (option json) := fun s =>
  let answer := head (w_in s) in
  (match answer with
   | None => Ok None
   | Some (Line v) => Ok (Some v)
   | Some NotJson => Err ValueError
   | Some Broken => Err OSError
   end, set_in (tail (w_in s)) (log_event (Got answer) s)).

Definition w_hangup : M W unit := mmodify (fun s => set_up false (log_event HungUp s)).

#[export] Instance world_transport : Transport W := {|
  tr_connected := w_up;
  tr_dial := w_dial;
  tr_send := w_send;
  tr_readline := w_readline;
  tr_hangup := w_hangup;
  tr_pending := fun s => length (w_in s) |}.

Definition perform (x : X) : M W Z := fun s => (te_act E (w_trace s) x, log_event (Did x) s).
Definition now : M W Z := mgets w_clock.
Definition sleep (us : Z) : M W unit := mmodify (fun s => advance (Z.max 0 us) (log_event (Slept us) s)).
(** [queue.get(timeout=us)] of what arrives at known times: the first item
    when it is there in time, else [None] when the time is over. *)
Definition await {A} (get : T -> list (Z * A)) (set : list (Z * A) -> T -> T) (us : Z) : M W (option A) := fun s =>
  match get (w_tool s) with
  | (at_us, x) :: rest =>
      if at_us <=? w_clock s + Z.max 0 us then (Ok (Some x), set_tool (set rest (w_tool s)) (advance (Z.max 0 (at_us - w_clock s)) s))
      else (Ok None, advance (Z.max 0 us) s)
  | [] => (Ok None, advance (Z.max 0 us) s)
  end.

Definition on_tool {A} (m : M T A) : M W A :=
  fun s => let (r, t) := m (w_tool s) in (r, set_tool t s).
End World.
