(* ===== verification/ToolFacts.v ===== *)
(** * What a client does in a tool's world

    A request logs itself and the answer it read, after a dial when there
    was no connection, and nothing else, and that answer is all its result
    depends on; time never goes back; and a client's own loop over the lines
    of an answer ends. *)

From S2P Require Import Prelude Tables Trace Json Peering Api Client Tool.
Local Open Scope py_scope.

Section World.
Context {X T : Type}.
Variable E : tool_env X.
Notation W := (world X T).
#[local] Instance here : Transport W := world_transport E.

(** What a client makes of an answer read: the dictionary, and the one that
    is ok. *)
Definition response (g : option line) : result fields :=
  match g with
  | Some (Line (JObj resp)) => Ok resp
  | Some (Line _) => Err AttributeError
  | _ => Err RegistryUnavailable
  end.

Definition accepted (g : option line) : result fields :=
  let! resp := response g in
  if truthy (jget "ok" resp) then Ok resp
  else Err (OpError match jget "code" resp with JStr code => code | _ => "" end).

(** What one request leaves in the log: only a dial, and no registry; or,
    after the dial it needed, itself, when it could be written with the
    answer read; its result is what that answer says. *)
Definition dialled (d : list (event X)) : Prop := d = [] \/ d = [Dialled].

Definition exchanged (payload : fields) (r : result fields) (l : list (event X)) : Prop :=
  (l = [Dialled] /\ r = Err RegistryUnavailable) \/
  exists d, dialled d /\
    ((l = d ++ [Sent payload] /\ r = Err RegistryUnavailable) \/
     exists g, l = d ++ [Sent payload; Got g] /\ r = accepted g).

(** A request, and what its caller makes of the answer. *)
Definition asked {A} (payload : fields) (f : fields -> result A) (r : result A) (l : list (event X)) : Prop :=
  exists r0, exchanged payload r0 l /\ r = let! resp := r0 in f resp.

(** A request made, whatever came of it; and one that was granted, by what
    was read. *)
Definition asks (payload : fields) (l : list (event X)) : Prop := exists r, exchanged payload r l.
Definition granted (payload : fields) (l : list (event X)) : Prop := exists resp, exchanged payload (Ok resp) l.

Lemma asked_asks {A} payload f (r : result A) l : asked payload f r l -> asks payload l.
Proof. intros (r0 & H & _). exists r0. exact H. Qed.

Lemma asked_granted {A} payload f (a : A) l : asked payload f (Ok a) l ->
  exists resp, exchanged payload (Ok resp) l /\ f resp = Ok a.
Proof. intros ([resp|e] & H & E1); [exists resp; auto|discriminate]. Qed.

(** The answer that granted a request ends its log. *)
Lemma exchanged_ok payload resp l : exchanged payload (Ok resp) l ->
  exists d g, dialled d /\ l = d ++ [Sent payload; Got g] /\ accepted g = Ok resp.
Proof. intros [[_ H]|(d & Hd & [[_ H]|(g & -> & H)])]; [discriminate..|]. exists d, g. auto. Qed.

(** An answer is read in one way only. *)
Lemma exchanged_inj payload r1 r2 l : exchanged payload r1 l -> exchanged payload r2 l -> r1 = r2.
Proof.
  intros [[-> ->]|(d & [-> | ->] & [[-> ->]|(g & -> & ->)])] [[E1 ->]|(d' & [-> | ->] & [[E1 ->]|(g' & E1 & ->)])];
    try discriminate E1; try reflexivity; injection E1 as ->; reflexivity.
Qed.

Lemma dial_does : does w_trace (dial (S:=W)) (fun _ r l _ => l = [Dialled] /\ (r = Ok tt \/ r = Err RegistryUnavailable)).
Proof.
  intros s. exists [Dialled]. unfold dial, mstate, mresult, mtry. cbn [tr_dial here world_transport]. unfold w_dial.
  destruct (te_dial E (w_trace s)); cbn; auto.
Qed.

Lemma raw_request_does payload : does w_trace (raw_request (S:=W) payload) (fun _ r l _ =>
  (l = [Sent payload] /\ r = Err RegistryUnavailable) \/ exists g, l = [Sent payload; Got g] /\ r = response g).
Proof.
  intros s. unfold raw_request, mstate, mresult, mbind, mtry. cbn [tr_send tr_readline here world_transport]. unfold w_send.
  destruct (te_answer E (w_trace s) payload) as [lines|]; cbn.
  2: { exists [Sent payload]. auto. }
  unfold w_readline. cbn [w_in set_in]. exists [Sent payload; Got (head (w_in s ++ lines))].
  destruct (w_in s ++ lines) as [|[v| |] rest]; cbn; (split; [|right; eexists; split; [reflexivity|]]);
    try (rewrite <- app_assoc; reflexivity); try reflexivity; destruct v; try reflexivity.
  all: cbn; rewrite <- app_assoc; reflexivity.
Qed.

Lemma checked_run resp (s : W) : checked resp s = (let! resp := Ok resp in
  if truthy (jget "ok" resp) then Ok resp else Err (OpError match jget "code" resp with JStr code => code | _ => "" end), s).
Proof. unfold checked, raise_for_error. cbv beta iota delta [result_bind]. destruct (truthy _); reflexivity. Qed.

Lemma remote_connect_run (s : W) : remote_connect None s = if w_up s then (Ok tt, s) else dial s.
Proof.
  unfold remote_connect, mbind at 1, mgets. cbn [tr_connected here world_transport]. destruct (w_up s); [reflexivity|].
  unfold mbind. destruct (dial s) as [[[]|e] s']; reflexivity.
Qed.

Lemma connect_run (s : W) : connect s = if w_up s then (Ok tt, s) else dial s.
Proof.
  unfold connect, mbind at 1, mgets. cbn [tr_connected here world_transport]. destruct (w_up s); reflexivity.
Qed.

(** A request, once connected. *)
Lemma asked_after payload : does w_trace (resp <-! raw_request (S:=W) payload ;; checked resp) (fun _ r l _ =>
  (l = [Sent payload] /\ r = Err RegistryUnavailable) \/ exists g, l = [Sent payload; Got g] /\ r = accepted g).
Proof.
  intros s. destruct (raw_request_does payload s) as (l & E1 & H). exists l. unfold mstate, mresult in *. rewrite !bind_run.
  destruct (raw_request payload s) as [[resp|e] s1]; cbn [fst snd] in *.
  - rewrite checked_run. split; [exact E1|]. destruct H as [[_ H]|(g & -> & H)]; [discriminate|].
    right. exists g. split; [reflexivity|]. unfold accepted. rewrite <- H. reflexivity.
  - split; [exact E1|]. destruct H as [[-> H]|(g & -> & H)]; [left; auto|]. right. exists g. unfold accepted. rewrite <- H. auto.
Qed.

(** Something said over a connection, which is dialled when there is none. *)
Lemma connect_then {A} (c : M W unit) (m : M W A) (Q : result A -> list (event X) -> Prop) : c = connect \/ c = remote_connect None ->
  does w_trace m (fun _ r l _ => Q r l) ->
  does w_trace (c ;;! m) (fun _ r l _ => (l = [Dialled] /\ r = Err RegistryUnavailable) \/
    exists d l', dialled d /\ l = d ++ l' /\ Q r l').
Proof.
  intros Hc Hm s. assert (Hd : c s = if w_up s then (Ok tt, s) else dial s)
    by (destruct Hc as [-> | ->]; [apply connect_run|apply remote_connect_run]).
  unfold mstate, mresult. rewrite (bind_run c), Hd. destruct (w_up s).
  - destruct (Hm s) as (l & E1 & H). exists l. split; [exact E1|]. right. exists [], l. unfold dialled. auto.
  - destruct (dial_does s) as (l & E1 & -> & Hres). unfold mstate, mresult in *.
    rewrite (surjective_pairing (dial s)). cbn [fst snd]. destruct Hres as [-> | ->].
    + destruct (Hm (snd (dial s))) as (l2 & E2 & H). exists (Dialled :: l2). unfold mstate, mresult in *.
      split; [rewrite E2, E1, <- app_assoc; reflexivity|]. right. exists [Dialled], l2. unfold dialled. auto.
    + exists [Dialled]. split; [exact E1|]. left. auto.
Qed.

Lemma connect_exchanged payload (c : M W unit) : c = connect \/ c = remote_connect None ->
  does w_trace (c ;;! resp <-! raw_request payload ;; checked resp) (fun _ r l _ => exchanged payload r l).
Proof.
  intros Hc. eapply does_weaken; [apply (connect_then c _ _ Hc (asked_after payload))|]. cbv beta.
  intros s r l s' [H|(d & l' & Hd & -> & H)]; [left; exact H|]. right. exists d. split; [exact Hd|].
  destruct H as [[-> H]|(g & -> & H)]; eauto.
Qed.

Lemma request_does payload : does w_trace (request (S:=W) payload) (fun _ r l _ => exchanged payload r l).
Proof. apply connect_exchanged. auto. Qed.
Lemma remote_request_does payload : does w_trace (remote_request (S:=W) None payload) (fun _ r l _ => exchanged payload r l).
Proof. apply connect_exchanged. auto. Qed.

(** What a request's caller makes of the answer logs nothing. *)
Lemma exchanged_bind {B} payload (m : M W fields) (k : fields -> M W B) (f : fields -> result B) :
  does w_trace m (fun _ r l _ => exchanged payload r l) -> (forall resp s, k resp s = (f resp, s)) ->
  does w_trace (mbind m k) (fun _ r l _ => asked payload f r l).
Proof.
  intros Hm Hk s. destruct (Hm s) as (l & E1 & H). exists l. unfold mstate, mresult, mbind in *.
  destruct (m s) as [[resp|e] s1]; cbn [fst snd] in *.
  - rewrite Hk. cbn [fst snd]. split; [exact E1|]. exists (Ok resp). auto.
  - split; [exact E1|]. exists (Err e). auto.
Qed.

(** [_dict_of]. *)
Definition dict_at (k : string) (resp : fields) : result fields :=
  let! v := item k resp in match v with JObj d => Ok d | _ => Err TypeError end.

Lemma dict_of_run k resp (s : W) : dict_of k resp s = (dict_at k resp, s).
Proof. unfold dict_of, dict_at, mbind, mlift. destruct (item k resp) as [[]|]; reflexivity. Qed.

Definition done (resp : fields) : result unit := Ok tt.
Definition released (resp : fields) : result bool := Ok (truthy (jget_or "released" (JBool false) resp)).

Lemma find_does uid : does w_trace (Client.find (S:=W) uid) (fun _ r l _ => asked [("op", JStr "find"); ("uid", JStr uid)] (dict_at "device") r l).
Proof. apply exchanged_bind; [apply request_does|]. intros. apply dict_of_run. Qed.
Lemma remote_find_does uid : does w_trace (remote_find (S:=W) None uid) (fun _ r l _ => asked [("op", JStr "find"); ("uid", JStr uid)] (dict_at "device") r l).
Proof. apply exchanged_bind; [apply remote_request_does|]. intros. apply dict_of_run. Qed.
Lemma lock_does uid kind : does w_trace (Client.lock (S:=W) uid kind)
  (fun _ r l _ => asked [("op", JStr "lock"); ("uid", JStr uid); ("kind", JStr kind)] done r l).
Proof. apply exchanged_bind; [apply request_does|reflexivity]. Qed.
Lemma remote_lock_does uid kind : does w_trace (remote_lock (S:=W) None uid kind)
  (fun _ r l _ => asked [("op", JStr "lock"); ("uid", JStr uid); ("kind", JStr kind)] done r l).
Proof. apply exchanged_bind; [apply remote_request_does|reflexivity]. Qed.
Lemma unlock_does uid : does w_trace (Client.unlock (S:=W) uid) (fun _ r l _ => asked [("op", JStr "unlock"); ("uid", JStr uid)] released r l).
Proof. apply exchanged_bind; [apply request_does|reflexivity]. Qed.
Lemma remote_unlock_does uid : does w_trace (remote_unlock (S:=W) None uid) (fun _ r l _ => asked [("op", JStr "unlock"); ("uid", JStr uid)] released r l).
Proof. apply exchanged_bind; [apply remote_request_does|reflexivity]. Qed.
Lemma mark_flashed_does uid : does w_trace (mark_flashed (S:=W) uid)
  (fun _ r l _ => asked [("op", JStr "mark_flashed"); ("uid", JStr uid)] done r l).
Proof. apply exchanged_bind; [apply request_does|reflexivity]. Qed.

(** A stream of log lines, up to the answer. *)
Definition log_line (g : option line) : Prop := exists resp, response g = Ok resp /\ is_log resp = true.
Definition last_line (g : option line) : Prop := forall resp, response g = Ok resp -> is_log resp = false.

Definition streamed (payload : fields) (r : result fields) (l : list (event X)) : Prop :=
  (l = [Dialled] /\ r = Err RegistryUnavailable) \/
  exists d, dialled d /\
    ((l = d ++ [Sent payload] /\ r = Err RegistryUnavailable) \/
     exists logs g, Forall log_line logs /\ last_line g /\ l = d ++ Sent payload :: map Got logs ++ [Got g] /\ r = response g).

Definition or_unavailable (r : result fields) : result fields :=
  match r with Err (OSError | ValueError) => Err RegistryUnavailable | _ => r end.

Lemma read_answer_does n : forall s, (length (w_in s) < n)%nat ->
  exists logs g, w_trace (mstate (read_answer (S:=W) n) s) = w_trace s ++ map Got logs ++ [Got g] /\
    Forall log_line logs /\ last_line g /\ or_unavailable (mresult (read_answer (S:=W) n) s) = response g.
Proof.
  induction n as [|n IH]; intros s Hn; [lia|]. cbn [read_answer tr_readline here world_transport].
  unfold mstate, mresult. rewrite (bind_run (w_readline E)). unfold w_readline.
  assert (Hend : forall g r, last_line g -> or_unavailable r = response g -> exists logs g0,
    w_trace s ++ [Got g] = w_trace s ++ map Got logs ++ [Got g0] /\ Forall log_line logs /\ last_line g0 /\ or_unavailable r = response g0)
    by (intros g r Hl Hg; exists [], g; auto).
  destruct (w_in s) as [|[v| |] rest] eqn:Ei; cbn [head].
  1, 3, 4: cbn [fst snd set_in log_event w_trace]; apply Hend; [discriminate|reflexivity].
  rewrite bind_run. destruct v as [| | | | | |resp]; cbn [as_dict mraise fst snd];
    try (apply Hend; [discriminate|reflexivity]).
  unfold mret. cbn [fst snd]. destruct (is_log resp) eqn:Elog.
  - destruct (IH (set_in (tail (Line (JObj resp) :: rest)) (log_event E (Got (Some (Line (JObj resp)))) s))) as (logs & g & E1 & Hl & Hg & Hr).
    { cbn in *. lia. }
    exists (Some (Line (JObj resp)) :: logs), g. unfold mstate, mresult in *. split; [rewrite E1; cbn; rewrite <- app_assoc; reflexivity|].
    split; [constructor; [exists resp; auto|exact Hl]|]. auto.
  - apply Hend; [|reflexivity]. intros resp' [= <-]. exact Elog.
Qed.

Lemma stream_request_does payload : does w_trace (stream_request (S:=W) None payload) (fun _ r l _ => streamed payload r l).
Proof.
  set (Q := fun (r : result fields) (l : list (event X)) => (l = [Sent payload] /\ r = Err RegistryUnavailable) \/
     exists logs g, Forall log_line logs /\ last_line g /\ l = Sent payload :: map Got logs ++ [Got g] /\ r = response g).
  eapply does_weaken; [apply (connect_then _ _ Q (or_intror eq_refl))|].
  - intros s. unfold mstate, mresult, mtry. rewrite (bind_run (tr_send payload)).
    cbn [tr_send here world_transport]. unfold w_send. destruct (te_answer E (w_trace s) payload) as [lines|].
    2: { exists [Sent payload]. split; [reflexivity|]. left. auto. }
    unfold mbind, mgets. cbn [tr_pending here world_transport].
    match goal with |- context [read_answer _ ?st] => set (s1 := st) end.
    destruct (read_answer_does (Datatypes.S (length (w_in s1))) s1) as (logs & g & E1 & Hl & Hg & Hr); [lia|].
    unfold mstate, mresult in *. exists (Sent payload :: map Got logs ++ [Got g]).
    destruct (read_answer _ s1) as [[a|e] s2]; cbn [fst snd] in *.
    + split; [rewrite E1; cbn; rewrite <- app_assoc; reflexivity|]. right. exists logs, g. auto.
    + assert (Hs : w_trace s2 = w_trace s ++ Sent payload :: map Got logs ++ [Got g]) by (rewrite E1; cbn; rewrite <- app_assoc; reflexivity).
      unfold unavailable. destruct e; cbn in Hr |- *; (split; [exact Hs|]); right; exists logs, g; auto.
  - cbv beta. intros s r l s' [H|(d & l' & Hd & -> & H)]; [left; exact H|]. right. exists d. split; [exact Hd|].
    destruct H as [[-> H]|(logs & g & Hl & Hg & -> & H)]; [left; auto|]. right. exists logs, g. auto.
Qed.

(** ** Time *)

Definition later (s s' : W) : Prop := w_clock s <= w_clock s'.

#[export] Instance later_preorder : PreOrder later.
Proof. split; unfold later; [intros s|intros s1 s2 s3]; lia. Qed.

Lemma log_later e s : later s (log_event E e s).
Proof. unfold later, log_event. cbn. lia. Qed.

Lemma dial_later : stays later (dial (S:=W)).
Proof.
  apply stays_try; [typeclasses eauto| |].
  - intros s. unfold mstate. cbn [tr_dial here world_transport]. unfold w_dial. destruct (te_dial E _); apply (log_later Dialled).
  - intros e k H. unfold unavailable in H. destruct e; try discriminate H; injection H as <-; apply stays_raise; typeclasses eauto.
Qed.

Lemma send_later payload : stays later (tr_send (S:=W) payload).
Proof.
  intros s. unfold mstate. cbn [tr_send here world_transport]. unfold w_send.
  destruct (te_answer E _ payload); apply (log_later (Sent payload)).
Qed.

Lemma readline_later : stays later (tr_readline (S:=W)).
Proof.
  intros s. unfold mstate. cbn [tr_readline here world_transport]. unfold w_readline.
  destruct (w_in s) as [|[v| |] rest]; unfold later; cbn; lia.
Qed.

Lemma hangup_later : stays later (tr_hangup (S:=W)).
Proof. intros s. apply (log_later HungUp). Qed.

(** ** No loop runs out *)

Notation ends := (avoids RuntimeError).

Lemma unavailable_ends {A} e k : unavailable (S:=W) (A:=A) e = Some k -> ends k.
Proof. unfold unavailable. destruct e; try discriminate; intros [= <-]; apply avoids_raise; discriminate. Qed.

Lemma dial_ends : ends (dial (S:=W)).
Proof.
  apply avoids_try; [left|intros e k; apply unavailable_ends].
  intros s. unfold mresult. cbn [tr_dial here world_transport]. unfold w_dial. destruct (te_dial E _); discriminate.
Qed.

Lemma send_ends payload : ends (tr_send (S:=W) payload).
Proof.
  intros s. unfold mresult. cbn [tr_send here world_transport]. unfold w_send. destruct (te_answer E _ payload); discriminate.
Qed.

Lemma readline_ends : ends (tr_readline (S:=W)).
Proof.
  intros s. unfold mresult. cbn [tr_readline here world_transport]. unfold w_readline.
  destruct (w_in s) as [|[v| |] rest]; discriminate.
Qed.

Lemma as_dict_ends l : ends (as_dict (S:=W) l).
Proof. destruct l as [[]|]; cbn [as_dict]; (apply avoids_ret || (apply avoids_raise; discriminate)). Qed.

Lemma checked_ends resp : ends (checked (S:=W) resp).
Proof. unfold checked, raise_for_error. repeat avoids_step. Qed.

Lemma raw_request_ends payload : ends (raw_request (S:=W) payload).
Proof.
  apply avoids_bind; [|apply as_dict_ends]. apply avoids_try; [left|intros e k; apply unavailable_ends].
  apply avoids_bind; [apply send_ends|intros _; apply readline_ends].
Qed.

Lemma request_ends payload : ends (request (S:=W) payload).
Proof.
  unfold request, connect. repeat avoids_step; auto using dial_ends, raw_request_ends, checked_ends.
Qed.

Lemma remote_connect_ends : ends (remote_connect (S:=W) None).
Proof. unfold remote_connect. repeat avoids_step. apply dial_ends. Qed.

Lemma remote_request_ends payload : ends (remote_request (S:=W) None payload).
Proof.
  unfold remote_request. repeat avoids_step; auto using remote_connect_ends, raw_request_ends, checked_ends.
Qed.

(** The loop over the lines of an answer has a round for every line. *)
Lemma read_answer_ends n : forall s : W, (length (w_in s) < n)%nat -> mresult (read_answer n) s <> Err RuntimeError.
Proof.
  induction n as [|n IH]; intros s Hn; [lia|]. cbn [read_answer tr_readline here world_transport].
  unfold mresult. rewrite (bind_run (w_readline E)). unfold w_readline. destruct (w_in s) as [|[v| |] rest] eqn:Ein; cbn [head]; try discriminate.
  rewrite bind_run. destruct v as [| | | | | |resp]; try discriminate. cbn [as_dict mret]. unfold mret.
  destruct (is_log resp); [|discriminate]. apply IH. cbn in *. lia.
Qed.

Lemma stream_request_ends payload : ends (stream_request (S:=W) None payload).
Proof.
  apply avoids_bind; [apply remote_connect_ends|intros _]. apply avoids_try; [left|intros e k; apply unavailable_ends].
  apply avoids_bind; [apply send_ends|]. intros _ s. unfold mresult. rewrite (bind_run (mgets tr_pending)).
  unfold mgets. apply read_answer_ends. cbn [tr_pending here world_transport]. lia.
Qed.

Lemma dict_of_ends k resp : ends (dict_of (S:=W) k resp).
Proof.
  unfold dict_of. apply avoids_bind; [apply avoids_lift; unfold item; destruct (dget k resp); discriminate|].
  intros []; repeat avoids_step.
Qed.

Lemma remote_flash_ends uid data : ends (remote_flash (S:=W) None uid data).
Proof.
  unfold remote_flash. apply avoids_bind; [apply remote_request_ends|intros staged].
  apply avoids_bind; [apply avoids_lift; unfold item; destruct (dget _ staged); discriminate|intros path].
  apply avoids_bind; [apply stream_request_ends|intros resp]. unfold raise_for_error. repeat avoids_step.
Qed.
End World.

Create HintDb ends.
#[export] Hint Resolve dial_ends send_ends readline_ends as_dict_ends checked_ends raw_request_ends request_ends
  remote_connect_ends remote_request_ends stream_request_ends dict_of_ends remote_flash_ends : ends.

Create HintDb later.
#[export] Hint Resolve dial_later send_later readline_later hangup_later : later.
#[export] Hint Extern 1 (stays later (mmodify _)) => apply stays_modify; intros ?; unfold later; cbn; lia : later.
