(* ===== verification/Cli.v ===== *)
(** * What the command-line tools share

    The target's record, the address of a peer's own registry, the same
    request on the local or on a peer's registry, the exit codes of a
    client's errors, and a session with a registry from its connection to
    its end. *)

From S2P Require Import Prelude Tables Trace Json Peering Api Client Tool ToolFacts Render.
Local Open Scope py_scope.

Definition uid_of_device (device : fields) : result string :=
  let! v := item "uid" device in match v with JStr u => Ok u | _ => Err TypeError end.

(** The peer's address, when there is a usable one. *)
Definition endpoint_of (device : fields) : option (string * Z) :=
  match Py.rpartition ":" (text "endpoint" device) with
  | (host, true, port) =>
      match int_of_str port with
      | Ok p => if p <? 0 then None else Some (host, p)
      | Err _ => None
      end
  | _ => None
  end.

Definition is_op_error (e : py_exc) : option string := match e with OpError code => Some code | _ => None end.

Definition find_payload (uid : string) : fields := [("op", JStr "find"); ("uid", JStr uid)].
Definition lock_payload (uid kind : string) : fields := [("op", JStr "lock"); ("uid", JStr uid); ("kind", JStr kind)].
Definition unlock_payload (uid : string) : fields := [("op", JStr "unlock"); ("uid", JStr uid)].

Section Cli.
Context {X T : Type}.
Variable E : tool_env X.
Notation W := (world X T).

#[local] Instance here : Transport W := world_transport E.

(** The same request on the local or on the remote client. *)
Definition any_find (remote : bool) (uid : string) : M W fields :=
  if remote then remote_find None uid else Client.find uid.
Definition any_lock (remote : bool) (uid kind : string) : M W unit :=
  if remote then remote_lock None uid kind else Client.lock uid kind.
Definition any_unlock (remote : bool) (uid : string) : M W bool :=
  if remote then remote_unlock None uid else Client.unlock uid.

(** [except RegistryClientError as exc: return exc.exit_code]. *)
Definition or_exit {A} (m : M W A) : M W (A + Z) :=
  mtry (x <-! m ;; mret (inl x)) (fun e =>
    match is_op_error e with Some code => Some (mret (inr (exit_code code))) | None => None end).

(** [with RegistryClient(...) as client], and no daemon. *)
Definition with_client (m : M W Z) : M W Z :=
  mtry (connect ;;! mfinally m tr_hangup)
    (fun e => match e with RegistryUnavailable => Some (mret EXIT_NO_DAEMON) | _ => None end).

Section Peer.
Variable connect_to : string -> Z -> X.     (* the next connection is to a peer *)

(** Another connection, for the time of [m]; this one is kept. *)
Definition elsewhere {A} (host : string) (port : Z) (m : M W A) : M W A :=
  perform E (connect_to host port) ;;!
  old <-! mget ;;
  mmodify (set_up false) ;;! mmodify (set_in []) ;;!
  mfinally m (mmodify (fun s => set_in (w_in old) (set_up (w_up old) s))).

(** [with RemoteRegistryClient(...) as client], and no peer. *)
Definition at_peer (host : string) (port : Z) (m : M W Z) : M W Z :=
  mtry (elsewhere host port (remote_connect None ;;! mfinally m tr_hangup))
    (fun e => match e with RegistryUnavailable => Some (mret EXIT_NO_DAEMON) | _ => None end).
End Peer.

(** An unlock whose refusal is passed over. *)
Definition unlock_quietly (remote : bool) (uid : string) : M W unit :=
  mtry (any_unlock remote uid ;;! mret tt)
    (fun e => match is_op_error e with Some _ => Some (mret tt) | None => None end).

(** ** What they leave in the log *)

Lemma any_find_does remote uid :
  does w_trace (any_find remote uid) (fun _ r l _ => asked (find_payload uid) (dict_at "device") r l).
Proof. unfold any_find. destruct remote; [apply remote_find_does|apply find_does]. Qed.
Lemma any_lock_does remote uid kind :
  does w_trace (any_lock remote uid kind) (fun _ r l _ => asked (lock_payload uid kind) done r l).
Proof. unfold any_lock. destruct remote; [apply remote_lock_does|apply lock_does]. Qed.
Lemma any_unlock_does remote uid :
  does w_trace (any_unlock remote uid) (fun _ r l _ => asked (unlock_payload uid) released r l).
Proof. unfold any_unlock. destruct remote; [apply remote_unlock_does|apply unlock_does]. Qed.

(** The board as an answer read shows it. *)
Definition seen (uid : string) (d : fields) (l : list (event X)) : Prop :=
  exists resp, exchanged (find_payload uid) (Ok resp) l /\ dict_at "device" resp = Ok d.

Lemma asked_seen uid d l : asked (find_payload uid) (dict_at "device") (Ok d) l -> seen uid d l.
Proof. apply asked_granted. Qed.

Lemma any_find_ends remote uid : avoids RuntimeError (any_find remote uid).
Proof.
  unfold any_find. destruct remote; (apply avoids_bind; [|intros; apply dict_of_ends]).
  - apply remote_request_ends.
  - apply request_ends.
Qed.

Lemma any_find_later remote uid : stays later (any_find remote uid).
Proof.
  unfold any_find, remote_find, Client.find, remote_request, request, connect, remote_connect, raw_request, checked, raise_for_error,
    dict_of, as_dict, unavailable.
  destruct remote; repeat stays_step; first [apply dial_later|apply send_later|apply readline_later].
Qed.

Lemma perform_does (x : X) : does w_trace (perform E x : M W Z) (fun s r l _ => l = [Did x] /\ r = te_act E (w_trace s) x).
Proof. intros s. exists [Did x]. repeat split. Qed.

(** A client's error excused. *)
Lemma excused_does {A} (m : M W A) (h : py_exc -> option (M W A)) a (Q : list (event X) -> Prop) :
  does w_trace m (fun _ _ l _ => Q l) -> (forall e k, h e = Some k -> k = mret a) ->
  does w_trace (mtry m h) (fun _ _ l _ => Q l).
Proof.
  intros Hm Hh. eapply does_weaken; [apply (does_try _ _ _ (fun _ _ _ l _ => l = []) Hm)|].
  - intros e k H. rewrite (Hh e k H). eapply does_weaken; [apply does_ret|]. cbn. tauto.
  - cbn. intros s r l s' [[H _]|(e & l1 & l2 & s1 & -> & _ & H & ->)]; [exact H|]. rewrite app_nil_r. exact H.
Qed.

Lemma unlock_quietly_does remote uid :
  does w_trace (unlock_quietly remote uid) (fun _ _ l _ => asks (unlock_payload uid) l).
Proof.
  apply (excused_does _ _ tt).
  - eapply does_weaken; [apply (does_bind _ _ _ (fun _ _ _ l _ => l = []) (any_unlock_does remote uid))|].
    + intros _. eapply does_weaken; [apply does_ret|]. cbn. tauto.
    + cbn. intros s0 r l s' [(e & _ & H)|(a & l1 & l2 & s1 & -> & H & ->)]; [|rewrite app_nil_r]; eapply asked_asks, H.
  - intros e k H. destruct (is_op_error e); congruence.
Qed.

Lemma exit_code_fails code : exit_code code <> EXIT_OK.
Proof. unfold exit_code. repeat (destruct (String.eqb _ _); [discriminate|]). discriminate. Qed.

Lemma or_exit_does {A} (m : M W A) Q : does w_trace m Q ->
  does w_trace (or_exit m) (fun s r l s' => match r with
    | Ok (inl a) => Q s (Ok a) l s'
    | Ok (inr code) => code <> EXIT_OK /\ exists e, Q s (Err e) l s'
    | Err e => Q s (Err e) l s'
    end).
Proof.
  intros Hm s. destruct (Hm s) as (l & E1 & H). exists l. unfold or_exit, mstate, mresult, mtry in *.
  rewrite !bind_run. destruct (m s) as [[a|e] s1]; cbn [fst snd mret] in *; [split; assumption|].
  destruct e; cbn; (split; [assumption|]); try exact H. split; [apply exit_code_fails|eauto].
Qed.
End Cli.
