(* ===== verification/Release.v ===== *)
(** * [deploy/release.py]: a release's hex file

    The repository reference, the asset chosen, the cache directory of a
    tag, and the resolution of a reference to the bytes to flash: from the
    cache, or fetched and cached.  The cache is the files under it, by
    path; fetching and [json.loads] are the environment, the host's
    network and its standard library. *)

From S2P Require Import Prelude Tables Json.
Local Open Scope py_scope.

Definition GITHUB_API : string := "https://api.github.com".
Definition PREFERRED_ASSET_NAME : string := "MICROBIT.hex".

Record ReleaseAsset := mkAsset { as_name : string; as_url : string }.

Record ReleaseResult := mkRelease {
  rr_owner : string;
  rr_repo : string;
  rr_tag : string;
  rr_asset_name : string;
  rr_hex_path : string;
  rr_hex_bytes : string;
  rr_from_cache : bool }.

(** [OWNER/REPO[@TAG]]. *)
Definition parse_repo_ref (repo_ref : string) : result (string * string * option string) :=
  let '(ref, _, tag) := Py.partition "@" repo_ref in
  let '(owner, _, repo) := Py.partition "/" ref in
  if String.eqb owner "" || String.eqb repo "" then Err ValueError
  else Ok (owner, repo, if String.eqb tag "" then None else Some tag).

Definition auth_headers (token : option string) : list (string * string) :=
  ("Accept", "application/vnd.github+json") ::
  match token with
  | None | Some "" => []
  | Some t => [("Authorization", "Bearer " +:+ t)]
  end%string.

(** An asset's name and address; [KeyError] when one is missing. *)
Definition asset_text (k : string) (a : fields) : result string :=
  match dget k a with Some (JStr s) => Ok s | Some _ => Err TypeError | None => Err (KeyError k) end.

Definition read_asset (a : fields) : result ReleaseAsset :=
  let! name := asset_text "name" a in
  let! url := asset_text "browser_download_url" a in
  Ok (mkAsset name url).

(** The last asset of a name, as in the dictionary the code builds. *)
Fixpoint by_name (name : string) (assets : list (string * fields)) : option fields :=
  match assets with
  | [] => None
  | (n, a) :: rest =>
      match by_name name rest with
      | Some b => Some b
      | None => if String.eqb n name then Some a else None
      end
  end.

Fixpoint named (assets : list fields) : result (list (string * fields)) :=
  match assets with
  | [] => Ok []
  | a :: rest => let! n := asset_text "name" a in let! l := named rest in Ok ((n, a) :: l)
  end.

Definition select_asset (assets : list fields) (asset_override : option string) : result ReleaseAsset :=
  let! l := named assets in
  match asset_override with
  | Some name => match by_name name l with Some a => read_asset a | None => Err FetchError end
  | None =>
      match by_name PREFERRED_ASSET_NAME l with
      | Some a => read_asset a
      | None =>
          match List.filter (fun na => Py.endswith na.1 ".hex") l with
          | [(_, a)] => read_asset a
          | _ => Err FetchError
          end
      end
  end.

(** ** The cache *)

Record cache := mkCache {
  ca_files : list (string * string);         (* path, bytes *)
  ca_fetched : list string }.                (* the addresses fetched, in order *)

Definition set_files (f : list (string * string)) (s : cache) : cache := mkCache f (ca_fetched s).

Definition cache_dir_for (cache_dir owner repo tag : string) : string :=
  (cache_dir +:+ "/" +:+ owner +:+ "/" +:+ repo +:+ "/" +:+ tag)%string.
Definition path_in (dir name : string) : string := (dir +:+ "/" +:+ name)%string.

(** The name of a file of a directory, itself no directory's. *)
Fixpoint after (p s : string) : option string :=
  match p, s with
  | "", _ => Some s
  | String a p', String b s' => if Ascii.eqb a b then after p' s' else None
  | _, _ => None
  end.
Definition entry_of (dir path : string) : option string :=
  match after (dir +:+ "/")%string path with
  | Some name => if Py.sexists (Ascii.eqb "/") name then None else Some name
  | None => None
  end.
Definition listdir (dir : string) (files : list (string * string)) : list (string * string) :=
  omap (fun f => match entry_of dir f.1 with Some n => Some (n, f.2) | None => None end) files.

Definition cache_lookup (dir : string) (asset_override : option string) (s : cache) : option (string * string) :=
  match asset_override with
  | Some name => match dget (path_in dir name) (ca_files s) with Some b => Some (name, b) | None => None end
  | None => match listdir dir (ca_files s) with [f] => Some f | _ => None end
  end.

Definition write_cache (dir name data : string) : M cache string :=
  mmodify (fun s => set_files (dset (path_in dir name) data (ca_files s)) s) ;;! mret (path_in dir name).

Section Resolve.
(** One fetch, after those made. *)
Variable fetch : list string -> string -> list (string * string) -> result string.
Variable json_loads : string -> result json.

Definition fetch_url (url : string) (headers : list (string * string)) : M cache string := fun s =>
  (fetch (ca_fetched s) url headers, mkCache (ca_files s) (ca_fetched s ++ [url])).

Definition release_url (owner repo : string) (tag : option string) : string :=
  (GITHUB_API +:+ "/repos/" +:+ owner +:+ "/" +:+ repo +:+ "/releases/" +:+
   match tag with None => "latest" | Some t => "tags/" +:+ t end)%string.

Definition cached_result (cache_dir owner repo tag : string) (f : string * string) : ReleaseResult :=
  mkRelease owner repo tag f.1 (path_in (cache_dir_for cache_dir owner repo tag) f.1) f.2 true.

(** The release's own tag and the asset to take. *)
Definition release_of (text : string) (asset_override : option string) : result (string * ReleaseAsset) :=
  let! release := json_loads text in
  match release with
  | JObj release =>
      let! tag := asset_text "tag_name" release in
      let! assets := objects (jget_or "assets" (JList []) release) in
      let! asset := select_asset assets asset_override in
      Ok (tag, asset)
  | _ => Err TypeError
  end.

(** The network path: the release, then its asset from the cache or
    fetched. *)
Definition fetch_release (cache_dir owner repo : string) (tag asset_override : option string)
    (headers : list (string * string)) : M cache ReleaseResult :=
  text <-! fetch_url (release_url owner repo tag) headers ;;
  found <-! mlift (release_of text asset_override) ;;
  let '(resolved_tag, asset) := found in
  let dir := cache_dir_for cache_dir owner repo resolved_tag in
  cached <-! mgets (cache_lookup dir (Some (as_name asset))) ;;
  match cached with
  | Some f => mret (cached_result cache_dir owner repo resolved_tag f)
  | None =>
      hex_bytes <-! fetch_url (as_url asset) headers ;;
      path <-! write_cache dir (as_name asset) hex_bytes ;;
      mret (mkRelease owner repo resolved_tag (as_name asset) path hex_bytes false)
  end.

Definition resolve_hex (repo_ref : string) (asset_override : option string) (cache_dir : string) (token : option string)
    : M cache ReleaseResult :=
  parsed <-! mlift (parse_repo_ref repo_ref) ;;
  let '(owner, repo, tag) := parsed in
  match tag with
  | None => fetch_release cache_dir owner repo tag asset_override (auth_headers token)
  | Some t =>
      cached <-! mgets (cache_lookup (cache_dir_for cache_dir owner repo t) asset_override) ;;
      match cached with
      | Some f => mret (cached_result cache_dir owner repo t f)
      | None => fetch_release cache_dir owner repo tag asset_override (auth_headers token)
      end
  end.
End Resolve.
