(* ===== verification/ReleaseFacts.v ===== *)
(** * A resolved release

    What [resolve_hex] returns is what the cache then holds; a release
    resolved once resolves again without the network. *)

From S2P Require Import Prelude Tables Trace Json Release.
Local Open Scope py_scope.

Lemma parse_again repo_ref owner repo tag t : parse_repo_ref repo_ref = Ok (owner, repo, tag) -> t <> "" ->
  parse_repo_ref (owner +:+ "/" +:+ repo +:+ "@" +:+ t)%string = Ok (owner, repo, Some t).
Proof.
  unfold parse_repo_ref. intros H Ht.
  destruct (Py.partition "@" repo_ref) as [[ref f1] tg] eqn:E1. destruct (Py.partition "/" ref) as [[o f2] r] eqn:E2.
  destruct (String.eqb_spec o ""), (String.eqb_spec r ""); cbn [orb] in H; try discriminate.
  injection H as -> -> _. destruct (Py.partition_join _ _ _ _ _ E1) as (A & _ & _), (Py.partition_join _ _ _ _ _ E2) as (B & C & D).
  destruct f2; [|specialize (D eq_refl); congruence].
  change (owner +:+ "/" +:+ repo +:+ "@" +:+ t)%string with (owner +:+ String "/" (repo +:+ String "@" t))%string.
  replace (owner +:+ String "/" (repo +:+ String "@" t))%string with ((owner +:+ String "/" repo) +:+ String "@" t)%string
    by (rewrite <- Py.append_assoc; reflexivity).
  rewrite C in A. rewrite (Py.partition_at "@" _ t A), (Py.partition_at "/" _ repo B).
  destruct (String.eqb_spec owner ""), (String.eqb_spec repo ""), (String.eqb_spec t ""); first [congruence|reflexivity].
Qed.

Lemma after_spec p : forall s t, after p s = Some t -> s = (p +:+ t)%string.
Proof.
  induction p as [|a p IH]; intros s t; [intros [= ->]; reflexivity|]. destruct s as [|b s]; cbn [after]; [discriminate|].
  destruct (Ascii.eqb_spec a b) as [->|]; [|discriminate]. intros H. cbn. f_equal. exact (IH _ _ H).
Qed.

(** The files a directory lists are files. *)
Lemma listdir_in dir files n b : dunique files -> In (n, b) (listdir dir files) -> dget (path_in dir n) files = Some b.
Proof.
  intros Hu Hi. unfold listdir in Hi. apply list_elem_of_In, list_elem_of_omap in Hi as ([p b'] & Hp & He).
  cbn [fst snd] in He. unfold entry_of in He. destruct (after _ p) as [name|] eqn:Ha; [|discriminate].
  destruct (Py.sexists _ name); [discriminate|]. injection He as -> ->. apply after_spec in Ha.
  apply list_elem_of_In in Hp. apply (in_dget _ _ _ Hu). unfold path_in. rewrite Py.append_assoc, <- Ha. exact Hp.
Qed.

Lemma cache_lookup_file dir o s n b : dunique (ca_files s) -> cache_lookup dir o s = Some (n, b) ->
  dget (path_in dir n) (ca_files s) = Some b.
Proof.
  unfold cache_lookup. intros Hu. destruct o as [name|].
  - destruct (dget _ _) as [b'|] eqn:E; [|discriminate]. intros [= -> ->]. exact E.
  - destruct (listdir dir (ca_files s)) as [|f [|]] eqn:E; try discriminate. intros [= ->].
    apply listdir_in; [exact Hu|]. rewrite E. left. reflexivity.
Qed.

Section Resolve.
Variable fetch : list string -> string -> list (string * string) -> result string.
Variable json_loads : string -> result json.
Notation resolve_hex := (resolve_hex fetch json_loads).
Notation fetch_release := (fetch_release fetch json_loads).

Definition result_dir (cache_dir : string) (r : ReleaseResult) : string :=
  cache_dir_for cache_dir (rr_owner r) (rr_repo r) (rr_tag r).

(** What a resolution leaves: its bytes are the file's; from the cache it
    changed no file, otherwise it wrote the bytes it fetched, in its file
    only. *)
Definition resolved (cache_dir : string) (r : ReleaseResult) (s s' : cache) : Prop :=
  rr_hex_path r = path_in (result_dir cache_dir r) (rr_asset_name r) /\
  dget (rr_hex_path r) (ca_files s') = Some (rr_hex_bytes r) /\
  (forall p, p <> rr_hex_path r -> dget p (ca_files s') = dget p (ca_files s)) /\
  if rr_from_cache r then ca_files s' = ca_files s
  else exists release asset headers, ca_fetched s' = ca_fetched s ++ [release; asset] /\
       fetch (ca_fetched s ++ [release]) asset headers = Ok (rr_hex_bytes r).

Lemma cached_resolved cache_dir owner repo tag f o s s' : dunique (ca_files s) -> ca_files s' = ca_files s ->
  cache_lookup (cache_dir_for cache_dir owner repo tag) o s = Some f ->
  resolved cache_dir (cached_result cache_dir owner repo tag f) s s'.
Proof.
  intros Hu Hf Hc. destruct f as [n b]. unfold resolved, result_dir. cbn. rewrite Hf.
  split; [reflexivity|]. split; [exact (cache_lookup_file _ _ _ _ _ Hu Hc)|]. auto.
Qed.

Lemma fetch_release_resolved cache_dir owner repo tag o headers s r : dunique (ca_files s) ->
  mresult (fetch_release cache_dir owner repo tag o headers) s = Ok r ->
  resolved cache_dir r s (mstate (fetch_release cache_dir owner repo tag o headers) s) /\
  rr_owner r = owner /\ rr_repo r = repo.
Proof.
  intros Hu. unfold fetch_release, mresult, mstate, mbind, mlift, mgets, mret, fetch_url.
  destruct (fetch (ca_fetched s) _ headers) as [text|e]; [|discriminate].
  destruct (release_of json_loads text o) as [[t asset]|e]; [|discriminate].
  destruct (cache_lookup _ (Some (as_name asset)) _) as [f|] eqn:Hc; cbn [fst snd].
  - intros [= <-]. split; [|auto]. apply (cached_resolved _ _ _ _ _ (Some (as_name asset))); auto.
  - cbn [ca_fetched ca_files]. destruct (fetch _ (as_url asset) headers) as [b|e] eqn:Hb; [|discriminate].
    cbn [fst snd write_cache mmodify mbind mret]. intros [= <-]. split; [|auto].
    unfold resolved, result_dir. cbn. split; [reflexivity|]. split; [apply dget_dset_eq|].
    split; [intros p Hp; apply dget_dset_ne; congruence|].
    exists (release_url owner repo tag), (as_url asset), headers. split; [rewrite <- app_assoc; reflexivity|exact Hb].
Qed.

Lemma resolve_hex_resolved repo_ref o cache_dir token s r : dunique (ca_files s) ->
  mresult (resolve_hex repo_ref o cache_dir token) s = Ok r ->
  resolved cache_dir r s (mstate (resolve_hex repo_ref o cache_dir token) s) /\
  exists tag, parse_repo_ref repo_ref = Ok (rr_owner r, rr_repo r, tag).
Proof.
  intros Hu. unfold resolve_hex, mresult, mstate, mbind, mlift, mgets.
  destruct (parse_repo_ref repo_ref) as [[[owner repo] tag]|e]; [|discriminate].
  assert (Hf : mresult (fetch_release cache_dir owner repo tag o (auth_headers token)) s = Ok r ->
    resolved cache_dir r s (mstate (fetch_release cache_dir owner repo tag o (auth_headers token)) s) /\
    exists tag', @Ok (string * string * option string) (owner, repo, tag) = Ok (rr_owner r, rr_repo r, tag')).
  { intros H. destruct (fetch_release_resolved _ _ _ _ _ _ _ _ Hu H) as (A & <- & <-). eauto. }
  destruct tag as [t|]; [|exact Hf]. destruct (cache_lookup _ o s) as [f|] eqn:Hc; [|exact Hf].
  cbn. intros [= <-]. split; [exact (cached_resolved _ _ _ _ _ _ _ _ Hu eq_refl Hc)|]. eauto.
Qed.

(** A release whose file is there is the cache's. *)
Lemma resolve_cached cache_dir owner repo t name b repo_ref token s :
  parse_repo_ref repo_ref = Ok (owner, repo, Some t) ->
  dget (path_in (cache_dir_for cache_dir owner repo t) name) (ca_files s) = Some b ->
  resolve_hex repo_ref (Some name) cache_dir token s =
  (Ok (cached_result cache_dir owner repo t (name, b)), s).
Proof.
  intros Hp Hf. unfold resolve_hex, mbind, mlift, mgets, mret, cache_lookup. rewrite Hp, Hf. reflexivity.
Qed.
End Resolve.

(** a resolved release is what the cache holds, and stays so. Whenever
    [resolve_hex] answers, the file at the path it answers holds the bytes
    it answers, no other file was touched, and the bytes came either from
    the cache, without a download, or from the asset's address in the
    second of exactly two fetches. From then on, until that file changes,
    the same release and asset resolve to the same file and bytes without
    any fetch, whatever the network does. *)
Theorem release_reproducible fetch json_loads repo_ref o cache_dir token s r : dunique (ca_files s) ->
  let m := resolve_hex fetch json_loads repo_ref o cache_dir token in
  mresult m s = Ok r ->
  resolved fetch cache_dir r s (mstate m s) /\
  forall fetch' token' s', rr_tag r <> "" ->
    dget (rr_hex_path r) (ca_files s') = dget (rr_hex_path r) (ca_files (mstate m s)) ->
    let again := (rr_owner r +:+ "/" +:+ rr_repo r +:+ "@" +:+ rr_tag r)%string in
    exists r', resolve_hex fetch' json_loads again (Some (rr_asset_name r)) cache_dir token' s' = (Ok r', s') /\
      rr_hex_path r' = rr_hex_path r /\ rr_hex_bytes r' = rr_hex_bytes r /\ rr_from_cache r' = true.
Proof.
  intros Hu m Hr. destruct (resolve_hex_resolved _ _ _ _ _ _ _ _ Hu Hr) as (H & tag & Hp). split; [exact H|].
  intros fetch' token' s' Ht Hs again. destruct H as (Hpath & Hbytes & _).
  fold m in Hbytes. rewrite Hbytes, Hpath in Hs. unfold result_dir in Hs.
  eexists. split; [apply (resolve_cached _ _ _ _ _ _ _ _ _ _ _ (parse_again _ _ _ _ _ Hp Ht) Hs)|].
  cbn. split; [symmetry; exact Hpath|auto].
Qed.

(** ** An example release

    [v1] has the default image and another one. *)
Definition example_fetch (_ : list string) (url : string) (_ : list (string * string)) : result string :=
  if Py.startswith url GITHUB_API then Ok "release"
  else if Py.endswith url "MICROBIT.hex" then Ok "robot image" else Ok "test image".

Definition example_json (_ : string) : result json :=
  let asset n := JObj [("name", JStr n); ("browser_download_url", JStr ("dl/" +:+ n))] in
  Ok (JObj [("tag_name", JStr "v1"); ("assets", JList [asset "MICROBIT.hex"; asset "test.hex"])]).

Definition resolve_example (o : option string) : M cache ReleaseResult :=
  resolve_hex example_fetch example_json "league/robot@v1" o "hex" None.

Lemma release_reproducible_witness :
  exists r, mresult (resolve_example None) (mkCache [] []) = Ok r /\ rr_hex_bytes r = "robot image"%string /\
    resolved example_fetch "hex" r (mkCache [] []) (mstate (resolve_example None) (mkCache [] [])).
Proof.
  eexists. split; [vm_compute; reflexivity|]. split; [reflexivity|].
  apply (release_reproducible example_fetch example_json "league/robot@v1" None "hex" None).
  - constructor.
  - vm_compute. reflexivity.
Defined.

(** After another image of the tag was asked for by name, asking for the
    default gets that one from the cache. *)
Lemma default_from_cache_is_wrong :
  let s := mstate (resolve_example (Some "test.hex"%string)) (mkCache [] []) in
  (rr_hex_bytes <$> (match mresult (resolve_example None) s with Ok r => Some r | Err _ => None end)) = Some "test image"%string /\
  (rr_hex_bytes <$> (match mresult (resolve_example None) (mkCache [] []) with Ok r => Some r | Err _ => None end)) = Some "robot image"%string.
Proof. vm_compute. auto. Qed.
