(* ===== verification/Deploy.v ===== *)
(** * [deploy/cli.py]: flashing a board by name

    [mbdeploy deploy]: the target, the owner's registry when it is a
    peer's, the relay guard, the image, the flash lock around the flash,
    the wait for the new announcement; [mbdeploy debug] and [list].  What
    is printed is left out, except the list's text. *)

From S2P Require Import Prelude Tables Trace Json Identity Locks Peering Api Client Tool Render Cli Release.
Local Open Scope py_scope.

Definition REPROBE_POLL_INTERVAL : Z := 100000.          (* microseconds *)

Inductive deploy_act :=
| FlashBoard (uid hex_path : string)       (* [flash_hex] here; its exit code *)
| RunPyocd (args : list string)
| ConnectTo (host : string) (port : Z).    (* the next connection is to a peer *)

Record deploy_args := mkDeployArgs {
  da_target : string;
  da_hex : option string;
  da_repo : string;
  da_asset : option string;
  da_force_relay : bool;
  da_reprobe_timeout : Z }.                (* microseconds *)

Definition float_gt (a b : pyfloat) : bool :=
  match a, b with
  | FFin n d, FFin m e => m * Zpos d <? n * Zpos e
  | FInf false, FFin _ _ | FInf false, FInf true | FFin _ _, FInf true => true
  | _, _ => false
  end.

Definition is_relay_device (device : fields) : bool :=
  let upper := Py.upper (text "role" device) in
  Py.contains upper "RELAY" || Py.contains upper "BRIDGE".

Definition last_probe (device : fields) : result pyfloat :=
  let v := jget "last_probe" device in
  if truthy v then py_float v else Ok (FFin 0 1).

(** A fresh announcement since [previous]. *)
Definition fresh (previous : pyfloat) (device : fields) : result bool :=
  if is_str "connected" (jget "state" device) then let! t := last_probe device in Ok (float_gt t previous)
  else Ok false.

Section Deploy.
Notation W := (world deploy_act cache).
Variable E : tool_env deploy_act.
Variable fetch : list string -> string -> list (string * string) -> result string.
Variable json_loads : string -> result json.
Variable read_file : list (event deploy_act) -> string -> result string.
Variable cache_dir : string.
Variable github_token : option string.

#[local] Instance here : Transport W := world_transport E.

(** ** The wait *)

Fixpoint reprobe_loop (fuel : nat) (remote : bool) (uid : string) (deadline : Z) (previous : pyfloat)
    : M W (option fields) :=
  match fuel with
  | O => mraise RuntimeError
  | S fuel' =>
      device <-! mtry (d <-! any_find E remote uid ;; mret (Some d))
                   (fun e => match is_op_error e with
                             | Some code => if String.eqb code CODE_NOT_FOUND then Some (mret None) else None
                             | None => None
                             end) ;;
      found <-! mlift (match device with Some d => fresh previous d | None => Ok false end) ;;
      if found : bool then mret device
      else
        t <-! now ;;
        if deadline - t <=? 0 then mret None
        else sleep E (Z.min REPROBE_POLL_INTERVAL (deadline - t)) ;;!
             reprobe_loop fuel' remote uid deadline previous
  end.

(** Enough rounds for the time there is. *)
Definition reprobe_rounds (timeout : Z) : nat := S (S (Z.to_nat (timeout / REPROBE_POLL_INTERVAL))).

Definition wait_for_reprobe (remote : bool) (uid : string) (previous : pyfloat) (timeout : Z) : M W (option fields) :=
  t <-! now ;;
  reprobe_loop (reprobe_rounds timeout) remote uid (t + timeout) previous.

(** ** The flow *)

(** [_flash]: did it succeed. *)
Definition flash (remote : bool) (uid hex_path : string) : M W bool :=
  if remote then
    data <-! mgets (fun s => read_file (w_trace s) hex_path) ;;
    data <-! mlift data ;;
    res <-! remote_flash None uid data ;; mret res.1
  else
    rc <-! perform E (FlashBoard uid hex_path) ;;
    (if rc =? 0 then
       mtry (mark_flashed uid) (fun e =>
         match is_op_error e with
         | Some code => if String.eqb code CODE_INVALID_REQUEST then Some (mret tt) else None
         | None => None
         end)
     else mret tt) ;;!
    mret (rc =? 0).

(** The image's path, or the exit code. *)
Definition image (a : deploy_args) : M W (string + Z) :=
  match da_hex a with
  | Some (String _ _ as h) => mret (inl h)
  | _ =>
      mtry (r <-! on_tool (resolve_hex fetch json_loads (da_repo a) (da_asset a) cache_dir github_token) ;;
            mret (inl (rr_hex_path r)))
        (fun e => match e with
                  | ValueError => Some (mret (inr EXIT_USAGE))
                  | FetchError => Some (mret (inr EXIT_ERROR))
                  | _ => None
                  end)
  end.

Definition locked_flash (remote : bool) (uid hex_path : string) : M W bool :=
  mfinally (flash remote uid hex_path)
    (unlock_quietly E remote uid).

Definition run_deploy_flow (remote : bool) (device : fields) (a : deploy_args) : M W Z :=
  uid <-! mlift (uid_of_device device) ;;
  if is_relay_device device && negb (da_force_relay a) then mret EXIT_ERROR
  else
    hex <-! image a ;;
    match hex with
    | inr code => mret code
    | inl hex_path =>
        locked <-! or_exit (any_lock E remote uid KIND_FLASH) ;;
        match locked with
        | inr code => mret code
        | inl _ =>
            previous <-! mlift (last_probe device) ;;
            success <-! locked_flash remote uid hex_path ;;
            if negb success then mret EXIT_HARDWARE
            else
              new_device <-! wait_for_reprobe remote uid previous (da_reprobe_timeout a) ;;
              mret match new_device with None => EXIT_ERROR | Some _ => EXIT_OK end
        end
    end.

Definition run_deploy (a : deploy_args) : M W Z :=
  match da_asset a, da_repo a with
  | Some (String _ _), "" => mret EXIT_USAGE
  | _, _ =>
      device <-! or_exit (Client.find (da_target a)) ;;
      match device with
      | inr code => mret code
      | inl device =>
          if is_none "host" device then run_deploy_flow false device a
          else
            match endpoint_of device with
            | None => mret EXIT_ERROR
            | Some (host, port) =>
                at_peer E ConnectTo host port (run_deploy_flow true device a)
            end
      end
  end.

Definition cmd_deploy (a : deploy_args) : M W Z := with_client E (run_deploy a).

Definition run_debug (target : string) (pyocd_args : list string) : M W Z :=
  device <-! or_exit (Client.find target) ;;
  match device with
  | inr code => mret code
  | inl device =>
      uid <-! mlift (uid_of_device device) ;;
      locked <-! or_exit (Client.lock uid KIND_DEBUG) ;;
      match locked with
      | inr code => mret code
      | inl _ =>
          mfinally (perform E (RunPyocd pyocd_args))
            (unlock_quietly E false uid)
      end
  end.

Definition cmd_debug (target : string) (pyocd_args : list string) : M W Z := with_client E (run_debug target pyocd_args).

(** [list]: the text printed, with the exit code. *)
Definition cmd_list : M W (Z * option string) :=
  mtry (connect ;;!
        devices <-! mfinally (or_exit list_) tr_hangup ;;
        match devices with
        | inr code => mret (code, None)
        | inl l =>
            rows <-! mlift (objects (JList l)) ;;
            t <-! mlift (render_table None rows) ;;
            mret (EXIT_OK, Some t)
        end)
    (fun e => match e with RegistryUnavailable => Some (mret (EXIT_NO_DAEMON, None)) | _ => None end).
End Deploy.
