(* ===== verification/DeployFacts.v ===== *)
(** * What [mbdeploy] does around a flash

    The order of its requests whatever the registry, the programmer and the
    clock do: a flash only under a granted flash lock, the unlock after it,
    success only for a flash that succeeded and a board that announced
    itself since; and the wait for that ends in time. *)

From S2P Require Import Prelude Tables Trace Json Base64 Locks Peering Api Client Tool ToolFacts Render Cli Release Deploy.
Local Open Scope py_scope.

Section Deploy.
Notation W := (world deploy_act cache).
Variable E : tool_env deploy_act.
Variable fetch : list string -> string -> list (string * string) -> result string.
Variable json_loads : string -> result json.
Variable read_file : list (event deploy_act) -> string -> result string.
Variable cache_dir : string.
Variable github_token : option string.

#[local] Instance here : Transport W := world_transport E.

(** ** The wait *)

Definition poll (uid : string) (e : event deploy_act) : Prop :=
  e = Dialled \/ e = Sent (find_payload uid) \/ (exists g, e = Got g) \/ exists us, e = Slept us.

(** The board as the last answer of a log shows it. *)
Definition last_seen (uid : string) (d : fields) (l : list (event deploy_act)) : Prop :=
  exists l0 l1, l = l0 ++ l1 /\ seen uid d l1.

Definition is_sent (e : event deploy_act) : bool := match e with Sent _ => true | _ => false end.
Definition requests (l : list (event deploy_act)) : nat := length (List.filter is_sent l).

Lemma requests_app l1 l2 : requests (l1 ++ l2) = (requests l1 + requests l2)%nat.
Proof. unfold requests. rewrite List.filter_app, length_app. reflexivity. Qed.

Lemma asks_polls uid l : asks (find_payload uid) l -> Forall (poll uid) l /\ (requests l <= 1)%nat.
Proof.
  assert (Hd : poll uid Dialled) by (left; reflexivity). assert (Hs : poll uid (Sent (find_payload uid))) by (right; left; reflexivity).
  assert (Hg : forall g, poll uid (Got g)) by (intros g; right; right; left; exists g; reflexivity).
  intros (r & [[-> _]|(d & [-> | ->] & [[-> _]|(g & -> & _)])]); (split; [repeat (constructor; [auto|]); constructor|cbn; lia]).
Qed.

(** One look at the board. *)
Definition look (remote : bool) (uid : string) : M W (option fields) :=
  mtry (d <-! any_find E remote uid ;; mret (Some d))
    (fun e => match is_op_error e with
              | Some code => if String.eqb code CODE_NOT_FOUND then Some (mret None) else None
              | None => None
              end).

Lemma look_does remote uid : does w_trace (look remote uid) (fun s r l s' =>
  (Forall (poll uid) l /\ (requests l <= 1)%nat) /\ r <> Err RuntimeError /\ later s s' /\
  forall d, r = Ok (Some d) -> seen uid d l).
Proof.
  intros s. destruct (any_find_does E remote uid s) as (l & E1 & H). pose proof (asks_polls uid l (asked_asks _ _ _ _ H)) as Hp.
  exists l. pose proof (any_find_ends E remote uid s) as He. pose proof (any_find_later E remote uid s) as Ht.
  unfold look, mstate, mresult, mtry in *. rewrite bind_run. destruct (any_find E remote uid s) as [[d|e] s1]; cbn [fst snd mret] in *.
  - unfold mret. cbn. do 4 (split; [auto; discriminate|]). intros d' [= <-].
    exact (asked_seen _ _ _ H).
  - destruct e; cbn; try (do 4 (split; [auto; congruence|]); discriminate).
    destruct (String.eqb code CODE_NOT_FOUND); cbn; do 4 (split; [auto; discriminate|]); discriminate.
Qed.

Definition fresh_in (previous : pyfloat) (device : option fields) : result bool :=
  match device with Some d => fresh previous d | None => Ok false end.

Lemma fresh_in_ends previous device : fresh_in previous device <> Err RuntimeError.
Proof.
  destruct device as [d|]; [|discriminate]. cbn. unfold fresh, last_probe.
  destruct (is_str _ _); [|discriminate]. destruct (truthy _); [|discriminate].
  destruct (py_float _) as [t|e] eqn:H; [discriminate|]. intros [= ->].
  apply py_float_error in H. destruct H; discriminate.
Qed.

Lemma reprobe_loop_step n remote uid deadline previous : reprobe_loop E (S n) remote uid deadline previous =
  (device <-! look remote uid ;;
   found <-! mlift (fresh_in previous device) ;;
   if found : bool then mret device
   else
     t <-! now ;;
     if deadline - t <=? 0 then mret None
     else sleep E (Z.min REPROBE_POLL_INTERVAL (deadline - t)) ;;!
          reprobe_loop E n remote uid deadline previous).
Proof. reflexivity. Qed.

(** The rounds are enough when there are as many as there are pauses in the
    time left, and one more. *)
Lemma loop_does n remote uid deadline previous : forall s,
  deadline - w_clock s <= Z.of_nat n * REPROBE_POLL_INTERVAL ->
  exists l, w_trace (mstate (reprobe_loop E (S n) remote uid deadline previous) s) = w_trace s ++ l /\
    Forall (poll uid) l /\ (requests l <= S n)%nat /\
    match mresult (reprobe_loop E (S n) remote uid deadline previous) s with
    | Err e => e <> RuntimeError
    | Ok (Some d) => fresh previous d = Ok true /\ last_seen uid d l
    | Ok None => deadline <= w_clock (mstate (reprobe_loop E (S n) remote uid deadline previous) s)
    end.
Proof.
  induction n as [|n IH]; intros s Hn; rewrite reprobe_loop_step;
    destruct (look_does remote uid s) as (l & E1 & [Hp Hr] & He & Ht & Hs); unfold mstate, mresult, later in *;
    rewrite (bind_run (look remote uid)); destruct (look remote uid s) as [[device|e] s1]; cbn [fst snd] in *;
    try (exists l; repeat split; auto; first [lia|congruence]);
    rewrite bind_run; unfold mlift; pose proof (fresh_in_ends previous device) as Hf;
    destruct (fresh_in previous device) as [[]|e] eqn:Ef; cbn [fst snd mret];
    try (exists l; repeat split; auto; first [lia|congruence]).
  1, 3: exists l; split; [exact E1|]; split; [exact Hp|]; split; [lia|]; destruct device as [d|]; [|discriminate Ef];
    split; [exact Ef|exists [], l; auto].
  all: unfold now; rewrite bind_run; unfold mgets; destruct (deadline - w_clock s1 <=? 0) eqn:Hd; cbn [fst snd mret].
  1, 3: exists l; split; [exact E1|]; split; [exact Hp|]; split; [lia|]; unfold mret; cbn; lia.
  - unfold REPROBE_POLL_INTERVAL in *. lia.
  - rewrite bind_run. unfold sleep, mmodify. set (us := Z.min _ _).
    destruct (IH (advance (Z.max 0 us) (log_event E (Slept us) s1))) as (l2 & E2 & Hp2 & Hr2 & Hres).
    { subst us. cbn. unfold REPROBE_POLL_INTERVAL in *. lia. }
    exists (l ++ Slept us :: l2). unfold mstate, mresult in *. split; [rewrite E2; cbn; rewrite E1, <- !app_assoc; reflexivity|].
    split; [apply Forall_app; split; [exact Hp|]; constructor; [right; right; right; eauto|exact Hp2]|].
    split; [rewrite requests_app; cbn in *; unfold requests in *; cbn; lia|].
    destruct (fst _) as [[d|]|e]; [|exact Hres..]. destruct Hres as [Hfr (l3 & l4 & -> & Hseen)].
    split; [exact Hfr|]. exists (l ++ Slept us :: l3), l4. rewrite <- app_assoc. auto.
Qed.

Lemma reprobe_does remote uid previous timeout :
  does w_trace (wait_for_reprobe E remote uid previous timeout) (fun s r l s' =>
    Forall (poll uid) l /\ (requests l <= reprobe_rounds timeout)%nat /\
    match r with
    | Err e => e <> RuntimeError
    | Ok (Some d) => fresh previous d = Ok true /\ last_seen uid d l
    | Ok None => w_clock s + timeout <= w_clock s'
    end).
Proof.
  intros s. unfold wait_for_reprobe, now. unfold mstate, mresult. rewrite bind_run. unfold mgets.
  apply (loop_does (S (Z.to_nat (timeout / REPROBE_POLL_INTERVAL)))).
  unfold REPROBE_POLL_INTERVAL. pose proof (Z.div_mod timeout 100000). pose proof (Z.mod_pos_bound timeout 100000). lia.
Qed.

(** ** The flash *)

Definition mark_payload (uid : string) : fields := [("op", JStr "mark_flashed"); ("uid", JStr uid)].
Definition stage_payload (data : string) : fields := [("op", JStr "send_hex"); ("data", JStr data)].
Definition flash_payload (uid : string) (path : json) : fields := [("op", JStr "flash"); ("uid", JStr uid); ("hex_path", path)].

(** What flashing leaves in the log, and what comes of it, [t] done before:
    here the board's own flash, and the note of one that succeeded; at a
    peer the image's bytes sent, the request for the path they were staged
    at, and the last line of its answer. *)
Inductive flash_acts (t : list (event deploy_act)) (uid hex_path : string) :
    bool -> result bool -> list (event deploy_act) -> Prop :=
| acts_broken e : te_act E t (FlashBoard uid hex_path) = Err e ->
    flash_acts t uid hex_path false (Err e) [Did (FlashBoard uid hex_path)]
| acts_failed rc : te_act E t (FlashBoard uid hex_path) = Ok rc -> rc <> 0 ->
    flash_acts t uid hex_path false (Ok false) [Did (FlashBoard uid hex_path)]
| acts_noted l r : te_act E t (FlashBoard uid hex_path) = Ok 0 -> asks (mark_payload uid) l -> r <> Ok false ->
    flash_acts t uid hex_path false r (Did (FlashBoard uid hex_path) :: l)
| acts_unread e : read_file t hex_path = Err e -> flash_acts t uid hex_path true (Err e) []
| acts_unstaged data r l e : read_file t hex_path = Ok data -> exchanged (stage_payload (b64encode data)) r l ->
    (let! staged := r in item "hex_path" staged) = Err e -> flash_acts t uid hex_path true (Err e) l
| acts_asked data staged path l1 r l2 : read_file t hex_path = Ok data ->
    exchanged (stage_payload (b64encode data)) (Ok staged) l1 -> item "hex_path" staged = Ok path ->
    streamed (flash_payload uid path) r l2 ->
    flash_acts t uid hex_path true
      (let! resp := r in
       if negb (truthy (jget "ok" resp)) && truthy (jget "code" resp)
       then Err (OpError match jget "code" resp with JStr code => code | _ => "" end)
       else Ok (truthy (jget "success" resp))) (l1 ++ l2).

Definition is_flash (e : event deploy_act) : bool :=
  match e with
  | Did (FlashBoard _ _) => true
  | Sent payload => is_str "flash" (jget "op" payload)
  | _ => false
  end.
Definition flashes (l : list (event deploy_act)) : nat := length (List.filter is_flash l).

Lemma flashes_app l1 l2 : flashes (l1 ++ l2) = (flashes l1 + flashes l2)%nat.
Proof. unfold flashes. rewrite List.filter_app, length_app. reflexivity. Qed.

Lemma asks_flashes payload l : is_str "flash" (jget "op" payload) = false -> asks payload l -> flashes l = 0%nat.
Proof.
  intros H (r & [[-> _]|(d & [-> | ->] & [[-> _]|(g & -> & _)])]); unfold flashes; cbn; rewrite ?H; reflexivity.
Qed.

Lemma streamed_flashes payload r l : streamed payload r l -> (flashes l <= 1)%nat.
Proof.
  assert (Hg : forall logs, flashes (map Got logs) = 0%nat) by (induction logs as [|g logs IH]; [reflexivity|exact IH]).
  assert (Hd : forall d, dialled d -> flashes d = 0%nat) by (intros d [-> | ->]; reflexivity).
  assert (Hs : (flashes [Sent payload] <= 1)%nat) by (unfold flashes; cbn; destruct (is_str _ _); cbn; lia).
  intros [[-> _]|(d & Hdd & [[-> _]|(logs & g & _ & _ & -> & _)])]; [cbn; lia|rewrite flashes_app, Hd by exact Hdd; lia|].
  rewrite flashes_app, (flashes_app [Sent payload] (map Got logs ++ [Got g]) : flashes (Sent payload :: _) = _), flashes_app,
    (Hg [g] : flashes [Got g] = _), Hd, Hg by exact Hdd. lia.
Qed.

Lemma polls_flash_none uid l : Forall (poll uid) l -> flashes l = 0%nat.
Proof.
  induction 1 as [|e l He _ IH]; [reflexivity|]. destruct He as [-> | [-> | [[g ->] | [us ->]]]]; exact IH.
Qed.

Lemma flash_acts_once t uid hex_path remote r l : flash_acts t uid hex_path remote r l -> (flashes l <= 1)%nat.
Proof.
  assert (Hstage : forall data r l, exchanged (stage_payload data) r l -> flashes l = 0%nat)
    by (intros ? ? ? H; eapply asks_flashes; [|eexists; exact H]; reflexivity).
  intros [e _|rc _ _|l1 r1 _ H _|e _|data r1 l1 e _ H _|data staged path l1 r1 l2 _ H1 _ H2].
  1, 2, 4: cbn; lia.
  - change (S (flashes l1) <= 1)%nat. rewrite (asks_flashes (mark_payload uid) l1 eq_refl H). lia.
  - rewrite (Hstage _ _ _ H). lia.
  - rewrite flashes_app, (Hstage _ _ _ H1). exact (streamed_flashes _ _ _ H2).
Qed.

Lemma remote_flash_acts t uid hex_path data : read_file t hex_path = Ok data ->
  does w_trace (res <-! remote_flash (S:=W) None uid data ;; mret res.1) (fun _ r l _ => flash_acts t uid hex_path true r l).
Proof.
  intros Hd s. unfold remote_flash, mstate, mresult. rewrite !bind_run. fold (stage_payload (b64encode data)).
  destruct (remote_request_does E (stage_payload (b64encode data)) s) as (l1 & E1 & H1). unfold mstate, mresult in *.
  destruct (remote_request None (stage_payload (b64encode data)) s) as [[staged|e] s1]; cbn [fst snd] in *.
  2: { exists l1. split; [exact E1|]. eapply acts_unstaged; [exact Hd|exact H1|reflexivity]. }
  rewrite !bind_run. unfold mlift. destruct (item "hex_path" staged) as [path|e] eqn:Hp; cbn [fst snd].
  2: { exists l1. split; [exact E1|]. eapply acts_unstaged; [exact Hd|exact H1|exact Hp]. }
  rewrite !bind_run. fold (flash_payload uid path).
  destruct (stream_request_does E (flash_payload uid path) s1) as (l2 & E2 & H2). unfold mstate, mresult in *.
  assert (Ht : w_trace (snd (stream_request None (flash_payload uid path) s1)) = w_trace s ++ l1 ++ l2)
    by (rewrite app_assoc, <- E1; exact E2).
  change (ToolFacts.here E) with here in H2. pose proof (acts_asked t uid hex_path data staged path l1 _ l2 Hd H1 Hp H2) as Ha.
  exists (l1 ++ l2). destruct (stream_request None (flash_payload uid path) s1) as [[resp|e] s2]; cbn [fst snd] in *; [|auto].
  revert Ha. unfold result_bind. destruct (negb _ && _); intros Ha; exact (conj Ht Ha).
Qed.

Lemma flash_does remote uid hex_path :
  does w_trace (flash E read_file remote uid hex_path) (fun s r l _ => flash_acts (w_trace s) uid hex_path remote r l).
Proof.
  unfold flash. destruct remote.
  - intros s. unfold mstate, mresult. rewrite !bind_run. unfold mgets. rewrite !bind_run. unfold mlift.
    destruct (read_file (w_trace s) hex_path) as [data|e] eqn:Hd; cbn [fst snd].
    2: { exists []. rewrite app_nil_r. split; [reflexivity|]. constructor. exact Hd. }
    exact (remote_flash_acts _ uid _ _ Hd s).
  - intros s. unfold mstate, mresult. rewrite !bind_run. unfold perform.
    destruct (te_act E (w_trace s) (FlashBoard uid hex_path)) as [rc|e] eqn:Ha; cbn [fst snd].
    2: { exists [Did (FlashBoard uid hex_path)]. split; [reflexivity|]. constructor. exact Ha. }
    rewrite !bind_run. destruct (rc =? 0) eqn:Hrc.
    2: { exists [Did (FlashBoard uid hex_path)]. split; [reflexivity|]. apply (acts_failed _ _ _ rc Ha). lia. }
    apply Z.eqb_eq in Hrc. subst rc.
    match goal with |- context [mtry (mark_flashed uid) ?h ?s1] =>
      assert (Hn : does w_trace (mtry (mark_flashed uid) h : M W unit) (fun _ _ l _ => asks (mark_payload uid) l)) end.
    { apply (excused_does _ _ tt).
      - eapply does_weaken; [apply mark_flashed_does|]. cbn. intros s0 r l s' H. eapply asked_asks, H.
      - intros e k H. destruct (is_op_error e); [|discriminate]. destruct (String.eqb _ _); [|discriminate]. congruence. }
    destruct (Hn (log_event E (Did (FlashBoard uid hex_path)) s)) as (l & E1 & H). clear Hn. unfold mstate in E1.
    match goal with |- context [mtry (mark_flashed uid) ?h ?s1] => destruct (mtry (mark_flashed uid) h s1) as [[[]|e] s2] end;
      cbn [fst snd] in *; (exists (Did (FlashBoard uid hex_path) :: l)); unfold mret; cbn [fst snd];
      (split; [rewrite E1; cbn; rewrite <- app_assoc; reflexivity|]); constructor; auto; discriminate.
Qed.

(** The lock is given back whatever the flash did, even if the answer is
    only that there is no registry any more. *)
Lemma locked_flash_does remote uid hex_path :
  does w_trace (locked_flash E read_file remote uid hex_path) (fun s r l _ =>
    exists fr flashed rel, l = flashed ++ rel /\
      flash_acts (w_trace s) uid hex_path remote fr flashed /\ asks (unlock_payload uid) rel /\ (forall ok, r = Ok ok -> fr = Ok ok)).
Proof.
  eapply does_weaken; [apply (does_finally _ _ _ _ (flash_does remote uid hex_path) (unlock_quietly_does E remote uid))|].
  cbn. intros s r l s' (r1 & r2 & l1 & l2 & s1 & -> & H1 & H2 & ->). exists r1, l1, l2. repeat split; auto.
  destruct r2; [auto|discriminate].
Qed.

Lemma image_fails a s code : mresult (image fetch json_loads cache_dir github_token a : M W (string + Z)) s = Ok (inr code) -> code <> EXIT_OK.
Proof.
  unfold image. destruct (da_hex a) as [[|c h]|]; [|discriminate|];
    unfold mresult, mtry; rewrite bind_run; unfold on_tool;
    match goal with |- context [resolve_hex ?f ?j ?r ?x ?c ?g ?t] => destruct (resolve_hex f j r x c g t) as [[res|[]] t'] end;
    cbn; try discriminate; intros [= <-]; discriminate.
Qed.

Lemma image_silent a s : w_trace (mstate (image fetch json_loads cache_dir github_token a : M W (string + Z)) s) = w_trace s.
Proof.
  unfold image. destruct (da_hex a) as [[|c h]|]; [|reflexivity|];
    unfold mstate, mtry; rewrite bind_run; unfold on_tool;
    match goal with |- context [resolve_hex ?f ?j ?r ?x ?c ?g ?t] => destruct (resolve_hex f j r x c g t) as [[res|e] t'] end;
    try reflexivity; destruct e; reflexivity.
Qed.

(** What a flow that got the lock and its flash did after [t]; [fr] is what
    came of the flash. *)
Definition under_lock_acts (t : list (event deploy_act)) (remote : bool) (uid hex_path : string) (device : fields)
    (a : deploy_args) (r : result Z) (l : list (event deploy_act)) : Prop :=
  exists fr flashed rel polled, l = flashed ++ rel ++ polled /\
    flash_acts t uid hex_path remote fr flashed /\ asks (unlock_payload uid) rel /\
    Forall (poll uid) polled /\ (requests polled <= reprobe_rounds (da_reprobe_timeout a))%nat /\
    (fr <> Ok true -> polled = []) /\
    (r = Ok EXIT_OK -> fr = Ok true /\
       exists previous d, last_probe device = Ok previous /\ last_seen uid d polled /\ fresh previous d = Ok true).

(** What the flow does, on its own trace: no flash and no success; or a
    granted lock, the flash of the image there was, and the rest. *)
Definition guarded (remote : bool) (uid : string) (device : fields) (a : deploy_args)
    (s : W) (r : result Z) (l : list (event deploy_act)) : Prop :=
  (flashes l = 0%nat /\ r <> Ok EXIT_OK) \/
  exists hex_path lock done,
    l = lock ++ done /\
    mresult (image fetch json_loads cache_dir github_token a) s = Ok (inl hex_path) /\
    granted (lock_payload uid KIND_FLASH) lock /\
    under_lock_acts (w_trace s ++ lock) remote uid hex_path device a r done.

(** The flow past its guards, from the granted lock on. *)
Definition under_lock (remote : bool) (uid hex_path : string) (device : fields) (a : deploy_args) : M W Z :=
  previous <-! mlift (last_probe device) ;;
  success <-! locked_flash E read_file remote uid hex_path ;;
  if negb success then mret EXIT_HARDWARE
  else
    new_device <-! wait_for_reprobe E remote uid previous (da_reprobe_timeout a) ;;
    mret match new_device with None => EXIT_ERROR | Some _ => EXIT_OK end.

Lemma under_lock_does remote uid hex_path device a :
  does w_trace (under_lock remote uid hex_path device a) (fun s r l _ =>
    (l = [] /\ r <> Ok EXIT_OK) \/ under_lock_acts (w_trace s) remote uid hex_path device a r l).
Proof.
  intros s. unfold under_lock, mstate, mresult. rewrite !bind_run. unfold mlift.
  destruct (last_probe device) as [previous|e] eqn:Hlp; cbn [fst snd].
  2: { exists []. rewrite app_nil_r. split; [reflexivity|]. left. split; [reflexivity|discriminate]. }
  destruct (locked_flash_does remote uid hex_path s) as (l & E1 & fr & fl & rel & -> & Hfl & Hrel & Hok).
  unfold mstate, mresult in *. rewrite !bind_run.
  destruct (locked_flash E read_file remote uid hex_path s) as [[[]|e] s1]; cbn [fst snd negb mret] in *.
  2, 3: exists (fl ++ rel); split; [exact E1|]; right; exists fr, fl, rel, []; rewrite app_nil_r; repeat split; auto; cbn; [lia|discriminate..].
  destruct (reprobe_does remote uid previous (da_reprobe_timeout a) s1) as (l2 & E2 & Hp & Hn & Hres).
  unfold mstate, mresult in *. rewrite !bind_run. specialize (Hok true eq_refl). subst fr.
  destruct (wait_for_reprobe E remote uid previous (da_reprobe_timeout a) s1) as [[nd|e] s2]; cbn [fst snd mret] in *;
    (exists (fl ++ rel ++ l2); split; [rewrite E2, E1, <- !app_assoc; reflexivity|]; right; exists (Ok true), fl, rel, l2;
     do 5 (split; [assumption || reflexivity|])); (split; [congruence|]); [|discriminate].
  unfold mret. cbn. destruct nd as [d|]; [|discriminate]. intros _. split; [reflexivity|]. exists previous, d. tauto.
Qed.

Lemma flow_does remote uid device a :
  does w_trace (hex <-! image fetch json_loads cache_dir github_token a ;;
    match hex with
    | inr code => mret code
    | inl hex_path =>
        locked <-! or_exit (any_lock E remote uid KIND_FLASH) ;;
        match locked with inr code => mret code | inl _ => under_lock remote uid hex_path device a end
    end)
    (fun s r l _ => guarded remote uid device a s r l).
Proof.
  intros s. pose proof (image_silent a s) as Ei. unfold mstate, mresult in *. rewrite !bind_run.
  pose proof (image_fails a s) as Hi. unfold mresult in Hi. unfold guarded, mresult.
  destruct (image fetch json_loads cache_dir github_token a s) as [[[hex_path|code]|e] s0]; cbn [fst snd mret] in *.
  2, 3: exists []; rewrite app_nil_r; split; [exact Ei|]; left; split; [reflexivity|];
    cbn; intros [= Heq]; exact (Hi _ eq_refl Heq).
  destruct (or_exit_does _ _ (any_lock_does E remote uid KIND_FLASH) s0) as (lock & E1 & Hlock).
  unfold mstate, mresult in *. rewrite !bind_run.
  assert (Hno : forall r0, asked (lock_payload uid KIND_FLASH) done r0 lock -> flashes lock = 0%nat)
    by (intros r0 H; eapply asks_flashes; [|eapply asked_asks, H]; reflexivity).
  destruct (or_exit (any_lock E remote uid KIND_FLASH) s0) as [[[[]|code]|e] s1]; cbn [fst snd mret] in *.
  2, 3: exists lock; split; [rewrite <- Ei; exact E1|]; left; (split; [first [destruct Hlock as [_ [e Hlock]]|idtac]; eauto|]);
    first [discriminate|intros [= Heq]; exact (proj1 Hlock Heq)].
  destruct (asked_granted _ _ _ _ Hlock) as (resp & Hg & _).
  destruct (under_lock_does remote uid hex_path device a s1) as (l & E2 & H). unfold mstate, mresult in *.
  exists (lock ++ l). split; [rewrite E2, E1, Ei, <- app_assoc; reflexivity|].
  destruct H as [[-> Hr]|H].
  - left. rewrite app_nil_r. eauto.
  - right. exists hex_path, lock, l. split; [reflexivity|]. split; [reflexivity|]. split; [exists resp; exact Hg|].
    rewrite <- Ei, <- E1. exact H.
Qed.

Lemma guarded_once remote uid device a s r l : guarded remote uid device a s r l -> (flashes l <= 1)%nat.
Proof.
  intros [[-> _]|(h & lock & d & -> & _ & [resp Hl] & fr & fl & rel & polled & -> & Hfl & Hrel & Hp & _)]; [lia|].
  rewrite !flashes_app, (polls_flash_none _ _ Hp), (asks_flashes (unlock_payload uid) _ eq_refl Hrel).
  rewrite (asks_flashes (lock_payload uid KIND_FLASH) lock eq_refl (ex_intro (fun r0 => exchanged (lock_payload uid KIND_FLASH) r0 lock) (Ok resp) Hl)). pose proof (flash_acts_once _ _ _ _ _ _ Hfl). lia.
Qed.

(** C21: what [mbdeploy deploy] does once it has found a board, at this
    registry or at a peer's, for any registry, programmer, file system and
    clock, all of it on the trace of what was asked, what was answered and
    what was done. A relay is refused without [--force-relay] before
    anything is asked. A flash, at most one and of the image that was given
    or resolved, is made only after the answer that grants a flash lock on
    the same board, with the unlock asked for right after it whatever came
    of it, and after that, if it succeeded, only the wait's looks at the
    board, no more than its timeout has time for; a flow without a flash
    never succeeds. The exit code is 0 only if that flash succeeded, by its
    own exit code or by the last line of the peer's answer, and the last
    answer read shows the board connected with an announcement newer than
    the one it had before. *)
Theorem deploy_guarded remote device a uid s : uid_of_device device = Ok uid ->
  let run := run_deploy_flow E fetch json_loads read_file cache_dir github_token remote device a in
  exists l, w_trace (mstate run s) = w_trace s ++ l /\ (flashes l <= 1)%nat /\
    (is_relay_device device = true -> da_force_relay a = false -> l = [] /\ mresult run s = Ok EXIT_ERROR) /\
    guarded remote uid device a s (mresult run s) l.
Proof.
  intros Hu. cbv zeta. unfold run_deploy_flow, mstate, mresult. rewrite bind_run. unfold mlift at 1 3. rewrite Hu. cbv beta iota.
  destruct (is_relay_device device && negb (da_force_relay a)) eqn:Hg.
  - exists []. rewrite app_nil_r. repeat split; [cbn; lia|]. left. split; [reflexivity|discriminate].
  - destruct (flow_does remote uid device a s) as (l & E1 & H). exists l. split; [exact E1|]. split; [|split; [|exact H]].
    + exact (guarded_once _ _ _ _ _ _ _ H).
    + intros Hrel Hf. rewrite Hrel, Hf in Hg. discriminate Hg.
Qed.

(** [_wait_for_reprobe] returns for every registry and timeout, within
    the rounds the timeout has pauses for: it never runs out, it only looks
    at the board and sleeps, with at most one request a round; what it
    returns is the board of the last answer read, connected and announced since; and it gives up only when
    the timeout has passed. *)
Theorem reprobe_bounded remote uid previous timeout s :
  let run := wait_for_reprobe E remote uid previous timeout in
  exists l, w_trace (mstate run s) = w_trace s ++ l /\
    Forall (poll uid) l /\ (requests l <= reprobe_rounds timeout)%nat /\
    match mresult run s with
    | Err e => e <> RuntimeError
    | Ok (Some d) => fresh previous d = Ok true /\ last_seen uid d l
    | Ok None => w_clock s + timeout <= w_clock (mstate run s)
    end.
Proof. exact (reprobe_does remote uid previous timeout s). Qed.
End Deploy.

(** A registry whose board announces itself again at every look. *)
Definition example_board (n : nat) : fields :=
  [("uid", JStr "9904"); ("role", JStr "JOYSTICK"); ("state", JStr "connected"); ("last_probe", JInt (Z.of_nat n))].

Definition example_env : tool_env deploy_act := {|
  te_dial _ := true;
  te_answer l payload :=
    Some [Line (JObj (("ok", JBool true) ::
      (if is_str "find" (jget "op" payload) then [("device", JObj (example_board (length l)))] else [])))];
  te_act _ _ := Ok 0;
  te_delay _ := 1000%nat |}.

Definition example_args : deploy_args := mkDeployArgs "9904" (Some "a.hex") "" None false 2000000.

Definition example_world : world deploy_act cache := mkWorld true [] 0 [] (mkCache [] []).

Definition example_deploy : M (world deploy_act cache) Z :=
  run_deploy_flow example_env (fun _ _ _ => Err OSError) (fun _ => Err ValueError) (fun _ _ => Ok "") "cache" None false
    (example_board 0) example_args.

Definition ok_line : option line := Some (Line (JObj [("ok", JBool true)])).

Example deploy_example :
  mresult example_deploy example_world = Ok EXIT_OK /\
  w_trace (mstate example_deploy example_world) =
    [Sent (lock_payload "9904" KIND_FLASH); Got ok_line; Did (FlashBoard "9904" "a.hex"); Sent (mark_payload "9904"); Got ok_line;
     Sent (unlock_payload "9904"); Got ok_line; Sent (find_payload "9904");
     Got (Some (Line (JObj [("ok", JBool true); ("device", JObj (example_board 7))])))].
Proof. vm_compute. split; reflexivity. Qed.

(** A flow that gets its lock, flashes and finds the board again. *)
Lemma deploy_guarded_witness :
  uid_of_device (example_board 0) = Ok "9904" /\
  exists l, w_trace (mstate example_deploy example_world) = w_trace example_world ++ l /\ (flashes l <= 1)%nat /\
    (is_relay_device (example_board 0) = true -> da_force_relay example_args = false -> l = [] /\ mresult example_deploy example_world = Ok EXIT_ERROR) /\
    guarded example_env (fun _ _ _ => Err OSError) (fun _ => Err ValueError) (fun _ _ => Ok "") "cache" None false "9904"
      (example_board 0) example_args example_world (mresult example_deploy example_world) l /\
    mresult example_deploy example_world = Ok EXIT_OK /\ flashes l = 1%nat.
Proof.
  split; [reflexivity|].
  destruct (deploy_guarded example_env (fun _ _ _ => Err OSError) (fun _ => Err ValueError) (fun _ _ => Ok "") "cache" None false
    (example_board 0) example_args "9904" example_world eq_refl) as (l & H1 & H2 & H3 & H4).
  exists l. do 4 (split; [assumption|]). split; [vm_compute; reflexivity|].
  destruct deploy_example as [_ H]. fold example_deploy in H1. rewrite H in H1. cbn [w_trace example_world app] in H1. subst l. reflexivity.
Defined.
