(* ===== verification/Console.v ===== *)
(** * The terminals of [mbrelay] and [mbserial]

    What both commands have besides a registry: a relay's channel with what
    arrives from it, a serial port here or a stream from a peer, the user's
    input, and the standard output. *)

From S2P Require Import Prelude Relay Tool.
Local Open Scope py_scope.

Inductive console_act :=
| ConnectTo (host : string) (port : Z)     (* the next connection is to a peer *)
| OpenPort (port : string) (baud : Z)      (* DTR and RTS deasserted before *)
| ReopenPort (port : string) (baud : Z)
| DropLines                                (* DTR and RTS deasserted *)
| BreakPort (port : string)
| ClosePort
| WritePort (data : string)
| FlushPort
| ResetInput
| OnChannel (e : channel_event).           (* done on, or heard from, a relay's channel *)

Inductive queue_item := QData (data : string) | QClosed.

(** What the terminal's loop sees, in order; the end is the end of input. *)
Inductive term_event := TItem (item : queue_item) | TInput (data : string) | TInterrupt.

(** A local port: what each [readline] gives, and the time it takes.  A
    peer's stream: its payloads, each with the time it arrives, [None] for
    the end; and the session's buffer of them. *)
Record serial_side := mkSerial {
  sr_reads : list (Z * string);
  sr_arrivals : list (Z * option string);
  sr_buf : string;
  sr_eof : bool }.

Definition quiet_port : serial_side := mkSerial [] [] "" false.

Record terminal := mkTerminal {
  tm_relay : relay;
  tm_queue : list (Z * queue_item);          (* each with the time it arrives *)
  tm_events : list term_event;
  tm_out : string;                           (* standard output *)
  tm_serial : serial_side }.

Definition set_relay (r : relay) (t : terminal) : terminal := mkTerminal r (tm_queue t) (tm_events t) (tm_out t) (tm_serial t).
Definition set_queue (q : list (Z * queue_item)) (t : terminal) : terminal :=
  mkTerminal (tm_relay t) q (tm_events t) (tm_out t) (tm_serial t).
Definition print (data : string) (t : terminal) : terminal :=
  mkTerminal (tm_relay t) (tm_queue t) (tm_events t) (tm_out t +:+ data)%string (tm_serial t).
Definition set_serial (p : serial_side) (t : terminal) : terminal :=
  mkTerminal (tm_relay t) (tm_queue t) (tm_events t) (tm_out t) p.
