(* ===== verification/RelayCli.v ===== *)
(** * [relay/cli.py]: connecting to a robot through a relay

    [mbrelay connect]: the robot and the host, the free relay, the address,
    the lock, and the session on the relay's channel: identified, reset,
    tuned, then the data plane by script or from the terminal, and the
    relay's stored address cleared at the end; and the name commands.  What
    is printed is left out, except what the robot sent. *)

From S2P Require Import Prelude Sorting Trace Naming Json Regex Locks Relay Peering Api Client Tool ToolFacts Render Cli Console.
Local Open Scope py_scope.

(** ** The target *)

Record ConnectTarget := mkTarget { ct_robot : string; ct_host : option string }.

Definition parse_target (target : string) : result ConnectTarget :=
  let '(robot_part, at_sign, host_part) := Py.partition "@" (Py.strip target) in
  let! robot := validate robot_part in
  if at_sign : bool then
    match Py.strip host_part with
    | "" => Err ValueError
    | host => Ok (mkTarget robot (Some host))
    end
  else Ok (mkTarget robot None).

(** ** The relay *)

Definition relay_role (role : string) : bool :=
  let upper := Py.upper role in Py.contains upper "RELAY" || Py.contains upper "BRIDGE".

Definition usable (host : option string) (d : fields) : bool :=
  relay_role (text "role" d) && is_none "lock_kind" d &&
  match host with None => true | Some h => is_str h (jget "host" d) end.

(** A stable sort by [host is not None]. *)
Definition free_relay (host : option string) (devices : list fields) : option fields :=
  let candidates := List.filter (usable host) devices in
  List.hd_error (List.filter (is_none "host") candidates ++ List.filter (fun d => negb (is_none "host" d)) candidates)%list.

(** ** The patterns *)

Definition line_end : list re :=
  [RStar (RChr (fun c => negb (Ascii.eqb c "013" || Ascii.eqb c newline))); RAlt (RLit (String "013" nl)) (RLit nl)].

Definition REPLY_RE : re := hash (RAlt (RLit "channel:") (RLit "error:") :: line_end).
Definition TUNED_RE : re := hash [RLit "channel:"; SPACES; RGroup 1 DIGITS; SPACES1; RLit "group:"; SPACES; RGroup 2 DIGITS].
Definition GO_RE : re := hash (RLit "entering data plane" :: line_end).
Definition PONG_RE : re := rcat [RWordB; RLit "pong"; RWordB].

Definition TUNE_SETTLE : Z := 500000.                    (* microseconds *)
Definition SCRIPT_IDLE_GAP : Z := 400000.
Definition GET_TIMEOUT : Z := 200000.

(** ** The session *)

Record connect_args := mkConnectArgs {
  ca_target : string;
  ca_send : list string;
  ca_expect : option string;
  ca_timeout : Z;
  ca_no_probe : bool;
  ca_escape : string }.

(** [tuned.channel] and so on. *)
Record Tuned := mkTuned { tu_channel : Z; tu_group : Z; tu_answered : option bool }.

(** ** Escapes in the lines to send *)

Definition hex_digit_value (c : ascii) : option Z :=
  let n := Z.of_N (N_of_ascii c) in
  if Py.between "0" c "9" then Some (n - 48)
  else if Py.between "a" c "f" then Some (n - 87)
  else if Py.between "A" c "F" then Some (n - 55)
  else None.

Definition digit_in (base : Z) (c : ascii) : option Z :=
  match hex_digit_value c with
  | Some v => if v <? base then Some v else None
  | None => None
  end.

(** At most [n] digits, their value and what follows. *)
Fixpoint digits_in (base : Z) (n : nat) (acc : Z) (s : string) : nat * Z * string :=
  match n, s with
  | S n', String c s' =>
      match digit_in base c with
      | Some v => let '(k, r, t) := digits_in base n' (acc * base + v) s' in (S k, r, t)
      | None => (O, acc, s)
      end
  | _, _ => (O, acc, s)
  end.

Definition latin1 (code : Z) : result string :=
  if code <? 256 then Ok (String (ascii_of_N (Z.to_N code)) "") else Err ValueError.

(** What a backslash and the text after it stand for, and what follows. *)
Definition escape_at (charname : string -> option Z) (s : string) : result (string * string) :=
  let fixed n s' := match digits_in 16 n 0 s' with
                    | (k, v, t) => if Nat.eqb k n then let! c := latin1 v in Ok (c, t) else Err ValueError
                    end in
  match s with
  | "" => Err ValueError
  | String c s' =>
      match digit_in 8 c with
      | Some _ => let '(_, v, t) := digits_in 8 3 0 s in let! c := latin1 v in Ok (c, t)
      | None =>
          if Ascii.eqb c newline then Ok ("", s')
          else if bool_decide (c ∈ ["\"; "'"; "034"]%char) then Ok (String c "", s')
          else match c with
               | "a"%char => Ok (String "007" "", s')
               | "b"%char => Ok (String "008" "", s')
               | "f"%char => Ok (String "012" "", s')
               | "n"%char => Ok (nl, s')
               | "r"%char => Ok (String "013" "", s')
               | "t"%char => Ok (String "009" "", s')
               | "v"%char => Ok (String "011" "", s')
               | "x"%char => fixed 2%nat s'
               | "u"%char => fixed 4%nat s'
               | "U"%char => fixed 8%nat s'
               | "N"%char =>
                   match s' with
                   | String "{" t =>
                       match Py.partition "}" t with
                       | (name, true, t) => match charname name with Some v => let! c := latin1 v in Ok (c, t) | None => Err ValueError end
                       | _ => Err ValueError
                       end
                   | _ => Err ValueError
                   end
               | _ => Ok (String "\" (String c ""), s')
               end
      end
  end.

Fixpoint unescape_loop (fuel : nat) (charname : string -> option Z) (s : string) : result string :=
  match fuel, s with
  | _, "" => Ok ""
  | O, _ => Err RuntimeError
  | S fuel', String c s' =>
      if Ascii.eqb c "\" then
        let! e := escape_at charname s' in
        let! t := unescape_loop fuel' charname e.2 in Ok (e.1 +:+ t)%string
      else let! t := unescape_loop fuel' charname s' in Ok (String c t)
  end.

(** [line.encode().decode("unicode_escape").encode("latin-1")]. *)
Definition unescape (charname : string -> option Z) (s : string) : result string := unescape_loop (String.length s) charname s.

Example unescape_ex :
  unescape (fun _ => None) "a\x41\102\n\u0043\q\\" = Ok ("aAB" +:+ nl +:+ "C\q\")%string /\
  unescape (fun _ => None) "\u0100" = Err ValueError /\ unescape (fun _ => None) "a\" = Err ValueError.
Proof. vm_compute. repeat split. Qed.

Section RelayCli.
Notation W := (world console_act terminal).
Variable E : tool_env console_act.
Variable C : channel_env.
Variable hello_attempts : nat.
Variable open_settle : Z.
Variable other : json -> string.                  (* [str] of what is neither text nor a number *)
(** [re.compile(expect, re.MULTILINE).search] of the user's pattern. *)
Variable compile : string -> result (string -> bool).
(** [unicodedata.lookup], when the name is one. *)
Variable charname : string -> option Z.

#[local] Instance here : Transport W := world_transport E.

(** What is done on the relay's channel, into the tool's one log. *)
Definition log_channel (old new : relay) (s : W) : W :=
  let news := skipn (length (rl_trace old)) (rl_trace new) in
  mkWorld (w_up s) (w_in s) (w_clock s) (w_trace s ++ map (fun e => Did (OnChannel e)) news) (w_tool s).

Definition on_channel {A} (m : M relay A) : M W A := fun s =>
  let old := tm_relay (w_tool s) in
  let (r, new) := m old in (r, log_channel old new (set_tool (set_relay new (w_tool s)) s)).
Definition write (data : string) : M W unit := on_channel (write_nowait C data).
Definition out (data : string) : M W unit := on_tool (mmodify (print (ch_decode C data))).

(** ** Tuning *)

Definition number (m : re_match) (i : nat) : Z := match group i m with Some s => digits_value 0 s | None => 0 end.

Definition tune (entry : fields) (probe : bool) : M W Tuned :=
  channel <-! mlift (item "channel" entry) ;; grp <-! mlift (item "group" entry) ;;
  reply <-! on_channel (ask C ("!CG " +:+ str_with other channel +:+ " " +:+ str_with other grp +:+ nl)%string REPLY_RE) ;;
  match reply with
  | None => mraise RelayError
  | Some reply =>
      match search TUNED_RE (m_text reply) with
      | None => mraise RelayError
      | Some m =>
          sleep E TUNE_SETTLE ;;!
          gone <-! on_channel (ask C ("!GO" +:+ nl)%string GO_RE) ;;
          match gone with
          | None => mraise RelayError
          | Some _ =>
              answered <-! (if probe then
                              sleep E TUNE_SETTLE ;;!
                              pong <-! on_channel (ask C ("PING" +:+ nl)%string PONG_RE) ;;
                              mret (Some match pong with Some _ => true | None => false end)
                            else mret None) ;;
              mret (mkTuned (number m 1) (number m 2) answered)
          end
      end
  end.

(** ** The data plane *)

(** [bytes([ord(escape.upper()) - 64])]. *)
Definition escape_byte (escape : string) : result ascii :=
  match Py.upper escape with
  | String c "" => let code := Z.of_N (N_of_ascii c) - 64 in
                   if code <? 0 then Err ValueError else Ok (ascii_of_N (Z.to_N code))
  | _ => Err TypeError
  end.

Fixpoint terminal_loop (esc : ascii) (events : list term_event) : M W Z :=
  match events with
  | [] | TItem QClosed :: _ | TInput "" :: _ | TInterrupt :: _ => mret EXIT_OK
  | TItem (QData data) :: rest => out data ;;! terminal_loop esc rest
  | TInput data :: rest =>
      match Py.partition esc data with
      | (before, true, _) => (match before with "" => mret tt | _ => write before end) ;;! mret EXIT_OK
      | (_, false, _) => write data ;;! terminal_loop esc rest
      end
  end.

Definition interactive (escape : string) : M W Z :=
  esc <-! mlift (escape_byte escape) ;;
  events <-! mgets (fun s => tm_events (w_tool s)) ;;
  terminal_loop esc events.

Definition line_of (send : string) : result string :=
  let! payload := unescape charname send in
  Ok (if Py.endswith payload nl then payload else (payload +:+ nl)%string).

(** The wait of a script: what arrived, and whether the pattern was seen. *)
Fixpoint script_loop (fuel : nat) (pattern : option (string -> bool)) (deadline : Z) (buf : string) (quiet_after : Z)
    : M W (string * bool) :=
  match fuel with
  | O => mraise RuntimeError
  | S fuel' =>
      t <-! now ;;
      if deadline <=? t then mret (buf, false)
      else
        item <-! await tm_queue set_queue (Z.min GET_TIMEOUT (Z.max (deadline - t) 0)) ;;
        match item with
        | None =>
            t <-! now ;;
            match pattern with
            | None => if negb (String.eqb buf "") && (quiet_after <=? t) then mret (buf, false)
                      else script_loop fuel' pattern deadline buf quiet_after
            | Some _ => script_loop fuel' pattern deadline buf quiet_after
            end
        | Some QClosed => mret (buf, false)
        | Some (QData data) =>
            let buf := (buf +:+ data)%string in
            t <-! now ;;
            match pattern with
            | Some found => if found buf then mret (buf, true)
                            else script_loop fuel' pattern deadline buf (t + SCRIPT_IDLE_GAP)
            | None => script_loop fuel' pattern deadline buf (t + SCRIPT_IDLE_GAP)
            end
        end
  end.

(** A round per item and per pause of the time there is. *)
Definition script_rounds (timeout : Z) (queue : list (Z * queue_item)) : nat :=
  S (S (length queue + Z.to_nat (timeout / GET_TIMEOUT))).

Definition run_script (sends : list string) (expect : option string) (timeout : Z) : M W Z :=
  pattern <-! mlift match expect with
                    | None | Some "" => Ok None
                    | Some p => let! f := compile p in Ok (Some f)
                    end ;;
  t <-! now ;;
  mfor sends (fun s => payload <-! mlift (line_of s) ;; write payload) ;;!
  rounds <-! mgets (fun s => script_rounds timeout (tm_queue (w_tool s))) ;;
  res <-! script_loop rounds pattern (t + timeout) "" (t + timeout) ;;
  out res.1 ;;!
  mret (if res.2 then EXIT_OK
        else match pattern with
             | Some _ => EXIT_ERROR
             | None => if String.eqb res.1 "" then EXIT_ERROR else EXIT_OK
             end).

Definition scripted (a : connect_args) : bool :=
  negb (bool_decide (ca_send a = [])) || match ca_expect a with None | Some "" => false | _ => true end.

(** ** A session *)

Definition or_hardware {A} (m : M W A) : M W (A + Z) :=
  mtry (x <-! m ;; mret (inl x)) (fun e => match e with RelayError => Some (mret (inr EXIT_HARDWARE)) | _ => None end).

Definition identify : M relay BannerInfo :=
  banner <-! hello C hello_attempts true BANNER_RE ;;
  version <-! firmware_version C ;;
  normalize C ;;! mret (with_firmware version banner).

Definition session_body (entry : fields) (a : connect_args) : M W Z :=
  ready <-! or_hardware (on_channel identify) ;;
  match ready with
  | inr code => mret code
  | inl _ =>
      tuned <-! or_hardware (tune entry (negb (ca_no_probe a))) ;;
      match tuned with
      | inr code => mret code
      | inl _ =>
          _ <-! mlift (item "name" entry) ;; _ <-! mlift (item "source" entry) ;;
          on_channel clear ;;!
          if scripted a then run_script (ca_send a) (ca_expect a) (ca_timeout a) else interactive (ca_escape a)
      end
  end.

Definition session_end : M W unit :=
  on_channel (clear ;;! mtry (clear_stored_config C) (fun e => match e with RelayError => Some (mret tt) | _ => None end) ;;!
              close_channel).

Definition run_session (entry : fields) (a : connect_args) : M W Z :=
  on_channel (open_channel C) ;;!
  sleep E open_settle ;;!
  on_channel new_reader ;;!
  mfinally (session_body entry a) session_end.

(** ** The command *)

Definition resolve_entry (robot : string) : M W fields :=
  entry <-! names_get robot ;;
  match entry with
  | Some e => mret e
  | None =>
      address <-! mlift (name_to_radio robot) ;;
      mret [("name", JStr robot); ("channel", JInt address.1); ("group", JInt address.2); ("source", JStr "derived")]
  end.

Definition run_connect_local (device entry : fields) (a : connect_args) : M W Z :=
  uid <-! mlift (uid_of_device device) ;;
  locked <-! or_exit (any_lock E false uid KIND_RELAY) ;;
  match locked with
  | inr code => mret code
  | inl _ =>
      _ <-! mlift (item "port" device) ;;
      mfinally (run_session entry a) (unlock_quietly E false uid)
  end.

Definition run_connect_remote (device entry : fields) (a : connect_args) : M W Z :=
  uid <-! mlift (uid_of_device device) ;;
  match endpoint_of device with
  | None => mret EXIT_ERROR
  | Some (host, port) =>
      at_peer E ConnectTo host port
        (locked <-! or_exit (any_lock E true uid KIND_RELAY) ;;
         match locked with
         | inr code => mret code
         | inl _ => open_stream None uid ;;! run_session entry a
         end)
  end.

Definition run_connect (target : ConnectTarget) (a : connect_args) : M W Z :=
  devices <-! list_ ;;
  rows <-! mlift (objects (JList devices)) ;;
  match free_relay (ct_host target) rows with
  | None => mret EXIT_NO_DEVICE
  | Some device =>
      entry <-! or_exit (resolve_entry (ct_robot target)) ;;
      match entry with
      | inr code => mret code
      | inl entry =>
          if is_none "host" device then run_connect_local device entry a
          else run_connect_remote device entry a
      end
  end.

Definition cmd_connect (a : connect_args) : M W Z :=
  match parse_target (ca_target a) with
  | Err ValueError => mret EXIT_USAGE
  | Err e => mraise e
  | Ok target => with_client E (run_connect target a)
  end.

(** ** The name commands *)

Definition with_client_errors (m : M W Z) : M W Z :=
  mtry (connect ;;! mfinally m tr_hangup)
    (fun e => match e with
              | RegistryUnavailable => Some (mret EXIT_NO_DAEMON)
              | OpError code => Some (mret (exit_code code))
              | _ => None
              end).

Definition print_line (line : string) : M W unit := on_tool (mmodify (print (line +:+ nl)%string)).

Definition cell (k : string) (entry : fields) : result string := let! v := item k entry in Ok (str_with other v).

Definition entry_line (entry : fields) : result string :=
  let! name := cell "name" entry in let! channel := cell "channel" entry in
  let! grp := cell "group" entry in let! source := cell "source" entry in
  Ok (name +:+ ": channel " +:+ channel +:+ " group " +:+ grp +:+ " (" +:+ source +:+ ")")%string.

Definition texts (v : json) : result (list string) :=
  match v with
  | JList l => foldr (fun x acc => match x with JStr s => let! t := acc in Ok (s :: t) | _ => Err TypeError end) (Ok []) l
  | _ => Err TypeError
  end.

Definition tab : string := String "009" "".

Definition listing_line (entry : fields) : result string :=
  let! note :=
    (if truthy (jget "conflict" entry) then
       let! l := texts (jget "conflict" entry) in Ok ("  CONFLICT with " +:+ Py.join "," l)%string
     else if truthy (jget "channel_conflict" entry) then
       let! l := texts (jget "channel_conflict" entry) in Ok ("  channel shared with " +:+ Py.join "," l)%string
     else Ok "") in
  let! name := cell "name" entry in let! channel := cell "channel" entry in
  let! grp := cell "group" entry in let! source := cell "source" entry in
  Ok (name +:+ tab +:+ "channel " +:+ channel +:+ tab +:+ "group " +:+ grp +:+ tab +:+ source +:+ note)%string.

Definition cmd_names_get (name : string) : M W Z :=
  with_client_errors
    (entry <-! names_get name ;;
     match entry with
     | None => mret EXIT_ERROR
     | Some entry => line <-! mlift (entry_line entry) ;; print_line line ;;! mret EXIT_OK
     end).

Definition cmd_names_set (name : string) (channel grp : Z) : M W Z :=
  with_client_errors (entry <-! names_set name channel grp ;;
                      line <-! mlift (entry_line entry) ;; print_line line ;;! mret EXIT_OK).

Definition cmd_names_clear (name : string) : M W Z :=
  with_client_errors (names_clear name ;;! print_line ("mbrelay: cleared " +:+ name) ;;! mret EXIT_OK).

(** [entries] with the name each is sorted by. *)
Fixpoint with_names (entries : list fields) : result (list (string * fields)) :=
  match entries with
  | [] => Ok []
  | e :: rest =>
      let! name := item "name" e in
      match name with
      | JStr name => let! t := with_names rest in Ok ((name, e) :: t)
      | _ => Err TypeError
      end
  end.

Definition cmd_names_list : M W Z :=
  with_client_errors
    (entries <-! names_list ;;
     match entries with
     | [] => mret EXIT_OK
     | _ =>
         rows <-! mlift (objects (JList entries)) ;;
         rows <-! mlift (with_names rows) ;;
         mfor (sorted String.leb fst rows) (fun row => line <-! mlift (listing_line row.2) ;; print_line line) ;;!
         mret EXIT_OK
     end).
End RelayCli.
