(* ===== verification/RelayCliFacts.v ===== *)
(** * What [mbrelay connect] does to a relay

    The commands a session sends the board, in their order, what it has to
    hear before the next, and the lock around them. *)

From S2P Require Import Prelude Trace Naming Json Regex Locks Relay RelayFacts Peering Api Client Tool ToolFacts Render Cli Console RelayCli.
Local Open Scope py_scope.

Section Facts.
Notation W := (world console_act terminal).
Variable E : tool_env console_act.
Variable C : channel_env.
Variable n : nat.
Variable open_settle : Z.
Variable other : json -> string.
Variable compile : string -> result (string -> bool).
Variable charname : string -> option Z.

#[local] Instance here : Transport W := world_transport E.

Definition board (s : W) : relay := tm_relay (w_tool s).

(** ** The channel's part of the log *)

(** What a session logs: pauses, and what happens on the channel. *)
Definition is_session (e : event console_act) : bool :=
  match e with Slept _ | Did (OnChannel _) => true | _ => false end.

Fixpoint chan (l : list (event console_act)) : list channel_event :=
  match l with
  | [] => []
  | Did (OnChannel e) :: l' => e :: chan l'
  | _ :: l' => chan l'
  end.

Lemma chan_app l1 l2 : chan (l1 ++ l2) = chan l1 ++ chan l2.
Proof. induction l1 as [|[| | | | |[]] l1 IH]; cbn [app chan]; rewrite ?IH; reflexivity. Qed.

Lemma chan_map l : chan (map (fun e => Did (OnChannel e)) l) = l.
Proof. induction l as [|e l IH]; cbn; rewrite ?IH; reflexivity. Qed.

(** A part of a session: [Q] of the relay before, the result, and what
    happened on the channel. *)
Definition works {A} (m : M W A) (Q : relay -> result A -> list channel_event -> Prop) : Prop :=
  does w_trace m (fun s r l _ => forallb is_session l = true /\ Q (board s) r (chan l)).

Lemma works_weaken {A} (m : M W A) (Q Q' : relay -> result A -> list channel_event -> Prop) :
  works m Q -> (forall b r l, Q b r l -> Q' b r l) -> works m Q'.
Proof. intros H HQ. eapply does_weaken; [exact H|]. cbn. intros s r l _ [H1 H2]. auto. Qed.

Lemma works_bind {A B} (m : M W A) (k : A -> M W B) Q1 Q2 : works m Q1 -> (forall a, works (k a) (Q2 a)) ->
  works (mbind m k) (fun b r l =>
    (exists e, r = Err e /\ Q1 b (Err e) l) \/ exists a l1 l2 b1, l = l1 ++ l2 /\ Q1 b (Ok a) l1 /\ Q2 a b1 r l2).
Proof.
  intros H1 H2. eapply does_weaken; [exact (does_bind _ _ _ (fun a s r l _ => forallb is_session l = true /\ Q2 a (board s) r (chan l)) H1 H2)|].
  cbn. intros s r l s' [(e & -> & Hs & H)|(a & l1 & l2 & s1 & -> & [S1 P1] & S2 & P2)]; [eauto|].
  rewrite forallb_app, S1, S2, chan_app. split; [reflexivity|]. right. exists a, (chan l1), (chan l2), (board s1). auto.
Qed.

Lemma works_finally {A} (m : M W A) (f : M W unit) Q1 Q2 : works m Q1 -> works f Q2 ->
  works (mfinally m f) (fun b r l => exists r1 r2 l1 l2 b1, l = l1 ++ l2 /\ Q1 b r1 l1 /\ Q2 b1 r2 l2 /\
    r = match r2 with Ok _ => r1 | Err e => Err e end).
Proof.
  intros H1 H2. eapply does_weaken; [exact (does_finally _ _ _ _ H1 H2)|].
  cbn. intros s r l s' (r1 & r2 & l1 & l2 & s1 & -> & [S1 P1] & [S2 P2] & ->).
  rewrite forallb_app, S1, S2, chan_app. split; [reflexivity|]. exists r1, r2, (chan l1), (chan l2), (board s1). auto.
Qed.

(** What logs no more than pauses. *)
Lemma works_quiet {A} (m : M W A) (Q : relay -> result A -> list channel_event -> Prop) :
  (forall s, exists l, w_trace (mstate m s) = w_trace s ++ l /\ forallb is_session l = true /\ chan l = [] /\ Q (board s) (mresult m s) []) ->
  works m Q.
Proof. intros H s. destruct (H s) as (l & E1 & Hs & Hc & HQ). exists l. rewrite Hc. auto. Qed.

Lemma works_run {A} (m : M W A) (g : W -> result A) : (forall s, mresult m s = g s /\ w_trace (mstate m s) = w_trace s) ->
  works m (fun b r l => l = [] /\ exists s, r = g s).
Proof. intros H. apply works_quiet. intros s. exists []. destruct (H s) as [-> ->]. rewrite app_nil_r. eauto 6. Qed.

Lemma works_ret {A} (a : A) : works (mret a) (fun _ r l => r = Ok a /\ l = []).
Proof. apply works_quiet. intros s. exists []. rewrite app_nil_r. auto. Qed.
Lemma works_raise {A} e : works (mraise (A:=A) e) (fun _ r l => r = Err e /\ l = []).
Proof. apply works_quiet. intros s. exists []. rewrite app_nil_r. auto. Qed.
Lemma works_lift {A} (x : result A) : works (mlift x) (fun _ r l => r = x /\ l = []).
Proof. apply works_quiet. intros s. exists []. rewrite app_nil_r. auto. Qed.
Lemma works_sleep us : works (sleep E us) (fun _ r l => r = Ok tt /\ l = []).
Proof. apply works_quiet. intros s. exists [Slept us]. auto. Qed.

Lemma works_channel {A} (m : M relay A) Q : does rl_trace m (fun b r l _ => Q b r l) -> works (on_channel m) Q.
Proof.
  intros H s. destruct (H (board s)) as (l & E1 & HQ). exists (map (fun e => Did (OnChannel e)) l).
  unfold on_channel, board, mstate, mresult in *. destruct (m (tm_relay (w_tool s))) as [r x]. cbn [fst snd] in *.
  unfold log_channel. cbn. rewrite E1, drop_app_length, chan_map. repeat split; [|exact HQ].
  clear. induction l; [reflexivity|exact IHl].
Qed.

(** Only commands written, and nothing heard. *)
Definition is_write (e : channel_event) : bool := match e with EWrite _ => true | _ => false end.
Definition writes {A} (m : M W A) : Prop := works m (fun _ _ l => forallb is_write l = true).

Lemma writes_works {A} (m : M W A) Q : works m Q -> (forall b r l, Q b r l -> l = []) -> writes m.
Proof. intros H HQ. eapply works_weaken; [exact H|]. intros b r l Hl. rewrite (HQ b r l Hl). reflexivity. Qed.

Lemma writes_ret {A} (a : A) : writes (mret a).
Proof. eapply writes_works; [apply works_ret|]. intros b r l [_ H]. exact H. Qed.
Lemma writes_raise {A} e : writes (mraise (A:=A) e).
Proof. eapply writes_works; [apply works_raise|]. intros b r l [_ H]. exact H. Qed.
Lemma writes_lift {A} (x : result A) : writes (mlift x).
Proof. eapply writes_works; [apply works_lift|]. intros b r l [_ H]. exact H. Qed.
Lemma writes_silent {A} (m : M W A) : (forall s, w_trace (mstate m s) = w_trace s) -> writes m.
Proof. intros H. apply works_quiet. intros s. exists []. rewrite app_nil_r, H. auto. Qed.
Lemma writes_bind {A B} (m : M W A) (k : A -> M W B) : writes m -> (forall a, writes (k a)) -> writes (mbind m k).
Proof.
  intros Hm Hk. eapply works_weaken; [exact (works_bind _ _ _ (fun _ _ _ l => forallb is_write l = true) Hm Hk)|].
  intros b r l [(e & _ & H)|(a & l1 & l2 & b1 & -> & H1 & H2)]; [exact H|]. rewrite forallb_app, H1, H2. reflexivity.
Qed.
Lemma writes_for {A} (l : list A) body : (forall x, writes (body x)) -> writes (mfor l body).
Proof. intros H. induction l as [|x l IH]; [apply writes_ret|]. cbn [mfor]. apply writes_bind; auto. Qed.

Lemma writes_write data : writes (write C data).
Proof.
  apply works_channel. eapply does_weaken; [apply write_does|]. cbn. intros s r l s' [-> _]. reflexivity.
Qed.
Lemma writes_clear : writes (on_channel clear).
Proof. apply works_channel. intros s. exists []. rewrite app_nil_r. split; reflexivity. Qed.
Lemma writes_out data : writes (out C data).
Proof. apply writes_silent. reflexivity. Qed.
Lemma writes_await us : writes (await tm_queue set_queue us : M W (option queue_item)).
Proof.
  apply writes_silent. intros s. unfold mstate, await. destruct (tm_queue (w_tool s)) as [|[t x] rest]; [reflexivity|].
  destruct (t <=? w_clock s + Z.max 0 us); reflexivity.
Qed.

Ltac writes_step :=
  lazymatch goal with
  | |- forall _, _ => intro
  | |- writes (mbind _ _) => apply writes_bind
  | |- writes (mfor _ _) => apply writes_for
  | |- writes (mret _) => apply writes_ret
  | |- writes (mraise _) => apply writes_raise
  | |- writes (mlift _) => apply writes_lift
  | |- writes (mgets _) => apply writes_silent; reflexivity
  | |- writes (out _ _) => apply writes_out
  | |- writes (write _ _) => apply writes_write
  | |- writes (on_channel clear) => apply writes_clear
  | |- writes (await _ _ _) => apply writes_await
  | |- writes (match ?x with _ => _ end) => destruct x
  end.

(** ** Tuning *)

Definition CG (channel grp : json) : channel_event :=
  EWrite ("!CG " +:+ str_with other channel +:+ " " +:+ str_with other grp +:+ nl)%string.
Definition GO : channel_event := EWrite ("!GO" +:+ nl)%string.
Definition PING : channel_event := EWrite ("PING" +:+ nl)%string.

Definition pinged (probe : bool) (l : list channel_event) : Prop :=
  if probe then exists w, l = PING :: w /\ acted w = [] else l = [].

(** The commands that tune, each with the reply heard after it: the board
    named its channel and group, and said it goes. *)
Definition tuning (entry : fields) (probe : bool) (l : list channel_event) : Prop :=
  exists channel grp wc wg lp said m gone, item "channel" entry = Ok channel /\ item "group" entry = Ok grp /\
    l = (CG channel grp :: wc) ++ (GO :: wg) ++ lp /\ acted wc = [] /\ acted wg = [] /\
    reply REPLY_RE wc = Some said /\ search TUNED_RE (m_text said) = Some m /\ reply GO_RE wg = Some gone /\
    pinged probe lp.

Definition put_on (l : list channel_event) : Prop := forallb onboard (acted l) = true.

Lemma put_on_app l1 l2 : put_on l1 -> put_on l2 -> put_on (l1 ++ l2).
Proof. unfold put_on. intros H1 H2. rewrite acted_app, forallb_app, H1, H2. reflexivity. Qed.
Lemma put_on_writes l : forallb is_write l = true -> put_on l.
Proof. unfold put_on, acted. induction l as [|[] l IH]; cbn; try discriminate; auto. Qed.
Lemma answered_on command pattern r l : answered command pattern r l -> put_on l.
Proof. intros H. unfold put_on. rewrite (answered_acts _ _ _ _ H). reflexivity. Qed.

Lemma ask_works command pattern : works (on_channel (ask C command pattern)) (fun _ r l => answered command pattern r l).
Proof. apply works_channel, ask_does. Qed.

Definition ping (probe : bool) : M W (option bool) :=
  if probe then
    sleep E TUNE_SETTLE ;;!
    pong <-! on_channel (ask C ("PING" +:+ nl)%string PONG_RE) ;;
    mret (Some match pong with Some _ => true | None => false end)
  else mret None.

Lemma ping_works (probe : bool) : works (ping probe) (fun _ r l => pinged probe l).
Proof.
  unfold ping, pinged. destruct probe.
  2: { eapply works_weaken; [apply works_ret|]. intros b r l [_ H]. exact H. }
  eapply works_weaken.
  { eapply works_bind; [apply works_sleep|]. intros ?. eapply works_bind; [apply ask_works|]. intros pong. apply works_ret. }
  cbn. intros b r l [(e & _ & H & _)|(? & l1 & l2 & b1 & -> & [_ ->] & H)]; [discriminate|].
  destruct H as [(e & _ & w & -> & Hw & _)|(m & l3 & l4 & b2 & -> & (w & -> & Hw & _) & _ & ->)]; exists w; rewrite ?app_nil_r; auto.
Qed.

Lemma pinged_on probe l : pinged probe l -> put_on l.
Proof. destruct probe; [intros (w & -> & Hw); unfold put_on, acted in *; cbn; rewrite Hw; reflexivity|intros ->; reflexivity]. Qed.

(** After the board named its channel and group. *)
Lemma go_works (probe : bool) (m : re_match) :
  works (sleep E TUNE_SETTLE ;;!
         gone <-! on_channel (ask C ("!GO" +:+ nl)%string GO_RE) ;;
         match gone with
         | None => mraise RelayError
         | Some _ => answered <-! ping probe ;; mret (mkTuned (number m 1) (number m 2) answered)
         end)
    (fun _ r l => put_on l /\ forall t, r = Ok t -> tu_channel t = number m 1 /\ tu_group t = number m 2 /\
       exists wg lp gone, l = (GO :: wg) ++ lp /\ acted wg = [] /\ reply GO_RE wg = Some gone /\ pinged probe lp).
Proof.
  eapply works_weaken.
  { eapply works_bind; [apply works_sleep|]. intros ?.
    apply (works_bind _ _ _ (fun (gone : option re_match) (_ : relay) r l =>
      match gone with
      | None => r = Err RelayError /\ l = []
      | Some _ => pinged probe l /\ forall t, r = Ok t -> tu_channel t = number m 1 /\ tu_group t = number m 2
      end) (ask_works _ _)).
    intros [gone|]; [|apply works_raise].
    eapply works_weaken; [eapply works_bind; [apply ping_works|]; intros pong; apply works_ret|].
    cbn. intros b r l [(e & -> & H)|(pong & l1 & l2 & b1 & -> & H & -> & ->)]; [split; [exact H|discriminate]|].
    rewrite app_nil_r. split; [exact H|]. intros t [= <-]. auto. }
  cbv beta. intros b r l [(e & _ & H & _)|(? & l1 & l2 & b1 & -> & [_ ->] & H)]; [discriminate|]. cbn [app].
  destruct H as [(e & -> & H)|(gone & l3 & l4 & b2 & -> & Ha & H)].
  { split; [exact (answered_on _ _ _ _ H)|discriminate]. }
  pose proof (answered_on _ _ _ _ Ha) as Ho. destruct gone as [gone|].
  - destruct H as [Hp Ht]. split; [apply put_on_app; [exact Ho|exact (pinged_on _ _ Hp)]|]. intros t Hr.
    destruct (Ht t Hr) as [H1 H2]. split; [exact H1|]. split; [exact H2|]. destruct Ha as (w & -> & Hw & Hm).
    exists w, l4, gone. split; [reflexivity|]. split; [exact Hw|]. split; [symmetry; exact (Hm _ eq_refl)|exact Hp].
  - destruct H as [-> ->]. rewrite app_nil_r. split; [exact Ho|discriminate].
Qed.

(** [_tune]: nothing but its commands; and what it returns is what the board
    said of its address, all of them sent. *)
Lemma tune_works entry (probe : bool) :
  works (tune E C other entry probe) (fun _ r l => put_on l /\ forall t, r = Ok t -> tuning entry probe l).
Proof.
  unfold tune.
  eapply works_weaken.
  { eapply works_bind; [apply works_lift|]. intros c. eapply works_bind; [apply works_lift|]. intros g.
    apply (works_bind _ _ _ (fun (said : option re_match) (_ : relay) r l => put_on l /\
      forall t : Tuned, r = Ok t -> exists s m wg lp gone, said = Some s /\ search TUNED_RE (m_text s) = Some m /\
        l = (GO :: wg) ++ lp /\ acted wg = [] /\ reply GO_RE wg = Some gone /\ pinged probe lp) (ask_works _ _)).
    assert (Hno : works (mraise (A:=Tuned) RelayError) (fun _ r l => put_on l /\ r = Err RelayError))
      by (eapply works_weaken; [apply works_raise|]; intros b r l [-> ->]; split; reflexivity).
    intros [said|]; [destruct (search TUNED_RE (m_text said)) as [m|] eqn:Hm|].
    - eapply works_weaken; [apply go_works|]. cbn. intros b r l [Ho Ht]. split; [exact Ho|]. intros t Hr.
      destruct (Ht t Hr) as (_ & _ & wg & lp & gone & H). exists said, m, wg, lp, gone. auto.
    - eapply works_weaken; [exact Hno|]. cbn. intros b r l [Ho ->]. split; [exact Ho|discriminate].
    - eapply works_weaken; [exact Hno|]. cbn. intros b r l [Ho ->]. split; [exact Ho|discriminate]. }
  cbv beta. intros b r l [(e & -> & _ & ->)|(c & l1 & l2 & b1 & -> & [Hc ->] & H)]; [split; [reflexivity|discriminate]|].
  destruct H as [(e & -> & _ & ->)|(g & l3 & l4 & b2 & -> & [Hg ->] & H)]; [split; [reflexivity|discriminate]|].
  destruct H as [(e & -> & H)|(said & l5 & l6 & b3 & -> & Ha & Ho & H)].
  { split; [exact (answered_on _ _ _ _ H)|discriminate]. }
  cbn [app]. split; [apply put_on_app; [exact (answered_on _ _ _ _ Ha)|exact Ho]|]. intros t Hr.
  destruct (H t Hr) as (s & m & wg & lp & gone & -> & Hm & -> & Hw & Hgo & Hp). destruct Ha as (wc & -> & Hwc & Hs).
  exists c, g, wc, wg, lp, s, m, gone. split; [auto|]. split; [auto|]. split; [reflexivity|].
  split; [exact Hwc|]. split; [exact Hw|]. split; [symmetry; exact (Hs _ eq_refl)|]. auto.
Qed.

(** ** The data plane *)

Lemma terminal_writes esc events : writes (terminal_loop C esc events).
Proof.
  induction events as [|[[data|]|[|c data]|] rest IH]; cbn [terminal_loop]; repeat first [apply IH|writes_step].
Qed.

Lemma script_loop_writes fuel pattern deadline : forall buf quiet, writes (script_loop fuel pattern deadline buf quiet).
Proof.
  induction fuel as [|fuel IH]; intros buf quiet; cbn [script_loop]; unfold now; repeat first [apply IH|writes_step].
Qed.

Lemma script_writes sends expect timeout : writes (run_script C compile charname sends expect timeout).
Proof. unfold run_script, now. repeat first [apply script_loop_writes|writes_step]. Qed.

(** ** The session *)

Definition at_work (entry : fields) (a : connect_args) (b : string) (l : list channel_event) : Prop :=
  exists info reset tune data, l = reset ++ tune ++ data /\
    reset_done C n false b info reset /\ tuning entry (negb (ca_no_probe a)) tune /\ forallb is_write data = true.

Lemma or_hardware_works {A} (m : M W A) Q : works m Q ->
  works (or_hardware m) (fun b r l => match r with
    | Ok (inl a) => Q b (Ok a) l
    | Ok (inr code) => code = EXIT_HARDWARE /\ Q b (Err RelayError) l
    | Err e => Q b (Err e) l
    end).
Proof.
  intros H s. destruct (H s) as (l & E1 & Hs & HQ). exists l. unfold or_hardware, mtry, mstate, mresult in *. rewrite !bind_run.
  destruct (m s) as [[x|[]] s1]; unfold mret; cbn [fst snd] in *; auto.
Qed.

Lemma identify_works : works (on_channel (identify C n)) (fun b r l =>
  put_on l /\ forall info, r = Ok info -> reset_done C n false (rl_buf b) info l).
Proof. apply works_channel. exact (reset_body_does C n false). Qed.

Lemma session_body_works entry a :
  works (session_body E C n other compile charname entry a) (fun b r l =>
    put_on l /\ (r = Ok EXIT_OK -> at_work entry a (rl_buf b) l)).
Proof.
  set (probe := negb (ca_no_probe a)).
  assert (Hcode : forall code, code = EXIT_HARDWARE -> works (mret code) (fun _ r l => r <> Ok EXIT_OK /\ l = []))
    by (intros code ->; eapply works_weaken; [apply works_ret|]; cbn; intros b r l [-> ->]; split; [discriminate|reflexivity]).
  assert (Hw : writes (_ <-! mlift (item "name" entry) ;; _ <-! mlift (item "source" entry) ;;
      on_channel clear ;;!
      if scripted a then run_script C compile charname (ca_send a) (ca_expect a) (ca_timeout a) else interactive C (ca_escape a))).
  { unfold interactive. repeat first [apply script_writes|apply terminal_writes|writes_step]. }
  unfold session_body.
  eapply works_weaken.
  { apply (works_bind _ _ _ (fun (ready : BannerInfo + Z) (_ : relay) r l => match ready with
      | inr code => code = EXIT_HARDWARE -> r <> Ok EXIT_OK /\ l = []
      | inl _ => put_on l /\ (r = Ok EXIT_OK -> exists tune data, l = tune ++ data /\ tuning entry probe tune /\ forallb is_write data = true)
      end) (or_hardware_works _ _ identify_works)).
    intros [info|code].
    2: { eapply works_weaken; [apply works_ret|]. cbn. intros b r l [-> ->] ->. split; [discriminate|reflexivity]. }
    eapply works_weaken.
    { apply (works_bind _ _ _ (fun (tuned : Tuned + Z) (_ : relay) r l => match tuned with
        | inr code => code = EXIT_HARDWARE -> r <> Ok EXIT_OK /\ l = []
        | inl _ => forallb is_write l = true
        end) (or_hardware_works _ _ (tune_works entry probe))).
      intros [t|code]; [exact Hw|].
      eapply works_weaken; [apply works_ret|]. cbn. intros b r l [-> ->] ->. split; [discriminate|reflexivity]. }
    cbn. intros b r l [(e & -> & Ho & _)|([t|code] & l1 & l2 & b1 & -> & H1 & H2)]; [split; [exact Ho|discriminate]|..].
    - destruct H1 as [Ho Ht]. split; [apply put_on_app; [exact Ho|exact (put_on_writes _ H2)]|]. intros _.
      exists l1, l2. split; [reflexivity|]. split; [exact (Ht t eq_refl)|exact H2].
    - destruct H1 as (Hc & Ho & _). destruct (H2 Hc) as [Hr ->]. rewrite app_nil_r. split; [exact Ho|]. intros Hok. destruct (Hr Hok). }
  cbn. intros b r l [(e & -> & Ho & _)|([info|code] & l1 & l2 & b1 & -> & H1 & H2)]; [split; [exact Ho|discriminate]|..].
  - destruct H1 as [Ho Hd]. destruct H2 as [Ho2 H2]. split; [exact (put_on_app _ _ Ho Ho2)|]. intros Hr.
    destruct (H2 Hr) as (tn & data & -> & Ht & Hdata). exists info, l1, tn, data. auto.
  - destruct H1 as (Hc & Ho & _). destruct (H2 Hc) as [Hr ->]. rewrite app_nil_r. split; [exact Ho|]. intros Hok. destruct (Hr Hok).
Qed.

(** What ends a session: the stored address dropped and the channel closed,
    except that a write that fails leaves it open. *)
Definition ended (r : result unit) (l : list channel_event) : Prop :=
  acted l = [DEFAULTS; EClose] /\ r = Ok tt \/ acted l = [DEFAULTS] /\ exists e, r = Err e /\ e <> RelayError.

Lemma session_end_works : works (session_end C) (fun _ r l => ended r l).
Proof.
  apply works_channel. apply (does_modify _ _ (fun _ r l _ => ended r l)); [reflexivity|].
  intros s. unfold ended, mtry, clear_stored_config, mstate, mresult.
  destruct (ask_does C ("!DEFAULTS" +:+ nl)%string (hash [RLit "stored config cleared"]) s) as (l & E1 & Ha%answered_acts).
  assert (Hclose : forall s1, rl_trace s1 = rl_trace s ++ l -> exists l', rl_trace (emit EClose s1) = rl_trace s ++ l' /\
      acted l' = [DEFAULTS; EClose]).
  { intros s1 H. exists (l ++ [EClose]). split; [cbn; rewrite H, <- app_assoc; reflexivity|]. rewrite acted_app, Ha. reflexivity. }
  unfold mstate in *. rewrite !bind_run. destruct (ask C _ _ s) as [[m|e] s1]; cbn [fst snd] in *.
  - destruct (Hclose _ E1) as (l' & H1 & H2). exists l'. split; [exact H1|auto].
  - destruct e; try (exists l; split; [exact E1|]; right; split; [exact Ha|]; eexists; split; [reflexivity|discriminate]).
    destruct (Hclose _ E1) as (l' & H1 & H2). exists l'. split; [exact H1|auto].
Qed.

(** What a session does on the channel: nothing when it does not open; else
    everything between the opening and the end are writes and breaks, and a
    session that ends well did its work. *)
Definition session (entry : fields) (a : connect_args) (r : result Z) (l : list channel_event) : Prop :=
  (exists e, l = [EOpen] /\ r = Err e) \/
  exists work fin, l = EOpen :: work ++ fin /\ put_on work /\
    (acted fin = [DEFAULTS; EClose] \/ acted fin = [DEFAULTS] /\ exists e, r = Err e) /\
    (r = Ok EXIT_OK -> acted fin = [DEFAULTS; EClose] /\ at_work entry a "" work).

Lemma open_works : works (on_channel (open_channel C)) (fun _ r l => l = [EOpen]).
Proof. apply works_channel. eapply does_weaken; [apply op_does|]. cbn. intros s r l s' [-> _]. reflexivity. Qed.

Lemma reader_works {A} (m : M W A) Q : works m Q ->
  works (on_channel new_reader ;;! m) (fun _ r l => exists t, Q (mkRelay "" false t) r l).
Proof.
  intros H s. unfold mstate, mresult. rewrite bind_run.
  set (s1 := snd (on_channel new_reader s)).
  assert (E1 : on_channel new_reader s = (Ok tt, s1)) by reflexivity.
  assert (E2 : w_trace s1 = w_trace s) by (subst s1; cbn; rewrite drop_all; cbn; apply app_nil_r).
  assert (E3 : board s1 = mkRelay "" false (rl_trace (board s))) by reflexivity.
  rewrite E1. clearbody s1. destruct (H s1) as (l & E4 & Hs & HQ). rewrite E3 in HQ. exists l. unfold mstate, mresult in *.
  rewrite E4, E2. eauto.
Qed.

Lemma run_session_works entry a :
  works (run_session E C n open_settle other compile charname entry a) (fun _ r l => session entry a r l).
Proof.
  unfold run_session. eapply works_weaken.
  { eapply works_bind; [apply open_works|]. intros ?. eapply works_bind; [apply works_sleep|]. intros ?.
    apply reader_works. apply works_finally; [apply session_body_works|apply session_end_works]. }
  cbn. intros b r l [(e & -> & ->)|(? & l1 & l2 & b1 & -> & -> & H)]; [left; eauto|].
  destruct H as [(e & _ & H & _)|(? & l3 & l4 & b2 & -> & [_ ->] & t & r1 & r2 & l5 & l6 & b3 & -> & [Ho Hd] & Hend & ->)]; [discriminate|].
  right. exists l5, l6. split; [reflexivity|]. split; [exact Ho|].
  destruct Hend as [[He ->]|[He (e & -> & _)]]; (split; [eauto|]); [auto|discriminate].
Qed.

(** ** The lock around it *)

Lemma run_connect_local_run device entry a uid port s : uid_of_device device = Ok uid -> item "port" device = Ok port ->
  run_connect_local E C n open_settle other compile charname device entry a s =
  match any_lock E false uid KIND_RELAY s with
  | (Err e, s1) => (match is_op_error e with Some code => Ok (exit_code code) | None => Err e end, s1)
  | (Ok _, s1) => mfinally (run_session E C n open_settle other compile charname entry a) (unlock_quietly E false uid) s1
  end.
Proof.
  intros Hu Hp. unfold run_connect_local. rewrite Hu, Hp. rewrite bind_run. unfold mlift at 1. rewrite bind_run.
  unfold or_exit, mtry. rewrite bind_run. destruct (any_lock E false uid KIND_RELAY s) as [[[]|[]] s1]; reflexivity.
Qed.

(** C22: [mbrelay connect] on a relay of this host, for any registry, board,
    terminal and user's script, all of it on the one trace of what was
    asked, answered, written to the board and heard from it. Without an
    answer that grants a relay lock on the board nothing else is done, its
    port is not even opened, and the exit code is not 0. With it the last
    thing is the request to unlock it, whatever the session came to; and in
    between there are only pauses and the channel: the board is opened, gets
    only writes and breaks, then the command that drops its stored address,
    and is closed unless that write failed. The exit code is 0 only if the
    board introduced itself in whole lines, was sent its defaults and
    reported them in the last configuration heard, was then sent the robot's
    channel and group and named the ones it has, and was sent [!GO] and said
    that it goes, all before any data. *)
Theorem relay_session_guarded device entry a uid port s :
  uid_of_device device = Ok uid -> item "port" device = Ok port ->
  let run := run_connect_local E C n open_settle other compile charname device entry a in
  exists lock l, w_trace (mstate run s) = w_trace s ++ lock ++ l /\
    ((exists e, asked (lock_payload uid KIND_RELAY) done (Err e) lock) /\ l = [] /\ mresult run s <> Ok EXIT_OK \/
     granted (lock_payload uid KIND_RELAY) lock /\
     exists work rel r, l = work ++ rel /\ forallb is_session work = true /\ asks (unlock_payload uid) rel /\
       session entry a r (chan work) /\ (mresult run s = Ok EXIT_OK -> r = Ok EXIT_OK)).
Proof.
  intros Hu Hp. cbv zeta. unfold mstate, mresult. rewrite (run_connect_local_run _ _ _ _ _ _ Hu Hp).
  destruct (any_lock_does E false uid KIND_RELAY s) as (lock & E1 & Hl). unfold mstate, mresult in *. exists lock.
  destruct (any_lock E false uid KIND_RELAY s) as [[[]|e] s1]; cbn [fst snd] in *.
  - destruct (run_session_works entry a s1) as (work & E2 & Hw & Hs).
    rewrite finally_run. cbn [fst snd].
    destruct (unlock_quietly_does E false uid (mstate (run_session E C n open_settle other compile charname entry a) s1)) as (rel & E3 & Hr).
    exists (work ++ rel). split; [rewrite E3, E2, E1, <- !app_assoc; reflexivity|]. right.
    destruct (asked_granted _ _ _ _ Hl) as (resp & Hg & _). split; [exists resp; exact Hg|].
    exists work, rel, (mresult (run_session E C n open_settle other compile charname entry a) s1). repeat split; auto.
    destruct (mresult (unlock_quietly E false uid) _); [auto|discriminate].
  - exists []. rewrite app_nil_r. split; [exact E1|]. left. split; [eauto|]. split; [reflexivity|].
    destruct (is_op_error e) as [code|]; [|discriminate]. intros [= H]. exact (exit_code_fails _ H).
Qed.

(** ** A script's wait *)

Definition data_of (i : Z * queue_item) : string := match i.2 with QData d => d | QClosed => "" end.
Definition heard_of (items : list (Z * queue_item)) : string := String.concat "" (map data_of items).

Definition queue (s : W) : list (Z * queue_item) := tm_queue (w_tool s).

(** The pauses there can still be. *)
Definition pauses (deadline : Z) (s : W) : Z := (deadline - w_clock s + GET_TIMEOUT - 1) / GET_TIMEOUT.

(** What a wait from [s] to [s'] that read [items] comes to. *)
Definition waited_for (pattern : option (string -> bool)) (deadline : Z) (buf : string) (s s' : W)
    (res : string * bool) (items : list (Z * queue_item)) : Prop :=
  queue s = items ++ queue s' /\ res.1 = (buf +:+ heard_of items)%string /\ w_clock s' <= Z.max deadline (w_clock s) /\
  (forall i1 t d i2, items = i1 ++ (t, QData d) :: i2 ->
     match pattern with
     | None => True
     | Some f => f (buf +:+ heard_of (i1 ++ [(t, QData d)]))%string = res.2 && bool_decide (i2 = [])
     end) /\
  (res.2 = true -> exists f i1 t d, pattern = Some f /\ items = i1 ++ [(t, QData d)]) /\
  (res.2 = false -> deadline <= w_clock s' \/ (exists i1 t, items = i1 ++ [(t, QClosed)]) \/ pattern = None /\ res.1 <> "").

Ltac parts := refine (conj _ (conj _ (conj _ (conj _ (conj _ _))))).

Lemma heard_cons i items : heard_of (i :: items) = (data_of i +:+ heard_of items)%string.
Proof. unfold heard_of. destruct items; cbn; [symmetry; apply Py.append_nil_r|reflexivity]. Qed.

Lemma waited_cons pattern deadline buf s s1 s' res t d items :
  queue s = (t, QData d) :: queue s1 -> w_clock s <= w_clock s1 <= deadline ->
  match pattern with Some f => f (buf +:+ d)%string = false | None => True end ->
  waited_for pattern deadline (buf +:+ d)%string s1 s' res items ->
  waited_for pattern deadline buf s s' res ((t, QData d) :: items).
Proof.
  intros Hq Hc Hf (H1 & H2 & H3 & H4 & H5 & H6). parts.
  - rewrite Hq, H1. reflexivity.
  - rewrite H2, heard_cons, Py.append_assoc. reflexivity.
  - lia.
  - intros [|i i1] t' d' i2 E1.
    + injection E1 as <- <- <-. destruct pattern as [f|]; [|exact I]. unfold heard_of. cbn [app data_of snd map String.concat].
      rewrite Hf. destruct items as [|x items]; [|symmetry; apply andb_false_r].
      destruct res.2; [|reflexivity]. destruct (H5 eq_refl) as (_ & i1 & ? & ? & _ & E2). destruct i1; discriminate.
    + injection E1 as <- E1. specialize (H4 i1 t' d' i2 E1). destruct pattern as [f|]; [|exact I]. rewrite <- H4.
      cbn [app]. rewrite heard_cons, Py.append_assoc. reflexivity.
  - intros Hs. destruct (H5 Hs) as (f & i1 & t' & d' & Hp & ->). exists f, ((t, QData d) :: i1), t', d'. auto.
  - intros Hs. destruct (H6 Hs) as [H|[(i1 & t' & ->)|H]]; [auto| |auto]. right. left. exists ((t, QData d) :: i1), t'. reflexivity.
Qed.

Lemma await_run us (s : W) : 0 <= us -> await tm_queue set_queue us s =
  match queue s with
  | (t, x) :: rest => if t <=? w_clock s + us then (Ok (Some x), set_tool (set_queue rest (w_tool s)) (advance (Z.max 0 (t - w_clock s)) s))
                      else (Ok None, advance us s)
  | [] => (Ok None, advance us s)
  end.
Proof. intros H. unfold await, queue. rewrite Z.max_r by exact H. reflexivity. Qed.

Lemma pauses_less deadline s us : 0 < deadline - w_clock s -> us = Z.min GET_TIMEOUT (deadline - w_clock s) ->
  pauses deadline (advance us s) < pauses deadline s /\ 0 < pauses deadline s.
Proof.
  intros Hd ->. unfold pauses, advance, GET_TIMEOUT. cbn [w_clock].
  pose proof (Z.div_mod (deadline - w_clock s + 200000 - 1) 200000). pose proof (Z.mod_pos_bound (deadline - w_clock s + 200000 - 1) 200000).
  split; [apply Z.div_lt_upper_bound; lia|apply Z.div_str_pos; lia].
Qed.

Lemma script_loop_hears pattern deadline : forall fuel buf quiet s,
  Z.of_nat (length (queue s)) + Z.max 0 (pauses deadline s) < Z.of_nat fuel ->
  exists res s' items, script_loop fuel pattern deadline buf quiet s = (Ok res, s') /\ waited_for pattern deadline buf s s' res items.
Proof.
  induction fuel as [|fuel IH]; intros buf quiet s Hf; [lia|]. cbn [script_loop]. unfold now. rewrite bind_run. unfold mgets at 1.
  destruct (deadline <=? w_clock s) eqn:Hd.
  { exists (buf, false), s, []. split; [reflexivity|]. unfold waited_for, heard_of. cbn [map String.concat fst snd app].
    rewrite Py.append_nil_r. parts; [reflexivity|reflexivity|lia|intros [] ? ? ?; discriminate|discriminate|left; lia]. }
  rewrite bind_run, await_run by (unfold GET_TIMEOUT; lia).
  assert (Hempty : exists res s' items,
    (match pattern with
     | None => if negb (String.eqb buf "") && (quiet <=? w_clock (advance (Z.min GET_TIMEOUT (Z.max (deadline - w_clock s) 0)) s))
               then mret (buf, false) else script_loop fuel pattern deadline buf quiet
     | Some _ => script_loop fuel pattern deadline buf quiet
     end) (advance (Z.min GET_TIMEOUT (Z.max (deadline - w_clock s) 0)) s) = (Ok res, s') /\ waited_for pattern deadline buf s s' res items).
  { set (s1 := advance _ s). destruct (pauses_less deadline s (Z.min GET_TIMEOUT (Z.max (deadline - w_clock s) 0))) as [Hp Hp0]; [lia|lia|]. fold s1 in Hp.
    assert (Hc : w_clock s < w_clock s1 <= deadline) by (subst s1; cbn; unfold GET_TIMEOUT; lia).
    assert (Hq : queue s1 = queue s) by reflexivity. clearbody s1.
    assert (Hgo : exists res s' items, script_loop fuel pattern deadline buf quiet s1 = (Ok res, s') /\ waited_for pattern deadline buf s s' res items).
    { destruct (IH buf quiet s1) as (res & s' & items & -> & H1 & H2 & H3 & H4); [rewrite Hq; lia|].
      exists res, s', items. split; [reflexivity|]. rewrite Hq in H1. parts; [exact H1|exact H2|lia|tauto..]. }
    destruct pattern as [f|]; [exact Hgo|]. destruct (negb (String.eqb buf "") && (quiet <=? w_clock s1)) eqn:Eq; [|exact Hgo].
    exists (buf, false), s1, []. split; [reflexivity|]. unfold waited_for, heard_of. cbn [map String.concat fst snd app].
    rewrite Py.append_nil_r, Hq. parts; [reflexivity|reflexivity|lia|intros [] ? ? ?; discriminate|discriminate|].
    intros _. right. right. split; [reflexivity|].
    apply andb_prop in Eq as [Eq _]. intros ->. discriminate Eq. }
  destruct (queue s) as [|[t x] rest] eqn:Eq; [exact Hempty|].
  destruct (t <=? w_clock s + Z.min GET_TIMEOUT (Z.max (deadline - w_clock s) 0)) eqn:Ht; [|exact Hempty]. clear Hempty.
  set (s1 := set_tool _ _). assert (Hq : queue s1 = rest) by reflexivity.
  assert (Hc : w_clock s <= w_clock s1 <= deadline) by (subst s1; cbn; lia).
  assert (Hp : pauses deadline s1 <= pauses deadline s) by (unfold pauses; apply Z.div_le_mono; unfold GET_TIMEOUT; lia).
  clearbody s1. destruct x as [data|].
  2: { exists (buf, false), s1, [(t, QClosed)]. split; [reflexivity|]. unfold waited_for, heard_of. cbn [map String.concat fst snd app data_of].
       rewrite Py.append_nil_r, Hq. parts; [exact Eq|reflexivity|lia| |discriminate|].
       - intros [|? [|]] ? ? ?; discriminate.
       - intros _. right. left. exists [], t. reflexivity. }
  unfold mgets. rewrite !bind_run. assert (Hq' : queue s = (t, QData data) :: queue s1) by (rewrite Eq, Hq; reflexivity).
  assert (Hgo : match pattern with Some f => f (buf +:+ data)%string = false | None => True end -> exists res s' items,
    script_loop fuel pattern deadline (buf +:+ data)%string (w_clock s1 + SCRIPT_IDLE_GAP) s1 = (Ok res, s') /\
    waited_for pattern deadline buf s s' res items).
  { intros Hno. destruct (IH (buf +:+ data)%string (w_clock s1 + SCRIPT_IDLE_GAP) s1) as (res & s' & items & E1 & Hw).
    { rewrite Hq. cbn [length] in Hf. lia. }
    exists res, s', ((t, QData data) :: items). split; [exact E1|]. eapply waited_cons; eassumption. }
  destruct pattern as [f|]; [|exact (Hgo I)]. destruct (f (buf +:+ data)%string) eqn:Hfound; [|exact (Hgo eq_refl)].
  exists ((buf +:+ data)%string, true), s1, [(t, QData data)]. split; [reflexivity|].
  parts; [exact Hq'|unfold heard_of; cbn; reflexivity|lia| | |discriminate].
  - intros [|? [|]] t' d' i2 E1; try discriminate E1. injection E1 as <- <- <-. exact Hfound.
  - intros _. exists f, [], t, data. auto.
Qed.

(** the wait of [mbrelay connect --send/--expect] for its answer. For
    any arrivals and any pattern it returns, and no later than the timeout
    allows; it takes what has arrived in order, keeps all of it, and stops
    at the first piece with which the pattern is found; without the pattern
    found it goes on until the timeout, the end of the connection, or, when
    no pattern was asked for, a quiet gap after something came. *)
Theorem script_hears pattern timeout s :
  exists res s' items,
    script_loop (script_rounds timeout (queue s)) pattern (w_clock s + timeout) "" (w_clock s + timeout) s = (Ok res, s') /\
    waited_for pattern (w_clock s + timeout) "" s s' res items.
Proof.
  apply script_loop_hears. unfold script_rounds, pauses, GET_TIMEOUT.
  replace (w_clock s + timeout - w_clock s + 200000 - 1) with (timeout + 199999) by lia.
  pose proof (Z.div_mod timeout 200000). pose proof (Z.mod_pos_bound timeout 200000).
  assert ((timeout + 199999) / 200000 <= timeout / 200000 + 1) by (apply Z.lt_succ_r, Z.div_lt_upper_bound; lia). lia.
Qed.
End Facts.

(** A bridge that answers everything, and a script of one line. *)
Definition bridge_reply (trace : list channel_event) : list arrival :=
  match List.filter is_act (rev trace) with
  | EWrite command :: _ =>
      let say s := [Arrived (s +:+ nl)%string] in
      if String.eqb command ("HELLO" +:+ nl)%string then say "DEVICE:RADIOBRIDGE:relay:getez:1784514240"%string
      else if String.eqb command ("?" +:+ nl)%string then say "# channel: 0 group: 10 mode: RAW250 power: 7"%string
      else if String.eqb command ("!CG 7 3" +:+ nl)%string then say "# channel: 7 group: 3"%string
      else if String.eqb command ("!GO" +:+ nl)%string then say "# entering data plane"%string
      else if String.eqb command ("PING" +:+ nl)%string then say "pong"%string
      else []
  | _ => []
  end.

Definition bridge : channel_env := mkChannelEnv (fun _ => Ok tt) (fun _ _ => Ok tt) (fun _ => Ok tt) bridge_reply (fun s => s).

Definition granting : tool_env console_act := {|
  te_dial _ := true;
  te_answer _ _ := Some [Line (JObj [("ok", JBool true)])];
  te_act _ _ := Ok 0;
  te_delay _ := 0%nat |}.

Definition example_device : fields := [("uid", JStr "9904"); ("role", JStr "RADIOBRIDGE"); ("port", JStr "/dev/ttyACM0")].
Definition example_entry : fields := [("name", JStr "tovez"); ("channel", JInt 7); ("group", JInt 3); ("source", JStr "derived")].
Definition example_connect : connect_args := mkConnectArgs "tovez" ["VER"] None 1000000 false "]".
Definition example_start : world console_act terminal :=
  mkWorld true [] 0 [] (mkTerminal fresh_relay [(1100000, QData ("ver 2" +:+ nl)%string)] [] "" quiet_port).

Definition example_run : M (world console_act terminal) Z :=
  run_connect_local granting bridge 4 300000 (fun _ => "") (fun _ => Err ValueError) (fun _ => None) example_device example_entry example_connect.

(** What a session did, without the pauses and without what was heard. *)
Definition is_doing (e : event console_act) : bool :=
  match e with Slept _ => false | Did (OnChannel e) => is_act e | _ => true end.

Example relay_session_example :
  mresult example_run example_start = Ok EXIT_OK /\
  tm_out (w_tool (mstate example_run example_start)) = ("ver 2" +:+ nl)%string /\
  List.filter is_doing (w_trace (mstate example_run example_start)) =
    [Sent (lock_payload "9904" KIND_RELAY); Got (Some (Line (JObj [("ok", JBool true)])))] ++
    map (fun e => Did (OnChannel e)) ([EOpen; HELLO; VER] ++ round ++
      [EWrite ("!CG 7 3" +:+ nl)%string; GO; PING; EWrite ("VER" +:+ nl)%string; DEFAULTS; EClose]) ++
    [Sent (unlock_payload "9904"); Got (Some (Line (JObj [("ok", JBool true)])))].
Proof. vm_compute. repeat split. Qed.

Lemma relay_session_guarded_witness :
  uid_of_device example_device = Ok "9904" /\ item "port" example_device = Ok (JStr "/dev/ttyACM0") /\
  mresult example_run example_start = Ok EXIT_OK /\
  exists lock l, w_trace (mstate example_run example_start) = w_trace example_start ++ lock ++ l /\
    ((exists e, asked (lock_payload "9904" KIND_RELAY) done (Err e) lock) /\ l = [] /\ mresult example_run example_start <> Ok EXIT_OK \/
     granted (lock_payload "9904" KIND_RELAY) lock /\
     exists work rel r, l = work ++ rel /\ forallb is_session work = true /\ asks (unlock_payload "9904") rel /\
       session bridge 4 (fun _ => "") example_entry example_connect r (chan work) /\
       (mresult example_run example_start = Ok EXIT_OK -> r = Ok EXIT_OK)).
Proof.
  split; [reflexivity|]. split; [reflexivity|]. split; [vm_compute; reflexivity|].
  exact (relay_session_guarded granting bridge 4 300000 (fun _ => "") (fun _ => Err ValueError) (fun _ => None)
    example_device example_entry example_connect "9904" (JStr "/dev/ttyACM0") example_start eq_refl eq_refl).
Defined.
