(* ===== verification/Serial.v ===== *)
(** * [mbserial]: a line to a board by name

    [serial/connect.py], [serial/remote_connect.py] and [serial/cli.py]: the
    lock around a port opened without rebooting its board, the reset asked
    for, one message and its answer or the terminal, on this host's port or
    on a peer's stream, and the relay for a robot that is not attached.
    What is printed is left out, except what the board said. *)

From S2P Require Import Prelude Trace Loop Json Regex Locks Relay Peering Api Client Tool ToolFacts Render Cli Console RelayCli.
Local Open Scope py_scope.

Definition BAUD_RATE : Z := 115200.
Definition OPEN_SETTLE : Z := 300000.                    (* microseconds *)
Definition IDLE_GAP : Z := 400000.
Definition READ_TIMEOUT : Z := 100000.
Definition EOF_DRAIN : Z := 400000.
Definition RESET_SETTLE : Z := 300000.
Definition KIND_SERIAL : string := "serial".

Record serial_args := mkSerialArgs {
  se_target : string;
  se_message : list string;
  se_reset : bool;
  se_baud : Z;
  se_timeout : Z }.

(** What a session is used through, here or at a peer. *)
Record wire (S : Type) := mkWire {
  wr_reset : M S unit;
  wr_write : string -> M S unit;
  wr_flush : M S unit;
  wr_readline : M S string }.
Arguments mkWire {S}.
Arguments wr_reset {S} w.
Arguments wr_write {S} w data.
Arguments wr_flush {S} w.
Arguments wr_readline {S} w.

Section Serial.
Notation W := (world console_act terminal).
Variable E : tool_env console_act.
Variable C : channel_env.
(** [platform.system() == "Linux"]. *)
Variable linux : bool.

#[local] Instance here : Transport W := world_transport E.

Definition act (x : console_act) : M W unit := perform E x ;;! mret tt.
Definition serial (s : W) : serial_side := tm_serial (w_tool s).
Definition with_serial (p : serial_side) : M W unit := mmodify (fun s => set_tool (set_serial p (w_tool s)) s).

(** ** A port here *)

(** What pyserial's [readline] gives, and the time it takes. *)
Definition local_readline : M W string :=
  p <-! mgets serial ;;
  match sr_reads p with
  | [] => mmodify (advance READ_TIMEOUT) ;;! mret ""
  | (us, line) :: rest =>
      with_serial (mkSerial rest (sr_arrivals p) (sr_buf p) (sr_eof p)) ;;!
      mmodify (advance (Z.max 0 us)) ;;! mret line
  end.

Definition local_wire : wire W := mkWire (act ResetInput) (fun data => act (WritePort data)) (act FlushPort) local_readline.

(** [except Exception as exc: raise ConnectError]. *)
Definition or_connect_error {A} (m : M W A) : M W A := mtry m (fun _ => Some (mraise ConnectError)).
Definition ignoring (m : M W unit) : M W unit := mtry m (fun _ => Some (mret tt)).

Definition settle (us : Z) : M W unit := if us =? 0 then mret tt else sleep E us.

Definition open_no_reboot (port : string) (baud us : Z) : M W unit :=
  or_connect_error (act (OpenPort port baud)) ;;! settle us.

Definition reset_via_break (port : string) : M W unit :=
  or_connect_error (act (BreakPort port)) ;;! settle RESET_SETTLE.

Definition reset_via_reopen (port : string) (baud : Z) : M W unit :=
  ignoring (act ClosePort) ;;!
  or_connect_error (act (ReopenPort port baud)) ;;! settle RESET_SETTLE ;;! act DropLines.

(** [except Exception: unlock; raise]. *)
Definition or_unlock {A} (remote : bool) (uid : string) (m : M W A) : M W A :=
  mtry m (fun e => Some (unlock_quietly E remote uid ;;! mraise e)).

Definition falsy (k : string) (d : fields) : bool := negb (truthy (jget k d)).

(** [connect]: the uid the session is on. *)
Definition connect_port (target : string) (reset : bool) (baud : Z) : M W string :=
  device <-! Client.find target ;;
  uid <-! mlift (uid_of_device device) ;;
  if falsy "port" device then mraise ConnectError
  else
    port <-! mlift (match jget "port" device with JStr p => Ok p | _ => Err TypeError end) ;;
    any_lock E false uid KIND_SERIAL ;;!
    or_unlock false uid
      (open_no_reboot port baud OPEN_SETTLE ;;!
       if reset then (if linux then reset_via_break port else reset_via_reopen port baud) else mret tt) ;;!
    mret uid.

Definition close_session (uid : string) : M W unit :=
  ignoring (act ClosePort) ;;! unlock_quietly E false uid.

(** ** A peer's stream *)

(** The reader thread: what has arrived by [t] is in the buffer. *)
Fixpoint pumped (t : Z) (arrivals : list (Z * option string)) (buf : string) : list (Z * option string) * string * bool :=
  match arrivals with
  | (at_us, item) :: rest =>
      if at_us <=? t then
        match item with
        | Some data => pumped t rest (buf +:+ data)%string
        | None => (rest, buf, true)
        end
      else (arrivals, buf, false)
  | [] => ([], buf, false)
  end.

Definition pump : M W unit := fun s =>
  let p := serial s in
  if sr_eof p then (Ok tt, s)
  else let '(rest, buf, eof) := pumped (w_clock s) (sr_arrivals p) (sr_buf p) in
       with_serial (mkSerial (sr_reads p) rest buf eof) s.

(** [self._cond.wait(remaining)]: to the next arrival, or the end. *)
Definition wait_arrival (remaining : Z) : M W unit := fun s =>
  match sr_arrivals (serial s) with
  | (at_us, _) :: _ => (Ok tt, advance (Z.min remaining (Z.max 0 (at_us - w_clock s))) s)
  | [] => (Ok tt, advance remaining s)
  end.

Fixpoint wait_until (fuel : nat) (enough : string -> bool) (deadline : Z) : M W unit :=
  match fuel with
  | O => mraise RuntimeError
  | S fuel' =>
      pump ;;!
      p <-! mgets serial ;;
      if enough (sr_buf p) || sr_eof p then mret tt
      else
        t <-! now ;;
        if deadline - t <=? 0 then mret tt
        else wait_arrival (deadline - t) ;;! wait_until fuel' enough deadline
  end.

Definition wait_rounds (s : W) : nat := S (S (length (sr_arrivals (serial s)))).

Definition set_buffer (buf : string) : M W unit :=
  p <-! mgets serial ;; with_serial (mkSerial (sr_reads p) (sr_arrivals p) buf (sr_eof p)).

(** Up to and with the first newline; everything without one. *)
Definition take_line (buf : string) : string * string :=
  match Py.partition newline buf with
  | (line, true, rest) => ((line +:+ nl)%string, rest)
  | (all, false, _) => (all, "")
  end.

Definition remote_readline : M W string :=
  t <-! now ;;
  rounds <-! mgets wait_rounds ;;
  wait_until rounds (Py.sexists (Ascii.eqb newline)) (t + READ_TIMEOUT) ;;!
  p <-! mgets serial ;;
  let '(line, rest) := take_line (sr_buf p) in
  set_buffer rest ;;! mret line.

Definition remote_read (size : nat) : M W string :=
  match size with
  | O => mret ""
  | _ =>
      t <-! now ;;
      rounds <-! mgets wait_rounds ;;
      wait_until rounds (fun buf => Nat.leb size (String.length buf)) (t + READ_TIMEOUT) ;;!
      p <-! mgets serial ;;
      set_buffer (Py.sdrop size (sr_buf p)) ;;! mret (Py.stake size (sr_buf p))
  end.

Definition remote_wire : wire W :=
  mkWire (pump ;;! set_buffer "") (fun data => act (WritePort data)) (mret tt) remote_readline.

Definition connect_stream (target : string) (reset : bool) : M W string :=
  device <-! remote_find None target ;;
  uid <-! mlift (uid_of_device device) ;;
  any_lock E true uid KIND_SERIAL ;;!
  or_unlock true uid (open_stream None uid) ;;!
  (if reset then act (BreakPort uid) ;;! settle RESET_SETTLE else mret tt) ;;!
  mret uid.

Definition close_stream : M W unit := ignoring (act ClosePort).

(** ** What a session does *)

Definition text_of (raw : string) : string := Py.rstrip (String "013" nl) (ch_decode C raw).

(** One turn of the wait: the lines so far, and when a pause ends it.  A
    read takes a microsecond at least. *)
Definition answer_turn (w : wire W) (deadline : Z) (a : list string * Z) : M W (list string * Z + list string) :=
  let '(lines, quiet_after) := a in
  t <-! now ;;
  if (deadline <=? t) || (negb (bool_decide (lines = [])) && (quiet_after <=? t)) then mret (inr lines)
  else
    raw <-! wr_readline w ;;
    mmodify (advance 1) ;;!
    match raw with
    | "" => mret (inl (lines, quiet_after))
    | _ =>
        t <-! now ;;
        mret (inl (match text_of raw with "" => lines | text => (lines ++ [text])%list end, t + IDLE_GAP))
    end.

Definition send_command (w : wire W) (message : string) (timeout : Z) : M W (list string) :=
  wr_reset w ;;! wr_write w (message +:+ nl)%string ;;! wr_flush w ;;!
  t <-! now ;;
  mwhile (answer_turn w (t + timeout)) (Z.to_pos (timeout + 2)) ([], t + timeout).

(** The terminal: every line to the board until the input ends. *)
Fixpoint interact_loop (w : wire W) (events : list term_event) : M W unit :=
  match events with
  | TInput (String _ _ as line) :: rest => wr_write w line ;;! wr_flush w ;;! interact_loop w rest
  | TItem (QData data) :: rest => out C data ;;! interact_loop w rest
  | TItem QClosed :: rest => interact_loop w rest
  | TInterrupt :: _ => mret tt
  | [] | TInput "" :: _ => sleep E EOF_DRAIN
  end.

Definition interact (w : wire W) : M W Z :=
  events <-! mgets (fun s => tm_events (w_tool s)) ;;
  interact_loop w events ;;! mret EXIT_OK.

Definition session_work (w : wire W) (a : serial_args) : M W Z :=
  match se_message a with
  | [] => interact w
  | words =>
      lines <-! send_command w (Py.join " " words) (se_timeout a) ;;
      mfor lines (fun line => on_tool (mmodify (print (line +:+ nl)%string))) ;;!
      mret (if bool_decide (lines = []) then EXIT_ERROR else EXIT_OK)
  end.

Definition run_session (w : wire W) (close : M W unit) (a : serial_args) : M W Z :=
  mfinally (session_work w a) close.

(** ** The command *)

(** The session, or the exit code of what went wrong. *)
Definition or_failed (m : M W string) : M W (string + Z) :=
  mtry (u <-! m ;; mret (inl u))
    (fun e => match e with
              | OpError code => Some (mret (inr (exit_code code)))
              | ConnectError => Some (mret (inr EXIT_HARDWARE))
              | _ => None
              end).

Definition run_connect_local (a : serial_args) : M W Z :=
  session <-! or_failed (connect_port (se_target a) (se_reset a) (se_baud a)) ;;
  match session with
  | inr code => mret code
  | inl uid => run_session local_wire (close_session uid) a
  end.

Definition run_connect_remote (device : fields) (a : serial_args) : M W Z :=
  uid <-! mlift (uid_of_device device) ;;
  match endpoint_of device with
  | None => mret EXIT_ERROR
  | Some (host, port) =>
      at_peer E ConnectTo host port
        (session <-! or_exit (connect_stream uid (se_reset a)) ;;
         match session with
         | inr code => mret code
         | inl _ => run_session remote_wire close_stream a
         end)
  end.

Variable hello_attempts : nat.
Variable open_settle : Z.
Variable other : json -> string.
Variable compile : string -> result (string -> bool).
Variable charname : string -> option Z.

(** A robot that is not attached: through a relay, when it is a robot's
    name at all; else the device was not found. *)
Definition run_connect_relay (a : serial_args) : M W Z :=
  match parse_target (se_target a) with
  | Err ValueError => mret EXIT_NO_DEVICE
  | Err e => mraise e
  | Ok target =>
      run_connect E C hello_attempts open_settle other compile charname target
        (mkConnectArgs (se_target a) (match se_message a with [] => [] | words => [Py.join " " words] end)
           None (se_timeout a) false "]")
  end.

Definition run_serial (a : serial_args) : M W Z :=
  found <-! mtry (d <-! Client.find (se_target a) ;; mret (inl d))
             (fun e => match is_op_error e with Some code => Some (mret (inr code)) | None => None end) ;;
  match found with
  | inr code => if String.eqb code CODE_NOT_FOUND then run_connect_relay a else mret (exit_code code)
  | inl device => if is_none "host" device then run_connect_local a else run_connect_remote device a
  end.

Definition cmd_serial (a : serial_args) : M W Z := with_client E (run_serial a).
End Serial.
