(* ===== verification/SerialFacts.v ===== *)
(** * What [mbserial] does to a board

    The lock, granted by an answer, around everything done to the port, no
    reset but an asked one;
    the lines of an answer; and a stream's bytes, none lost. *)

From S2P Require Import Prelude Trace Loop Json Regex Locks Relay Peering Api Client Tool ToolFacts Render Cli Console RelayCli Serial.
Local Open Scope py_scope.

Section Facts.
Notation W := (world console_act terminal).
Variable E : tool_env console_act.
Variable C : channel_env.
Variable linux : bool.

#[local] Instance here : Transport W := world_transport E.

(** ** The lock around the port *)

(** What is done with the board's port, and with no other; only an asked
    reset may reboot its board. *)
Definition port_use (reset : bool) (port : string) (e : event console_act) : bool :=
  match e with
  | Slept _ | Did (ClosePort | WritePort _ | FlushPort | ResetInput) => true
  | Did (OpenPort p _) => String.eqb p port
  | Did (BreakPort p | ReopenPort p _) => reset && String.eqb p port
  | Did DropLines => reset
  | _ => false
  end.

#[local] Notation uses reset port := (emits w_trace (port_use reset port)).

Lemma act_uses reset port x : port_use reset port (Did x) = true -> uses reset port (act E x).
Proof.
  intros H. unfold act. apply emits_bind; [|intros; apply emits_ret].
  eapply does_weaken; [apply perform_does|]. cbn beta. intros s r l s' [-> _]. cbn [forallb]. rewrite H. reflexivity.
Qed.
Lemma sleep_uses reset port us : uses reset port (sleep E us : M W unit).
Proof. intros s. exists [Slept us]. split; reflexivity. Qed.
Lemma settle_uses reset port us : uses reset port (settle E us).
Proof. unfold settle. destruct (us =? 0); [apply emits_ret|apply sleep_uses]. Qed.
Lemma modify_uses reset port (f : W -> W) : (forall s, w_trace (f s) = w_trace s) -> uses reset port (mmodify f).
Proof. intros H. apply emits_silent. exact H. Qed.
Lemma tool_uses {A} reset port (m : M terminal A) : uses reset port (on_tool m : M W A).
Proof. apply emits_silent. intros s. unfold on_tool, mstate. destruct (m (w_tool s)). reflexivity. Qed.

Ltac uses_step := first
  [apply act_uses; cbn; rewrite ?String.eqb_refl; reflexivity|apply settle_uses|apply sleep_uses|apply tool_uses
  |apply modify_uses; reflexivity|emits_step].

Lemma open_uses reset port baud us : uses reset port (open_no_reboot E port baud us).
Proof. unfold open_no_reboot, or_connect_error. repeat uses_step. Qed.

Lemma reset_uses reset port baud : uses reset port
  (if reset : bool then (if linux then reset_via_break E port else reset_via_reopen E port baud) else mret tt).
Proof. destruct reset; [|apply emits_ret]. unfold reset_via_break, reset_via_reopen, or_connect_error, ignoring. repeat uses_step. Qed.

Lemma local_wire_uses reset port timeout message : uses reset port (send_command C (local_wire E) message timeout).
Proof.
  unfold send_command, now. cbn [wr_reset wr_write wr_flush local_wire]. repeat uses_step. apply emits_while.
  intros [lines quiet]. unfold answer_turn, now. cbn [wr_readline local_wire]. unfold local_readline, with_serial. repeat uses_step.
Qed.

Lemma interact_uses reset port events : uses reset port (interact_loop E C (local_wire E) events).
Proof.
  induction events as [|[[data|]|[|c line]|] rest IH]; cbn [interact_loop wr_write wr_flush local_wire]; unfold out; repeat first [apply IH|uses_step].
Qed.

Lemma work_uses reset port a : uses reset port (session_work E C (local_wire E) a).
Proof. unfold session_work, interact. repeat first [apply local_wire_uses|apply interact_uses|uses_step]. Qed.

(** The board that was found, by the answer read. *)
Definition found_at (target uid port : string) (l : list (event console_act)) : Prop :=
  exists device, seen target device l /\ uid_of_device device = Ok uid /\ jget "port" device = JStr port.

(** A lock that was not granted, by the answer read or for want of one. *)
Definition refused (uid : string) (l : list (event console_act)) : Prop :=
  exists e, asked (lock_payload uid KIND_SERIAL) done (Err e) l.

(** How [connect_port] ends: without the lock; with the lock given back; or
    with a session. *)
Definition connected (reset : bool) (target : string) (r : result string) (l : list (event console_act)) : Prop :=
  (asks (find_payload target) l /\ exists e, r = Err e) \/
  exists found uid port lock, found_at target uid port found /\
    ((l = found ++ lock /\ refused uid lock /\ exists e, r = Err e) \/
     granted (lock_payload uid KIND_SERIAL) lock /\ exists used, forallb (port_use reset port) used = true /\
       ((exists rel, asks (unlock_payload uid) rel /\ l = found ++ lock ++ used ++ rel /\ exists e, r = Err e) \/
        l = found ++ lock ++ used /\ r = Ok uid)).

(** The opening, and the reset that was asked for. *)
Definition opening (reset : bool) (port : string) (baud : Z) : M W unit :=
  open_no_reboot E port baud OPEN_SETTLE ;;!
  if reset then (if linux then reset_via_break E port else reset_via_reopen E port baud) else mret tt.

Lemma opening_uses reset port baud : uses reset port (opening reset port baud).
Proof. apply emits_bind; [apply open_uses|intros; apply reset_uses]. Qed.

(** [connect_port] past the lock. *)
Lemma locked_does reset uid port baud :
  does w_trace (or_unlock E false uid (opening reset port baud) ;;! mret uid) (fun _ r l _ =>
    exists used, forallb (port_use reset port) used = true /\
      ((exists rel, asks (unlock_payload uid) rel /\ l = used ++ rel /\ exists e, r = Err e) \/ l = used /\ r = Ok uid)).
Proof.
  intros s. unfold mstate, mresult. rewrite !bind_run. unfold or_unlock, mtry.
  destruct (opening_uses reset port baud s) as (used & E1 & Hu). unfold mstate in E1.
  destruct (opening reset port baud s) as [[[]|e] s1]; cbn [fst snd] in *.
  - exists used. unfold mret. cbn [fst snd]. split; [exact E1|]. exists used. auto.
  - rewrite !bind_run. destruct (unlock_quietly_does E false uid s1) as (rel & E2 & Hr). unfold mstate in E2.
    exists (used ++ rel). destruct (unlock_quietly E false uid s1) as [[[]|e'] s2]; cbn [fst snd mraise] in *;
      (split; [rewrite E2, E1, <- app_assoc; reflexivity|]; exists used; split; [exact Hu|]; left; exists rel; eauto).
Qed.

Lemma connect_port_does target reset baud :
  does w_trace (connect_port E linux target reset baud) (fun _ r l _ => connected reset target r l).
Proof.
  intros s. unfold connect_port, mstate, mresult. rewrite !bind_run.
  destruct (find_does E target s) as (found & E1 & Hf). unfold mstate, mresult in *.
  pose proof (asked_asks _ _ _ _ Hf : asks (find_payload target) found) as Ha.
  destruct (Client.find target s) as [[device|e] s1]; cbn [fst snd] in *.
  2: { exists found. split; [exact E1|]. left. eauto. }
  assert (Hno : forall r, (exists e, r = Err e) -> exists l, w_trace s1 = w_trace s ++ l /\ connected reset target r l)
    by (intros r Hr; exists found; split; [exact E1|]; left; eauto).
  rewrite !bind_run. unfold mlift at 1 4. destruct (uid_of_device device) as [uid|e] eqn:Hu; cbn [fst snd]; [|eauto].
  destruct (falsy "port" device); [cbn; eauto|].
  rewrite !bind_run. unfold mlift.
  destruct (match jget "port" device with JStr p => Ok p | _ => Err TypeError end) as [port|e] eqn:Hp; cbn [fst snd]; [|eauto].
  assert (Hfound : found_at target uid port found).
  { exists device. split; [exact (asked_seen _ _ _ Hf)|]. split; [exact Hu|]. destruct (jget "port" device); congruence. }
  rewrite !bind_run. destruct (any_lock_does E false uid KIND_SERIAL s1) as (lock & E2 & Hl).
  unfold mstate, mresult in *. destruct (any_lock E false uid KIND_SERIAL s1) as [[[]|e] s2]; cbn [fst snd] in *.
  2: { exists (found ++ lock). split; [rewrite E2, E1, <- app_assoc; reflexivity|]. right. exists found, uid, port, lock.
       split; [exact Hfound|]. left. split; [reflexivity|]. split; [exists e; exact Hl|eauto]. }
  destruct (asked_granted _ _ _ _ Hl) as (resp & Hg & _).
  destruct (locked_does reset uid port baud s2) as (l & E3 & used & Hused & H). unfold mstate, mresult in *.
  exists (found ++ lock ++ l). split; [rewrite !app_assoc, <- E1, <- E2; exact E3|]. right. exists found, uid, port, lock.
  split; [exact Hfound|]. right. split; [exists resp; exact Hg|]. exists used. split; [exact Hused|].
  destruct H as [(rel & Hr & -> & He)|[-> Hr]]; [left; exists rel; auto|right; auto].
Qed.

Definition failure (e : py_exc) : result Z :=
  match e with OpError code => Ok (exit_code code) | ConnectError => Ok EXIT_HARDWARE | _ => Err e end.

Lemma failure_fails e : failure e <> Ok EXIT_OK.
Proof. destruct e; try discriminate. cbn. intros [= H]. exact (exit_code_fails _ H). Qed.

Lemma serial_local_run a s : run_connect_local E C linux a s =
  match connect_port E linux (se_target a) (se_reset a) (se_baud a) s with
  | (Err e, s1) => (failure e, s1)
  | (Ok uid, s1) => run_session E C (local_wire E) (close_session E uid) a s1
  end.
Proof.
  unfold run_connect_local. rewrite bind_run. unfold or_failed, mtry. rewrite bind_run.
  destruct (connect_port E linux _ _ _ s) as [[uid|[]] s1]; reflexivity.
Qed.

(** The session, and the lock given back. *)
Lemma local_session_does reset port uid a : does w_trace (run_session E C (local_wire E) (close_session E uid) a) (fun _ _ l _ =>
  exists used rel, l = used ++ rel /\ forallb (port_use reset port) used = true /\ asks (unlock_payload uid) rel).
Proof.
  assert (Hc : does w_trace (close_session E uid) (fun _ _ l _ =>
    exists closed rel, l = closed ++ rel /\ forallb (port_use reset port) closed = true /\ asks (unlock_payload uid) rel)).
  { assert (Hi : uses reset port (ignoring (act E ClosePort))) by (unfold ignoring; repeat uses_step).
    intros s. unfold close_session, mstate. rewrite bind_run. destruct (Hi s) as (l1 & E1 & H1). unfold mstate in E1.
    assert (Hok : fst (ignoring (act E ClosePort) s) = Ok tt)
      by (unfold ignoring, mtry; destruct (act E ClosePort s) as [[[]|e] s1]; reflexivity).
    destruct (ignoring (act E ClosePort) s) as [r s1]. cbn [fst snd] in *. subst r.
    destruct (unlock_quietly_does E false uid s1) as (l2 & E2 & H2). exists (l1 ++ l2). unfold mstate in *.
    split; [rewrite E2, E1, <- app_assoc; reflexivity|eauto]. }
  eapply does_weaken; [apply (does_finally _ _ _ _ (work_uses reset port a) Hc)|].
  cbn. intros s r l s' (r1 & r2 & l1 & l2 & s1 & -> & H1 & (closed & rel & -> & H2 & H3) & _).
  exists (l1 ++ closed), rel. rewrite forallb_app, H1, H2, <- app_assoc. auto.
Qed.

(** C30: [mbserial] on a board of this host, for any registry, port,
    terminal and answer, all of it on the trace of what was asked, answered
    and done. Nothing is done with a port before the answer that grants a
    serial lock on the board the first answer shows, and then it is that
    board's port that is used; without that grant, refused or not answered,
    nothing is done at all and the exit code is not 0; with it, whatever the
    opening, the reset or the session comes to, the last thing is the
    request to unlock the board; and nothing that reboots it is done unless
    [--reset] asked for it. *)
Theorem serial_guarded a s :
  let run := run_connect_local E C linux a in
  exists found l, w_trace (mstate run s) = w_trace s ++ found ++ l /\
    ((asks (find_payload (se_target a)) found /\ l = [] /\ mresult run s <> Ok EXIT_OK) \/
     exists uid port lock l', found_at (se_target a) uid port found /\ l = lock ++ l' /\
       ((refused uid lock /\ l' = [] /\ mresult run s <> Ok EXIT_OK) \/
        granted (lock_payload uid KIND_SERIAL) lock /\
        exists used rel, l' = used ++ rel /\ forallb (port_use (se_reset a) port) used = true /\
          asks (unlock_payload uid) rel)).
Proof.
  cbv zeta. unfold mstate, mresult. rewrite serial_local_run.
  destruct (connect_port_does (se_target a) (se_reset a) (se_baud a) s) as (l & E1 & Hc). unfold mstate, mresult in *.
  destruct (connect_port E linux (se_target a) (se_reset a) (se_baud a) s) as [r s1]. cbn [fst snd] in *.
  destruct Hc as [(Hf & e & ->)|(found & uid & port & lock & Hf & [(-> & Hr & e & ->)|(Hg & used & Hu & H)])].
  - exists l, []. rewrite app_nil_r. split; [exact E1|]. left. split; [exact Hf|]. split; [reflexivity|apply failure_fails].
  - exists found, lock. split; [exact E1|]. right. exists uid, port, lock, []. rewrite app_nil_r. split; [exact Hf|].
    split; [reflexivity|]. left. split; [exact Hr|]. split; [reflexivity|apply failure_fails].
  - exists found. destruct H as [(rel & Hr & -> & e & ->)|[-> ->]].
    + exists (lock ++ used ++ rel). split; [exact E1|]. right. exists uid, port, lock, (used ++ rel). split; [exact Hf|].
      split; [reflexivity|]. right. split; [exact Hg|]. exists used, rel. auto.
    + destruct (local_session_does (se_reset a) port uid a s1) as (l2 & E2 & used2 & rel & -> & Hu2 & Hr). unfold mstate in E2.
      exists (lock ++ (used ++ used2) ++ rel). split; [rewrite E2, E1, <- !app_assoc; reflexivity|].
      right. exists uid, port, lock, ((used ++ used2) ++ rel). split; [exact Hf|]. split; [reflexivity|]. right. split; [exact Hg|].
      exists (used ++ used2), rel. rewrite forallb_app, Hu, Hu2. auto.
Qed.

(** ** An answer *)

(** The lines of what was read. *)
Definition answers (reads : list (Z * string)) : list string :=
  flat_map (fun r => match r.2 with "" => [] | raw => match text_of C raw with "" => [] | text => [text] end end) reads.

Lemma answers_snoc reads us raw : answers (reads ++ [(us, raw)]) =
  (answers reads ++ match raw with "" => [] | _ => match text_of C raw with "" => [] | text => [text] end end)%list.
Proof. unfold answers. rewrite flat_map_app. cbn. rewrite app_nil_r. destruct raw; reflexivity. Qed.

(** What a wait for an answer has come to: some of the reads, in order, and
    their lines; time has passed; nothing was done. *)
Definition answered (s0 : W) (deadline : Z) (lines : list string) (s : W) : Prop :=
  w_trace s = w_trace s0 /\ w_clock s0 <= w_clock s /\
  exists reads, sr_reads (serial s0) = reads ++ sr_reads (serial s) /\ lines = answers reads.

Lemma local_readline_run s : exists s1,
  local_readline s = (match sr_reads (serial s) with [] => Ok "" | (_, line) :: _ => Ok line end, s1) /\
  w_trace s1 = w_trace s /\ w_clock s <= w_clock s1 /\ sr_reads (serial s1) = tail (sr_reads (serial s)).
Proof.
  unfold local_readline. rewrite bind_run. unfold mgets. destruct (sr_reads (serial s)) as [|[us line] rest] eqn:Er.
  - eexists. split; [reflexivity|]. cbn. split; [reflexivity|]. split; [unfold READ_TIMEOUT; lia|exact Er].
  - eexists. split; [reflexivity|]. cbn. split; [reflexivity|]. split; [lia|reflexivity].
Qed.

Lemma answer_turn_run s0 deadline lines quiet s : answered s0 deadline lines s ->
  turned (fun a s => answered s0 deadline a.1 s) (fun _ s => Z.max 0 (deadline - w_clock s))
    (fun r s' => exists lines', r = Ok lines' /\ answered s0 deadline lines' s' /\ (deadline <= w_clock s' \/ lines' <> []))
    (lines, quiet) s 1 (answer_turn C (local_wire E) deadline (lines, quiet) s).
Proof.
  intros (H1 & H2 & reads & H3 & H4). unfold answer_turn, now. cbn [wr_readline local_wire]. rewrite bind_run. unfold mgets at 1.
  destruct ((deadline <=? w_clock s) || (negb (bool_decide (lines = [])) && (quiet <=? w_clock s))) eqn:Hd.
  { cbn. exists lines. split; [reflexivity|]. split; [repeat split; eauto|].
    destruct (deadline <=? w_clock s) eqn:E1; [left; lia|]. right. cbn in Hd. apply andb_prop in Hd as [Hd _].
    intros ->. discriminate Hd. }
  apply orb_false_iff in Hd as [Hd _].
  rewrite bind_run. destruct (local_readline_run s) as (s1 & -> & T1 & C1 & R1).
  assert (Hs : forall lines', lines' = answers (match sr_reads (serial s) with [] => reads | r :: _ => reads ++ [r] end) ->
    answered s0 deadline lines' (advance 1 s1) /\ Z.max 0 (deadline - w_clock (advance 1 s1)) <= Z.max 0 (deadline - w_clock s) - 1).
  { intros lines' Hl. split; [|cbn; lia]. split; [cbn; congruence|]. split; [cbn; lia|]. eexists. split; [|exact Hl].
    change (serial (advance 1 s1)) with (serial s1). rewrite R1, H3. destruct (sr_reads (serial s)); [reflexivity|]. cbn. rewrite <- app_assoc. reflexivity. }
  destruct (sr_reads (serial s)) as [|[us raw] rest].
  - cbn. exact (Hs lines H4).
  - rewrite answers_snoc, <- H4 in Hs. destruct raw as [|c raw]; cbn; unfold mmodify, mret.
    + apply Hs. rewrite app_nil_r. reflexivity.
    + apply Hs. destruct (text_of C (String c raw)); [rewrite app_nil_r|]; reflexivity.
Qed.

(** [mbserial]'s wait for an answer. However the port's reads come in,
    and whatever it reads, the wait returns, having done nothing to the
    port but read; what it returns is the text of the non-empty lines read
    so far, in order, none left out; and it returns only when the timeout
    has passed or there is an answer. *)
Theorem answer_lines timeout s :
  let run := mwhile (answer_turn C (local_wire E) (w_clock s + timeout)) (Z.to_pos (timeout + 2)) ([], w_clock s + timeout) in
  exists lines, mresult run s = Ok lines /\ answered s (w_clock s + timeout) lines (mstate run s) /\
    (w_clock s + timeout <= w_clock (mstate run s) \/ lines <> []).
Proof.
  intros run. apply (mwhile_rule (answer_turn C (local_wire E) (w_clock s + timeout)) (fun a s1 => answered s (w_clock s + timeout) a.1 s1)
    (fun _ s1 => Z.max 0 (w_clock s + timeout - w_clock s1))
    (fun r s' => exists lines, r = Ok lines /\ answered s (w_clock s + timeout) lines s' /\ (w_clock s + timeout <= w_clock s' \/ lines <> []))).
  - intros [lines quiet] s1 H. apply answer_turn_run, H.
  - intros. lia.
  - split; [reflexivity|]. split; [lia|]. exists []. auto.
  - destruct (Z.lt_ge_cases 0 (timeout + 2)); [rewrite Z2Pos.id by lia|]; lia.
Qed.

(** ** A peer's stream *)

Definition payloads (l : list (Z * option string)) : string :=
  String.concat "" (map (fun a => match a.2 with Some data => data | None => "" end) l).

Lemma payloads_cons a l : payloads (a :: l) = (match a.2 with Some data => data | None => "" end +:+ payloads l)%string.
Proof. unfold payloads. destruct l; cbn; [symmetry; apply Py.append_nil_r|reflexivity]. Qed.

Lemma pumped_spec t : forall l buf rest buf' eof, pumped t l buf = (rest, buf', eof) ->
  exists got, l = got ++ rest /\ buf' = (buf +:+ payloads got)%string /\
    (eof = false -> forall at_us x rest', rest = (at_us, x) :: rest' -> t < at_us).
Proof.
  induction l as [|[at_us [data|]] l IH]; intros buf rest buf' eof; cbn [pumped].
  - intros [= <- <- <-]. exists []. cbn. rewrite Py.append_nil_r. repeat split. discriminate.
  - destruct (at_us <=? t) eqn:Ht.
    + intros H. destruct (IH _ _ _ _ H) as (got & -> & -> & Hlate). exists ((at_us, Some data) :: got).
      rewrite payloads_cons, Py.append_assoc. auto.
    + intros [= <- <- <-]. exists []. cbn. rewrite Py.append_nil_r. repeat split. intros _ ? ? ? [= <- <- <-]. lia.
  - destruct (at_us <=? t) eqn:Ht; intros [= <- <- <-].
    + exists [(at_us, None)]. cbn. rewrite Py.append_nil_r. repeat split. discriminate.
    + exists []. cbn. rewrite Py.append_nil_r. repeat split. intros _ ? ? ? [= <- <- <-]. lia.
Qed.

(** From [s] to [s'] only payloads that arrived went to the buffer, in
    their order. *)
Definition received (s s' : W) : Prop :=
  w_trace s' = w_trace s /\ w_clock s <= w_clock s' /\
  exists got, sr_arrivals (serial s) = got ++ sr_arrivals (serial s') /\
    sr_buf (serial s') = (sr_buf (serial s) +:+ payloads got)%string.

Lemma payloads_app l1 l2 : payloads (l1 ++ l2) = (payloads l1 +:+ payloads l2)%string.
Proof.
  induction l1 as [|a l1 IH]; [reflexivity|]. cbn [app]. rewrite !payloads_cons, IH, Py.append_assoc. reflexivity.
Qed.

Lemma received_refl s : received s s.
Proof. split; [reflexivity|]. split; [lia|]. exists []. cbn. rewrite Py.append_nil_r. auto. Qed.

Lemma received_trans s1 s2 s3 : received s1 s2 -> received s2 s3 -> received s1 s3.
Proof.
  intros (T1 & C1 & g1 & A1 & B1) (T2 & C2 & g2 & A2 & B2). split; [congruence|]. split; [lia|].
  exists (g1 ++ g2). rewrite A1, A2, B2, B1, payloads_app, <- app_assoc, Py.append_assoc. auto.
Qed.

Lemma pump_run s : exists s1, pump s = (Ok tt, s1) /\ received s s1 /\ w_clock s1 = w_clock s /\
  (sr_eof (serial s1) = false -> forall at_us x rest, sr_arrivals (serial s1) = (at_us, x) :: rest -> w_clock s < at_us).
Proof.
  unfold pump. destruct (sr_eof (serial s)) eqn:He.
  { exists s. split; [reflexivity|]. split; [apply received_refl|]. split; [reflexivity|]. congruence. }
  destruct (pumped (w_clock s) (sr_arrivals (serial s)) (sr_buf (serial s))) as [[rest buf] eof] eqn:Hp.
  destruct (pumped_spec _ _ _ _ _ _ Hp) as (got & Hl & Hb & Hlate).
  eexists. split; [reflexivity|].
  split; [split; [reflexivity|]; split; [cbn; lia|]; exists got; auto|]. split; [reflexivity|exact Hlate].
Qed.

(** Something has arrived, or the wait is over. *)
Definition due (deadline : Z) (s : W) : Prop :=
  deadline <= w_clock s \/ exists at_us x rest, sr_arrivals (serial s) = (at_us, x) :: rest /\ at_us <= w_clock s.

Lemma wait_arrival_run deadline s : w_clock s < deadline -> exists s1, wait_arrival (deadline - w_clock s) s = (Ok tt, s1) /\
  received s s1 /\ w_clock s1 <= deadline /\ due deadline s1 /\ sr_arrivals (serial s1) = sr_arrivals (serial s).
Proof.
  intros Hd. unfold wait_arrival. destruct (sr_arrivals (serial s)) as [|[at_us x] rest] eqn:Ea.
  - eexists. split; [reflexivity|]. split; [|split; [cbn; lia|split; [left; cbn; lia|exact Ea]]].
    split; [reflexivity|]. split; [cbn; lia|]. exists []. cbn. rewrite Py.append_nil_r. auto.
  - eexists. split; [reflexivity|]. split; [|split; [cbn; lia|split; [|exact Ea]]].
    + split; [reflexivity|]. split; [cbn; lia|]. exists []. cbn. rewrite Py.append_nil_r. auto.
    + unfold due. cbn [w_clock advance]. destruct (Z.le_gt_cases (deadline - w_clock s) (Z.max 0 (at_us - w_clock s))); [left; lia|].
      right. exists at_us, x, rest. split; [exact Ea|lia].
Qed.

Lemma wait_until_run enough deadline : forall fuel s,
  (length (sr_arrivals (serial s)) + 1 < fuel)%nat \/ (length (sr_arrivals (serial s)) < fuel)%nat /\ due deadline s ->
  exists s', wait_until fuel enough deadline s = (Ok tt, s') /\ received s s' /\ w_clock s' <= Z.max deadline (w_clock s) /\
    (enough (sr_buf (serial s')) = true \/ sr_eof (serial s') = true \/ deadline <= w_clock s').
Proof.
  induction fuel as [|fuel IH]; intros s Hf; [destruct Hf as [H|[H _]]; lia|].
  cbn [wait_until]. rewrite bind_run. destruct (pump_run s) as (s1 & -> & R1 & C1 & Hlate).
  rewrite bind_run. unfold mgets at 1.
  destruct (enough (sr_buf (serial s1))) eqn:He; cbn [orb].
  { exists s1. split; [reflexivity|]. split; [exact R1|]. split; [lia|]. auto. }
  destruct (sr_eof (serial s1)) eqn:Hz.
  { exists s1. split; [reflexivity|]. split; [exact R1|]. split; [lia|]. auto. }
  specialize (Hlate eq_refl). unfold now. rewrite bind_run. unfold mgets at 1. destruct (deadline - w_clock s1 <=? 0) eqn:Hd.
  { exists s1. split; [reflexivity|]. split; [exact R1|]. split; [lia|]. right. right. lia. }
  assert (Hlen : (length (sr_arrivals (serial s1)) < fuel)%nat).
  { destruct R1 as (_ & _ & got & Ha & _). rewrite Ha, length_app in Hf.
    destruct Hf as [Hf|[Hf [Hdue|(at_us & x & rest & E1 & Hdue)]]]; [lia|lia|].
    destruct got as [|g got]; [|cbn in Hf; lia]. rewrite Ha in E1. specialize (Hlate at_us x rest E1). lia. }
  rewrite bind_run. destruct (wait_arrival_run deadline s1) as (s2 & -> & R2 & C2 & D2 & A2); [lia|].
  destruct (IH s2) as (s3 & E3 & R3 & C3 & H3); [right; rewrite A2; auto|].
  exists s3. split; [exact E3|]. split; [exact (received_trans _ _ _ R1 (received_trans _ _ _ R2 R3))|].
  destruct R1 as (_ & ? & _), R2 as (_ & ? & _). split; [lia|exact H3].
Qed.

Lemma take_line_spec buf line rest : take_line buf = (line, rest) ->
  buf = (line +:+ rest)%string /\
  ((exists text, line = (text +:+ nl)%string /\ Py.sexists (Ascii.eqb newline) text = false) \/
   Py.sexists (Ascii.eqb newline) buf = false /\ line = buf /\ rest = "").
Proof.
  unfold take_line. destruct (Py.partition newline buf) as [[h f] t] eqn:E1.
  destruct (Py.partition_join _ _ _ _ _ E1) as (Hl%Py.lacks_none & Hb & Ht). destruct f; intros [= <- <-].
  - split; [rewrite <- Py.append_assoc; exact Hb|]. left. eauto.
  - rewrite (Ht eq_refl), Py.append_nil_r in Hb. subst h. rewrite Py.append_nil_r. auto.
Qed.

(** a peer's stream read by lines. [RemoteSession.readline] returns for
    any payloads at any times, within its read timeout and having sent
    nothing; what it returns, with what stays in the buffer, is exactly what
    was there and what arrived, in order, no byte lost, doubled or moved;
    and it returns one line with its newline, or everything there is when
    the stream is over or the time is. *)
Theorem stream_lines_whole s : exists line s1 s',
  remote_readline s = (Ok line, s') /\ received s s1 /\ w_trace s' = w_trace s /\ w_clock s' <= w_clock s + READ_TIMEOUT /\
  sr_arrivals (serial s') = sr_arrivals (serial s1) /\
  sr_buf (serial s1) = (line +:+ sr_buf (serial s'))%string /\
  ((exists text, line = (text +:+ nl)%string /\ Py.sexists (Ascii.eqb newline) text = false) \/
   Py.sexists (Ascii.eqb newline) line = false /\ sr_buf (serial s') = "" /\
     (sr_eof (serial s') = true \/ w_clock s + READ_TIMEOUT <= w_clock s')).
Proof.
  unfold remote_readline, now. rewrite bind_run. unfold mgets at 1. rewrite bind_run. unfold mgets at 1.
  destruct (wait_until_run (Py.sexists (Ascii.eqb newline)) (w_clock s + READ_TIMEOUT) (wait_rounds s) s) as (s1 & E1 & R1 & C1 & H1);
    [left; unfold wait_rounds; lia|].
  rewrite bind_run, E1, bind_run. unfold mgets at 1.
  destruct (take_line (sr_buf (serial s1))) as [line rest] eqn:El. destruct (take_line_spec _ _ _ El) as [Hb Hline].
  eexists line, s1, _. split; [reflexivity|]. split; [exact R1|]. split; [exact (proj1 R1)|].
  split; [cbn; unfold READ_TIMEOUT in *; destruct R1 as (_ & ? & _); lia|]. split; [reflexivity|]. split; [exact Hb|].
  destruct Hline as [Hline|(Hn & -> & ->)]; [left; exact Hline|right]. split; [exact Hn|]. split; [reflexivity|].
  destruct H1 as [H1|H1]; [congruence|exact H1].
Qed.
End Facts.

(** A board that answers one message in two reads, on a host where its
    registry grants everything. *)
Definition serving : tool_env console_act := {|
  te_dial _ := true;
  te_answer _ payload := Some [Line (JObj (("ok", JBool true) ::
    (if is_str "find" (jget "op" payload) then [("device", JObj [("uid", JStr "9904"); ("port", JStr "/dev/ttyACM0")])] else [])))];
  te_act _ _ := Ok 0;
  te_delay _ := 10%nat |}.

Definition serving_ok : option line := Some (Line (JObj [("ok", JBool true)])).
Definition serving_found : option line :=
  Some (Line (JObj [("ok", JBool true); ("device", JObj [("uid", JStr "9904"); ("port", JStr "/dev/ttyACM0")])])).

Definition quiet_channel : channel_env := mkChannelEnv (fun _ => Ok tt) (fun _ _ => Ok tt) (fun _ => Ok tt) (fun _ => []) (fun s => s).

Example serial_example :
  let run := run_connect_local serving quiet_channel true (mkSerialArgs "tovez" ["VER"] false BAUD_RATE 2000000) in
  let start := mkWorld true [] 0 [] (mkTerminal (mkRelay "" false []) [] [] ""
    (mkSerial [(50000, ("ver 2" +:+ nl)%string); (1000, nl); (2000, ("ok" +:+ nl)%string)] [] "" false)) in
  mresult run start = Ok EXIT_OK /\ tm_out (w_tool (mstate run start)) = ("ver 2" +:+ nl +:+ "ok" +:+ nl)%string /\
  w_trace (mstate run start) =
    [Sent (find_payload "tovez"); Got serving_found; Sent (lock_payload "9904" KIND_SERIAL); Got serving_ok;
     Did (OpenPort "/dev/ttyACM0" BAUD_RATE); Slept OPEN_SETTLE;
     Did ResetInput; Did (WritePort ("VER" +:+ nl)%string); Did FlushPort; Did ClosePort; Sent (unlock_payload "9904"); Got serving_ok].
Proof. vm_compute. repeat split. Qed.

(** A line of which one read times out in the middle is two lines of the
    answer. *)
Example slow_line_split :
  answers quiet_channel [(100000, "ver"); (20000, (" 2" +:+ nl)%string)] = ["ver"; " 2"].
Proof. reflexivity. Qed.

(** A reset whose break fails: the lock is given back, the port not closed. *)
Example failed_break_leaves_port :
  let env := mkToolEnv console_act (te_dial serving) (te_answer serving)
    (fun _ x => match x with BreakPort _ => Err OSError | _ => Ok 0 end) (te_delay serving) in
  let start := mkWorld true [] 0 [] (mkTerminal (mkRelay "" false []) [] [] "" quiet_port) in
  let run := connect_port env true "tovez" true BAUD_RATE in
  mresult run start = Err ConnectError /\
  List.filter (fun e => match e with Did _ | Sent _ => true | _ => false end) (w_trace (mstate run start)) =
    [Sent (find_payload "tovez"); Sent (lock_payload "9904" KIND_SERIAL); Did (OpenPort "/dev/ttyACM0" BAUD_RATE);
     Did (BreakPort "/dev/ttyACM0"); Sent (unlock_payload "9904")].
Proof. vm_compute. split; reflexivity. Qed.
