(* ===== verification/Parsers.v ===== *)
(** * The parsers of the four commands

    [build_parser] and [main] of [mbregistry], [mbdeploy], [mbrelay] and
    [mbserial]: the parsers as data for Argparse, and [main] up to the
    command it calls and the arguments that command reads.  An attribute a
    command reads that is absent, or that is not of the type the command
    takes it for, leaves no command. *)

From S2P Require Import Prelude Tables Json Argparse RegistryCli RegistryRun Serial Build.
Local Open Scope py_scope.

Definition exclusive (p : parser) (required : bool) (ids : list string) : parser :=
  Parser (pa_options p) (pa_positionals p) (pa_sub p) (pa_groups p ++ [(required, ids)]) (pa_defaults p).

(** [set_defaults(func=...)]. *)
Definition calls (f : string) (options : list option_spec) (positionals : list positional) : parser :=
  Parser options positionals None [] [("func", VStr f)].

(** [add_subparsers(dest=..., required=True)]. *)
Definition choosing (options : list option_spec) (dest : string) (choices : list (string * parser)) : parser :=
  Parser options [] (Some (dest, choices)) [] [].

Definition word (dest : string) : positional := mkPositional dest One CStr.
Definition socket_option : option_spec := valued "--socket" "socket" CStr VNone.

(** ** [mbregistry] *)

Section Registry.
Definition DEFAULT_INTERVAL_S : pyfloat := FFin 2 1.

Definition sort_option (short key : string) : option_spec :=
  mkOption [short; ("--by-" +:+ key)%string] "sort_by" (AConst key) VNone false.

Definition list_parser : parser :=
  exclusive
    (Parser [help_option; flag "--json" "json"; flag "--all" "show_all"; socket_option;
             sort_option "-s" "state"; sort_option "-n" "name"; sort_option "-f" "firmware"; sort_option "-H" "host"]
       [] None [] [("func", VStr "cmd_list"); ("sort_by", VNone)])
    false ["-s"; "-n"; "-f"; "-H"].

Definition unlock_parser : parser :=
  calls "cmd_unlock" [help_option; mkOption ["--force"] "force" ATrue (VBool false) true; socket_option] [word "uid"].

Definition rescan_parser : parser :=
  calls "cmd_rescan" [help_option; flag "--dry-run" "dry_run"; flag "--json" "json"; socket_option] [].

(** The options [run] and [service run] share. *)
Definition run_options_shared : list option_spec :=
  [socket_option;
   valued "--db" "db" CStr VNone;
   valued "--interval" "interval" CFloat (VFloat DEFAULT_INTERVAL_S);
   repeated "--peer" "peer" VNone;
   valued "--remote-port" "remote_port" CInt VNone;
   valued "--peer-pub-port" "peer_pub_port" CInt VNone;
   valued "--peer-snapshot-port" "peer_snapshot_port" CInt VNone;
   valued "--auth-token" "auth_token" CStr VNone;
   valued "--pool-port" "pool_port" CInt VNone;
   valued "--names-port" "names_port" CInt VNone;
   valued "--instance" "instance" CStr VNone;
   valued "--pipe" "pipe" CStr VNone;
   flag "--windows-service" "windows_service";
   flag "--no-relay-pool" "no_relay_pool";
   repeated "--only-uid" "only_uid" VNone;
   repeated "--exclude-uid" "exclude_uid" VNone;
   flag "--ready-json" "ready_json";
   flag "--exit-with-parent" "exit_with_parent";
   flag "--no-peering" "no_peering"].

Definition run_parser : parser := calls "cmd_run" (help_option :: run_options_shared) [].

Definition scope_options : list option_spec := [flag "--user" "user"; flag "--system" "system"].
Definition scoped (f : string) (required : bool) (rest : list option_spec) : parser :=
  exclusive (calls f (help_option :: scope_options ++ rest) []) required ["--user"; "--system"].

Definition service_install_parser : parser := scoped "cmd_service_install" true [flag "--dry-run" "dry_run"].
Definition service_uninstall_parser : parser :=
  scoped "cmd_service_uninstall" true [flag "--purge" "purge"; flag "--dry-run" "dry_run"].
Definition service_status_parser : parser := calls "cmd_service_status" [help_option] [].
Definition service_control_parser : parser := scoped "cmd_service_control" false [flag "--dry-run" "dry_run"].

Definition service_parser : parser :=
  choosing [help_option] "service_command"
    ([("install", service_install_parser); ("uninstall", service_uninstall_parser);
      ("status", service_status_parser); ("run", run_parser)] ++
     map (fun action => (action, service_control_parser)) ["start"; "stop"; "restart"]).

Definition install_service_parser : parser :=
  calls "cmd_install_service" [help_option; valued "--user" "user" CStr VNone] [].

Definition registry_parser : parser :=
  choosing [help_option; mkOption ["--version"] "version" AVersion VNone false] "command"
    [("list", list_parser); ("unlock", unlock_parser); ("rescan", rescan_parser); ("run", run_parser);
     ("service", service_parser); ("install-service", install_service_parser)].

(** What a command reads of its namespace. *)
Definition read_flag (k : string) (ns : namespace) : option bool :=
  match dget k ns with Some (VBool b) => Some b | _ => None end.
Definition read_word (k : string) (ns : namespace) : option string :=
  match dget k ns with Some (VStr s) => Some s | _ => None end.
Definition read_str (k : string) (ns : namespace) : option (option string) :=
  match dget k ns with Some (VStr s) => Some (Some s) | Some VNone => Some None | _ => None end.
Definition read_int (k : string) (ns : namespace) : option (option Z) :=
  match dget k ns with Some (VInt z) => Some (Some z) | Some VNone => Some None | _ => None end.
Definition read_num (k : string) (ns : namespace) : option Z :=
  match dget k ns with Some (VInt z) => Some z | _ => None end.
Definition read_float (k : string) (ns : namespace) : option pyfloat :=
  match dget k ns with Some (VFloat f) => Some f | _ => None end.
(** [args.peer or []]. *)
Definition read_list (k : string) (ns : namespace) : option (list string) :=
  match dget k ns with Some (VList l) => Some l | Some VNone => Some [] | _ => None end.
End Registry.

Notation "'let*' x := m 'in' k" := (match m with Some x => k | None => None end) (at level 10, x name, k at level 200).

(** ** [main] of [mbregistry] *)

Record run_options := mkRunOptions {
  ro_windows_service : bool;
  ro_interval : pyfloat;
  ro_only_uid : list string;                 (* [None] and no uid at all are the same to [build_claim_fn] *)
  ro_exclude_uid : list string;
  ro_args : run_args }.

Inductive registry_command :=
| RcList (socket : option string) (show_all json : bool) (sort_by : option string)
| RcUnlock (socket : option string) (uid : string)
| RcRescan (socket : option string) (dry_run json : bool)
| RcRun (o : run_options)
| RcServiceInstall (f : scope_flag) (dry_run : bool)
| RcServiceUninstall (f : scope_flag) (purge dry_run : bool)
| RcServiceStatus
| RcServiceControl (action : string) (f : option scope_flag) (dry_run : bool)
| RcInstallService (user : option string).

Definition read_run (ns : namespace) : option run_options :=
  let* windows_service := read_flag "windows_service" ns in
  let* interval := read_float "interval" ns in
  let* only_uid := read_list "only_uid" ns in
  let* exclude_uid := read_list "exclude_uid" ns in
  let* socket := read_str "socket" ns in
  let* db := read_str "db" ns in
  let* remote_port := read_int "remote_port" ns in
  let* peer_pub_port := read_int "peer_pub_port" ns in
  let* peer_snapshot_port := read_int "peer_snapshot_port" ns in
  let* auth_token := read_str "auth_token" ns in
  let* pool_port := read_int "pool_port" ns in
  let* names_port := read_int "names_port" ns in
  let* instance := read_str "instance" ns in
  let* pipe := read_str "pipe" ns in
  let* peer := read_list "peer" ns in
  let* exit_with_parent := read_flag "exit_with_parent" ns in
  let* no_peering := read_flag "no_peering" ns in
  let* no_relay_pool := read_flag "no_relay_pool" ns in
  let* ready_json := read_flag "ready_json" ns in
  Some (mkRunOptions windows_service interval only_uid exclude_uid
    (mkRunArgs socket db remote_port peer_pub_port peer_snapshot_port auth_token pool_port names_port instance pipe peer
       exit_with_parent no_peering no_relay_pool ready_json)).

(** [_service_scope]. *)
Definition read_scope (ns : namespace) : option scope_flag :=
  let* user := read_flag "user" ns in Some (if user : bool then UserFlag else SystemFlag).

(** [_installed_service_scope]'s [args.user or args.system]. *)
Definition read_scope_flags (ns : namespace) : option (option scope_flag) :=
  let* user := read_flag "user" ns in
  let* system := read_flag "system" ns in
  Some (if (user : bool) || system then Some (if user then UserFlag else SystemFlag) else None).

(** [args.func(args)]: which command, and what it reads. *)
Definition registry_call (ns : namespace) : option registry_command :=
  let* f := read_word "func" ns in
  if String.eqb f "cmd_list" then
    let* socket := read_str "socket" ns in
    let* show_all := read_flag "show_all" ns in
    let* json := read_flag "json" ns in
    let* sort_by := read_str "sort_by" ns in
    Some (RcList socket show_all json sort_by)
  else if String.eqb f "cmd_unlock" then
    let* socket := read_str "socket" ns in
    let* uid := read_word "uid" ns in
    Some (RcUnlock socket uid)
  else if String.eqb f "cmd_rescan" then
    let* socket := read_str "socket" ns in
    let* dry_run := read_flag "dry_run" ns in
    let* json := read_flag "json" ns in
    Some (RcRescan socket dry_run json)
  else if String.eqb f "cmd_run" then let* o := read_run ns in Some (RcRun o)
  else if String.eqb f "cmd_service_install" then
    let* scope := read_scope ns in
    let* dry_run := read_flag "dry_run" ns in
    Some (RcServiceInstall scope dry_run)
  else if String.eqb f "cmd_service_uninstall" then
    let* scope := read_scope ns in
    let* purge := read_flag "purge" ns in
    let* dry_run := read_flag "dry_run" ns in
    Some (RcServiceUninstall scope purge dry_run)
  else if String.eqb f "cmd_service_status" then Some RcServiceStatus
  else if String.eqb f "cmd_service_control" then
    let* action := read_word "service_command" ns in
    let* scope := read_scope_flags ns in
    let* dry_run := read_flag "dry_run" ns in
    Some (RcServiceControl action scope dry_run)
  else if String.eqb f "cmd_install_service" then
    let* user := read_str "user" ns in
    Some (RcInstallService user)
  else None.

Definition registry_main (argv : list string) : outcome (option registry_command) :=
  let? ns := parse_args registry_parser argv in Go (registry_call ns).

(** ** [mbdeploy] *)

Section Deploy.
Definition DEFAULT_REPROBE_TIMEOUT_S : pyfloat := FFin 15 1.

Definition deploy_parser : parser :=
  exclusive
    (calls "cmd_deploy"
       [help_option; valued "--hex" "hex" CStr VNone; valued "--repo" "repo" CStr VNone; valued "--asset" "asset" CStr VNone;
        flag "--force-relay" "force_relay"; socket_option;
        valued "--reprobe-timeout" "reprobe_timeout" CFloat (VFloat DEFAULT_REPROBE_TIMEOUT_S)]
       [word "target"])
    true ["--hex"; "--repo"].

Definition deploy_list_parser : parser := calls "cmd_list" [help_option; flag "--json" "json"; socket_option] [].

Definition build_p : parser :=
  calls "cmd_build"
    [help_option; flag "--clean" "clean"; flag "--verbose" "verbose"; valued "-j" "jobs" CInt VNone;
     valued "--build-cmd" "build_cmd" CStr VNone] [].

Definition debug_parser : parser :=
  calls "cmd_debug" [help_option; socket_option] [word "target"; mkPositional "pyocd_args" Remainder CStr].

Definition mbdeploy_parser : parser :=
  choosing [help_option] "command"
    [("deploy", deploy_parser); ("list", deploy_list_parser); ("build", build_p); ("debug", debug_parser)].
End Deploy.

(** What [mbdeploy] is asked to do; [hex] and [repo] as given. *)
Inductive deploy_command :=
| DcDeploy (socket : option string) (target : string) (hex repo asset : option string) (force_relay : bool) (reprobe_timeout : pyfloat)
| DcList (socket : option string) (json : bool)
| DcBuild (clean verbose : bool) (jobs : option Z) (build_cmd : option string)
| DcDebug (socket : option string) (target : string) (pyocd_args : list string).

Definition deploy_call (ns : namespace) : option deploy_command :=
  let* f := read_word "func" ns in
  if String.eqb f "cmd_deploy" then
    let* socket := read_str "socket" ns in
    let* target := read_word "target" ns in
    let* hex := read_str "hex" ns in
    let* repo := read_str "repo" ns in
    let* asset := read_str "asset" ns in
    let* force_relay := read_flag "force_relay" ns in
    let* reprobe_timeout := read_float "reprobe_timeout" ns in
    Some (DcDeploy socket target hex repo asset force_relay reprobe_timeout)
  else if String.eqb f "cmd_list" then
    let* socket := read_str "socket" ns in
    let* json := read_flag "json" ns in
    Some (DcList socket json)
  else if String.eqb f "cmd_build" then
    let* clean := read_flag "clean" ns in
    let* verbose := read_flag "verbose" ns in
    let* jobs := read_int "jobs" ns in
    let* build_cmd := read_str "build_cmd" ns in
    Some (DcBuild clean verbose jobs build_cmd)
  else if String.eqb f "cmd_debug" then
    let* socket := read_str "socket" ns in
    let* target := read_word "target" ns in
    let* pyocd_args := read_list "pyocd_args" ns in
    Some (DcDebug socket target pyocd_args)
  else None.

Definition deploy_main (argv : list string) : outcome (option deploy_command) :=
  let? ns := parse_args mbdeploy_parser argv in Go (deploy_call ns).

(** ** [mbrelay] *)

Section Relay.
Definition connect_parser : parser :=
  calls "cmd_connect"
    [help_option; repeated "--send" "send" (VList []); valued "--expect" "expect" CStr VNone;
     valued "--timeout" "timeout" CFloat (VFloat (FFin 8 1)); flag "--no-probe" "no_probe";
     valued "--escape" "escape" CStr (VStr "]"); socket_option] [word "target"].

Definition names_get_parser : parser := calls "cmd_names_get" [help_option; socket_option] [word "name"].
Definition names_set_parser : parser :=
  calls "cmd_names_set" [help_option; socket_option] [word "name"; mkPositional "channel" One CInt; mkPositional "group" One CInt].
Definition names_clear_parser : parser := calls "cmd_names_clear" [help_option; socket_option] [word "name"].
Definition names_list_parser : parser := calls "cmd_names_list" [help_option; socket_option] [].

Definition names_parser : parser :=
  choosing [help_option] "names_command"
    [("get", names_get_parser); ("set", names_set_parser); ("clear", names_clear_parser); ("list", names_list_parser)].

Definition mbrelay_parser : parser :=
  choosing [help_option] "command" [("connect", connect_parser); ("names", names_parser)].
End Relay.

Inductive relay_command :=
| LcConnect (socket : option string) (target : string) (send : list string) (expect : option string) (timeout : pyfloat)
    (no_probe : bool) (escape : string)
| LcNamesGet (socket : option string) (name : string)
| LcNamesSet (socket : option string) (name : string) (channel group : Z)
| LcNamesClear (socket : option string) (name : string)
| LcNamesList (socket : option string).

Definition relay_call (ns : namespace) : option relay_command :=
  let* f := read_word "func" ns in
  let* socket := read_str "socket" ns in
  if String.eqb f "cmd_connect" then
    let* target := read_word "target" ns in
    let* send := read_list "send" ns in
    let* expect := read_str "expect" ns in
    let* timeout := read_float "timeout" ns in
    let* no_probe := read_flag "no_probe" ns in
    let* escape := read_word "escape" ns in
    Some (LcConnect socket target send expect timeout no_probe escape)
  else if String.eqb f "cmd_names_get" then let* name := read_word "name" ns in Some (LcNamesGet socket name)
  else if String.eqb f "cmd_names_set" then
    let* name := read_word "name" ns in
    let* channel := read_num "channel" ns in
    let* group := read_num "group" ns in
    Some (LcNamesSet socket name channel group)
  else if String.eqb f "cmd_names_clear" then let* name := read_word "name" ns in Some (LcNamesClear socket name)
  else if String.eqb f "cmd_names_list" then Some (LcNamesList socket)
  else None.

Definition relay_main (argv : list string) : outcome (option relay_command) :=
  let? ns := parse_args mbrelay_parser argv in Go (relay_call ns).

(** ** [mbserial] *)

Definition DEFAULT_TIMEOUT : pyfloat := FFin 2 1.

Definition serial_parser : parser :=
  calls "cmd_connect"
    [help_option; flag "--reset" "reset"; valued "--baud" "baud" CInt (VInt BAUD_RATE);
     valued "--timeout" "timeout" CFloat (VFloat DEFAULT_TIMEOUT); socket_option]
    [word "target"; mkPositional "message" Star CStr].

Record serial_command := mkSerialCommand {
  sc_socket : option string;
  sc_target : string;
  sc_message : list string;
  sc_reset : bool;
  sc_baud : Z;
  sc_timeout : pyfloat }.

Definition serial_main (argv : list string) : outcome (option serial_command) :=
  let? ns := parse_args serial_parser argv in
  Go (let* socket := read_str "socket" ns in
      let* target := read_word "target" ns in
      let* message := read_list "message" ns in
      let* reset := read_flag "reset" ns in
      let* baud := read_num "baud" ns in
      let* timeout := read_float "timeout" ns in
      Some (mkSerialCommand socket target message reset baud timeout)).
