(* ===== verification/ParsersFacts.v ===== *)
(** * [mbregistry]'s command lines

    Every command of [mbregistry] has a command line, [main] reads it back
    as that command with those arguments, and no line that is accepted calls
    anything else than a command with arguments of its types. *)

From S2P Require Import Prelude Tables Json Argparse ArgparseFacts ArgparseSound RegistryCli RegistryRun Parsers.
Local Open Scope py_scope.

(** ** Command lines *)

Definition str_value (o : option string) : arg_value := match o with Some s => VStr s | None => VNone end.
Definition int_value (o : option Z) : arg_value := match o with Some z => VInt z | None => VNone end.

Definition str_piece (f dest : string) (o : option string) : piece := once f dest o (str_value o).
Definition int_piece (f dest : string) (o : option Z) : piece := once f dest (option_map pretty o) (int_value o).

Definition sort_piece (sort_by : option string) : piece :=
  match sort_by with
  | Some k => mkPiece "sort_by" [Flagged ("--by-" +:+ k)%string] (VStr k)
  | None => mkPiece "sort_by" [] VNone
  end.

Definition scope_pieces (f : option scope_flag) : list piece :=
  [switch "--user" "user" match f with Some UserFlag => true | _ => false end;
   switch "--system" "system" match f with Some SystemFlag => true | _ => false end].

Section Lines.
(** The text of the poll interval. *)
Variable interval : string.

Definition run_pieces (o : run_options) : list piece :=
  let a := ro_args o in
  [str_piece "--socket" "socket" (ra_socket a); str_piece "--db" "db" (ra_db a);
   once "--interval" "interval" (Some interval) (VFloat (ro_interval o));
   many "--peer" "peer" (ra_peer a);
   int_piece "--remote-port" "remote_port" (ra_remote_port a);
   int_piece "--peer-pub-port" "peer_pub_port" (ra_peer_pub_port a);
   int_piece "--peer-snapshot-port" "peer_snapshot_port" (ra_peer_snapshot_port a);
   str_piece "--auth-token" "auth_token" (ra_auth_token a);
   int_piece "--pool-port" "pool_port" (ra_pool_port a); int_piece "--names-port" "names_port" (ra_names_port a);
   str_piece "--instance" "instance" (ra_instance a); str_piece "--pipe" "pipe" (ra_pipe a);
   switch "--windows-service" "windows_service" (ro_windows_service o);
   switch "--no-relay-pool" "no_relay_pool" (ra_no_relay_pool a);
   many "--only-uid" "only_uid" (ro_only_uid o); many "--exclude-uid" "exclude_uid" (ro_exclude_uid o);
   switch "--ready-json" "ready_json" (ra_ready_json a);
   switch "--exit-with-parent" "exit_with_parent" (ra_exit_with_parent a);
   switch "--no-peering" "no_peering" (ra_no_peering a)].

Definition command_pieces (c : registry_command) : list piece :=
  match c with
  | RcList socket show_all json sort_by =>
      [str_piece "--socket" "socket" socket; switch "--all" "show_all" show_all; switch "--json" "json" json; sort_piece sort_by]
  | RcUnlock socket _ => [switch "--force" "force" true; str_piece "--socket" "socket" socket]
  | RcRescan socket dry_run json =>
      [str_piece "--socket" "socket" socket; switch "--dry-run" "dry_run" dry_run; switch "--json" "json" json]
  | RcRun o => run_pieces o
  | RcServiceInstall f dry_run => scope_pieces (Some f) ++ [switch "--dry-run" "dry_run" dry_run]
  | RcServiceUninstall f purge dry_run =>
      scope_pieces (Some f) ++ [switch "--purge" "purge" purge; switch "--dry-run" "dry_run" dry_run]
  | RcServiceStatus => []
  | RcServiceControl _ f dry_run => scope_pieces f ++ [switch "--dry-run" "dry_run" dry_run]
  | RcInstallService user => [str_piece "--user" "user" user]
  end.
End Lines.

Definition command_operands (c : registry_command) : list (string * string) :=
  match c with RcUnlock _ uid => [("uid", uid)] | _ => [] end.

(** The subcommand's words: [run] has two. *)
Definition command_names (c : registry_command) : list (list string) :=
  match c with
  | RcList _ _ _ _ => [["list"]]
  | RcUnlock _ _ => [["unlock"]]
  | RcRescan _ _ _ => [["rescan"]]
  | RcRun _ => [["run"]; ["service"; "run"]]
  | RcServiceInstall _ _ => [["service"; "install"]]
  | RcServiceUninstall _ _ _ => [["service"; "uninstall"]]
  | RcServiceStatus => [["service"; "status"]]
  | RcServiceControl action _ _ => [["service"; action]]
  | RcInstallService _ => [["install-service"]]
  end.

(** Values that can be written: [--], joined to a flag, is taken away. *)
Definition writable (o : option string) : Prop := o <> Some "--".
Definition is_port (o : option Z) : Prop := match o with Some z => 0 <= z | None => True end.

Definition run_printable (interval : string) (o : run_options) : Prop :=
  let a := ro_args o in
  (interval <> "--" /\ float_of_str interval = Ok (ro_interval o)) /\
  Forall writable [ra_socket a; ra_db a; ra_auth_token a; ra_instance a; ra_pipe a] /\
  Forall is_port [ra_remote_port a; ra_peer_pub_port a; ra_peer_snapshot_port a; ra_pool_port a; ra_names_port a] /\
  Forall (fun v => v <> "--") (ra_peer a ++ ro_only_uid o ++ ro_exclude_uid o).

Definition printable (interval : string) (c : registry_command) : Prop :=
  match c with
  | RcList socket _ _ sort_by =>
      writable socket /\ match sort_by with Some k => In k ["state"; "name"; "firmware"; "host"] | None => True end
  | RcUnlock socket uid => writable socket /\ plain uid = true
  | RcRescan socket _ _ => writable socket
  | RcRun o => run_printable interval o
  | RcServiceControl action _ _ => In action ["start"; "stop"; "restart"]
  | RcInstallService user => writable user
  | _ => True
  end.

Definition command_parser (c : registry_command) : parser :=
  match c with
  | RcList _ _ _ _ => list_parser
  | RcUnlock _ _ => unlock_parser
  | RcRescan _ _ _ => rescan_parser
  | RcRun _ => run_parser
  | RcServiceInstall _ _ => service_install_parser
  | RcServiceUninstall _ _ _ => service_uninstall_parser
  | RcServiceStatus => service_status_parser
  | RcServiceControl _ _ _ => service_control_parser
  | RcInstallService _ => install_service_parser
  end.

(** ** Each line is well formed *)

(** The option of a parser by its flag, with everything [free_option] asks. *)
Ltac free_by_eval :=
  split; [reflexivity|split; [reflexivity|split; [apply (bool_decide_unpack _); vm_compute; exact I|reflexivity]]].

Lemma str_piece_ok p seen f o w : free_option p seen f o -> op_action o = AStore CStr -> writable w ->
  dget (op_dest o) (initial_namespace p) = Some VNone -> piece_ok p seen (str_piece f (op_dest o) w).
Proof.
  intros Hf Ha Hw Hi. apply (once_ok p seen f o CStr w (str_value w) Hf Ha). destruct w as [s|]; [|exact Hi].
  split; [|reflexivity]. intros ->. apply Hw. reflexivity.
Qed.

Lemma pretty_not_dashes z : 0 <= z -> pretty z <> "--".
Proof.
  intros Hz H. pose proof (int_of_str_pretty z Hz) as E. rewrite H in E. discriminate E.
Qed.

Lemma int_piece_ok p seen f o w : free_option p seen f o -> op_action o = AStore CInt -> is_port w ->
  dget (op_dest o) (initial_namespace p) = Some VNone -> piece_ok p seen (int_piece f (op_dest o) w).
Proof.
  intros Hf Ha Hw Hi. apply (once_ok p seen f o CInt (option_map pretty w) (int_value w) Hf Ha). destruct w as [z|]; [|exact Hi].
  split; [exact (pretty_not_dashes z Hw)|]. cbn [convert]. rewrite (int_of_str_pretty z Hw). reflexivity.
Qed.

(** A piece, by the option its flag is of. *)
Ltac by_option :=
  let found p f tac := (let o := eval vm_compute in (find_option p f) in match o with Some ?o' => tac o' end) in
  lazymatch goal with
  | |- piece_ok ?p ?seen (str_piece ?f _ ?w) =>
      found p f ltac:(fun o => apply (str_piece_ok p seen f o w); [free_by_eval|reflexivity| |reflexivity])
  | |- piece_ok ?p ?seen (int_piece ?f _ ?w) =>
      found p f ltac:(fun o => apply (int_piece_ok p seen f o w); [free_by_eval|reflexivity| |reflexivity])
  | |- piece_ok ?p ?seen (switch ?f _ ?b) =>
      found p f ltac:(fun o => apply (switch_ok p seen f o b); [free_by_eval|reflexivity|reflexivity])
  | |- piece_ok ?p ?seen (many ?f _ ?l) =>
      found p f ltac:(fun o => apply (many_ok p seen f o l); [free_by_eval|reflexivity| |reflexivity])
  | |- piece_ok ?p ?seen (once ?f _ ?w ?v) =>
      found p f ltac:(fun o => apply (once_ok p seen f o CFloat w v); [free_by_eval|reflexivity|])
  end.

Ltac by_options := repeat (apply Forall_cons_2; [by_option|]); try apply Forall_nil_2.

Lemma run_line_ok interval o : run_printable interval o ->
  line_ok run_parser (map op_id run_options_shared) (run_pieces interval o) [].
Proof.
  intros ((I1 & I2) & Hs & Hp & Hl). rewrite !Forall_cons in Hs. rewrite !Forall_cons in Hp. rewrite !Forall_app in Hl.
  destruct Hs as (? & ? & ? & ? & ? & _), Hp as (? & ? & ? & ? & ? & _), Hl as (? & ? & ?).
  constructor; try reflexivity; [|apply (bool_decide_unpack _); vm_compute; exact I|constructor].
  unfold run_pieces. by_options; try assumption. split; [exact I1|]. cbn [convert]. rewrite I2. reflexivity.
Qed.

Ltac closed_apart := apply (bool_decide_unpack _); vm_compute; exact I.

(** An option that is not given, and leaves its default. *)
Lemma absent_ok p seen dest v : dget dest (initial_namespace p) = Some v -> piece_ok p seen (mkPiece dest [] v).
Proof.
  intros Hv. split; [constructor|]. split; [apply incl_nil_l|]. intros s _ H. exists s. split; [reflexivity|].
  apply sets_nothing. exact (eq_trans H Hv).
Qed.

Lemma list_line_ok socket show_all json sort_by : printable "" (RcList socket show_all json sort_by) ->
  exists seen, line_ok list_parser seen (command_pieces "" (RcList socket show_all json sort_by)) [].
Proof.
  intros [Hs Hk]. destruct sort_by as [k|]; cbn [command_pieces].
  - destruct Hk as [<-|[<-|[<-|[<-|[]]]]];
      [exists ["--socket"; "--all"; "--json"; "-s"]|exists ["--socket"; "--all"; "--json"; "-n"]|
       exists ["--socket"; "--all"; "--json"; "-f"]|exists ["--socket"; "--all"; "--json"; "-H"]];
      (constructor; try reflexivity; [by_options; try assumption|closed_apart|constructor]);
      (apply Forall_cons_2; [|constructor]);
      match goal with |- piece_ok ?p ?seen (sort_piece (Some ?k)) =>
        let o := eval vm_compute in (find_option p ("--by-" +:+ k)%string) in
        match o with Some ?o' => apply (const_ok p seen ("--by-" +:+ k)%string o' k); [free_by_eval|reflexivity] end
      end.
  - exists ["--socket"; "--all"; "--json"]. constructor; try reflexivity; [by_options; try assumption|closed_apart|constructor].
    apply Forall_cons_2; [apply absent_ok; reflexivity|constructor].
Qed.

Lemma unlock_line_ok socket uid : printable "" (RcUnlock socket uid) ->
  line_ok unlock_parser ["--force"; "--socket"] (command_pieces "" (RcUnlock socket uid)) [("uid", uid)].
Proof.
  intros [Hs Hu]. constructor; try reflexivity; [cbn [command_pieces]; by_options; assumption|closed_apart|].
  constructor; [exact Hu|constructor].
Qed.

Lemma rescan_line_ok socket dry_run json : writable socket ->
  line_ok rescan_parser ["--socket"; "--dry-run"; "--json"] (command_pieces "" (RcRescan socket dry_run json)) [].
Proof. intros Hs. constructor; try reflexivity; [cbn [command_pieces]; by_options; assumption|closed_apart|constructor]. Qed.

Lemma install_service_line_ok user : writable user ->
  line_ok install_service_parser ["--user"] (command_pieces "" (RcInstallService user)) [].
Proof. intros Hs. constructor; try reflexivity; [cbn [command_pieces]; by_options; assumption|closed_apart|constructor]. Qed.

(** The scope flags exclude each other, and one at most is given. *)
Definition scope_ids (f : option scope_flag) : list string :=
  match f with Some UserFlag => ["--user"] | Some SystemFlag => ["--system"] | None => [] end.

Ltac scope_pieces_ok := apply Forall_cons_2; [by_option || (apply absent_ok; reflexivity)|].

Ltac scoped_line_ok :=
  constructor; try reflexivity; [cbn [command_pieces scope_pieces app]; scope_pieces_ok; scope_pieces_ok; by_options|closed_apart|constructor].

Lemma service_line_ok c : printable "" c ->
  match c with RcServiceInstall _ _ | RcServiceUninstall _ _ _ | RcServiceStatus | RcServiceControl _ _ _ => True | _ => False end ->
  exists seen, line_ok (command_parser c) seen (command_pieces "" c) [].
Proof.
  intros Hc Hk. destruct c as [| | | |f dry_run|f purge dry_run| |action f dry_run|]; try contradiction; cbn [command_parser].
  - exists (scope_ids (Some f) ++ ["--dry-run"]). destruct f, dry_run; scoped_line_ok.
  - exists (scope_ids (Some f) ++ ["--purge"; "--dry-run"]). destruct f, purge, dry_run; scoped_line_ok.
  - exists []. constructor; try reflexivity; [constructor|closed_apart|constructor].
  - exists (scope_ids f ++ ["--dry-run"]). destruct f as [[]|], dry_run; scoped_line_ok.
Qed.

Lemma command_line_ok interval c : printable interval c ->
  exists seen, line_ok (command_parser c) seen (command_pieces interval c) (command_operands c).
Proof.
  intros Hc. destruct c as [socket show_all json sort_by|socket uid|socket dry_run json|o| | | | |user];
    try (match type of Hc with printable _ ?c => exact (service_line_ok c Hc I) end).
  - exact (list_line_ok socket show_all json sort_by Hc).
  - eexists. exact (unlock_line_ok socket uid Hc).
  - eexists. exact (rescan_line_ok socket dry_run json Hc).
  - eexists. exact (run_line_ok interval o Hc).
  - eexists. exact (install_service_line_ok user Hc).
Qed.

(** ** What the command reads *)

Section Reading.
Variable g : namespace.

Lemma read_str_value k o : dget k g = Some (str_value o) -> read_str k g = Some o.
Proof. intros H. unfold read_str. rewrite H. destruct o; reflexivity. Qed.
Lemma read_int_value k o : dget k g = Some (int_value o) -> read_int k g = Some o.
Proof. intros H. unfold read_int. rewrite H. destruct o; reflexivity. Qed.
Lemma read_flag_value k b : dget k g = Some (VBool b) -> read_flag k g = Some b.
Proof. intros H. unfold read_flag. rewrite H. reflexivity. Qed.
Lemma read_word_value k s : dget k g = Some (VStr s) -> read_word k g = Some s.
Proof. intros H. unfold read_word. rewrite H. reflexivity. Qed.
Lemma read_float_value k f : dget k g = Some (VFloat f) -> read_float k g = Some f.
Proof. intros H. unfold read_float. rewrite H. reflexivity. Qed.
Lemma read_list_value k l : dget k g = Some (listed l) -> read_list k g = Some l.
Proof. intros H. unfold read_list. rewrite H. destruct l; reflexivity. Qed.

Lemma sort_value sort_by : pc_value (sort_piece sort_by) = str_value sort_by.
Proof. destruct sort_by; reflexivity. Qed.

Lemma sort_dest sort_by : pc_dest (sort_piece sort_by) = "sort_by".
Proof. destruct sort_by; reflexivity. Qed.

(** The parser's own defaults and the line's values, in the whole namespace. *)
Record read_from (interval : string) (c : registry_command) : Prop := mkReadFrom {
  rf_pieces : Forall (fun pc => dget (pc_dest pc) g = Some (pc_value pc)) (command_pieces interval c);
  rf_operands : Forall (fun kv => dget kv.1 g = Some (VStr kv.2)) (command_operands c);
  rf_func : dget "func" g = dget "func" (pa_defaults (command_parser c));
  rf_action : match c with RcServiceControl action _ _ => dget "service_command" g = Some (VStr action) | _ => True end }.

Ltac read_all :=
  repeat match goal with
  | H : dget _ g = Some (str_value _) |- _ => apply read_str_value in H; try rewrite H
  | H : dget _ g = Some (int_value _) |- _ => apply read_int_value in H; try rewrite H
  | H : dget _ g = Some (VBool _) |- _ => apply read_flag_value in H; try rewrite H
  | H : dget _ g = Some (VFloat _) |- _ => apply read_float_value in H; try rewrite H
  | H : dget _ g = Some (VStr _) |- _ => apply read_word_value in H; try rewrite H
  | H : dget _ g = Some (listed _) |- _ => apply read_list_value in H; try rewrite H
  end.

Ltac split_forall := repeat match goal with
  | H : Forall _ (_ :: _) |- _ => apply Forall_cons_1 in H as [? H]
  | H : Forall _ [] |- _ => clear H
  end.

Lemma call_read interval c : read_from interval c -> registry_call g = Some c.
Proof.
  intros [Hp Ho Hf Ha]. unfold registry_call, command_pieces, run_pieces in *.
  destruct c as [socket show_all json sort_by|socket uid|socket dry_run json|[w i ou eu a]|f dry_run|f purge dry_run| |action f dry_run|user];
    cbn [command_operands command_parser scope_pieces app ro_args ro_windows_service ro_interval ro_only_uid ro_exclude_uid] in *; split_forall;
    cbn [pc_dest pc_value fst snd str_piece int_piece switch many once] in *; rewrite ?sort_value, ?sort_dest in *;
    rewrite (read_word_value "func" _ Hf); cbn [String.eqb Ascii.eqb Bool.eqb]; try reflexivity.
  all: unfold read_run, read_scope, read_scope_flags.
  all: try match goal with f : scope_flag |- _ => destruct f | f : option scope_flag |- _ => destruct f as [[]|] end; read_all; try destruct a; reflexivity.
Qed.
End Reading.

(** ** Choosing the subparser *)

Definition top_choices : list (string * parser) := match pa_sub registry_parser with Some (_, l) => l | None => [] end.
Definition service_choices : list (string * parser) := match pa_sub service_parser with Some (_, l) => l | None => [] end.

(** Where a command's parser is. *)
Definition reached (prefix : list string) (p : parser) : Prop :=
  (exists name, prefix = [name] /\ plain name = true /\ dget name top_choices = Some p) \/
  (exists name, prefix = ["service"; name] /\ plain name = true /\ dget name service_choices = Some p).

Lemma command_reached interval c prefix : printable interval c -> In prefix (command_names c) -> reached prefix (command_parser c).
Proof.
  intros Hc. destruct c as [| | | | | | |action|]; cbn [command_names command_parser];
    try (intros [<-|[]]; solve [left; eexists; repeat split|right; eexists; repeat split]).
  - intros [<-|[<-|[]]]; [left|right]; eexists; repeat split.
  - destruct Hc as [<-|[<-|[<-|[]]]]; intros [<-|[]]; right; eexists; repeat split.
Qed.

Lemma command_passes c : passes registry_parser (command_parser c) = true /\ passes service_parser (command_parser c) = true.
Proof. destruct c; split; vm_compute; reflexivity. Qed.

(** What a subparser's namespace leaves in the whole one. *)
Definition kept_in (ns g : namespace) : Prop := forall k v, dget k ns = Some v -> dget k g = Some v.

Lemma merged_keeps ns d : dunique ns -> kept_in ns (merged ns d).
Proof. intros Hu k v H. rewrite merged_get, H by exact Hu. reflexivity. Qed.

Lemma merged_dest ns dest v d : dunique ns -> dget dest ns = None -> dget dest (merged ns (dset dest v d)) = Some v.
Proof. intros Hu H. rewrite merged_get, H by exact Hu. apply dget_dset_eq. Qed.

Lemma top_parsed name q rest ns : plain name = true -> dget name top_choices = Some q -> Forall (readable registry_parser) rest ->
  parse_known 2 q rest = Go (ns, []) ->
  parse_args registry_parser (name :: rest) = Go (merged ns (dset "command" (VStr name) (initial_namespace registry_parser))).
Proof.
  intros Hn Hq Hr Hsub. unfold parse_args. change (parser_depth registry_parser) with 3%nat.
  change (parse_known 3 registry_parser (name :: rest)) with (parse_one registry_parser (parse_known 2) (name :: rest)).
  rewrite (chosen registry_parser (parse_known 2) "command" top_choices name rest q ns); auto. split; reflexivity.
Qed.

Lemma service_parsed name q rest ns : plain name = true -> dget name service_choices = Some q -> Forall (readable service_parser) rest ->
  parse_known 1 q rest = Go (ns, []) ->
  parse_known 2 service_parser (name :: rest) =
    Go (merged ns (dset "service_command" (VStr name) (initial_namespace service_parser)), []).
Proof.
  intros Hn Hq Hr Hsub.
  change (parse_known 2 service_parser (name :: rest)) with (parse_one service_parser (parse_known 1) (name :: rest)).
  apply (chosen service_parser (parse_known 1) "service_command" service_choices name rest q ns); auto. split; reflexivity.
Qed.

(** A line reaches its parser, whose namespace is kept. *)
Lemma line_reached prefix p seen pcs rest : reached prefix p -> passes registry_parser p = true -> passes service_parser p = true ->
  line_ok p seen pcs rest -> exists ns g,
    parse_args registry_parser (prefix ++ line_words pcs rest) = Go g /\ line_result p pcs rest ns /\ kept_in ns g /\
    (forall name, prefix = ["service"; name] -> dget "service_command" ns = None -> dget "service_command" g = Some (VStr name)).
Proof.
  intros [(name & -> & Hn & Hq)|(name & -> & Hn & Hq)] Ht Hsv Hl; cbn [app].
  - destruct (line_parsed p (parse_known 1) seen pcs rest Hl) as (ns & E & R). eexists ns, _.
    split; [exact (top_parsed name p _ ns Hn Hq (line_readable _ _ _ _ _ Ht Hl) E)|].
    split; [exact R|]. split; [apply merged_keeps, R|]. intros n [=].
  - destruct (line_parsed p (parse_known 0) seen pcs rest Hl) as (ns & E & R).
    pose proof (service_parsed name p _ ns Hn Hq (line_readable _ _ _ _ _ Hsv Hl) E) as E2.
    set (ns2 := merged ns _) in E2.
    assert (U2 : dunique ns2) by (apply merged_unique, dunique_dset, initial_unique).
    eexists ns, _. split.
    { apply (top_parsed "service" service_parser (name :: line_words pcs rest) ns2 eq_refl eq_refl); [|exact E2].
      constructor; [exact (plain_readable _ _ Hn)|exact (line_readable _ _ _ _ _ Ht Hl)]. }
    split; [exact R|]. split.
    + intros k v H. apply (merged_keeps ns2 _ U2). apply (merged_keeps ns _ (proj1 R)). exact H.
    + intros n [= <-] H. apply (merged_keeps ns2 _ U2). exact (merged_dest ns _ _ _ (proj1 R) H).
Qed.

(** No option of a line is named as what its parser sets by itself. *)
Lemma defaults_first interval c k : In k ["func"; "service_command"] -> ~ In k (map pc_dest (command_pieces interval c)) /\
  ~ In k (map fst (command_operands c)).
Proof.
  rewrite <- (list_elem_of_In (map pc_dest _)), <- (list_elem_of_In (map fst _)). intros Hk.
  destruct Hk as [<-|[<-|[]]]; destruct c as [? ? ? []| | | | | | | |];
    split; closed_apart.
Qed.

Lemma func_default c : exists v, dget "func" (initial_namespace (command_parser c)) = Some v /\
  dget "func" (pa_defaults (command_parser c)) = Some v.
Proof. exists (default VNone (dget "func" (pa_defaults (command_parser c)))). destruct c; split; vm_compute; reflexivity. Qed.

(** ** What every accepted line calls *)

Definition scope_schema : schema := [("user", TFlag); ("system", TFlag); ("dry_run", TFlag)].

(** The types a command takes its arguments to be of. *)
Definition run_schema : schema :=
  [("func", TExactly "cmd_run"); ("socket", TStr); ("db", TStr); ("interval", TFloat); ("peer", TList); ("remote_port", TInt);
   ("peer_pub_port", TInt); ("peer_snapshot_port", TInt); ("auth_token", TStr); ("pool_port", TInt); ("names_port", TInt);
   ("instance", TStr); ("pipe", TStr); ("windows_service", TFlag); ("no_relay_pool", TFlag); ("only_uid", TList);
   ("exclude_uid", TList); ("ready_json", TFlag); ("exit_with_parent", TFlag); ("no_peering", TFlag)].

Definition leaves : list (parser * schema) :=
  [(list_parser, [("func", TExactly "cmd_list"); ("socket", TStr); ("show_all", TFlag); ("json", TFlag); ("sort_by", TStr)]);
   (unlock_parser, [("func", TExactly "cmd_unlock"); ("socket", TStr); ("uid", TWord)]);
   (rescan_parser, [("func", TExactly "cmd_rescan"); ("socket", TStr); ("dry_run", TFlag); ("json", TFlag)]);
   (run_parser, run_schema);
   (service_install_parser, ("func", TExactly "cmd_service_install") :: scope_schema);
   (service_uninstall_parser, ("func", TExactly "cmd_service_uninstall") :: ("purge", TFlag) :: scope_schema);
   (service_status_parser, [("func", TExactly "cmd_service_status")]);
   (service_control_parser, ("func", TExactly "cmd_service_control") :: scope_schema);
   (install_service_parser, [("func", TExactly "cmd_install_service"); ("user", TStr)])].

Lemma leaves_typed q ts : In (q, ts) leaves -> typed_parser q ts.
Proof.
  intros Hi. repeat (destruct Hi as [[= <- <-]|Hi]); [..|destruct Hi];
    (constructor; [vm_compute; reflexivity|reflexivity|vm_compute; reflexivity| | |vm_compute; reflexivity]);
    try (left; reflexivity); try (right; eexists; reflexivity); intros k H; try discriminate H.
  injection H as <-. vm_compute. reflexivity.
Qed.

Section Calling.
Variable g : namespace.

Definition typed_at (k : string) (t : ty) : Prop := exists v, dget k g = Some v /\ has_type t v = true.

Lemma str_at k : typed_at k TStr -> exists o, read_str k g = Some o.
Proof. intros (v & H & T). unfold read_str. rewrite H. destruct v; try discriminate T; eauto. Qed.
Lemma word_at k : typed_at k TWord -> exists o, read_word k g = Some o.
Proof. intros (v & H & T). unfold read_word. rewrite H. destruct v; try discriminate T; eauto. Qed.
Lemma int_at k : typed_at k TInt -> exists o, read_int k g = Some o.
Proof. intros (v & H & T). unfold read_int. rewrite H. destruct v; try discriminate T; eauto. Qed.
Lemma float_at k : typed_at k TFloat -> exists o, read_float k g = Some o.
Proof. intros (v & H & T). unfold read_float. rewrite H. destruct v; try discriminate T; eauto. Qed.
Lemma flag_at k : typed_at k TFlag -> exists o, read_flag k g = Some o.
Proof. intros (v & H & T). unfold read_flag. rewrite H. destruct v; try discriminate T; eauto. Qed.
Lemma list_at k : typed_at k TList -> exists o, read_list k g = Some o.
Proof. intros (v & H & T). unfold read_list. rewrite H. destruct v; try discriminate T; eauto. Qed.
Lemma exactly_at k s : typed_at k (TExactly s) -> read_word k g = Some s.
Proof. intros (v & H & T). unfold read_word. rewrite H. destruct v; try discriminate T. cbn in T. apply String.eqb_eq in T as ->. reflexivity. Qed.

Ltac read_typed :=
  repeat match goal with
  | H : typed_at _ TStr |- _ => apply str_at in H as [? H]; try rewrite H
  | H : typed_at _ TWord |- _ => apply word_at in H as [? H]; try rewrite H
  | H : typed_at _ TInt |- _ => apply int_at in H as [? H]; try rewrite H
  | H : typed_at _ TFloat |- _ => apply float_at in H as [? H]; try rewrite H
  | H : typed_at _ TFlag |- _ => apply flag_at in H as [? H]; try rewrite H
  | H : typed_at _ TList |- _ => apply list_at in H as [? H]; try rewrite H
  end.

Lemma typed_call q ts : In (q, ts) leaves -> Forall (fun kt => typed_at kt.1 kt.2) ts -> typed_at "service_command" TWord \/ q <> service_control_parser ->
  exists c, registry_call g = Some c.
Proof.
  intros Hi Hts Hs. repeat (destruct Hi as [[= <- <-]|Hi]); [..|destruct Hi];
    unfold run_schema, scope_schema in Hts; repeat (apply Forall_cons_1 in Hts as [? Hts]); cbn [fst snd] in *;
    match goal with H : typed_at "func" _ |- _ => apply exactly_at in H; unfold registry_call; rewrite H end;
    cbn [String.eqb Ascii.eqb Bool.eqb]; unfold read_run, read_scope, read_scope_flags; try (destruct Hs as [Hs|Hs]; [|congruence]);
    read_typed; eauto.
Qed.
End Calling.

(** ** The two directions *)

(** Every command is read back from its line. *)
Lemma lines_read_back interval c prefix pcs :
  printable interval c -> In prefix (command_names c) -> pcs ≡ₚ command_pieces interval c ->
  registry_main (prefix ++ line_words pcs (command_operands c)) = Go (Some c).
Proof.
  intros Hc Hp Hperm. destruct (command_line_ok interval c Hc) as (seen & Hl).
  apply (line_ok_perm _ _ _ pcs) in Hl; [|symmetry; exact Hperm]. destruct (command_passes c) as [P1 P2].
  destruct (line_reached prefix _ seen pcs _ (command_reached interval c prefix Hc Hp) P1 P2 Hl) as (ns & g & E & (_ & R1 & R2 & R3) & K & A).
  assert (D : forall k, In k ["func"; "service_command"] -> dget k ns = dget k (initial_namespace (command_parser c))).
  { intros k Hk. destruct (defaults_first interval c k Hk) as [N1 N2]. apply R3; [rewrite Hperm; exact N1|exact N2]. }
  unfold registry_main. rewrite E. cbn [obind]. f_equal. apply (call_read g interval). split.
  - rewrite <- Hperm. apply Forall_forall. intros pc Hi. apply K, R1, list_elem_of_In, Hi.
  - apply Forall_forall. intros kv Hi. apply K, R2, list_elem_of_In, Hi.
  - destruct (func_default c) as (v & F1 & ->). apply K. rewrite D by (left; reflexivity). exact F1.
  - destruct c; try exact I. destruct Hp as [<-|[]]. apply A; [reflexivity|]. rewrite D by (right; left; reflexivity). vm_compute. reflexivity.
Qed.

(** Where a subparser's choice leads. *)
Lemma top_leads name q : dget name top_choices = Some q -> q = service_parser \/ (exists ts, In (q, ts) leaves) /\ q <> service_control_parser.
Proof.
  intros H. apply dget_in in H.
  repeat (destruct H as [[= <- <-]|H]; [first [left; reflexivity|right; split; [eexists; cbn; auto 12|discriminate]]|]). destruct H.
Qed.

Lemma service_leads name q : dget name service_choices = Some q -> exists ts, In (q, ts) leaves.
Proof.
  intros H. apply dget_in in H. repeat (destruct H as [[= <- <-]|H]; [eexists; cbn; auto 12|]). destruct H.
Qed.

(** No subparser sets the choice above it. *)
Lemma action_apart q ts : In (q, ts) leaves -> ~ touched q "service_command" /\ dget "service_command" (initial_namespace q) = None.
Proof.
  intros H. assert (C : forallb (fun qt : parser * schema =>
      forallb (fun o => negb (String.eqb (op_dest o) "service_command")) (pa_options qt.1) &&
      forallb (fun sl => match sl with SlotArg a => negb (String.eqb (po_dest a) "service_command") | _ => true end) (initial_slots qt.1) &&
      match dget "service_command" (initial_namespace qt.1) with None => true | _ => false end) leaves = true) by by_eval.
  pose proof (proj1 (forallb_forall _ _) C _ H) as H1. cbn [fst] in H1. rewrite !andb_true_iff in H1. destruct H1 as ((A & B) & D).
  split; [|destruct (dget _ _); [discriminate|reflexivity]]. intros [(o & Ho & Hd)|Hs].
  - pose proof (proj1 (forallb_forall _ _) A o Ho) as X. cbn in X. rewrite Hd in X. discriminate.
  - pose proof (proj1 (forallb_forall _ _) B _ Hs) as X. discriminate.
Qed.

Lemma typed_kept ns g ts : kept_in ns g -> (forall k t, In (k, t) ts -> exists v, dget k ns = Some v /\ has_type t v = true) ->
  Forall (fun kt => typed_at g kt.1 kt.2) ts.
Proof.
  intros K H. apply Forall_forall. intros [k t] Hi. apply list_elem_of_In in Hi. destruct (H k t Hi) as (v & Hv & Ht).
  exists v. split; [exact (K k v Hv)|exact Ht].
Qed.

(** Every accepted line calls a command. *)
Lemma accepted_line_calls argv called :
  Forall clean argv -> registry_main argv = Go called -> exists c, called = Some c.
Proof.
  intros Hargs. unfold registry_main, parse_args. change (parser_depth registry_parser) with 3%nat.
  change (parse_known 3 registry_parser argv) with (parse_one registry_parser (parse_known 2) argv).
  destruct (parse_one registry_parser (parse_known 2) argv) as [[ns ex]|] eqn:E1; [|discriminate]. cbn [obind snd fst].
  destruct ex; [|discriminate]. cbn [obind]. intros [= <-].
  destruct (choice_accepted registry_parser "command" top_choices (parse_known 2) eq_refl eq_refl argv ns [] Hargs E1)
    as (name & rest & q & nsq & ex & Hq & Hrest & Hsub & ->).
  destruct (top_leads name q Hq) as [->|[(ts & Hl) Hne]].
  - change (parse_known 2 service_parser rest) with (parse_one service_parser (parse_known 1) rest) in Hsub.
    destruct (choice_accepted service_parser "service_command" service_choices (parse_known 1) eq_refl eq_refl rest nsq ex Hrest Hsub)
      as (name2 & rest2 & q2 & ns2 & ex2 & Hq2 & Hrest2 & Hsub2 & ->).
    destruct (service_leads name2 q2 Hq2) as (ts & Hl).
    change (parse_known 1 q2 rest2) with (parse_one q2 (parse_known 0) rest2) in Hsub2.
    destruct (leaf_typed q2 ts (leaves_typed _ _ Hl) (parse_known 0) rest2 ns2 ex2 Hrest2 Hsub2) as (U & H & N).
    set (inner := merged ns2 _). assert (U2 : dunique inner) by (apply merged_unique, dunique_dset, initial_unique).
    apply (typed_call _ q2 ts Hl).
    + apply (typed_kept ns2); [|exact H]. intros k v Hk. apply (merged_keeps inner _ U2), (merged_keeps ns2 _ U), Hk.
    + left. destruct (action_apart q2 ts Hl) as [T I0]. pose proof (N _ T) as Ev. rewrite I0 in Ev.
      exists (VStr name2). split; [|reflexivity]. apply (merged_keeps inner _ U2). exact (merged_dest ns2 _ _ _ U Ev).
  - change (parse_known 2 q rest) with (parse_one q (parse_known 1) rest) in Hsub.
    destruct (leaf_typed q ts (leaves_typed _ _ Hl) (parse_known 1) rest nsq ex Hrest Hsub) as (U & H & _).
    apply (typed_call _ q ts Hl); [|right; exact Hne]. apply (typed_kept nsq); [|exact H]. apply merged_keeps, U.
Qed.

(** ** Property *)

(** C39: Every command of mbregistry, whatever its arguments, has a command
    line that [main] reads back as exactly that command with those
    arguments: the options written [--flag=value], in any order (a repeated
    one's values in theirs), after the subcommand's words, a service's run as
    [run] or as [service run].  And every line at all that the parser
    accepts calls a command, each argument of which is there and of the type
    the command takes it for.  The one text this is not so for is [--] as a
    flag's value: argparse makes an empty list of it. *)
Theorem command_lines_read :
  (forall interval c prefix pcs, printable interval c -> In prefix (command_names c) -> pcs ≡ₚ command_pieces interval c ->
     registry_main (prefix ++ line_words pcs (command_operands c)) = Go (Some c)) /\
  (forall argv called, Forall clean argv -> registry_main argv = Go called -> exists c, called = Some c) /\
  registry_main ["run"; "--remote-port=--"] = Go None.
Proof.
  split; [exact lines_read_back|]. split; [exact accepted_line_calls|]. by_eval.
Qed.

Definition bench_run : run_options :=
  mkRunOptions false (FFin 5 10) [] ["9906"]
    (mkRunArgs None (Some "/tmp/a b.db") (Some 0) None None (Some "=x") (Some 7777) None (Some "thor") None ["loki:7"; "-odin"]
       false true false false).

Lemma command_lines_read_witness :
  registry_main ["service"; "run"; "--db=/tmp/a b.db"; "--interval=.5"; "--peer=loki:7"; "--peer=-odin"; "--remote-port=0";
    "--auth-token==x"; "--pool-port=7777"; "--instance=thor"; "--exclude-uid=9906"; "--no-peering"] = Go (Some (RcRun bench_run)) /\
  registry_main ["unlock"; "--force"; "tovez"] = Go (Some (RcUnlock None "tovez")) /\
  exists c, Some (RcServiceControl "stop" (Some UserFlag) true) = Some c.
Proof.
  split; [|split].
  - apply (proj1 command_lines_read ".5" (RcRun bench_run) ["service"; "run"] (run_pieces ".5" bench_run)); [|right; left; reflexivity|reflexivity].
    split; [split; [discriminate|reflexivity]|]. repeat split; repeat constructor; try discriminate; cbn; lia.
  - apply (proj1 command_lines_read "" (RcUnlock None "tovez") ["unlock"] (command_pieces "" (RcUnlock None "tovez")));
      [split; [discriminate|reflexivity]|left; reflexivity|reflexivity].
  - apply (proj1 (proj2 command_lines_read) ["service"; "stop"; "--dry"; "--user"]); [|by_eval].
    repeat (apply Forall_cons_2; [split; discriminate|]). apply Forall_nil_2.
Defined.
